(* ===== verification/_CoqProject ===== *)
-Q . S2P
Prelude.v
Heap.v
CommonMath.v
Params.v
RlpEncode.v
RlpDecode.v
RlpFacts.v
Opcodes.v
VmBase.v
VmAnalysis.v
VmInterface.v
Precompiles.v
GasTable.v
Evm.v
Instructions.v
JumpTable.v
Interpreter.v
VmLaws.v
VmInvariant.v
GasFacts.v
ExecFacts.v
PrecompileFacts.v
EvmFacts.v
CallFacts.v
InterpreterFacts.v
StateAccount.v
RlpTyped.v
ChainTypes.v
StateModel.v
StateFacts.v
StateKeys.v
StateInstance.v
Supply.v
MemDb.v
StateTransition.v
ChainFacts.v
Transactions.v
TxFacts.v
TxList.v
TxListFacts.v
TxPricedFacts.v
TxOrder.v
EthashAlgo.v
EthashSizes.v
EthashEpoch.v
Ethash.v
EthashFacts.v
Clique.v
CliqueFacts.v
CliqueChain.v
VmFunctional.v
StateStatic.v
TrieEncoding.v
TrieTree.v
TrieNode.v
TrieModel.v
TrieRep.v
TrieFacts.v
TrieHash.v
TrieDecode.v
TrieCommit.v
TrieTheorems.v
TrieProof.v
TrieProofFacts.v
CanDb.v
TrieDatabase.v
TrieDbFacts.v
TrieDbCommit.v
TrieDbCap.v
TrieBind.v
TrieExample.v
TrieProperties.v
DeriveSha.v
VmTheorems.v
StateTheorems.v
StateFlush.v
BlockState.v
BlockProcess.v
BlockFacts.v
