(* ===== verification/Prelude.v ===== *)
(** * A verification of the execution and consensus layers of canchain

    canchain is a blockchain client in Go.  This development models the part of it
    that executes messages (the encoding of data, the virtual machine, the world
    state, the Merkle-Patricia trie with its node database, and the transition that
    applies a message to the state), the processing of the blocks that carry the
    messages, the data types of the chain with the signing of transactions, the
    transaction lists of the pool, and the two consensus engines, Ethash and Clique.
    Every definition is a translation of code under
    [src/]; loops are fixpoints, a panic or a slice access out of range is [Panic],
    an [error] result is [Err], a [uint64] is an integer with its wrap-around written
    out ([u64]), a 256-bit word an integer below [2 ^ 256], and bytes are lists of
    [byte].  Code that is not modelled enters as the methods of a type class, with
    what is relied on as the laws of a second class.

    ** How the parts interact

    A message ([StateTransition.v]) buys gas from the pool of its block and from its
    sender, and calls the machine ([Evm.v]).  The machine runs code by rounds of the
    interpreter ([Interpreter.v]): a table entry ([JumpTable.v]) gives the stack
    check, the memory size, the gas function ([GasTable.v]) and the body
    ([Instructions.v]) of an instruction; precompiled contracts ([Precompiles.v]) run
    in place of code.  All of them read and write the world state through the
    interface [StateDB] ([VmInterface.v]), whose laws are [StateDBLaws] ([VmLaws.v]).
    [kernel/state] ([StateModel.v]) implements it ([StateInstance.v]) with objects,
    caches and a journal on top of an abstract trie.  The trie ([TrieModel.v]) is a
    tree of nodes over a node database, the interface [NodeDatabase] with the laws
    [NodeDatabaseLaws] ([TrieRep.v]); [lib/trie/database.go] ([TrieDatabase.v])
    implements it ([TrieDbFacts.v]) over the key-value interface [KeyValue] of
    [CanDb.v].  RLP ([RlpEncode.v], [RlpDecode.v]) is the encoding of accounts,
    contract addresses and nodes, and, through the class [Rlp] ([RlpTyped.v]), of the
    data types of the chain ([ChainTypes.v]), whose hashes identify blocks and
    transactions.  A transaction ([Transactions.v]) becomes a message when its sender is
    recovered; the pool keeps transactions in lists ([TxList.v]) and the miner takes
    them by price ([TxOrder.v]), both over the binary heaps of [Heap.v].  Headers are
    checked and sealed by an engine over the interface [ChainReader]: Ethash
    ([Ethash.v], with the hash function of [EthashAlgo.v], the sizes of
    [EthashSizes.v] and the caches and datasets per epoch of [EthashEpoch.v]) or Clique
    ([Clique.v]); Ethash pays rewards to the world state.  The processor
    ([BlockProcess.v]) turns the transactions of a block into messages, applies them one
    after the other to the world state, whose logs, roots and finalisation are the
    interface [BlockDB] ([BlockState.v]), collects the receipts and lets the engine
    finalise the block; the roots of the body are those of [DeriveSha.v].

    ** Files, sources and theorems

    - [Prelude.v]: outcomes and results with their notations, machine integers, bytes
      and big-endian numbers, shared lemmas, the hint database [go].
    - [CommonMath.v] ([common/math/big.go], [integer.go], [common/bytes.go],
      [types.go]): word arithmetic.  [Exp_modpow]: the limb-wise exponentiation is the
      power modulo [2 ^ 256].
    - [Params.v] ([params]): constants, gas tables, fork rules.
      [CheckCompatible_rewinds]: the rewind loop ends.
    - [RlpEncode.v], [RlpDecode.v], [RlpFacts.v] ([lib/rlp]): the two-pass encoder and
      the stream decoder.  The encoder computes the recursive format
      ([EncodeToBytes_enc]); the decoder gives back what was encoded
      ([DecodeBytes_enc]), ends on every input and accepts canonical encodings only
      ([DecodeBytes_canonical]); [Split_iff] and [CountValues_enc] for the raw functions.
    - [Opcodes.v], [VmBase.v], [VmAnalysis.v] ([kernel/vm/opcodes.go], [stack.go],
      [memory.go], [contract.go], [analysis.go], ...): [StringToOp_String];
      [codeBitmap_correct] and [validJumpdest_correct] on jump destinations.
    - [VmInterface.v], [Precompiles.v], [GasTable.v], [Evm.v], [Instructions.v],
      [JumpTable.v], [Interpreter.v] ([kernel/vm]): the machine.  [VmLaws.v],
      [VmInvariant.v], [GasFacts.v], [ExecFacts.v], [PrecompileFacts.v], [EvmFacts.v],
      [CallFacts.v], [InterpreterFacts.v] build up its invariant, and [VmTheorems.v]
      states it: on any lawful world state, for all hard forks and any code, a round
      keeps the machine well formed and costs gas ([step_correct]), a run ends
      ([Run_correct]), and calls and creations end, return at most their gas and undo
      everything when they fail, with the exceptions that the rules make ([Call_correct],
      [Create_correct]).  [VmFunctional.v]:
      what memory, calls and signed instructions cost or compute, and two defects.
    - [StateAccount.v], [StateModel.v], [StateFacts.v], [StateKeys.v], [StateInstance.v]
      ([kernel/state]): the world state and its laws.  [StateTheorems.v]: reverting to
      a snapshot restores every read ([RevertToSnapshot_restores]), caches are not
      observable ([caches_unobservable]).  [StateFlush.v]: [Finalise] writes back
      exactly the dirty accounts ([Finalise_correct], [dirties_exact]); an account
      that is replaced is lost ([recreated_account_is_lost]).  [StateStatic.v]: a static
      call changes nothing ([StaticCall_pure]).
    - [Supply.v], [StateTransition.v] ([kernel/state_transition.go], [gaspool.go]):
      applying a message ends, mints no ether and accounts for gas
      ([ApplyMessage_correct]); intrinsic gas is exact ([IntrinsicGas_exact]).
    - [RlpTyped.v], [ChainTypes.v], [ChainFacts.v] ([lib/rlp/decode.go],
      [kernel/types/block.go], [transaction.go], [receipt.go], [log.go], [bloom9.go]):
      decoders of typed values and the data of the chain.  Blocks and transactions
      decode to what was encoded, receipts to the part of them that is encoded
      ([wire_roundtrip]); blooms have no false
      negatives ([CreateBloom_complete]) and only grow ([Bloom_Add_monotone]).
    - [Transactions.v], [TxFacts.v] ([transaction_signing.go]): a signed transaction is
      accepted by the signers of its chain only, with the address of the key
      ([SignTx_Sender]), except for chain id zero ([SignTx_chain_zero]); no twin of a
      signature is accepted ([recoverPlain_not_malleable]); cached hashes and senders
      are not observable ([caches_transparent]).
    - [Heap.v], [TxList.v], [TxListFacts.v], [TxPricedFacts.v], [TxOrder.v]
      ([container/heap], [kernel/tx_list.go], [TransactionsByPriceAndNonce] of
      [transaction.go]): the nonce map is the sorted list of its transactions
      ([txSortedMap_refines]); lists of an account ([txList_Filter], [txList_Add],
      [txList_shrink]); the price heap follows the lookup through every operation, which
      take the cheapest transactions ([priced_in_step]), but may hold a transaction twice
      ([Discard_repeats]); blocks are filled by best price and nonce
      ([price_and_nonce_order]).
    - [EthashAlgo.v], [EthashSizes.v], [EthashEpoch.v], [Ethash.v], [EthashFacts.v]
      ([lib/consensus/ethash/algorithm.go], [ethash.go], [consensus.go], [sealer.go],
      [lib/consensus/misc]): the generator of the cache, in place and in 32 bits, computes
      the rows of its specification ([generateCache_refines]); the dataset is right
      however its threads interleave ([generateDataset_rows]), and at every block whose
      dataset stays within 4 GiB hashing with it or with the cache alone agrees
      ([light_is_full]); past that the upper rows stay empty ([dataset_overflows]), and a
      dataset whose file cannot be mapped has the wrong size ([mapFailed_doubles]).  The
      tabulated sizes are those of the formula ([sizes_of_block]).  Headers are accepted
      by the stated rules ([verifyHeader_iff]), uncles exactly when they are few,
      distinct, recent, new and valid ([VerifyUncles_iff]), a mined header verifies
      ([mined_header_verifies]), difficulty is bounded ([CalcDifficulty_bounds]) and
      every account gets its rewards and nothing else ([accumulateRewards_pays]).
    - [Clique.v], [CliqueFacts.v], [CliqueChain.v] ([lib/consensus/clique]): snapshots
      keep their books ([apply_keeps_books]), the signers change by majority only
      ([signers_change_by_majority]), some signer can always go on
      ([some_signer_can_sign]), one signer is in turn ([one_signer_in_turn]), the seal
      check agrees with the snapshot ([seal_check_agrees]) but for the first blocks
      ([early_resign_accepted]); a last signer that leaves ends the chain
      ([last_signer_leaves]).  The
      snapshot of a block is the replay of its chain whatever is cached
      ([snapshot_replays]), and what an engine prepares and seals it accepts
      ([sealed_header_verifies]).
    - [TrieEncoding.v], [TrieNode.v], [TrieModel.v], [TrieProof.v], [TrieDatabase.v],
      [CanDb.v] ([lib/trie], [candb]): keys, nodes, trie, hasher, proofs, node database
      and in-memory disk.  [TrieTree.v] is the specification, canonical trees, and
      [TrieRep.v] relates nodes and databases to them; [TrieFacts.v], [TrieHash.v],
      [TrieDecode.v], [TrieCommit.v], [TrieTheorems.v], [TrieProofFacts.v],
      [TrieDbFacts.v], [TrieDbCommit.v], [TrieDbCap.v] and [TrieBind.v] are the proofs.
      [TrieProperties.v]: the trie is a map ([trie_refines_map]) whose root hash is a
      function of its content ([Hash_canonical]) and binds it ([Hash_binding]);
      committed tries come back ([Commit_New], [trie_survives_restart]); proofs are
      complete and sound ([Prove_VerifyProof], [VerifyProof_sound]); nodes decode to
      what was encoded ([decodeNode_roundtrip]); the flush list stays in order and no
      node is lost ([flush_list_invariant], [Commit_Cap_keep_nodes]); two defects
      ([VerifyProof_panics], [size_accounting_wraps]).
    - [BlockState.v], [DeriveSha.v], [BlockProcess.v], [BlockFacts.v]
      ([kernel/state_processor.go], [block_validator.go], [evm.go],
      [kernel/types/derive_sha.go], [NewBlock] of [block.go], [lib/consensus/misc/dao.go],
      [Finalize] of the engines): processing a block ends with receipts that add up and
      mints no more than the reward ([Process_books]); the hash of a block binds its body
      ([ValidateBody_binds]) and what is assembled validates ([NewBlock_validates]); the
      block hash instruction finds the ancestors ([GetHashFn_ancestors]); a proposed gas
      limit is accepted ([CalcGasLimit_allowed]); the DAO fork moves ether and makes none
      ([ApplyDAOHardFork_moves]).
    - [MemDb.v], [TrieExample.v]: closed instances with simple functions in place of
      the cryptographic ones, in which the hypotheses of the theorems are shown to hold.

    ** Fuel and bounds

    The interpreter runs on fuel; every round that goes on costs gas, so fuel above
    the gas of the outermost call is enough, nested calls included, and the theorems
    conclude that the run ends.  The decoder's fuel is a function of the input's
    length, the trie's of the key's length; the node database descends on fuel that is
    the number of cached nodes, enough when no node is below itself ([ranked]).
    [VerifyProof] takes its nodes from a proof that may be hostile and need not end;
    its fuel is an argument, and the length of the key is enough for an honest proof.
    The search for a Clique snapshot runs on fuel above the block number, which is
    enough since every step goes to the parent; the loops of the transaction lists on
    the sizes of their heaps; the nonce search of a miner on the number of attempts
    before it is aborted; the search for a prime size on an argument.  The machine of a
    transaction has fuel above the gas limit of its block, and the walk to an ancestor a
    bound of its own, [walk], enough above the number of the parent
    ([GetHashFn_ancestors]).
    Gas is below [2 ^ 62] and inputs are shorter than [2 ^ 62] bytes where the theorems
    on the machine say so; keys and values of tries are shorter than [2 ^ 32].  Hash
    functions are parameters with 32-byte results; where a theorem needs that nodes,
    headers or bodies do not collide, it says which byte strings are meant.  The map of
    jump destinations is keyed by code hash, so that the theorems on the machine leave
    its panic open for a hash function under which two codes collide.

    ** Not modelled

    Locks, goroutines, metrics, logs and tracing; the recycling of integer objects;
    the reflection that chooses encoders and decoders by Go type (instances of a class
    choose them instead); JSON and text forms; curve arithmetic, Keccak and the
    primality test, which are parameters; the cache of clean nodes in front of the
    disk, the trie iterator and trie synchronisation; the insertion and reorganisation
    of blocks, the transaction pool around its lists, the memory-mapped files of Ethash
    (what they hold is modelled, and that mapping can fail) and its remote miners, the timing of sealed Clique blocks; networking, accounts,
    remote procedure calls and the command line, which drive the modelled parts and
    depend on clocks, sockets and files.  The world state is proved against its trie
    interface and the trie against a map; the two are not composed, since
    [kernel/state] goes through the secure trie. *)
From stdpp Require Import base numbers list gmap.
From Stdlib Require Import ZArith Lia.
From Stdlib Require Strings.Byte.

#[global] Open Scope Z_scope.

(** * Outcomes of Go code

    A Go function either returns, panics, or (in the model only) exhausts the
    fuel of a loop whose end is not structural. *)

Inductive outcome (A : Type) : Type :=
| Ok (a : A)
| Panic
| OutOfFuel.
Arguments Ok {A} a.
Arguments Panic {A}.
Arguments OutOfFuel {A}.

Definition obind {A B} (x : outcome A) (f : A -> outcome B) : outcome B :=
  match x with
  | Ok a => f a
  | Panic => Panic
  | OutOfFuel => OutOfFuel
  end.

(** A Go function with an [error] as its last result. *)
Inductive result (E A : Type) : Type :=
| Good (a : A)
| Err (e : E).
Arguments Good {E A} a.
Arguments Err {E A} e.

Definition rbind {E A B} (x : result E A) (f : A -> result E B) : result E B :=
  match x with
  | Good a => f a
  | Err e => Err e
  end.

Declare Scope go_scope.
Delimit Scope go_scope with go.
Notation "'let!' x := c 'in' k" := (obind c (fun x => k))
  (at level 10, x pattern, c at level 200, k at level 200) : go_scope.
Notation "'try!' x := c 'in' k" := (rbind c (fun x => k))
  (at level 10, x pattern, c at level 200, k at level 200) : go_scope.
#[global] Open Scope go_scope.

Create HintDb go.

(** * Machine integers *)

Definition two64 : Z := 18446744073709551616.
Definition MaxUint64 : Z := 18446744073709551615.
Definition two256 : Z := 2 ^ 256.

(** Conversion to [uint64] (also to [uint] on a 64-bit platform). *)
Definition u64 (x : Z) : Z := x mod two64.

(** Conversion of a 64-bit pattern to [int64] (also [int]). *)
Definition s64 (x : Z) : Z :=
  let y := u64 x in if y <? 9223372036854775808 then y else y - two64.

Definition is_u64 (x : Z) : Prop := 0 <= x <= MaxUint64.
Definition is_word (x : Z) : Prop := 0 <= x < two256.

(** Case analysis on the integer tests of the source. *)
Ltac zdestruct :=
  repeat match goal with
  | H : context [?a <? ?b] |- _ => destruct (Z.ltb_spec a b)
  | H : context [?a <=? ?b] |- _ => destruct (Z.leb_spec a b)
  | H : context [?a =? ?b] |- _ => destruct (Z.eqb_spec a b)
  | |- context [?a <? ?b] => destruct (Z.ltb_spec a b)
  | |- context [?a <=? ?b] => destruct (Z.leb_spec a b)
  | |- context [?a =? ?b] => destruct (Z.eqb_spec a b)
  end.

Ltac invc H := inversion H; clear H; subst.

Lemma two64_eq : two64 = 2 ^ 64.
Proof. reflexivity. Qed.

Lemma u64_range x : is_u64 (u64 x).
Proof.
  unfold is_u64, u64, MaxUint64.
  pose proof (Z.mod_pos_bound x two64 eq_refl). unfold two64 in *. lia.
Qed.

Lemma u64_small x : is_u64 x -> u64 x = x.
Proof. intros. apply Z.mod_small. unfold is_u64, MaxUint64, two64 in *. lia. Qed.

Lemma u64_nonneg x : 0 <= u64 x.
Proof. apply u64_range. Qed.

Lemma s64_small x : 0 <= x < 9223372036854775808 -> s64 x = x.
Proof.
  intros H. unfold s64. rewrite u64_small by (unfold is_u64, MaxUint64; lia).
  zdestruct; lia.
Qed.

Lemma two256_pos : 0 < two256.
Proof. reflexivity. Qed.

Lemma word_mod x : is_word (x mod two256).
Proof. apply Z.mod_pos_bound, two256_pos. Qed.

#[export] Hint Resolve u64_range u64_nonneg word_mod two256_pos : go.

(** * Bytes *)

Abbreviation byte := Byte.byte.

#[global] Instance byte_eq_decision : EqDecision byte := Byte.byte_eq_dec.

Definition b2z (b : byte) : Z := Z.of_N (Byte.to_N b).

(** Conversion to [byte]: the low eight bits. *)
Definition z2b (z : Z) : byte :=
  match Byte.of_N (Z.to_N (z mod 256)) with
  | Some b => b
  | None => Byte.x00
  end.

Lemma b2z_range b : 0 <= b2z b < 256.
Proof. unfold b2z. pose proof (Byte.to_N_bounded b). lia. Qed.

Lemma b2z_z2b z : b2z (z2b z) = z mod 256.
Proof.
  unfold b2z, z2b. pose proof (Z.mod_pos_bound z 256 eq_refl).
  destruct (Byte.of_N (Z.to_N (z mod 256))) as [b|] eqn:E.
  - apply Byte.to_of_N in E. rewrite E. lia.
  - apply Byte.of_N_None_iff in E. lia.
Qed.

Lemma z2b_b2z b : z2b (b2z b) = b.
Proof.
  unfold z2b, b2z. rewrite Z.mod_small by apply b2z_range.
  rewrite N2Z.id, Byte.of_to_N. reflexivity.
Qed.

Lemma b2z_inj b c : b2z b = b2z c -> b = c.
Proof. intros H. rewrite <- (z2b_b2z b), H. apply z2b_b2z. Qed.

Lemma z2b_mod z : z2b (z mod 256) = z2b z.
Proof. unfold z2b. rewrite Z.mod_mod by lia. reflexivity. Qed.

#[export] Hint Resolve b2z_range : go.

(** [len] of a slice. *)
Definition zlen {A} (l : list A) : Z := Z.of_nat (length l).

Lemma zlen_nonneg {A} (l : list A) : 0 <= zlen l.
Proof. unfold zlen. lia. Qed.

Lemma zlen_app {A} (l k : list A) : zlen (l ++ k) = zlen l + zlen k.
Proof. unfold zlen. rewrite length_app. lia. Qed.

Lemma zlen_cons {A} (x : A) l : zlen (x :: l) = 1 + zlen l.
Proof. unfold zlen. simpl. lia. Qed.

#[export] Hint Resolve zlen_nonneg : go.

(** The big-endian value of a byte slice ([big.Int.SetBytes]). *)
Fixpoint be_acc (acc : Z) (l : list byte) : Z :=
  match l with
  | [] => acc
  | b :: l => be_acc (acc * 256 + b2z b) l
  end.

Definition be2z (l : list byte) : Z := be_acc 0 l.

(** The [n] low-order bytes of [z], most significant first. *)
Fixpoint z2be (n : nat) (z : Z) : list byte :=
  match n with
  | O => []
  | S n => z2be n (z / 256) ++ [z2b z]
  end.

Lemma be_acc_spec l acc : be_acc acc l = acc * 256 ^ zlen l + be2z l.
Proof.
  unfold be2z. revert acc. induction l as [|b l IH]; intros acc; simpl.
  - unfold zlen. simpl. lia.
  - rewrite IH, (IH (0 * 256 + b2z b)), zlen_cons, Z.pow_add_r by (auto with go; lia).
    ring.
Qed.

Lemma be2z_cons b l : be2z (b :: l) = b2z b * 256 ^ zlen l + be2z l.
Proof. unfold be2z at 1. cbn [be_acc]. rewrite be_acc_spec. f_equal. Qed.

Lemma be2z_app l k : be2z (l ++ k) = be2z l * 256 ^ zlen k + be2z k.
Proof.
  induction l as [|b l IH]; simpl; [unfold be2z at 2; simpl; lia|].
  rewrite !be2z_cons, IH, zlen_app, Z.pow_add_r by auto with go. ring.
Qed.

Lemma be2z_snoc l b : be2z (l ++ [b]) = be2z l * 256 + b2z b.
Proof. rewrite be2z_app. unfold zlen. simpl. unfold be2z at 2. simpl. lia. Qed.

Lemma be2z_bound l : 0 <= be2z l < 256 ^ zlen l.
Proof.
  induction l as [|b l IH]; [unfold be2z, zlen; simpl; lia|].
  rewrite be2z_cons, zlen_cons, Z.pow_add_r by (auto with go; lia).
  pose proof (b2z_range b). simpl. nia.
Qed.

Lemma length_z2be n z : length (z2be n z) = n.
Proof.
  revert z. induction n as [|n IH]; intros z; simpl; [done|].
  rewrite length_app, IH. simpl. lia.
Qed.

Lemma be2z_z2be n z : be2z (z2be n z) = z mod 256 ^ Z.of_nat n.
Proof.
  revert z. induction n as [|n IH]; intros z; [by rewrite Z.mod_1_r|].
  cbn [z2be]. rewrite be2z_snoc, IH, b2z_z2b.
  rewrite Nat2Z.inj_succ, Z.pow_succ_r by lia.
  rewrite Z.rem_mul_r by lia. lia.
Qed.

Lemma z2be_be2z l : z2be (length l) (be2z l) = l.
Proof.
  induction l as [|b l IH] using rev_ind; [done|].
  rewrite length_app, Nat.add_comm. cbn [length Nat.add z2be].
  rewrite be2z_snoc. pose proof (b2z_range b). f_equal.
  - rewrite Z.div_add_l, (Z.div_small (b2z b)), Z.add_0_r by lia. apply IH.
  - rewrite <- z2b_mod, Z.add_comm, Z.mod_add, z2b_mod by lia.
    by rewrite z2b_b2z.
Qed.

Lemma be2z_inj l k : length l = length k -> be2z l = be2z k -> l = k.
Proof.
  intros Hl He. rewrite <- (z2be_be2z l), <- (z2be_be2z k). congruence.
Qed.

Lemma be2z_replicate_zero n : be2z (replicate n Byte.x00) = 0.
Proof.
  induction n as [|n IH]; [done|]. simpl. rewrite be2z_cons, IH. reflexivity.
Qed.

Lemma be2z_zeros_app n l : be2z (replicate n Byte.x00 ++ l) = be2z l.
Proof. rewrite be2z_app, be2z_replicate_zero. lia. Qed.
