(* ===== verification/Heap.v ===== *)
(** * Binary heaps ([container/heap])

    The heap operations of the standard library over a slice, for any [Less] that is
    a strict weak order: they permute the slice and keep it a heap, whose first
    element is a least one. *)
From S2P Require Import Prelude.
From stdpp Require Import base numbers list.
From Stdlib Require Import ZArith Lia.
#[local] Open Scope nat_scope.

(** [Less] of a heap.  [hle less x y]: [y] is not before [x]. *)
Definition hle {A} (less : A -> A -> bool) (x y : A) : Prop := less y x = false.
Class HeapOrder {A} (less : A -> A -> bool) : Prop := {
  hle_trans : forall x y z, hle less x y -> hle less y z -> hle less x z;
  hle_total : forall x y, less x y = true -> hle less x y
}.

Module Heap.

Section heap.
Context {A : Type} (less : A -> A -> bool).

(** Elements are compared and swapped by index; the indices are below the length. *)
Definition Less (l : list A) (i j : nat) : bool :=
  match l !! i, l !! j with Some x, Some y => less x y | _, _ => false end.
Definition Swap (l : list A) (i j : nat) : list A :=
  match l !! i, l !! j with Some x, Some y => <[i := y]> (<[j := x]> l) | _, _ => l end.

(** The parent of the root is the root. *)
Fixpoint up (fuel : nat) (l : list A) (j : nat) : list A :=
  match fuel with
  | O => l
  | S fuel =>
      let i := (j - 1) / 2 in
      if (i =? j) || negb (Less l j i) then l else up fuel (Swap l i j) i
  end.

(** The slice, and whether the element moved. *)
Fixpoint down (fuel : nat) (l : list A) (i n : nat) : list A * bool :=
  match fuel with
  | O => (l, false)
  | S fuel =>
      let j1 := 2 * i + 1 in
      if n <=? j1 then (l, false)
      else
        let j2 := j1 + 1 in
        let j := if (j2 <? n) && Less l j2 j1 then j2 else j1 in
        if negb (Less l j i) then (l, false) else (fst (down fuel (Swap l i j) j n), true)
  end.

Definition Push (l : list A) (x : A) : list A :=
  let l := l ++ [x] in up (length l) l (length l - 1).

(** [Pop] of the slice itself takes the last element. *)
Definition Pop (l : list A) : option (A * list A) :=
  let n := length l - 1 in
  let l := fst (down n (Swap l 0 n) 0 n) in
  match l !! n with Some x => Some (x, take n l) | None => None end.

Definition Remove (l : list A) (i : nat) : list A :=
  let n := length l - 1 in
  let l :=
    if n =? i then l
    else
      let l := Swap l i n in
      let (l', moved) := down n l i n in
      if moved then l' else up n l' i in
  take n l.

Fixpoint Init_loop (i : nat) (l : list A) (n : nat) : list A :=
  match i with
  | O => l
  | S i => Init_loop i (fst (down n l i n)) n
  end.
Definition Init (l : list A) : list A := Init_loop (length l / 2) l (length l).

Definition Fix (l : list A) (i : nat) : list A :=
  let n := length l in
  let (l', moved) := down n l i n in
  if moved then l' else up n l' i.

(** ** Order *)

Notation "x ⊑ y" := (hle less x y) (at level 70).

(** The element at [j] is not before its parent. *)
Definition ordered (l : list A) (j : nat) : Prop := forall x p, l !! j = Some x -> l !! ((j - 1) / 2) = Some p -> p ⊑ x.
Definition is_heap (l : list A) : Prop := forall j, 0 < j < length l -> ordered l j.

Context `{HeapOrder A less}.

Lemma hle_refl x : x ⊑ x.
Proof. unfold hle. destruct (less x x) eqn:E; [|done]. pose proof (hle_total _ _ E) as Hx. unfold hle in Hx. congruence. Qed.

Lemma is_heap_root l x y i : is_heap l -> l !! 0 = Some x -> l !! i = Some y -> x ⊑ y.
Proof.
  intros Hl Hx. revert y. induction i as [i IH] using lt_wf_ind. intros y Hy.
  destruct (decide (i = 0)) as [->|Hi]; [replace y with x by congruence; apply hle_refl|].
  pose proof (lookup_lt_Some _ _ _ Hy) as Hlt. assert ((i - 1) / 2 < i) as Hp by (apply Nat.Div0.div_lt_upper_bound; lia).
  destruct (lookup_lt_is_Some_2 l ((i - 1) / 2)) as [p Ep]; [lia|].
  apply (hle_trans x p y); [by eapply IH|]. by apply (Hl i ltac:(lia)).
Qed.

(** ** Swapping *)

Lemma Swap_length l i j : length (Swap l i j) = length l.
Proof. unfold Swap. destruct (l !! i), (l !! j); by rewrite ?length_insert. Qed.

Lemma Swap_lookup l i j x y k : l !! i = Some x -> l !! j = Some y ->
  Swap l i j !! k = if decide (k = i) then Some y else if decide (k = j) then Some x else l !! k.
Proof.
  intros Hi Hj. unfold Swap. rewrite Hi, Hj. pose proof (lookup_lt_Some _ _ _ Hi). pose proof (lookup_lt_Some _ _ _ Hj).
  destruct (decide (k = i)) as [->|]; [by rewrite list_lookup_insert_eq by (rewrite length_insert; lia)|]. rewrite list_lookup_insert_ne by done.
  destruct (decide (k = j)) as [->|]; [by rewrite list_lookup_insert_eq|by rewrite list_lookup_insert_ne].
Qed.

Lemma Swap_perm l i j : Swap l i j ≡ₚ l.
Proof.
  unfold Swap. destruct (l !! i) as [x|] eqn:Hi, (l !! j) as [y|] eqn:Hj; try done. by apply (Permutation_insert_swap l j i).
Qed.

Lemma Less_true l i j : Less l i j = true -> exists x y, l !! i = Some x /\ l !! j = Some y /\ less x y = true.
Proof. unfold Less. destruct (l !! i) as [x|], (l !! j) as [y|]; try done. by exists x, y. Qed.
Lemma Less_false l i j x y : Less l i j = false -> l !! i = Some x -> l !! j = Some y -> y ⊑ x.
Proof. unfold Less. intros E Hx Hy. by rewrite Hx, Hy in E. Qed.

Lemma parent_iff i j : 0 < j -> (j - 1) / 2 = i <-> j = 2 * i + 1 \/ j = 2 * i + 2.
Proof.
  intros Hj. split.
  - intros <-. pose proof (Nat.div_mod_eq (j - 1) 2). pose proof (Nat.mod_upper_bound (j - 1) 2). lia.
  - intros [->| ->]; [replace (2 * i + 1 - 1) with (i * 2) by lia; by apply Nat.div_mul|].
    replace (2 * i + 2 - 1) with (1 + i * 2) by lia. by rewrite Nat.div_add.
Qed.
Lemma parent_lt j : 0 < j -> (j - 1) / 2 < j.
Proof. intros Hj. apply Nat.Div0.div_lt_upper_bound; lia. Qed.

(** ** Sifting up *)

(** In order but for [j], whose children are in order with its parent. *)
Definition low_at (l : list A) (n j : nat) : Prop :=
  (forall m, 0 < m < n -> m <> j -> ordered l m) /\
  (forall m x p, 0 < m < n -> (m - 1) / 2 = j -> 0 < j -> l !! m = Some x -> l !! ((j - 1) / 2) = Some p -> p ⊑ x).

Lemma up_ok fuel : forall l n j, low_at l n j -> j < n <= length l -> j <= fuel ->
  up fuel l j ≡ₚ l /\ (forall m, 0 < m < n -> ordered (up fuel l j) m) /\ (forall m, n <= m -> up fuel l j !! m = l !! m).
Proof.
  induction fuel as [|fuel IH]; intros l n j [Hord Hgc] Hj Hf.
  { split; [done|]. split; [|done]. intros m Hm. apply Hord; [done|lia]. }
  cbn [up]. set (i := (j - 1) / 2). destruct (Nat.eqb_spec i j) as [Ei|Ei].
  { cbn. split; [done|]. split; [|done]. intros m Hm. apply Hord; [done|]. intros ->. pose proof (parent_lt j). lia. }
  assert (0 < j) as Hj0 by (destruct j; [by destruct Ei|lia]). pose proof (parent_lt j Hj0) as Hij. fold i in Hij.
  destruct (Less l j i) eqn:El; cbn [orb negb].
  2: { split; [done|]. split; [|done]. intros m Hm. destruct (decide (m = j)) as [->|]; [|by apply Hord].
       intros x p Hx Hp. by apply (Less_false l j i). }
  apply Less_true in El as (x & p & Hx & Hp & Hlt).
  pose proof (Swap_lookup l i j p x) as Hsw. specialize (fun k => Hsw k Hp Hx) as Hsw'. clear Hsw.
  assert (low_at (Swap l i j) n i) as Hlow.
  { split.
    - intros m Hm Hmi y q Hy Hq. rewrite Hsw' in Hy, Hq. rewrite decide_False in Hy by done.
      destruct (decide (m = j)) as [->|Hmj].
      + injection Hy as <-. fold i in Hq. rewrite decide_True in Hq by done. injection Hq as <-. by apply hle_total.
      + destruct (decide ((m - 1) / 2 = i)) as [Em|Em].
        * injection Hq as <-. apply (hle_trans _ p); [by apply hle_total|]. apply (Hord m Hm Hmj); [done|by rewrite Em].
        * destruct (decide ((m - 1) / 2 = j)) as [Em'|]; [|by apply (Hord m Hm Hmj)].
          injection Hq as <-. apply (Hgc m y p Hm Em' Hj0 Hy). done.
    - intros m y q Hm Em Hi Hy Hq. rewrite Hsw' in Hy, Hq. pose proof (parent_lt i Hi).
      rewrite !decide_False in Hq by lia. pose proof (parent_lt m ltac:(lia)). rewrite decide_False in Hy by lia.
      assert (q ⊑ p) as Hqp by (apply (Hord i); [lia|lia|done|done]).
      destruct (decide (m = j)) as [->|Hmj]; [by injection Hy as <-|]. apply (hle_trans _ p); [done|]. apply (Hord m Hm Hmj); [done|by rewrite Em]. }
  destruct (IH (Swap l i j) n i Hlow) as (Hperm & Hheap & Hrest); [rewrite Swap_length; lia|lia|].
  split; [by rewrite Hperm, Swap_perm|]. split; [done|]. intros m Hm. rewrite Hrest, Hsw', !decide_False by lia. done.
Qed.

(** ** Sifting down *)

(** In order from [k] on but for [i]; its children are in order with its parent. *)
Definition high_at (l : list A) (n k i : nat) : Prop :=
  (forall m, 0 < m < n -> k <= (m - 1) / 2 -> m <> i -> (m - 1) / 2 <> i -> ordered l m) /\
  (forall m x p, 0 < m < n -> (m - 1) / 2 = i -> 0 < i -> k <= (i - 1) / 2 -> l !! m = Some x -> l !! ((i - 1) / 2) = Some p -> p ⊑ x).

Record downed (l l' : list A) (n k i : nat) (moved : bool) : Prop := {
  dn_perm : l' ≡ₚ l;
  dn_rest : forall m, n <= m -> l' !! m = l !! m;
  dn_order : forall m, 0 < m < n -> k <= (m - 1) / 2 -> m <> i -> ordered l' m;
  dn_still : moved = false -> l' = l;
  dn_moved : moved = true -> 0 < i -> k <= (i - 1) / 2 -> ordered l' i
}.

(** The smaller child. *)
Lemma down_child l n i (j1 := 2 * i + 1) (j2 := j1 + 1) (j := if (j2 <? n) && Less l j2 j1 then j2 else j1) : n <= length l -> j1 < n ->
  j < n /\ (j - 1) / 2 = i /\ i < j /\ forall m x y, 0 < m < n -> (m - 1) / 2 = i -> l !! m = Some x -> l !! j = Some y -> y ⊑ x.
Proof.
  intros Hn Hj1. assert (j = j1 /\ (n <= j2 \/ Less l j2 j1 = false) \/ j = j2 /\ j2 < n /\ Less l j2 j1 = true) as Hj.
  { subst j. destruct (Nat.ltb_spec j2 n); [|left; by auto]. destruct (Less l j2 j1) eqn:E; [by right|left; by auto]. }
  assert (j < n /\ (j - 1) / 2 = i /\ i < j) as (Hjn & Hpj & Hij).
  { destruct Hj as [(-> & _)|(-> & ? & _)]; subst j1 j2; (split; [lia|]; split; [apply parent_iff; lia|lia]). }
  split; [done|]. split; [done|]. split; [done|]. intros m x y Hm Em Hx Hy.
  apply parent_iff in Em; [|lia]. assert (m = j1 \/ m = j2) as Em' by (subst j1 j2; lia). clear Em. destruct Hj as [(Ej & El)|(Ej & Hj2 & El)].
  - rewrite Ej in Hy. destruct Em' as [->| ->]; [replace x with y by congruence; apply hle_refl|].
    destruct El as [?|El]; [lia|]. by apply (Less_false l j2 j1).
  - rewrite Ej in Hy. apply Less_true in El as (x2 & x1 & Hx2 & Hx1 & Hlt). assert (x2 = y) as -> by congruence.
    destruct Em' as [->| ->]; [replace x with x1 by congruence; by apply hle_total|]. replace x with y by congruence. apply hle_refl.
Qed.

Lemma down_ok fuel : forall l n k i, high_at l n k i -> n <= length l -> k <= i -> n <= i + fuel ->
  downed l (fst (down fuel l i n)) n k i (snd (down fuel l i n)).
Proof.
  assert (forall l n k i, high_at l n k i -> (forall m x y, 0 < m < n -> (m - 1) / 2 = i -> l !! m = Some x -> l !! i = Some y -> y ⊑ x) -> downed l l n k i false) as Hstop.
  { intros l n k i [Hord Hgc] Hch. split; try done. intros m Hm Hk Hmi. destruct (decide ((m - 1) / 2 = i)) as [E|E]; [|by apply Hord].
    intros x p Hx Hp. rewrite E in Hp. by apply (Hch m). }
  induction fuel as [|fuel IH]; intros l n k i Hhigh Hn Hki Hf.
  { apply Hstop; [done|]. intros m x y Hm Em. apply parent_iff in Em; lia. }
  cbn [down]. destruct (Nat.leb_spec n (2 * i + 1)) as [Hleaf|Hch].
  { apply Hstop; [done|]. intros m x y Hm Em. apply parent_iff in Em; lia. }
  destruct (down_child l n i Hn Hch) as (Hjn & Hpj & Hij & Hmin). set (j := if (2 * i + 1 + 1 <? n) && Less l (2 * i + 1 + 1) (2 * i + 1) then 2 * i + 1 + 1 else 2 * i + 1) in *.
  destruct (lookup_lt_is_Some_2 l j) as [y Hy]; [lia|]. destruct (lookup_lt_is_Some_2 l i) as [x Hx]; [lia|].
  destruct (Less l j i) eqn:El; cbn [negb].
  2: { apply Hstop; [done|]. intros m z w Hm Em Hz Hw. apply (hle_trans _ y); [by apply (Less_false l j i)|by apply (Hmin m)]. }
  apply Less_true in El as (y' & x' & Hy' & Hx' & Hlt). assert (y' = y) as -> by congruence. assert (x' = x) as -> by congruence. clear Hy' Hx'.
  destruct Hhigh as [Hord Hgc].
  pose proof (fun k => Swap_lookup l i j x y k Hx Hy) as Hsw.
  assert (high_at (Swap l i j) n k j) as Hhigh'.
  { split.
    - intros m Hm Hk Hmj Hpm z w Hz Hw. rewrite Hsw in Hz, Hw. rewrite (decide_False (P := (m - 1) / 2 = j)) in Hw by done. rewrite (decide_False (P := m = j)) in Hz by done.
      destruct (decide (m = i)) as [->|Hmi].
      + injection Hz as <-. pose proof (parent_lt i ltac:(lia)). rewrite decide_False in Hw by lia. apply (Hgc j y w); [lia|done|lia|done|done|done].
      + destruct (decide ((m - 1) / 2 = i)) as [E|E]; [injection Hw as <-; by apply (Hmin m)|by apply (Hord m)].
    - intros m z w Hm Em Hj0 _ Hz Hw. pose proof (parent_lt m ltac:(lia)). rewrite Hsw in Hz, Hw. rewrite Hpj, decide_True in Hw by done. injection Hw as <-.
      rewrite !decide_False in Hz by lia. apply (Hord m); [done|lia|lia|lia|done|by rewrite Em]. }
  destruct (IH (Swap l i j) n k j Hhigh') as [Hperm Hrest Horder Hstill Hmoved]; [by rewrite Swap_length|lia|lia|]. split.
  - cbn [fst]. by rewrite Hperm, Swap_perm.
  - intros m Hm. cbn [fst]. rewrite Hrest, Hsw, !decide_False by lia. done.
  - intros m Hm Hk Hmi. cbn [fst]. destruct (decide (m = j)) as [->|Hmj]; [|by apply Horder].
    destruct (snd (down fuel (Swap l i j) j n)) eqn:Em; [apply Hmoved; [done|lia|by rewrite Hpj]|]. rewrite (Hstill eq_refl).
    intros z w Hz Hw. rewrite Hsw in Hz, Hw. rewrite Hpj, decide_True in Hw by done. rewrite decide_False, decide_True in Hz by lia.
    injection Hz as <-. injection Hw as <-. by apply hle_total.
  - done.
  - intros _ Hi Hk. cbn [fst]. apply Horder; [lia|done|lia].
Qed.

(** ** The operations *)

Lemma ordered_take l n m : m < n -> ordered (take n l) m <-> ordered l m.
Proof.
  intros Hm. assert ((m - 1) / 2 < n) by (destruct m; [cbn; lia|pose proof (parent_lt (S m)); lia]).
  unfold ordered. by rewrite !lookup_take_lt.
Qed.
Lemma is_heap_take l n : (forall m, 0 < m < n -> ordered l m) -> is_heap (take n l).
Proof. intros Hl m Hm. rewrite length_take in Hm. apply ordered_take; [lia|]. apply Hl. lia. Qed.

Lemma Push_ok l x : is_heap l -> is_heap (Push l x) /\ Push l x ≡ₚ x :: l.
Proof.
  intros Hl. unfold Push. assert (length (l ++ [x]) = S (length l)) as Elen by (rewrite length_app; cbn; lia). rewrite Elen.
  replace (S (length l) - 1) with (length l) by lia.
  destruct (up_ok (S (length l)) (l ++ [x]) (S (length l)) (length l)) as (Hperm & Hord & _); [|lia|lia|].
  - split.
    + intros m Hm Hne y p Hy Hp. pose proof (parent_lt m ltac:(lia)). rewrite lookup_app_l in Hy, Hp by lia. by apply (Hl m ltac:(lia)).
    + intros m y p Hm Em. pose proof (parent_lt m ltac:(lia)). lia.
  - split.
    + intros m Hm. rewrite (Permutation_length Hperm), Elen in Hm. by apply Hord.
    + rewrite Hperm. symmetry. apply Permutation_cons_append.
Qed.

(** The last element goes where one was taken out. *)
Lemma Swap_last_high l i n x : is_heap l -> length l = S n -> i < n -> l !! i = Some x ->
  (forall m, 0 < m < n -> m <> i -> (m - 1) / 2 <> i -> ordered (Swap l i n) m) /\
  (forall m y p, 0 < m < n -> (m - 1) / 2 = i -> 0 < i -> Swap l i n !! m = Some y -> Swap l i n !! ((i - 1) / 2) = Some p -> p ⊑ y).
Proof.
  intros Hl Hn Hi Hx. destruct (lookup_lt_is_Some_2 l n) as [z Hz]; [lia|]. pose proof (fun k => Swap_lookup l i n x z k Hx Hz) as Hsw. split.
  - intros m Hm Hmi Hpm y p Hy Hp. pose proof (parent_lt m ltac:(lia)). rewrite Hsw, !decide_False in Hy by lia. rewrite Hsw, !decide_False in Hp by lia. by apply (Hl m ltac:(lia)).
  - intros m y p Hm Em Hi0 Hy Hp. pose proof (parent_lt m ltac:(lia)). pose proof (parent_lt i Hi0). rewrite Hsw, !decide_False in Hy by lia. rewrite Hsw, !decide_False in Hp by lia.
    apply (hle_trans _ x); [by apply (Hl i ltac:(lia))|]. apply (Hl m ltac:(lia)); [done|by rewrite Em].
Qed.

Lemma take_last l n (x : A) : length l = S n -> l !! n = Some x -> l ≡ₚ x :: take n l.
Proof.
  intros Hn Hx. rewrite <- (take_drop n l) at 1. rewrite (drop_S l x n Hx), drop_ge by lia. symmetry. apply Permutation_cons_append.
Qed.

Lemma Pop_ok l : l <> [] -> is_heap l -> exists x l', Pop l = Some (x, l') /\ l !! 0 = Some x /\ l ≡ₚ x :: l' /\ is_heap l' /\ (forall y, y ∈ l -> x ⊑ y).
Proof.
  intros Hne Hl. destruct (lookup_lt_is_Some_2 l 0) as [x Hx]; [destruct l; [done|cbn; lia]|].
  assert (exists n, length l = S n) as [n Hn] by (destruct l; [done|by eexists]).
  unfold Pop. rewrite Hn. replace (S n - 1) with n by lia. set (l1 := Swap l 0 n).
  assert (l1 !! n = Some x) as Hlast.
  { destruct (lookup_lt_is_Some_2 l n) as [z Hz]; [lia|]. unfold l1. rewrite (Swap_lookup l 0 n x z) by done.
    destruct (decide (n = 0)) as [->|]; [congruence|by rewrite decide_True]. }
  assert (length l1 = S n) as Hn1 by (unfold l1; by rewrite Swap_length).
  assert (high_at l1 n 0 0) as Hhigh.
  { destruct (decide (n = 0)) as [->|Hn0]; [split; intros; lia|].
    destruct (Swap_last_high l 0 n x Hl Hn) as [H1 H2]; [lia|done|]. split; [intros m ? ?; by apply H1|intros; lia]. }
  destruct (down_ok n l1 n 0 0 Hhigh) as [Hperm Hrest Hord _ _]; [lia|lia|lia|]. set (l2 := fst (down n l1 0 n)) in *.
  assert (length l2 = S n) as Hn2 by (by rewrite (Permutation_length Hperm)).
  assert (l2 !! n = Some x) as Hlast2 by (rewrite Hrest by lia; done). rewrite Hlast2.
  exists x, (take n l2). split; [done|]. split; [done|]. split.
  { rewrite <- (take_last l2 n x) by done. rewrite Hperm. unfold l1. by rewrite Swap_perm. }
  split; [apply is_heap_take; intros m Hm; apply Hord; lia|].
  intros y (i & Hi)%list_elem_of_lookup. by apply (is_heap_root l x y i).
Qed.

Lemma Remove_ok l i x : is_heap l -> l !! i = Some x -> is_heap (Remove l i) /\ l ≡ₚ x :: Remove l i.
Proof.
  intros Hl Hx. pose proof (lookup_lt_Some _ _ _ Hx) as Hi. assert (exists n, length l = S n) as [n Hn] by (destruct l; [cbn in Hi; lia|by eexists]).
  unfold Remove. rewrite Hn. replace (S n - 1) with n by lia. destruct (Nat.eqb_spec n i) as [<-|Hne].
  { split; [apply is_heap_take; intros m Hm; apply Hl; lia|by apply take_last]. }
  assert (i < n) as Hin by lia. destruct (lookup_lt_is_Some_2 l n) as [z Hz]; [lia|]. set (l1 := Swap l i n).
  assert (l1 !! n = Some x) as Hlast by (unfold l1; rewrite (Swap_lookup l i n x z), decide_False, decide_True by done; done).
  assert (length l1 = S n) as Hn1 by (unfold l1; by rewrite Swap_length).
  destruct (Swap_last_high l i n x Hl Hn Hin Hx) as [H1 H2]. fold l1 in H1, H2.
  destruct (down_ok n l1 n 0 i) as [Hperm Hrest Hord Hstill Hmoved]; [split; [intros m ? ?; by apply H1|intros m y p ? ? ? ?; by apply H2]|lia|lia|lia|].
  destruct (down n l1 i n) as [l2 moved]. cbn [fst snd] in *. assert (l2 !! n = Some x) as Hlast2 by (by rewrite Hrest).
  assert (length l2 = S n) as Hn2 by (by rewrite (Permutation_length Hperm)). assert (l ≡ₚ l2) as Hp2 by (rewrite Hperm; unfold l1; by rewrite Swap_perm).
  destruct moved.
  - split; [|rewrite Hp2; by apply take_last]. apply is_heap_take. intros m Hm. destruct (decide (m = i)) as [->|]; [apply Hmoved; [done|lia|lia]|apply Hord; [done|lia|done]].
  - rewrite (Hstill eq_refl) in *. destruct (up_ok n l1 n i) as (Hperm' & Hheap & Hrest'); [|lia|lia|].
    { split; [intros m Hm Hmi; apply Hord; [done|lia|done]|intros m y p Hm Em Hi0; by apply H2]. }
    split; [by apply is_heap_take|]. etrans; [exact Hp2|]. etrans; [symmetry; exact Hperm'|]. apply take_last; [by rewrite (Permutation_length Hperm')|]. by rewrite Hrest'.
Qed.

(** A new root sinks to its place. *)
Lemma Fix_root_ok x y t : is_heap (x :: t) -> is_heap (Fix (y :: t) 0) /\ Fix (y :: t) 0 ≡ₚ y :: t.
Proof.
  intros Hl. unfold Fix. set (n := length (y :: t)). assert (high_at (y :: t) n 0 0) as Hhigh.
  { split; [|intros; lia]. intros m Hm _ Hm0 Hp a b Ha Hb. destruct m as [|m]; [done|].
    apply (Hl (S m)); [done|done|]. by destruct ((S m - 1) / 2) as [|k]. }
  destruct (down_ok n (y :: t) n 0 0 Hhigh) as [Hperm _ Hord Hstill _]; [done|lia|lia|].
  destruct (down n (y :: t) 0 n) as [l' moved]. cbn [fst snd] in *.
  assert (is_heap l') as Hheap by (intros m Hm; rewrite (Permutation_length Hperm) in Hm; apply Hord; lia).
  by destruct moved.
Qed.

Lemma Init_loop_ok i : forall l, (forall m, 0 < m < length l -> i <= (m - 1) / 2 -> ordered l m) -> i <= length l ->
  is_heap (Init_loop i l (length l)) /\ Init_loop i l (length l) ≡ₚ l.
Proof.
  induction i as [|i IH]; intros l Hl Hi; cbn [Init_loop]; [split; [intros m Hm; apply Hl; lia|done]|].
  destruct (down_ok (length l) l (length l) i i) as [Hperm _ Hord _ _]; [|lia|lia|lia|].
  { split; [intros m Hm Hk Hmi Hpm; apply Hl; lia|]. intros m x p Hm Em Hi0 Hk. pose proof (parent_lt i Hi0). lia. }
  set (l1 := fst (down (length l) l i (length l))) in *. assert (length l1 = length l) as Elen by (by rewrite (Permutation_length Hperm)).
  destruct (IH l1) as [Hheap Hp]; [|lia|].
  { intros m Hm Hk. rewrite Elen in Hm. destruct (decide (m = i)) as [->|]; [pose proof (parent_lt i ltac:(lia)); lia|by apply Hord]. }
  rewrite Elen in *. split; [done|by rewrite Hp, Hperm].
Qed.

Lemma Init_ok l : is_heap (Init l) /\ Init l ≡ₚ l.
Proof.
  unfold Init. apply Init_loop_ok; [|apply Nat.Div0.div_le_upper_bound; lia]. intros m Hm Hk.
  assert (S ((m - 1) / 2) = (m + 1) / 2) as E by (replace (m + 1) with (m - 1 + 1 * 2) by lia; rewrite Nat.div_add; lia).
  pose proof (Nat.Div0.div_le_mono (m + 1) (length l) 2 ltac:(lia)). lia.
Qed.
End heap.
End Heap.
