(* ===== verification/CommonMath.v ===== *)
(** * Integers and byte slices of [common] and [common/math]

    [math/big] values are [Z]; [big.Int.Bits] yields the little-endian 64-bit
    words of the absolute value.  [common.Address] and [common.Hash] are the
    big-endian values of their 20- and 32-byte arrays.  The loops of
    [common/math/big.go] ([ReadBits], [Exp], [FirstBitSet]) are translated as
    loops and shown to compute the closed forms the callers rely on. *)
From S2P Require Import Prelude.
From stdpp Require Import base numbers list.
From Stdlib Require Import ZArith Lia.
#[local] Open Scope Z_scope.

(** ** [math/big] *)

Definition BitLen (x : Z) : Z := if x =? 0 then 0 else Z.log2 (Z.abs x) + 1.
Definition Sign (x : Z) : Z := Z.sgn x.
Definition big_Uint64 (x : Z) : Z := u64 (Z.abs x).
Definition big_Int64 (x : Z) : Z :=
  if x <? 0 then s64 (- s64 (Z.abs x)) else s64 (Z.abs x).
Definition big_Bytes (x : Z) : list byte :=
  z2be (Z.to_nat ((BitLen x + 7) / 8)) (Z.abs x).
Definition big_Bit (x : Z) (i : Z) : Z := if Z.testbit x i then 1 else 0.

(** [x.Bits()]: little-endian machine words, without leading zero words. *)
Fixpoint words_of (n : nat) (x : Z) : list Z :=
  match n with
  | O => []
  | S n => x mod two64 :: words_of n (x / two64)
  end.
Definition Bits (x : Z) : list Z :=
  words_of (Z.to_nat ((BitLen x + 63) / 64)) (Z.abs x).

(** ** [common/math/big.go] *)

Definition tt255 : Z := 2 ^ 255.
Definition tt256 : Z := 2 ^ 256.
Definition tt256m1 : Z := tt256 - 1.
Definition wordBits : Z := 64.
Definition wordBytes : Z := wordBits / 8.

Definition BigPow (a b : Z) : Z := a ^ b.
Definition BigMax (x y : Z) : Z := if x <? y then y else x.
Definition BigMin (x y : Z) : Z := if y <? x then y else x.

Fixpoint FirstBitSet_loop (n : nat) (i v : Z) : Z :=
  match n with
  | O => BitLen v
  | S n => if 0 <? big_Bit v i then i else FirstBitSet_loop n (i + 1) v
  end.
Definition FirstBitSet (v : Z) : Z := FirstBitSet_loop (Z.to_nat (BitLen v)) 0 v.

(** The inner loop of [ReadBits]: at most eight bytes of the word [d], written
    from index [i] downwards; returns the new index and buffer. *)
Fixpoint ReadBits_word (j i : nat) (d : Z) (buf : list byte) : nat * list byte :=
  match j, i with
  | S j, S i => ReadBits_word j i (Z.shiftr d 8) (<[i := z2b d]> buf)
  | _, _ => (i, buf)
  end.
Fixpoint ReadBits_words (ws : list Z) (i : nat) (buf : list byte) : list byte :=
  match ws with
  | [] => buf
  | d :: ws => let '(i, buf) := ReadBits_word 8 i d buf in ReadBits_words ws i buf
  end.
Definition ReadBits (bigint : Z) (buf : list byte) : list byte :=
  ReadBits_words (Bits bigint) (length buf) buf.

Definition PaddedBigBytes (bigint : Z) (n : nat) : list byte :=
  if Z.of_nat n <=? BitLen bigint / 8 then big_Bytes bigint
  else ReadBits bigint (replicate n Byte.x00).

Definition bigEndianByteAt (bigint : Z) (n : Z) : byte :=
  let words := Bits bigint in
  let i := n / wordBytes in
  match words !! Z.to_nat i with
  | None => Byte.x00
  | Some word => z2b (Z.shiftr word (8 * (n mod wordBytes)))
  end.

Definition ByteAt (bigint : Z) (padlength n : Z) : byte :=
  if padlength <=? n then Byte.x00 else bigEndianByteAt bigint (padlength - 1 - n).

Definition U256 (x : Z) : Z := Z.land x tt256m1.
Definition S256 (x : Z) : Z := if x <? tt255 then x else x - tt256.

(** The square-and-multiply loop of [Exp]; the state is [(result, base)]. *)
Fixpoint Exp_word (i : nat) (word : Z) (st : Z * Z) : Z * Z :=
  match i with
  | O => st
  | S i =>
      let '(result, base) := st in
      let result := if Z.land word 1 =? 1 then U256 (result * base) else result in
      Exp_word i (Z.shiftr word 1) (result, U256 (base * base))
  end.
Definition Exp (base exponent : Z) : Z :=
  fst (fold_left (fun st word => Exp_word (Z.to_nat wordBits) word st) (Bits exponent) (1, base)).

(** ** [common/math/integer.go] *)

Definition SafeSub (x y : Z) : Z * bool := (u64 (x - y), x <? y).
Definition SafeAdd (x y : Z) : Z * bool := (u64 (x + y), MaxUint64 - x <? y).
Definition SafeMul (x y : Z) : Z * bool :=
  if (x =? 0) || (y =? 0) then (0, false) else (u64 (x * y), MaxUint64 / x <? y).

(** ** [common/bytes.go] and [common/types.go] *)

Definition RightPadBytes (slice : list byte) (l : Z) : list byte :=
  if l <=? zlen slice then slice
  else slice ++ replicate (Z.to_nat (l - zlen slice)) Byte.x00.
Definition LeftPadBytes (slice : list byte) (l : Z) : list byte :=
  if l <=? zlen slice then slice
  else replicate (Z.to_nat (l - zlen slice)) Byte.x00 ++ slice.

Definition HashLength : nat := 32.
Definition AddressLength : nat := 20.

(** A [common.Hash] / [common.Address] as the big-endian value of its bytes. *)
Definition Hash := Z.
Definition Address := Z.

Definition BytesToHash (b : list byte) : Hash :=
  be2z (if (HashLength <? length b)%nat then drop (length b - HashLength) b else b).
Definition BigToHash (b : Z) : Hash := BytesToHash (big_Bytes b).
Definition Hash_Bytes (h : Hash) : list byte := z2be HashLength h.
Definition BytesToAddress (b : list byte) : Address :=
  be2z (if (AddressLength <? length b)%nat then drop (length b - AddressLength) b else b).
Definition BigToAddress (b : Z) : Address := BytesToAddress (big_Bytes b).
Definition Address_Bytes (a : Address) : list byte := z2be AddressLength a.

(** ** Facts *)

Lemma U256_mod x : U256 x = x mod two256.
Proof.
  unfold U256, tt256m1, tt256, two256. change (2 ^ 256 - 1) with (Z.ones 256).
  by rewrite Z.land_ones.
Qed.

Lemma U256_word x : is_word (U256 x).
Proof. rewrite U256_mod. apply word_mod. Qed.

Lemma U256_id x : is_word x -> U256 x = x.
Proof. intros. rewrite U256_mod. by apply Z.mod_small. Qed.

#[export] Hint Resolve U256_word : go.

Lemma BitLen_nonneg x : 0 <= BitLen x.
Proof. unfold BitLen. zdestruct; [lia|]. pose proof (Z.log2_nonneg (Z.abs x)). lia. Qed.

Lemma BitLen_bound x : Z.abs x < 2 ^ BitLen x.
Proof.
  unfold BitLen. zdestruct; [subst; simpl; lia|].
  apply Z.log2_spec. lia.
Qed.

Lemma BitLen_le x n : 0 <= n -> Z.abs x < 2 ^ n <-> BitLen x <= n.
Proof.
  intros Hn. unfold BitLen. zdestruct.
  - subst. simpl. split; [lia|]. intros. apply Z.pow_pos_nonneg; lia.
  - pose proof (Z.log2_lt_pow2 (Z.abs x) n). lia.
Qed.

Lemma BitLen_lower x : x <> 0 -> 2 ^ (BitLen x - 1) <= Z.abs x.
Proof.
  intros H. unfold BitLen. zdestruct; [done|].
  replace (Z.log2 (Z.abs x) + 1 - 1) with (Z.log2 (Z.abs x)) by lia.
  apply Z.log2_spec. lia.
Qed.

Lemma BitLen_0 : BitLen 0 = 0.
Proof. done. Qed.

Lemma ceil_div_bound (a b c : Z) : 0 < b -> c = b - 1 -> a <= b * ((a + c) / b).
Proof. intros ? ->. pose proof (Z.div_mod (a + (b - 1)) b). pose proof (Z.mod_pos_bound (a + (b - 1)) b). lia. Qed.

Lemma be2z_big_Bytes x : be2z (big_Bytes x) = Z.abs x.
Proof.
  unfold big_Bytes. rewrite be2z_z2be. apply Z.mod_small. split; [lia|].
  pose proof (BitLen_nonneg x). pose proof (ceil_div_bound (BitLen x) 8 7 eq_refl eq_refl).
  rewrite Z2Nat.id by (apply Z.div_pos; lia).
  change 256 with (2 ^ 8). rewrite <- Z.pow_mul_r by (try apply Z.div_pos; lia).
  eapply Z.lt_le_trans; [apply BitLen_bound|].
  apply Z.pow_le_mono_r; lia.
Qed.

Lemma length_words_of n x : length (words_of n x) = n.
Proof. revert x. induction n; intros; simpl; auto. Qed.

(** The value of a little-endian word list. *)
Fixpoint words_val (ws : list Z) : Z :=
  match ws with
  | [] => 0
  | w :: ws => w + two64 * words_val ws
  end.

Lemma words_val_of n x : words_val (words_of n x) = x mod two64 ^ Z.of_nat n.
Proof.
  revert x. induction n as [|n IH]; intros x; [by rewrite Z.mod_1_r|].
  cbn [words_of words_val]. rewrite IH.
  rewrite Nat2Z.inj_succ, Z.pow_succ_r by lia.
  rewrite Z.rem_mul_r; [done|done|]. apply Z.pow_pos_nonneg; [done|lia].
Qed.

Lemma words_val_Bits x : words_val (Bits x) = Z.abs x.
Proof.
  unfold Bits. rewrite words_val_of. apply Z.mod_small. split; [lia|].
  pose proof (BitLen_nonneg x). pose proof (ceil_div_bound (BitLen x) 64 63 eq_refl eq_refl).
  rewrite Z2Nat.id by (apply Z.div_pos; lia).
  rewrite two64_eq, <- Z.pow_mul_r by (try apply Z.div_pos; lia).
  eapply Z.lt_le_trans; [apply BitLen_bound|].
  apply Z.pow_le_mono_r; lia.
Qed.

Lemma words_of_range n x : Forall (fun w => 0 <= w < two64) (words_of n x).
Proof.
  revert x. induction n as [|n IH]; intros x; simpl; constructor; auto.
  by apply Z.mod_pos_bound.
Qed.

Lemma Bits_range x : Forall (fun w => 0 <= w < two64) (Bits x).
Proof. apply words_of_range. Qed.

(** *** [ReadBits] writes the low bytes of the value *)

Lemma z2be_mod n z : z2be n (z mod 256 ^ Z.of_nat n) = z2be n z.
Proof.
  apply be2z_inj; [by rewrite !length_z2be|].
  rewrite !be2z_z2be, Z.mod_mod; [done|]. apply Z.pow_nonzero; lia.
Qed.

Lemma z2be_app a b z :
  z2be (a + b) z = z2be a (z / 256 ^ Z.of_nat b) ++ z2be b z.
Proof.
  revert z. induction b as [|b IH]; intros z.
  - rewrite Nat.add_0_r, Z.div_1_r. simpl. by rewrite app_nil_r.
  - rewrite Nat.add_succ_r. cbn [z2be]. rewrite IH, app_assoc. do 3 f_equal.
    rewrite Nat2Z.inj_succ, Z.pow_succ_r, Z.div_div by lia. done.
Qed.

Lemma ReadBits_word_spec j i d orig tail :
  (i <= length orig)%nat ->
  ReadBits_word j i d (take i orig ++ tail) =
  ((i - j)%nat, take (i - j) orig ++ z2be (Nat.min j i) d ++ tail).
Proof.
  revert i d tail. induction j as [|j IH]; intros i d tail Hi.
  { simpl. by rewrite Nat.sub_0_r. }
  destruct i as [|i]; [done|].
  cbn [ReadBits_word Nat.min].
  destruct (lookup_lt_is_Some_2 orig i) as [b Hb]; [lia|].
  rewrite (take_S_r _ _ _ Hb), <- app_assoc.
  rewrite insert_app_r_alt by (rewrite length_take; lia).
  rewrite length_take, Nat.min_l, Nat.sub_diag by lia. cbn [insert list_insert app].
  rewrite IH by lia. cbn [Nat.sub]. f_equal. f_equal.
  rewrite Z.shiftr_div_pow2 by lia. change (2 ^ 8) with 256.
  cbn [z2be]. by rewrite <- app_assoc.
Qed.

Lemma ReadBits_words_spec ws i orig tail :
  Forall (fun w => 0 <= w < two64) ws ->
  (i <= length orig)%nat ->
  ReadBits_words ws i (take i orig ++ tail) =
  take (i - 8 * length ws) orig ++
    z2be (Nat.min (8 * length ws) i) (words_val ws) ++ tail.
Proof.
  intros Hws. revert i tail. induction Hws as [|w ws Hw Hws IH]; intros i tail Hi.
  { simpl. by rewrite Nat.sub_0_r. }
  cbn [ReadBits_words]. rewrite ReadBits_word_spec by done. rewrite IH by lia.
  cbn [length words_val]. f_equal; [f_equal; lia|].
  rewrite app_assoc. f_equal.
  destruct (decide (8 <= i)%nat) as [H8|H8].
  - replace (Nat.min 8 i) with 8%nat by lia.
    replace (Nat.min (8 * S (length ws)) i) with
      (Nat.min (8 * length ws) (i - 8) + 8)%nat by lia.
    rewrite z2be_app. change (256 ^ Z.of_nat 8) with two64. f_equal.
    + f_equal. rewrite Z.mul_comm, Z.div_add, Z.div_small by lia. lia.
    + rewrite <- (z2be_mod 8 (w + _)). change (256 ^ Z.of_nat 8) with two64.
      rewrite Z.mul_comm, Z.mod_add, Z.mod_small by done. done.
  - replace (i - 8)%nat with 0%nat by lia. rewrite Nat.min_0_r.
    replace (Nat.min (8 * S (length ws)) i) with i by lia.
    replace (Nat.min 8 i) with i by lia. cbn [z2be app].
    rewrite <- (z2be_mod i (w + _)), <- (z2be_mod i w). f_equal.
    replace two64 with (256 ^ Z.of_nat i * 256 ^ (8 - Z.of_nat i)).
    + rewrite <- Z.mul_assoc, (Z.mul_comm (256 ^ Z.of_nat i)), Z.mod_add; [done|].
      apply Z.pow_nonzero; lia.
    + rewrite <- Z.pow_add_r by lia.
      by replace (Z.of_nat i + (8 - Z.of_nat i)) with 8 by lia.
Qed.

Lemma z2be_0 n : z2be n 0 = replicate n Byte.x00.
Proof.
  induction n as [|n IH]; [done|]. cbn [z2be]. rewrite Z.div_0_l, IH by lia.
  rewrite replicate_S_end. done.
Qed.

Lemma z2be_pad n m z : 0 <= z < 256 ^ Z.of_nat m -> (m <= n)%nat ->
  z2be n z = replicate (n - m) Byte.x00 ++ z2be m z.
Proof.
  intros Hz Hm. replace n with (n - m + m)%nat at 1 by lia.
  rewrite z2be_app, Z.div_small by done. by rewrite z2be_0.
Qed.

(** [ReadBits] on a zeroed buffer stores the value modulo the buffer size. *)
Lemma ReadBits_zeros x n : 0 <= x -> ReadBits x (replicate n Byte.x00) = z2be n x.
Proof.
  intros Hx. unfold ReadBits.
  pose proof (ReadBits_words_spec (Bits x) n (replicate n Byte.x00) []) as H.
  rewrite take_ge, app_nil_r in H by (rewrite length_replicate; lia).
  rewrite length_replicate, H; [|apply Bits_range|rewrite length_replicate; lia].
  rewrite app_nil_r, words_val_Bits, Z.abs_eq by done.
  rewrite take_replicate. destruct (decide (8 * length (Bits x) <= n)%nat).
  - rewrite (Nat.min_l (8 * _)) by lia. replace (Nat.min _ n) with (n - 8 * length (Bits x))%nat by lia.
    symmetry. apply z2be_pad; [|lia]. split; [done|].
    pose proof (words_val_Bits x) as E. rewrite Z.abs_eq in E by done. rewrite <- E at 1.
    unfold Bits at 1. rewrite words_val_of, <- (length_words_of (Z.to_nat _) (Z.abs x)) at 1.
    fold (Bits x). rewrite Nat2Z.inj_mul, Z.pow_mul_r by lia.
    apply Z.mod_pos_bound, Z.pow_pos_nonneg; [done|lia].
  - rewrite (Nat.min_r (8 * _)) by lia.
    replace (n - 8 * length (Bits x))%nat with 0%nat by lia. done.
Qed.

(** *** [Exp] is modular exponentiation *)

Lemma U256_mul_l a b : U256 (U256 a * b) = U256 (a * b).
Proof. rewrite !U256_mod. by rewrite Zmult_mod_idemp_l. Qed.

Lemma U256_mul_r a b : U256 (a * U256 b) = U256 (a * b).
Proof. rewrite !U256_mod. by rewrite Zmult_mod_idemp_r. Qed.

Lemma U256_pow_l a n : 0 <= n -> U256 (U256 a ^ n) = U256 (a ^ n).
Proof.
  revert n. apply natlike_ind; [done|]. intros n Hn IH.
  rewrite !Z.pow_succ_r, U256_mul_l, <- U256_mul_r, IH, U256_mul_r by done. done.
Qed.

Lemma land1_mod w : Z.land w 1 = w mod 2.
Proof. change 1 with (Z.ones 1). by rewrite Z.land_ones. Qed.

Lemma Exp_word_spec i word result base :
  0 <= word ->
  let st := Exp_word i word (result, base) in
  U256 (fst st) = U256 (result * base ^ (word mod 2 ^ Z.of_nat i)) /\
  U256 (snd st) = U256 (base ^ (2 ^ Z.of_nat i)).
Proof.
  revert word result base. induction i as [|i IH]; intros word result base Hw; cbn zeta.
  { simpl Exp_word. change (2 ^ Z.of_nat 0) with 1. rewrite Z.mod_1_r, Z.pow_0_r, Z.mul_1_r, Z.pow_1_r. done. }
  cbn [Exp_word]. rewrite Z.shiftr_div_pow2 by lia. change (2 ^ 1) with 2.
  destruct (IH (word / 2) (if Z.land word 1 =? 1 then U256 (result * base) else result)
              (U256 (base * base))) as [H1 H2]; [apply Z.div_pos; lia|].
  assert (0 < 2 ^ Z.of_nat i) by (apply Z.pow_pos_nonneg; lia).
  rewrite H1, H2, U256_pow_l by lia. rewrite Nat2Z.inj_succ, Z.pow_succ_r by lia.
  split; [|by rewrite Z.pow_mul_r, Z.pow_2_r by lia].
  rewrite Z.rem_mul_r by lia. rewrite land1_mod.
  pose proof (Z.mod_pos_bound word 2 eq_refl).
  pose proof (Z.mod_pos_bound (word / 2) (2 ^ Z.of_nat i) ltac:(done)).
  rewrite <- U256_mul_r, U256_pow_l, U256_mul_r by lia.
  rewrite Z.pow_add_r, Z.pow_mul_r, Z.pow_2_r by lia.
  destruct (Z.eqb_spec (word mod 2) 1) as [E|E].
  - rewrite U256_mul_l, E. f_equal. ring.
  - replace (word mod 2) with 0 by lia. f_equal. ring.
Qed.

Lemma Exp_fold_spec n ws result base :
  2 ^ Z.of_nat n = two64 ->
  Forall (fun w => 0 <= w < two64) ws ->
  U256 (fst (fold_left (fun st word => Exp_word n word st) ws (result, base))) =
  U256 (result * base ^ words_val ws).
Proof.
  intros E64 Hws. revert result base. induction Hws as [|w ws Hw Hws IH]; intros result base.
  { cbn [fold_left words_val fst]. by rewrite Z.pow_0_r, Z.mul_1_r. }
  cbn [fold_left words_val].
  destruct (Exp_word_spec n w result base) as [H1 H2]; [lia|].
  destruct (Exp_word n w (result, base)) as [r b]. cbn [fst snd] in *.
  rewrite E64, Z.mod_small in H1 by done. rewrite E64 in H2.
  assert (0 <= words_val ws).
  { clear -Hws. induction Hws; cbn; [lia|]. unfold two64 in *. lia. }
  assert (0 <= two64) as E0 by done. remember two64 as W eqn:EW. clear EW E64.
  rewrite IH, <- U256_mul_l, H1, U256_mul_l, <- U256_mul_r, <- U256_pow_l, H2, U256_pow_l, U256_mul_r by done.
  f_equal. rewrite <- Z.pow_mul_r, Z.pow_add_r, Z.mul_assoc by lia. done.
Qed.

Lemma Exp_word_word i w st : is_word (fst st) -> is_word (fst (Exp_word i w st)).
Proof.
  revert w st. induction i as [|i IH]; intros w [r b] H; [done|].
  cbn [Exp_word]. apply IH. cbn [fst] in *. destruct (_ =? _); auto with go.
Qed.

Lemma Exp_fold_word n ws st :
  is_word (fst st) -> is_word (fst (fold_left (fun st word => Exp_word n word st) ws st)).
Proof.
  revert st. induction ws as [|w ws IH]; intros st Hst; [done|].
  cbn [fold_left]. apply IH, Exp_word_word, Hst.
Qed.

Lemma is_word_1 : is_word 1.
Proof. split; [lia|reflexivity]. Qed.

Lemma Exp_word_range base exponent : is_word (Exp base exponent).
Proof. apply Exp_fold_word, is_word_1. Qed.

Lemma Exp_spec base exponent : 0 <= exponent -> Exp base exponent = (base ^ exponent) mod two256.
Proof.
  intros He. rewrite <- (U256_id (Exp _ _)) by apply Exp_word_range.
  unfold Exp. rewrite Exp_fold_spec by (reflexivity || apply Bits_range).
  rewrite words_val_Bits, Z.abs_eq, Z.mul_1_l, U256_mod by done. done.
Qed.

(** *** Checked arithmetic *)

Lemma SafeAdd_ok x y r :
  is_u64 x -> is_u64 y -> SafeAdd x y = (r, false) -> r = x + y /\ is_u64 r.
Proof.
  unfold SafeAdd. intros Hx Hy [= <- H]. apply Z.ltb_ge in H.
  assert (is_u64 (x + y)) by (unfold is_u64, MaxUint64 in *; lia).
  by rewrite u64_small.
Qed.

Lemma SafeAdd_overflow x y : snd (SafeAdd x y) = true <-> MaxUint64 < x + y.
Proof. unfold SafeAdd. cbn. rewrite Z.ltb_lt. lia. Qed.

Lemma SafeMul_overflow x y :
  is_u64 x -> is_u64 y -> snd (SafeMul x y) = true <-> MaxUint64 < x * y.
Proof.
  unfold SafeMul, is_u64. intros Hx Hy.
  destruct (Z.eqb_spec x 0); [subst; cbn; unfold MaxUint64; lia|].
  destruct (Z.eqb_spec y 0); [subst; cbn; rewrite Z.mul_0_r; unfold MaxUint64; lia|].
  cbn. rewrite Z.ltb_lt. pose proof (Z.div_mod MaxUint64 x ltac:(lia)).
  pose proof (Z.mod_pos_bound MaxUint64 x ltac:(lia)). nia.
Qed.

Lemma SafeMul_ok x y r :
  is_u64 x -> is_u64 y -> SafeMul x y = (r, false) -> r = x * y /\ is_u64 r.
Proof.
  intros Hx Hy H. pose proof (SafeMul_overflow x y Hx Hy) as Ho. rewrite H in Ho. cbn in Ho.
  assert (x * y <= MaxUint64) by (destruct (Z.le_gt_cases (x * y) MaxUint64) as [?|H']; [done|]; apply Ho in H'; discriminate).
  revert H. unfold SafeMul, is_u64 in *.
  destruct (Z.eqb_spec x 0); [subst; cbn; intros [= <-]; lia|].
  destruct (Z.eqb_spec y 0); [subst; cbn; intros [= <-]; lia|].
  cbn. intros [= <- _]. rewrite u64_small; unfold is_u64; nia.
Qed.

(** *** Addresses, hashes and padding *)

Lemma be2z_drop n l :
  (n <= length l)%nat ->
  be2z (drop (length l - n) l) = be2z l mod 256 ^ Z.of_nat n.
Proof.
  intros Hn. rewrite <- (take_drop (length l - n) l) at 3.
  rewrite be2z_app. unfold zlen. rewrite length_drop.
  replace (length l - (length l - n))%nat with n by lia.
  rewrite Z.add_comm, Z.mod_add by (apply Z.pow_nonzero; lia).
  symmetry. apply Z.mod_small.
  pose proof (be2z_bound (drop (length l - n) l)) as H. unfold zlen in H.
  rewrite length_drop in H. by replace (length l - (length l - n))%nat with n in H by lia.
Qed.

Lemma be2z_low n l :
  be2z (if (n <? length l)%nat then drop (length l - n) l else l) = be2z l mod 256 ^ Z.of_nat n.
Proof.
  destruct (Nat.ltb_spec n (length l)) as [H|H]; [apply be2z_drop; lia|].
  symmetry. apply Z.mod_small. pose proof (be2z_bound l) as [? Hb].
  split; [done|]. eapply Z.lt_le_trans; [exact Hb|].
  apply Z.pow_le_mono_r; unfold zlen; lia.
Qed.

Lemma BytesToHash_mod l : BytesToHash l = be2z l mod two256.
Proof. apply (be2z_low 32). Qed.

Lemma BytesToAddress_mod l : BytesToAddress l = be2z l mod 2 ^ 160.
Proof. apply (be2z_low 20). Qed.

(** An address as the twenty bytes it has. *)
Definition is_address (a : Address) : Prop := 0 <= a < 2 ^ 160.

Lemma BytesToAddress_range l : is_address (BytesToAddress l).
Proof. rewrite BytesToAddress_mod. by apply Z.mod_pos_bound. Qed.

Lemma BigToHash_word x : is_word x -> BigToHash x = x.
Proof.
  intros [H0 H1]. unfold BigToHash.
  rewrite BytesToHash_mod, be2z_big_Bytes, Z.abs_eq by done. by apply Z.mod_small.
Qed.

Lemma BytesToHash_word l : is_word (BytesToHash l).
Proof. rewrite BytesToHash_mod. apply word_mod. Qed.

Lemma BigToAddress_mod x : 0 <= x -> BigToAddress x = x mod 2 ^ 160.
Proof.
  intros H. unfold BigToAddress. by rewrite BytesToAddress_mod, be2z_big_Bytes, Z.abs_eq.
Qed.

Lemma address_word a : 0 <= a < 2 ^ 160 -> is_word a.
Proof. unfold is_word, two256. intros. split; [lia|]. eapply Z.lt_trans; [apply H|done]. Qed.

Lemma BigToAddress_range x : is_address (BigToAddress x).
Proof. apply BytesToAddress_range. Qed.

Lemma is_address_nonneg a : is_address a -> 0 <= a.
Proof. by intros []. Qed.

Lemma zlen_RightPadBytes l n : zlen (RightPadBytes l n) = Z.max (zlen l) n.
Proof.
  unfold RightPadBytes. pose proof (zlen_nonneg l). zdestruct; [lia|].
  rewrite zlen_app. unfold zlen at 2. rewrite length_replicate. lia.
Qed.

Lemma zlen_LeftPadBytes l n : zlen (LeftPadBytes l n) = Z.max (zlen l) n.
Proof.
  unfold LeftPadBytes. pose proof (zlen_nonneg l). zdestruct; [lia|].
  rewrite zlen_app. unfold zlen at 1. rewrite length_replicate. lia.
Qed.

Lemma be2z_LeftPadBytes l n : be2z (LeftPadBytes l n) = be2z l.
Proof. unfold LeftPadBytes. zdestruct; [done|]. apply be2z_zeros_app. Qed.

Lemma be2z_word l : zlen l <= 32 -> is_word (be2z l).
Proof.
  intros H. pose proof (be2z_bound l). split; [lia|].
  eapply Z.lt_le_trans; [apply H0|]. change two256 with (256 ^ 32).
  apply Z.pow_le_mono_r; lia.
Qed.

Lemma words_of_lookup n x i :
  (i < n)%nat -> words_of n x !! i = Some ((x / two64 ^ Z.of_nat i) mod two64).
Proof.
  revert n x. induction i as [|i IH]; intros [|n] x Hi; try lia; cbn [words_of lookup list_lookup].
  - by rewrite Z.div_1_r.
  - change (words_of n (x / two64) !! i = Some ((x / two64 ^ Z.of_nat (S i)) mod two64)).
    rewrite IH by lia. rewrite Nat2Z.inj_succ, Z.pow_succ_r, Z.div_div by (try apply Z.pow_pos_nonneg; try done; lia).
    done.
Qed.

Lemma bigEndianByteAt_spec x n : 0 <= n -> bigEndianByteAt x n = z2b (Z.abs x / 256 ^ n).
Proof.
  intros Hn. unfold bigEndianByteAt. change wordBytes with 8.
  pose proof (Z.div_mod n 8 ltac:(lia)) as En. pose proof (Z.mod_pos_bound n 8 eq_refl) as Hm.
  assert (0 <= n / 8) by (apply Z.div_pos; lia).
  assert (256 ^ n = two64 ^ (n / 8) * 256 ^ (n mod 8)) as E256.
  { change two64 with (256 ^ 8). rewrite <- Z.pow_mul_r, <- Z.pow_add_r by lia. by rewrite <- En. }
  assert (0 < two64 ^ (n / 8)) by (apply Z.pow_pos_nonneg; [done|lia]).
  destruct (Bits x !! Z.to_nat (n / 8)) as [w|] eqn:E.
  - pose proof (lookup_lt_Some _ _ _ E) as Hl. unfold Bits in E, Hl.
    rewrite length_words_of in Hl. rewrite words_of_lookup in E by done. injection E as <-.
    rewrite Z2Nat.id, Z.shiftr_div_pow2 by lia. rewrite <- z2b_mod, <- (z2b_mod (_ / 256 ^ n)). f_equal.
    rewrite E256, <- Z.div_div by (try apply Z.pow_pos_nonneg; lia).
    replace (2 ^ (8 * (n mod 8))) with (256 ^ (n mod 8)) by (change 256 with (2 ^ 8); rewrite <- Z.pow_mul_r by lia; done).
    remember (Z.abs x / two64 ^ (n / 8)) as q. rewrite (Z.mod_eq q) by done.
    replace two64 with (256 ^ (n mod 8) * (256 ^ (7 - n mod 8) * 256)).
    2:{ rewrite Z.mul_assoc, <- Z.pow_add_r by lia.
        replace (n mod 8 + (7 - n mod 8)) with 7 by lia. done. }
    assert (0 < 256 ^ (n mod 8)) by (apply Z.pow_pos_nonneg; lia).
    remember (q / _) as t. clear Heqt.
    replace (q - 256 ^ (n mod 8) * (256 ^ (7 - n mod 8) * 256) * t)
      with (q + (- 256 ^ (7 - n mod 8) * t * 256) * 256 ^ (n mod 8)) by ring.
    rewrite Z.div_add, Z.mod_add by lia. done.
  - apply lookup_ge_None in E. unfold Bits in E. rewrite length_words_of in E.
    assert (Z.abs x / 256 ^ n = 0) as ->; [|done]. apply Z.div_small. split; [lia|].
    eapply Z.lt_le_trans; [apply BitLen_bound|].
    change 256 with (2 ^ 8). rewrite <- Z.pow_mul_r by lia. apply Z.pow_le_mono_r; [lia|].
    pose proof (ceil_div_bound (BitLen x) 64 63 eq_refl eq_refl). lia.
Qed.

Lemma ByteAt_range x p n : 0 <= b2z (ByteAt x p n) < 256.
Proof. apply b2z_range. Qed.

(** Binary exponentiation over the 64-bit limbs of the exponent, reducing
    modulo 2^256 at every step, computes the modular power. *)
Theorem Exp_modpow base exponent : 0 <= exponent -> Exp base exponent = (base ^ exponent) mod two256.
Proof. apply Exp_spec. Qed.

Lemma Exp_modpow_witness : Exp 3 5 = (3 ^ 5) mod two256.
Proof. apply Exp_modpow. discriminate. Defined.
