(* ===== verification/Params.v ===== *)
(** * Protocol parameters and chain configuration ([params])

    The gas schedule, the per-fork gas tables, the fork predicates of a
    [ChainConfig], and the compatibility check between a stored and a new
    configuration, whose rewind loop is shown to terminate. *)
From S2P Require Import Prelude CommonMath.
From stdpp Require Import base numbers list.
From Stdlib Require Import ZArith Lia.
#[local] Open Scope Z_scope.

(** ** [params/protocol_params.go] *)

Definition GasLimitBoundDivisor : Z := 1024.
Definition MinGasLimit : Z := 5000.
Definition GenesisGasLimit : Z := 4712388.
Definition MaximumExtraDataSize : Z := 32.
Definition ExpByteGas : Z := 10.
Definition SloadGas : Z := 50.
Definition CallValueTransferGas : Z := 9000.
Definition CallNewAccountGas : Z := 25000.
Definition TxGas : Z := 21000.
Definition TxGasContractCreation : Z := 53000.
Definition TxDataZeroGas : Z := 4.
Definition QuadCoeffDiv : Z := 512.
Definition LogDataGas : Z := 8.
Definition CallStipend : Z := 2300.
Definition Sha3Gas : Z := 30.
Definition Sha3WordGas : Z := 6.
Definition SstoreSetGas : Z := 20000.
Definition SstoreResetGas : Z := 5000.
Definition SstoreClearGas : Z := 5000.
Definition SstoreRefundGas : Z := 15000.
Definition NetSstoreNoopGas : Z := 200.
Definition NetSstoreInitGas : Z := 20000.
Definition NetSstoreCleanGas : Z := 5000.
Definition NetSstoreDirtyGas : Z := 200.
Definition NetSstoreClearRefund : Z := 15000.
Definition NetSstoreResetRefund : Z := 4800.
Definition NetSstoreResetClearRefund : Z := 19800.
Definition JumpdestGas : Z := 1.
Definition EpochDuration : Z := 30000.
Definition CallGas : Z := 40.
Definition CreateDataGas : Z := 200.
Definition CallCreateDepth : Z := 1024.
Definition ExpGas : Z := 10.
Definition LogGas : Z := 375.
Definition CopyGas : Z := 3.
Definition StackLimit : Z := 1024.
Definition TierStepGas : Z := 0.
Definition LogTopicGas : Z := 375.
Definition CreateGas : Z := 32000.
Definition Create2Gas : Z := 32000.
Definition SuicideRefundGas : Z := 24000.
Definition MemoryGas : Z := 3.
Definition TxDataNonZeroGas : Z := 68.
Definition MaxCodeSize : Z := 24576.
Definition EcrecoverGas : Z := 3000.
Definition Sha256BaseGas : Z := 60.
Definition Sha256PerWordGas : Z := 12.
Definition Ripemd160BaseGas : Z := 600.
Definition Ripemd160PerWordGas : Z := 120.
Definition IdentityBaseGas : Z := 15.
Definition IdentityPerWordGas : Z := 3.
Definition ModExpQuadCoeffDiv : Z := 20.
Definition Bn256AddGas : Z := 500.
Definition Bn256ScalarMulGas : Z := 40000.
Definition Bn256PairingBaseGas : Z := 100000.
Definition Bn256PairingPerPointGas : Z := 80000.
Definition DifficultyBoundDivisor : Z := 2048.
Definition GenesisDifficulty : Z := 131072.
Definition MinimumDifficulty : Z := 131072.
Definition DurationLimit : Z := 13.

(** Unfolds the protocol constants before [lia]. *)
Create HintDb params.
#[export] Hint Unfold
  GasLimitBoundDivisor MinGasLimit GenesisGasLimit MaximumExtraDataSize ExpByteGas SloadGas CallValueTransferGas CallNewAccountGas TxGas TxGasContractCreation TxDataZeroGas QuadCoeffDiv LogDataGas CallStipend Sha3Gas Sha3WordGas SstoreSetGas SstoreResetGas SstoreClearGas SstoreRefundGas NetSstoreNoopGas NetSstoreInitGas NetSstoreCleanGas NetSstoreDirtyGas NetSstoreClearRefund NetSstoreResetRefund NetSstoreResetClearRefund JumpdestGas EpochDuration CallGas CreateDataGas CallCreateDepth ExpGas LogGas CopyGas StackLimit TierStepGas LogTopicGas CreateGas Create2Gas SuicideRefundGas MemoryGas TxDataNonZeroGas MaxCodeSize EcrecoverGas Sha256BaseGas Sha256PerWordGas Ripemd160BaseGas Ripemd160PerWordGas IdentityBaseGas IdentityPerWordGas ModExpQuadCoeffDiv Bn256AddGas Bn256ScalarMulGas Bn256PairingBaseGas Bn256PairingPerPointGas DifficultyBoundDivisor GenesisDifficulty MinimumDifficulty DurationLimit : params.
Ltac plia := autounfold with params in *; lia.

(** ** [params/gas_table.go] *)

Record GasTable := mkGasTable {
  gt_ExtcodeSize : Z;
  gt_ExtcodeCopy : Z;
  gt_ExtcodeHash : Z;
  gt_Balance : Z;
  gt_SLoad : Z;
  gt_Calls : Z;
  gt_Suicide : Z;
  gt_ExpByte : Z;
  gt_CreateBySuicide : Z
}.

Definition GasTableHomestead : GasTable :=
  {| gt_ExtcodeSize := 20; gt_ExtcodeCopy := 20; gt_ExtcodeHash := 0; gt_Balance := 20; gt_SLoad := 50;
     gt_Calls := 40; gt_Suicide := 0; gt_ExpByte := 10; gt_CreateBySuicide := 0 |}.
Definition GasTableEIP150 : GasTable :=
  {| gt_ExtcodeSize := 700; gt_ExtcodeCopy := 700; gt_ExtcodeHash := 0; gt_Balance := 400; gt_SLoad := 200;
     gt_Calls := 700; gt_Suicide := 5000; gt_ExpByte := 10; gt_CreateBySuicide := 25000 |}.
Definition GasTableEIP158 : GasTable :=
  {| gt_ExtcodeSize := 700; gt_ExtcodeCopy := 700; gt_ExtcodeHash := 0; gt_Balance := 400; gt_SLoad := 200;
     gt_Calls := 700; gt_Suicide := 5000; gt_ExpByte := 50; gt_CreateBySuicide := 25000 |}.
Definition GasTableConstantinople : GasTable :=
  {| gt_ExtcodeSize := 700; gt_ExtcodeCopy := 700; gt_ExtcodeHash := 400; gt_Balance := 400; gt_SLoad := 200;
     gt_Calls := 700; gt_Suicide := 5000; gt_ExpByte := 50; gt_CreateBySuicide := 25000 |}.

(** ** [params/config.go] *)

Record CliqueConfig := mkCliqueConfig { Period : Z; Epoch : Z }.

(** A nil [*big.Int] block number is [None]; [Ethash] says whether the pointer
    to the (field-less) [EthashConfig] is set. *)
Record ChainConfig := mkChainConfig {
  ChainID : option Z;
  HomesteadBlock : option Z;
  DAOForkBlock : option Z;
  DAOForkSupport : bool;
  EIP150Block : option Z;
  EIP150Hash : Z;
  EIP155Block : option Z;
  EIP158Block : option Z;
  ByzantiumBlock : option Z;
  ConstantinopleBlock : option Z;
  EWASMBlock : option Z;
  Ethash : bool;
  Clique : option CliqueConfig
}.

Definition MainnetChainConfig : ChainConfig :=
  {| ChainID := Some 1; HomesteadBlock := Some 0; DAOForkBlock := None; DAOForkSupport := false;
     EIP150Block := Some 0; EIP150Hash := 0; EIP155Block := Some 0; EIP158Block := Some 0;
     ByzantiumBlock := Some 0; ConstantinopleBlock := None; EWASMBlock := None;
     Ethash := false; Clique := Some {| Period := 15; Epoch := 30000 |} |}.
Definition TestnetChainConfig : ChainConfig :=
  {| ChainID := Some 2; HomesteadBlock := Some 0; DAOForkBlock := None; DAOForkSupport := false;
     EIP150Block := Some 0; EIP150Hash := 0; EIP155Block := Some 0; EIP158Block := Some 0;
     ByzantiumBlock := Some 0; ConstantinopleBlock := None; EWASMBlock := None;
     Ethash := false; Clique := Some {| Period := 15; Epoch := 30000 |} |}.
Definition IronmanChainConfig : ChainConfig :=
  {| ChainID := Some 3; HomesteadBlock := Some 0; DAOForkBlock := None; DAOForkSupport := false;
     EIP150Block := Some 0; EIP150Hash := 0; EIP155Block := Some 0; EIP158Block := Some 0;
     ByzantiumBlock := Some 0; ConstantinopleBlock := None; EWASMBlock := None;
     Ethash := true; Clique := None |}.
Definition AllCliqueProtocolChanges : ChainConfig :=
  {| ChainID := Some 1337; HomesteadBlock := Some 0; DAOForkBlock := None; DAOForkSupport := false;
     EIP150Block := Some 0; EIP150Hash := 0; EIP155Block := Some 0; EIP158Block := Some 0;
     ByzantiumBlock := Some 0; ConstantinopleBlock := None; EWASMBlock := None;
     Ethash := false; Clique := Some {| Period := 0; Epoch := 30000 |} |}.
Definition TestChainConfig : ChainConfig :=
  {| ChainID := Some 1; HomesteadBlock := Some 0; DAOForkBlock := None; DAOForkSupport := false;
     EIP150Block := Some 0; EIP150Hash := 0; EIP155Block := Some 0; EIP158Block := Some 0;
     ByzantiumBlock := Some 0; ConstantinopleBlock := None; EWASMBlock := None;
     Ethash := true; Clique := None |}.

Definition isForked (s head : option Z) : bool :=
  match s, head with
  | Some s, Some head => s <=? head
  | _, _ => false
  end.

Definition IsHomestead (c : ChainConfig) (num : Z) : bool := isForked (HomesteadBlock c) (Some num).
Definition IsDAOFork (c : ChainConfig) (num : Z) : bool := isForked (DAOForkBlock c) (Some num).
Definition IsEIP150 (c : ChainConfig) (num : Z) : bool := isForked (EIP150Block c) (Some num).
Definition IsEIP155 (c : ChainConfig) (num : Z) : bool := isForked (EIP155Block c) (Some num).
Definition IsEIP158 (c : ChainConfig) (num : Z) : bool := isForked (EIP158Block c) (Some num).
Definition IsByzantium (c : ChainConfig) (num : Z) : bool := isForked (ByzantiumBlock c) (Some num).
Definition IsConstantinople (c : ChainConfig) (num : Z) : bool := isForked (ConstantinopleBlock c) (Some num).
Definition IsEWASM (c : ChainConfig) (num : Z) : bool := isForked (EWASMBlock c) (Some num).

Definition ChainConfig_GasTable (c : ChainConfig) (num : Z) : GasTable :=
  if IsConstantinople c num then GasTableConstantinople
  else if IsEIP158 c num then GasTableEIP158
  else if IsEIP150 c num then GasTableEIP150
  else GasTableHomestead.

Record Rules := mkRules {
  rules_ChainID : Z;
  rules_IsHomestead : bool;
  rules_IsEIP150 : bool;
  rules_IsEIP155 : bool;
  rules_IsEIP158 : bool;
  rules_IsByzantium : bool;
  rules_IsConstantinople : bool
}.

Definition ChainConfig_Rules (c : ChainConfig) (num : Z) : Rules :=
  {| rules_ChainID := default 0 (ChainID c);
     rules_IsHomestead := IsHomestead c num;
     rules_IsEIP150 := IsEIP150 c num;
     rules_IsEIP155 := IsEIP155 c num;
     rules_IsEIP158 := IsEIP158 c num;
     rules_IsByzantium := IsByzantium c num;
     rules_IsConstantinople := IsConstantinople c num |}.

Definition configNumEqual (x y : option Z) : bool :=
  match x, y with
  | None, None => true
  | Some x, Some y => x =? y
  | _, _ => false
  end.

Definition isForkIncompatible (s1 s2 : option Z) (head : Z) : bool :=
  (isForked s1 (Some head) || isForked s2 (Some head)) && negb (configNumEqual s1 s2).

(** Which configuration item differs. *)
Inductive compat_item : Type :=
| HomesteadItem | DAOItem | DAOSupportItem | EIP150Item | EIP155Item | EIP158Item
| EIP158ChainIDItem | ByzantiumItem | ConstantinopleItem | EWASMItem.

Record ConfigCompatError := mkCompatError {
  What : compat_item;
  StoredConfig : option Z;
  NewConfig : option Z;
  RewindTo : Z
}.

Definition newCompatError (what : compat_item) (storedblock newblock : option Z) : ConfigCompatError :=
  let rew :=
    match storedblock, newblock with
    | None, _ => newblock
    | Some _, None => storedblock
    | Some s, Some n => if s <? n then storedblock else newblock
    end in
  {| What := what; StoredConfig := storedblock; NewConfig := newblock;
     RewindTo := match rew with
                 | Some r => if 0 <? r then u64 (big_Uint64 r - 1) else 0
                 | None => 0
                 end |}.

Definition checkCompatible (c newcfg : ChainConfig) (head : Z) : option ConfigCompatError :=
  if isForkIncompatible (HomesteadBlock c) (HomesteadBlock newcfg) head then
    Some (newCompatError HomesteadItem (HomesteadBlock c) (HomesteadBlock newcfg))
  else if isForkIncompatible (DAOForkBlock c) (DAOForkBlock newcfg) head then
    Some (newCompatError DAOItem (DAOForkBlock c) (DAOForkBlock newcfg))
  else if IsDAOFork c head && negb (Bool.eqb (DAOForkSupport c) (DAOForkSupport newcfg)) then
    Some (newCompatError DAOSupportItem (DAOForkBlock c) (DAOForkBlock newcfg))
  else if isForkIncompatible (EIP150Block c) (EIP150Block newcfg) head then
    Some (newCompatError EIP150Item (EIP150Block c) (EIP150Block newcfg))
  else if isForkIncompatible (EIP155Block c) (EIP155Block newcfg) head then
    Some (newCompatError EIP155Item (EIP155Block c) (EIP155Block newcfg))
  else if isForkIncompatible (EIP158Block c) (EIP158Block newcfg) head then
    Some (newCompatError EIP158Item (EIP158Block c) (EIP158Block newcfg))
  else if IsEIP158 c head && negb (configNumEqual (ChainID c) (ChainID newcfg)) then
    Some (newCompatError EIP158ChainIDItem (EIP158Block c) (EIP158Block newcfg))
  else if isForkIncompatible (ByzantiumBlock c) (ByzantiumBlock newcfg) head then
    Some (newCompatError ByzantiumItem (ByzantiumBlock c) (ByzantiumBlock newcfg))
  else if isForkIncompatible (ConstantinopleBlock c) (ConstantinopleBlock newcfg) head then
    Some (newCompatError ConstantinopleItem (ConstantinopleBlock c) (ConstantinopleBlock newcfg))
  else if isForkIncompatible (EWASMBlock c) (EWASMBlock newcfg) head then
    Some (newCompatError EWASMItem (EWASMBlock c) (EWASMBlock newcfg))
  else None.

(** The [for] loop of [CheckCompatible]. *)
Fixpoint CheckCompatible_loop (fuel : nat) (c newcfg : ChainConfig) (bhead : Z)
    (lasterr : option ConfigCompatError) : outcome (option ConfigCompatError) :=
  match fuel with
  | O => OutOfFuel
  | S fuel =>
      match checkCompatible c newcfg bhead with
      | None => Ok lasterr
      | Some err =>
          if match lasterr with Some l => RewindTo err =? RewindTo l | None => false end
          then Ok lasterr
          else CheckCompatible_loop fuel c newcfg (RewindTo err) (Some err)
      end
  end.

Definition CheckCompatible (fuel : nat) (c newcfg : ChainConfig) (height : Z)
    : outcome (option ConfigCompatError) :=
  CheckCompatible_loop fuel c newcfg height None.

(** ** The rewind loop terminates at a compatible height *)

Lemma newCompatError_rewind w s1 s2 head :
  is_u64 head ->
  isForked s1 (Some head) = true \/ isForked s2 (Some head) = true ->
  let r := RewindTo (newCompatError w s1 s2) in
  0 <= r <= head /\ (r = 0 \/ r < head).
Proof.
  unfold is_u64, MaxUint64, isForked. intros Hh Hf. cbn.
  assert (forall r, r <= head ->
    let x := if 0 <? r then u64 (big_Uint64 r - 1) else 0 in 0 <= x <= head /\ (x = 0 \/ x < head)) as Hr.
  { intros r Hr. cbn. zdestruct; [|lia]. unfold big_Uint64.
    rewrite (u64_small (Z.abs r)), u64_small; unfold is_u64, MaxUint64; lia. }
  destruct s1 as [s1|], s2 as [s2|]; rewrite ?Z.leb_le in Hf.
  - destruct (Z.ltb_spec s1 s2); apply Hr; lia.
  - apply Hr. destruct Hf; [done|discriminate].
  - apply Hr. destruct Hf; [discriminate|done].
  - destruct Hf; discriminate.
Qed.

Lemma isForkIncompatible_forked s1 s2 head :
  isForkIncompatible s1 s2 head = true ->
  isForked s1 (Some head) = true \/ isForked s2 (Some head) = true.
Proof. unfold isForkIncompatible. intros [H _]%andb_true_iff. by apply orb_true_iff in H. Qed.

Lemma checkCompatible_rewind c newcfg head e :
  is_u64 head -> checkCompatible c newcfg head = Some e ->
  0 <= RewindTo e <= head /\ (RewindTo e = 0 \/ RewindTo e < head).
Proof.
  intros Hh. unfold checkCompatible, IsDAOFork, IsEIP158.
  repeat match goal with
  | |- (if ?b then _ else _) = _ -> _ => destruct b eqn:?
  end; intros [= <-]; apply newCompatError_rewind; try done;
  first [by apply isForkIncompatible_forked
        | left; match goal with H : _ && _ = true |- _ => by apply andb_true_iff in H as [? _] end].
Qed.

Lemma CheckCompatible_loop_ok fuel c newcfg bhead lasterr :
  is_u64 bhead -> (Z.to_nat bhead + 1 < fuel)%nat ->
  match lasterr with Some l => RewindTo l = bhead | None => True end ->
  exists r, CheckCompatible_loop fuel c newcfg bhead lasterr = Ok r /\
    match r with
    | None => lasterr = None /\ checkCompatible c newcfg bhead = None
    | Some e => 0 <= RewindTo e <= bhead /\
        (checkCompatible c newcfg (RewindTo e) = None \/ RewindTo e = 0)
    end.
Proof.
  revert bhead lasterr. induction fuel as [|fuel IH]; intros bhead lasterr Hh Hf Hl; [lia|].
  cbn [CheckCompatible_loop]. destruct (checkCompatible c newcfg bhead) as [e|] eqn:E.
  - pose proof (checkCompatible_rewind _ _ _ _ Hh E) as [He1 He2].
    assert (is_u64 (RewindTo e)) by (unfold is_u64 in *; lia).
    destruct lasterr as [l|].
    + destruct (Z.eqb_spec (RewindTo e) (RewindTo l)) as [El|El].
      { exists (Some l). split; [done|]. split; [lia|]. right. lia. }
      destruct (IH (RewindTo e) (Some e)) as (r & -> & Hr); [done|lia|done|].
      exists r. split; [done|]. destruct r as [e'|]; [|naive_solver]. split; [lia|naive_solver].
    + destruct (decide (bhead = 0)) as [->|].
      * destruct fuel as [|fuel]; [lia|]. cbn [CheckCompatible_loop].
        assert (RewindTo e = 0) as E0 by lia. rewrite E0, E, E0. cbn.
        exists (Some e). split; [done|]. rewrite E0. split; [lia|by right].
      * destruct (IH (RewindTo e) (Some e)) as (r & -> & Hr); [done|lia|done|].
        exists r. split; [done|]. destruct r as [e'|]; [|naive_solver]. split; [lia|naive_solver].
  - exists lasterr. split; [done|]. destruct lasterr as [l|]; [|done].
    rewrite Hl. split; [unfold is_u64 in *; lia|by left].
Qed.

(** The rewind loop of [CheckCompatible] terminates within [height] + 2
    rounds.  It reports nothing exactly when the configurations agree up to
    [height]; otherwise it names a block at or below [height] at which the new
    configuration is compatible, or genesis. *)
Theorem CheckCompatible_rewinds c newcfg height fuel :
  is_u64 height -> (Z.to_nat height + 1 < fuel)%nat ->
  exists r, CheckCompatible fuel c newcfg height = Ok r /\
    match r with
    | None => checkCompatible c newcfg height = None
    | Some e => checkCompatible c newcfg height <> None /\ 0 <= RewindTo e <= height /\
        (checkCompatible c newcfg (RewindTo e) = None \/ RewindTo e = 0)
    end.
Proof.
  intros Hh Hf. destruct (CheckCompatible_loop_ok fuel c newcfg height None Hh Hf I) as (r & E & Hr).
  exists r. split; [done|]. destruct r as [e|]; [|apply Hr]. split; [|done].
  intros H. unfold CheckCompatible in E. destruct fuel; [lia|]. cbn in E. by rewrite H in E.
Qed.

(** Moving Byzantium of a synced main network to block 5 rewinds to genesis. *)
Lemma CheckCompatible_rewinds_witness :
  exists r, CheckCompatible 12 MainnetChainConfig
      (mkChainConfig (Some 1) (Some 0) None false (Some 0) 0 (Some 0) (Some 0) (Some 5) None None false None) 10 = Ok r /\
    match r with
    | None => checkCompatible MainnetChainConfig
        (mkChainConfig (Some 1) (Some 0) None false (Some 0) 0 (Some 0) (Some 0) (Some 5) None None false None) 10 = None
    | Some e => checkCompatible MainnetChainConfig
        (mkChainConfig (Some 1) (Some 0) None false (Some 0) 0 (Some 0) (Some 0) (Some 5) None None false None) 10 <> None /\
        0 <= RewindTo e <= 10 /\
        (checkCompatible MainnetChainConfig
          (mkChainConfig (Some 1) (Some 0) None false (Some 0) 0 (Some 0) (Some 0) (Some 5) None None false None) (RewindTo e) = None
         \/ RewindTo e = 0)
    end.
Proof. apply CheckCompatible_rewinds; [unfold is_u64, MaxUint64; lia|cbn; lia]. Defined.
