(* ===== verification/RlpEncode.v ===== *)
(** * The RLP encoder ([lib/rlp/encode.go])

    The Go encoder is a two-pass writer: values are appended to [str] while the
    list headers, whose sizes are only known at [listEnd], are kept on the side
    in [lheads] and spliced in by [toBytes].  [enc] is the recursive definition
    of the RLP format; [EncodeToBytes_enc] shows that the two agree. *)
From S2P Require Import Prelude CommonMath.
From stdpp Require Import base numbers list.
From Stdlib Require Import ZArith Lia.
#[local] Open Scope Z_scope.
Set Warnings "-register-all".

(** ** Model *)

Inductive rlperr : Type :=
| EOL
| ErrExpectedString
| ErrExpectedList
| ErrCanonInt
| ErrCanonSize
| ErrElemTooLarge
| ErrValueTooLarge
| ErrMoreThanOneValue
| errNotInList
| errNotAtEOL
| errUintOverflow
| io_EOF
| io_ErrUnexpectedEOF
| errInvalidBool (num : Z)
| errNegativeBigInt
| decodeError (cause : rlperr)
| errTooFewElements
| errStringTooLong
| errStringTooShort
| errOfDecoder.

#[global] Instance rlperr_eq_decision : EqDecision rlperr.
Proof. solve_decision. Defined.

Record listhead := mkHead { offset : Z; size : Z }.

(** [sizebuf] is scratch space of the writers and holds no state. *)
Record encbuf := mkEncbuf {
  str : list byte;
  lheads : list listhead;
  lhsize : Z
}.

Definition emptyEncbuf : encbuf := {| str := []; lheads := []; lhsize := 0 |}.

Definition w_append (b : list byte) (w : encbuf) : encbuf :=
  {| str := str w ++ b; lheads := lheads w; lhsize := lhsize w |}.

(** [putint]: the bytes it stores; their number is its result. *)
Definition putint (i : Z) : list byte :=
  let sh k := z2b (Z.shiftr i k) in
  if i <? 2 ^ 8 then [z2b i]
  else if i <? 2 ^ 16 then [sh 8; z2b i]
  else if i <? 2 ^ 24 then [sh 16; sh 8; z2b i]
  else if i <? 2 ^ 32 then [sh 24; sh 16; sh 8; z2b i]
  else if i <? 2 ^ 40 then [sh 32; sh 24; sh 16; sh 8; z2b i]
  else if i <? 2 ^ 48 then [sh 40; sh 32; sh 24; sh 16; sh 8; z2b i]
  else if i <? 2 ^ 56 then [sh 48; sh 40; sh 32; sh 24; sh 16; sh 8; z2b i]
  else [sh 56; sh 48; sh 40; sh 32; sh 24; sh 16; sh 8; z2b i].

(** [intsize]: the loop returns after at most eight shifts of a [uint64]. *)
Fixpoint intsize_loop (fuel : nat) (sz i : Z) : Z :=
  match fuel with
  | O => sz
  | S fuel => let i := Z.shiftr i 8 in if i =? 0 then sz else intsize_loop fuel (sz + 1) i
  end.
Definition intsize (i : Z) : Z := intsize_loop 8 1 i.

Definition headsize (size : Z) : Z := if size <? 56 then 1 else 1 + intsize size.

(** [puthead]: the bytes stored at the front of the buffer. *)
Definition puthead (smalltag largetag size : Z) : list byte :=
  if size <? 56 then [z2b (smalltag + size)]
  else let b := putint size in z2b (largetag + zlen b) :: b.

Definition listhead_encode (head : listhead) : list byte := puthead 0xC0 0xF7 (size head).

Definition encodeStringHeader (sz : Z) (w : encbuf) : encbuf :=
  if sz <? 56 then w_append [z2b (0x80 + sz)] w
  else let b := putint sz in w_append (z2b (0xB7 + zlen b) :: b) w.

Definition encodeString (b : list byte) (w : encbuf) : encbuf :=
  match b with
  | [c] => if b2z c <=? 0x7F then w_append [c] w
           else w_append b (encodeStringHeader (zlen b) w)
  | _ => w_append b (encodeStringHeader (zlen b) w)
  end.

(** [w.list()]: the returned pointer is the index of the new head. *)
Definition w_list (w : encbuf) : nat * encbuf :=
  let lh := {| offset := zlen (str w); size := lhsize w |} in
  (length (lheads w), {| str := str w; lheads := lheads w ++ [lh]; lhsize := lhsize w |}).

Definition w_size (w : encbuf) : Z := zlen (str w) + lhsize w.

Definition listEnd (lh : nat) (w : encbuf) : encbuf :=
  match lheads w !! lh with
  | None => w
  | Some h =>
      let sz := w_size w - offset h - size h in
      {| str := str w;
         lheads := <[lh := {| offset := offset h; size := sz |}]> (lheads w);
         lhsize := if sz <? 56 then lhsize w + 1 else lhsize w + (1 + intsize sz) |}
  end.

(** The loop of [toBytes] over the list heads. *)
Fixpoint toBytes_loop (s : list byte) (heads : list listhead) (strpos : Z) : list byte :=
  match heads with
  | [] => drop (Z.to_nat strpos) s
  | h :: heads =>
      take (Z.to_nat (offset h - strpos)) (drop (Z.to_nat strpos) s) ++
      listhead_encode h ++ toBytes_loop s heads (offset h)
  end.
Definition toBytes (w : encbuf) : list byte := toBytes_loop (str w) (lheads w) 0.

(** Values, by the writer [makeWriter] selects for their Go type. *)
Inductive val : Type :=
| VRaw (b : list byte)
| VBigIntPtr (i : option Z)
| VUint (i : Z)
| VBool (b : bool)
| VString (s : list byte)
| VBytes (b : list byte)
| VList (l : list val).

Definition writeRawValue (b : list byte) (w : encbuf) : encbuf := w_append b w.

Definition writeUint (i : Z) (w : encbuf) : encbuf :=
  if i =? 0 then w_append [z2b 0x80] w
  else if i <? 128 then w_append [z2b i] w
  else let s := putint i in w_append (z2b (0x80 + zlen s) :: s) w.

Definition writeBool (b : bool) (w : encbuf) : encbuf :=
  w_append [if b then z2b 0x01 else z2b 0x80] w.

Definition writeBigInt (i : Z) (w : encbuf) : result rlperr encbuf :=
  if i <? 0 then Err errNegativeBigInt
  else if i =? 0 then Good (w_append [z2b 0x80] w)
  else Good (encodeString (big_Bytes i) w).

Definition writeBigIntPtr (p : option Z) (w : encbuf) : result rlperr encbuf :=
  match p with
  | None => Good (w_append [z2b 0x80] w)
  | Some i => writeBigInt i w
  end.

Definition writeBytes (b : list byte) (w : encbuf) : encbuf := encodeString b w.

Definition writeString (s : list byte) (w : encbuf) : encbuf :=
  match s with
  | [c] => if b2z c <=? 0x7f then w_append [c] w
           else w_append s (encodeStringHeader (zlen s) w)
  | _ => w_append s (encodeStringHeader (zlen s) w)
  end.

(** The writers of slices, arrays and structs: open a list, write the
    elements, stop at the first error, close the list. *)
Fixpoint encode (v : val) (w : encbuf) : result rlperr encbuf :=
  match v with
  | VRaw b => Good (writeRawValue b w)
  | VBigIntPtr p => writeBigIntPtr p w
  | VUint i => Good (writeUint i w)
  | VBool b => Good (writeBool b w)
  | VString s => Good (writeString s w)
  | VBytes b => Good (writeBytes b w)
  | VList l =>
      let '(lh, w) := w_list w in
      let fix go (l : list val) (w : encbuf) : result rlperr encbuf :=
        match l with
        | [] => Good w
        | v :: l => match encode v w with Good w => go l w | Err e => Err e end
        end in
      match go l w with
      | Good w => Good (listEnd lh w)
      | Err e => Err e
      end
  end.

Definition EncodeToBytes (v : val) : result rlperr (list byte) :=
  match encode v emptyEncbuf with
  | Good w => Good (toBytes w)
  | Err e => Err e
  end.

Definition ListSize (contentSize : Z) : Z := u64 (headsize contentSize + contentSize).

(** ** The format *)

(** RLP items: the dynamic values [decodeInterface] produces. *)
Inductive item : Type :=
| Str (b : list byte)
| Lst (l : list item).

Definition enc_head (smalltag largetag n : Z) : list byte :=
  if n <? 56 then [z2b (smalltag + n)]
  else let b := big_Bytes n in z2b (largetag + zlen b) :: b.

Definition enc_str (b : list byte) : list byte :=
  match b with
  | [c] => if b2z c <? 128 then [c] else enc_head 0x80 0xB7 1 ++ [c]
  | _ => enc_head 0x80 0xB7 (zlen b) ++ b
  end.

Definition enc_lst (payload : list byte) : list byte :=
  enc_head 0xC0 0xF7 (zlen payload) ++ payload.

Fixpoint enc (x : item) : list byte :=
  match x with
  | Str b => enc_str b
  | Lst l => enc_lst (concat (map enc l))
  end.

(** The encoding of a Go value: integers are their minimal big-endian string. *)
Fixpoint enc_val (v : val) : list byte :=
  match v with
  | VRaw b => b
  | VBigIntPtr p => enc_str (big_Bytes (default 0 p))
  | VUint i => enc_str (big_Bytes i)
  | VBool b => enc_str (if b then [z2b 1] else [])
  | VString s | VBytes s => enc_str s
  | VList l => enc_lst (concat (map enc_val l))
  end.

(** Values the encoder accepts: no negative integer. *)
Fixpoint encodable (v : val) : Prop :=
  match v with
  | VBigIntPtr (Some i) => 0 <= i
  | VUint i => is_u64 i
  | VList l => (fix all (l : list val) := match l with [] => True | v :: l => encodable v /\ all l end) l
  | _ => True
  end.

(** ** Sizes and heads *)

Lemma val_ind' (P : val -> Prop) :
  (forall b, P (VRaw b)) -> (forall p, P (VBigIntPtr p)) -> (forall i, P (VUint i)) ->
  (forall b, P (VBool b)) -> (forall s, P (VString s)) -> (forall b, P (VBytes b)) ->
  (forall l, Forall P l -> P (VList l)) -> forall v, P v.
Proof.
  intros H1 H2 H3 H4 H5 H6 H7. fix IH 1. intros [b|p|i|b|s|b|l];
    [apply H1|apply H2|apply H3|apply H4|apply H5|apply H6|apply H7].
  induction l as [|v l IHl]; constructor; [apply IH|apply IHl].
Qed.

Lemma item_ind' (P : item -> Prop) :
  (forall b, P (Str b)) -> (forall l, Forall P l -> P (Lst l)) -> forall x, P x.
Proof.
  intros H1 H2. fix IH 1. intros [b|l]; [apply H1|apply H2].
  induction l as [|x l IHl]; constructor; [apply IH|apply IHl].
Qed.

Lemma big_Bytes_width k i :
  (0 < k)%nat -> 256 ^ (Z.of_nat k - 1) <= i < 256 ^ Z.of_nat k -> big_Bytes i = z2be k i.
Proof.
  intros Hk Hi. unfold big_Bytes.
  assert (0 < 256 ^ (Z.of_nat k - 1)) by (apply Z.pow_pos_nonneg; lia).
  rewrite Z.abs_eq by lia. f_equal.
  change 256 with (2 ^ 8) in Hi. rewrite <- !Z.pow_mul_r in Hi by lia.
  assert (BitLen i <= 8 * Z.of_nat k).
  { apply BitLen_le; [lia|]. rewrite Z.abs_eq by lia. lia. }
  assert (8 * (Z.of_nat k - 1) < BitLen i).
  { apply Z.lt_nge. intros Hle. apply BitLen_le in Hle; [|lia]. rewrite Z.abs_eq in Hle by lia. lia. }
  apply Nat2Z.inj. rewrite Z2Nat.id by (apply Z.div_pos; lia).
  symmetry. apply Z.div_unique with (BitLen i + 7 - 8 * Z.of_nat k); lia.
Qed.

Lemma big_Bytes_small i : 0 < i < 256 -> big_Bytes i = [z2b i].
Proof. intros. rewrite (big_Bytes_width 1); [done|lia|]. change (256 ^ (Z.of_nat 1 - 1)) with 1. change (256 ^ Z.of_nat 1) with 256. lia. Qed.

Lemma putint_big_Bytes i : 0 < i <= MaxUint64 -> putint i = big_Bytes i.
Proof.
  unfold MaxUint64. intros Hi. unfold putint.
  change (2 ^ 8) with 256. change (2 ^ 16) with 65536. change (2 ^ 24) with 16777216.
  change (2 ^ 32) with 4294967296. change (2 ^ 40) with 1099511627776.
  change (2 ^ 48) with 281474976710656. change (2 ^ 56) with 72057594037927936.
  rewrite !Z.shiftr_div_pow2 by lia.
  assert (forall k, (0 < k)%nat -> 256 ^ (Z.of_nat k - 1) <= i < 256 ^ Z.of_nat k ->
    forall l, l = z2be k i -> l = big_Bytes i) as Hw.
  { intros k Hk H l ->. symmetry. by apply big_Bytes_width. }
  repeat match goal with |- context [if ?a <? ?b then _ else _] => destruct (Z.ltb_spec a b) end.
  all: first
    [ apply (Hw 1%nat); [lia|change (256 ^ (Z.of_nat 1 - 1)) with 1; change (256 ^ Z.of_nat 1) with 256; lia|]
    | apply (Hw 2%nat); [lia|change (256 ^ (Z.of_nat 2 - 1)) with 256; change (256 ^ Z.of_nat 2) with 65536; lia|]
    | apply (Hw 3%nat); [lia|change (256 ^ (Z.of_nat 3 - 1)) with 65536; change (256 ^ Z.of_nat 3) with 16777216; lia|]
    | apply (Hw 4%nat); [lia|change (256 ^ (Z.of_nat 4 - 1)) with 16777216; change (256 ^ Z.of_nat 4) with 4294967296; lia|]
    | apply (Hw 5%nat); [lia|change (256 ^ (Z.of_nat 5 - 1)) with 4294967296; change (256 ^ Z.of_nat 5) with 1099511627776; lia|]
    | apply (Hw 6%nat); [lia|change (256 ^ (Z.of_nat 6 - 1)) with 1099511627776; change (256 ^ Z.of_nat 6) with 281474976710656; lia|]
    | apply (Hw 7%nat); [lia|change (256 ^ (Z.of_nat 7 - 1)) with 281474976710656; change (256 ^ Z.of_nat 7) with 72057594037927936; lia|]
    | apply (Hw 8%nat); [lia|change (256 ^ (Z.of_nat 8 - 1)) with 72057594037927936; change (256 ^ Z.of_nat 8) with 18446744073709551616; lia|] ].
  all: cbn [z2be app]; rewrite ?Z.div_div by lia; reflexivity.
Qed.

Lemma intsize_loop_spec fuel sz i k :
  0 <= i < 256 ^ k -> 1 <= k <= Z.of_nat fuel -> k = 1 \/ 256 ^ (k - 1) <= i ->
  intsize_loop fuel sz i = sz + (k - 1).
Proof.
  revert sz i k. induction fuel as [|fuel IH]; intros sz i k Hi Hk Hlow; [lia|].
  cbn [intsize_loop]. rewrite Z.shiftr_div_pow2 by lia. change (2 ^ 8) with 256.
  destruct (decide (k = 1)) as [->|Hk1].
  - change (256 ^ 1) with 256 in Hi. rewrite Z.div_small by lia. simpl. lia.
  - destruct Hlow as [|Hlow]; [done|].
    assert (256 ^ k = 256 * 256 ^ (k - 1)) as E1.
    { rewrite <- Z.pow_succ_r by lia. f_equal. lia. }
    assert (256 ^ (k - 1) = 256 * 256 ^ (k - 1 - 1)) as E2.
    { rewrite <- Z.pow_succ_r by lia. f_equal. lia. }
    assert (0 < 256 ^ (k - 1 - 1)) by (apply Z.pow_pos_nonneg; lia).
    assert (256 ^ (k - 1 - 1) <= i / 256) by (apply Z.div_le_lower_bound; lia).
    assert (i / 256 < 256 ^ (k - 1)) by (apply Z.div_lt_upper_bound; lia).
    destruct (Z.eqb_spec (i / 256) 0); [lia|].
    rewrite (IH _ _ (k - 1)) by lia. lia.
Qed.

Lemma byte_width i : 0 < i <= MaxUint64 ->
  exists k, (0 < k <= 8)%nat /\ 256 ^ (Z.of_nat k - 1) <= i < 256 ^ Z.of_nat k.
Proof.
  intros Hi. exists (length (big_Bytes i)).
  pose proof (BitLen_bound i) as Hb. pose proof (BitLen_lower i ltac:(lia)) as Hl.
  rewrite Z.abs_eq in * by lia.
  unfold big_Bytes. rewrite length_z2be.
  assert (BitLen i <= 64).
  { apply BitLen_le; [lia|]. change (2 ^ 64) with 18446744073709551616. unfold MaxUint64 in *. lia. }
  assert (0 < BitLen i).
  { pose proof (BitLen_nonneg i). destruct (decide (BitLen i = 0)) as [E|]; [|lia].
    rewrite E in Hb. change (2 ^ 0) with 1 in Hb. lia. }
  pose proof (Z.div_mod (BitLen i + 7) 8 ltac:(lia)). pose proof (Z.mod_pos_bound (BitLen i + 7) 8 eq_refl).
  split; [lia|]. rewrite Z2Nat.id by lia.
  change 256 with (2 ^ 8). rewrite <- !Z.pow_mul_r by lia. split.
  - eapply Z.le_trans; [|exact Hl]. apply Z.pow_le_mono_r; lia.
  - eapply Z.lt_le_trans; [exact Hb|]. apply Z.pow_le_mono_r; lia.
Qed.

Lemma intsize_spec i : 0 < i <= MaxUint64 -> intsize i = zlen (big_Bytes i).
Proof.
  intros Hi. destruct (byte_width i Hi) as (k & Hk & Hr).
  unfold intsize. rewrite (intsize_loop_spec 8 1 i (Z.of_nat k)); [|lia|lia|right; apply Hr].
  rewrite (big_Bytes_width k) by (done || lia). unfold zlen. rewrite length_z2be. lia.
Qed.

Lemma puthead_enc smalltag largetag n :
  n <= MaxUint64 -> puthead smalltag largetag n = enc_head smalltag largetag n.
Proof.
  intros Hn. unfold puthead, enc_head. destruct (Z.ltb_spec n 56); [done|].
  rewrite putint_big_Bytes by lia. done.
Qed.

Lemma headsize_enc smalltag largetag n :
  n <= MaxUint64 -> headsize n = zlen (enc_head smalltag largetag n).
Proof.
  intros Hn. unfold headsize, enc_head. destruct (Z.ltb_spec n 56); [done|].
  rewrite zlen_cons, intsize_spec by lia. done.
Qed.

(** ** The two-pass encoder *)

Lemma str_w_append b w : str (w_append b w) = str w ++ b.
Proof. done. Qed.

(** The effect of writing one value: [v] adds string bytes and closed list
    heads which [toBytes] renders as [b]. *)
Record writes (w w' : encbuf) (b : list byte) : Prop := {
  wr_str : exists s, str w' = str w ++ s;
  wr_heads : exists hs, lheads w' = lheads w ++ hs /\
    Forall (fun h => zlen (str w) <= offset h) hs /\
    forall t rest, (forall h, head rest = Some h -> zlen (str w') <= offset h) ->
      toBytes_loop (str w' ++ t) (hs ++ rest) (zlen (str w)) =
      b ++ toBytes_loop (str w' ++ t) rest (zlen (str w'));
  wr_size : w_size w' = w_size w + zlen b
}.

Lemma toBytes_loop_advance s b t rest :
  (forall h, head rest = Some h -> zlen s + zlen b <= offset h) ->
  toBytes_loop (s ++ b ++ t) rest (zlen s) = b ++ toBytes_loop (s ++ b ++ t) rest (zlen s + zlen b).
Proof.
  unfold zlen. intros Hr.
  assert (drop (length s + length b) (s ++ b ++ t) = t) as D.
  { rewrite app_assoc, <- length_app. apply drop_app_length. }
  destruct rest as [|h rest]; cbn [toBytes_loop].
  - by rewrite Nat2Z.id, <- Nat2Z.inj_add, Nat2Z.id, drop_app_length, D.
  - specialize (Hr h eq_refl).
    rewrite Nat2Z.id, <- Nat2Z.inj_add, Nat2Z.id, drop_app_length, D.
    rewrite take_app_ge, <- app_assoc by lia. do 3 f_equal. lia.
Qed.

Lemma writes_append w b : writes w (w_append b w) b.
Proof.
  constructor.
  - by exists b.
  - exists []. rewrite app_nil_r. split; [done|]. split; [constructor|].
    intros t rest Hr. cbn [app w_append str] in *. rewrite zlen_app in *.
    rewrite <- app_assoc. apply toBytes_loop_advance. exact Hr.
  - unfold w_size. cbn. rewrite zlen_app. lia.
Qed.

Lemma writes_refl w : writes w w [].
Proof.
  constructor.
  - exists []. by rewrite app_nil_r.
  - exists []. rewrite app_nil_r. split; [done|]. split; [constructor|]. done.
  - unfold zlen. simpl. lia.
Qed.

Lemma writes_trans w1 w2 w3 b c : writes w1 w2 b -> writes w2 w3 c -> writes w1 w3 (b ++ c).
Proof.
  intros [[s1 Hs1] (h1 & Hh1 & F1 & R1) S1] [[s2 Hs2] (h2 & Hh2 & F2 & R2) S2].
  constructor.
  - exists (s1 ++ s2). by rewrite Hs2, Hs1, app_assoc.
  - exists (h1 ++ h2). split; [by rewrite Hh2, Hh1, app_assoc|]. split.
    + apply Forall_app. split; [done|]. eapply Forall_impl; [exact F2|].
      cbn. intros h. rewrite Hs1, zlen_app. pose proof (zlen_nonneg s1). lia.
    + intros t rest Hr. rewrite <- app_assoc, <- (app_assoc b c).
      rewrite <- R2 by done. rewrite Hs2, <- app_assoc. apply R1.
      intros h Hh. destruct h2 as [|h' h2]; cbn in Hh.
      * specialize (Hr h Hh). rewrite Hs2, zlen_app in Hr. pose proof (zlen_nonneg s2). lia.
      * injection Hh as ->. by inversion F2.
  - rewrite S2, S1, zlen_app. lia.
Qed.

(** Closing a list turns the bytes written since [w_list] into its payload. *)
Lemma writes_list w w' p :
  zlen p <= MaxUint64 ->
  writes (snd (w_list w)) w' p -> writes w (listEnd (fst (w_list w)) w') (enc_lst p).
Proof.
  intros Hp [[s Hs] (hs & Hh & F & R) S]. cbn [w_list fst snd str lheads] in *.
  assert (lheads w' !! length (lheads w) = Some (mkHead (zlen (str w)) (lhsize w))) as Hlk.
  { rewrite Hh, <- app_assoc, lookup_app_r, Nat.sub_diag by lia. done. }
  unfold listEnd. rewrite Hlk. cbn [offset size].
  assert (w_size w' - zlen (str w) - lhsize w = zlen p) as Hsz.
  { rewrite S. unfold w_size. cbn. lia. }
  rewrite Hsz. pose proof (zlen_nonneg p).
  constructor; cbn [str lheads lhsize].
  - by exists s.
  - exists (mkHead (zlen (str w)) (zlen p) :: hs). split; [|split].
    + rewrite Hh, <- app_assoc. rewrite insert_app_r_alt, Nat.sub_diag by lia. done.
    + constructor; [cbn; lia|done].
    + intros t rest Hr. cbn [app toBytes_loop offset].
      rewrite Z.sub_diag. cbn [take app]. unfold listhead_encode. cbn [size].
      rewrite R, puthead_enc by done. unfold enc_lst. by rewrite <- app_assoc.
  - unfold w_size, enc_lst in *. cbn [str lhsize] in *.
    rewrite zlen_app, <- (headsize_enc 0xC0 0xF7) by done.
    unfold headsize. destruct (zlen p <? 56); lia.
Qed.

Lemma big_Bytes_0 : big_Bytes 0 = [].
Proof. done. Qed.

Lemma encodeString_writes b w : zlen b <= MaxUint64 -> writes w (encodeString b w) (enc_str b).
Proof.
  intros Hb.
  assert (writes w (w_append b (encodeStringHeader (zlen b) w)) (enc_head 0x80 0xB7 (zlen b) ++ b)) as H.
  { eapply writes_trans; [|apply writes_append].
    rewrite <- puthead_enc by done. unfold encodeStringHeader, puthead.
    destruct (zlen b <? 56); apply writes_append. }
  unfold encodeString, enc_str. destruct b as [|c [|c' b]]; [exact H| |exact H].
  destruct (Z.leb_spec (b2z c) 0x7F); destruct (Z.ltb_spec (b2z c) 128); try lia.
  - apply writes_append.
  - exact H.
Qed.

Lemma enc_str_uint i : 0 < i -> zlen (big_Bytes i) < 56 ->
  enc_str (big_Bytes i) =
  if i <? 128 then [z2b i] else z2b (0x80 + zlen (big_Bytes i)) :: big_Bytes i.
Proof.
  intros Hi Hl. assert (be2z (big_Bytes i) = i) as Eb by (rewrite be2z_big_Bytes; lia).
  destruct (Z.ltb_spec i 128).
  - rewrite big_Bytes_small by lia. cbn. rewrite b2z_z2b, Z.mod_small by lia.
    destruct (Z.ltb_spec i 128); [done|lia].
  - unfold enc_str. destruct (big_Bytes i) as [|c [|c' b]] eqn:E.
    + cbn in Eb. lia.
    + unfold be2z in Eb. cbn in Eb. destruct (Z.ltb_spec (b2z c) 128); [lia|]. done.
    + unfold enc_head. destruct (Z.ltb_spec (zlen (c :: c' :: b)) 56); [done|lia].
Qed.

Lemma big_Bytes_u64_len i : is_u64 i -> zlen (big_Bytes i) <= 8.
Proof.
  intros [H0 H1]. destruct (decide (i = 0)) as [->|]; [done|].
  destruct (byte_width i) as (k & Hk & Hr); [lia|].
  rewrite (big_Bytes_width k) by (done || lia). unfold zlen. rewrite length_z2be. lia.
Qed.

Lemma zlen_enc_str_ge b : zlen b <= zlen (enc_str b).
Proof.
  unfold enc_str. destruct b as [|c [|c' b]]; rewrite ?zlen_app; [| |].
  - unfold zlen at 1. simpl. pose proof (zlen_nonneg (enc_head 0x80 0xB7 (zlen (@nil byte)))).
    pose proof (zlen_nonneg (@nil byte)). lia.
  - destruct (b2z c <? 128); [lia|]. rewrite zlen_app.
    pose proof (zlen_nonneg (enc_head 0x80 0xB7 1)). lia.
  - pose proof (zlen_nonneg (enc_head 0x80 0xB7 (zlen (c :: c' :: b)))). lia.
Qed.

Lemma zlen_enc_lst_ge p : zlen p <= zlen (enc_lst p).
Proof.
  unfold enc_lst. rewrite zlen_app.
  pose proof (zlen_nonneg (enc_head 0xC0 0xF7 (zlen p))). lia.
Qed.

Lemma writeUint_writes i w : is_u64 i -> writes w (writeUint i w) (enc_str (big_Bytes i)).
Proof.
  intros Hi. pose proof (big_Bytes_u64_len i Hi). unfold writeUint.
  destruct (Z.eqb_spec i 0) as [->|Hi0]; [apply writes_append|].
  unfold is_u64 in Hi. rewrite enc_str_uint by lia.
  destruct (i <? 128); [apply writes_append|].
  rewrite putint_big_Bytes by lia. apply writes_append.
Qed.

Lemma writeBigInt_writes i w : 0 <= i -> zlen (enc_str (big_Bytes i)) <= MaxUint64 ->
  exists w', writeBigInt i w = Good w' /\ writes w w' (enc_str (big_Bytes i)).
Proof.
  intros Hi Hl. unfold writeBigInt. destruct (Z.ltb_spec i 0); [lia|].
  destruct (Z.eqb_spec i 0) as [->|].
  - eexists. split; [done|apply writes_append].
  - eexists. split; [done|]. apply encodeString_writes.
    pose proof (zlen_enc_str_ge (big_Bytes i)). lia.
Qed.

Lemma encode_writes v w : encodable v -> zlen (enc_val v) <= MaxUint64 ->
  exists w', encode v w = Good w' /\ writes w w' (enc_val v).
Proof.
  revert w. induction v as [b|p|i|b|s|b|l IH] using val_ind'; intros w Hv Hl;
    cbn [encode enc_val encodable] in *.
  - eexists. split; [done|apply writes_append].
  - destruct p as [i|]; cbn [default] in *; [by apply writeBigInt_writes|].
    eexists. split; [done|apply writes_append].
  - eexists. split; [done|by apply writeUint_writes].
  - eexists. split; [done|]. destruct b; apply writes_append.
  - eexists. split; [done|]. change (writeString s w) with (encodeString s w).
    apply encodeString_writes. pose proof (zlen_enc_str_ge s). lia.
  - eexists. split; [done|]. apply encodeString_writes. pose proof (zlen_enc_str_ge b). lia.
  - match goal with |- context [?f l _] => set (go := f) end.
    assert (forall w, exists w', go l w = Good w' /\ writes w w' (concat (map enc_val l))) as Hgo.
    { pose proof (zlen_enc_lst_ge (concat (map enc_val l))) as Hp.
      assert (zlen (concat (map enc_val l)) <= MaxUint64) as Hb by lia. clear Hl Hp w.
      induction IH as [|v l Hhd Htl IHl]; intros w; cbn [go map concat].
      { exists w. split; [done|apply writes_refl]. }
      destruct Hv as [Hv1 Hv2]. cbn [map concat] in Hb. rewrite zlen_app in Hb.
      pose proof (zlen_nonneg (enc_val v)). pose proof (zlen_nonneg (concat (map enc_val l))).
      destruct (Hhd w Hv1) as (w1 & -> & W1); [lia|].
      destruct (IHl Hv2 ltac:(lia) w1) as (w2 & H2 & W2).
      exists w2. split; [exact H2|]. by eapply writes_trans. }
    destruct (Hgo (snd (w_list w))) as (w' & H' & W').
    change (w_list w) with (fst (w_list w), snd (w_list w)). cbv iota.
    rewrite H'. eexists. split; [done|]. apply writes_list; [|done].
    pose proof (zlen_enc_lst_ge (concat (map enc_val l))). lia.
Qed.

Lemma EncodeToBytes_spec v :
  encodable v -> zlen (enc_val v) <= MaxUint64 -> EncodeToBytes v = Good (enc_val v).
Proof.
  intros Hv Hl. unfold EncodeToBytes.
  destruct (encode_writes v emptyEncbuf Hv Hl) as (w & -> & [[s Hs] (hs & Hh & _ & R) _]).
  f_equal. unfold toBytes. cbn in Hs, Hh. specialize (R [] []).
  rewrite !app_nil_r in R. rewrite Hh. cbn [emptyEncbuf str] in R.
  change (zlen (@nil byte)) with 0 in R. rewrite R by done. cbn [toBytes_loop].
  unfold zlen. rewrite Nat2Z.id, drop_all. apply app_nil_r.
Qed.

(** The value tree of a dynamic item. *)
Fixpoint item_val (x : item) : val :=
  match x with
  | Str b => VBytes b
  | Lst l => VList (map item_val l)
  end.

Lemma enc_val_item x : enc_val (item_val x) = enc x.
Proof.
  induction x as [b|l IH] using item_ind'; [done|].
  cbn [item_val enc_val enc]. do 2 f_equal. rewrite map_map.
  induction IH; cbn; congruence.
Qed.

Lemma encodable_item x : encodable (item_val x).
Proof.
  induction x as [b|l IH] using item_ind'; [done|].
  cbn [item_val encodable]. induction IH; cbn; auto.
Qed.
