(* ===== verification/RlpDecode.v ===== *)
(** * The RLP decoder ([lib/rlp/decode.go], [lib/rlp/raw.go])

    [Stream] is the decoder's state machine over a [bytes.Reader]: the cached
    kind of the next value ([None] is the source's [-1]), the remaining input
    limit and the stack of enclosing lists (innermost first).  Every method is
    a function [Stream -> result * Stream]: a failing method still changes the
    stream. *)
From S2P Require Import Prelude CommonMath RlpEncode.
From stdpp Require Import base numbers list.
From Stdlib Require Import ZArith Lia.
#[local] Open Scope Z_scope.
Set Warnings "-register-all".

Inductive Kind : Type := KByte | KString | KList.

#[global] Instance Kind_eq_decision : EqDecision Kind.
Proof. solve_decision. Defined.

(** ** [Stream] *)

Record listpos := mkListpos { pos : Z; lsize : Z }.

Record Stream := mkStream {
  r : list byte;
  remaining : Z;
  limited : bool;
  kind : option Kind;
  ssize : Z;
  byteval : byte;
  kinderr : option rlperr;
  stack : list listpos
}.

Definition set_kind (k : option Kind) (s : Stream) : Stream :=
  mkStream (r s) (remaining s) (limited s) k (ssize s) (byteval s) (kinderr s) (stack s).
Definition set_size (n : Z) (s : Stream) : Stream :=
  mkStream (r s) (remaining s) (limited s) (kind s) n (byteval s) (kinderr s) (stack s).
Definition set_byteval (b : byte) (s : Stream) : Stream :=
  mkStream (r s) (remaining s) (limited s) (kind s) (ssize s) b (kinderr s) (stack s).
Definition set_kinderr (e : option rlperr) (s : Stream) : Stream :=
  mkStream (r s) (remaining s) (limited s) (kind s) (ssize s) (byteval s) e (stack s).
Definition set_stack (st : list listpos) (s : Stream) : Stream :=
  mkStream (r s) (remaining s) (limited s) (kind s) (ssize s) (byteval s) (kinderr s) st.
Definition set_remaining (n : Z) (s : Stream) : Stream :=
  mkStream (r s) n (limited s) (kind s) (ssize s) (byteval s) (kinderr s) (stack s).
Definition set_r (l : list byte) (s : Stream) : Stream :=
  mkStream l (remaining s) (limited s) (kind s) (ssize s) (byteval s) (kinderr s) (stack s).

(** [NewStream] on a [bytes.Reader]: the input is always limited. *)
Definition NewStream (b : list byte) (inputLimit : Z) : Stream :=
  mkStream b (if 0 <? inputLimit then inputLimit else zlen b) true None 0 Byte.x00 None [].

Definition SM (A : Type) : Type := Stream -> result rlperr A * Stream.

Definition sret {A} (a : A) : SM A := fun s => (Good a, s).
Definition sfail {A} (e : rlperr) : SM A := fun s => (Err e, s).
Definition sbind {A B} (m : SM A) (f : A -> SM B) : SM B :=
  fun s => match m s with
           | (Good a, s) => f a s
           | (Err e, s) => (Err e, s)
           end.
Definition supd (f : Stream -> Stream) : SM unit := fun s => (Good tt, f s).
Notation "'do!' x := c 'in' k" := (sbind c (fun x => k))
  (at level 10, x pattern, c at level 200, k at level 200) : go_scope.

Definition willRead (n : Z) : SM unit := fun s =>
  let s := set_kind None s in
  let limit s :=
    if limited s then
      if remaining s <? n then (Err ErrValueTooLarge, s)
      else (Good tt, set_remaining (remaining s - n) s)
    else (Good tt, s) in
  match stack s with
  | [] => limit s
  | tos :: st =>
      if u64 (lsize tos - pos tos) <? n then (Err ErrElemTooLarge, s)
      else limit (set_stack (mkListpos (u64 (pos tos + n)) (lsize tos) :: st) s)
  end.

Definition readByte : SM byte :=
  do! _ := willRead 1 in
  fun s => match r s with
           | [] => (Err io_ErrUnexpectedEOF, s)
           | b :: l => (Good b, set_r l s)
           end.

Definition readFull (n : Z) : SM (list byte) :=
  do! _ := willRead n in
  fun s => if zlen (r s) <? n then (Err io_ErrUnexpectedEOF, set_r [] s)
           else (Good (take (Z.to_nat n) (r s)), set_r (drop (Z.to_nat n) (r s)) s).

Definition readUint (size : Z) : SM Z :=
  if size =? 0 then (do! _ := supd (set_kind None) in sret 0)
  else if size =? 1 then (do! b := readByte in sret (b2z b))
  else
    do! b := readFull size in
    match b with
    | c :: _ => if b2z c =? 0 then sfail ErrCanonSize else sret (be2z b)
    | [] => sret 0
    end.

(** Inline error handling: the error becomes a value. *)
Definition stry {A} (m : SM A) : SM (result rlperr A) := fun s => let '(x, s) := m s in (Good x, s).

(** The result of [readKind] carries kind, size and error separately, as the
    source assigns all three. *)
Definition s_readKind : SM (Kind * Z * option rlperr) :=
  do! br := stry readByte in
  match br with
  | Err err => fun s =>
      let err := match stack s, err with
                 | [], io_ErrUnexpectedEOF => io_EOF
                 | [], ErrValueTooLarge => io_EOF
                 | _, _ => err
                 end in
      (Good (KByte, 0, Some err), s)
  | Good c =>
      let b := b2z c in
      do! _ := supd (set_byteval Byte.x00) in
      let long k m :=
        do! x := stry (readUint m) in
        match x with
        | Err e => sret (k, 0, Some e)
        | Good n => sret (k, n, if n <? 56 then Some ErrCanonSize else None)
        end in
      if b <? 0x80 then (do! _ := supd (set_byteval c) in sret (KByte, 0, None))
      else if b <? 0xB8 then sret (KString, b - 0x80, None)
      else if b <? 0xC0 then long KString (b - 0xB7)
      else if b <? 0xF8 then sret (KList, b - 0xC0, None)
      else long KList (b - 0xF7)
  end.

Definition s_Kind : SM (Kind * Z) := fun s =>
  match kind s with
  | Some k =>
      match kinderr s with
      | Some e => (Err e, s)
      | None => (Good (k, ssize s), s)
      end
  | None =>
      let s := set_kinderr None s in
      if match stack s with tos :: _ => pos tos =? lsize tos | [] => false end
      then (Err EOL, s)
      else
        match s_readKind s with
        | (Err e, s) => (Err e, s)
        | (Good (k, n, err), s) =>
            let err :=
              match err with
              | Some e => Some e
              | None =>
                  match stack s with
                  | [] => if limited s && (remaining s <? n) then Some ErrValueTooLarge else None
                  | tos :: _ => if u64 (lsize tos - pos tos) <? n then Some ErrElemTooLarge else None
                  end
              end in
            let s := set_kind (Some k) (set_size n (set_kinderr err s)) in
            match err with
            | Some e => (Err e, s)
            | None => (Good (k, n), s)
            end
        end
  end.

Definition s_Bytes : SM (list byte) :=
  do! (k, size) := s_Kind in
  match k with
  | KByte => fun s => (Good [byteval s], set_kind None s)
  | KString =>
      do! b := readFull size in
      match b with
      | c :: _ => if (size =? 1) && (b2z c <? 128) then sfail ErrCanonSize else sret b
      | [] => sret b
      end
  | KList => sfail ErrExpectedString
  end.

Definition s_Raw : SM (list byte) :=
  do! (k, size) := s_Kind in
  match k with
  | KByte => fun s => (Good [byteval s], set_kind None s)
  | KString => do! b := readFull size in sret (puthead 0x80 0xB7 size ++ b)
  | KList => do! b := readFull size in sret (puthead 0xC0 0xF7 size ++ b)
  end.

Definition s_uint (maxbits : Z) : SM Z :=
  do! (k, size) := s_Kind in
  match k with
  | KByte => fun s =>
      if b2z (byteval s) =? 0 then (Err ErrCanonInt, s)
      else (Good (b2z (byteval s)), set_kind None s)
  | KString =>
      if maxbits / 8 <? size then sfail errUintOverflow
      else
        do! x := stry (readUint size) in
        match x with
        | Err ErrCanonSize => sfail ErrCanonInt
        | Err e => sfail e
        | Good v => if (0 <? size) && (v <? 128) then sfail ErrCanonSize else sret v
        end
  | KList => sfail ErrExpectedString
  end.

Definition s_Bool : SM bool :=
  do! num := s_uint 8 in
  if num =? 0 then sret false
  else if num =? 1 then sret true
  else sfail (errInvalidBool num).

Definition s_List : SM Z :=
  do! (k, size) := s_Kind in
  match k with
  | KList => fun s => (Good size, set_size 0 (set_kind None (set_stack (mkListpos 0 size :: stack s) s)))
  | _ => sfail ErrExpectedList
  end.

Definition s_ListEnd : SM unit := fun s =>
  match stack s with
  | [] => (Err errNotInList, s)
  | tos :: st =>
      if negb (pos tos =? lsize tos) then (Err errNotAtEOL, s)
      else
        let st := match st with
                  | [] => []
                  | p :: st => mkListpos (u64 (pos p + lsize tos)) (lsize p) :: st
                  end in
        (Good tt, set_size 0 (set_kind None (set_stack st s)))
  end.

(** ** Decoders of Go values *)

Definition wrapStreamError (e : rlperr) : rlperr :=
  match e with
  | ErrCanonInt | ErrCanonSize | ErrExpectedList | ErrExpectedString
  | errUintOverflow | errNotAtEOL => decodeError e
  | _ => e
  end.

Definition swrap {A} (m : SM A) : SM A := fun s =>
  match m s with
  | (Err e, s) => (Err (wrapStreamError e), s)
  | x => x
  end.

Definition decodeUint (bits : Z) : SM Z := swrap (s_uint bits).
Definition decodeBool : SM bool := swrap s_Bool.
Definition decodeByteSlice : SM (list byte) := swrap s_Bytes.

Definition decodeBigInt : SM Z :=
  do! b := swrap s_Bytes in
  match b with
  | c :: _ => if b2z c =? 0 then sfail (wrapStreamError ErrCanonInt) else sret (be2z b)
  | [] => sret (be2z b)
  end.

Definition decodeByteArray (vlen : Z) : SM (list byte) :=
  do! (k, size) := s_Kind in
  match k with
  | KByte =>
      if vlen =? 0 then sfail errStringTooLong
      else if 1 <? vlen then sfail errStringTooShort
      else do! bv := stry (s_uint 64) in
           match bv with
           | Good v => sret [z2b v]
           | Err _ => sret [Byte.x00]
           end
  | KString =>
      if vlen <? size then sfail errStringTooLong
      else if size <? vlen then sfail errStringTooShort
      else
        do! slice := readFull vlen in
        match slice with
        | c :: _ => if (size =? 1) && (b2z c <? 128) then sfail (wrapStreamError ErrCanonSize) else sret slice
        | [] => sret slice
        end
  | KList => sfail (wrapStreamError ErrExpectedString)
  end.

(** Struct decoding: [EOL] on a field means the list was too short. *)
Definition field {A} (m : SM A) : SM A := fun s =>
  match m s with
  | (Err EOL, s) => (Err errTooFewElements, s)
  | x => x
  end.

(** [decodeInterface], [decodeListSlice] and [decodeSliceElems] at the element
    type [interface{}].  A value consumes at least one byte, so fuel beyond the
    input length is never used up (see [decodeInterface_total]). *)
Fixpoint decodeInterface (fuel : nat) (s : Stream) : outcome (result rlperr item * Stream) :=
  match fuel with
  | O => OutOfFuel
  | S fuel =>
      match s_Kind s with
      | (Err e, s) => Ok (Err e, s)
      | (Good (KList, _), s) =>
          match swrap s_List s with
          | (Err e, s) => Ok (Err e, s)
          | (Good size, s) =>
              if size =? 0 then
                match s_ListEnd s with
                | (Err e, s) => Ok (Err e, s)
                | (Good _, s) => Ok (Good (Lst []), s)
                end
              else
                let! (l, s) := decodeSliceElems fuel s in
                match l with
                | Err e => Ok (Err e, s)
                | Good l =>
                    match s_ListEnd s with
                    | (Err e, s) => Ok (Err e, s)
                    | (Good _, s) => Ok (Good (Lst l), s)
                    end
                end
          end
      | (Good _, s) =>
          match s_Bytes s with
          | (Err e, s) => Ok (Err e, s)
          | (Good b, s) => Ok (Good (Str b), s)
          end
      end
  end
with decodeSliceElems (fuel : nat) (s : Stream) : outcome (result rlperr (list item) * Stream) :=
  match fuel with
  | O => OutOfFuel
  | S fuel =>
      let! (x, s) := decodeInterface fuel s in
      match x with
      | Err EOL => Ok (Good [], s)
      | Err e => Ok (Err e, s)
      | Good x =>
          let! (l, s) := decodeSliceElems fuel s in
          match l with
          | Err e => Ok (Err e, s)
          | Good l => Ok (Good (x :: l), s)
          end
      end
  end.

(** [DecodeBytes] into an [interface{}]. *)
Definition DecodeBytes (fuel : nat) (b : list byte) : outcome (result rlperr item) :=
  let! (x, s) := decodeInterface fuel (NewStream b (zlen b)) in
  match x with
  | Err e => Ok (Err e)
  | Good x => match r s with [] => Ok (Good x) | _ => Ok (Err ErrMoreThanOneValue) end
  end.

(** ** [lib/rlp/raw.go] *)

Definition readSize (b : list byte) (slen : Z) : result rlperr Z :=
  if zlen b <? slen then Err io_ErrUnexpectedEOF
  else
    let s := be2z (take (Z.to_nat slen) b) in
    if (s <? 56) || match b with c :: _ => b2z c =? 0 | [] => true end then Err ErrCanonSize
    else Good s.

Definition readKind (buf : list byte) : result rlperr (Kind * Z * Z) :=
  match buf with
  | [] => Err io_ErrUnexpectedEOF
  | c :: rest =>
      let b := b2z c in
      let fits '(k, tagsize, contentsize) :=
        if u64 (zlen buf - tagsize) <? contentsize then Err ErrValueTooLarge
        else Good (k, tagsize, contentsize) in
      if b <? 0x80 then fits (KByte, 0, 1)
      else if b <? 0xB8 then
        let contentsize := b - 0x80 in
        if (contentsize =? 1) && match rest with d :: _ => b2z d <? 128 | [] => false end
        then Err ErrCanonSize
        else fits (KString, 1, contentsize)
      else if b <? 0xC0 then
        try! n := readSize rest (b - 0xB7) in fits (KString, b - 0xB7 + 1, n)
      else if b <? 0xF8 then fits (KList, 1, b - 0xC0)
      else try! n := readSize rest (b - 0xF7) in fits (KList, b - 0xF7 + 1, n)
  end.

Definition Split (b : list byte) : result rlperr (Kind * list byte * list byte) :=
  try! (k, ts, cs) := readKind b in
  Good (k, take (Z.to_nat cs) (drop (Z.to_nat ts) b), drop (Z.to_nat (ts + cs)) b).

Definition SplitString (b : list byte) : result rlperr (list byte * list byte) :=
  try! (k, content, rest) := Split b in
  if decide (k = KList) then Err ErrExpectedString else Good (content, rest).

Definition SplitList (b : list byte) : result rlperr (list byte * list byte) :=
  try! (k, content, rest) := Split b in
  if decide (k = KList) then Good (content, rest) else Err ErrExpectedList.

Fixpoint CountValues_loop (fuel : nat) (i : Z) (b : list byte) : outcome (result rlperr Z) :=
  match b with
  | [] => Ok (Good i)
  | _ =>
      match fuel with
      | O => OutOfFuel
      | S fuel =>
          match readKind b with
          | Err e => Ok (Err e)
          | Good (_, tagsize, size) => CountValues_loop fuel (i + 1) (drop (Z.to_nat (tagsize + size)) b)
          end
      end
  end.
Definition CountValues (b : list byte) : outcome (result rlperr Z) := CountValues_loop (length b) 0 b.

(** ** Headers *)

(** Parsing of a canonical header: kind, content size, bytes of the header (a
    [KByte] header is the value itself). *)
Definition parse_long (k : Kind) (m : Z) (t : list byte) : option (Kind * Z * Z) :=
  let n := be2z (take (Z.to_nat m) t) in
  if zlen t <? m then None
  else match t with
       | c :: _ => if (b2z c =? 0) || (n <? 56) then None else Some (k, n, 1 + m)
       | [] => None
       end.

Definition parse_head (l : list byte) : option (Kind * Z * Z) :=
  match l with
  | [] => None
  | c :: t =>
      let b := b2z c in
      if b <? 0x80 then Some (KByte, 0, 1)
      else if b <? 0xB8 then Some (KString, b - 0x80, 1)
      else if b <? 0xC0 then parse_long KString (b - 0xB7) t
      else if b <? 0xF8 then Some (KList, b - 0xC0, 1)
      else parse_long KList (b - 0xF7) t
  end.

Lemma z2be_nonzero_head l c t :
  l = c :: t -> b2z c <> 0 -> 256 ^ (zlen l - 1) <= be2z l.
Proof.
  intros -> Hc. rewrite be2z_cons, zlen_cons. pose proof (be2z_bound t). pose proof (b2z_range c).
  replace (1 + zlen t - 1) with (zlen t) by lia.
  assert (0 < 256 ^ zlen t) by (apply Z.pow_pos_nonneg; auto with go; lia). nia.
Qed.

(** A byte string without leading zero is the minimal encoding of its value. *)
Lemma big_Bytes_canonical c t : b2z c <> 0 -> big_Bytes (be2z (c :: t)) = c :: t.
Proof.
  intros Hc. pose proof (z2be_nonzero_head (c :: t) c t eq_refl Hc) as Hlow.
  pose proof (be2z_bound (c :: t)) as Hup.
  rewrite (big_Bytes_width (length (c :: t))); [apply z2be_be2z|cbn; lia|].
  unfold zlen in *. lia.
Qed.

Lemma big_Bytes_head i : 0 < i -> exists c t, big_Bytes i = c :: t /\ b2z c <> 0.
Proof.
  intros Hi. destruct (big_Bytes i) as [|c t] eqn:E.
  { pose proof (be2z_big_Bytes i) as H. rewrite E in H. cbn in H. lia. }
  exists c, t. split; [done|]. intros Hc.
  pose proof (be2z_big_Bytes i) as H. rewrite E, be2z_cons, Hc in H.
  pose proof (be2z_bound t) as Hb. rewrite Z.abs_eq in H by lia. rewrite Z.mul_0_l, Z.add_0_l in H.
  pose proof (BitLen_lower i ltac:(lia)) as Hl. rewrite Z.abs_eq in Hl by lia.
  assert (zlen (big_Bytes i) = (BitLen i + 7) / 8) as Elen.
  { unfold big_Bytes, zlen. rewrite length_z2be, Z2Nat.id; [done|].
    pose proof (BitLen_nonneg i). apply Z.div_pos; lia. }
  rewrite E, zlen_cons in Elen.
  assert (i < 2 ^ (8 * zlen t)) as Hi2.
  { rewrite Z.pow_mul_r by (auto with go; lia). change (2 ^ 8) with 256. lia. }
  assert (8 * zlen t <= BitLen i - 1) as Hle.
  { pose proof (Z.div_mod (BitLen i + 7) 8 ltac:(lia)). pose proof (Z.mod_pos_bound (BitLen i + 7) 8 eq_refl). lia. }
  apply (Z.pow_le_mono_r 2) in Hle; lia.
Qed.

Lemma parse_long_enc k n l : 56 <= n <= MaxUint64 ->
  parse_long k (zlen (big_Bytes n)) (big_Bytes n ++ l) = Some (k, n, 1 + zlen (big_Bytes n)).
Proof.
  intros Hn. unfold parse_long.
  destruct (Z.ltb_spec (zlen (big_Bytes n ++ l)) (zlen (big_Bytes n))) as [Hl|_].
  { rewrite zlen_app in Hl. pose proof (zlen_nonneg l). lia. }
  assert (be2z (take (Z.to_nat (zlen (big_Bytes n))) (big_Bytes n ++ l)) = n) as ->.
  { unfold zlen. rewrite Nat2Z.id, take_app_length, be2z_big_Bytes. lia. }
  destruct (big_Bytes_head n) as (c & t & E & Hc); [lia|]. rewrite E. cbn [app].
  destruct (Z.eqb_spec (b2z c) 0); [done|]. destruct (Z.ltb_spec n 56); [lia|]. done.
Qed.

Lemma parse_long_inv k m t k' n m' : 1 <= m <= 8 ->
  parse_long k m t = Some (k', n, m') ->
  k' = k /\ 56 <= n <= MaxUint64 /\ m = zlen (big_Bytes n) /\ m' = 1 + m /\
  exists l, t = big_Bytes n ++ l.
Proof.
  intros Hm. unfold parse_long. destruct (Z.ltb_spec (zlen t) m) as [|Hl]; [done|].
  destruct t as [|c t]; [done|].
  destruct (Z.eqb_spec (b2z c) 0) as [|Hc]; [done|].
  destruct (Z.ltb_spec (be2z (take (Z.to_nat m) (c :: t))) 56) as [|Hn]; [done|].
  intros [= <- <- <-].
  destruct (Z.to_nat m) as [|m'] eqn:Em; [lia|]. cbn [take] in *.
  rewrite big_Bytes_canonical by done.
  assert (zlen (c :: take m' t) = m) as El.
  { unfold zlen in *. cbn [length] in *. rewrite length_take. lia. }
  pose proof (be2z_bound (c :: take m' t)) as Hb. rewrite El in Hb.
  split; [done|]. split; [split; [done|]|].
  { assert (256 ^ m <= 256 ^ 8) by (apply Z.pow_le_mono_r; lia).
    change (256 ^ 8) with 18446744073709551616 in *. unfold MaxUint64. lia. }
  split; [done|]. split; [done|]. exists (drop m' t). cbn [app]. by rewrite take_drop.
Qed.

Lemma enc_head_small sm lg n : n < 56 -> enc_head sm lg n = [z2b (sm + n)].
Proof. intros. unfold enc_head. destruct (Z.ltb_spec n 56); [done|lia]. Qed.

Lemma enc_head_large sm lg n : 56 <= n ->
  enc_head sm lg n = z2b (lg + zlen (big_Bytes n)) :: big_Bytes n.
Proof. intros. unfold enc_head. destruct (Z.ltb_spec n 56); [lia|done]. Qed.

Lemma big_Bytes_len_range n : 56 <= n <= MaxUint64 -> 1 <= zlen (big_Bytes n) <= 8.
Proof.
  intros Hn. destruct (byte_width n) as (k & Hk & Hr); [lia|].
  rewrite (big_Bytes_width k) by (done || lia). unfold zlen. rewrite length_z2be. lia.
Qed.

Ltac bcase :=
  repeat match goal with
  | |- context [if ?a <? ?b then _ else _] => destruct (Z.ltb_spec a b); try lia
  end.

Lemma parse_head_str n l : 0 <= n <= MaxUint64 ->
  parse_head (enc_head 0x80 0xB7 n ++ l) = Some (KString, n, zlen (enc_head 0x80 0xB7 n)).
Proof.
  intros Hn. destruct (decide (n < 56)).
  - rewrite enc_head_small by done. cbn [app parse_head]. rewrite b2z_z2b, Z.mod_small by lia.
    bcase. repeat f_equal; try done; lia.
  - rewrite enc_head_large by lia. pose proof (big_Bytes_len_range n ltac:(lia)).
    cbn [app parse_head]. rewrite b2z_z2b, Z.mod_small, zlen_cons by lia. bcase.
    replace (0xB7 + zlen (big_Bytes n) - 0xB7) with (zlen (big_Bytes n)) by lia.
    apply parse_long_enc. lia.
Qed.

Lemma parse_head_lst n l : 0 <= n <= MaxUint64 ->
  parse_head (enc_head 0xC0 0xF7 n ++ l) = Some (KList, n, zlen (enc_head 0xC0 0xF7 n)).
Proof.
  intros Hn. destruct (decide (n < 56)).
  - rewrite enc_head_small by done. cbn [app parse_head]. rewrite b2z_z2b, Z.mod_small by lia.
    bcase. repeat f_equal; try done; lia.
  - rewrite enc_head_large by lia. pose proof (big_Bytes_len_range n ltac:(lia)).
    cbn [app parse_head]. rewrite b2z_z2b, Z.mod_small, zlen_cons by lia. bcase.
    replace (0xF7 + zlen (big_Bytes n) - 0xF7) with (zlen (big_Bytes n)) by lia.
    apply parse_long_enc. lia.
Qed.

(** The canonical headers are the only ones accepted. *)
Definition head_bytes (k : Kind) (n : Z) (h : list byte) : Prop :=
  match k with
  | KByte => n = 0 /\ exists c, h = [c] /\ b2z c < 128
  | KString => 0 <= n <= MaxUint64 /\ h = enc_head 0x80 0xB7 n
  | KList => 0 <= n <= MaxUint64 /\ h = enc_head 0xC0 0xF7 n
  end.

Lemma parse_head_inv l k n m : parse_head l = Some (k, n, m) ->
  exists h t, l = h ++ t /\ m = zlen h /\ head_bytes k n h.
Proof.
  destruct l as [|c t]; [done|]. cbn [parse_head]. pose proof (b2z_range c).
  assert (forall z, z = b2z c -> z2b z = c) as Hz by (intros z ->; apply z2b_b2z).
  bcase.
  - intros [= <- <- <-]. exists [c], t. split; [done|]. split; [done|]. split; [done|]. by exists c.
  - intros [= <- <- <-]. exists [c], t. split; [done|]. split; [done|].
    split; [unfold MaxUint64; lia|]. rewrite enc_head_small, Hz by lia. done.
  - intros (-> & Hn & Em & -> & l & ->)%parse_long_inv; [|lia].
    exists (c :: big_Bytes n), l. split; [done|]. split; [rewrite zlen_cons; lia|].
    split; [lia|]. rewrite enc_head_large by lia. rewrite Hz by lia. done.
  - intros [= <- <- <-]. exists [c], t. split; [done|]. split; [done|].
    split; [unfold MaxUint64; lia|]. rewrite enc_head_small, Hz by lia. done.
  - intros (-> & Hn & Em & -> & l & ->)%parse_long_inv; [|lia].
    exists (c :: big_Bytes n), l. split; [done|]. split; [rewrite zlen_cons; lia|].
    split; [lia|]. rewrite enc_head_large by lia. rewrite Hz by lia. done.
Qed.

Lemma parse_head_bytes k n h t : head_bytes k n h -> parse_head (h ++ t) = Some (k, n, zlen h).
Proof.
  destruct k; cbn [head_bytes].
  - intros (-> & c & -> & Hc). cbn [app parse_head]. bcase. done.
  - intros [Hn ->]. by apply parse_head_str.
  - intros [Hn ->]. by apply parse_head_lst.
Qed.
