(* ===== verification/RlpFacts.v ===== *)
(** * Correctness of the RLP codec

    The stream decoder accepts exactly the canonical encodings: decoding an
    encoding gives the value back ([decode_enc]), and whatever is accepted is
    the encoding of the result ([decode_post]).  The same holds for the
    slice-based [Split] and [CountValues] of [raw.go]. *)
From S2P Require Import Prelude CommonMath RlpEncode RlpDecode.
From stdpp Require Import base numbers list.
From Stdlib Require Import ZArith Lia.
#[local] Open Scope Z_scope.

(** ** Stream positions *)

(** The stream [s] has [l] left to read inside the lists [st]. *)
Record src (s : Stream) (l : list byte) (st : list listpos) : Prop := {
  src_r : r s = l;
  src_rem : remaining s = zlen l;
  src_lim : limited s = true;
  src_stack : stack s = st
}.

Definition at_pos (s : Stream) (l : list byte) (st : list listpos) : Prop :=
  src s l st /\ kind s = None.

(** Bytes left in the innermost list. *)
Definition left (st : list listpos) (l : list byte) : Z :=
  match st with
  | [] => zlen l
  | t :: _ => lsize t - pos t
  end.

(** The lists nest: what is left of a list fits in what is left of its parent,
    and the innermost one fits in the input. *)
Fixpoint wf_stack (st : list listpos) : Prop :=
  match st with
  | [] => True
  | t :: st => 0 <= pos t <= lsize t /\ lsize t <= MaxUint64 /\
      wf_stack st /\
      match st with
      | [] => True
      | p :: _ => lsize t <= lsize p - pos p
      end
  end.

Definition wf (l : list byte) (st : list listpos) : Prop :=
  zlen l <= MaxUint64 /\ wf_stack st /\ left st l <= zlen l.

Definition bump (n : Z) (st : list listpos) : list listpos :=
  match st with
  | [] => []
  | t :: st => mkListpos (pos t + n) (lsize t) :: st
  end.

Lemma bump_bump a b st : bump b (bump a st) = bump (a + b) st.
Proof. destruct st as [|t st]; cbn; [done|]. do 2 f_equal. lia. Qed.

Lemma left_bump n st l l' : zlen l' = zlen l - n -> left (bump n st) l' = left st l - n.
Proof. destruct st; cbn; lia. Qed.

Lemma wf_bump n l h st :
  zlen h = n -> n <= left st (h ++ l) -> wf (h ++ l) st -> wf l (bump n st).
Proof.
  intros Hh Hn (Hl & Hs & Hle). rewrite zlen_app in *. pose proof (zlen_nonneg h).
  split; [lia|]. split.
  - destruct st as [|t st]; cbn in *; [done|]. destruct Hs as (? & ? & ? & ?).
    repeat split; try lia; done.
  - rewrite (left_bump _ _ (h ++ l)); rewrite ?zlen_app; lia.
Qed.

Lemma wf_left l st : wf l st -> 0 <= left st l <= MaxUint64.
Proof.
  intros (Hl & Hs & Hle). pose proof (zlen_nonneg l). destruct st as [|t st]; cbn in *; lia.
Qed.

(** ** Reading bytes *)

Lemma src_set_kind s l st k : src s l st -> src (set_kind k s) l st.
Proof. by intros []. Qed.

Lemma willRead_ok s l st n : src s l st -> wf l st -> 0 <= n <= left st l ->
  exists s', willRead n s = (Good tt, s') /\ kind s' = None /\ byteval s' = byteval s /\
    r s' = l /\ remaining s' = zlen l - n /\ limited s' = true /\ stack s' = bump n st.
Proof.
  intros [Hr Hrem Hlim Hst] (Hl & Hs & Hle) Hn. unfold willRead.
  cbn [set_kind stack limited remaining]. rewrite Hst.
  destruct st as [|t st]; cbn [left bump] in *.
  - cbn. rewrite Hlim, Hrem. destruct (Z.ltb_spec (zlen l) n); [lia|].
    eexists. split; [done|]. repeat split; done.
  - cbn in Hs. destruct Hs as (Hp & Hm & _). rewrite u64_small by (unfold is_u64; lia).
    destruct (Z.ltb_spec (lsize t - pos t) n); [lia|].
    rewrite u64_small by (unfold is_u64; lia).
    cbn. rewrite Hlim, Hrem. destruct (Z.ltb_spec (zlen l) n); [lia|].
    eexists. split; [done|]. repeat split; done.
Qed.

Lemma willRead_err s l st n : src s l st -> wf l st -> left st l < n ->
  exists e s', willRead n s = (Err e, s').
Proof.
  intros [Hr Hrem Hlim Hst] (Hl & Hs & Hle) Hn. unfold willRead.
  cbn [set_kind stack limited remaining]. rewrite Hst.
  destruct st as [|t st]; cbn [left] in *.
  - cbn. rewrite Hlim, Hrem. destruct (Z.ltb_spec (zlen l) n); [|lia]. eauto.
  - cbn in Hs. destruct Hs as (Hp & Hm & _). rewrite u64_small by (unfold is_u64; lia).
    destruct (Z.ltb_spec (lsize t - pos t) n); [|lia]. eauto.
Qed.

Lemma readFull_ok s h l st : src s (h ++ l) st -> wf (h ++ l) st -> zlen h <= left st (h ++ l) ->
  exists s', readFull (zlen h) s = (Good h, s') /\ at_pos s' l (bump (zlen h) st) /\ byteval s' = byteval s.
Proof.
  intros Hs Hw Hn. pose proof (zlen_nonneg h).
  destruct (willRead_ok s _ st (zlen h) Hs Hw) as (s' & E & Hk & Hbv & Hr & Hrem & Hlim & Hst); [lia|].
  unfold readFull, sbind. rewrite E, Hr, zlen_app. pose proof (zlen_nonneg l).
  destruct (Z.ltb_spec (zlen h + zlen l) (zlen h)); [lia|].
  unfold zlen at 1 2. rewrite Nat2Z.id, take_app_length, drop_app_length.
  eexists. split; [done|]. split; [|done]. split; [|done].
  constructor; cbn; try done. rewrite Hrem, zlen_app. lia.
Qed.

Lemma readFull_inv s l st n b s' : src s l st -> wf l st -> 0 <= n ->
  readFull n s = (Good b, s') ->
  exists t, l = b ++ t /\ zlen b = n /\ n <= left st l /\ at_pos s' t (bump n st) /\ byteval s' = byteval s.
Proof.
  intros Hs Hw Hn E. destruct (Z.le_gt_cases n (left st l)) as [Hle|Hgt].
  - assert (n <= zlen l) by (destruct Hw as (_ & _ & ?); lia).
    assert (l = take (Z.to_nat n) l ++ drop (Z.to_nat n) l) as El by (symmetry; apply take_drop).
    assert (zlen (take (Z.to_nat n) l) = n) as En by (unfold zlen in *; rewrite length_take; lia).
    rewrite El in Hs, Hw, Hle.
    destruct (readFull_ok s _ _ _ Hs Hw) as (s'' & E' & Ha & Hb); [lia|].
    rewrite En in *. rewrite E in E'. injection E' as -> ->.
    exists (drop (Z.to_nat n) l). rewrite take_drop. rewrite take_drop in Hle. done.
  - destruct (willRead_err s l st n Hs Hw Hgt) as (e & s'' & E').
    unfold readFull, sbind in E. by rewrite E' in E.
Qed.

Lemma readByte_ok s c l st : src s (c :: l) st -> wf (c :: l) st -> 1 <= left st (c :: l) ->
  exists s', readByte s = (Good c, s') /\ at_pos s' l (bump 1 st) /\ byteval s' = byteval s.
Proof.
  intros Hs Hw Hn.
  destruct (willRead_ok s _ st 1 Hs Hw) as (s' & E & Hk & Hbv & Hr & Hrem & Hlim & Hst); [lia|].
  unfold readByte, sbind. rewrite E, Hr.
  eexists. split; [done|]. split; [|done]. split; [|done].
  constructor; cbn; try done. rewrite Hrem, zlen_cons. lia.
Qed.

Lemma readByte_inv s l st c s' : src s l st -> wf l st -> readByte s = (Good c, s') ->
  exists t, l = c :: t /\ 1 <= left st l /\ at_pos s' t (bump 1 st) /\ byteval s' = byteval s.
Proof.
  intros Hs Hw E. destruct (Z.le_gt_cases 1 (left st l)) as [Hle|Hgt].
  - destruct l as [|c' t]; [destruct Hw as (_ & _ & H); change (zlen (@nil byte)) with 0 in H; lia|].
    destruct (readByte_ok s c' t st Hs Hw Hle) as (s'' & E' & Ha). rewrite E in E'.
    injection E' as -> ->. eauto.
  - destruct (willRead_err s l st 1 Hs Hw ltac:(lia)) as (e & s'' & E').
    unfold readByte, sbind in E. by rewrite E' in E.
Qed.

(** ** Headers *)

Lemma readUint_ok s c h l st :
  src s ((c :: h) ++ l) st -> wf ((c :: h) ++ l) st -> b2z c <> 0 ->
  zlen (c :: h) <= left st ((c :: h) ++ l) ->
  exists s', readUint (zlen (c :: h)) s = (Good (be2z (c :: h)), s') /\
    at_pos s' l (bump (zlen (c :: h)) st) /\ byteval s' = byteval s.
Proof.
  intros Hs Hw Hc Hn. unfold readUint. rewrite zlen_cons in *. pose proof (zlen_nonneg h).
  destruct (Z.eqb_spec (1 + zlen h) 0); [lia|].
  destruct (Z.eqb_spec (1 + zlen h) 1) as [E|_].
  - destruct h as [|d h]; [|rewrite zlen_cons in E; pose proof (zlen_nonneg h); lia].
    cbn [app] in *.
    destruct (readByte_ok s c l st Hs Hw ltac:(lia)) as (s' & E' & Ha & Hb).
    unfold sbind. rewrite E'. by exists s'.
  - destruct (readFull_ok s (c :: h) l st Hs Hw) as (s' & E' & Ha & Hb); [by rewrite zlen_cons|].
    rewrite zlen_cons in *. unfold sbind. rewrite E'.
    destruct (Z.eqb_spec (b2z c) 0); [done|]. by exists s'.
Qed.

Lemma readUint_inv s l st m v s' : src s l st -> wf l st -> 1 <= m ->
  readUint m s = (Good v, s') ->
  exists c h t, l = (c :: h) ++ t /\ zlen (c :: h) = m /\ v = be2z (c :: h) /\ m <= left st l /\
    at_pos s' t (bump m st) /\ byteval s' = byteval s /\ (b2z c <> 0 \/ v = b2z c).
Proof.
  intros Hs Hw Hm. unfold readUint. destruct (Z.eqb_spec m 0); [lia|].
  destruct (Z.eqb_spec m 1) as [->|Hm1]; unfold sbind.
  - destruct (readByte s) as [[c|e] s''] eqn:E; [|done]. intros [= <- <-].
    destruct (readByte_inv s l st c s'' Hs Hw E) as (t & -> & Hle & Ha & Hb).
    exists c, [], t. repeat split; try done; try apply Ha. by right.
  - destruct (readFull m s) as [[b|e] s''] eqn:E; [|done].
    destruct (readFull_inv s l st m b s'' Hs Hw ltac:(lia) E) as (t & -> & Hb & Hle & Ha & Hbv).
    destruct b as [|c b]; [change (zlen (@nil byte)) with 0 in Hb; lia|].
    destruct (Z.eqb_spec (b2z c) 0) as [|Hc]; [done|]. intros [= <- <-].
    exists c, b, t. repeat split; try done; try apply Ha. by left.
Qed.

Lemma src_set_byteval s l st b : src s l st -> src (set_byteval b s) l st.
Proof. by intros []. Qed.

(** Case split on the first byte of a header. *)
Lemma head_bytes_cons k n h : head_bytes k n h ->
  exists c h', h = c :: h' /\
  ((k = KByte /\ b2z c < 0x80 /\ h' = [] /\ n = 0) \/
   (k = KString /\ 0x80 <= b2z c < 0xB8 /\ h' = [] /\ n = b2z c - 0x80) \/
   (k = KString /\ 0xB8 <= b2z c < 0xC0 /\ 56 <= n <= MaxUint64 /\ h' = big_Bytes n /\ b2z c - 0xB7 = zlen h') \/
   (k = KList /\ 0xC0 <= b2z c < 0xF8 /\ h' = [] /\ n = b2z c - 0xC0) \/
   (k = KList /\ 0xF8 <= b2z c /\ 56 <= n <= MaxUint64 /\ h' = big_Bytes n /\ b2z c - 0xF7 = zlen h')).
Proof.
  destruct k; cbn [head_bytes].
  - intros (-> & c & -> & Hc). exists c, []. split; [done|]. by left.
  - intros [Hn ->]. destruct (decide (n < 56)).
    + rewrite enc_head_small by done. eexists _, _. split; [done|]. right; left.
      rewrite b2z_z2b, Z.mod_small by lia. repeat split; lia.
    + rewrite enc_head_large by lia. pose proof (big_Bytes_len_range n ltac:(lia)).
      eexists _, _. split; [done|]. right; right; left.
      rewrite b2z_z2b, Z.mod_small by lia. repeat split; lia.
  - intros [Hn ->]. destruct (decide (n < 56)).
    + rewrite enc_head_small by done. eexists _, _. split; [done|]. right; right; right; left.
      rewrite b2z_z2b, Z.mod_small by lia. repeat split; lia.
    + rewrite enc_head_large by lia. pose proof (big_Bytes_len_range n ltac:(lia)).
      eexists _, _. split; [done|]. right; right; right; right.
      rewrite b2z_z2b, Z.mod_small by lia. repeat split; lia.
Qed.

Lemma s_readKind_ok s k n h l st : head_bytes k n h ->
  src s (h ++ l) st -> wf (h ++ l) st -> zlen h <= left st (h ++ l) ->
  exists s', s_readKind s = (Good (k, n, None), s') /\ src s' l (bump (zlen h) st) /\
    (k = KByte -> h = [byteval s']).
Proof.
  intros Hh Hs Hw Hle. destruct (head_bytes_cons _ _ _ Hh) as (c & h' & -> & Hcase).
  rewrite zlen_cons in *. pose proof (zlen_nonneg h'). cbn [app] in *.
  destruct (readByte_ok s c (h' ++ l) st Hs Hw ltac:(lia)) as (s1 & E1 & [Ha Hk] & Hb).
  unfold s_readKind, sbind, stry. rewrite E1. cbn -[Z.ltb]. unfold supd, sret.
  assert (wf (h' ++ l) (bump 1 st)) as Hw1 by (apply (wf_bump 1 _ [c]); [done|cbn [app]; lia|done]).
  assert (left (bump 1 st) (h' ++ l) = left st (c :: h' ++ l) - 1) as Hl1.
  { apply left_bump. rewrite zlen_cons. lia. }
  destruct Hcase as [(-> & Hc & -> & ->)|[(-> & Hc & -> & ->)|[(-> & Hc & Hn & Eh & Hz)|
    [(-> & Hc & -> & ->)|(-> & Hc & Hn & Eh & Hz)]]]]; bcase.
  - eexists. split; [done|]. split; [by apply src_set_byteval, src_set_byteval|done].
  - eexists. split; [done|]. split; [by apply src_set_byteval|done].
  - rewrite Hz. destruct (big_Bytes_head n) as (c' & t' & Eb & Hc'); [lia|].
    rewrite Eb in Eh. subst h'.
    destruct (readUint_ok (set_byteval Byte.x00 s1) c' t' l (bump 1 st)) as (s2 & E2 & [Ha2 Hk2] & Hb2);
      [by apply src_set_byteval|done|done|cbn [app] in *; lia|].
    rewrite E2, <- Eb, be2z_big_Bytes, Z.abs_eq by lia. bcase.
    eexists. split; [done|]. split; [|done]. by rewrite Eb, <- bump_bump.
  - eexists. split; [done|]. split; [by apply src_set_byteval|done].
  - rewrite Hz. destruct (big_Bytes_head n) as (c' & t' & Eb & Hc'); [lia|].
    rewrite Eb in Eh. subst h'.
    destruct (readUint_ok (set_byteval Byte.x00 s1) c' t' l (bump 1 st)) as (s2 & E2 & [Ha2 Hk2] & Hb2);
      [by apply src_set_byteval|done|done|cbn [app] in *; lia|].
    rewrite E2, <- Eb, be2z_big_Bytes, Z.abs_eq by lia. bcase.
    eexists. split; [done|]. split; [|done]. by rewrite Eb, <- bump_bump.
Qed.

(** The long form of a header, read by [readUint]. *)
Lemma long_head_inv s l st m n s' : src s l st -> wf l st -> 1 <= m <= 8 ->
  readUint m s = (Good n, s') -> 56 <= n ->
  exists t, l = big_Bytes n ++ t /\ zlen (big_Bytes n) = m /\ n <= MaxUint64 /\ m <= left st l /\
    src s' t (bump m st).
Proof.
  intros Hs Hw Hm E Hn.
  destruct (readUint_inv s l st m n s' Hs Hw ltac:(lia) E) as (c & h & t & -> & Hz & -> & Hle & [Ha _] & _ & Hc).
  assert (b2z c <> 0) as Hc0 by (destruct Hc; lia).
  pose proof (big_Bytes_canonical c h Hc0) as Ec.
  exists t. rewrite Ec. repeat split; try done; try apply Ha.
  pose proof (be2z_bound (c :: h)) as Hb. rewrite Hz in Hb.
  assert (256 ^ m <= 256 ^ 8) by (apply Z.pow_le_mono_r; lia).
  change (256 ^ 8) with 18446744073709551616 in *. unfold MaxUint64. lia.
Qed.

Lemma s_readKind_inv s l st k n s' : src s l st -> wf l st ->
  s_readKind s = (Good (k, n, None), s') ->
  exists h t, l = h ++ t /\ head_bytes k n h /\ zlen h <= left st l /\ src s' t (bump (zlen h) st) /\
    (k = KByte -> h = [byteval s']).
Proof.
  intros Hs Hw. unfold s_readKind, sbind, stry.
  destruct (readByte s) as [[c|e] s1] eqn:E1; [|cbn; by intros [= ]].
  destruct (readByte_inv s l st c s1 Hs Hw E1) as (t & -> & Hle & [Ha Hk] & Hb).
  cbn -[Z.ltb]. unfold supd, sret. pose proof (b2z_range c).
  assert (wf t (bump 1 st)) as Hw1 by (apply (wf_bump 1 _ [c]); [done|cbn [app]; lia|done]).
  assert (left (bump 1 st) t = left st (c :: t) - 1) as Hl1.
  { apply left_bump. rewrite zlen_cons. lia. }
  assert (forall z, z = b2z c -> z2b z = c) as Hz by (intros z ->; apply z2b_b2z).
  assert (src (set_byteval Byte.x00 s1) t (bump 1 st)) as Ha' by (by apply src_set_byteval).
  bcase.
  - intros [= <- <- <-]. exists [c], t. split; [done|]. split; [split; [done|by exists c]|].
    split; [done|]. split; [by apply src_set_byteval|done].
  - intros [= <- <- <-]. exists [c], t. split; [done|].
    split; [split; [unfold MaxUint64; lia|rewrite enc_head_small, Hz by lia; done]|]. split; [done|]. done.
  - destruct (readUint (b2z c - 0xB7) _) as [[n'|e] s2] eqn:E2; [|by intros [= ]].
    destruct (Z.ltb_spec n' 56); [by intros [= ]|]. intros [= <- <- <-].
    destruct (long_head_inv _ _ _ (b2z c - 0xB7) n' s2 Ha' Hw1 ltac:(lia) E2 ltac:(lia)) as (t' & -> & Hz' & Hn & Hle' & Hs').
    exists (c :: big_Bytes n'), t'. split; [done|]. split; [split; [lia|]|].
    { rewrite enc_head_large by lia. rewrite Hz by lia. done. }
    rewrite zlen_cons, Hz'. split; [cbn [app] in *; lia|]. by rewrite <- bump_bump.
  - intros [= <- <- <-]. exists [c], t. split; [done|].
    split; [split; [unfold MaxUint64; lia|rewrite enc_head_small, Hz by lia; done]|]. split; [done|]. done.
  - destruct (readUint (b2z c - 0xF7) _) as [[n'|e] s2] eqn:E2; [|by intros [= ]].
    destruct (Z.ltb_spec n' 56); [by intros [= ]|]. intros [= <- <- <-].
    destruct (long_head_inv _ _ _ (b2z c - 0xF7) n' s2 Ha' Hw1 ltac:(lia) E2 ltac:(lia)) as (t' & -> & Hz' & Hn & Hle' & Hs').
    exists (c :: big_Bytes n'), t'. split; [done|]. split; [split; [lia|]|].
    { rewrite enc_head_large by lia. rewrite Hz by lia. done. }
    rewrite zlen_cons, Hz'. split; [cbn [app] in *; lia|]. by rewrite <- bump_bump.
Qed.

(** ** Values *)

(** The kind of the next value has been read and cached; [l] is its content. *)
Record ready (s : Stream) (k : Kind) (n : Z) (l : list byte) (st : list listpos) : Prop := {
  rd_src : src s l st;
  rd_kind : kind s = Some k;
  rd_err : kinderr s = None;
  rd_size : ssize s = n
}.

Lemma s_Kind_ready s k n l st : ready s k n l st -> s_Kind s = (Good (k, n), s).
Proof. intros [_ Hk He Hn]. unfold s_Kind. by rewrite Hk, He, Hn. Qed.

Lemma head_bytes_pos k n h : head_bytes k n h -> 1 <= zlen h /\ 0 <= n <= MaxUint64.
Proof.
  intros H. destruct (head_bytes_cons _ _ _ H) as (c & h' & -> & _).
  rewrite zlen_cons. pose proof (zlen_nonneg h').
  destruct k; cbn [head_bytes] in H; [|lia|lia].
  destruct H as [-> _]. unfold MaxUint64. lia.
Qed.

Lemma s_Kind_ok s k n h l st : head_bytes k n h ->
  at_pos s (h ++ l) st -> wf (h ++ l) st -> zlen h + n <= left st (h ++ l) ->
  exists s', s_Kind s = (Good (k, n), s') /\ ready s' k n l (bump (zlen h) st) /\
    (k = KByte -> h = [byteval s']).
Proof.
  intros Hh [Hs Hk] Hw Hle. pose proof (head_bytes_pos _ _ _ Hh) as [Hz Hn].
  destruct (s_readKind_ok (set_kinderr None s) k n h l st Hh) as (s' & E & Hs' & Hb); [by destruct Hs|done|lia|].
  unfold s_Kind. rewrite Hk.
  assert (match stack (set_kinderr None s) with tos :: _ => pos tos =? lsize tos | [] => false end = false) as ->.
  { cbn. destruct Hs as [_ _ _ ->]. destruct st as [|t st]; [done|]. cbn in Hle.
    apply Z.eqb_neq. lia. }
  rewrite E. cbv zeta beta iota.
  assert (match stack s' with
          | [] => if limited s' && (remaining s' <? n) then Some ErrValueTooLarge else None
          | tos :: _ => if u64 (lsize tos - pos tos) <? n then Some ErrElemTooLarge else None
          end = None) as ->.
  { pose proof (wf_bump (zlen h) l h st eq_refl ltac:(lia) Hw) as Hw'.
    pose proof (wf_left _ _ Hw') as Hl'. rewrite (left_bump _ _ (h ++ l)) in Hl' by (rewrite zlen_app; lia).
    destruct Hs' as [_ Hrem Hlim ->]. destruct st as [|t st]; cbn [bump left] in *.
    - rewrite Hlim, Hrem, zlen_app in *. cbn. destruct (Z.ltb_spec (zlen l) n); [lia|done].
    - cbn. rewrite u64_small by (unfold is_u64; lia).
      destruct (Z.ltb_spec (lsize t - (pos t + zlen h)) n); [lia|done]. }
  eexists. split; [done|]. split; [|done]. constructor; try done. by destruct Hs'.
Qed.

Lemma s_Kind_inv s l st k n s' : at_pos s l st -> wf l st -> s_Kind s = (Good (k, n), s') ->
  exists h t, l = h ++ t /\ head_bytes k n h /\ zlen h + n <= left st l /\
    ready s' k n t (bump (zlen h) st) /\ (k = KByte -> h = [byteval s']).
Proof.
  intros [Hs Hk] Hw. unfold s_Kind. rewrite Hk.
  destruct (match stack (set_kinderr None s) with tos :: _ => pos tos =? lsize tos | [] => false end); [done|].
  destruct (s_readKind (set_kinderr None s)) as [[[[k' n'] err]|e] s1] eqn:E; [|done].
  destruct err as [e|]; [done|].
  destruct (s_readKind_inv (set_kinderr None s) l st k' n' s1 ltac:(by destruct Hs) Hw E) as
    (h & t & -> & Hh & Hle & Hs1 & Hb).
  assert (left (bump (zlen h) st) t = left st (h ++ t) - zlen h) as Hl1.
  { apply left_bump. rewrite zlen_app. lia. }
  pose proof (wf_bump (zlen h) t h st eq_refl Hle Hw) as Hw1.
  pose proof (wf_left _ _ Hw1) as Hl2.
  destruct (match stack s1 with
            | [] => if limited s1 && (remaining s1 <? n') then Some ErrValueTooLarge else None
            | tos :: _ => if u64 (lsize tos - pos tos) <? n' then Some ErrElemTooLarge else None
            end) eqn:Eerr; [done|].
  intros [= <- <- <-]. exists h, t. split; [done|]. split; [done|]. split; [|split; [|done]].
  - destruct Hs1 as [_ Hrem Hlim Hst]. rewrite Hst in Eerr. destruct st as [|tp st]; cbn [bump left] in *.
    + rewrite Hlim, Hrem in Eerr. cbn in Eerr. destruct (Z.ltb_spec (zlen t) n'); [done|].
      rewrite zlen_app. lia.
    + cbn in Eerr. rewrite u64_small in Eerr by (unfold is_u64; cbn in *; lia).
      destruct (Z.ltb_spec (lsize tp - (pos tp + zlen h)) n'); [done|]. lia.
  - constructor; try done. by destruct Hs1.
Qed.

Lemma s_Bytes_byte s l st : ready s KByte 0 l st ->
  exists s', s_Bytes s = (Good [byteval s], s') /\ at_pos s' l st.
Proof.
  intros H. unfold s_Bytes, sbind. rewrite (s_Kind_ready _ _ _ _ _ H).
  eexists. split; [done|]. split; [|done]. by destruct H as [[] _ _ _].
Qed.

(** A one-byte string below 128 must not be encoded with a header. *)
Definition canonical_str (b : list byte) : Prop :=
  match b with [c] => 128 <= b2z c | _ => True end.

Lemma s_Bytes_str s b l st :
  ready s KString (zlen b) (b ++ l) st -> wf (b ++ l) st -> zlen b <= left st (b ++ l) -> canonical_str b ->
  exists s', s_Bytes s = (Good b, s') /\ at_pos s' l (bump (zlen b) st).
Proof.
  intros H Hw Hle Hc. unfold s_Bytes, sbind. rewrite (s_Kind_ready _ _ _ _ _ H).
  destruct (readFull_ok s b l st (rd_src _ _ _ _ _ H) Hw Hle) as (s' & -> & Ha & _).
  exists s'. destruct b as [|c b]; [done|].
  destruct (Z.eqb_spec (zlen (c :: b)) 1) as [E|]; [|done]. destruct b as [|d b].
  - cbn in Hc |- *. destruct (Z.ltb_spec (b2z c) 128); [lia|done].
  - rewrite !zlen_cons in E. pose proof (zlen_nonneg b). lia.
Qed.

Lemma s_Bytes_str_inv s n l st b s' :
  ready s KString n l st -> wf l st -> 0 <= n -> s_Bytes s = (Good b, s') ->
  exists t, l = b ++ t /\ zlen b = n /\ n <= left st l /\ canonical_str b /\ at_pos s' t (bump n st).
Proof.
  intros H Hw Hn. unfold s_Bytes, sbind. rewrite (s_Kind_ready _ _ _ _ _ H).
  destruct (readFull n s) as [[b'|e] s1] eqn:E; [|done].
  destruct (readFull_inv s l st n b' s1 (rd_src _ _ _ _ _ H) Hw Hn E) as (t & -> & Hb & Hle & Ha & _).
  destruct b' as [|c b'].
  - intros [= <- <-]. by exists t.
  - destruct (Z.eqb_spec n 1) as [En|En]; [destruct (Z.ltb_spec (b2z c) 128)|]; try done; cbn;
      intros [= <- <-]; exists t; repeat split; try done; try apply Ha.
    + destruct b'; [done|]. cbn. done.
    + destruct b'; [|done]. change (zlen [c]) with 1 in Hb. lia.
Qed.

Lemma s_List_ready s n l st : ready s KList n l st ->
  exists s', swrap s_List s = (Good n, s') /\ at_pos s' l (mkListpos 0 n :: st).
Proof.
  intros H. unfold swrap, s_List, sbind. rewrite (s_Kind_ready _ _ _ _ _ H).
  eexists. split; [done|]. split; [|done]. destruct H as [[? ? ? ?] _ _ _].
  constructor; cbn; try done. by f_equal.
Qed.

Lemma s_ListEnd_ok s n l st : at_pos s l (mkListpos n n :: st) -> wf l (mkListpos n n :: st) ->
  exists s', s_ListEnd s = (Good tt, s') /\ at_pos s' l (bump n st).
Proof.
  intros [[Hr Hrem Hlim Hst] Hk] (Hl & Hs & Hle). unfold s_ListEnd. rewrite Hst. cbn [pos lsize].
  rewrite Z.eqb_refl. cbn [negb]. eexists. split; [done|]. split; [|done].
  constructor; cbn; try done. destruct st as [|p st]; [done|]. cbn in *.
  rewrite u64_small by (unfold is_u64; lia). done.
Qed.

Lemma s_Kind_EOL s l t st : at_pos s l (t :: st) -> pos t = lsize t ->
  exists s', s_Kind s = (Err EOL, s') /\ at_pos s' l (t :: st).
Proof.
  intros [[Hr Hrem Hlim Hst] Hk] Ht. unfold s_Kind. rewrite Hk. cbn [set_kinderr stack]. rewrite Hst.
  rewrite Ht, Z.eqb_refl. eexists. split; [done|]. split; [|done]. by constructor.
Qed.

Lemma readByte_not_EOL s s' : readByte s <> (Err EOL, s').
Proof.
  unfold readByte, sbind, willRead. cbn -[Z.ltb].
  repeat (case_match || (intros [= ]; simplify_eq)); by intros [= ].
Qed.

Lemma readFull_not_EOL n s s' : readFull n s <> (Err EOL, s').
Proof.
  unfold readFull, sbind, willRead. cbn -[Z.ltb].
  repeat (case_match || (intros [= ]; simplify_eq)); by intros [= ].
Qed.

Lemma readUint_not_EOL n s s' : readUint n s <> (Err EOL, s').
Proof.
  unfold readUint, sbind. case_match; [by intros [= ]|]. case_match.
  - destruct (readByte s) as [[|] ?] eqn:E; intros [= ]; subst. by apply readByte_not_EOL in E.
  - destruct (readFull n s) as [[[|c b]|e] s1] eqn:E.
    + by intros [= ].
    + case_match; by intros [= ].
    + intros [= ]; subst. by apply readFull_not_EOL in E.
Qed.

Lemma s_Kind_EOL_inv s l st s' : at_pos s l st -> s_Kind s = (Err EOL, s') ->
  at_pos s' l st /\ exists t st', st = t :: st' /\ pos t = lsize t.
Proof.
  intros [[Hr Hrem Hlim Hst] Hk]. unfold s_Kind. rewrite Hk. cbn [set_kinderr stack]. rewrite Hst.
  destruct (match st with tos :: _ => pos tos =? lsize tos | [] => false end) eqn:Et.
  - intros [= <-]. split; [by split; [constructor|]|].
    destruct st as [|t st]; [done|]. apply Z.eqb_eq in Et. eauto.
  - unfold s_readKind, sbind, stry.
    destruct (readByte _) as [[c|e] s1] eqn:E1.
    + unfold supd, sret. pose proof (readUint_not_EOL (b2z c - 0xB7) (set_byteval Byte.x00 s1)).
      pose proof (readUint_not_EOL (b2z c - 0xF7) (set_byteval Byte.x00 s1)).
      repeat (case_match || (intros [= ]; simplify_eq)); congruence.
    + intros H. exfalso. revert H.
      assert (e <> EOL) by (intros ->; by apply readByte_not_EOL in E1).
      destruct (stack s1), e; by intros [= ].
Qed.

Lemma zlen_enc_head_pos sm lg n : 1 <= zlen (enc_head sm lg n).
Proof.
  unfold enc_head. destruct (n <? 56); rewrite zlen_cons;
    [pose proof (zlen_nonneg (@nil byte))|pose proof (zlen_nonneg (big_Bytes n))]; lia.
Qed.

Lemma enc_nonempty x : 1 <= zlen (enc x).
Proof.
  destruct x as [b|l]; cbn [enc].
  - unfold enc_str. destruct b as [|c [|c' b]]; [done| |].
    + destruct (b2z c <? 128); [done|]. rewrite zlen_app.
      pose proof (zlen_enc_head_pos 0x80 0xB7 1). pose proof (zlen_nonneg [c]). lia.
    + rewrite zlen_app. pose proof (zlen_enc_head_pos 0x80 0xB7 (zlen (c :: c' :: b))).
      pose proof (zlen_nonneg (c :: c' :: b)). lia.
  - unfold enc_lst. rewrite zlen_app.
    pose proof (zlen_enc_head_pos 0xC0 0xF7 (zlen (concat (map enc l)))).
    pose proof (zlen_nonneg (concat (map enc l))). lia.
Qed.

(** The header of an encoded item. *)
Lemma enc_str_head b : zlen b <= MaxUint64 ->
  (exists c, b = [c] /\ enc_str b = [c] /\ head_bytes KByte 0 [c]) \/
  (exists h, enc_str b = h ++ b /\ head_bytes KString (zlen b) h /\ canonical_str b).
Proof.
  intros Hb. pose proof (zlen_nonneg b).
  assert (head_bytes KString (zlen b) (enc_head 0x80 0xB7 (zlen b))) as Hh by (split; [lia|done]).
  destruct b as [|c [|c' b]].
  - right. eexists. split; [reflexivity|]. done.
  - destruct (Z.ltb_spec (b2z c) 128) as [Hc|Hc].
    + left. exists c. split; [done|]. unfold enc_str. destruct (Z.ltb_spec (b2z c) 128); [|lia].
      split; [done|]. split; [done|]. by exists c.
    + right. exists (enc_head 0x80 0xB7 1). unfold enc_str. destruct (Z.ltb_spec (b2z c) 128); [lia|]. done.
  - right. eexists. split; [reflexivity|]. done.
Qed.

Lemma enc_lst_head p : zlen p <= MaxUint64 ->
  exists h, enc_lst p = h ++ p /\ head_bytes KList (zlen p) h.
Proof. intros. eexists. split; [reflexivity|]. pose proof (zlen_nonneg p). split; [lia|done]. Qed.

(** ** Decoding an encoding *)

Definition decodes (fuel : nat) (x : item) : Prop :=
  forall s l st, at_pos s (enc x ++ l) st -> wf (enc x ++ l) st -> zlen (enc x) <= left st (enc x ++ l) ->
  exists s', decodeInterface fuel s = Ok (Good x, s') /\ at_pos s' l (bump (zlen (enc x)) st).

Lemma decodeSliceElems_ok xs : forall fuel s l n p st,
  Forall (fun x => forall fuel, (2 * length (enc x) + 1 <= fuel)%nat -> decodes fuel x) xs ->
  (2 * length (concat (map enc xs)) + 2 <= fuel)%nat ->
  at_pos s (concat (map enc xs) ++ l) (mkListpos p n :: st) ->
  wf (concat (map enc xs) ++ l) (mkListpos p n :: st) ->
  p + zlen (concat (map enc xs)) = n ->
  exists s', decodeSliceElems fuel s = Ok (Good xs, s') /\ at_pos s' l (mkListpos n n :: st).
Proof.
  induction xs as [|x xs IH]; intros fuel s l n p st Hxs Hf Ha Hw Hn.
  - destruct fuel as [|[|fuel]]; cbn in Hf; try lia. change (zlen (concat (map enc []))) with 0 in Hn.
    destruct (s_Kind_EOL s _ _ _ Ha) as (s' & E & Ha'); [cbn; lia|].
    cbn [decodeSliceElems decodeInterface]. rewrite E. cbn [obind].
    exists s'. split; [done|]. cbn in Ha'. by replace n with p at 1 by lia.
  - inversion Hxs as [|? ? Hx Hxs']; subst. destruct fuel as [|fuel]; [cbn in Hf; lia|].
    cbn [map concat] in *. rewrite <- app_assoc in *. rewrite zlen_app in *. rewrite length_app in Hf.
    pose proof (enc_nonempty x) as Hne. unfold zlen in Hne.
    pose proof (zlen_nonneg (concat (map enc xs))).
    cbn [decodeSliceElems].
    destruct (Hx fuel ltac:(lia) s _ _ Ha Hw) as (s1 & -> & Ha1); [cbn; lia|].
    cbn [obind]. cbn [bump pos lsize] in Ha1.
    assert (wf (concat (map enc xs) ++ l) (mkListpos (p + zlen (enc x)) (p + (zlen (enc x) + zlen (concat (map enc xs)))) :: st)) as Hw1.
    { refine (wf_bump (zlen (enc x)) _ (enc x) (mkListpos p (p + (zlen (enc x) + zlen (concat (map enc xs)))) :: st) eq_refl _ Hw).
      cbn. lia. }
    destruct (IH fuel s1 l _ _ st Hxs' ltac:(lia) Ha1 Hw1) as (s2 & -> & Ha2); [lia|].
    cbn [obind]. by exists s2.
Qed.

Lemma decodeInterface_ok x : forall fuel, (2 * length (enc x) + 1 <= fuel)%nat -> decodes fuel x.
Proof.
  induction x as [b|xs IH] using item_ind'; intros fuel Hf s l st Ha Hw Hle; cbn [enc] in *;
    (destruct fuel as [|fuel]; [lia|]); cbn [decodeInterface].
  - assert (zlen b <= MaxUint64) as Hb.
    { pose proof (wf_left _ _ Hw). pose proof (zlen_enc_str_ge b). lia. }
    destruct (enc_str_head b Hb) as [(c & -> & E & Hh)|(h & E & Hh & Hc)]; rewrite E in *.
    + destruct (s_Kind_ok s KByte 0 [c] l st Hh Ha Hw) as (s1 & -> & Hr & Hbv); [lia|].
      destruct (s_Bytes_byte _ _ _ Hr) as (s2 & -> & Ha2).
      specialize (Hbv eq_refl). injection Hbv as <-. by exists s2.
    + rewrite <- app_assoc, zlen_app in *.
      destruct (s_Kind_ok s KString (zlen b) h (b ++ l) st Hh Ha Hw) as (s1 & -> & Hr & _); [lia|].
      pose proof (zlen_nonneg h). pose proof (zlen_nonneg b).
      pose proof (wf_bump (zlen h) (b ++ l) h st eq_refl ltac:(lia) Hw) as Hw1.
      destruct (s_Bytes_str s1 b l _ Hr Hw1) as (s2 & -> & Ha2); [|done|].
      { rewrite (left_bump _ _ (h ++ b ++ l)) by (rewrite !zlen_app; lia). lia. }
      exists s2. split; [done|]. by rewrite <- bump_bump.
  - remember (concat (map enc xs)) as p eqn:Ep.
    assert (zlen p <= MaxUint64) as Hp.
    { pose proof (wf_left _ _ Hw). pose proof (zlen_enc_lst_ge p). lia. }
    destruct (enc_lst_head p Hp) as (h & E & Hh). rewrite E in *. rewrite <- app_assoc, zlen_app in *.
    pose proof (zlen_nonneg h). pose proof (zlen_nonneg p).
    pose proof (head_bytes_pos _ _ _ Hh) as [Hh1 _].
    destruct (s_Kind_ok s KList (zlen p) h (p ++ l) st Hh Ha Hw) as (s1 & -> & Hr & _); [lia|].
    pose proof (wf_bump (zlen h) (p ++ l) h st eq_refl ltac:(lia) Hw) as Hw1.
    assert (left (bump (zlen h) st) (p ++ l) = left st (h ++ p ++ l) - zlen h) as Hl1.
    { apply left_bump. rewrite !zlen_app. lia. }
    destruct (s_List_ready s1 _ _ _ Hr) as (s2 & -> & Ha2).
    assert (wf (p ++ l) (mkListpos 0 (zlen p) :: bump (zlen h) st)) as Hw2.
    { destruct Hw1 as (? & ? & ?). split; [done|]. split; [|cbn; rewrite zlen_app; pose proof (zlen_nonneg l); lia].
      cbn. repeat split; try lia; try done. destruct st as [|t st]; [done|]. cbn in *. lia. }
    destruct (Z.eqb_spec (zlen p) 0) as [E0|E0].
    + destruct xs as [|x xs].
      2:{ exfalso. subst p. cbn in E0. rewrite zlen_app in E0. pose proof (enc_nonempty x).
          pose proof (zlen_nonneg (concat (map enc xs))). lia. }
      subst p. cbn in E0, Ha2, Hw2 |- *.
      destruct (s_ListEnd_ok s2 _ _ _ Ha2 Hw2) as (s3 & -> & Ha3).
      exists s3. split; [done|]. by rewrite <- bump_bump.
    + rewrite length_app in Hf.
      assert (1 <= length h)%nat by (unfold zlen in Hh1; lia).
      destruct (decodeSliceElems_ok xs fuel s2 l (zlen p) 0 (bump (zlen h) st)) as (s3 & -> & Ha3);
        [exact IH|rewrite <- Ep; lia|by rewrite <- Ep|by rewrite <- Ep|rewrite <- Ep; lia|].
      cbn [obind].
      assert (wf l (mkListpos (zlen p) (zlen p) :: bump (zlen h) st)) as Hw3.
      { apply (wf_bump (zlen p) l p (mkListpos 0 (zlen p) :: _) eq_refl) in Hw2; [|cbn; lia]. done. }
      destruct (s_ListEnd_ok s3 _ _ _ Ha3 Hw3) as (s4 & -> & Ha4).
      exists s4. split; [done|]. by rewrite <- bump_bump.
Qed.

(** ** Soundness and totality on arbitrary input *)

Definition iface_post (fuel : nat) (l : list byte) (st : list listpos)
    (o : outcome (result rlperr item * Stream)) : Prop :=
  match o with
  | Ok (Good x, s') => exists t, l = enc x ++ t /\ zlen (enc x) <= left st l /\
      at_pos s' t (bump (zlen (enc x)) st)
  | Ok (Err e, s') => e = EOL -> at_pos s' l st /\ exists t st', st = t :: st' /\ pos t = lsize t
  | OutOfFuel => (fuel < 2 * length l + 2)%nat
  | Panic => False
  end.

Definition elems_post (fuel : nat) (l : list byte) (p n : Z) (st : list listpos)
    (o : outcome (result rlperr (list item) * Stream)) : Prop :=
  match o with
  | Ok (Good xs, s') => exists t, l = concat (map enc xs) ++ t /\ p + zlen (concat (map enc xs)) = n /\
      at_pos s' t (mkListpos n n :: st)
  | Ok (Err e, _) => e <> EOL
  | OutOfFuel => (fuel < 2 * length l + 3)%nat
  | Panic => False
  end.

Lemma s_Bytes_not_EOL s k n l st s' : ready s k n l st -> s_Bytes s <> (Err EOL, s').
Proof.
  intros H. unfold s_Bytes, sbind. rewrite (s_Kind_ready _ _ _ _ _ H). destruct k; [by intros [= ]| |by intros [= ]].
  destruct (readFull n s) as [[[|c b]|e] s1] eqn:E; [by intros [= ]| |].
  - case_match; by intros [= ].
  - intros [= ]; subst. by apply readFull_not_EOL in E.
Qed.

Lemma s_ListEnd_inv s l p n st s' : at_pos s l (mkListpos p n :: st) -> s_ListEnd s = (Good tt, s') -> p = n.
Proof.
  intros [[_ _ _ Hst] _]. unfold s_ListEnd. rewrite Hst. cbn [pos lsize].
  destruct (Z.eqb_spec p n); [done|]. by intros [= ].
Qed.

Lemma s_ListEnd_not_EOL s s' : s_ListEnd s <> (Err EOL, s').
Proof. unfold s_ListEnd. repeat case_match; by intros [= ]. Qed.

Lemma string_head_enc b h : head_bytes KString (zlen b) h -> canonical_str b -> h ++ b = enc_str b.
Proof.
  intros [_ ->] Hc. unfold enc_str. destruct b as [|c [|c' b]]; [done| |done].
  cbn in Hc. destruct (Z.ltb_spec (b2z c) 128); [lia|done].
Qed.

Lemma iface_step fuel :
  (forall s l p n st, at_pos s l (mkListpos p n :: st) -> wf l (mkListpos p n :: st) ->
     elems_post fuel l p n st (decodeSliceElems fuel s)) ->
  forall s l st, at_pos s l st -> wf l st -> iface_post (S fuel) l st (decodeInterface (S fuel) s).
Proof.
  intros IHe s l st Ha Hw. cbn [decodeInterface].
  destruct (s_Kind s) as [[[k n]|e] s1] eqn:E.
  2:{ cbn. intros ->. by apply (s_Kind_EOL_inv s l st s1). }
  destruct (s_Kind_inv s l st k n s1 Ha Hw E) as (h & t & -> & Hh & Hle & Hr & Hbv).
  pose proof (head_bytes_pos _ _ _ Hh) as [Hh1 Hn].
  pose proof (wf_bump (zlen h) t h st eq_refl ltac:(lia) Hw) as Hw1.
  assert (left (bump (zlen h) st) t = left st (h ++ t) - zlen h) as Hl1.
  { apply left_bump. rewrite zlen_app. lia. }
  destruct k.
  - destruct Hh as (-> & c & -> & Hc). specialize (Hbv eq_refl). injection Hbv as Hbv.
    destruct (s_Bytes_byte _ _ _ Hr) as (s2 & -> & Ha2). rewrite <- Hbv. cbn [iface_post enc enc_str].
    destruct (Z.ltb_spec (b2z c) 128); [|lia]. exists t. split; [done|]. split; [|done].
    change (zlen [c]) with 1 in *. lia.
  - destruct (s_Bytes s1) as [[b|e] s2] eqn:E2.
    2:{ cbn. intros ->. exfalso. by apply (s_Bytes_not_EOL _ _ _ _ _ s2 Hr). }
    destruct (s_Bytes_str_inv s1 n t _ b s2 Hr Hw1 ltac:(lia) E2) as (t' & -> & Hb & Hle' & Hc & Ha2).
    subst n. cbn [iface_post enc]. exists t'. rewrite <- (string_head_enc b h Hh Hc).
    rewrite zlen_app, <- app_assoc. split; [done|]. split; [done|]. by rewrite <- bump_bump.
  - destruct (s_List_ready s1 _ _ _ Hr) as (s2 & -> & Ha2).
    assert (wf t (mkListpos 0 n :: bump (zlen h) st)) as Hw2.
    { destruct Hw1 as (? & ? & ?). split; [done|]. split; [|cbn; lia].
      cbn. repeat split; try lia; try done. destruct st as [|tp st]; [done|]. cbn in *. lia. }
    assert (forall xs t' s3, t = concat (map enc xs) ++ t' -> zlen (concat (map enc xs)) = n ->
      at_pos s3 t' (mkListpos n n :: bump (zlen h) st) ->
      iface_post (S fuel) (h ++ t) st
        (match s_ListEnd s3 with (Good _, s) => Ok (Good (Lst xs), s) | (Err e, s) => Ok (Err e, s) end)) as Hend.
    { intros xs t' s3 -> Hxs Ha3.
      assert (wf t' (mkListpos n n :: bump (zlen h) st)) as Hw3.
      { rewrite <- Hxs in *. refine (wf_bump _ t' _ (mkListpos 0 _ :: _) eq_refl _ Hw2). cbn. lia. }
      destruct (s_ListEnd_ok s3 _ _ _ Ha3 Hw3) as (s4 & -> & Ha4).
      cbn [iface_post enc]. exists t'. unfold enc_lst. rewrite Hxs.
      destruct Hh as [_ ->]. rewrite zlen_app, Hxs, <- app_assoc. split; [done|]. split; [done|].
      by rewrite <- bump_bump. }
    destruct (Z.eqb_spec n 0) as [->|Hn0].
    + specialize (Hend [] t s2 eq_refl eq_refl Ha2).
      destruct (s_ListEnd s2) as [[[]|e] s3]; exact Hend.
    + specialize (IHe s2 t 0 n _ Ha2 Hw2). unfold elems_post in IHe.
      destruct (decodeSliceElems fuel s2) as [[[xs|e] s3]| |]; cbn [obind].
      * destruct IHe as (t' & Et & Hxs & Ha3). apply (Hend xs t' s3 Et); [lia|done].
      * cbn. intros ->. done.
      * done.
      * cbn. rewrite length_app. unfold zlen in Hh1. lia.
Qed.

Lemma elems_step fuel :
  (forall s l st, at_pos s l st -> wf l st -> iface_post fuel l st (decodeInterface fuel s)) ->
  (forall s l p n st, at_pos s l (mkListpos p n :: st) -> wf l (mkListpos p n :: st) ->
     elems_post fuel l p n st (decodeSliceElems fuel s)) ->
  forall s l p n st, at_pos s l (mkListpos p n :: st) -> wf l (mkListpos p n :: st) ->
  elems_post (S fuel) l p n st (decodeSliceElems (S fuel) s).
Proof.
  intros IHi IHe s l p n st Ha Hw. cbn [decodeSliceElems].
  specialize (IHi s l _ Ha Hw). unfold iface_post in IHi.
  destruct (decodeInterface fuel s) as [[[x|e] s1]| |]; cbn [obind].
  - destruct IHi as (t & -> & Hle & Ha1). cbn [left bump pos lsize] in *.
    pose proof (wf_bump (zlen (enc x)) t (enc x) (mkListpos p n :: st) eq_refl Hle Hw) as Hw1.
    specialize (IHe s1 t _ _ _ Ha1 Hw1). unfold elems_post in IHe.
    destruct (decodeSliceElems fuel s1) as [[[xs|e] s2]| |]; cbn [obind elems_post]; try done.
    + destruct IHe as (t' & -> & Hn & Ha2). exists t'. cbn [map concat].
      rewrite zlen_app, <- app_assoc. split; [done|]. split; [lia|done].
    + pose proof (enc_nonempty x) as Hx. unfold zlen in Hx. rewrite length_app. lia.
  - destruct (decide (e = EOL)) as [->|He].
    + destruct IHi as [Ha1 (t & st' & [= <- <-] & Ht)]; [done|]. cbn in Ht. subst n.
      cbn. exists l. split; [done|]. split; [change (zlen (@nil byte)) with 0; lia|done].
    + destruct e; try done; cbn; done.
  - done.
  - cbn in *. lia.
Qed.

Lemma decode_post fuel :
  (forall s l st, at_pos s l st -> wf l st -> iface_post fuel l st (decodeInterface fuel s)) /\
  (forall s l p n st, at_pos s l (mkListpos p n :: st) -> wf l (mkListpos p n :: st) ->
     elems_post fuel l p n st (decodeSliceElems fuel s)).
Proof.
  induction fuel as [|fuel [IHi IHe]].
  - split; intros; cbn; lia.
  - split; [by apply iface_step|by apply elems_step].
Qed.

Lemma NewStream_at b : at_pos (NewStream b (zlen b)) b [].
Proof.
  split; [|done]. constructor; try done. cbn. destruct (Z.ltb_spec 0 (zlen b)); done.
Qed.

Lemma NewStream_wf b : zlen b <= MaxUint64 -> wf b [].
Proof. intros. repeat split; cbn; done. Qed.

(** ** Slices: [raw.go] *)

(** The bytes [Split] recognises as a value of kind [k] with the given content. *)
Definition value_bytes (k : Kind) (content : list byte) (v : list byte) : Prop :=
  match k with
  | KByte => v = content /\ exists c, content = [c] /\ b2z c < 128
  | KString => canonical_str content /\ zlen content <= MaxUint64 /\
      v = enc_head 0x80 0xB7 (zlen content) ++ content
  | KList => zlen content <= MaxUint64 /\ v = enc_lst content
  end.

Lemma readSize_parse k m b : 1 <= m ->
  parse_long k m b = match readSize b m with Good n => Some (k, n, 1 + m) | Err _ => None end.
Proof.
  intros Hm. unfold parse_long, readSize. destruct (Z.ltb_spec (zlen b) m) as [|Hl]; [done|].
  destruct b as [|c t]; [change (zlen (@nil byte)) with 0 in Hl; lia|].
  rewrite orb_comm. by destruct (_ || _).
Qed.

(** Size of the tag as [readKind] counts it: none for a single byte. *)
Definition tagsize (k : Kind) (m : Z) : Z := match k with KByte => 0 | _ => m end.
Definition contentsize (k : Kind) (n : Z) : Z := match k with KByte => 1 | _ => n end.

Lemma readKind_parse b k ts cs : zlen b <= MaxUint64 ->
  readKind b = Good (k, ts, cs) <->
  exists n m, parse_head b = Some (k, n, m) /\ ts = tagsize k m /\ cs = contentsize k n /\
    ts + cs <= zlen b /\
    (k = KString -> n = 1 -> forall c d t, b = c :: d :: t -> 128 <= b2z d).
Proof.
  intros Hb. destruct b as [|c t]; [cbn; split; [done|naive_solver]|].
  pose proof (b2z_range c). pose proof (zlen_nonneg t).
  assert (forall k' m n, 0 <= m <= zlen (c :: t) ->
    (if u64 (zlen (c :: t) - m) <? n then Err ErrValueTooLarge else Good (k', m, n)) = Good (k, ts, cs) <->
    k = k' /\ ts = m /\ cs = n /\ ts + cs <= zlen (c :: t)) as Hfit.
  { intros k' m n Hm. rewrite u64_small by (unfold is_u64; lia).
    destruct (Z.ltb_spec (zlen (c :: t) - m) n); split; try done.
    - intros (-> & -> & -> & ?). lia.
    - intros [= <- <- <-]. repeat split; lia.
    - intros (-> & -> & -> & ?). done. }
  unfold readKind, parse_head. rewrite zlen_cons in *.
  destruct (Z.ltb_spec (b2z c) 0x80).
  { rewrite Hfit by lia. split.
    - intros (-> & -> & -> & ?). exists 0, 1. repeat split; try done.
    - intros (n & m & [= <- <- <-] & -> & -> & ? & _). done. }
  destruct (Z.ltb_spec (b2z c) 0xB8).
  { destruct (Z.eqb_spec (b2z c - 0x80) 1) as [E1|E1]; cbn [andb].
    - destruct t as [|d t].
      + rewrite Hfit by lia. split.
        * intros (-> & -> & -> & ?). exists (b2z c - 0x80), 1. repeat split; try done.
        * intros (n & m & [= <- <- <-] & -> & -> & ? & _). done.
      + destruct (Z.ltb_spec (b2z d) 128).
        * split; [done|]. intros (n & m & [= <- <- <-] & _ & _ & _ & Hc).
          specialize (Hc eq_refl E1 c d t eq_refl). lia.
        * rewrite Hfit by lia. split.
          -- intros (-> & -> & -> & ?). exists (b2z c - 0x80), 1. repeat split; try done.
             intros _ _ c' d' t' [= <- <- <-]. lia.
          -- intros (n & m & [= <- <- <-] & -> & -> & ? & _). done.
    - rewrite Hfit by lia. split.
      + intros (-> & -> & -> & ?). exists (b2z c - 0x80), 1. repeat split; try done.
      + intros (n & m & [= <- <- <-] & -> & -> & ? & _). done. }
  assert (forall k' sl, 1 <= sl <= 8 -> k' <> KByte ->
    rbind (readSize t sl) (fun n => if u64 (1 + zlen t - (sl + 1)) <? n then Err ErrValueTooLarge else Good (k', sl + 1, n)) = Good (k, ts, cs) <->
    exists n m, parse_long k' sl t = Some (k, n, m) /\ ts = tagsize k m /\ cs = contentsize k n /\
      ts + cs <= 1 + zlen t /\ (k = KString -> n = 1 -> forall c' d t', c :: t = c' :: d :: t' -> 128 <= b2z d)) as Hlong.
  { intros k' sl Hsl Hk'. rewrite readSize_parse by lia.
    destruct (readSize t sl) as [n|e] eqn:Es; [|split; [done|naive_solver]].
    assert (sl <= zlen t /\ 56 <= n) as [Hsl' Hn].
    { unfold readSize in Es. destruct (Z.ltb_spec (zlen t) sl); [done|].
      destruct (Z.ltb_spec (be2z (take (Z.to_nat sl) t)) 56); [done|]. cbn in Es.
      case_match; [done|]. by injection Es as <-. }
    cbn [rbind]. rewrite Hfit by lia. split.
    - intros (-> & -> & -> & ?). exists n, (1 + sl). split; [done|].
      destruct k'; try done; cbn; repeat split; try lia.
    - intros (n' & m & [= <- <- <-] & -> & -> & ? & _). destruct k'; try done; cbn in *; repeat split; lia. }
  destruct (Z.ltb_spec (b2z c) 0xC0); [apply Hlong; [lia|done]|].
  destruct (Z.ltb_spec (b2z c) 0xF8).
  { rewrite Hfit by lia. split.
    - intros (-> & -> & -> & ?). exists (b2z c - 0xC0), 1. repeat split; try done.
    - intros (n & m & [= <- <- <-] & -> & -> & ? & _). done. }
  apply Hlong; [lia|done].
Qed.

Lemma Split_pieces b k ts cs h content rest :
  readKind b = Good (k, ts, cs) -> b = h ++ content ++ rest -> ts = zlen h -> cs = zlen content ->
  Split b = Good (k, content, rest).
Proof.
  intros E -> -> ->. unfold Split. rewrite E. cbn [rbind]. unfold zlen.
  rewrite <- Nat2Z.inj_add, !Nat2Z.id, drop_app_length, take_app_length.
  rewrite app_assoc, <- length_app, drop_app_length. done.
Qed.

Lemma Split_complete b k content rest v : zlen b <= MaxUint64 ->
  b = v ++ rest -> value_bytes k content v -> Split b = Good (k, content, rest).
Proof.
  intros Hb -> Hv. rewrite zlen_app in Hb. pose proof (zlen_nonneg rest). pose proof (zlen_nonneg content).
  destruct k; cbn [value_bytes] in Hv.
  - destruct Hv as (-> & c & -> & Hc). apply (Split_pieces _ KByte 0 1 []); try done.
    apply readKind_parse; [rewrite zlen_app; lia|]. exists 0, 1.
    rewrite (parse_head_bytes KByte 0 [c]) by (split; [done|by exists c]). repeat split; try done.
    rewrite zlen_app. change (zlen [c]) with 1. cbn. lia.
  - destruct Hv as (Hc & Hm & ->). rewrite <- app_assoc, zlen_app in *.
    apply (Split_pieces _ KString (zlen (enc_head 0x80 0xB7 (zlen content))) (zlen content) (enc_head 0x80 0xB7 (zlen content))); try done.
    apply readKind_parse; [rewrite !zlen_app; lia|].
    eexists _, _. rewrite parse_head_str by lia. repeat split; try done.
    + cbn. rewrite !zlen_app. lia.
    + intros _ E1 c d t. rewrite E1, enc_head_small by lia. intros [= <- Et].
      destruct content as [|d' [|d'' content]]; [done| |rewrite !zlen_cons in E1; pose proof (zlen_nonneg content); lia].
      by injection Et as <- _.
  - destruct Hv as (Hm & ->). unfold enc_lst in *. rewrite <- app_assoc, zlen_app in *.
    apply (Split_pieces _ KList (zlen (enc_head 0xC0 0xF7 (zlen content))) (zlen content) (enc_head 0xC0 0xF7 (zlen content))); try done.
    apply readKind_parse; [rewrite !zlen_app; lia|].
    eexists _, _. rewrite parse_head_lst by lia. repeat split; try done.
    cbn. rewrite !zlen_app. lia.
Qed.

Lemma Split_sound b k content rest : zlen b <= MaxUint64 ->
  Split b = Good (k, content, rest) -> exists v, b = v ++ rest /\ value_bytes k content v.
Proof.
  intros Hb. destruct (readKind b) as [[[k' ts] cs]|e] eqn:E; [|by unfold Split; rewrite E].
  pose proof E as (n & m & Hp & Hts & Hcs & Hle & Hcan)%readKind_parse; [|done].
  destruct (parse_head_inv _ _ _ _ Hp) as (h & t & -> & -> & Hh).
  pose proof (head_bytes_pos _ _ _ Hh) as [Hh1 Hn]. rewrite zlen_app in *.
  destruct k'; cbn [tagsize contentsize] in *; subst ts cs.
  - destruct Hh as (-> & c & -> & Hc). rewrite (Split_pieces _ _ _ _ [] [c] t E) by done.
    intros [= <- <- <-]. exists [c]. split; [done|]. split; [done|]. by exists c.
  - assert (t = take (Z.to_nat n) t ++ drop (Z.to_nat n) t) as Et by (symmetry; apply take_drop).
    assert (zlen (take (Z.to_nat n) t) = n) as En by (unfold zlen in *; rewrite length_take; lia).
    rewrite (Split_pieces _ _ _ _ h (take (Z.to_nat n) t) (drop (Z.to_nat n) t) E) by (rewrite ?take_drop; done).
    intros [= <- <- <-]. exists (h ++ take (Z.to_nat n) t). rewrite <- app_assoc, take_drop. split; [done|].
    destruct Hh as [_ ->]. cbn [value_bytes]. rewrite En. split; [|by split; [lia|]].
    destruct (take (Z.to_nat n) t) as [|d [|d' tk]] eqn:Etk; [done| |done]. cbn.
    change (zlen [d]) with 1 in En. subst n. rewrite enc_head_small in Hcan by lia.
    eapply (Hcan eq_refl eq_refl). cbn [app] in *. f_equal. exact Et.
  - assert (zlen (take (Z.to_nat n) t) = n) as En by (unfold zlen in *; rewrite length_take; lia).
    rewrite (Split_pieces _ _ _ _ h (take (Z.to_nat n) t) (drop (Z.to_nat n) t) E) by (rewrite ?take_drop; done).
    intros [= <- <- <-]. exists (h ++ take (Z.to_nat n) t). rewrite <- app_assoc, take_drop. split; [done|].
    destruct Hh as [_ ->]. cbn [value_bytes]. unfold enc_lst. rewrite En. by split; [lia|].
Qed.

(** Every encoded item is a value of [raw.go]. *)
Lemma enc_value_bytes x : zlen (enc x) <= MaxUint64 -> exists k content, value_bytes k content (enc x).
Proof.
  destruct x as [b|l]; cbn [enc]; intros Hl.
  - pose proof (zlen_enc_str_ge b).
    destruct (enc_str_head b) as [(c & -> & -> & _ & c' & [= ->] & Hc)|(h & -> & [_ ->] & Hc)]; [lia| |].
    + exists KByte, [c']. split; [done|]. by exists c'.
    + exists KString, b. split; [done|]. split; [lia|done].
  - pose proof (zlen_enc_lst_ge (concat (map enc l))).
    exists KList, (concat (map enc l)). split; [lia|done].
Qed.

Lemma value_bytes_readKind k content v rest : zlen (v ++ rest) <= MaxUint64 -> value_bytes k content v ->
  exists ts cs, readKind (v ++ rest) = Good (k, ts, cs) /\ drop (Z.to_nat (ts + cs)) (v ++ rest) = rest.
Proof.
  intros Hl Hv. pose proof (Split_complete _ k content rest v Hl eq_refl Hv) as H.
  unfold Split in H. destruct (readKind (v ++ rest)) as [[[k' ts] cs]|e]; [|done].
  cbn [rbind] in H. injection H as H1 _ H3. subst k'. by exists ts, cs.
Qed.

Lemma CountValues_loop_enc xs : forall fuel i,
  (length xs <= fuel)%nat -> zlen (concat (map enc xs)) <= MaxUint64 ->
  CountValues_loop fuel i (concat (map enc xs)) = Ok (Good (i + zlen xs)).
Proof.
  induction xs as [|x xs IH]; intros fuel i Hf Hl.
  - cbn. destruct fuel; cbn; do 2 f_equal; unfold zlen; simpl; lia.
  - cbn [map concat] in *. destruct fuel as [|fuel]; [cbn in Hf; lia|].
    assert (zlen (enc x) <= MaxUint64) as Hx.
    { rewrite zlen_app in Hl. pose proof (zlen_nonneg (concat (map enc xs))). lia. }
    destruct (enc_value_bytes x Hx) as (k & content & Hv).
    destruct (value_bytes_readKind k content (enc x) (concat (map enc xs)) Hl Hv) as (ts & cs & E & Ed).
    pose proof (enc_nonempty x) as Hne.
    destruct (enc x ++ concat (map enc xs)) as [|c t] eqn:Eb.
    { apply app_eq_nil in Eb as [Eb _]. rewrite Eb in Hne. done. }
    cbn [CountValues_loop]. rewrite E, Ed. rewrite IH.
    + rewrite zlen_cons. do 2 f_equal. lia.
    + cbn in Hf. lia.
    + rewrite <- Eb, zlen_app in Hl. pose proof (zlen_nonneg (enc x)). lia.
Qed.

Lemma length_concat_enc xs : (length xs <= length (concat (map enc xs)))%nat.
Proof.
  induction xs as [|x xs IH]; cbn [map concat length]; [lia|].
  rewrite length_app. pose proof (enc_nonempty x) as H. unfold zlen in H. lia.
Qed.

(** Decoding of an encoding. *)
Lemma decode_enc x fuel :
  zlen (enc x) <= MaxUint64 -> (2 * length (enc x) + 2 <= fuel)%nat ->
  DecodeBytes fuel (enc x) = Ok (Good x).
Proof.
  intros Hl Hf. unfold DecodeBytes.
  destruct (decodeInterface_ok x fuel ltac:(lia) (NewStream (enc x) (zlen (enc x))) [] []) as (s' & -> & Ha).
  - rewrite app_nil_r. apply NewStream_at.
  - rewrite app_nil_r. by apply NewStream_wf.
  - rewrite app_nil_r. cbn. lia.
  - cbn [obind]. destruct Ha as [[-> _ _ _] _]. done.
Qed.

(** ** Properties *)

(** C26. The two-pass encoder, which writes strings first and splices the list
    headers in afterwards, produces exactly the recursive RLP encoding of every
    encodable value. *)
Theorem EncodeToBytes_enc v :
  encodable v -> zlen (enc_val v) <= MaxUint64 -> EncodeToBytes v = Good (enc_val v).
Proof. apply EncodeToBytes_spec. Qed.

Lemma EncodeToBytes_enc_witness :
  EncodeToBytes (VList [VUint 1024; VBytes [z2b 7]; VList []]) =
  Good (enc_val (VList [VUint 1024; VBytes [z2b 7]; VList []])).
Proof. apply EncodeToBytes_enc; vm_compute; intuition congruence. Defined.

(** Round trip: decoding the encoding of any item through the stream
    decoder gives the item back, and fuel of twice the input is enough. *)
Theorem DecodeBytes_enc x fuel :
  zlen (enc x) <= MaxUint64 -> (2 * length (enc x) + 2 <= fuel)%nat ->
  DecodeBytes fuel (enc x) = Ok (Good x).
Proof. apply decode_enc. Qed.

Lemma DecodeBytes_enc_witness :
  DecodeBytes 100 (enc (Lst [Str [z2b 200]; Lst [Str []; Str [z2b 1; z2b 2]]])) =
  Ok (Good (Lst [Str [z2b 200]; Lst [Str []; Str [z2b 1; z2b 2]]])).
Proof. apply DecodeBytes_enc; vm_compute; [intuition congruence|lia]. Defined.

(** C25. The decoder terminates on every input and is canonical: it accepts a
    byte string exactly when the string is the encoding of the result, so no
    value has two accepted encodings. *)
Theorem DecodeBytes_canonical b fuel :
  zlen b <= MaxUint64 -> (2 * length b + 2 <= fuel)%nat ->
  exists res, DecodeBytes fuel b = Ok res /\ forall x, res = Good x <-> b = enc x.
Proof.
  intros Hl Hf. unfold DecodeBytes.
  pose proof (proj1 (decode_post fuel) _ _ _ (NewStream_at b) (NewStream_wf b Hl)) as H.
  unfold iface_post in H.
  destruct (decodeInterface fuel (NewStream b (zlen b))) as [[[x|e] s']| |] eqn:E; cbn [obind];
    [|exists (Err e)|done|lia].
  - destruct H as (t & -> & _ & [[Hr _ _ _] _]). rewrite Hr. destruct t as [|c t].
    + rewrite app_nil_r in *. exists (Good x). split; [done|]. intros y. split; [by intros [= ->]|].
      intros Exy. pose proof (decode_enc y fuel) as Hy. rewrite <- Exy in Hy. specialize (Hy Hl ltac:(lia)).
      unfold DecodeBytes in Hy. rewrite E in Hy. cbn [obind] in Hy. rewrite Hr in Hy. by injection Hy as ->.
    + exists (Err ErrMoreThanOneValue). split; [done|]. intros y. split; [done|].
      intros Exy. pose proof (decode_enc y fuel) as Hy. rewrite <- Exy in Hy. specialize (Hy Hl ltac:(lia)).
      unfold DecodeBytes in Hy. rewrite E in Hy. cbn [obind] in Hy. by rewrite Hr in Hy.
  - split; [done|]. intros y. split; [done|].
    intros Exy. pose proof (decode_enc y fuel) as Hy. rewrite <- Exy in Hy. specialize (Hy Hl ltac:(lia)).
    unfold DecodeBytes in Hy. by rewrite E in Hy.
Qed.

Lemma DecodeBytes_canonical_witness :
  exists res, DecodeBytes 10 [z2b 0x81; z2b 5] = Ok res /\ forall x, res = Good x <-> [z2b 0x81; z2b 5] = enc x.
Proof. apply DecodeBytes_canonical; vm_compute; [intuition congruence|lia]. Defined.

(** [Split] cuts a slice exactly at the first canonical value: it succeeds
    with a kind, content and rest if and only if the input is the canonical
    encoding of that content followed by the rest. *)
Theorem Split_iff b k content rest :
  zlen b <= MaxUint64 ->
  Split b = Good (k, content, rest) <-> exists v, b = v ++ rest /\ value_bytes k content v.
Proof.
  intros Hb. split; [by apply Split_sound|]. intros (v & E & Hv). by apply (Split_complete b k content rest v).
Qed.

Lemma Split_iff_witness :
  Split [z2b 0x82; z2b 1; z2b 2; z2b 9] = Good (KString, [z2b 1; z2b 2], [z2b 9]) <->
  exists v, [z2b 0x82; z2b 1; z2b 2; z2b 9] = v ++ [z2b 9] /\ value_bytes KString [z2b 1; z2b 2] v.
Proof. apply Split_iff. vm_compute. intuition congruence. Defined.

(** [CountValues] on a concatenation of encodings counts the values. *)
Theorem CountValues_enc xs :
  zlen (concat (map enc xs)) <= MaxUint64 -> CountValues (concat (map enc xs)) = Ok (Good (zlen xs)).
Proof. intros Hl. unfold CountValues. apply CountValues_loop_enc; [apply length_concat_enc|done]. Qed.

Lemma CountValues_enc_witness :
  CountValues (concat (map enc [Str [z2b 1]; Lst [Str []]])) = Ok (Good (zlen [Str [z2b 1]; Lst [Str []]])).
Proof. apply CountValues_enc. vm_compute. intuition congruence. Defined.
