(* ===== verification/Opcodes.v ===== *)
(** * Opcodes of the virtual machine ([kernel/vm/opcodes.go])

    An [OpCode] is a byte; the model keeps its value as an integer.  The two
    name tables are the source's maps, in the order in which they are written. *)
From S2P Require Import Prelude.
From stdpp Require Import base numbers list strings.
From Stdlib Require Import ZArith Lia.
#[local] Open Scope Z_scope.

Definition OpCode : Type := Z.

Definition STOP : OpCode := 0x00.
Definition ADD : OpCode := 0x01.
Definition MUL : OpCode := 0x02.
Definition SUB : OpCode := 0x03.
Definition DIV : OpCode := 0x04.
Definition SDIV : OpCode := 0x05.
Definition MOD : OpCode := 0x06.
Definition SMOD : OpCode := 0x07.
Definition ADDMOD : OpCode := 0x08.
Definition MULMOD : OpCode := 0x09.
Definition EXP : OpCode := 0x0a.
Definition SIGNEXTEND : OpCode := 0x0b.
Definition LT : OpCode := 0x10.
Definition GT : OpCode := 0x11.
Definition SLT : OpCode := 0x12.
Definition SGT : OpCode := 0x13.
Definition EQ : OpCode := 0x14.
Definition ISZERO : OpCode := 0x15.
Definition AND : OpCode := 0x16.
Definition OR : OpCode := 0x17.
Definition XOR : OpCode := 0x18.
Definition NOT : OpCode := 0x19.
Definition BYTE : OpCode := 0x1a.
Definition SHL : OpCode := 0x1b.
Definition SHR : OpCode := 0x1c.
Definition SAR : OpCode := 0x1d.
Definition SHA3 : OpCode := 0x20.
Definition ADDRESS : OpCode := 0x30.
Definition BALANCE : OpCode := 0x31.
Definition ORIGIN : OpCode := 0x32.
Definition CALLER : OpCode := 0x33.
Definition CALLVALUE : OpCode := 0x34.
Definition CALLDATALOAD : OpCode := 0x35.
Definition CALLDATASIZE : OpCode := 0x36.
Definition CALLDATACOPY : OpCode := 0x37.
Definition CODESIZE : OpCode := 0x38.
Definition CODECOPY : OpCode := 0x39.
Definition GASPRICE : OpCode := 0x3a.
Definition EXTCODESIZE : OpCode := 0x3b.
Definition EXTCODECOPY : OpCode := 0x3c.
Definition RETURNDATASIZE : OpCode := 0x3d.
Definition RETURNDATACOPY : OpCode := 0x3e.
Definition EXTCODEHASH : OpCode := 0x3f.
Definition BLOCKHASH : OpCode := 0x40.
Definition COINBASE : OpCode := 0x41.
Definition TIMESTAMP : OpCode := 0x42.
Definition NUMBER : OpCode := 0x43.
Definition DIFFICULTY : OpCode := 0x44.
Definition GASLIMIT : OpCode := 0x45.
Definition POP : OpCode := 0x50.
Definition MLOAD : OpCode := 0x51.
Definition MSTORE : OpCode := 0x52.
Definition MSTORE8 : OpCode := 0x53.
Definition SLOAD : OpCode := 0x54.
Definition SSTORE : OpCode := 0x55.
Definition JUMP : OpCode := 0x56.
Definition JUMPI : OpCode := 0x57.
Definition PC : OpCode := 0x58.
Definition MSIZE : OpCode := 0x59.
Definition GAS : OpCode := 0x5a.
Definition JUMPDEST : OpCode := 0x5b.
Definition PUSH1 : OpCode := 0x60.
Definition PUSH2 : OpCode := 0x61.
Definition PUSH3 : OpCode := 0x62.
Definition PUSH4 : OpCode := 0x63.
Definition PUSH5 : OpCode := 0x64.
Definition PUSH6 : OpCode := 0x65.
Definition PUSH7 : OpCode := 0x66.
Definition PUSH8 : OpCode := 0x67.
Definition PUSH9 : OpCode := 0x68.
Definition PUSH10 : OpCode := 0x69.
Definition PUSH11 : OpCode := 0x6a.
Definition PUSH12 : OpCode := 0x6b.
Definition PUSH13 : OpCode := 0x6c.
Definition PUSH14 : OpCode := 0x6d.
Definition PUSH15 : OpCode := 0x6e.
Definition PUSH16 : OpCode := 0x6f.
Definition PUSH17 : OpCode := 0x70.
Definition PUSH18 : OpCode := 0x71.
Definition PUSH19 : OpCode := 0x72.
Definition PUSH20 : OpCode := 0x73.
Definition PUSH21 : OpCode := 0x74.
Definition PUSH22 : OpCode := 0x75.
Definition PUSH23 : OpCode := 0x76.
Definition PUSH24 : OpCode := 0x77.
Definition PUSH25 : OpCode := 0x78.
Definition PUSH26 : OpCode := 0x79.
Definition PUSH27 : OpCode := 0x7a.
Definition PUSH28 : OpCode := 0x7b.
Definition PUSH29 : OpCode := 0x7c.
Definition PUSH30 : OpCode := 0x7d.
Definition PUSH31 : OpCode := 0x7e.
Definition PUSH32 : OpCode := 0x7f.
Definition DUP1 : OpCode := 0x80.
Definition DUP2 : OpCode := 0x81.
Definition DUP3 : OpCode := 0x82.
Definition DUP4 : OpCode := 0x83.
Definition DUP5 : OpCode := 0x84.
Definition DUP6 : OpCode := 0x85.
Definition DUP7 : OpCode := 0x86.
Definition DUP8 : OpCode := 0x87.
Definition DUP9 : OpCode := 0x88.
Definition DUP10 : OpCode := 0x89.
Definition DUP11 : OpCode := 0x8a.
Definition DUP12 : OpCode := 0x8b.
Definition DUP13 : OpCode := 0x8c.
Definition DUP14 : OpCode := 0x8d.
Definition DUP15 : OpCode := 0x8e.
Definition DUP16 : OpCode := 0x8f.
Definition SWAP1 : OpCode := 0x90.
Definition SWAP2 : OpCode := 0x91.
Definition SWAP3 : OpCode := 0x92.
Definition SWAP4 : OpCode := 0x93.
Definition SWAP5 : OpCode := 0x94.
Definition SWAP6 : OpCode := 0x95.
Definition SWAP7 : OpCode := 0x96.
Definition SWAP8 : OpCode := 0x97.
Definition SWAP9 : OpCode := 0x98.
Definition SWAP10 : OpCode := 0x99.
Definition SWAP11 : OpCode := 0x9a.
Definition SWAP12 : OpCode := 0x9b.
Definition SWAP13 : OpCode := 0x9c.
Definition SWAP14 : OpCode := 0x9d.
Definition SWAP15 : OpCode := 0x9e.
Definition SWAP16 : OpCode := 0x9f.
Definition LOG0 : OpCode := 0xa0.
Definition LOG1 : OpCode := 0xa1.
Definition LOG2 : OpCode := 0xa2.
Definition LOG3 : OpCode := 0xa3.
Definition LOG4 : OpCode := 0xa4.
Definition PUSH : OpCode := 0xb0.
Definition DUP : OpCode := 0xb1.
Definition SWAP : OpCode := 0xb2.
Definition CREATE : OpCode := 0xf0.
Definition CALL : OpCode := 0xf1.
Definition CALLCODE : OpCode := 0xf2.
Definition RETURN : OpCode := 0xf3.
Definition DELEGATECALL : OpCode := 0xf4.
Definition CREATE2 : OpCode := 0xf5.
Definition STATICCALL : OpCode := 0xfa.
Definition REVERT : OpCode := 0xfd.
Definition SELFDESTRUCT : OpCode := 0xff.

Definition IsPush (op : OpCode) : bool := 
  existsb (Z.eqb op) [PUSH1; PUSH2; PUSH3; PUSH4; PUSH5; PUSH6; PUSH7; PUSH8; PUSH9; PUSH10; PUSH11; PUSH12; PUSH13; PUSH14; PUSH15; PUSH16;
    PUSH17; PUSH18; PUSH19; PUSH20; PUSH21; PUSH22; PUSH23; PUSH24; PUSH25; PUSH26; PUSH27; PUSH28; PUSH29; PUSH30; PUSH31; PUSH32].
Definition IsStaticJump (op : OpCode) : bool := op =? JUMP.

#[local] Open Scope string_scope.
#[local] Open Scope Z_scope.

Definition opCodeToString : list (OpCode * string) :=
  [(STOP, "STOP"); (ADD, "ADD"); (MUL, "MUL"); (SUB, "SUB");
   (DIV, "DIV"); (SDIV, "SDIV"); (MOD, "MOD"); (SMOD, "SMOD");
   (EXP, "EXP"); (NOT, "NOT"); (LT, "LT"); (GT, "GT");
   (SLT, "SLT"); (SGT, "SGT"); (EQ, "EQ"); (ISZERO, "ISZERO");
   (SIGNEXTEND, "SIGNEXTEND"); (AND, "AND"); (OR, "OR"); (XOR, "XOR");
   (BYTE, "BYTE"); (SHL, "SHL"); (SHR, "SHR"); (SAR, "SAR");
   (ADDMOD, "ADDMOD"); (MULMOD, "MULMOD"); (SHA3, "SHA3"); (ADDRESS, "ADDRESS");
   (BALANCE, "BALANCE"); (ORIGIN, "ORIGIN"); (CALLER, "CALLER"); (CALLVALUE, "CALLVALUE");
   (CALLDATALOAD, "CALLDATALOAD"); (CALLDATASIZE, "CALLDATASIZE"); (CALLDATACOPY, "CALLDATACOPY"); (CODESIZE, "CODESIZE");
   (CODECOPY, "CODECOPY"); (GASPRICE, "GASPRICE"); (EXTCODESIZE, "EXTCODESIZE"); (EXTCODECOPY, "EXTCODECOPY");
   (RETURNDATASIZE, "RETURNDATASIZE"); (RETURNDATACOPY, "RETURNDATACOPY"); (EXTCODEHASH, "EXTCODEHASH"); (BLOCKHASH, "BLOCKHASH");
   (COINBASE, "COINBASE"); (TIMESTAMP, "TIMESTAMP"); (NUMBER, "NUMBER"); (DIFFICULTY, "DIFFICULTY");
   (GASLIMIT, "GASLIMIT"); (POP, "POP"); (MLOAD, "MLOAD"); (MSTORE, "MSTORE");
   (MSTORE8, "MSTORE8"); (SLOAD, "SLOAD"); (SSTORE, "SSTORE"); (JUMP, "JUMP");
   (JUMPI, "JUMPI"); (PC, "PC"); (MSIZE, "MSIZE"); (GAS, "GAS");
   (JUMPDEST, "JUMPDEST"); (PUSH1, "PUSH1"); (PUSH2, "PUSH2"); (PUSH3, "PUSH3");
   (PUSH4, "PUSH4"); (PUSH5, "PUSH5"); (PUSH6, "PUSH6"); (PUSH7, "PUSH7");
   (PUSH8, "PUSH8"); (PUSH9, "PUSH9"); (PUSH10, "PUSH10"); (PUSH11, "PUSH11");
   (PUSH12, "PUSH12"); (PUSH13, "PUSH13"); (PUSH14, "PUSH14"); (PUSH15, "PUSH15");
   (PUSH16, "PUSH16"); (PUSH17, "PUSH17"); (PUSH18, "PUSH18"); (PUSH19, "PUSH19");
   (PUSH20, "PUSH20"); (PUSH21, "PUSH21"); (PUSH22, "PUSH22"); (PUSH23, "PUSH23");
   (PUSH24, "PUSH24"); (PUSH25, "PUSH25"); (PUSH26, "PUSH26"); (PUSH27, "PUSH27");
   (PUSH28, "PUSH28"); (PUSH29, "PUSH29"); (PUSH30, "PUSH30"); (PUSH31, "PUSH31");
   (PUSH32, "PUSH32"); (DUP1, "DUP1"); (DUP2, "DUP2"); (DUP3, "DUP3");
   (DUP4, "DUP4"); (DUP5, "DUP5"); (DUP6, "DUP6"); (DUP7, "DUP7");
   (DUP8, "DUP8"); (DUP9, "DUP9"); (DUP10, "DUP10"); (DUP11, "DUP11");
   (DUP12, "DUP12"); (DUP13, "DUP13"); (DUP14, "DUP14"); (DUP15, "DUP15");
   (DUP16, "DUP16"); (SWAP1, "SWAP1"); (SWAP2, "SWAP2"); (SWAP3, "SWAP3");
   (SWAP4, "SWAP4"); (SWAP5, "SWAP5"); (SWAP6, "SWAP6"); (SWAP7, "SWAP7");
   (SWAP8, "SWAP8"); (SWAP9, "SWAP9"); (SWAP10, "SWAP10"); (SWAP11, "SWAP11");
   (SWAP12, "SWAP12"); (SWAP13, "SWAP13"); (SWAP14, "SWAP14"); (SWAP15, "SWAP15");
   (SWAP16, "SWAP16"); (LOG0, "LOG0"); (LOG1, "LOG1"); (LOG2, "LOG2");
   (LOG3, "LOG3"); (LOG4, "LOG4"); (CREATE, "CREATE"); (CALL, "CALL");
   (RETURN, "RETURN"); (CALLCODE, "CALLCODE"); (DELEGATECALL, "DELEGATECALL"); (CREATE2, "CREATE2");
   (STATICCALL, "STATICCALL"); (REVERT, "REVERT"); (SELFDESTRUCT, "SELFDESTRUCT"); (PUSH, "PUSH");
   (DUP, "DUP"); (SWAP, "SWAP")].

(** [fmt.Sprintf("%x", n)] for a byte. *)
Definition hex_digit (n : Z) : string := String.substring (Z.to_nat n) 1 "0123456789abcdef".
Definition hex_byte (n : Z) : string :=
  if n <? 16 then hex_digit n else hex_digit (n / 16) +:+ hex_digit (n mod 16).

(** Lookup in a Go map written as a literal. *)
Definition map_get {A B} `{EqDecision A} (k : A) (l : list (A * B)) : option B :=
  snd <$> find (fun p => bool_decide (fst p = k)) l.

Definition OpCode_String (op : OpCode) : string :=
  match map_get op opCodeToString with
  | Some str => if String.eqb str "" then "Missing opcode 0x" +:+ hex_byte op else str
  | None => "Missing opcode 0x" +:+ hex_byte op
  end.

Definition stringToOp : list (string * OpCode) :=
  [("STOP", STOP); ("ADD", ADD); ("MUL", MUL); ("SUB", SUB);
   ("DIV", DIV); ("SDIV", SDIV); ("MOD", MOD); ("SMOD", SMOD);
   ("EXP", EXP); ("NOT", NOT); ("LT", LT); ("GT", GT);
   ("SLT", SLT); ("SGT", SGT); ("EQ", EQ); ("ISZERO", ISZERO);
   ("SIGNEXTEND", SIGNEXTEND); ("AND", AND); ("OR", OR); ("XOR", XOR);
   ("BYTE", BYTE); ("SHL", SHL); ("SHR", SHR); ("SAR", SAR);
   ("ADDMOD", ADDMOD); ("MULMOD", MULMOD); ("SHA3", SHA3); ("ADDRESS", ADDRESS);
   ("BALANCE", BALANCE); ("ORIGIN", ORIGIN); ("CALLER", CALLER); ("CALLVALUE", CALLVALUE);
   ("CALLDATALOAD", CALLDATALOAD); ("CALLDATASIZE", CALLDATASIZE); ("CALLDATACOPY", CALLDATACOPY); ("DELEGATECALL", DELEGATECALL);
   ("STATICCALL", STATICCALL); ("CODESIZE", CODESIZE); ("CODECOPY", CODECOPY); ("GASPRICE", GASPRICE);
   ("EXTCODESIZE", EXTCODESIZE); ("EXTCODECOPY", EXTCODECOPY); ("RETURNDATASIZE", RETURNDATASIZE); ("RETURNDATACOPY", RETURNDATACOPY);
   ("EXTCODEHASH", EXTCODEHASH); ("BLOCKHASH", BLOCKHASH); ("COINBASE", COINBASE); ("TIMESTAMP", TIMESTAMP);
   ("NUMBER", NUMBER); ("DIFFICULTY", DIFFICULTY); ("GASLIMIT", GASLIMIT); ("POP", POP);
   ("MLOAD", MLOAD); ("MSTORE", MSTORE); ("MSTORE8", MSTORE8); ("SLOAD", SLOAD);
   ("SSTORE", SSTORE); ("JUMP", JUMP); ("JUMPI", JUMPI); ("PC", PC);
   ("MSIZE", MSIZE); ("GAS", GAS); ("JUMPDEST", JUMPDEST); ("PUSH1", PUSH1);
   ("PUSH2", PUSH2); ("PUSH3", PUSH3); ("PUSH4", PUSH4); ("PUSH5", PUSH5);
   ("PUSH6", PUSH6); ("PUSH7", PUSH7); ("PUSH8", PUSH8); ("PUSH9", PUSH9);
   ("PUSH10", PUSH10); ("PUSH11", PUSH11); ("PUSH12", PUSH12); ("PUSH13", PUSH13);
   ("PUSH14", PUSH14); ("PUSH15", PUSH15); ("PUSH16", PUSH16); ("PUSH17", PUSH17);
   ("PUSH18", PUSH18); ("PUSH19", PUSH19); ("PUSH20", PUSH20); ("PUSH21", PUSH21);
   ("PUSH22", PUSH22); ("PUSH23", PUSH23); ("PUSH24", PUSH24); ("PUSH25", PUSH25);
   ("PUSH26", PUSH26); ("PUSH27", PUSH27); ("PUSH28", PUSH28); ("PUSH29", PUSH29);
   ("PUSH30", PUSH30); ("PUSH31", PUSH31); ("PUSH32", PUSH32); ("DUP1", DUP1);
   ("DUP2", DUP2); ("DUP3", DUP3); ("DUP4", DUP4); ("DUP5", DUP5);
   ("DUP6", DUP6); ("DUP7", DUP7); ("DUP8", DUP8); ("DUP9", DUP9);
   ("DUP10", DUP10); ("DUP11", DUP11); ("DUP12", DUP12); ("DUP13", DUP13);
   ("DUP14", DUP14); ("DUP15", DUP15); ("DUP16", DUP16); ("SWAP1", SWAP1);
   ("SWAP2", SWAP2); ("SWAP3", SWAP3); ("SWAP4", SWAP4); ("SWAP5", SWAP5);
   ("SWAP6", SWAP6); ("SWAP7", SWAP7); ("SWAP8", SWAP8); ("SWAP9", SWAP9);
   ("SWAP10", SWAP10); ("SWAP11", SWAP11); ("SWAP12", SWAP12); ("SWAP13", SWAP13);
   ("SWAP14", SWAP14); ("SWAP15", SWAP15); ("SWAP16", SWAP16); ("LOG0", LOG0);
   ("LOG1", LOG1); ("LOG2", LOG2); ("LOG3", LOG3); ("LOG4", LOG4);
   ("CREATE", CREATE); ("CREATE2", CREATE2); ("CALL", CALL); ("RETURN", RETURN);
   ("CALLCODE", CALLCODE); ("REVERT", REVERT); ("SELFDESTRUCT", SELFDESTRUCT)].

Definition StringToOp (str : string) : OpCode := default STOP (map_get str stringToOp).

(** The bytes with a mnemonic, apart from the opcodes that name no single
    instruction. *)
Definition named_op (op : OpCode) : bool :=
  match map_get op opCodeToString with
  | Some _ => negb (existsb (Z.eqb op) [PUSH; DUP; SWAP])
  | None => false
  end.

Definition bytes_all (P : Z -> bool) : bool := forallb (fun n => P (Z.of_nat n)) (seq 0 256).

Lemma bytes_all_spec P : bytes_all P = true -> forall op, 0 <= op < 256 -> P op = true.
Proof.
  unfold bytes_all. rewrite forallb_forall. intros H op Hop.
  rewrite <- (Z2Nat.id op) by lia. apply H, in_seq. lia.
Qed.

(** Names of opcodes: every byte that has a mnemonic, other than the three
    pseudo-opcodes, is found again from it; a byte without one prints as
    missing and is not found. *)
Theorem StringToOp_String op : 0 <= op < 256 ->
  StringToOp (OpCode_String op) = if named_op op then op else STOP.
Proof.
  intros Hop. apply Z.eqb_eq.
  apply (bytes_all_spec (fun op => StringToOp (OpCode_String op) =? if named_op op then op else STOP));
    [vm_compute; reflexivity|done].
Qed.

Lemma StringToOp_String_witness :
  StringToOp (OpCode_String SHA3) = if named_op SHA3 then SHA3 else STOP.
Proof. apply StringToOp_String. unfold SHA3. lia. Defined.
