(* ===== verification/VmBase.v ===== *)
(** * Data of the virtual machine

    [kernel/vm/errors.go], [common.go], [stack.go], [stack_table.go],
    [memory.go], [analysis.go] and [contract.go].  The stack is a list with the
    top first; integers are kept by value, so the [intPool], which only recycles
    allocations, has no counterpart.  Slicing out of range and failed
    type assertions are [Panic]. *)
From S2P Require Import Prelude CommonMath Params Opcodes.
From stdpp Require Import base numbers list gmap.
From Stdlib Require Import ZArith Lia.
#[local] Open Scope Z_scope.

(** ** Errors *)

Inductive vmerror : Type :=
| ErrOutOfGas
| ErrCodeStoreOutOfGas
| ErrDepth
| ErrTraceLimitReached
| ErrInsufficientBalance
| ErrContractAddressCollision
| ErrNoCompatibleInterpreter
| errWriteProtection
| errReturnDataOutOfBounds
| errExecutionReverted
| errMaxCodeSizeExceeded
| errGasUintOverflow
| errInvalidOpcode (op : Z)
| errStackUnderflow (len n : Z)
| errStackLimit (len : Z)
| errInvalidJump (nop pos : Z)
| errBadPairingInput
| errBadPoint.

#[global] Instance vmerror_eq_decision : EqDecision vmerror.
Proof. solve_decision. Defined.

(** ** Helpers of [common.go] *)

(** The slice expression [l[lo:hi]] within the length of [l]. *)
Definition slice {A} (l : list A) (lo hi : Z) : outcome (list A) :=
  if (0 <=? lo) && (lo <=? hi) && (hi <=? zlen l)
  then Ok (take (Z.to_nat (hi - lo)) (drop (Z.to_nat lo) l))
  else Panic.

Definition calcMemSize (off l : Z) : Z := if Sign l =? 0 then 0 else off + l.

Definition getData (data : list byte) (start size : Z) : outcome (list byte) :=
  let length := u64 (zlen data) in
  let start := if length <? start then length else start in
  let end_ := u64 (start + size) in
  let end_ := if length <? end_ then length else end_ in
  let! d := slice data start end_ in
  Ok (RightPadBytes d (s64 size)).

Definition getDataBig (data : list byte) (start size : Z) : outcome (list byte) :=
  let dlen := zlen data in
  let s := BigMin start dlen in
  let e := BigMin (s + size) dlen in
  let! d := slice data (big_Uint64 s) (big_Uint64 e) in
  Ok (RightPadBytes d (s64 (big_Uint64 size))).

Definition bigUint64 (v : Z) : Z * bool := (big_Uint64 v, 64 <? BitLen v).

Definition toWordSize (size : Z) : Z :=
  if MaxUint64 - 31 <? size then MaxUint64 / 32 + 1 else (size + 31) / 32.

Definition allZero (b : list byte) : bool := forallb (fun c => b2z c =? 0) b.

(** ** The stack ([stack.go], [stack_table.go]) *)

Abbreviation Stack := (list Z).
Definition newstack : Stack := [].
Definition st_push (d : Z) (st : Stack) : Stack := d :: st.
Definition st_pop (st : Stack) : outcome (Z * Stack) :=
  match st with
  | x :: st => Ok (x, st)
  | [] => Panic
  end.
Definition st_len (st : Stack) : Z := zlen st.

(** [st.data[st.len()-n-1]]. *)
Definition st_Back (st : Stack) (n : nat) : outcome Z :=
  match st !! n with
  | Some x => Ok x
  | None => Panic
  end.
Definition st_peek (st : Stack) : outcome Z := st_Back st 0.
Definition st_swap (n : nat) (st : Stack) : outcome Stack :=
  let! a := st_Back st (n - 1) in
  let! b := st_peek st in
  Ok (<[(n - 1)%nat := b]> (<[0%nat := a]> st)).
Definition st_dup (n : nat) (st : Stack) : outcome Stack :=
  let! a := st_Back st (n - 1) in
  Ok (st_push a st).
Definition st_require (st : Stack) (n : Z) : option vmerror :=
  if st_len st <? n then Some (errStackUnderflow (st_len st) n) else None.

Definition stackValidationFunc : Type := Stack -> option vmerror.
Definition makeStackFunc (pop push : Z) : stackValidationFunc := fun stack =>
  match st_require stack pop with
  | Some err => Some err
  | None =>
      if StackLimit <? st_len stack + push - pop then Some (errStackLimit (st_len stack)) else None
  end.
Definition makeDupStackFunc (n : Z) : stackValidationFunc := makeStackFunc n (n + 1).
Definition makeSwapStackFunc (n : Z) : stackValidationFunc := makeStackFunc n n.

(** ** Memory ([memory.go]) *)

Record Memory := mkMemory {
  store : list byte;
  lastGasCost : Z
}.

Definition NewMemory : Memory := {| store := []; lastGasCost := 0 |}.
Definition mem_Len (m : Memory) : Z := zlen (store m).

(** [copy(l[off:off+n], v)]. *)
Definition copy_at (l : list byte) (off n : nat) (v : list byte) : list byte :=
  let k := Nat.min n (length v) in
  take off l ++ take k v ++ drop (off + k) l.

Definition mem_Set (m : Memory) (offset size : Z) (value : list byte) : outcome Memory :=
  if 0 <? size then
    if mem_Len m <? u64 (offset + size) then Panic
    else if u64 (offset + size) <? offset then Panic
    else Ok {| store := copy_at (store m) (Z.to_nat offset) (Z.to_nat size) value;
               lastGasCost := lastGasCost m |}
  else Ok m.

Definition mem_Set32 (m : Memory) (offset val : Z) : outcome Memory :=
  if mem_Len m <? u64 (offset + 32) then Panic
  else if u64 (offset + 32) <? offset then Panic
  else Ok {| store := copy_at (store m) (Z.to_nat offset) 32 (ReadBits val (replicate 32 Byte.x00));
             lastGasCost := lastGasCost m |}.

Definition mem_Resize (m : Memory) (size : Z) : Memory :=
  if mem_Len m <? size
  then {| store := store m ++ replicate (Z.to_nat (size - mem_Len m)) Byte.x00; lastGasCost := lastGasCost m |}
  else m.

(** Offsets and sizes are [int64]; the slice is bounded by the length. *)
Definition mem_Get (m : Memory) (offset size : Z) : outcome (list byte) :=
  if size =? 0 then Ok []
  else if offset <? mem_Len m then
    if size <? 0 then Panic else slice (store m) offset (s64 (offset + size))
  else Ok [].

Definition mem_GetPtr (m : Memory) (offset size : Z) : outcome (list byte) :=
  if size =? 0 then Ok []
  else if offset <? mem_Len m then slice (store m) offset (s64 (offset + size))
  else Ok [].

(** ** Jump destination analysis ([analysis.go]) *)

Abbreviation bitvec := (list Z).

Definition bv_or (bits : bitvec) (i m : Z) : outcome bitvec :=
  match bits !! Z.to_nat i with
  | Some b => Ok (<[Z.to_nat i := Z.lor b m]> bits)
  | None => Panic
  end.
Definition bv_set (bits : bitvec) (pos : Z) : outcome bitvec :=
  bv_or bits (pos / 8) (Z.shiftr 0x80 (pos mod 8)).
Definition bv_set8 (bits : bitvec) (pos : Z) : outcome bitvec :=
  let! bits := bv_or bits (pos / 8) (Z.shiftr 0xFF (pos mod 8)) in
  bv_or bits (pos / 8 + 1) (255 - Z.shiftr 0xFF (pos mod 8)).
Definition codeSegment (bits : bitvec) (pos : Z) : outcome bool :=
  match bits !! Z.to_nat (pos / 8) with
  | Some b => Ok (Z.land b (Z.shiftr 0x80 (pos mod 8)) =? 0)
  | None => Panic
  end.

(** [for ; numbits >= 8; numbits -= 8]. *)
Fixpoint codeBitmap_set8 (fuel : nat) (bits : bitvec) (pc numbits : Z) : outcome (bitvec * Z * Z) :=
  if numbits <? 8 then Ok (bits, pc, numbits)
  else match fuel with
       | O => OutOfFuel
       | S fuel =>
           let! bits := bv_set8 bits pc in
           codeBitmap_set8 fuel bits (pc + 8) (numbits - 8)
       end.
(** [for ; numbits > 0; numbits--]. *)
Fixpoint codeBitmap_set (fuel : nat) (bits : bitvec) (pc numbits : Z) : outcome (bitvec * Z) :=
  if numbits <=? 0 then Ok (bits, pc)
  else match fuel with
       | O => OutOfFuel
       | S fuel =>
           let! bits := bv_set bits pc in
           codeBitmap_set fuel bits (pc + 1) (numbits - 1)
       end.
Fixpoint codeBitmap_loop (fuel : nat) (code : list byte) (bits : bitvec) (pc : Z) : outcome bitvec :=
  match code !! Z.to_nat pc with
  | None => Ok bits
  | Some c =>
      match fuel with
      | O => OutOfFuel
      | S fuel =>
          let op := b2z c in
          if (PUSH1 <=? op) && (op <=? PUSH32) then
            let numbits := op - PUSH1 + 1 in
            let! (bits, pc, numbits) := codeBitmap_set8 (Z.to_nat numbits) bits (pc + 1) numbits in
            let! (bits, pc) := codeBitmap_set (Z.to_nat numbits) bits pc numbits in
            codeBitmap_loop fuel code bits pc
          else codeBitmap_loop fuel code bits (pc + 1)
      end
  end.
Definition codeBitmap (code : list byte) : outcome bitvec :=
  codeBitmap_loop (length code) code (replicate (length code / 8 + 1 + 4) 0) 0.

(** ** Contracts ([contract.go]) *)

(** What a callee reads of its caller: an externally owned account, or the
    running contract with its own caller and value ([AsDelegate]). *)
Inductive ContractRef : Type :=
| AccountRef (a : Address)
| ContractAsRef (self CallerAddress : Address) (value : option Z).

Definition ref_Address (r : ContractRef) : Address :=
  match r with
  | AccountRef a => a
  | ContractAsRef self _ _ => self
  end.

(** The map [jumpdests] is shared by a whole call tree; it is a component of the
    machine state instead of a field here. *)
Record Contract := mkContract {
  CallerAddress : Address;
  caller : ContractRef;
  self : Address;
  analysis : option bitvec;
  Code : list byte;
  CodeHash : Hash;
  CodeAddr : option Address;
  Input : list byte;
  Gas : Z;
  value : option Z
}.

Definition set_Gas (c : Contract) (g : Z) : Contract :=
  {| CallerAddress := CallerAddress c; caller := caller c; self := self c; analysis := analysis c; Code := Code c;
     CodeHash := CodeHash c; CodeAddr := CodeAddr c; Input := Input c; Gas := g; value := value c |}.
Definition set_Input (c : Contract) (i : list byte) : Contract :=
  {| CallerAddress := CallerAddress c; caller := caller c; self := self c; analysis := analysis c; Code := Code c;
     CodeHash := CodeHash c; CodeAddr := CodeAddr c; Input := i; Gas := Gas c; value := value c |}.
Definition set_analysis (c : Contract) (a : option bitvec) : Contract :=
  {| CallerAddress := CallerAddress c; caller := caller c; self := self c; analysis := a; Code := Code c;
     CodeHash := CodeHash c; CodeAddr := CodeAddr c; Input := Input c; Gas := Gas c; value := value c |}.

Definition NewContract (caller : ContractRef) (object : Address) (value : option Z) (gas : Z) : Contract :=
  {| CallerAddress := ref_Address caller; caller := caller; self := object; analysis := None; Code := [];
     CodeHash := 0; CodeAddr := None; Input := []; Gas := gas; value := value |}.

Definition AsDelegate (c : Contract) : outcome Contract :=
  match caller c with
  | ContractAsRef _ parentCaller parentValue =>
      Ok {| CallerAddress := parentCaller; caller := caller c; self := self c; analysis := analysis c;
            Code := Code c; CodeHash := CodeHash c; CodeAddr := CodeAddr c; Input := Input c; Gas := Gas c;
            value := parentValue |}
  | AccountRef _ => Panic
  end.

Definition SetCallCode (c : Contract) (addr : option Address) (hash : Hash) (code : list byte) : Contract :=
  {| CallerAddress := CallerAddress c; caller := caller c; self := self c; analysis := analysis c; Code := code;
     CodeHash := hash; CodeAddr := addr; Input := Input c; Gas := Gas c; value := value c |}.

Definition GetByte (c : Contract) (n : Z) : byte :=
  if n <? zlen (Code c) then default Byte.x00 (Code c !! Z.to_nat n) else Byte.x00.
Definition GetOp (c : Contract) (n : Z) : OpCode := b2z (GetByte c n).

Definition UseGas (c : Contract) (gas : Z) : bool * Contract :=
  if Gas c <? gas then (false, c) else (true, set_Gas c (Gas c - gas)).

(** The map of analyses, the contract with its own analysis, and the verdict. *)
Definition validJumpdest (jumpdests : gmap Hash bitvec) (c : Contract) (dest : Z)
    : outcome (bool * gmap Hash bitvec * Contract) :=
  let udest := big_Uint64 dest in
  if (63 <=? BitLen dest) || (zlen (Code c) <=? udest) then Ok (false, jumpdests, c)
  else if negb (GetOp c udest =? JUMPDEST) then Ok (false, jumpdests, c)
  else if negb (CodeHash c =? 0) then
    match jumpdests !! CodeHash c with
    | Some bits => let! b := codeSegment bits udest in Ok (b, jumpdests, c)
    | None =>
        let! bits := codeBitmap (Code c) in
        let! b := codeSegment bits udest in
        Ok (b, <[CodeHash c := bits]> jumpdests, c)
    end
  else
    match analysis c with
    | Some bits => let! b := codeSegment bits udest in Ok (b, jumpdests, c)
    | None =>
        let! bits := codeBitmap (Code c) in
        let! b := codeSegment bits udest in
        Ok (b, jumpdests, set_analysis c (Some bits))
    end.
