(* ===== verification/VmAnalysis.v ===== *)
(** * Correctness of the jump destination analysis

    [codeBitmap] never indexes out of its bit vector and marks exactly the bytes
    that are push data: [codeSegment] answers whether a position is the start of
    an instruction, and [validJumpdest] whether it is the start of a [JUMPDEST]
    instruction, through either cache. *)
From S2P Require Import Prelude CommonMath Params Opcodes VmBase.
From stdpp Require Import base numbers list gmap.
From Stdlib Require Import ZArith Lia.
#[local] Open Scope Z_scope.
#[local] Ltac Zify.zify_post_hook ::= Z.to_euclidean_division_equations.

(** ** Instruction starts *)

(** Bytes of immediate data after an opcode. *)
Definition push_width (c : byte) : nat :=
  if (PUSH1 <=? b2z c) && (b2z c <=? PUSH32) then Z.to_nat (b2z c - PUSH1 + 1) else 0%nat.

(** One entry per byte of code: whether it starts an instruction; [skip] bytes
    of data are still to come. *)
Fixpoint starts (code : list byte) (skip : nat) : list bool :=
  match code with
  | [] => []
  | c :: code =>
      match skip with
      | O => true :: starts code (push_width c)
      | S skip => false :: starts code skip
      end
  end.

Definition instruction_start (code : list byte) (pos : Z) : bool :=
  default false (starts code 0 !! Z.to_nat pos).

Lemma length_starts code skip : length (starts code skip) = length code.
Proof. revert skip. induction code as [|c code IH]; intros [|skip]; cbn; auto. Qed.

Lemma starts_skip code skip :
  starts code skip = replicate (Nat.min skip (length code)) false ++ starts (drop skip code) 0.
Proof.
  revert skip. induction code as [|c code IH]; intros [|skip]; cbn; [done..|]. by rewrite IH.
Qed.

(** ** Bits of a bit vector *)

Definition bit_at (bits : bitvec) (i : Z) : bool :=
  match bits !! Z.to_nat (i / 8) with
  | Some b => Z.testbit b (7 - i mod 8)
  | None => false
  end.

Lemma eight_cases k : 0 <= k < 8 -> k = 0 \/ k = 1 \/ k = 2 \/ k = 3 \/ k = 4 \/ k = 5 \/ k = 6 \/ k = 7.
Proof. lia. Qed.

Ltac eight k := let H := fresh in
  assert (H : 0 <= k < 8) by lia; apply eight_cases in H;
  destruct H as [->|[->|[->|[->|[->|[->|[->| ->]]]]]]].

Lemma testbit_set k r : 0 <= k < 8 -> 0 <= r < 8 -> Z.testbit (Z.shiftr 0x80 k) (7 - r) = (r =? k).
Proof. intros. eight k; eight r; reflexivity. Qed.

Lemma testbit_set8_lo k r : 0 <= k < 8 -> 0 <= r < 8 -> Z.testbit (Z.shiftr 0xFF k) (7 - r) = (k <=? r).
Proof. intros. eight k; eight r; reflexivity. Qed.

Lemma testbit_set8_hi k r : 0 <= k < 8 -> 0 <= r < 8 -> Z.testbit (255 - Z.shiftr 0xFF k) (7 - r) = (r <? k).
Proof. intros. eight k; eight r; reflexivity. Qed.

Lemma bv_or_ok bits i m : 0 <= i < zlen bits ->
  exists bits', bv_or bits i m = Ok bits' /\ length bits' = length bits /\
    forall j, 0 <= j -> bit_at bits' j = bit_at bits j || ((j / 8 =? i) && Z.testbit m (7 - j mod 8)).
Proof.
  intros Hi. unfold bv_or, zlen in *. destruct (lookup_lt_is_Some_2 bits (Z.to_nat i)) as [b Hb]; [lia|].
  rewrite Hb. eexists. split; [done|]. split; [apply length_insert|]. intros j Hj. unfold bit_at.
  destruct (Z.eqb_spec (j / 8) i) as [<-|Hne]; cbn [andb].
  - rewrite list_lookup_insert_eq, Hb by (apply lookup_lt_is_Some_1; eauto). apply Z.lor_spec.
  - rewrite list_lookup_insert_ne by lia. by rewrite orb_false_r.
Qed.

Lemma bv_set_ok bits pos : 0 <= pos -> pos / 8 < zlen bits ->
  exists bits', bv_set bits pos = Ok bits' /\ length bits' = length bits /\
    forall j, 0 <= j -> bit_at bits' j = bit_at bits j || (j =? pos).
Proof.
  intros Hp Hl. destruct (bv_or_ok bits (pos / 8) (Z.shiftr 0x80 (pos mod 8))) as (bits' & E & Hlen & Hb); [lia|].
  exists bits'. split; [done|]. split; [done|]. intros j Hj. rewrite Hb by done. f_equal.
  rewrite testbit_set by lia. apply eq_bool_prop_intro. rewrite andb_True, !Is_true_true, !Z.eqb_eq. lia.
Qed.

Lemma bv_set8_ok bits pos : 0 <= pos -> pos / 8 + 1 < zlen bits ->
  exists bits', bv_set8 bits pos = Ok bits' /\ length bits' = length bits /\
    forall j, 0 <= j -> bit_at bits' j = bit_at bits j || ((pos <=? j) && (j <? pos + 8)).
Proof.
  intros Hp Hl. unfold bv_set8.
  destruct (bv_or_ok bits (pos / 8) (Z.shiftr 0xFF (pos mod 8))) as (b1 & -> & L1 & B1); [lia|]. cbn [obind].
  destruct (bv_or_ok b1 (pos / 8 + 1) (255 - Z.shiftr 0xFF (pos mod 8))) as (b2 & -> & L2 & B2); [unfold zlen in *; lia|].
  exists b2. split; [done|]. split; [congruence|]. intros j Hj. rewrite B2, B1 by done. rewrite <- orb_assoc. f_equal.
  rewrite testbit_set8_lo, testbit_set8_hi by lia. apply eq_bool_prop_intro.
  rewrite orb_True, !andb_True, !Is_true_true, !Z.eqb_eq, !Z.leb_le, !Z.ltb_lt. lia.
Qed.

Lemma codeSegment_bit bits pos : 0 <= pos -> pos / 8 < zlen bits -> codeSegment bits pos = Ok (negb (bit_at bits pos)).
Proof.
  intros Hp Hl. unfold codeSegment, bit_at. destruct (lookup_lt_is_Some_2 bits (Z.to_nat (pos / 8))) as [b Hb].
  { unfold zlen in Hl. lia. }
  rewrite Hb. f_equal. assert (Z.shiftr 0x80 (pos mod 8) = 2 ^ (7 - pos mod 8)) as ->.
  { pose proof (Z.mod_pos_bound pos 8 eq_refl). eight (pos mod 8); reflexivity. }
  pose proof (Z.mod_pos_bound pos 8 eq_refl) as Hm.
  apply eq_bool_prop_intro. rewrite Is_true_true, Z.eqb_eq, negb_True.
  split.
  - intros H E. apply Is_true_true in E. assert (Z.testbit (Z.land b (2 ^ (7 - pos mod 8))) (7 - pos mod 8) = true) as H'.
    { rewrite Z.land_spec, E, Z.pow2_bits_true by lia. done. }
    by rewrite H, Z.bits_0 in H'.
  - intros E. apply Z.bits_inj'. intros n Hn. rewrite Z.land_spec, Z.bits_0, Z.pow2_bits_eqb by lia.
    destruct (Z.eqb_spec (7 - pos mod 8) n) as [<-|]; [|by rewrite andb_false_r].
    destruct (Z.testbit b _); [by destruct E|done].
Qed.

(** ** The inner loops *)

Lemma codeBitmap_set8_ok fuel bits pc n :
  0 <= pc -> 0 <= n <= Z.of_nat fuel -> (pc + n - 8) / 8 + 1 < zlen bits ->
  exists bits', codeBitmap_set8 fuel bits pc n = Ok (bits', pc + 8 * (n / 8), n mod 8) /\
    length bits' = length bits /\
    forall j, 0 <= j -> bit_at bits' j = bit_at bits j || ((pc <=? j) && (j <? pc + 8 * (n / 8))).
Proof.
  revert bits pc n. induction fuel as [|fuel IH]; intros bits pc n Hp Hn Hl; cbn [codeBitmap_set8];
    destruct (Z.ltb_spec n 8) as [Hlt|Hge]; try lia.
  1, 2: exists bits; rewrite Z.div_small, Z.mod_small, Z.mul_0_r, Z.add_0_r by lia;
    (split; [done|]); split; [done|]; intros j Hj; zdestruct; try lia;
    by rewrite ?andb_false_r, ?orb_false_r.
  destruct (bv_set8_ok bits pc) as (b1 & -> & L1 & B1); [lia..|]. cbn [obind].
  destruct (IH b1 (pc + 8) (n - 8)) as (b2 & -> & L2 & B2); [lia..|unfold zlen in *; rewrite L1; lia|].
  exists b2. assert (n / 8 = (n - 8) / 8 + 1) as -> by lia. assert ((n - 8) mod 8 = n mod 8) as -> by lia.
  split; [by replace (pc + 8 + 8 * ((n - 8) / 8)) with (pc + 8 * ((n - 8) / 8 + 1)) by lia|].
  split; [congruence|]. intros j Hj. rewrite B2, B1 by done.
  rewrite <- orb_assoc. f_equal. apply eq_bool_prop_intro.
  rewrite orb_True, !andb_True, !Is_true_true, !Z.leb_le, !Z.ltb_lt. lia.
Qed.

Lemma codeBitmap_set_ok fuel bits pc n :
  0 <= pc -> 0 <= n <= Z.of_nat fuel -> (pc + n - 1) / 8 < zlen bits ->
  exists bits', codeBitmap_set fuel bits pc n = Ok (bits', pc + n) /\ length bits' = length bits /\
    forall j, 0 <= j -> bit_at bits' j = bit_at bits j || ((pc <=? j) && (j <? pc + n)).
Proof.
  revert bits pc n. induction fuel as [|fuel IH]; intros bits pc n Hp Hn Hl; cbn [codeBitmap_set];
    destruct (Z.leb_spec n 0) as [Hlt|Hge]; try lia.
  1, 2: exists bits; assert (n = 0) as -> by lia; rewrite Z.add_0_r; (split; [done|]); split; [done|]; intros j Hj; zdestruct; try lia;
    by rewrite ?andb_false_r, ?orb_false_r.
  destruct (bv_set_ok bits pc) as (b1 & -> & L1 & B1); [lia..|]. cbn [obind].
  destruct (IH b1 (pc + 1) (n - 1)) as (b2 & -> & L2 & B2); [lia..|unfold zlen in *; rewrite L1; lia|].
  exists b2. split; [by replace (pc + 1 + (n - 1)) with (pc + n) by lia|]. split; [congruence|]. intros j Hj. rewrite B2, B1 by done.
  rewrite <- orb_assoc. f_equal. apply eq_bool_prop_intro.
  rewrite orb_True, !andb_True, !Is_true_true, !Z.leb_le, !Z.ltb_lt, Z.eqb_eq. lia.
Qed.

(** ** The scan *)

(** [pc] is where an instruction starts, or past the end. *)
Definition at_start (code : list byte) (pc : nat) : Prop :=
  drop pc (starts code 0) = starts (drop pc code) 0.

Lemma at_start_next code pc c : at_start code pc -> code !! pc = Some c ->
  at_start code (pc + 1 + push_width c) /\
  starts code 0 !! pc = Some true /\
  forall k, (pc < k <= pc + push_width c)%nat -> (k < length code)%nat -> starts code 0 !! k = Some false.
Proof.
  unfold at_start. intros Ha Hc. rewrite (drop_S _ _ _ Hc) in Ha. cbn [starts] in Ha.
  rewrite (starts_skip (drop (S pc) code)), drop_drop, length_drop in Ha.
  assert (forall k, starts code 0 !! (pc + k)%nat = (true :: replicate (Nat.min (push_width c) (length code - S pc)) false ++
     starts (drop (S pc + push_width c) code) 0) !! k) as Hk.
  { intros k. by rewrite <- Ha, lookup_drop. }
  split; [|split].
  - replace (pc + 1 + push_width c)%nat with (S pc + push_width c)%nat by lia.
    destruct (decide (S pc + push_width c <= length code)%nat).
    + replace (drop (S pc + push_width c) (starts code 0)) with (drop (S (push_width c)) (drop pc (starts code 0)))
        by (rewrite drop_drop; f_equal; lia).
      rewrite Ha. cbn [drop]. rewrite Nat.min_l by lia.
      by rewrite drop_app_ge, length_replicate, Nat.sub_diag by (rewrite length_replicate; lia).
    + rewrite (drop_ge code), (drop_ge (starts code 0)) by (rewrite ?length_starts; lia). done.
  - pose proof (Hk 0%nat) as H0. by rewrite Nat.add_0_r in H0.
  - intros k Hk1 Hk2. replace k with (pc + (k - pc))%nat by lia. rewrite Hk.
    destruct (k - pc)%nat as [|k'] eqn:E; [lia|]. rewrite lookup_cons.
    rewrite lookup_app_l by (rewrite length_replicate; lia). apply lookup_replicate. split; [done|lia].
Qed.

Lemma push_width_range c : (push_width c <= 32)%nat.
Proof. unfold push_width, PUSH1, PUSH32. zdestruct; cbn; lia. Qed.

(** One round of the scan marks exactly the data of the instruction. *)
Lemma codeBitmap_loop_step fuel code bits pc c :
  0 <= pc -> code !! Z.to_nat pc = Some c -> length bits = (length code / 8 + 5)%nat ->
  exists bits', codeBitmap_loop (S fuel) code bits pc = codeBitmap_loop fuel code bits' (pc + 1 + Z.of_nat (push_width c)) /\
    length bits' = length bits /\
    forall j, 0 <= j -> bit_at bits' j = bit_at bits j || ((pc <? j) && (j <=? pc + Z.of_nat (push_width c))).
Proof.
  intros Hpc Hc Hl. cbn [codeBitmap_loop]. rewrite Hc. unfold push_width.
  assert (pc < zlen code) as Hlt. { apply lookup_lt_Some in Hc. unfold zlen. lia. }
  destruct ((PUSH1 <=? b2z c) && (b2z c <=? PUSH32)) eqn:Epush.
  - apply andb_true_iff in Epush as [H1 H2]. apply Z.leb_le in H1, H2. unfold PUSH1, PUSH32 in *.
    set (n := b2z c - 0x60 + 1). assert (1 <= n <= 32) as Hn by (unfold n; lia).
    assert (zlen bits = zlen code / 8 + 5) as Hlb by (unfold zlen; rewrite Hl, Nat2Z.inj_add, Nat2Z.inj_div; lia).
    destruct (codeBitmap_set8_ok (Z.to_nat n) bits (pc + 1) n) as (b1 & -> & L1 & B1); [lia..|]. cbn [obind].
    destruct (codeBitmap_set_ok (Z.to_nat (n mod 8)) b1 (pc + 1 + 8 * (n / 8)) (n mod 8)) as (b2 & -> & L2 & B2);
      [lia..|unfold zlen in *; rewrite L1; lia|].
    cbn [obind]. exists b2. replace (pc + 1 + 8 * (n / 8) + n mod 8) with (pc + 1 + Z.of_nat (Z.to_nat n)) by lia.
    split; [done|]. split; [congruence|]. intros j Hj. rewrite B2, B1 by done. rewrite <- orb_assoc. f_equal.
    apply eq_bool_prop_intro. rewrite orb_True, !andb_True, !Is_true_true, !Z.leb_le, !Z.ltb_lt. lia.
  - exists bits. rewrite Z.add_0_r. split; [done|]. split; [done|]. intros j Hj.
    zdestruct; try lia; by rewrite ?andb_false_r, ?orb_false_r.
Qed.

Lemma codeBitmap_loop_ok fuel code bits pc :
  0 <= pc -> zlen code - pc <= Z.of_nat fuel -> at_start code (Z.to_nat pc) ->
  length bits = (length code / 8 + 5)%nat ->
  (forall j, 0 <= j < zlen code -> bit_at bits j = (j <? pc) && negb (instruction_start code j)) ->
  exists bits', codeBitmap_loop fuel code bits pc = Ok bits' /\ length bits' = length bits /\
    forall j, 0 <= j < zlen code -> bit_at bits' j = negb (instruction_start code j).
Proof.
  revert bits pc. induction fuel as [|fuel IH]; intros bits pc Hpc Hf Ha Hl Hb;
    (destruct (code !! Z.to_nat pc) as [c|] eqn:Ec;
     [apply lookup_lt_Some in Ec as Hlt|apply lookup_ge_None in Ec as Hlt]); unfold zlen in *; try lia.
  1, 3: exists bits; split; [cbn; by rewrite Ec|]; split; [done|]; intros j Hj; rewrite Hb by done;
    destruct (Z.ltb_spec j pc); [done|lia].
  destruct (codeBitmap_loop_step fuel code bits pc c Hpc Ec Hl) as (b1 & -> & L1 & B1).
  destruct (at_start_next _ _ _ Ha Ec) as (Ha' & Ht & Hfl).
  destruct (IH b1 (pc + 1 + Z.of_nat (push_width c))) as (b2 & -> & L2 & B2); [lia..| |lia| |].
  - by replace (Z.to_nat (pc + 1 + Z.of_nat (push_width c))) with (Z.to_nat pc + 1 + push_width c)%nat by lia.
  - intros j Hj. rewrite B1, Hb by lia. unfold instruction_start.
    destruct (Z.eqb_spec j pc) as [->|Hne].
    { rewrite Ht. cbn. rewrite !andb_false_r, Z.ltb_irrefl. done. }
    destruct (decide (pc < j <= pc + Z.of_nat (push_width c))).
    + rewrite (Hfl (Z.to_nat j)) by lia. cbn [default negb]. zdestruct; try lia; done.
    + zdestruct; try lia; by rewrite ?orb_false_r.
  - exists b2. split; [done|]. split; [congruence|]. done.
Qed.

Lemma bit_at_zeros n i : bit_at (replicate n 0) i = false.
Proof.
  unfold bit_at. destruct (replicate n 0 !! _) as [b|] eqn:E; [|done].
  apply lookup_replicate in E as [-> _]. apply Z.bits_0.
Qed.

Lemma codeBitmap_ok code :
  exists bits, codeBitmap code = Ok bits /\ length bits = (length code / 8 + 5)%nat /\
    forall j, 0 <= j < zlen code -> codeSegment bits j = Ok (instruction_start code j).
Proof.
  unfold codeBitmap.
  destruct (codeBitmap_loop_ok (length code) code (replicate (length code / 8 + 1 + 4) 0) 0) as (bits & E & Hl & Hb).
  - done.
  - unfold zlen. lia.
  - done.
  - rewrite length_replicate. lia.
  - intros j Hj. rewrite bit_at_zeros. destruct (Z.ltb_spec j 0); [lia|done].
  - rewrite length_replicate in Hl. exists bits. split; [done|]. split; [lia|]. intros j Hj.
    rewrite codeSegment_bit, Hb, negb_involutive;
      [done|done|lia|unfold zlen in *; rewrite Hl, !Nat2Z.inj_add, Nat2Z.inj_div; lia].
Qed.

(** The analysis of a piece of code, as a total function. *)
Definition bitmap_of (code : list byte) : bitvec :=
  match codeBitmap code with
  | Ok bits => bits
  | _ => []
  end.

Lemma codeBitmap_bitmap_of code : codeBitmap code = Ok (bitmap_of code).
Proof. unfold bitmap_of. destruct (codeBitmap_ok code) as (bits & -> & _). done. Qed.

Lemma codeSegment_bitmap_of code j : 0 <= j < zlen code ->
  codeSegment (bitmap_of code) j = Ok (instruction_start code j).
Proof.
  intros Hj. unfold bitmap_of. destruct (codeBitmap_ok code) as (bits & -> & _ & H). by apply H.
Qed.

(** ** Jump destinations *)

(** The contract's analyses are those of its own code. *)
Record cached (jumpdests : gmap Hash bitvec) (c : Contract) : Prop := {
  cached_map : CodeHash c <> 0 -> forall bits, jumpdests !! CodeHash c = Some bits -> bits = bitmap_of (Code c);
  cached_own : forall bits, analysis c = Some bits -> bits = bitmap_of (Code c)
}.

Definition jumpdest_at (code : list byte) (dest : Z) : bool :=
  (dest <? zlen code) && (default 0 (b2z <$> code !! Z.to_nat dest) =? JUMPDEST) && instruction_start code dest.

Lemma validJumpdest_ok jd c dest : 0 <= dest -> zlen (Code c) < 2 ^ 62 -> cached jd c ->
  exists jd' c', validJumpdest jd c dest = Ok (jumpdest_at (Code c) dest, jd', c') /\ cached jd' c' /\
    (c' = c \/ c' = set_analysis c (Some (bitmap_of (Code c)))) /\
    (jd' = jd \/ CodeHash c <> 0 /\ jd' = <[CodeHash c := bitmap_of (Code c)]> jd).
Proof.
  intros Hd Hlen Hc. pose proof Hc as [Hm Ho]. unfold validJumpdest, jumpdest_at, big_Uint64, GetOp, GetByte.
  rewrite Z.abs_eq by done.
  destruct (Z.leb_spec 63 (BitLen dest)) as [Hb|Hb]; cbn [orb].
  { assert (2 ^ 62 <= dest).
    { destruct (decide (Z.abs dest < 2 ^ 62)) as [H|H]; [|lia]. apply BitLen_le in H; lia. }
    exists jd, c. destruct (Z.ltb_spec dest (zlen (Code c))); [lia|]. cbn. split; [done|]. split; [exact Hc|auto]. }
  assert (dest < 2 ^ 63) as Hd63. { pose proof (proj2 (BitLen_le dest 63 ltac:(lia)) ltac:(lia)). lia. }
  rewrite u64_small by (unfold is_u64, MaxUint64; lia).
  destruct (Z.leb_spec (zlen (Code c)) dest) as [Hl|Hl].
  { exists jd, c. destruct (Z.ltb_spec dest (zlen (Code c))); [lia|]. cbn. split; [done|]. split; [exact Hc|auto]. }
  destruct (Z.ltb_spec dest (zlen (Code c))); [|lia]. cbn [andb].
  destruct (lookup_lt_is_Some_2 (Code c) (Z.to_nat dest)) as [op Hop]; [unfold zlen in *; lia|].
  rewrite Hop. change (default Byte.x00 (Some op)) with op. change (default 0 (b2z <$> Some op)) with (b2z op).
  destruct (Z.eqb_spec (b2z op) JUMPDEST) as [Ej|Ej]; cbn [negb andb].
  2: { exists jd, c. split; [done|]. split; [exact Hc|auto]. }
  pose proof (codeSegment_bitmap_of (Code c) dest ltac:(lia)) as Hs.
  destruct (Z.eqb_spec (CodeHash c) 0) as [E0|E0]; cbn [negb].
  - destruct (analysis c) as [bits|] eqn:Ea.
    + rewrite (Ho bits eq_refl), Hs. exists jd, c. split; [done|]. split; [exact Hc|auto].
    + rewrite codeBitmap_bitmap_of. cbn [obind]. rewrite Hs. eexists _, _. split; [done|]. split; [|auto].
      split; cbn; [congruence|]. by intros bits [= <-].
  - destruct (jd !! CodeHash c) as [bits|] eqn:Em.
    + rewrite (Hm E0 bits eq_refl), Hs. exists jd, c. split; [done|]. split; [exact Hc|auto].
    + rewrite codeBitmap_bitmap_of. cbn [obind]. rewrite Hs. eexists _, _. split; [done|]. split; [|auto].
      split; [|done]. intros _ bits. rewrite lookup_insert_eq. by intros [= <-].
Qed.

(** Without the assumption on the map of other contracts' analyses. *)
Lemma validJumpdest_cases jd c dest : 0 <= dest -> zlen (Code c) < 2 ^ 62 ->
  (forall bits, analysis c = Some bits -> bits = bitmap_of (Code c)) ->
  (exists b jd' c', validJumpdest jd c dest = Ok (b, jd', c') /\ (b = true -> dest < zlen (Code c)) /\
    (c' = c \/ c' = set_analysis c (Some (bitmap_of (Code c)))) /\
    (jd' = jd \/ CodeHash c <> 0 /\ jd' = <[CodeHash c := bitmap_of (Code c)]> jd)) \/
  (validJumpdest jd c dest = Panic /\
    exists bits, (CodeHash c <> 0 /\ jd !! CodeHash c = Some bits) /\ bits <> bitmap_of (Code c)).
Proof.
  intros Hd Hlen Ho.
  assert (cached jd c \/ exists bits, CodeHash c <> 0 /\ jd !! CodeHash c = Some bits /\ bits <> bitmap_of (Code c))
    as [Hc|(bits & H0 & Hb & Hne)].
  { destruct (decide (CodeHash c = 0)) as [H0|H0]; [by left; split|].
    destruct (jd !! CodeHash c) as [bits|] eqn:E; [|left; split; [by rewrite E|done]].
    destruct (decide (bits = bitmap_of (Code c))) as [->|]; [left; split; [rewrite E; by intros _ ? [= <-]|done]|].
    right. by exists bits. }
  - left. destruct (validJumpdest_ok jd c dest Hd Hlen Hc) as (jd' & c' & E & _ & H1 & H2).
    exists (jumpdest_at (Code c) dest), jd', c'. split; [done|]. split; [|done].
    unfold jumpdest_at. rewrite !andb_true_iff, Z.ltb_lt. tauto.
  - unfold validJumpdest, big_Uint64. rewrite Z.abs_eq by done. destruct (Z.leb_spec 63 (BitLen dest)) as [H63|H63]; cbn [orb].
    { left. exists false, jd, c. split_and!; by auto. }
    assert (dest < 2 ^ 63) by (pose proof (proj2 (BitLen_le dest 63 ltac:(lia)) ltac:(lia)); lia).
    rewrite u64_small by (unfold is_u64, MaxUint64; lia).
    destruct (Z.leb_spec (zlen (Code c)) dest); [left; exists false, jd, c; split_and!; by auto|].
    destruct (negb (GetOp c dest =? JUMPDEST)); [left; exists false, jd, c; split_and!; by auto|].
    destruct (Z.eqb_spec (CodeHash c) 0); [done|]. cbn [negb]. rewrite Hb.
    unfold codeSegment. destruct (bits !! _); cbn [obind]; [left|right; eauto].
    eexists _, jd, c. split; [reflexivity|]. auto.
Qed.

(** The jump destination bitmap: for every code the analysis finishes inside
    its bit vector, and a position of the code is a code segment exactly when an
    instruction starts there (it is not push data). *)
Theorem codeBitmap_correct code :
  exists bits, codeBitmap code = Ok bits /\
    forall pos, 0 <= pos < zlen code -> codeSegment bits pos = Ok (instruction_start code pos).
Proof. destruct (codeBitmap_ok code) as (bits & E & _ & H). by exists bits. Qed.

(** Whatever the caches already hold for this code, [validJumpdest] never
    panics, accepts exactly the starts of [JUMPDEST] instructions, and leaves the
    caches consistent with the code. *)
Theorem validJumpdest_correct jumpdests c dest :
  0 <= dest -> zlen (Code c) < 2 ^ 62 -> cached jumpdests c ->
  exists jumpdests' c', validJumpdest jumpdests c dest = Ok (jumpdest_at (Code c) dest, jumpdests', c') /\
    cached jumpdests' c'.
Proof.
  intros Hd Hl Hc. destruct (validJumpdest_ok jumpdests c dest Hd Hl Hc) as (jd' & c' & E & Hc' & _). by exists jd', c'.
Qed.

(** In [PUSH1 0x5b JUMPDEST] the byte at 1 is data and the one at 2 a destination. *)
Lemma validJumpdest_correct_witness :
  exists jumpdests' c',
    validJumpdest ∅ (SetCallCode (NewContract (AccountRef 1) 2 (Some 0) 0) None 7 (map z2b [0x60; 0x5b; 0x5b])) 2 =
      Ok (jumpdest_at (map z2b [0x60; 0x5b; 0x5b]) 2, jumpdests', c') /\ cached jumpdests' c'.
Proof.
  apply (validJumpdest_correct ∅ (SetCallCode (NewContract (AccountRef 1) 2 (Some 0) 0) None 7 (map z2b [0x60; 0x5b; 0x5b])) 2);
    [lia|vm_compute; reflexivity|]. split; cbn; [|done]. intros _ bits. by rewrite lookup_empty.
Defined.
