(* ===== verification/VmInterface.v ===== *)
(** * What the virtual machine is given

    [kernel/vm/interface.go] (the [StateDB] a machine runs on, as a type class),
    the [Context], configuration and [EVM] of [evm.go] and [interpreter.go], the
    cryptographic primitives the machine calls, and [kernel/evm.go] and
    [lib/crypto/crypto.go] as far as they are used by the machine.  The monad
    [M] threads the state of one interpreter frame. *)
From S2P Require Import Prelude CommonMath Params RlpEncode Opcodes VmBase.
From stdpp Require Import base numbers list gmap.
From Stdlib Require Import ZArith Lia.
#[local] Open Scope Z_scope.

(** ** Logs ([kernel/types/log.go]) *)

Record Log := mkLog {
  log_Address : Address;
  log_Topics : list Hash;
  log_Data : list byte;
  log_BlockNumber : Z;
  log_TxHash : Hash;
  log_TxIndex : Z;
  log_BlockHash : Hash;
  log_Index : Z;
  log_Removed : bool
}.

(** ** The world state seen by the machine *)

(** Reads do not change what later reads answer, so they are functions of the
    state; [SubRefund] and [RevertToSnapshot] can panic. *)
Class StateDB (S : Type) := {
  CreateAccount : S -> Address -> S;
  SubBalance : S -> Address -> Z -> S;
  AddBalance : S -> Address -> Z -> S;
  GetBalance : S -> Address -> Z;
  GetNonce : S -> Address -> Z;
  SetNonce : S -> Address -> Z -> S;
  GetCodeHash : S -> Address -> Hash;
  GetCode : S -> Address -> list byte;
  SetCode : S -> Address -> list byte -> S;
  GetCodeSize : S -> Address -> Z;
  AddRefund : S -> Z -> S;
  SubRefund : S -> Z -> outcome S;
  GetRefund : S -> Z;
  GetCommittedState : S -> Address -> Hash -> Hash;
  GetState : S -> Address -> Hash -> Hash;
  SetState : S -> Address -> Hash -> Hash -> S;
  Suicide : S -> Address -> S;
  HasSuicided : S -> Address -> bool;
  Exist : S -> Address -> bool;
  EmptyAccount : S -> Address -> bool;
  RevertToSnapshot : S -> Z -> outcome S;
  Snapshot : S -> Z * S;
  AddLog : S -> Log -> S;
  AddPreimage : S -> Hash -> list byte -> S
}.

(** ** Cryptographic primitives *)

Record Crypto := mkCrypto {
  keccak256 : list byte -> list byte;
  sha256 : list byte -> list byte;
  ripemd160 : list byte -> list byte;
  secp256k1_recover : list byte -> list byte -> option (list byte);
  G1 : Type;
  G2 : Type;
  G1_Unmarshal : list byte -> option G1;
  G2_Unmarshal : list byte -> option G2;
  G1_Add : G1 -> G1 -> G1;
  G1_ScalarMult : G1 -> Z -> G1;
  G1_Marshal : G1 -> list byte;
  PairingCheck : list G1 -> list G2 -> bool
}.

Section crypto.
Context (cr : Crypto).

(** [lib/crypto/crypto.go]. *)
Definition Keccak256Hash (data : list byte) : Hash := be2z (keccak256 cr data).

Definition CreateAddress (b : Address) (nonce : Z) : Address :=
  let data := match EncodeToBytes (VList [VBytes (Address_Bytes b); VUint nonce]) with
              | Good data => data
              | Err _ => []
              end in
  BytesToAddress (drop 12 (keccak256 cr data)).

Definition CreateAddress2 (b : Address) (salt : Hash) (inithash : list byte) : Address :=
  BytesToAddress (drop 12 (keccak256 cr ([z2b 0xff] ++ Address_Bytes b ++ Hash_Bytes salt ++ inithash))).

End crypto.

Definition secp256k1N : Z := 0xfffffffffffffffffffffffffffffffebaaedce6af48a03bbfd25e8cd0364141.
Definition secp256k1halfN : Z := secp256k1N / 2.

Definition ValidateSignatureValues (v r s : Z) (homestead : bool) : bool :=
  if (r <? 1) || (s <? 1) then false
  else if homestead && (secp256k1halfN <? s) then false
  else (r <? secp256k1N) && (s <? secp256k1N) && ((v =? 0) || (v =? 1)).

(** ** Environment of a run *)

(** [Context], the chain configuration and the options of [Config] (without
    tracing).  [abort n] is what the [n]-th atomic read of the abort flag
    answers; another goroutine may set it at any time. *)
Record Env (S : Type) := mkEnv {
  CanTransfer : S -> Address -> Z -> bool;
  Transfer : S -> Address -> Address -> Z -> S;
  GetHash : Z -> Hash;
  Origin : Address;
  GasPrice : Z;
  Coinbase : Address;
  GasLimit : Z;
  BlockNumber : Z;
  Time : Z;
  Difficulty : Z;
  chainConfig : ChainConfig;
  NoRecursion : bool;
  EnablePreimageRecording : bool;
  abort : nat -> bool;
  crypto : Crypto
}.
Arguments CanTransfer {S} _.
Arguments Transfer {S} _.
Arguments GetHash {S} _.
Arguments Origin {S} _.
Arguments GasPrice {S} _.
Arguments Coinbase {S} _.
Arguments GasLimit {S} _.
Arguments BlockNumber {S} _.
Arguments Time {S} _.
Arguments Difficulty {S} _.
Arguments chainConfig {S} _.
Arguments NoRecursion {S} _.
Arguments EnablePreimageRecording {S} _.
Arguments abort {S} _.
Arguments crypto {S} _.

Definition chainRules {S} (env : Env S) : Rules := ChainConfig_Rules (chainConfig env) (BlockNumber env).

(** [kernel/evm.go]. *)
Definition kernel_CanTransfer {S} `{StateDB S} (db : S) (addr : Address) (amount : Z) : bool :=
  amount <=? GetBalance db addr.
Definition kernel_Transfer {S} `{StateDB S} (db : S) (sender recipient : Address) (amount : Z) : S :=
  AddBalance (SubBalance db sender amount) recipient amount.

(** ** The machine *)

(** The mutable fields of [EVM] and of its one [EVMInterpreter], with the map of
    jump destination analyses of the current call tree and the number of reads
    of the abort flag so far. *)
Record EVM (S : Type) := mkEVM {
  statedb : S;
  depth : Z;
  callGasTemp : Z;
  readOnly : bool;
  returnData : list byte;
  jumpdests : gmap Hash bitvec;
  ticks : nat
}.
Arguments mkEVM {S}.
Arguments statedb {S} _.
Arguments depth {S} _.
Arguments callGasTemp {S} _.
Arguments readOnly {S} _.
Arguments returnData {S} _.
Arguments jumpdests {S} _.
Arguments ticks {S} _.

Definition fresh_evm {S} (s : S) : EVM S := mkEVM s 0 0 false [] ∅ 0.
Definition NewEVM {S} (env : Env S) (s : S) : outcome (EVM S) :=
  if IsEWASM (chainConfig env) (BlockNumber env) then Panic else Ok (fresh_evm s).

Section setters.
Context {S : Type}.
Implicit Types e : EVM S.
Definition set_statedb e s : EVM S :=
  mkEVM s (depth e) (callGasTemp e) (readOnly e) (returnData e) (jumpdests e) (ticks e).
Definition set_depth e d : EVM S :=
  mkEVM (statedb e) d (callGasTemp e) (readOnly e) (returnData e) (jumpdests e) (ticks e).
Definition set_callGasTemp e g : EVM S :=
  mkEVM (statedb e) (depth e) g (readOnly e) (returnData e) (jumpdests e) (ticks e).
Definition set_readOnly e r : EVM S :=
  mkEVM (statedb e) (depth e) (callGasTemp e) r (returnData e) (jumpdests e) (ticks e).
Definition set_returnData e d : EVM S :=
  mkEVM (statedb e) (depth e) (callGasTemp e) (readOnly e) d (jumpdests e) (ticks e).
Definition set_jumpdests e j : EVM S :=
  mkEVM (statedb e) (depth e) (callGasTemp e) (readOnly e) (returnData e) j (ticks e).
Definition tick e : EVM S :=
  mkEVM (statedb e) (depth e) (callGasTemp e) (readOnly e) (returnData e) (jumpdests e) (1 + ticks e).
End setters.

(** One interpreter frame: the locals of [Run]. *)
Record machine (S : Type) := mkMachine {
  pc : Z;
  evm : EVM S;
  contract : Contract;
  memory : Memory;
  stack : Stack
}.
Arguments mkMachine {S}.
Arguments pc {S} _.
Arguments evm {S} _.
Arguments contract {S} _.
Arguments memory {S} _.
Arguments stack {S} _.

(** ** The monad of instruction bodies *)

Definition M (S A : Type) : Type := machine S -> outcome (A * machine S).

Section monad.
Context {S : Type}.

Definition vret {A} (a : A) : M S A := fun m => Ok (a, m).
Definition vbind {A B} (c : M S A) (k : A -> M S B) : M S B := fun m =>
  match c m with
  | Ok (a, m) => k a m
  | Panic => Panic
  | OutOfFuel => OutOfFuel
  end.
(** A computation that does not change the frame. *)
Definition lift {A} (c : outcome A) : M S A := fun m =>
  match c with
  | Ok a => Ok (a, m)
  | Panic => Panic
  | OutOfFuel => OutOfFuel
  end.
Definition gets {A} (f : machine S -> A) : M S A := fun m => Ok (f m, m).

Definition put_pc (p : Z) : M S unit := fun m => Ok (tt, mkMachine p (evm m) (contract m) (memory m) (stack m)).
Definition put_evm (e : EVM S) : M S unit := fun m => Ok (tt, mkMachine (pc m) e (contract m) (memory m) (stack m)).
Definition put_contract (c : Contract) : M S unit := fun m => Ok (tt, mkMachine (pc m) (evm m) c (memory m) (stack m)).
Definition put_memory (mem : Memory) : M S unit := fun m => Ok (tt, mkMachine (pc m) (evm m) (contract m) mem (stack m)).
Definition put_stack (st : Stack) : M S unit := fun m => Ok (tt, mkMachine (pc m) (evm m) (contract m) (memory m) st).
Definition put_statedb (s : S) : M S unit := fun m =>
  Ok (tt, mkMachine (pc m) (set_statedb (evm m) s) (contract m) (memory m) (stack m)).

Definition push (x : Z) : M S unit := fun m => put_stack (st_push x (stack m)) m.
Definition pop : M S Z := fun m =>
  match st_pop (stack m) with
  | Ok (x, st) => Ok (x, mkMachine (pc m) (evm m) (contract m) (memory m) st)
  | Panic => Panic
  | OutOfFuel => OutOfFuel
  end.
Definition peek : M S Z := fun m => lift (st_peek (stack m)) m.
Definition Back (n : nat) : M S Z := fun m => lift (st_Back (stack m) n) m.
(** Assignment through the pointer that [peek] returned. *)
Definition set_top (x : Z) : M S unit := fun m =>
  match stack m with
  | _ :: st => put_stack (x :: st) m
  | [] => Panic
  end.
End monad.

Notation "'do!' x := c 'in' k" := (vbind c (fun x => k))
  (at level 10, x pattern, c at level 200, k at level 200) : go_scope.
Notation "'seq!' c 'in' k" := (vbind c (fun _ => k))
  (at level 10, c at level 200, k at level 200) : go_scope.

(** [return res, err] of an instruction. *)
Definition opresult : Type := list byte * option vmerror.
Definition executionFunc (S : Type) : Type := M S opresult.
(** [return nil, nil]. *)
Definition nil_nil {S} : executionFunc S := vret ([], None).

(** A gas function reads the table and the size the memory is about to have. *)
Definition gasFunc (S : Type) : Type := GasTable -> Z -> M S (result vmerror Z).
