(* ===== verification/Precompiles.v ===== *)
(** * Precompiled contracts ([kernel/vm/contracts.go])

    The hash functions, the recovery of a secp256k1 key and the bn256 group are
    parameters; everything around them (input layout, padding, gas, error
    cases) is modelled. *)
From S2P Require Import Prelude CommonMath Params Opcodes VmBase VmInterface.
From stdpp Require Import base numbers list gmap.
From Stdlib Require Import ZArith Lia Zpow_facts.
#[local] Open Scope Z_scope.

Inductive PrecompiledContract : Type :=
| ecrecover
| sha256hash
| ripemd160hash
| dataCopy
| bigModExp
| bn256Add
| bn256ScalarMul
| bn256Pairing.

Definition PrecompiledContractsHomestead : list (Address * PrecompiledContract) :=
  [(BytesToAddress [z2b 1], ecrecover);
   (BytesToAddress [z2b 2], sha256hash);
   (BytesToAddress [z2b 3], ripemd160hash);
   (BytesToAddress [z2b 4], dataCopy)].

Definition PrecompiledContractsByzantium : list (Address * PrecompiledContract) :=
  [(BytesToAddress [z2b 1], ecrecover);
   (BytesToAddress [z2b 2], sha256hash);
   (BytesToAddress [z2b 3], ripemd160hash);
   (BytesToAddress [z2b 4], dataCopy);
   (BytesToAddress [z2b 5], bigModExp);
   (BytesToAddress [z2b 6], bn256Add);
   (BytesToAddress [z2b 7], bn256ScalarMul);
   (BytesToAddress [z2b 8], bn256Pairing)].

Section precompiles.
Context (cr : Crypto).

(** ** Signature recovery *)

Definition ecRecoverInputLength : Z := 128.

(** The hash, the signature with [v] appended, when the values are acceptable. *)
Definition ecrecover_args (input : list byte) : outcome (option (list byte * list byte)) :=
  let input := RightPadBytes input ecRecoverInputLength in
  let! rb := slice input 64 96 in
  let! sb := slice input 96 128 in
  let! vb := slice input 63 64 in
  let! pad := slice input 32 63 in
  let! hash := slice input 0 32 in
  let! sig := slice input 64 128 in
  let v := (be2z vb - 27) mod 256 in
  if negb (allZero pad) || negb (ValidateSignatureValues v (be2z rb) (be2z sb) false)
  then Ok None
  else Ok (Some (hash, sig ++ [z2b v])).

Definition ecrecover_Run (input : list byte) : outcome (result vmerror (list byte)) :=
  let! args := ecrecover_args input in
  match args with
  | None => Ok (Good [])
  | Some (hash, sig) =>
      match secp256k1_recover cr hash sig with
      | None => Ok (Good [])
      | Some pubKey =>
          let! pk := slice pubKey 1 (zlen pubKey) in
          let! h := slice (keccak256 cr pk) 12 (zlen (keccak256 cr pk)) in
          Ok (Good (LeftPadBytes h 32))
      end
  end.

(** The caller's input slice afterwards: padding copies an input shorter than
    128 bytes, but a longer one is used in place, and [append(input[64:128], v)]
    then writes [v] to its byte 128. *)
Definition ecrecover_input_after (input : list byte) : outcome (list byte) :=
  let! args := ecrecover_args input in
  match args with
  | Some (_, sig) =>
      if ecRecoverInputLength <? zlen input
      then Ok (<[128%nat := default Byte.x00 (sig !! 64%nat)]> input)
      else Ok input
  | None => Ok input
  end.

(** ** Modular exponentiation *)

Definition modexp_tail (input : list byte) : list byte :=
  if 96 <? zlen input then drop 96 input else [].

Definition modexp_expHead (input : list byte) (baseLen expLen : Z) : outcome Z :=
  if zlen input <=? baseLen then Ok 0
  else if 32 <? expLen then
    let! d := getData input (big_Uint64 baseLen) 32 in Ok (be2z d)
  else
    let! d := getData input (big_Uint64 baseLen) (big_Uint64 expLen) in Ok (be2z d).

(** Multiplication complexity of numbers of [x] bytes. *)
Definition modexp_complexity (x : Z) : Z :=
  if x <=? 64 then x * x
  else if x <=? 1024 then x * x / 4 + (96 * x - 3072)
  else x * x / 16 + (480 * x - 199680).

Definition bigModExp_RequiredGas (input : list byte) : outcome Z :=
  let! b := getData input 0 32 in
  let! e := getData input 32 32 in
  let! m := getData input 64 32 in
  let baseLen := be2z b in
  let expLen := be2z e in
  let modLen := be2z m in
  let! expHead := modexp_expHead (modexp_tail input) baseLen expLen in
  let msb := if 0 <? BitLen expHead then BitLen expHead - 1 else 0 in
  let adjExpLen := (if 32 <? expLen then 8 * (expLen - 32) else 0) + msb in
  let gas := modexp_complexity (BigMax modLen baseLen) in
  let gas := gas * BigMax adjExpLen 1 in
  let gas := gas / ModExpQuadCoeffDiv in
  Ok (if 64 <? BitLen gas then MaxUint64 else big_Uint64 gas).

Definition bigModExp_Run (input : list byte) : outcome (result vmerror (list byte)) :=
  let! b := getData input 0 32 in
  let! e := getData input 32 32 in
  let! m := getData input 64 32 in
  let baseLen := big_Uint64 (be2z b) in
  let expLen := big_Uint64 (be2z e) in
  let modLen := big_Uint64 (be2z m) in
  let input := modexp_tail input in
  if (baseLen =? 0) && (modLen =? 0) then Ok (Good [])
  else
    let! bb := getData input 0 baseLen in
    let! eb := getData input baseLen expLen in
    let! mb := getData input (u64 (baseLen + expLen)) modLen in
    let base := be2z bb in
    let exp := be2z eb in
    let mod_ := be2z mb in
    if BitLen mod_ =? 0 then Ok (Good (LeftPadBytes [] (s64 modLen)))
    else Ok (Good (LeftPadBytes (big_Bytes (Zpow_mod base exp mod_)) (s64 modLen))).

(** ** The bn256 curve *)

Definition newCurvePoint (blob : list byte) : result vmerror (G1 cr) :=
  match G1_Unmarshal cr blob with
  | Some p => Good p
  | None => Err errBadPoint
  end.
Definition newTwistPoint (blob : list byte) : result vmerror (G2 cr) :=
  match G2_Unmarshal cr blob with
  | Some p => Good p
  | None => Err errBadPoint
  end.

Definition bn256Add_Run (input : list byte) : outcome (result vmerror (list byte)) :=
  let! xb := getData input 0 64 in
  let! yb := getData input 64 64 in
  Ok (try! x := newCurvePoint xb in
      try! y := newCurvePoint yb in
      Good (G1_Marshal cr (G1_Add cr x y))).

Definition bn256ScalarMul_Run (input : list byte) : outcome (result vmerror (list byte)) :=
  let! pb := getData input 0 64 in
  let! sb := getData input 64 32 in
  Ok (try! p := newCurvePoint pb in
      Good (G1_Marshal cr (G1_ScalarMult cr p (be2z sb)))).

Definition true32Byte : list byte := replicate 31 Byte.x00 ++ [z2b 1].
Definition false32Byte : list byte := replicate 32 Byte.x00.

(** [for i := 0; i < len(input); i += 192] on the input from [i] on. *)
Fixpoint bn256Pairing_points (fuel : nat) (input : list byte) (cs : list (G1 cr)) (ts : list (G2 cr))
    : outcome (result vmerror (list (G1 cr) * list (G2 cr))) :=
  match input with
  | [] => Ok (Good (cs, ts))
  | _ =>
      match fuel with
      | O => OutOfFuel
      | S fuel =>
          let! cb := slice input 0 64 in
          let! tb := slice input 64 192 in
          match newCurvePoint cb with
          | Err e => Ok (Err e)
          | Good c =>
              match newTwistPoint tb with
              | Err e => Ok (Err e)
              | Good t => bn256Pairing_points fuel (drop 192 input) (cs ++ [c]) (ts ++ [t])
              end
          end
      end
  end.

Definition bn256Pairing_Run (input : list byte) : outcome (result vmerror (list byte)) :=
  if 0 <? zlen input mod 192 then Ok (Err errBadPairingInput)
  else
    let! pts := bn256Pairing_points (length input) input [] [] in
    Ok (try! (cs, ts) := pts in
        Good (if PairingCheck cr cs ts then true32Byte else false32Byte)).

(** ** Dispatch *)

(** Gas of the three contracts that charge per word of input. *)
Definition perWordGas (input : list byte) (perWord base : Z) : Z :=
  u64 (u64 (zlen input + 31) / 32 * perWord + base).

Definition RequiredGas (p : PrecompiledContract) (input : list byte) : outcome Z :=
  match p with
  | ecrecover => Ok EcrecoverGas
  | sha256hash => Ok (perWordGas input Sha256PerWordGas Sha256BaseGas)
  | ripemd160hash => Ok (perWordGas input Ripemd160PerWordGas Ripemd160BaseGas)
  | dataCopy => Ok (perWordGas input IdentityPerWordGas IdentityBaseGas)
  | bigModExp => bigModExp_RequiredGas input
  | bn256Add => Ok Bn256AddGas
  | bn256ScalarMul => Ok Bn256ScalarMulGas
  | bn256Pairing => Ok (u64 (Bn256PairingBaseGas + zlen input / 192 * Bn256PairingPerPointGas))
  end.

Definition precompile_Run (p : PrecompiledContract) (input : list byte) : outcome (result vmerror (list byte)) :=
  match p with
  | ecrecover => ecrecover_Run input
  | sha256hash => Ok (Good (sha256 cr input))
  | ripemd160hash => Ok (Good (LeftPadBytes (ripemd160 cr input) 32))
  | dataCopy => Ok (Good input)
  | bigModExp => bigModExp_Run input
  | bn256Add => bn256Add_Run input
  | bn256ScalarMul => bn256ScalarMul_Run input
  | bn256Pairing => bn256Pairing_Run input
  end.

Definition RunPrecompiledContract (p : PrecompiledContract) (input : list byte) (contract : Contract)
    : outcome (opresult * Contract) :=
  let! gas := RequiredGas p input in
  let (ok, contract) := UseGas contract gas in
  if ok then
    let! res := precompile_Run p input in
    match res with
    | Good ret => Ok ((ret, None), contract)
    | Err e => Ok (([], Some e), contract)
    end
  else Ok (([], Some ErrOutOfGas), contract).

End precompiles.
