(* ===== verification/GasTable.v ===== *)
(** * Gas costs ([kernel/vm/gas.go], [gas_table.go], [memory_table.go])

    A gas function returns the cost or an error; it may move the refund counter
    of the world state, remember the gas of a call in [callGasTemp] and update
    [lastGasCost] of the memory. *)
From S2P Require Import Prelude CommonMath Params Opcodes VmBase VmInterface.
From stdpp Require Import base numbers list gmap.
From Stdlib Require Import ZArith Lia.
#[local] Open Scope Z_scope.

(** ** [gas.go] *)

Definition GasQuickStep : Z := 2.
Definition GasFastestStep : Z := 3.
Definition GasFastStep : Z := 5.
Definition GasMidStep : Z := 8.
Definition GasSlowStep : Z := 10.
Definition GasExtStep : Z := 20.
Definition GasReturn : Z := 0.
Definition GasStop : Z := 0.
Definition GasContractByte : Z := 200.

Definition callGas (gasTable : GasTable) (availableGas base callCost : Z) : result vmerror Z :=
  let fixed :=
    if 64 <? BitLen callCost then Err errGasUintOverflow else Good (big_Uint64 callCost) in
  if 0 <? gt_CreateBySuicide gasTable then
    let availableGas := u64 (availableGas - base) in
    let gas := u64 (availableGas - availableGas / 64) in
    if (64 <? BitLen callCost) || (gas <? big_Uint64 callCost) then Good gas else fixed
  else fixed.

(** ** [memory_table.go] *)

Definition memorySizeFunc : Type := Stack -> outcome Z.

Definition memoryAt (off len : nat) : memorySizeFunc := fun stack =>
  let! o := st_Back stack off in
  let! l := st_Back stack len in
  Ok (calcMemSize o l).
Definition memoryFixed (off : nat) (len : Z) : memorySizeFunc := fun stack =>
  let! o := st_Back stack off in
  Ok (calcMemSize o len).

Definition memorySha3 : memorySizeFunc := memoryAt 0 1.
Definition memoryCallDataCopy : memorySizeFunc := memoryAt 0 2.
Definition memoryReturnDataCopy : memorySizeFunc := memoryAt 0 2.
Definition memoryCodeCopy : memorySizeFunc := memoryAt 0 2.
Definition memoryExtCodeCopy : memorySizeFunc := memoryAt 1 3.
Definition memoryMLoad : memorySizeFunc := memoryFixed 0 32.
Definition memoryMStore8 : memorySizeFunc := memoryFixed 0 1.
Definition memoryMStore : memorySizeFunc := memoryFixed 0 32.
Definition memoryCreate : memorySizeFunc := memoryAt 1 2.
Definition memoryCreate2 : memorySizeFunc := memoryAt 1 2.
Definition memoryCall : memorySizeFunc := fun stack =>
  let! x := memoryAt 5 6 stack in
  let! y := memoryAt 3 4 stack in
  Ok (BigMax x y).
Definition memoryDelegateCall : memorySizeFunc := fun stack =>
  let! x := memoryAt 4 5 stack in
  let! y := memoryAt 2 3 stack in
  Ok (BigMax x y).
Definition memoryStaticCall : memorySizeFunc := fun stack =>
  let! x := memoryAt 4 5 stack in
  let! y := memoryAt 2 3 stack in
  Ok (BigMax x y).
Definition memoryReturn : memorySizeFunc := memoryAt 0 1.
Definition memoryRevert : memorySizeFunc := memoryAt 0 1.
Definition memoryLog : memorySizeFunc := memoryAt 0 1.

(** ** [gas_table.go] *)

(** The idiom [if x, overflow = ...; overflow { return 0, errGasUintOverflow }]. *)
Definition checked (r : Z * bool) : result vmerror Z :=
  if snd r then Err errGasUintOverflow else Good (fst r).

(** The fee of a memory of [newMemSize] bytes and the memory with the fee noted. *)
Definition memoryGasCost (mem : Memory) (newMemSize : Z) : result vmerror (Z * Memory) :=
  if newMemSize =? 0 then Good (0, mem)
  else if 0xffffffffe0 <? newMemSize then Err errGasUintOverflow
  else
    let newMemSizeWords := toWordSize newMemSize in
    let newMemSize := u64 (newMemSizeWords * 32) in
    if mem_Len mem <? newMemSize then
      let square := u64 (newMemSizeWords * newMemSizeWords) in
      let linCoef := u64 (newMemSizeWords * MemoryGas) in
      let quadCoef := square / QuadCoeffDiv in
      let newTotalFee := u64 (linCoef + quadCoef) in
      let fee := u64 (newTotalFee - lastGasCost mem) in
      Good (fee, {| store := store mem; lastGasCost := newTotalFee |})
    else Good (0, mem).

Notation "'gas!' x := c 'in' k" :=
  (vbind c (fun r => match r with Good x => k | Err e => vret (Err e) end))
  (at level 10, x name, c at level 200, k at level 200) : go_scope.

Section gas.
Context {S : Type} `{StateDB S} (env : Env S).

Definition memory_fee (newMemSize : Z) : M S (result vmerror Z) := fun m =>
  match memoryGasCost (memory m) newMemSize with
  | Good (fee, mem) => Ok (Good fee, mkMachine (pc m) (evm m) (contract m) mem (stack m))
  | Err e => Ok (Err e, m)
  end.

Definition constGasFunc (gas : Z) : gasFunc S := fun _ _ => vret (Good gas).

(** Memory, a fixed part and [perWord] for each word of stack item [n]; the
    common body of the copying instructions. *)
Definition gasCopy (fixed perWord : Z) (n : nat) : M S (result vmerror Z) -> M S (result vmerror Z) := fun fee =>
  gas! gas := fee in
  gas! gas := vret (checked (SafeAdd gas fixed)) in
  do! w := Back n in
  gas! words := vret (checked (bigUint64 w)) in
  gas! words := vret (checked (SafeMul (toWordSize words) perWord)) in
  vret (checked (SafeAdd gas words)).

Definition gasCallDataCopy : gasFunc S := fun gt memorySize => gasCopy GasFastestStep CopyGas 2 (memory_fee memorySize).
Definition gasReturnDataCopy : gasFunc S := fun gt memorySize => gasCopy GasFastestStep CopyGas 2 (memory_fee memorySize).
Definition gasCodeCopy : gasFunc S := fun gt memorySize => gasCopy GasFastestStep CopyGas 2 (memory_fee memorySize).
Definition gasExtCodeCopy : gasFunc S := fun gt memorySize => gasCopy (gt_ExtcodeCopy gt) CopyGas 3 (memory_fee memorySize).
Definition gasSha3 : gasFunc S := fun gt memorySize => gasCopy Sha3Gas Sha3WordGas 1 (memory_fee memorySize).
Definition gasCreate2 : gasFunc S := fun gt memorySize => gasCopy Create2Gas Sha3WordGas 2 (memory_fee memorySize).

Definition add_refund (gas : Z) : M S unit := fun m => put_statedb (AddRefund (statedb (evm m)) gas) m.
Definition sub_refund (gas : Z) : M S unit := fun m =>
  match SubRefund (statedb (evm m)) gas with
  | Ok s => put_statedb s m
  | Panic => Panic
  | OutOfFuel => OutOfFuel
  end.

(** The net gas metering of Constantinople. *)
Definition gasSStore_net (current original value : Hash) : M S (result vmerror Z) :=
  if current =? value then vret (Good NetSstoreNoopGas)
  else if original =? current then
    if original =? 0 then vret (Good NetSstoreInitGas)
    else
      seq! (if value =? 0 then add_refund NetSstoreClearRefund else vret tt) in
      vret (Good NetSstoreCleanGas)
  else
    seq! (if negb (original =? 0) then
            if current =? 0 then sub_refund NetSstoreClearRefund
            else if value =? 0 then add_refund NetSstoreClearRefund else vret tt
          else vret tt) in
    seq! (if original =? value then
            if original =? 0 then add_refund NetSstoreResetClearRefund else add_refund NetSstoreResetRefund
          else vret tt) in
    vret (Good NetSstoreDirtyGas).

Definition gasSStore : gasFunc S := fun gt memorySize =>
  do! y := Back 1 in
  do! x := Back 0 in
  do! s := gets (fun m => statedb (evm m)) in
  do! addr := gets (fun m => self (contract m)) in
  let current := GetState s addr (BigToHash x) in
  if negb (rules_IsConstantinople (chainRules env)) then
    if (current =? 0) && negb (Sign y =? 0) then vret (Good SstoreSetGas)
    else if negb (current =? 0) && (Sign y =? 0) then
      seq! add_refund SstoreRefundGas in
      vret (Good SstoreClearGas)
    else vret (Good SstoreResetGas)
  else gasSStore_net current (GetCommittedState s addr (BigToHash x)) (BigToHash y).

Definition makeGasLog (n : Z) : gasFunc S := fun gt memorySize =>
  do! sz := Back 1 in
  gas! requestedSize := vret (checked (bigUint64 sz)) in
  gas! gas := memory_fee memorySize in
  gas! gas := vret (checked (SafeAdd gas LogGas)) in
  gas! gas := vret (checked (SafeAdd gas (u64 (n * LogTopicGas)))) in
  gas! memorySizeGas := vret (checked (SafeMul requestedSize LogDataGas)) in
  vret (checked (SafeAdd gas memorySizeGas)).

Definition gasExtCodeHash : gasFunc S := fun gt _ => vret (Good (gt_ExtcodeHash gt)).

(** Memory and a fixed part; [MLOAD] and its kin report an overflow of the
    memory fee as the same error. *)
Definition gasFixed (fixed memorySize : Z) : M S (result vmerror Z) :=
  gas! gas := memory_fee memorySize in
  vret (checked (SafeAdd gas fixed)).

Definition gasMLoad : gasFunc S := fun gt memorySize => gasFixed GasFastestStep memorySize.
Definition gasMStore8 : gasFunc S := fun gt memorySize => gasFixed GasFastestStep memorySize.
Definition gasMStore : gasFunc S := fun gt memorySize => gasFixed GasFastestStep memorySize.
Definition gasCreate : gasFunc S := fun gt memorySize => gasFixed CreateGas memorySize.

Definition gasBalance : gasFunc S := fun gt _ => vret (Good (gt_Balance gt)).
Definition gasExtCodeSize : gasFunc S := fun gt _ => vret (Good (gt_ExtcodeSize gt)).
Definition gasSLoad : gasFunc S := fun gt _ => vret (Good (gt_SLoad gt)).

Definition gasExp : gasFunc S := fun gt _ =>
  do! e := Back 1 in
  let expByteLen := u64 ((BitLen e + 7) / 8) in
  vret (checked (SafeAdd (u64 (expByteLen * gt_ExpByte gt)) GasSlowStep)).

(** The gas forwarded by a call on top of its own cost [gas]. *)
Definition forward (gt : GasTable) (gas : Z) : M S (result vmerror Z) :=
  do! callCost := Back 0 in
  do! available := gets (fun m => Gas (contract m)) in
  do! e := gets evm in
  match callGas gt available gas callCost with
  | Good temp =>
      seq! put_evm (set_callGasTemp e temp) in
      vret (checked (SafeAdd gas temp))
  | Err err =>
      seq! put_evm (set_callGasTemp e 0) in
      vret (Err err)
  end.

Definition gasCall : gasFunc S := fun gt memorySize =>
  do! value := Back 2 in
  do! to := Back 1 in
  do! s := gets (fun m => statedb (evm m)) in
  let transfersValue := negb (Sign value =? 0) in
  let address := BigToAddress to in
  let eip158 := IsEIP158 (chainConfig env) (BlockNumber env) in
  let gas := gt_Calls gt in
  let gas :=
    if eip158 then
      if transfersValue && EmptyAccount s address then u64 (gas + CallNewAccountGas) else gas
    else if negb (Exist s address) then u64 (gas + CallNewAccountGas) else gas in
  let gas := if transfersValue then u64 (gas + CallValueTransferGas) else gas in
  gas! memoryGas := memory_fee memorySize in
  gas! gas := vret (checked (SafeAdd gas memoryGas)) in
  forward gt gas.

Definition gasCallCode : gasFunc S := fun gt memorySize =>
  do! value := Back 2 in
  let gas := gt_Calls gt in
  let gas := if negb (Sign value =? 0) then u64 (gas + CallValueTransferGas) else gas in
  gas! memoryGas := memory_fee memorySize in
  gas! gas := vret (checked (SafeAdd gas memoryGas)) in
  forward gt gas.

Definition gasDelegateCall : gasFunc S := fun gt memorySize =>
  gas! gas := memory_fee memorySize in
  gas! gas := vret (checked (SafeAdd gas (gt_Calls gt))) in
  forward gt gas.

Definition gasStaticCall : gasFunc S := fun gt memorySize =>
  gas! gas := memory_fee memorySize in
  gas! gas := vret (checked (SafeAdd gas (gt_Calls gt))) in
  forward gt gas.

Definition gasReturn : gasFunc S := fun gt memorySize => memory_fee memorySize.
Definition gasRevert : gasFunc S := fun gt memorySize => memory_fee memorySize.

Definition gasSuicide : gasFunc S := fun gt _ =>
  do! s := gets (fun m => statedb (evm m)) in
  do! addr := gets (fun m => self (contract m)) in
  do! gas :=
    (if IsEIP150 (chainConfig env) (BlockNumber env) then
       do! to := Back 0 in
       let address := BigToAddress to in
       vret (if IsEIP158 (chainConfig env) (BlockNumber env) then
               if EmptyAccount s address && negb (Sign (GetBalance s addr) =? 0)
               then u64 (gt_Suicide gt + gt_CreateBySuicide gt) else gt_Suicide gt
             else if negb (Exist s address) then u64 (gt_Suicide gt + gt_CreateBySuicide gt) else gt_Suicide gt)
     else vret 0) in
  seq! (if negb (HasSuicided s addr) then add_refund SuicideRefundGas else vret tt) in
  vret (Good gas).

Definition gasPush : gasFunc S := fun _ _ => vret (Good GasFastestStep).
Definition gasSwap : gasFunc S := fun _ _ => vret (Good GasFastestStep).
Definition gasDup : gasFunc S := fun _ _ => vret (Good GasFastestStep).

End gas.
