(* ===== verification/Evm.v ===== *)
(** * Message calls and contract creation ([kernel/vm/evm.go])

    The five entry points of the machine.  They are parameterised by
    [interpreter_Run], the interpreter's [Run]; [Interpreter.v] ties the knot. *)
From S2P Require Import Prelude CommonMath Params Opcodes VmBase VmInterface Precompiles.
From stdpp Require Import base numbers list gmap.
From Stdlib Require Import ZArith Lia.
#[local] Open Scope Z_scope.

(** Result bytes, error, machine and contract after a run of the interpreter. *)
Definition RunFunc (S : Type) : Type :=
  EVM S -> Contract -> list byte -> bool -> outcome (opresult * EVM S * Contract).

(** Result bytes, left over gas, error. *)
Definition callresult : Type := list byte * Z * option vmerror.
(** Result bytes, address, left over gas, error. *)
Definition createresult : Type := list byte * Address * Z * option vmerror.

(** [EVMInterpreter.CanRun]. *)
Definition CanRun (code : list byte) : bool := true.

Record codeAndHash := mkCodeAndHash {
  cah_code : list byte;
  cah_hash : Hash
}.

Section evm.
Context {S : Type} `{StateDB S} (env : Env S).
Context (interpreter_Run : RunFunc S).

Definition precompiles : list (Address * PrecompiledContract) :=
  if IsByzantium (chainConfig env) (BlockNumber env)
  then PrecompiledContractsByzantium else PrecompiledContractsHomestead.

Definition precompile_at (addr : Address) : option PrecompiledContract := map_get addr precompiles.

Definition run (e : EVM S) (contract : Contract) (input : list byte) (readOnly : bool)
    : outcome (opresult * EVM S * Contract) :=
  match CodeAddr contract ≫= precompile_at with
  | Some p =>
      let! (res, contract) := RunPrecompiledContract (crypto env) p input contract in
      Ok (res, e, contract)
  | None =>
      if CanRun (Code contract) then interpreter_Run e contract input readOnly
      else Ok (([], Some ErrNoCompatibleInterpreter), e, contract)
  end.

(** A contract called from outside the machine starts a new map of analyses. *)
Definition inherit_jumpdests (caller : ContractRef) (e : EVM S) : EVM S :=
  match caller with
  | AccountRef _ => set_jumpdests e ∅
  | ContractAsRef _ _ _ => e
  end.

(** Revert to the snapshot and, unless the code asked for it, consume the gas. *)
Definition unwind (snapshot : Z) (err : vmerror) (e : EVM S) (contract : Contract) : outcome (EVM S * Contract) :=
  let! s := RevertToSnapshot (statedb e) snapshot in
  let contract := if decide (err = errExecutionReverted) then contract else snd (UseGas contract (Gas contract)) in
  Ok (set_statedb e s, contract).

(** The end of the four kinds of call. *)
Definition finish_call (snapshot : Z) (r : opresult * EVM S * Contract) : outcome (callresult * EVM S) :=
  let '((ret, err), e, contract) := r in
  match err with
  | Some x =>
      let! (e, contract) := unwind snapshot x e contract in
      Ok ((ret, Gas contract, Some x), e)
  | None => Ok ((ret, Gas contract, None), e)
  end.

(** The contract that runs the code of [addr]. *)
Definition with_code_of (s : S) (addr : Address) (c : Contract) : Contract :=
  SetCallCode c (Some addr) (GetCodeHash s addr) (GetCode s addr).

Definition Call (e : EVM S) (caller : ContractRef) (addr : Address) (input : list byte) (gas value : Z)
    : outcome (callresult * EVM S) :=
  if NoRecursion env && (0 <? depth e) then Ok (([], gas, None), e)
  else if CallCreateDepth <? depth e then Ok (([], gas, Some ErrDepth), e)
  else if negb (CanTransfer env (statedb e) (ref_Address caller) value)
  then Ok (([], gas, Some ErrInsufficientBalance), e)
  else
    let (snapshot, s) := Snapshot (statedb e) in
    let missing := negb (Exist s addr) in
    if missing && bool_decide (precompile_at addr = None) &&
       IsEIP158 (chainConfig env) (BlockNumber env) && (Sign value =? 0)
    then Ok (([], gas, None), set_statedb e s)
    else
      let s := if missing then CreateAccount s addr else s in
      let s := Transfer env s (ref_Address caller) addr value in
      let contract := with_code_of s addr (NewContract caller addr (Some value) gas) in
      let! r := run (inherit_jumpdests caller (set_statedb e s)) contract input false in
      finish_call snapshot r.

Definition CallCode (e : EVM S) (caller : ContractRef) (addr : Address) (input : list byte) (gas value : Z)
    : outcome (callresult * EVM S) :=
  if NoRecursion env && (0 <? depth e) then Ok (([], gas, None), e)
  else if CallCreateDepth <? depth e then Ok (([], gas, Some ErrDepth), e)
  else if negb (CanTransfer env (statedb e) (ref_Address caller) value)
  then Ok (([], gas, Some ErrInsufficientBalance), e)
  else
    let (snapshot, s) := Snapshot (statedb e) in
    let contract := with_code_of s addr (NewContract caller (ref_Address caller) (Some value) gas) in
    let! r := run (inherit_jumpdests caller (set_statedb e s)) contract input false in
    finish_call snapshot r.

Definition DelegateCall (e : EVM S) (caller : ContractRef) (addr : Address) (input : list byte) (gas : Z)
    : outcome (callresult * EVM S) :=
  if NoRecursion env && (0 <? depth e) then Ok (([], gas, None), e)
  else if CallCreateDepth <? depth e then Ok (([], gas, Some ErrDepth), e)
  else
    let (snapshot, s) := Snapshot (statedb e) in
    let! contract := AsDelegate (NewContract caller (ref_Address caller) None gas) in
    let contract := with_code_of s addr contract in
    let! r := run (inherit_jumpdests caller (set_statedb e s)) contract input false in
    finish_call snapshot r.

Definition StaticCall (e : EVM S) (caller : ContractRef) (addr : Address) (input : list byte) (gas : Z)
    : outcome (callresult * EVM S) :=
  if NoRecursion env && (0 <? depth e) then Ok (([], gas, None), e)
  else if CallCreateDepth <? depth e then Ok (([], gas, Some ErrDepth), e)
  else
    let (snapshot, s) := Snapshot (statedb e) in
    let contract := with_code_of s addr (NewContract caller addr (Some 0) gas) in
    let! r := run (inherit_jumpdests caller (set_statedb e s)) contract input true in
    finish_call snapshot r.

(** [codeAndHash.Hash]: the hash, and the record with it filled in. *)
Definition cah_Hash (c : codeAndHash) : Hash * codeAndHash :=
  if cah_hash c =? 0 then
    let h := Keccak256Hash (crypto env) (cah_code c) in (h, {| cah_code := cah_code c; cah_hash := h |})
  else (cah_hash c, c).

Definition SetCodeOptionalHash (c : Contract) (addr : option Address) (cah : codeAndHash) : Contract :=
  SetCallCode c addr (cah_hash cah) (cah_code cah).

Definition emptyCodeHash : Hash := Keccak256Hash (crypto env) [].

(** After the init code: store the code, or unwind. *)
Definition finish_create (snapshot : Z) (address : Address) (r : opresult * EVM S * Contract)
    : outcome (createresult * EVM S) :=
  let '((ret, err), e, contract) := r in
  let maxCodeSizeExceeded := IsEIP158 (chainConfig env) (BlockNumber env) && (MaxCodeSize <? zlen ret) in
  let '(err, e, contract) :=
    match err with
    | None =>
        if maxCodeSizeExceeded then (None, e, contract)
        else
          let createDataGas := u64 (zlen ret * CreateDataGas) in
          let (ok, contract) := UseGas contract createDataGas in
          if ok then (None, set_statedb e (SetCode (statedb e) address ret), contract)
          else (Some ErrCodeStoreOutOfGas, e, contract)
    | Some x => (Some x, e, contract)
    end in
  let! (e, contract) :=
    if maxCodeSizeExceeded ||
       match err with
       | Some x => IsHomestead (chainConfig env) (BlockNumber env) || negb (bool_decide (x = ErrCodeStoreOutOfGas))
       | None => false
       end
    then unwind snapshot (default errMaxCodeSizeExceeded err) e contract
    else Ok (e, contract) in
  let err := match err with
             | None => if maxCodeSizeExceeded then Some errMaxCodeSizeExceeded else None
             | Some x => Some x
             end in
  Ok ((ret, address, Gas contract, err), e).

Definition create (e : EVM S) (caller : ContractRef) (cah : codeAndHash) (gas value : Z) (address : Address)
    : outcome (createresult * EVM S) :=
  if CallCreateDepth <? depth e then Ok (([], 0, gas, Some ErrDepth), e)
  else if negb (CanTransfer env (statedb e) (ref_Address caller) value)
  then Ok (([], 0, gas, Some ErrInsufficientBalance), e)
  else
    let nonce := GetNonce (statedb e) (ref_Address caller) in
    let s := SetNonce (statedb e) (ref_Address caller) (u64 (nonce + 1)) in
    let contractHash := GetCodeHash s address in
    if negb (GetNonce s address =? 0) || (negb (contractHash =? 0) && negb (contractHash =? emptyCodeHash))
    then Ok (([], 0, 0, Some ErrContractAddressCollision), set_statedb e s)
    else
      let (snapshot, s) := Snapshot s in
      let s := CreateAccount s address in
      let s := if IsEIP158 (chainConfig env) (BlockNumber env) then SetNonce s address 1 else s in
      let s := Transfer env s (ref_Address caller) address value in
      let contract := SetCodeOptionalHash (NewContract caller address (Some value) gas) (Some address) cah in
      let e := inherit_jumpdests caller (set_statedb e s) in
      if NoRecursion env && (0 <? depth e) then Ok (([], address, gas, None), e)
      else
        let! r := run e contract [] false in
        finish_create snapshot address r.

Definition Create (e : EVM S) (caller : ContractRef) (code : list byte) (gas value : Z)
    : outcome (createresult * EVM S) :=
  let contractAddr := CreateAddress (crypto env) (ref_Address caller) (GetNonce (statedb e) (ref_Address caller)) in
  create e caller {| cah_code := code; cah_hash := 0 |} gas value contractAddr.

Definition Create2 (e : EVM S) (caller : ContractRef) (code : list byte) (gas endowment salt : Z)
    : outcome (createresult * EVM S) :=
  let (h, cah) := cah_Hash {| cah_code := code; cah_hash := 0 |} in
  let contractAddr := CreateAddress2 (crypto env) (ref_Address caller) (BigToHash salt) (Hash_Bytes h) in
  create e caller cah gas endowment contractAddr.

End evm.
