(* ===== verification/Instructions.v ===== *)
(** * Instruction bodies ([kernel/vm/instructions.go])

    One definition per instruction, in the source's order.  The calling and
    creating instructions take the interpreter's [Run] as a parameter. *)
From S2P Require Import Prelude CommonMath Params Opcodes VmBase VmInterface Precompiles Evm.
From stdpp Require Import base numbers list gmap.
From Stdlib Require Import ZArith Lia.
#[local] Open Scope Z_scope.

Section instructions.
Context {S : Type} `{StateDB S} (env : Env S).
Context (interpreter_Run : RunFunc S).

(** [x, y := stack.pop(), stack.peek()] with [y] overwritten. *)
Definition binop (f : Z -> Z -> Z) : executionFunc S :=
  do! x := pop in
  do! y := peek in
  seq! set_top (f x y) in
  nil_nil.
(** [x, y := stack.pop(), stack.pop()] and a push. *)
Definition binop_push (f : Z -> Z -> Z) : executionFunc S :=
  do! x := pop in
  do! y := pop in
  seq! push (f x y) in
  nil_nil.
Definition push1 (f : machine S -> Z) : executionFunc S :=
  do! x := gets f in
  seq! push x in
  nil_nil.

(** ** Arithmetic *)

Definition opAdd : executionFunc S := binop (fun x y => U256 (x + y)).
Definition opSub : executionFunc S := binop (fun x y => U256 (x - y)).
Definition opMul : executionFunc S := binop_push (fun x y => U256 (x * y)).
Definition opDiv : executionFunc S := binop (fun x y => if negb (Sign y =? 0) then U256 (x / y) else 0).

Definition sdiv (x y : Z) : Z :=
  let x := S256 x in
  let y := S256 y in
  if (Sign y =? 0) || (Sign x =? 0) then 0
  else if negb (Sign x =? Sign y) then U256 (- (Z.abs x / Z.abs y))
  else U256 (Z.abs x / Z.abs y).
Definition opSdiv : executionFunc S := binop_push sdiv.

Definition opMod : executionFunc S := binop_push (fun x y => if Sign y =? 0 then 0 else U256 (x mod y)).

Definition smod (x y : Z) : Z :=
  let x := S256 x in
  let y := S256 y in
  if Sign y =? 0 then 0
  else if Sign x <? 0 then U256 (- (Z.abs x mod Z.abs y))
  else U256 (Z.abs x mod Z.abs y).
Definition opSmod : executionFunc S := binop_push smod.

Definition exp_ (base exponent : Z) : Z :=
  if exponent <? 1 then 1
  else if Sign base =? 0 then 0
  else if exponent =? 1 then base
  else Exp base exponent.
Definition opExp : executionFunc S := binop_push exp_.

(** The sign extension of [num] from bit [8 * back + 7]. *)
Definition signextend (back num : Z) : Z :=
  let bit := u64 (big_Uint64 back * 8 + 7) in
  let mask := Z.shiftl 1 bit - 1 in
  U256 (if 0 <? big_Bit num bit then Z.lor num (Z.lnot mask) else Z.land num mask).
Definition opSignExtend : executionFunc S :=
  do! back := pop in
  if back <? 31 then
    do! num := pop in
    seq! push (signextend back num) in
    nil_nil
  else nil_nil.

Definition opNot : executionFunc S :=
  do! x := peek in
  seq! set_top (U256 (Z.lnot x)) in
  nil_nil.

Definition z_of_bool (b : bool) : Z := if b then 1 else 0.
Definition opLt : executionFunc S := binop (fun x y => z_of_bool (x <? y)).
Definition opGt : executionFunc S := binop (fun x y => z_of_bool (y <? x)).
Definition slt (x y : Z) : Z :=
  if (tt255 <=? x) && (y <? tt255) then 1
  else if (x <? tt255) && (tt255 <=? y) then 0
  else z_of_bool (x <? y).
Definition opSlt : executionFunc S := binop slt.
Definition sgt (x y : Z) : Z :=
  if (tt255 <=? x) && (y <? tt255) then 0
  else if (x <? tt255) && (tt255 <=? y) then 1
  else z_of_bool (y <? x).
Definition opSgt : executionFunc S := binop sgt.
Definition opEq : executionFunc S := binop (fun x y => z_of_bool (x =? y)).
Definition opIszero : executionFunc S :=
  do! x := peek in
  seq! set_top (z_of_bool (negb (0 <? Sign x))) in
  nil_nil.
Definition opAnd : executionFunc S := binop_push (fun x y => Z.land x y).
Definition opOr : executionFunc S := binop (fun x y => Z.lor x y).
Definition opXor : executionFunc S := binop (fun x y => Z.lxor x y).
Definition opByte : executionFunc S :=
  binop (fun th val => if th <? 32 then b2z (ByteAt val 32 (big_Int64 th)) else 0).
Definition opAddmod : executionFunc S :=
  do! x := pop in
  do! y := pop in
  do! z := pop in
  seq! push (if 0 <? z then U256 ((x + y) mod z) else 0) in
  nil_nil.
Definition opMulmod : executionFunc S :=
  do! x := pop in
  do! y := pop in
  do! z := pop in
  seq! push (if 0 <? z then U256 ((x * y) mod z) else 0) in
  nil_nil.
Definition opSHL : executionFunc S :=
  binop (fun shift value =>
    let shift := U256 shift in
    let value := U256 value in
    if 256 <=? shift then 0 else U256 (Z.shiftl value (big_Uint64 shift))).
Definition opSHR : executionFunc S :=
  binop (fun shift value =>
    let shift := U256 shift in
    let value := U256 value in
    if 256 <=? shift then 0 else U256 (Z.shiftr value (big_Uint64 shift))).
Definition sar (shift value : Z) : Z :=
  let shift := U256 shift in
  let value := S256 value in
  if 256 <=? shift then U256 (if 0 <=? Sign value then 0 else -1)
  else U256 (Z.shiftr value (big_Uint64 shift)).
Definition opSAR : executionFunc S := binop_push sar.

(** ** Hashing and the environment *)

Definition opSha3 : executionFunc S :=
  do! offset := pop in
  do! size := pop in
  do! mem := gets memory in
  do! data := lift (mem_Get mem (big_Int64 offset) (big_Int64 size)) in
  let hash := Keccak256Hash (crypto env) data in
  do! s := gets (fun m => statedb (evm m)) in
  seq! (if EnablePreimageRecording env then put_statedb (AddPreimage s hash data) else vret tt) in
  seq! push hash in
  nil_nil.

Definition opAddress : executionFunc S := push1 (fun m => self (contract m)).
Definition opBalance : executionFunc S :=
  do! slot := peek in
  do! s := gets (fun m => statedb (evm m)) in
  seq! set_top (GetBalance s (BigToAddress slot)) in
  nil_nil.
Definition opOrigin : executionFunc S := push1 (fun _ => Origin env).
Definition opCaller : executionFunc S := push1 (fun m => CallerAddress (contract m)).
(** [Set(nil)] would dereference a nil pointer. *)
Definition opCallValue : executionFunc S :=
  do! c := gets contract in
  match value c with
  | Some v => seq! push v in nil_nil
  | None => lift Panic
  end.
Definition opCallDataLoad : executionFunc S :=
  do! c := gets contract in
  do! off := pop in
  do! d := lift (getDataBig (Input c) off 32) in
  seq! push (be2z d) in
  nil_nil.
Definition opCallDataSize : executionFunc S := push1 (fun m => zlen (Input (contract m))).

(** [memory.Set(memOffset.Uint64(), length.Uint64(), data)]. *)
Definition write_memory (memOffset length : Z) (data : list byte) : M S unit :=
  do! mem := gets memory in
  do! mem := lift (mem_Set mem (big_Uint64 memOffset) (big_Uint64 length) data) in
  put_memory mem.

Definition opCallDataCopy : executionFunc S :=
  do! memOffset := pop in
  do! dataOffset := pop in
  do! length := pop in
  do! c := gets contract in
  do! data := lift (getDataBig (Input c) dataOffset length) in
  seq! write_memory memOffset length data in
  nil_nil.

Definition opReturnDataSize : executionFunc S := push1 (fun m => zlen (returnData (evm m))).
Definition opReturnDataCopy : executionFunc S :=
  do! memOffset := pop in
  do! dataOffset := pop in
  do! length := pop in
  do! rd := gets (fun m => returnData (evm m)) in
  let end_ := dataOffset + length in
  if (64 <? BitLen end_) || (zlen rd <? big_Uint64 end_) then vret ([], Some errReturnDataOutOfBounds)
  else
    do! data := lift (slice rd (big_Uint64 dataOffset) (big_Uint64 end_)) in
    seq! write_memory memOffset length data in
    nil_nil.

Definition opExtCodeSize : executionFunc S :=
  do! slot := peek in
  do! s := gets (fun m => statedb (evm m)) in
  seq! set_top (u64 (GetCodeSize s (BigToAddress slot))) in
  nil_nil.
Definition opCodeSize : executionFunc S := push1 (fun m => zlen (Code (contract m))).
Definition opCodeCopy : executionFunc S :=
  do! memOffset := pop in
  do! codeOffset := pop in
  do! length := pop in
  do! c := gets contract in
  do! codeCopy := lift (getDataBig (Code c) codeOffset length) in
  seq! write_memory memOffset length codeCopy in
  nil_nil.
Definition opExtCodeCopy : executionFunc S :=
  do! addr := pop in
  do! memOffset := pop in
  do! codeOffset := pop in
  do! length := pop in
  do! s := gets (fun m => statedb (evm m)) in
  do! codeCopy := lift (getDataBig (GetCode s (BigToAddress addr)) codeOffset length) in
  seq! write_memory memOffset length codeCopy in
  nil_nil.
Definition opExtCodeHash : executionFunc S :=
  do! slot := peek in
  do! s := gets (fun m => statedb (evm m)) in
  let address := BigToAddress slot in
  seq! set_top (if EmptyAccount s address then 0 else GetCodeHash s address) in
  nil_nil.
Definition opGasprice : executionFunc S := push1 (fun _ => GasPrice env).
Definition opBlockhash : executionFunc S :=
  do! num := pop in
  let n := BlockNumber env - 257 in
  seq! push (if (n <? num) && (num <? BlockNumber env) then GetHash env (big_Uint64 num) else 0) in
  nil_nil.
Definition opCoinbase : executionFunc S := push1 (fun _ => Coinbase env).
Definition opTimestamp : executionFunc S := push1 (fun _ => U256 (Time env)).
Definition opNumber : executionFunc S := push1 (fun _ => U256 (BlockNumber env)).
Definition opDifficulty : executionFunc S := push1 (fun _ => U256 (Difficulty env)).
Definition opGasLimit : executionFunc S := push1 (fun _ => U256 (GasLimit env)).

(** ** Stack, memory, storage and flow *)

Definition opPop : executionFunc S := do! _ := pop in nil_nil.
Definition opMload : executionFunc S :=
  do! offset := pop in
  do! mem := gets memory in
  do! data := lift (mem_Get mem (big_Int64 offset) 32) in
  seq! push (be2z data) in
  nil_nil.
Definition opMstore : executionFunc S :=
  do! mStart := pop in
  do! val := pop in
  do! mem := gets memory in
  do! mem := lift (mem_Set32 mem (big_Uint64 mStart) val) in
  seq! put_memory mem in
  nil_nil.
Definition opMstore8 : executionFunc S :=
  do! o := pop in
  do! v := pop in
  let off := big_Int64 o in
  let val := big_Int64 v in
  do! mem := gets memory in
  if (off <? 0) || (mem_Len mem <=? off) then lift Panic
  else
    seq! put_memory {| store := <[Z.to_nat off := z2b (Z.land val 0xff)]> (store mem);
                       lastGasCost := lastGasCost mem |} in
    nil_nil.
Definition opSload : executionFunc S :=
  do! loc := peek in
  do! s := gets (fun m => statedb (evm m)) in
  do! c := gets contract in
  seq! set_top (GetState s (self c) (BigToHash loc)) in
  nil_nil.
Definition opSstore : executionFunc S :=
  do! loc := pop in
  do! val := pop in
  do! s := gets (fun m => statedb (evm m)) in
  do! c := gets contract in
  seq! put_statedb (SetState s (self c) (BigToHash loc) (BigToHash val)) in
  nil_nil.

(** [contract.validJumpdest(pos)], with both caches updated. *)
Definition check_jump (pos : Z) : M S bool :=
  do! c := gets contract in
  do! e := gets evm in
  do! (ok, jd, c) := lift (validJumpdest (jumpdests e) c pos) in
  seq! put_evm (set_jumpdests e jd) in
  seq! put_contract c in
  vret ok.
Definition jump_to (pos : Z) : executionFunc S :=
  do! ok := check_jump pos in
  if ok then
    seq! put_pc (big_Uint64 pos) in
    nil_nil
  else
    do! c := gets contract in
    vret ([], Some (errInvalidJump (GetOp c (big_Uint64 pos)) pos)).
Definition opJump : executionFunc S :=
  do! pos := pop in
  jump_to pos.
Definition opJumpi : executionFunc S :=
  do! pos := pop in
  do! cond := pop in
  if negb (Sign cond =? 0) then jump_to pos
  else
    do! p := gets pc in
    seq! put_pc (u64 (p + 1)) in
    nil_nil.
Definition opJumpdest : executionFunc S := nil_nil.
Definition opPc : executionFunc S := push1 pc.
Definition opMsize : executionFunc S := push1 (fun m => mem_Len (memory m)).
Definition opGas : executionFunc S := push1 (fun m => Gas (contract m)).

(** ** Creation *)

Definition as_ref (c : Contract) : ContractRef := ContractAsRef (self c) (CallerAddress c) (value c).
Definition use_gas (gas : Z) : M S unit :=
  do! c := gets contract in
  put_contract (snd (UseGas c gas)).
Definition return_gas (gas : Z) : M S unit :=
  do! c := gets contract in
  put_contract (set_Gas c (u64 (Gas c + gas))).
(** Only a revert hands its data to the creator. *)
Definition revert_data (res : list byte) (suberr : option vmerror) : opresult :=
  (if bool_decide (suberr = Some errExecutionReverted) then res else [], None).

Definition opCreate : executionFunc S :=
  do! value := pop in
  do! offset := pop in
  do! size := pop in
  do! mem := gets memory in
  do! input := lift (mem_Get mem (big_Int64 offset) (big_Int64 size)) in
  do! c := gets contract in
  let gas := if IsEIP150 (chainConfig env) (BlockNumber env) then Gas c - Gas c / 64 else Gas c in
  seq! use_gas gas in
  do! e := gets evm in
  do! ((res, addr, returnGas, suberr), e) := lift (Create env interpreter_Run e (as_ref c) input gas value) in
  seq! put_evm e in
  seq! push (if IsHomestead (chainConfig env) (BlockNumber env) && bool_decide (suberr = Some ErrCodeStoreOutOfGas) then 0
             else if bool_decide (suberr <> None) && bool_decide (suberr <> Some ErrCodeStoreOutOfGas) then 0
             else addr) in
  seq! return_gas returnGas in
  vret (revert_data res suberr).

Definition opCreate2 : executionFunc S :=
  do! endowment := pop in
  do! offset := pop in
  do! size := pop in
  do! salt := pop in
  do! mem := gets memory in
  do! input := lift (mem_Get mem (big_Int64 offset) (big_Int64 size)) in
  do! c := gets contract in
  let gas := Gas c - Gas c / 64 in
  seq! use_gas gas in
  do! e := gets evm in
  do! ((res, addr, returnGas, suberr), e) := lift (Create2 env interpreter_Run e (as_ref c) input gas endowment salt) in
  seq! put_evm e in
  seq! push (if bool_decide (suberr <> None) then 0 else addr) in
  seq! return_gas returnGas in
  vret (revert_data res suberr).

(** ** Calls *)

(** The end of the four calls: result flag, output, left over gas. *)
Definition after_call (r : callresult * EVM S) (retOffset retSize : Z) : executionFunc S :=
  let '((ret, returnGas, err), e) := r in
  seq! put_evm e in
  seq! push (z_of_bool (bool_decide (err = None))) in
  seq! (if bool_decide (err = None) || bool_decide (err = Some errExecutionReverted)
        then write_memory retOffset retSize ret else vret tt) in
  seq! return_gas returnGas in
  vret (ret, None).

Definition opCall : executionFunc S :=
  do! _ := pop in
  do! e := gets evm in
  do! addr := pop in
  do! value := pop in
  do! inOffset := pop in
  do! inSize := pop in
  do! retOffset := pop in
  do! retSize := pop in
  let toAddr := BigToAddress addr in
  let value := U256 value in
  do! mem := gets memory in
  do! args := lift (mem_Get mem (big_Int64 inOffset) (big_Int64 inSize)) in
  let gas := if negb (Sign value =? 0) then u64 (callGasTemp e + CallStipend) else callGasTemp e in
  do! c := gets contract in
  do! r := lift (Call env interpreter_Run e (as_ref c) toAddr args gas value) in
  after_call r retOffset retSize.

Definition opCallCode : executionFunc S :=
  do! _ := pop in
  do! e := gets evm in
  do! addr := pop in
  do! value := pop in
  do! inOffset := pop in
  do! inSize := pop in
  do! retOffset := pop in
  do! retSize := pop in
  let toAddr := BigToAddress addr in
  let value := U256 value in
  do! mem := gets memory in
  do! args := lift (mem_Get mem (big_Int64 inOffset) (big_Int64 inSize)) in
  let gas := if negb (Sign value =? 0) then u64 (callGasTemp e + CallStipend) else callGasTemp e in
  do! c := gets contract in
  do! r := lift (CallCode env interpreter_Run e (as_ref c) toAddr args gas value) in
  after_call r retOffset retSize.

Definition opDelegateCall : executionFunc S :=
  do! _ := pop in
  do! e := gets evm in
  do! addr := pop in
  do! inOffset := pop in
  do! inSize := pop in
  do! retOffset := pop in
  do! retSize := pop in
  let toAddr := BigToAddress addr in
  do! mem := gets memory in
  do! args := lift (mem_Get mem (big_Int64 inOffset) (big_Int64 inSize)) in
  do! c := gets contract in
  do! r := lift (DelegateCall env interpreter_Run e (as_ref c) toAddr args (callGasTemp e)) in
  after_call r retOffset retSize.

Definition opStaticCall : executionFunc S :=
  do! _ := pop in
  do! e := gets evm in
  do! addr := pop in
  do! inOffset := pop in
  do! inSize := pop in
  do! retOffset := pop in
  do! retSize := pop in
  let toAddr := BigToAddress addr in
  do! mem := gets memory in
  do! args := lift (mem_Get mem (big_Int64 inOffset) (big_Int64 inSize)) in
  do! c := gets contract in
  do! r := lift (StaticCall env interpreter_Run e (as_ref c) toAddr args (callGasTemp e)) in
  after_call r retOffset retSize.

(** ** Halting, logs and stack families *)

Definition opReturn : executionFunc S :=
  do! offset := pop in
  do! size := pop in
  do! mem := gets memory in
  do! ret := lift (mem_GetPtr mem (big_Int64 offset) (big_Int64 size)) in
  vret (ret, None).
Definition opRevert : executionFunc S :=
  do! offset := pop in
  do! size := pop in
  do! mem := gets memory in
  do! ret := lift (mem_GetPtr mem (big_Int64 offset) (big_Int64 size)) in
  vret (ret, None).
Definition opStop : executionFunc S := nil_nil.
Definition opSuicide : executionFunc S :=
  do! s := gets (fun m => statedb (evm m)) in
  do! c := gets contract in
  let balance := GetBalance s (self c) in
  do! to := pop in
  seq! put_statedb (Suicide (AddBalance s (BigToAddress to) balance) (self c)) in
  nil_nil.

Fixpoint pop_topics (size : nat) : M S (list Hash) :=
  match size with
  | O => vret []
  | Datatypes.S size =>
      do! x := pop in
      do! topics := pop_topics size in
      vret (BigToHash x :: topics)
  end.
Definition makeLog (size : nat) : executionFunc S :=
  do! mStart := pop in
  do! mSize := pop in
  do! topics := pop_topics size in
  do! mem := gets memory in
  do! d := lift (mem_Get mem (big_Int64 mStart) (big_Int64 mSize)) in
  do! s := gets (fun m => statedb (evm m)) in
  do! c := gets contract in
  seq! put_statedb (AddLog s {| log_Address := self c; log_Topics := topics; log_Data := d;
                                log_BlockNumber := big_Uint64 (BlockNumber env);
                                log_TxHash := 0; log_TxIndex := 0; log_BlockHash := 0; log_Index := 0;
                                log_Removed := false |}) in
  nil_nil.

Definition makePush (size pushByteSize : Z) : executionFunc S :=
  do! c := gets contract in
  do! p := gets pc in
  let codeLen := zlen (Code c) in
  let startMin := if s64 (u64 (p + 1)) <? codeLen then s64 (u64 (p + 1)) else codeLen in
  let endMin := if startMin + pushByteSize <? codeLen then startMin + pushByteSize else codeLen in
  do! d := lift (slice (Code c) startMin endMin) in
  seq! push (be2z (RightPadBytes d pushByteSize)) in
  seq! put_pc (u64 (p + size)) in
  nil_nil.
Definition makeDup (size : nat) : executionFunc S :=
  do! st := gets stack in
  do! st := lift (st_dup size st) in
  seq! put_stack st in
  nil_nil.
Definition makeSwap (size : nat) : executionFunc S :=
  do! st := gets stack in
  do! st := lift (st_swap (size + 1) st) in
  seq! put_stack st in
  nil_nil.

End instructions.
