(* ===== verification/JumpTable.v ===== *)
(** * Instruction sets ([kernel/vm/jump_table.go])

    The table of each hard fork extends that of the previous one.  An array
    literal with keyed elements becomes an association list; a missing key is an
    operation that is not [valid]. *)
From S2P Require Import Prelude CommonMath Params Opcodes VmBase VmInterface Precompiles GasTable Evm Instructions.
From stdpp Require Import base numbers list gmap.
From Stdlib Require Import ZArith Lia.
#[local] Open Scope Z_scope.

Record operation_ (S : Type) := mkOperation {
  execute : executionFunc S;
  gasCost : gasFunc S;
  validateStack : stackValidationFunc;
  memorySize : option memorySizeFunc;
  halts : bool;
  jumps : bool;
  writes : bool;
  valid : bool;
  reverts : bool;
  returns : bool
}.
Arguments mkOperation {S}.
Arguments execute {S} _.
Arguments gasCost {S} _.
Arguments validateStack {S} _.
Arguments memorySize {S} _.
Arguments halts {S} _.
Arguments jumps {S} _.
Arguments writes {S} _.
Arguments valid {S} _.
Arguments reverts {S} _.
Arguments returns {S} _.

Section jump_table.
Context {S : Type} `{StateDB S} (env : Env S).
Context (interpreter_Run : RunFunc S).
Local Abbreviation operation := (operation_ S).

(** Columns: execute, gasCost, validateStack, memorySize, then the flags halts,
    jumps, writes, valid, reverts, returns. *)

Definition frontier_arithmetic : list (OpCode * operation) :=
  [
   (STOP, mkOperation opStop (constGasFunc 0) (makeStackFunc 0 0) None true false false true false false);
   (ADD, mkOperation opAdd (constGasFunc GasFastestStep) (makeStackFunc 2 1) None false false false true false false);
   (MUL, mkOperation opMul (constGasFunc GasFastStep) (makeStackFunc 2 1) None false false false true false false);
   (SUB, mkOperation opSub (constGasFunc GasFastestStep) (makeStackFunc 2 1) None false false false true false false);
   (DIV, mkOperation opDiv (constGasFunc GasFastStep) (makeStackFunc 2 1) None false false false true false false);
   (SDIV, mkOperation opSdiv (constGasFunc GasFastStep) (makeStackFunc 2 1) None false false false true false false);
   (MOD, mkOperation opMod (constGasFunc GasFastStep) (makeStackFunc 2 1) None false false false true false false);
   (SMOD, mkOperation opSmod (constGasFunc GasFastStep) (makeStackFunc 2 1) None false false false true false false);
   (ADDMOD, mkOperation opAddmod (constGasFunc GasMidStep) (makeStackFunc 3 1) None false false false true false false);
   (MULMOD, mkOperation opMulmod (constGasFunc GasMidStep) (makeStackFunc 3 1) None false false false true false false);
   (EXP, mkOperation opExp gasExp (makeStackFunc 2 1) None false false false true false false);
   (SIGNEXTEND, mkOperation opSignExtend (constGasFunc GasFastStep) (makeStackFunc 2 1) None false false false true false false);
   (LT, mkOperation opLt (constGasFunc GasFastestStep) (makeStackFunc 2 1) None false false false true false false);
   (GT, mkOperation opGt (constGasFunc GasFastestStep) (makeStackFunc 2 1) None false false false true false false);
   (SLT, mkOperation opSlt (constGasFunc GasFastestStep) (makeStackFunc 2 1) None false false false true false false);
   (SGT, mkOperation opSgt (constGasFunc GasFastestStep) (makeStackFunc 2 1) None false false false true false false);
   (EQ, mkOperation opEq (constGasFunc GasFastestStep) (makeStackFunc 2 1) None false false false true false false);
   (ISZERO, mkOperation opIszero (constGasFunc GasFastestStep) (makeStackFunc 1 1) None false false false true false false);
   (AND, mkOperation opAnd (constGasFunc GasFastestStep) (makeStackFunc 2 1) None false false false true false false);
   (XOR, mkOperation opXor (constGasFunc GasFastestStep) (makeStackFunc 2 1) None false false false true false false);
   (OR, mkOperation opOr (constGasFunc GasFastestStep) (makeStackFunc 2 1) None false false false true false false);
   (NOT, mkOperation opNot (constGasFunc GasFastestStep) (makeStackFunc 1 1) None false false false true false false);
   (BYTE, mkOperation opByte (constGasFunc GasFastestStep) (makeStackFunc 2 1) None false false false true false false);
   (SHA3, mkOperation (opSha3 env) gasSha3 (makeStackFunc 2 1) (Some memorySha3) false false false true false false)
  ].

Definition frontier_environment : list (OpCode * operation) :=
  [
   (ADDRESS, mkOperation opAddress (constGasFunc GasQuickStep) (makeStackFunc 0 1) None false false false true false false);
   (BALANCE, mkOperation opBalance gasBalance (makeStackFunc 1 1) None false false false true false false);
   (ORIGIN, mkOperation (opOrigin env) (constGasFunc GasQuickStep) (makeStackFunc 0 1) None false false false true false false);
   (CALLER, mkOperation opCaller (constGasFunc GasQuickStep) (makeStackFunc 0 1) None false false false true false false);
   (CALLVALUE, mkOperation opCallValue (constGasFunc GasQuickStep) (makeStackFunc 0 1) None false false false true false false);
   (CALLDATALOAD, mkOperation opCallDataLoad (constGasFunc GasFastestStep) (makeStackFunc 1 1) None false false false true false false);
   (CALLDATASIZE, mkOperation opCallDataSize (constGasFunc GasQuickStep) (makeStackFunc 0 1) None false false false true false false);
   (CALLDATACOPY, mkOperation opCallDataCopy gasCallDataCopy (makeStackFunc 3 0) (Some memoryCallDataCopy) false false false true false false);
   (CODESIZE, mkOperation opCodeSize (constGasFunc GasQuickStep) (makeStackFunc 0 1) None false false false true false false);
   (CODECOPY, mkOperation opCodeCopy gasCodeCopy (makeStackFunc 3 0) (Some memoryCodeCopy) false false false true false false);
   (GASPRICE, mkOperation (opGasprice env) (constGasFunc GasQuickStep) (makeStackFunc 0 1) None false false false true false false);
   (EXTCODESIZE, mkOperation opExtCodeSize gasExtCodeSize (makeStackFunc 1 1) None false false false true false false);
   (EXTCODECOPY, mkOperation opExtCodeCopy gasExtCodeCopy (makeStackFunc 4 0) (Some memoryExtCodeCopy) false false false true false false);
   (BLOCKHASH, mkOperation (opBlockhash env) (constGasFunc GasExtStep) (makeStackFunc 1 1) None false false false true false false);
   (COINBASE, mkOperation (opCoinbase env) (constGasFunc GasQuickStep) (makeStackFunc 0 1) None false false false true false false);
   (TIMESTAMP, mkOperation (opTimestamp env) (constGasFunc GasQuickStep) (makeStackFunc 0 1) None false false false true false false);
   (NUMBER, mkOperation (opNumber env) (constGasFunc GasQuickStep) (makeStackFunc 0 1) None false false false true false false);
   (DIFFICULTY, mkOperation (opDifficulty env) (constGasFunc GasQuickStep) (makeStackFunc 0 1) None false false false true false false);
   (GASLIMIT, mkOperation (opGasLimit env) (constGasFunc GasQuickStep) (makeStackFunc 0 1) None false false false true false false)
  ].

Definition frontier_memory_flow : list (OpCode * operation) :=
  [
   (POP, mkOperation opPop (constGasFunc GasQuickStep) (makeStackFunc 1 0) None false false false true false false);
   (MLOAD, mkOperation opMload gasMLoad (makeStackFunc 1 1) (Some memoryMLoad) false false false true false false);
   (MSTORE, mkOperation opMstore gasMStore (makeStackFunc 2 0) (Some memoryMStore) false false false true false false);
   (MSTORE8, mkOperation opMstore8 gasMStore8 (makeStackFunc 2 0) (Some memoryMStore8) false false false true false false);
   (SLOAD, mkOperation opSload gasSLoad (makeStackFunc 1 1) None false false false true false false);
   (SSTORE, mkOperation opSstore (gasSStore env) (makeStackFunc 2 0) None false false true true false false);
   (JUMP, mkOperation opJump (constGasFunc GasMidStep) (makeStackFunc 1 0) None false true false true false false);
   (JUMPI, mkOperation opJumpi (constGasFunc GasSlowStep) (makeStackFunc 2 0) None false true false true false false);
   (PC, mkOperation opPc (constGasFunc GasQuickStep) (makeStackFunc 0 1) None false false false true false false);
   (MSIZE, mkOperation opMsize (constGasFunc GasQuickStep) (makeStackFunc 0 1) None false false false true false false);
   (GAS, mkOperation opGas (constGasFunc GasQuickStep) (makeStackFunc 0 1) None false false false true false false);
   (JUMPDEST, mkOperation opJumpdest (constGasFunc JumpdestGas) (makeStackFunc 0 0) None false false false true false false)
  ].

Definition frontier_push_lo : list (OpCode * operation) :=
  [
   (PUSH1, mkOperation (makePush 1 1) gasPush (makeStackFunc 0 1) None false false false true false false);
   (PUSH2, mkOperation (makePush 2 2) gasPush (makeStackFunc 0 1) None false false false true false false);
   (PUSH3, mkOperation (makePush 3 3) gasPush (makeStackFunc 0 1) None false false false true false false);
   (PUSH4, mkOperation (makePush 4 4) gasPush (makeStackFunc 0 1) None false false false true false false);
   (PUSH5, mkOperation (makePush 5 5) gasPush (makeStackFunc 0 1) None false false false true false false);
   (PUSH6, mkOperation (makePush 6 6) gasPush (makeStackFunc 0 1) None false false false true false false);
   (PUSH7, mkOperation (makePush 7 7) gasPush (makeStackFunc 0 1) None false false false true false false);
   (PUSH8, mkOperation (makePush 8 8) gasPush (makeStackFunc 0 1) None false false false true false false);
   (PUSH9, mkOperation (makePush 9 9) gasPush (makeStackFunc 0 1) None false false false true false false);
   (PUSH10, mkOperation (makePush 10 10) gasPush (makeStackFunc 0 1) None false false false true false false);
   (PUSH11, mkOperation (makePush 11 11) gasPush (makeStackFunc 0 1) None false false false true false false);
   (PUSH12, mkOperation (makePush 12 12) gasPush (makeStackFunc 0 1) None false false false true false false);
   (PUSH13, mkOperation (makePush 13 13) gasPush (makeStackFunc 0 1) None false false false true false false);
   (PUSH14, mkOperation (makePush 14 14) gasPush (makeStackFunc 0 1) None false false false true false false);
   (PUSH15, mkOperation (makePush 15 15) gasPush (makeStackFunc 0 1) None false false false true false false);
   (PUSH16, mkOperation (makePush 16 16) gasPush (makeStackFunc 0 1) None false false false true false false);
   (PUSH17, mkOperation (makePush 17 17) gasPush (makeStackFunc 0 1) None false false false true false false);
   (PUSH18, mkOperation (makePush 18 18) gasPush (makeStackFunc 0 1) None false false false true false false);
   (PUSH19, mkOperation (makePush 19 19) gasPush (makeStackFunc 0 1) None false false false true false false);
   (PUSH20, mkOperation (makePush 20 20) gasPush (makeStackFunc 0 1) None false false false true false false)
  ].

Definition frontier_push_hi : list (OpCode * operation) :=
  [
   (PUSH21, mkOperation (makePush 21 21) gasPush (makeStackFunc 0 1) None false false false true false false);
   (PUSH22, mkOperation (makePush 22 22) gasPush (makeStackFunc 0 1) None false false false true false false);
   (PUSH23, mkOperation (makePush 23 23) gasPush (makeStackFunc 0 1) None false false false true false false);
   (PUSH24, mkOperation (makePush 24 24) gasPush (makeStackFunc 0 1) None false false false true false false);
   (PUSH25, mkOperation (makePush 25 25) gasPush (makeStackFunc 0 1) None false false false true false false);
   (PUSH26, mkOperation (makePush 26 26) gasPush (makeStackFunc 0 1) None false false false true false false);
   (PUSH27, mkOperation (makePush 27 27) gasPush (makeStackFunc 0 1) None false false false true false false);
   (PUSH28, mkOperation (makePush 28 28) gasPush (makeStackFunc 0 1) None false false false true false false);
   (PUSH29, mkOperation (makePush 29 29) gasPush (makeStackFunc 0 1) None false false false true false false);
   (PUSH30, mkOperation (makePush 30 30) gasPush (makeStackFunc 0 1) None false false false true false false);
   (PUSH31, mkOperation (makePush 31 31) gasPush (makeStackFunc 0 1) None false false false true false false);
   (PUSH32, mkOperation (makePush 32 32) gasPush (makeStackFunc 0 1) None false false false true false false)
  ].

Definition frontier_dup : list (OpCode * operation) :=
  [
   (DUP1, mkOperation (makeDup 1) gasDup (makeDupStackFunc 1) None false false false true false false);
   (DUP2, mkOperation (makeDup 2) gasDup (makeDupStackFunc 2) None false false false true false false);
   (DUP3, mkOperation (makeDup 3) gasDup (makeDupStackFunc 3) None false false false true false false);
   (DUP4, mkOperation (makeDup 4) gasDup (makeDupStackFunc 4) None false false false true false false);
   (DUP5, mkOperation (makeDup 5) gasDup (makeDupStackFunc 5) None false false false true false false);
   (DUP6, mkOperation (makeDup 6) gasDup (makeDupStackFunc 6) None false false false true false false);
   (DUP7, mkOperation (makeDup 7) gasDup (makeDupStackFunc 7) None false false false true false false);
   (DUP8, mkOperation (makeDup 8) gasDup (makeDupStackFunc 8) None false false false true false false);
   (DUP9, mkOperation (makeDup 9) gasDup (makeDupStackFunc 9) None false false false true false false);
   (DUP10, mkOperation (makeDup 10) gasDup (makeDupStackFunc 10) None false false false true false false);
   (DUP11, mkOperation (makeDup 11) gasDup (makeDupStackFunc 11) None false false false true false false);
   (DUP12, mkOperation (makeDup 12) gasDup (makeDupStackFunc 12) None false false false true false false);
   (DUP13, mkOperation (makeDup 13) gasDup (makeDupStackFunc 13) None false false false true false false);
   (DUP14, mkOperation (makeDup 14) gasDup (makeDupStackFunc 14) None false false false true false false);
   (DUP15, mkOperation (makeDup 15) gasDup (makeDupStackFunc 15) None false false false true false false);
   (DUP16, mkOperation (makeDup 16) gasDup (makeDupStackFunc 16) None false false false true false false)
  ].

Definition frontier_swap : list (OpCode * operation) :=
  [
   (SWAP1, mkOperation (makeSwap 1) gasSwap (makeSwapStackFunc 2) None false false false true false false);
   (SWAP2, mkOperation (makeSwap 2) gasSwap (makeSwapStackFunc 3) None false false false true false false);
   (SWAP3, mkOperation (makeSwap 3) gasSwap (makeSwapStackFunc 4) None false false false true false false);
   (SWAP4, mkOperation (makeSwap 4) gasSwap (makeSwapStackFunc 5) None false false false true false false);
   (SWAP5, mkOperation (makeSwap 5) gasSwap (makeSwapStackFunc 6) None false false false true false false);
   (SWAP6, mkOperation (makeSwap 6) gasSwap (makeSwapStackFunc 7) None false false false true false false);
   (SWAP7, mkOperation (makeSwap 7) gasSwap (makeSwapStackFunc 8) None false false false true false false);
   (SWAP8, mkOperation (makeSwap 8) gasSwap (makeSwapStackFunc 9) None false false false true false false);
   (SWAP9, mkOperation (makeSwap 9) gasSwap (makeSwapStackFunc 10) None false false false true false false);
   (SWAP10, mkOperation (makeSwap 10) gasSwap (makeSwapStackFunc 11) None false false false true false false);
   (SWAP11, mkOperation (makeSwap 11) gasSwap (makeSwapStackFunc 12) None false false false true false false);
   (SWAP12, mkOperation (makeSwap 12) gasSwap (makeSwapStackFunc 13) None false false false true false false);
   (SWAP13, mkOperation (makeSwap 13) gasSwap (makeSwapStackFunc 14) None false false false true false false);
   (SWAP14, mkOperation (makeSwap 14) gasSwap (makeSwapStackFunc 15) None false false false true false false);
   (SWAP15, mkOperation (makeSwap 15) gasSwap (makeSwapStackFunc 16) None false false false true false false);
   (SWAP16, mkOperation (makeSwap 16) gasSwap (makeSwapStackFunc 17) None false false false true false false)
  ].

Definition frontier_log : list (OpCode * operation) :=
  [
   (LOG0, mkOperation (makeLog env 0) (makeGasLog 0) (makeStackFunc 2 0) (Some memoryLog) false false true true false false);
   (LOG1, mkOperation (makeLog env 1) (makeGasLog 1) (makeStackFunc 3 0) (Some memoryLog) false false true true false false);
   (LOG2, mkOperation (makeLog env 2) (makeGasLog 2) (makeStackFunc 4 0) (Some memoryLog) false false true true false false);
   (LOG3, mkOperation (makeLog env 3) (makeGasLog 3) (makeStackFunc 5 0) (Some memoryLog) false false true true false false);
   (LOG4, mkOperation (makeLog env 4) (makeGasLog 4) (makeStackFunc 6 0) (Some memoryLog) false false true true false false)
  ].

Definition frontier_system : list (OpCode * operation) :=
  [
   (CREATE, mkOperation (opCreate env interpreter_Run) gasCreate (makeStackFunc 3 1) (Some memoryCreate) false false true true false true);
   (CALL, mkOperation (opCall env interpreter_Run) (gasCall env) (makeStackFunc 7 1) (Some memoryCall) false false false true false true);
   (CALLCODE, mkOperation (opCallCode env interpreter_Run) gasCallCode (makeStackFunc 7 1) (Some memoryCall) false false false true false true);
   (RETURN, mkOperation opReturn gasReturn (makeStackFunc 2 0) (Some memoryReturn) true false false true false false);
   (SELFDESTRUCT, mkOperation opSuicide (gasSuicide env) (makeStackFunc 1 0) None true false true true false false)
  ].

Definition frontierInstructionSet : list (OpCode * operation) :=
  frontier_arithmetic ++ frontier_environment ++ frontier_memory_flow ++ frontier_push_lo ++ frontier_push_hi ++
  frontier_dup ++ frontier_swap ++ frontier_log ++ frontier_system.

Definition homestead_new : list (OpCode * operation) :=
  [
   (DELEGATECALL, mkOperation (opDelegateCall env interpreter_Run) gasDelegateCall (makeStackFunc 6 1) (Some memoryDelegateCall) false false false true false true)
  ].

Definition homesteadInstructionSet : list (OpCode * operation) := homestead_new ++ frontierInstructionSet.

Definition byzantium_new : list (OpCode * operation) :=
  [
   (REVERT, mkOperation opRevert gasRevert (makeStackFunc 2 0) (Some memoryRevert) false false false true true true);
   (RETURNDATACOPY, mkOperation opReturnDataCopy gasReturnDataCopy (makeStackFunc 3 0) (Some memoryReturnDataCopy) false false false true false false);
   (RETURNDATASIZE, mkOperation opReturnDataSize (constGasFunc GasQuickStep) (makeStackFunc 0 1) None false false false true false false);
   (STATICCALL, mkOperation (opStaticCall env interpreter_Run) gasStaticCall (makeStackFunc 6 1) (Some memoryStaticCall) false false false true false true)
  ].

Definition byzantiumInstructionSet : list (OpCode * operation) := byzantium_new ++ homesteadInstructionSet.

Definition constantinople_new : list (OpCode * operation) :=
  [
   (CREATE2, mkOperation (opCreate2 env interpreter_Run) gasCreate2 (makeStackFunc 4 1) (Some memoryCreate2) false false true true false true);
   (EXTCODEHASH, mkOperation opExtCodeHash gasExtCodeHash (makeStackFunc 1 1) None false false false true false false);
   (SAR, mkOperation opSAR (constGasFunc GasFastestStep) (makeStackFunc 2 1) None false false false true false false);
   (SHR, mkOperation opSHR (constGasFunc GasFastestStep) (makeStackFunc 2 1) None false false false true false false);
   (SHL, mkOperation opSHL (constGasFunc GasFastestStep) (makeStackFunc 2 1) None false false false true false false)
  ].

Definition constantinopleInstructionSet : list (OpCode * operation) := constantinople_new ++ byzantiumInstructionSet.

(** The choice made by [NewEVMInterpreter] when no table is configured. *)
Definition instructionSet : list (OpCode * operation) :=
  if IsConstantinople (chainConfig env) (BlockNumber env) then constantinopleInstructionSet
  else if IsByzantium (chainConfig env) (BlockNumber env) then byzantiumInstructionSet
  else if IsHomestead (chainConfig env) (BlockNumber env) then homesteadInstructionSet
  else frontierInstructionSet.

Definition JumpTable (op : OpCode) : option operation := map_get op instructionSet.

End jump_table.
