(* ===== verification/Interpreter.v ===== *)
(** * The interpreter loop ([kernel/vm/interpreter.go])

    [step] is one round of the loop of [Run], [loop] the loop itself, [Run] the
    whole method with its deferred clean-up.  Nested calls go through [Run] with
    the fuel that is left; [InterpreterFacts.v] shows that fuel above the gas of
    the outermost call is always enough. *)
From S2P Require Import Prelude CommonMath Params Opcodes VmBase VmInterface Precompiles GasTable Evm.
From S2P Require Import Instructions JumpTable.
From stdpp Require Import base numbers list gmap.
From Stdlib Require Import ZArith Lia.
#[local] Open Scope Z_scope.

(** The outcome of one round: go on, or return from [Run]. *)
Inductive progress (S : Type) : Type :=
| Continue (m : machine S)
| Halt (res : opresult) (m : machine S).
Arguments Continue {S} m.
Arguments Halt {S} res m.

Section interpreter.
Context {S : Type} `{StateDB S} (env : Env S).

Definition gasTable : GasTable := ChainConfig_GasTable (chainConfig env) (BlockNumber env).

Definition enforceRestrictions (readOnly : bool) (op : OpCode) (operation : operation_ S) (stack : Stack)
    : outcome (option vmerror) :=
  if rules_IsByzantium (chainRules env) && readOnly then
    if writes operation then Ok (Some errWriteProtection)
    else if op =? CALL then
      let! v := st_Back stack 2 in
      Ok (if 0 <? BitLen v then Some errWriteProtection else None)
    else Ok None
  else Ok None.

(** The size the memory is to have, a multiple of the word size. *)
Definition memory_size (f : option memorySizeFunc) (stack : Stack) : outcome (result vmerror Z) :=
  match f with
  | None => Ok (Good 0)
  | Some f =>
      let! sz := f stack in
      let (memSize, overflow) := bigUint64 sz in
      if overflow then Ok (Err errGasUintOverflow)
      else Ok (checked (SafeMul (toWordSize memSize) 32))
  end.

Definition with_contract (m : machine S) (c : Contract) : machine S :=
  mkMachine (pc m) (evm m) c (memory m) (stack m).
Definition with_memory (m : machine S) (mem : Memory) : machine S :=
  mkMachine (pc m) (evm m) (contract m) mem (stack m).
Definition with_evm (m : machine S) (e : EVM S) : machine S :=
  mkMachine (pc m) e (contract m) (memory m) (stack m).
Definition with_pc (m : machine S) (p : Z) : machine S :=
  mkMachine p (evm m) (contract m) (memory m) (stack m).

(** From the charged gas to the end of the round. *)
Definition step_execute (o : operation_ S) (size : Z) (m : machine S) : outcome (progress S) :=
  let m := if 0 <? size then with_memory m (mem_Resize (memory m) size) else m in
  let! ((res, err), m) := execute o m in
  let m := if returns o then with_evm m (set_returnData (evm m) res) else m in
  match err with
  | Some e => Ok (Halt ([], Some e) m)
  | None =>
      if reverts o then Ok (Halt (res, Some errExecutionReverted) m)
      else if halts o then Ok (Halt (res, None) m)
      else if negb (jumps o) then Ok (Continue (with_pc m (u64 (pc m + 1))))
      else Ok (Continue m)
  end.

Definition step_operation (op : OpCode) (o : operation_ S) (m : machine S) : outcome (progress S) :=
  match validateStack o (stack m) with
  | Some err => Ok (Halt ([], Some err) m)
  | None =>
      let! restriction := enforceRestrictions (readOnly (evm m)) op o (stack m) in
      match restriction with
      | Some err => Ok (Halt ([], Some err) m)
      | None =>
          let! size := memory_size (memorySize o) (stack m) in
          match size with
          | Err err => Ok (Halt ([], Some err) m)
          | Good size =>
              let! (cost, m) := gasCost o gasTable size m in
              match cost with
              | Err _ => Ok (Halt ([], Some ErrOutOfGas) m)
              | Good cost =>
                  let (ok, c) := UseGas (contract m) cost in
                  if ok then step_execute o size (with_contract m c)
                  else Ok (Halt ([], Some ErrOutOfGas) m)
              end
          end
      end
  end.

Definition step (interpreter_Run : RunFunc S) (m : machine S) : outcome (progress S) :=
  let op := GetOp (contract m) (pc m) in
  match JumpTable env interpreter_Run op with
  | None => Ok (Halt ([], Some (errInvalidOpcode op)) m)
  | Some o =>
      if negb (valid o) then Ok (Halt ([], Some (errInvalidOpcode op)) m)
      else step_operation op o m
  end.

(** [Run] around its loop: depth and read-only mode are restored on return. *)
Definition leave (setro : bool) (e : EVM S) : EVM S :=
  let e := set_depth e (depth e - 1) in
  if setro then set_readOnly e false else e.

Definition enter (loop : machine S -> outcome (opresult * machine S)) : RunFunc S := fun e c input ro =>
  let e := set_depth e (depth e + 1) in
  let setro := ro && negb (readOnly e) in
  let e := if setro then set_readOnly e true else e in
  let e := set_returnData e [] in
  if zlen (Code c) =? 0 then Ok (([], None), leave setro e, c)
  else
    let! (res, m) := loop (mkMachine 0 e (set_Input c input) NewMemory newstack) in
    Ok (res, leave setro (evm m), contract m).

Fixpoint loop (fuel : nat) (m : machine S) : outcome (opresult * machine S) :=
  match fuel with
  | O => OutOfFuel
  | Datatypes.S fuel =>
      let aborted := abort env (ticks (evm m)) in
      let m := with_evm m (tick (evm m)) in
      if aborted then Ok (([], None), m)
      else
        let! p := step (enter (loop fuel)) m in
        match p with
        | Continue m => loop fuel m
        | Halt res m => Ok (res, m)
        end
  end.

Definition Run (fuel : nat) : RunFunc S := enter (loop fuel).

End interpreter.
