(* ===== verification/VmLaws.v ===== *)
(** * What the machine relies on from the world state

    [evolves ro] collects the ways in which the machine changes the world state,
    with nested snapshots; [ro] is static mode, in which only the harmless ones
    are allowed.  [StateDBLaws] states what the machine needs of an
    implementation; [StateInstance.v] shows that [kernel/state] provides it. *)
From S2P Require Import Prelude CommonMath Params Opcodes VmBase VmInterface.
From stdpp Require Import base numbers list gmap.
From Stdlib Require Import ZArith Lia.
#[local] Open Scope Z_scope.

Section evolves.
Context {S : Type} `{StateDB S}.

Inductive evolves (ro : bool) : S -> S -> Prop :=
| ev_refl s : evolves ro s s
| ev_trans s1 s2 s3 : evolves ro s1 s2 -> evolves ro s2 s3 -> evolves ro s1 s3
| ev_preimage s h d : evolves ro s (AddPreimage s h d)
| ev_touch s a : is_address a -> Exist s a = false -> evolves ro s (CreateAccount s a)
| ev_transfer s a b v :
    is_address a -> is_address b -> 0 <= v <= GetBalance s a -> (ro = true -> v = 0) -> evolves ro s (kernel_Transfer s a b v)
| ev_snapshot s : evolves ro s (snd (Snapshot s))
| ev_revert s s2 s3 :
    evolves ro (snd (Snapshot s)) s2 -> RevertToSnapshot s2 (fst (Snapshot s)) = Ok s3 -> evolves ro s s3
| ev_create s a : ro = false -> is_address a -> evolves ro s (CreateAccount s a)
| ev_nonce s a n : ro = false -> is_address a -> is_u64 n -> evolves ro s (SetNonce s a n)
| ev_code s a c : ro = false -> is_address a -> zlen c < 2 ^ 62 -> evolves ro s (SetCode s a c)
| ev_state s a k v : ro = false -> is_address a -> is_word k -> is_word v -> evolves ro s (SetState s a k v)
| ev_refund s g : ro = false -> is_u64 g -> evolves ro s (AddRefund s g)
| ev_unrefund s s' g : ro = false -> is_u64 g -> SubRefund s g = Ok s' -> evolves ro s s'
| ev_log s l : ro = false -> evolves ro s (AddLog s l)
| ev_suicide s a b : ro = false -> is_address a -> is_address b ->
    evolves ro s (Suicide (AddBalance s b (GetBalance s a)) a).

Lemma evolves_weaken ro s s' : evolves ro s s' -> evolves false s s'.
Proof.
  induction 1 as [s|s1 s2 s3 _ IH1 _ IH2| | |s a b v Ha Hb Hv Hro| |s s2 s3 _ IH E| | | | | | | |].
  2: by eapply ev_trans.
  6: by eapply ev_revert.
  all: eauto 2 using ev_refl, ev_preimage, ev_touch, ev_snapshot, ev_create, ev_nonce, ev_code, ev_state,
    ev_refund, ev_unrefund, ev_log, ev_suicide.
  apply ev_transfer; [done..|discriminate].
Qed.

End evolves.

Create HintDb evolves.
#[export] Hint Resolve ev_refl ev_preimage ev_touch ev_snapshot ev_create ev_nonce ev_code ev_state ev_refund
  ev_log ev_suicide : evolves.

(** [state_ok] is the invariant of the implementation, [state_eq] says that two
    states answer every read of the machine alike. *)
Class StateDBLaws (S : Type) `{StateDB S} (cr : Crypto) := {
  state_ok : S -> Prop;
  state_eq : S -> S -> Prop;
  state_eq_refl : forall s, state_eq s s;
  state_eq_trans : forall s1 s2 s3, state_eq s1 s2 -> state_eq s2 s3 -> state_eq s1 s3;
  evolves_ok : forall ro s s', state_ok s -> evolves ro s s' -> state_ok s';
  revert_ok : forall s s2, state_ok s -> evolves false (snd (Snapshot s)) s2 ->
    exists s3, RevertToSnapshot s2 (fst (Snapshot s)) = Ok s3 /\ state_eq s3 s;
  subrefund_cases : forall s g, SubRefund s g = Panic \/ exists s', SubRefund s g = Ok s';
  snapshot_eq : forall s, state_eq (snd (Snapshot s)) s;
  eq_balance : forall s s' a, state_eq s s' -> GetBalance s a = GetBalance s' a;
  create_balance : forall s a b, state_ok s -> GetBalance (CreateAccount s a) b = GetBalance s b;
  nonce_balance : forall s a b n, state_ok s -> GetBalance (SetNonce s a n) b = GetBalance s b;
  balance_nonneg : forall s a, state_ok s -> is_address a -> 0 <= GetBalance s a;
  code_hash_nonneg : forall s a, state_ok s -> 0 <= GetCodeHash s a;
  state_word : forall s a k, state_ok s -> is_address a -> 0 <= GetState s a k;
  code_hash_code : forall s a, state_ok s -> is_address a -> GetCodeHash s a <> 0 -> GetCodeHash s a = Keccak256Hash cr (GetCode s a);
  code_length : forall s a, state_ok s -> is_address a -> zlen (GetCode s a) < 2 ^ 62
}.
