(* ===== verification/VmInvariant.v ===== *)
(** * The invariant of an interpreter frame

    Well-formed machines, what one round may change, and the outcome predicate
    used throughout: a computation returns with its postcondition and never runs
    out of fuel; the only panic left open is that of the refund counter under
    Constantinople's net gas metering. *)
From S2P Require Import Prelude CommonMath Params Opcodes VmBase VmAnalysis VmInterface VmLaws Evm GasTable.
From stdpp Require Import base numbers list gmap.
From Stdlib Require Import ZArith Lia.
#[local] Open Scope Z_scope.

(** ** Memory *)

(** The total fee of [w] words, with the wrap-around of the source. *)
Definition mem_fee (w : Z) : Z := u64 (u64 (w * MemoryGas) + u64 (w * w) / QuadCoeffDiv).

Definition max_memory : Z := 0xffffffffe0.

Record mem_ok (mem : Memory) : Prop := {
  mo_words : mem_Len mem mod 32 = 0;
  mo_bound : mem_Len mem <= max_memory;
  mo_fee : lastGasCost mem = mem_fee (mem_Len mem / 32)
}.

(** The memory an instruction finds when [size] bytes were asked for. *)
Definition resized (mem : Memory) (size : Z) : Memory := if 0 <? size then mem_Resize mem size else mem.

(** The bytes from [off] to [off + len] are in the memory. *)
Definition covered (mem : Memory) (off len : Z) : Prop := len = 0 \/ off + len <= mem_Len mem.

Section invariant.
Context {S : Type} `{StateDB S} (env : Env S) `{!StateDBLaws S (crypto env)}.

(** ** Outcomes *)

(** Two codes with the same hash: the map of jump destinations is keyed by it. *)
Definition collision : Prop := exists c1 c2, c1 <> c2 /\ zlen c1 < 2 ^ 62 /\ zlen c2 < 2 ^ 62 /\
  Keccak256Hash (crypto env) c1 = Keccak256Hash (crypto env) c2.

(** Panics are left for the refund counter of Constantinople and for colliding
    code hashes. *)
Definition post {A} (o : outcome A) (Q : A -> Prop) : Prop :=
  match o with
  | Ok a => Q a
  | Panic => rules_IsConstantinople (chainRules env) = true \/ collision
  | OutOfFuel => False
  end.

Lemma post_mono {A} (o : outcome A) (P Q : A -> Prop) : post o P -> (forall a, P a -> Q a) -> post o Q.
Proof. destruct o; cbn; auto. Qed.

Lemma post_bind {A B} (o : outcome A) (k : A -> outcome B) (Q : B -> Prop) :
  post o (fun a => post (k a) Q) -> post (obind o k) Q.
Proof. by destruct o. Qed.

Lemma post_vbind {A B} (c : M S A) (k : A -> M S B) m (Q : B * machine S -> Prop) :
  post (c m) (fun r => post (k (fst r) (snd r)) Q) -> post (vbind c k m) Q.
Proof. unfold vbind. by destruct (c m) as [[a m']| |]. Qed.

(** ** Well-formed machines *)

(** The bounds on [keccak256] (32 bytes) are those the proofs need: they also
    admit an ideal hash without collisions. *)
Record env_ok : Prop := {
  env_CanTransfer : forall s a v, CanTransfer env s a v = kernel_CanTransfer s a v;
  env_Transfer : forall s a b v, Transfer env s a b v = kernel_Transfer s a b v;
  env_GetHash : forall n, 0 <= GetHash env n;
  env_Origin : is_address (Origin env);
  env_GasPrice : 0 <= GasPrice env;
  env_Coinbase : is_address (Coinbase env);
  env_keccak : forall d, 12 <= zlen (keccak256 (crypto env) d) < 2 ^ 62 + 12;
  env_sha256 : forall d, zlen (sha256 (crypto env) d) = 32;
  env_ripemd160 : forall d, zlen (ripemd160 (crypto env) d) = 20;
  env_marshal : forall p, zlen (G1_Marshal (crypto env) p) = 64;
  env_recover : forall h s p, secp256k1_recover (crypto env) h s = Some p -> 1 <= zlen p
}.

(** Static mode as it is enforced: from Byzantium on. *)
Definition static (e : EVM S) : bool := rules_IsByzantium (chainRules env) && readOnly e.

Definition jumpdests_ok (jd : gmap Hash bitvec) : Prop :=
  forall h bits, h <> 0 -> jd !! h = Some bits ->
    exists code, Keccak256Hash (crypto env) code = h /\ zlen code < 2 ^ 62 /\ bits = bitmap_of code.

Record evm_ok (e : EVM S) : Prop := {
  eo_state : state_ok (statedb e);
  eo_jumpdests : jumpdests_ok (jumpdests e)
}.

(** Gas below [2 ^ 62] keeps every size that can be paid for within [int64]. *)
Definition max_gas : Z := 2 ^ 62.

Record contract_ok (c : Contract) : Prop := {
  co_gas : 0 <= Gas c < max_gas;
  co_code : zlen (Code c) < 2 ^ 62;
  co_input : zlen (Input c) < 2 ^ 62;
  co_hash : CodeHash c <> 0 -> CodeHash c = Keccak256Hash (crypto env) (Code c);
  co_analysis : forall bits, analysis c = Some bits -> bits = bitmap_of (Code c);
  co_value : exists v, value c = Some v /\ 0 <= v;
  co_self : is_address (self c);
  co_caller : is_address (CallerAddress c)
}.

Lemma contract_cached e c : evm_ok e -> contract_ok c -> cached (jumpdests e) c \/ collision.
Proof.
  intros [_ Hj] Hc. destruct (jumpdests e !! CodeHash c) as [bits|] eqn:E.
  - destruct (decide (CodeHash c = 0)) as [H0|H0]; [left; split; [done|apply Hc]|].
    destruct (Hj _ _ H0 E) as (code & Hh & Hl & ->). destruct (decide (code = Code c)) as [->|Hne].
    + left. split; [|apply Hc]. rewrite E. by intros _ ? [= <-].
    + right. exists code, (Code c). rewrite Hh, <- (co_hash _ Hc H0). by repeat (split; [done || apply Hc|]).
  - left. split; [|apply Hc]. rewrite E. done.
Qed.

Record machine_ok (m : machine S) : Prop := {
  ok_evm : evm_ok (evm m);
  ok_contract : contract_ok (contract m);
  ok_memory : mem_ok (memory m);
  ok_stack : Forall (Z.le 0) (stack m);
  ok_depth : st_len (stack m) <= StackLimit;
  ok_pc : 0 <= pc m <= zlen (Code (contract m)) + 33
}.

(** ** What stays *)

(** Only the gas and the analysis of a running contract change. *)
Definition contract_same (c c' : Contract) : Prop :=
  Code c' = Code c /\ CodeHash c' = CodeHash c /\ self c' = self c /\ CallerAddress c' = CallerAddress c /\
  value c' = value c /\ Input c' = Input c.

Record evm_frame (e e' : EVM S) : Prop := {
  ef_evolves : evolves (static e) (statedb e) (statedb e');
  ef_depth : depth e' = depth e;
  ef_readOnly : readOnly e' = readOnly e
}.

Lemma static_frame e e' : evm_frame e e' -> static e' = static e.
Proof. intros [_ _ E]. unfold static. by rewrite E. Qed.

Lemma evm_frame_refl e : evm_frame e e.
Proof. split; auto with evolves. Qed.

Lemma evm_frame_trans e1 e2 e3 : evm_frame e1 e2 -> evm_frame e2 e3 -> evm_frame e1 e3.
Proof.
  intros F1 F2. split.
  - eapply ev_trans; [apply F1|]. rewrite <- (static_frame _ _ F1). apply F2.
  - rewrite (ef_depth _ _ F2). apply F1.
  - rewrite (ef_readOnly _ _ F2). apply F1.
Qed.

Lemma evm_frame_state e s : evolves (static e) (statedb e) s -> evm_frame e (set_statedb e s).
Proof. by split. Qed.

Lemma evm_ok_state e s ro : evm_ok e -> evolves ro (statedb e) s -> evm_ok (set_statedb e s).
Proof. intros [Hs Hj] He. split; [|done]. by eapply evolves_ok. Qed.

Lemma contract_same_refl c : contract_same c c.
Proof. by repeat split. Qed.

Lemma contract_same_trans c1 c2 c3 : contract_same c1 c2 -> contract_same c2 c3 -> contract_same c1 c3.
Proof. unfold contract_same. intuition congruence. Qed.

Lemma contract_ok_gas c g : contract_ok c -> 0 <= g < max_gas -> contract_ok (set_Gas c g).
Proof. intros [] Hg. by split. Qed.

End invariant.

Arguments env_CanTransfer {S H env} _.
Arguments env_Transfer {S H env} _.
Arguments env_GetHash {S H env} _.
Arguments env_Origin {S H env} _.
Arguments env_GasPrice {S H env} _.
Arguments env_Coinbase {S H env} _.
Arguments env_keccak {S H env} _.
Arguments env_sha256 {S H env} _.
Arguments env_ripemd160 {S H env} _.
Arguments env_marshal {S H env} _.
Arguments env_recover {S H env} _.
Arguments ok_evm {S H env StateDBLaws0 m} _.
Arguments ok_contract {S H env StateDBLaws0 m} _.
Arguments ok_memory {S H env StateDBLaws0 m} _.
Arguments ok_stack {S H env StateDBLaws0 m} _.
Arguments ok_depth {S H env StateDBLaws0 m} _.
Arguments ok_pc {S H env StateDBLaws0 m} _.
Arguments eo_state {S H env StateDBLaws0 e} _.
Arguments eo_jumpdests {S H env StateDBLaws0 e} _.
Arguments co_gas {S env c} _.
Arguments co_input {S env c} _.
Arguments co_code {S env c} _.
Arguments co_hash {S env c} _.
Arguments co_analysis {S env c} _.
Arguments co_value {S env c} _.
Arguments co_self {S env c} _.
Arguments co_caller {S env c} _.
Arguments ef_evolves {S H env e e'} _.
Arguments ef_depth {S H env e e'} _.
Arguments ef_readOnly {S H env e e'} _.

#[export] Hint Resolve evm_frame_refl contract_same_refl : core.
