(* ===== verification/GasFacts.v ===== *)
(** * Facts about gas

    Memory fees and the invariant of the memory, the costs of the gas functions,
    and the gas a call forwards. *)
From S2P Require Import Prelude CommonMath Params Opcodes VmBase VmInterface VmLaws Evm GasTable Interpreter.
From S2P Require Import VmInvariant.
From stdpp Require Import base numbers list gmap.
From Stdlib Require Import ZArith Lia.
#[local] Open Scope Z_scope.
#[local] Ltac Zify.zify_post_hook ::= Z.to_euclidean_division_equations.

(** ** Sizes *)

Lemma bigUint64_ok v r : 0 <= v -> checked (bigUint64 v) = Good r -> r = v /\ v <= MaxUint64.
Proof.
  unfold checked, bigUint64. cbn [fst snd]. intros Hv. destruct (Z.ltb_spec 64 (BitLen v)) as [|Hb]; [done|].
  intros [= <-]. apply BitLen_le in Hb; [|lia]. rewrite Z.abs_eq in Hb by done. unfold big_Uint64.
  rewrite Z.abs_eq, u64_small by (unfold is_u64, MaxUint64; lia). unfold MaxUint64. lia.
Qed.

Lemma toWordSize_ok size : 0 <= size <= MaxUint64 -> size <= 32 * toWordSize size /\ 0 <= toWordSize size <= MaxUint64 / 32 + 1.
Proof. unfold toWordSize, MaxUint64. intros. zdestruct; lia. Qed.

Lemma calcMemSize_nonneg o l : 0 <= o -> 0 <= l -> 0 <= calcMemSize o l.
Proof. unfold calcMemSize. intros. destruct (Sign l =? 0); lia. Qed.

Lemma memory_size_good sz size : 0 <= sz ->
  (let (memSize, overflow) := bigUint64 sz in
   if overflow then Err errGasUintOverflow else checked (SafeMul (toWordSize memSize) 32)) = Good size ->
  sz <= size /\ size mod 32 = 0 /\ 0 <= size <= MaxUint64.
Proof.
  intros Hsz. pose proof (bigUint64_ok sz) as Hb. unfold checked in *. destruct (bigUint64 sz) as [v ov]; cbn [fst snd] in *.
  destruct ov; [done|]. destruct (Hb v Hsz eq_refl) as [-> Hm]. intros Hs.
  pose proof (toWordSize_ok sz ltac:(lia)) as [H1 H2].
  destruct (SafeMul (toWordSize sz) 32) as [r ov] eqn:E; cbn [fst snd] in Hs. destruct ov; [done|]. injection Hs as ->.
  apply SafeMul_ok in E; [|unfold is_u64, MaxUint64 in *; lia..]. destruct E as [-> Hle]. unfold is_u64 in *. lia.
Qed.

(** ** Memory fees *)

Lemma mem_fee_range w : is_u64 (mem_fee w).
Proof. apply u64_range. Qed.

Lemma mem_Len_resize mem size : 0 <= size -> mem_Len (mem_Resize mem size) = Z.max (mem_Len mem) size.
Proof.
  intros Hs. unfold mem_Resize. destruct (Z.ltb_spec (mem_Len mem) size); [|lia].
  unfold mem_Len in *. cbn [store]. rewrite zlen_app. unfold zlen at 2. rewrite length_replicate. lia.
Qed.

Lemma mem_Len_resized mem size : 0 <= size -> mem_Len (resized mem size) = Z.max (mem_Len mem) size.
Proof.
  intros Hs. unfold resized. destruct (Z.ltb_spec 0 size); [by apply mem_Len_resize|].
  pose proof (zlen_nonneg (store mem)). unfold mem_Len. lia.
Qed.

Lemma lastGasCost_resized mem size : lastGasCost (resized mem size) = lastGasCost mem.
Proof. unfold resized, mem_Resize. by repeat case_match. Qed.

Lemma mem_Len_nonneg mem : 0 <= mem_Len mem.
Proof. apply zlen_nonneg. Qed.

Lemma resized_0 mem : resized mem 0 = mem.
Proof. done. Qed.

Lemma memoryGasCost_ok mem size fee mem' :
  mem_ok mem -> 0 <= size -> size mod 32 = 0 -> memoryGasCost mem size = Good (fee, mem') ->
  is_u64 fee /\ store mem' = store mem /\ mem_ok (resized mem' size).
Proof.
  intros [Hw Hb Hf] Hs Hm. pose proof (mem_Len_nonneg mem) as Hl. unfold memoryGasCost.
  destruct (Z.eqb_spec size 0) as [->|Hn]; [intros [= <- <-]; by rewrite resized_0|].
  destruct (Z.ltb_spec 0xffffffffe0 size) as [|Hmax]; [done|].
  assert (toWordSize size = size / 32) as -> by (unfold toWordSize, MaxUint64; zdestruct; lia).
  assert (u64 (size / 32 * 32) = size) as ->.
  { rewrite u64_small; unfold is_u64, MaxUint64; lia. }
  destruct (Z.ltb_spec (mem_Len mem) size) as [Hlt|Hge]; intros [= <- <-].
  - split; [apply u64_range|]. split; [done|].
    assert (forall c, mem_Len (resized {| store := store mem; lastGasCost := c |} size) = size) as El.
    { intros c. rewrite mem_Len_resized by done. unfold mem_Len in *. cbn. lia. }
    split; rewrite ?El; [done|unfold max_memory; lia|]. by rewrite lastGasCost_resized.
  - split; [done|]. split; [done|]. unfold resized, mem_Resize.
    destruct (Z.ltb_spec 0 size); [|by split]. destruct (Z.ltb_spec (mem_Len mem) size); [lia|by split].
Qed.

Section gas_facts.
Context {S : Type} `{StateDB S} (env : Env S) `{!StateDBLaws S (crypto env)}.
Local Abbreviation post := (post env).
Local Abbreviation machine_ok := (machine_ok env).

(** ** What a gas function may change *)

Record gas_frame (m m1 : machine S) : Prop := {
  gf_pc : pc m1 = pc m;
  gf_contract : contract m1 = contract m;
  gf_stack : stack m1 = stack m;
  gf_store : store (memory m1) = store (memory m);
  gf_evm : evm_frame env (evm m) (evm m1);
  gf_evm_ok : evm_ok env (evm m1)
}.

Definition gas_post (size low : Z) (m : machine S) (r : result vmerror Z * machine S) : Prop :=
  gas_frame m (snd r) /\
  match fst r with
  | Err _ => True
  | Good cost => low <= cost /\ is_u64 cost /\ mem_ok (resized (memory (snd r)) size)
  end.

(** [mem]: the operation has a memory size; [w]: it writes. *)
Definition gas_spec (g : gasFunc S) (mem w : bool) (low pops : Z) : Prop :=
  forall m size, machine_ok m -> pops <= st_len (stack m) -> 0 <= size -> size mod 32 = 0 ->
    (mem = false -> size = 0) -> (w = true -> static env (evm m) = false) ->
    post (g (gasTable env) size m) (gas_post size low m).

Lemma gas_frame_refl m : machine_ok m -> gas_frame m m.
Proof. intros Hm. split; try done. exact (ok_evm Hm). Qed.

Lemma gas_spec_pure (g : gasFunc S) w low pops :
  (forall m, machine_ok m -> pops <= st_len (stack m) ->
     exists c, g (gasTable env) 0 m = Ok (Good c, m) /\ low <= c /\ is_u64 c) ->
  gas_spec g false w low pops.
Proof.
  intros Hg m size Hm Hp _ _ Hs _. rewrite (Hs eq_refl). destruct (Hg m Hm Hp) as (c & -> & Hc & Hu). cbn.
  split; [by apply gas_frame_refl|]. split; [done|]. split; [done|]. rewrite resized_0. by apply ok_memory.
Qed.

Lemma constGasFunc_ok c w low pops : low <= c -> is_u64 c -> gas_spec (constGasFunc c) false w low pops.
Proof. intros Hc Hu. apply gas_spec_pure. intros m _ _. exists c. by split; [reflexivity|]. Qed.

Lemma memory_fee_ok m size : machine_ok m -> 0 <= size -> size mod 32 = 0 ->
  post (memory_fee size m) (gas_post size 0 m).
Proof.
  intros Hm Hs Hmod. unfold memory_fee.
  destruct (memoryGasCost (memory m) size) as [[fee mem]|e] eqn:E.
  - apply memoryGasCost_ok in E as (Hf & Hst & Hok); [|by apply ok_memory|done..].
    cbn. split; [|by split; [apply Hf|]]. split; try done. exact (ok_evm Hm).
  - cbn. split; [by apply gas_frame_refl|done].
Qed.

Lemma SafeAdd_checked a b c : is_u64 a -> is_u64 b -> checked (SafeAdd a b) = Good c -> c = a + b /\ is_u64 c.
Proof.
  unfold checked. destruct (SafeAdd a b) as [r ov] eqn:E. cbn [fst snd]. intros Ha Hb. destruct ov; [done|].
  intros [= ->]. by apply SafeAdd_ok in E.
Qed.

Lemma SafeMul_checked a b c : is_u64 a -> is_u64 b -> checked (SafeMul a b) = Good c -> c = a * b /\ is_u64 c.
Proof.
  unfold checked. destruct (SafeMul a b) as [r ov] eqn:E. cbn [fst snd]. intros Ha Hb. destruct ov; [done|].
  intros [= ->]. by apply SafeMul_ok in E.
Qed.

Lemma Back_ok m n : Forall (Z.le 0) (stack m) -> Z.of_nat n < st_len (stack m) ->
  exists x, stack m !! n = Some x /\ 0 <= x /\ Back (S:=S) n m = Ok (x, m).
Proof.
  intros Hst Hn. unfold st_len, zlen in Hn. destruct (lookup_lt_is_Some_2 (stack m) n ltac:(lia)) as [x Hx].
  exists x. split; [done|]. split; [by eapply Forall_lookup_1 in Hst|].
  unfold Back, st_Back. by rewrite Hx.
Qed.

(** A memory fee, and then a computation that only looks at the machine. *)
Lemma fee_then m size low (k : Z -> M S (result vmerror Z)) :
  machine_ok m -> 0 <= size -> size mod 32 = 0 ->
  (forall fee m1, is_u64 fee -> gas_frame m m1 ->
     exists r, k fee m1 = Ok (r, m1) /\ forall c, r = Good c -> low <= c /\ is_u64 c) ->
  post ((gas! x := memory_fee size in k x) m) (gas_post size low m).
Proof.
  intros Hm Hs Hmod Hk. apply post_vbind. eapply post_mono; [by apply memory_fee_ok|].
  intros [[fee|e] m1] [Hf Hr]; cbn [fst snd] in *; [|by split].
  destruct Hr as (_ & Hu & Hok). destruct (Hk fee m1 Hu Hf) as (r & -> & Hc). cbn.
  split; [done|]. cbn. destruct r as [c|]; [|done]. by destruct (Hc c eq_refl).
Qed.

Lemma gasCopy_ok fixed perWord n low pops :
  low <= fixed -> is_u64 fixed -> is_u64 perWord -> Z.of_nat n < pops ->
  gas_spec (fun _ size => gasCopy fixed perWord n (memory_fee size)) true false low pops.
Proof.
  intros Hlow Hfix Hpw Hn m size Hm Hp Hs Hmod _ _. unfold gasCopy. apply fee_then; [done..|].
  intros fee m1 Hfee Hf. cbv beta. unfold vbind at 1, vret at 1.
  destruct (checked (SafeAdd fee fixed)) as [g|e] eqn:E1; [|by eexists].
  apply SafeAdd_checked in E1 as [-> Hg]; [|done..].
  destruct (Back_ok m1 n) as (x & _ & Hx & Eb); [rewrite (gf_stack _ _ Hf); apply (ok_stack Hm)|rewrite (gf_stack _ _ Hf); lia|].
  unfold vbind at 1. rewrite Eb. unfold vbind at 1, vret at 1.
  destruct (checked (bigUint64 x)) as [w|e] eqn:E2; [|by eexists].
  apply bigUint64_ok in E2 as [-> Hw]; [|done]. unfold vbind at 1, vret at 1.
  destruct (checked (SafeMul (toWordSize x) perWord)) as [w|e] eqn:E3; [|by eexists].
  apply SafeMul_checked in E3 as [-> Hw3];
    [|pose proof (toWordSize_ok x ltac:(lia)); unfold is_u64, MaxUint64 in *; lia|done].
  eexists. split; [reflexivity|]. intros c Hc. apply SafeAdd_checked in Hc as [-> Hc]; [|done..].
  split; [|done]. unfold is_u64 in *. lia.
Qed.

Lemma gasTable_bounds : let gt := gasTable env in
  20 <= gt_ExtcodeSize gt <= 700 /\ 20 <= gt_ExtcodeCopy gt <= 700 /\ 0 <= gt_ExtcodeHash gt <= 400 /\
  20 <= gt_Balance gt <= 400 /\ 50 <= gt_SLoad gt <= 200 /\ 40 <= gt_Calls gt <= 700 /\
  0 <= gt_Suicide gt <= 5000 /\ 10 <= gt_ExpByte gt <= 50 /\ 0 <= gt_CreateBySuicide gt <= 25000 /\
  (IsConstantinople (chainConfig env) (BlockNumber env) = true -> gt_ExtcodeHash gt = 400).
Proof. unfold gasTable, ChainConfig_GasTable. repeat case_match; cbn; repeat split; try lia; done. Qed.

Lemma gasFixed_ok fixed low pops : low <= fixed -> is_u64 fixed ->
  gas_spec (fun _ size => gasFixed fixed size) true false low pops.
Proof.
  intros Hlow Hfix m size Hm Hp Hs Hmod _ _. unfold gasFixed. apply fee_then; [done..|].
  intros fee m1 Hfee Hf. eexists. split; [reflexivity|]. intros c Hc.
  apply SafeAdd_checked in Hc as [-> Hc]; [|done..]. split; [|done]. unfold is_u64 in *. lia.
Qed.

Lemma gasReturn_ok pops : gas_spec gasReturn true false 0 pops.
Proof. intros m size Hm Hp Hs Hmod _ _. by apply memory_fee_ok. Qed.

Lemma gasRevert_ok pops : gas_spec gasRevert true false 0 pops.
Proof. intros m size Hm Hp Hs Hmod _ _. by apply memory_fee_ok. Qed.

Lemma makeGasLog_ok n low pops : low <= 375 -> 0 <= n <= 4 -> 1 < pops -> gas_spec (makeGasLog n) true true low pops.
Proof.
  intros Hlow Hn Hpops m size Hm Hp Hs Hmod _ _. unfold makeGasLog.
  destruct (Back_ok m 1) as (x & _ & Hx & Eb); [apply (ok_stack Hm)|lia|].
  apply post_vbind. rewrite Eb. cbn [post VmInvariant.post fst snd].
  apply post_vbind. unfold vret at 1. cbn [VmInvariant.post fst snd].
  destruct (checked (bigUint64 x)) as [w|e] eqn:E2; [|split; [by apply gas_frame_refl|done]].
  apply bigUint64_ok in E2 as [-> Hw]; [|done]. apply fee_then; [done..|]. intros fee m1 Hfee Hf.
  assert (is_u64 LogGas /\ is_u64 (u64 (n * LogTopicGas)) /\ is_u64 LogDataGas) as (U1 & U2 & U3).
  { split; [done|]. split; [apply u64_range|done]. }
  unfold vbind at 1, vret at 1. destruct (checked (SafeAdd fee LogGas)) as [g|e] eqn:E1; [|by eexists].
  apply SafeAdd_checked in E1 as [-> Hg]; [|done..].
  unfold vbind at 1, vret at 1.
  destruct (checked (SafeAdd (fee + LogGas) (u64 (n * LogTopicGas)))) as [g|e] eqn:E3; [|by eexists].
  apply SafeAdd_checked in E3 as [-> Hg3]; [|done..].
  unfold vbind at 1, vret at 1. destruct (checked (SafeMul x LogDataGas)) as [d|e] eqn:E4; [|by eexists].
  apply SafeMul_checked in E4 as [-> Hg4]; [|unfold is_u64; lia|done].
  eexists. split; [reflexivity|]. intros c Hc. apply SafeAdd_checked in Hc as [-> Hc]; [|done..].
  split; [|done]. pose proof (u64_nonneg (n * LogTopicGas)). unfold is_u64, LogGas in *. lia.
Qed.

Lemma gasBalance_ok low pops : low <= 20 -> gas_spec gasBalance false false low pops.
Proof.
  intros Hlow. apply gas_spec_pure. intros m _ _. eexists. split; [reflexivity|].
  pose proof gasTable_bounds. unfold is_u64, MaxUint64. cbn in *. lia.
Qed.
Lemma gasExtCodeSize_ok low pops : low <= 20 -> gas_spec gasExtCodeSize false false low pops.
Proof.
  intros Hlow. apply gas_spec_pure. intros m _ _. eexists. split; [reflexivity|].
  pose proof gasTable_bounds. unfold is_u64, MaxUint64. cbn in *. lia.
Qed.
Lemma gasSLoad_ok low pops : low <= 50 -> gas_spec gasSLoad false false low pops.
Proof.
  intros Hlow. apply gas_spec_pure. intros m _ _. eexists. split; [reflexivity|].
  pose proof gasTable_bounds. unfold is_u64, MaxUint64. cbn in *. lia.
Qed.
Lemma gasExtCodeHash_ok low pops : IsConstantinople (chainConfig env) (BlockNumber env) = true ->
  low <= 400 -> gas_spec gasExtCodeHash false false low pops.
Proof.
  intros Hc Hlow. apply gas_spec_pure. intros m _ _. eexists. split; [reflexivity|].
  pose proof gasTable_bounds as Hb. cbn in Hb. destruct Hb as (_ & _ & _ & _ & _ & _ & _ & _ & _ & Hb).
  rewrite (Hb Hc). unfold is_u64, MaxUint64. lia.
Qed.

Lemma gasExp_ok low pops : low <= 10 -> 1 < pops -> gas_spec gasExp false false low pops.
Proof.
  intros Hlow Hpops m size Hm Hp _ _ Hs _. rewrite (Hs eq_refl). unfold gasExp.
  destruct (Back_ok m 1) as (x & _ & Hx & Eb); [apply (ok_stack Hm)|lia|].
  apply post_vbind. rewrite Eb. cbn [post VmInvariant.post fst snd vret].
  split; [by apply gas_frame_refl|]. cbn [fst snd].
  destruct (checked _) as [c|] eqn:E; [|done]. apply SafeAdd_checked in E as [-> Hc]; [|apply u64_range|done].
  split; [|split; [done|rewrite resized_0; apply (ok_memory Hm)]].
  pose proof (u64_nonneg (u64 ((BitLen x + 7) / 8) * gt_ExpByte (gasTable env))). unfold GasSlowStep. lia.
Qed.

(** ** Gas functions that move the refund counter *)

Lemma refund_frame m s' : machine_ok m -> evolves (static env (evm m)) (statedb (evm m)) s' ->
  gas_frame m (mkMachine (pc m) (set_statedb (evm m) s') (contract m) (memory m) (stack m)).
Proof.
  intros Hm He. split; try done. eapply evm_ok_state; [apply (ok_evm Hm)|done].
Qed.

(** A fixed cost after a change of the refund counter. *)
Lemma refund_then m (c : M S unit) low cost :
  machine_ok m -> low <= cost -> is_u64 cost ->
  post (c m) (fun r => gas_frame m (snd r) /\ memory (snd r) = memory m) ->
  post ((seq! c in vret (Good cost)) m) (gas_post 0 low m).
Proof.
  intros Hm Hlow Hu Hc. apply post_vbind. eapply post_mono; [exact Hc|].
  intros [[] m1] [Hf Hmem]; cbn in *. split; [done|]. cbn. rewrite Hmem.
  split; [done|]. split; [done|]. apply (ok_memory Hm).
Qed.

Lemma add_refund_ok m g : machine_ok m -> is_u64 g -> static env (evm m) = false ->
  post (add_refund g m) (fun r => gas_frame m (snd r) /\ memory (snd r) = memory m).
Proof.
  intros Hm Hg Hs. cbn. split; [|done]. apply refund_frame; [done|]. by apply ev_refund.
Qed.

Lemma skip_ok m : machine_ok m -> post (vret (S:=S) tt m) (fun r => gas_frame m (snd r) /\ memory (snd r) = memory m).
Proof. intros Hm. cbn. split; [by apply gas_frame_refl|done]. Qed.
Lemma gas_frame_trans m1 m2 m3 : gas_frame m1 m2 -> gas_frame m2 m3 -> gas_frame m1 m3.
Proof.
  intros F1 F2. split.
  - rewrite (gf_pc _ _ F2). apply F1.
  - rewrite (gf_contract _ _ F2). apply F1.
  - rewrite (gf_stack _ _ F2). apply F1.
  - rewrite (gf_store _ _ F2). apply F1.
  - eapply evm_frame_trans; [apply F1|apply F2].
  - apply F2.
Qed.

Lemma gas_frame_ok m m1 : machine_ok m -> gas_frame m m1 -> memory m1 = memory m -> machine_ok m1.
Proof.
  intros [] [] Em. split; try done; congruence.
Qed.

Lemma gasSStore_net_ok m current original value :
  machine_ok m -> static env (evm m) = false -> rules_IsConstantinople (chainRules env) = true ->
  post (gasSStore_net current original value m) (gas_post 0 200 m).
Proof.
  intros Hm Hs Hc. unfold gasSStore_net.
  assert (forall c, 200 <= c <= 20000 -> post (vret (S:=S) (Good c) m) (gas_post 0 200 m)) as Hret.
  { intros c Hr. cbn. split; [by apply gas_frame_refl|]. cbn. split; [lia|].
    split; [unfold is_u64, MaxUint64; lia|apply (ok_memory Hm)]. }
  destruct (current =? value); [apply Hret; unfold NetSstoreNoopGas; lia|].
  destruct (original =? current).
  { destruct (original =? 0); [apply Hret; unfold NetSstoreInitGas; lia|].
    apply refund_then; [done..|]. destruct (value =? 0); [|by apply skip_ok]. by apply add_refund_ok. }
  apply post_vbind.
  assert (forall m1, machine_ok m1 -> static env (evm m1) = false ->
    post (sub_refund NetSstoreClearRefund m1) (fun r => gas_frame m1 (snd r) /\ memory (snd r) = memory m1)) as Hsub.
  { intros m1 Hm1 Hs1. unfold sub_refund.
    destruct (subrefund_cases (statedb (evm m1)) NetSstoreClearRefund) as [->|[s' E]]; [by left|]. rewrite E. cbn.
    split; [|done]. apply refund_frame; [done|]. by apply (ev_unrefund _ _ _ NetSstoreClearRefund). }
  assert (post ((if negb (original =? 0)
     then if current =? 0 then sub_refund NetSstoreClearRefund
          else if value =? 0 then add_refund NetSstoreClearRefund else vret tt
     else vret tt) m) (fun r => gas_frame m (snd r) /\ memory (snd r) = memory m)) as H1.
  { repeat case_match; first [by apply Hsub | by apply add_refund_ok | by apply skip_ok]. }
  eapply post_mono; [exact H1|]. intros [[] m1] [Hf1 Hmem1]; cbn [fst snd] in *.
  assert (machine_ok m1) as Hm1 by by eapply gas_frame_ok.
  assert (static env (evm m1) = false) as Hs1 by (rewrite (static_frame _ _ _ (gf_evm _ _ Hf1)); done).
  eapply post_mono; [apply (refund_then m1 _ 200); [done..|]|].
  { repeat case_match; first [by apply add_refund_ok | by apply skip_ok]. }
  intros [r m2] [Hf2 Hr]; cbn [fst snd] in *. split; [by eapply gas_frame_trans|done].
Qed.

Lemma gasSStore_ok pops : 1 < pops -> gas_spec (gasSStore env) false true 1 pops.
Proof.
  intros Hpops m size Hm Hp _ _ Hsz Hw. rewrite (Hsz eq_refl). specialize (Hw eq_refl). unfold gasSStore.
  destruct (Back_ok m 1) as (y & _ & Hy & Eb); [apply (ok_stack Hm)|lia|].
  apply post_vbind. rewrite Eb. cbn [VmInvariant.post fst snd].
  destruct (Back_ok m 0) as (x & _ & Hx & Eb'); [apply (ok_stack Hm)|lia|].
  apply post_vbind. rewrite Eb'. cbn [VmInvariant.post fst snd].
  apply post_vbind. cbn [gets VmInvariant.post fst snd]. apply post_vbind. cbn [gets VmInvariant.post fst snd].
  assert (forall c, 1 <= c <= 20000 -> post (vret (S:=S) (Good c) m) (gas_post 0 1 m)) as Hret.
  { intros c Hr. cbn. split; [by apply gas_frame_refl|]. cbn. split; [lia|].
    split; [unfold is_u64, MaxUint64; lia|apply (ok_memory Hm)]. }
  destruct (rules_IsConstantinople (chainRules env)) eqn:Ec; cbn [negb].
  - eapply post_mono; [by apply gasSStore_net_ok|]. intros [r m1] [Hf Hr]. split; [done|].
    destruct (fst _); [|done]. intuition lia.
  - destruct (_ && _); [apply Hret; unfold SstoreSetGas; lia|].
    destruct (_ && _); [|apply Hret; unfold SstoreResetGas; lia].
    apply refund_then; [done..|]. by apply add_refund_ok.
Qed.

Lemma gasSuicide_ok pops : 0 < pops -> gas_spec (gasSuicide env) false true 0 pops.
Proof.
  intros Hpops m size Hm Hp _ _ Hsz Hw. rewrite (Hsz eq_refl). specialize (Hw eq_refl). unfold gasSuicide.
  destruct (Back_ok m 0) as (x & _ & Hx & Eb); [apply (ok_stack Hm)|lia|].
  apply post_vbind. cbn [gets VmInvariant.post fst snd]. apply post_vbind. cbn [gets VmInvariant.post fst snd].
  apply post_vbind.
  match goal with |- VmInvariant.post _ (?c m) _ =>
    assert (exists g, c m = Ok (g, m) /\ is_u64 g) as (g & -> & Hg) end.
  { pose proof gasTable_bounds as Hb. cbn in Hb. destruct (IsEIP150 _ _); [|by exists 0].
    unfold vbind. rewrite Eb. eexists. split; [reflexivity|].
    repeat case_match; try apply u64_range; unfold is_u64, MaxUint64; lia. }
  cbn [VmInvariant.post fst snd]. apply refund_then; [done|apply Hg|done|].
  case_match; first [by apply add_refund_ok | by apply skip_ok].
Qed.

(** ** Calls *)

(** The cost of a call covers the gas it forwards and [base] more. *)
Definition call_post (size base : Z) (m : machine S) (r : result vmerror Z * machine S) : Prop :=
  gas_frame m (snd r) /\
  match fst r with
  | Err _ => True
  | Good cost => is_u64 cost /\ mem_ok (resized (memory (snd r)) size) /\
      0 <= callGasTemp (evm (snd r)) /\ callGasTemp (evm (snd r)) + base <= cost
  end.

Lemma callGas_range gt available base callCost g : callGas gt available base callCost = Good g -> is_u64 g.
Proof.
  unfold callGas, big_Uint64. repeat case_match; intros [= <-]; apply u64_range.
Qed.

Lemma forward_ok gt gas m : is_u64 gas -> Forall (Z.le 0) (stack m) -> 0 < st_len (stack m) -> evm_ok env (evm m) ->
  exists r m1, forward gt gas m = Ok (r, m1) /\ gas_frame m m1 /\ memory m1 = memory m /\
    forall cost, r = Good cost ->
      is_u64 cost /\ 0 <= callGasTemp (evm m1) /\ cost = gas + callGasTemp (evm m1).
Proof.
  intros Hg Hst Hl He. unfold forward. destruct (Back_ok m 0) as (x & _ & Hx & Eb); [done|lia|].
  unfold vbind at 1. rewrite Eb. unfold vbind at 1, gets at 1. unfold vbind at 1, gets at 1.
  assert (forall t, gas_frame m (mkMachine (pc m) (set_callGasTemp (evm m) t) (contract m) (memory m) (stack m))) as Hf.
  { intros t. split; try done; [by split; [apply ev_refl|..]|by destruct He]. }
  destruct (callGas gt (Gas (contract m)) gas x) as [t|e] eqn:E; cbn.
  - eexists _, _. split; [reflexivity|]. split; [apply Hf|]. split; [done|]. intros cost Hc.
    apply callGas_range in E. apply SafeAdd_checked in Hc as [-> Hc]; [|done..]. cbn. split; [done|]. split; [apply E|done].
  - eexists _, _. split; [reflexivity|]. split; [apply Hf|]. done.
Qed.

Lemma fee_forward m size base (f : Z -> result vmerror Z) :
  machine_ok m -> 0 < st_len (stack m) -> 0 <= size -> size mod 32 = 0 ->
  (forall fee g, is_u64 fee -> f fee = Good g -> is_u64 g /\ base <= g) ->
  post ((gas! fee := memory_fee size in gas! gas := vret (f fee) in forward (gasTable env) gas) m) (call_post size base m).
Proof.
  intros Hm Hl Hs Hmod Hfb. apply post_vbind. eapply post_mono; [by apply memory_fee_ok|].
  intros [[fee|e] m1] [Hf Hr]; cbn [fst snd] in *; [|by split].
  destruct Hr as (_ & Hu & Hok). unfold vbind, vret. destruct (f fee) as [g|e] eqn:E; [|by split].
  destruct (Hfb fee g Hu E) as [Hg Hbase].
  destruct (forward_ok (gasTable env) g m1) as (r & m2 & -> & Hf2 & Hmem & Hr);
    [done|rewrite (gf_stack _ _ Hf); apply (ok_stack Hm)|by rewrite (gf_stack _ _ Hf)|apply (gf_evm_ok _ _ Hf)|].
  cbn. split; [by eapply gas_frame_trans|]. cbn. destruct r as [cost|]; [|done].
  destruct (Hr cost eq_refl) as (Hc & Ht & ->). rewrite Hmem. split; [done|]. split; [done|]. split; [done|lia].
Qed.

(** The part of a call's cost that does not depend on memory and forwarding. *)
Definition call_base (st : Stack) : Z :=
  if default 0 (st !! 2%nat) =? 0 then 40 else CallValueTransferGas.

Lemma Sign_eqb x : (Sign x =? 0) = (x =? 0).
Proof. unfold Sign. zdestruct; lia. Qed.

Lemma call_base_sums : let c := gt_Calls (gasTable env) in
  u64 (c + CallNewAccountGas) = c + CallNewAccountGas /\
  u64 (c + CallNewAccountGas + CallValueTransferGas) = c + CallNewAccountGas + CallValueTransferGas /\
  u64 (c + CallValueTransferGas) = c + CallValueTransferGas.
Proof.
  pose proof gasTable_bounds as Hb. cbn in *. rewrite !u64_small; [done|..];
    unfold is_u64, MaxUint64, CallNewAccountGas, CallValueTransferGas; lia.
Qed.

Lemma gasCall_ok m size : machine_ok m -> 7 <= st_len (stack m) -> 0 <= size -> size mod 32 = 0 ->
  post (gasCall env (gasTable env) size m) (call_post size (call_base (stack m)) m).
Proof.
  intros Hm Hl Hs Hmod. unfold gasCall.
  destruct (Back_ok m 2) as (v & Ev & Hv & Eb); [apply (ok_stack Hm)|lia|].
  apply post_vbind. rewrite Eb. cbn [VmInvariant.post fst snd].
  destruct (Back_ok m 1) as (to & _ & Hto & Eb'); [apply (ok_stack Hm)|lia|].
  apply post_vbind. rewrite Eb'. cbn [VmInvariant.post fst snd].
  apply post_vbind. cbn [gets VmInvariant.post fst snd].
  apply fee_forward; [done|lia|done..|]. intros fee g Hfee Hg.
  pose proof gasTable_bounds as Hb. cbn in Hb. unfold call_base. rewrite Ev, Sign_eqb in *.
  change (default 0 (Some v)) with v.
  destruct call_base_sums as (E1 & E2 & E3).
  apply SafeAdd_checked in Hg as [-> Hg]; [split; [done|]| |done]; clear Hg;
    repeat case_match; cbn [negb andb] in *; try discriminate; rewrite ?E1, ?E2, ?E3;
    unfold is_u64, MaxUint64, CallNewAccountGas, CallValueTransferGas in *; lia.
Qed.

Lemma gasCallCode_ok m size : machine_ok m -> 7 <= st_len (stack m) -> 0 <= size -> size mod 32 = 0 ->
  post (gasCallCode (gasTable env) size m) (call_post size (call_base (stack m)) m).
Proof.
  intros Hm Hl Hs Hmod. unfold gasCallCode.
  destruct (Back_ok m 2) as (v & Ev & Hv & Eb); [apply (ok_stack Hm)|lia|].
  apply post_vbind. rewrite Eb. cbn [VmInvariant.post fst snd].
  apply fee_forward; [done|lia|done..|]. intros fee g Hfee Hg.
  pose proof gasTable_bounds as Hb. cbn in Hb. unfold call_base. rewrite Ev, Sign_eqb in *.
  change (default 0 (Some v)) with v.
  destruct call_base_sums as (E1 & E2 & E3).
  apply SafeAdd_checked in Hg as [-> Hg]; [split; [done|]| |done]; clear Hg;
    repeat case_match; cbn [negb andb] in *; try discriminate; rewrite ?E1, ?E2, ?E3;
    unfold is_u64, MaxUint64, CallNewAccountGas, CallValueTransferGas in *; lia.
Qed.

Lemma gasDelegateCall_ok m size : machine_ok m -> 6 <= st_len (stack m) -> 0 <= size -> size mod 32 = 0 ->
  post (gasDelegateCall (gasTable env) size m) (call_post size 40 m).
Proof.
  intros Hm Hl Hs Hmod. unfold gasDelegateCall. apply (fee_forward m size 40 (fun fee => checked (SafeAdd fee (gt_Calls (gasTable env))))); [done|lia|done..|].
  intros fee g Hfee Hg. pose proof gasTable_bounds as Hb. cbn in Hb.
  apply SafeAdd_checked in Hg as [-> Hg]; [|done|]; unfold is_u64, MaxUint64 in *; lia.
Qed.

Lemma gasStaticCall_ok m size : machine_ok m -> 6 <= st_len (stack m) -> 0 <= size -> size mod 32 = 0 ->
  post (gasStaticCall (gasTable env) size m) (call_post size 40 m).
Proof. apply gasDelegateCall_ok. Qed.
End gas_facts.
