(* ===== verification/ExecFacts.v ===== *)
(** * Instruction bodies keep the invariant

    Every instruction body, run on a machine whose stack and memory were checked
    by the interpreter, returns without a panic, leaves the stack with the height
    its table entry promises, and changes the world state only in the ways that
    [evolves] allows in the current mode. *)
From S2P Require Import Prelude CommonMath Params Opcodes VmBase VmAnalysis VmInterface VmLaws Precompiles Evm.
From S2P Require Import GasTable Instructions Interpreter VmInvariant GasFacts.
From stdpp Require Import base numbers list gmap.
From Stdlib Require Import ZArith Lia.
#[local] Open Scope Z_scope.

(** ** Memory accesses that are covered *)

Lemma big_Int64_small x : 0 <= x < 2 ^ 63 -> big_Int64 x = x.
Proof.
  intros Hx. unfold big_Int64. destruct (Z.ltb_spec x 0); [lia|]. rewrite Z.abs_eq by lia. apply s64_small. lia.
Qed.

Lemma big_Uint64_small x : 0 <= x < 2 ^ 64 -> big_Uint64 x = x.
Proof. intros Hx. unfold big_Uint64. rewrite Z.abs_eq, u64_small; unfold is_u64, MaxUint64; lia. Qed.

Lemma slice_ok {A} (l : list A) lo hi : 0 <= lo <= hi -> hi <= zlen l ->
  slice l lo hi = Ok (take (Z.to_nat (hi - lo)) (drop (Z.to_nat lo) l)).
Proof. intros. unfold slice. zdestruct; try lia. done. Qed.

Lemma zlen_slice {A} (l : list A) lo hi : 0 <= lo <= hi -> hi <= zlen l ->
  zlen (take (Z.to_nat (hi - lo)) (drop (Z.to_nat lo) l)) = hi - lo.
Proof. unfold zlen. intros. rewrite length_take, length_drop. lia. Qed.

Lemma mem_Get_ok mem off len : mem_ok mem -> 0 <= off -> 0 <= len -> covered mem off len ->
  mem_Get mem (big_Int64 off) (big_Int64 len) = Ok (take (Z.to_nat len) (drop (Z.to_nat off) (store mem))).
Proof.
  intros [_ Hb _] Ho Hl [->|Hc]; [done|]. unfold max_memory in Hb.
  rewrite !big_Int64_small by lia. unfold mem_Get, mem_Len in *.
  destruct (Z.eqb_spec len 0) as [->|Hn]; [by rewrite take_0|]. zdestruct; try lia.
  rewrite s64_small, slice_ok by lia. do 3 f_equal. lia.
Qed.

Lemma mem_GetPtr_ok mem off len : mem_ok mem -> 0 <= off -> 0 <= len -> covered mem off len ->
  mem_GetPtr mem (big_Int64 off) (big_Int64 len) = Ok (take (Z.to_nat len) (drop (Z.to_nat off) (store mem))).
Proof.
  intros [_ Hb _] Ho Hl [->|Hc]; [done|]. unfold max_memory in Hb.
  rewrite !big_Int64_small by lia. unfold mem_GetPtr, mem_Len in *.
  destruct (Z.eqb_spec len 0) as [->|Hn]; [by rewrite take_0|]. zdestruct; try lia.
  rewrite s64_small, slice_ok by lia. do 3 f_equal. lia.
Qed.

Lemma zlen_mem_slice mem off len : mem_ok mem -> zlen (take (Z.to_nat len) (drop (Z.to_nat off) (store mem))) < 2 ^ 62.
Proof.
  intros [_ Hb _]. unfold mem_Len, max_memory, zlen in *. rewrite length_take, length_drop. lia.
Qed.

Lemma length_copy_at l off n v : (off + n <= length l)%nat -> length (copy_at l off n v) = length l.
Proof. intros H. unfold copy_at. rewrite !length_app, !length_take, length_drop. lia. Qed.

Lemma mem_ok_same mem st : mem_ok mem -> length st = length (store mem) ->
  mem_ok {| store := st; lastGasCost := lastGasCost mem |}.
Proof. intros [] E. split; unfold mem_Len, zlen in *; cbn; by rewrite E. Qed.

Lemma mem_Set_ok mem off len v : mem_ok mem -> 0 <= off -> 0 <= len -> covered mem off len ->
  exists mem', mem_Set mem (big_Uint64 off) (big_Uint64 len) v = Ok mem' /\ mem_ok mem' /\ mem_Len mem' = mem_Len mem.
Proof.
  intros Hm Ho Hl Hc. unfold mem_Set. destruct Hc as [->|Hc]; [by exists mem|].
  pose proof (mo_bound _ Hm) as Hb. unfold max_memory in Hb. rewrite !big_Uint64_small by lia.
  rewrite u64_small by (unfold is_u64, MaxUint64; lia).
  destruct (Z.ltb_spec 0 len); [|by exists mem]. zdestruct; try lia.
  unfold mem_Len, zlen in *. eexists. split; [done|].
  assert (length (copy_at (store mem) (Z.to_nat off) (Z.to_nat len) v) = length (store mem)) as E by (apply length_copy_at; lia).
  split; [by apply mem_ok_same|]. cbn [store]. by rewrite E.
Qed.

Lemma mem_Set32_ok mem off v : mem_ok mem -> 0 <= off -> off + 32 <= mem_Len mem ->
  exists mem', mem_Set32 mem (big_Uint64 off) v = Ok mem' /\ mem_ok mem' /\ mem_Len mem' = mem_Len mem.
Proof.
  intros Hm Ho Hc. unfold mem_Set32. pose proof (mo_bound _ Hm) as Hb. unfold max_memory in Hb.
  rewrite !big_Uint64_small by lia. rewrite u64_small by (unfold is_u64, MaxUint64; lia). zdestruct; try lia.
  unfold mem_Len, zlen in *. eexists. split; [done|].
  assert (length (copy_at (store mem) (Z.to_nat off) 32 (ReadBits v (replicate 32 Byte.x00))) = length (store mem)) as E
    by (apply length_copy_at; lia).
  split; [by apply mem_ok_same|]. cbn [store]. by rewrite E.
Qed.

Lemma getDataBig_ok data start size : 0 <= start -> 0 <= size -> zlen data < 2 ^ 62 ->
  exists d, getDataBig data start size = Ok d.
Proof.
  intros Hs Hz Hd. unfold getDataBig, BigMin. pose proof (zlen_nonneg data).
  destruct (Z.ltb_spec (zlen data) start).
  - destruct (Z.ltb_spec (zlen data) (zlen data + size));
      rewrite !big_Uint64_small, slice_ok by lia; by eexists.
  - destruct (Z.ltb_spec (zlen data) (start + size)).
    + rewrite !big_Uint64_small with (x := start), big_Uint64_small with (x := zlen data), slice_ok by lia. by eexists.
    + rewrite !big_Uint64_small with (x := start), big_Uint64_small with (x := start + size), slice_ok by lia. by eexists.
Qed.

Lemma memoryAt_covered off len st mem o l : st !! off = Some o -> st !! len = Some l ->
  (forall sz, memoryAt off len st = Ok sz -> sz <= mem_Len mem) -> covered mem o l.
Proof.
  intros Eo El Hc. unfold memoryAt, st_Back, calcMemSize in Hc. rewrite Eo, El in Hc. cbn in Hc.
  rewrite Sign_eqb in Hc. specialize (Hc _ eq_refl). unfold covered.
  destruct (Z.eqb_spec l 0); [by left|right]. lia.
Qed.

Section exec_facts.
Context {S : Type} `{StateDB S} (env : Env S) `{!StateDBLaws S (crypto env)}.
Context (Henv : env_ok env).
Local Abbreviation post := (post env).
Local Abbreviation machine_ok := (machine_ok env).

(** ** What an instruction body may change *)

Record exec_post (pops pushes : Z) (m : machine S) (r : opresult * machine S) : Prop := {
  xp_evm : evm_ok env (evm (snd r));
  xp_contract : contract_ok env (contract (snd r));
  xp_same : contract_same (contract m) (contract (snd r));
  xp_memory : mem_ok (memory (snd r));
  xp_stack : Forall (Z.le 0) (stack (snd r));
  xp_height : st_len (stack (snd r)) = st_len (stack m) - pops + pushes;
  xp_frame : evm_frame env (evm m) (evm (snd r));
  xp_pc : pc (snd r) = pc m \/ 0 <= pc (snd r) <= zlen (Code (contract m)) + 32;
  xp_data : zlen (fst (fst r)) < 2 ^ 62
}.

(** The interpreter has checked the stack, charged the gas and sized the memory. *)
Definition exec_spec (ex : executionFunc S) (mf : option memorySizeFunc) (w : bool) (pops pushes : Z) : Prop :=
  forall m, machine_ok m -> pops <= st_len (stack m) -> pc m < zlen (Code (contract m)) ->
    (forall f sz, mf = Some f -> f (stack m) = Ok sz -> sz <= mem_Len (memory m)) ->
    (w = true -> static env (evm m) = false) ->
    post (ex m) (fun r => exec_post pops pushes m r /\ Gas (contract (snd r)) = Gas (contract m)).

Lemma st_len_cons x (st : Stack) : st_len (x :: st) = 1 + st_len st.
Proof. apply zlen_cons. Qed.
Lemma st_len_nonneg (st : Stack) : 0 <= st_len st.
Proof. apply zlen_nonneg. Qed.

(** Open the machine and the top of its stack. *)
Tactic Notation "open_machine" integer(n) :=
  let m := fresh "m" in
  intros m Hm Hp Hpc Hcov Hw; pose proof (ok_evm Hm) as Hevm; pose proof (ok_contract Hm) as Hcon;
  pose proof (ok_memory Hm) as Hmem; pose proof (ok_stack Hm) as Hst; pose proof (ok_pc Hm) as Hpc0;
  destruct m as [p e c mem st]; cbn [pc evm contract memory stack] in *;
  do n (let x := fresh "x" in destruct st as [|x st];
        [exfalso; revert Hp; unfold st_len, zlen; cbn; lia
        |let Hx := fresh "Hx" in apply Forall_cons in Hst as [Hx Hst]]).

(** Run the monad on an open machine. *)
Ltac run_machine :=
  cbn [vbind vret lift gets put_pc put_evm put_contract put_memory put_stack put_statedb push pop peek set_top
       st_pop st_peek st_Back st_push lookup list_lookup fst snd pc evm contract memory stack nil_nil VmInvariant.post
       binop binop_push push1].

Ltac close_machine :=
  split; [constructor; cbn [fst snd pc evm contract memory stack];
    rewrite ?st_len_cons in *; repeat apply Forall_cons_2; eauto using st_len_nonneg; try exact eq_refl; try lia|done].

Lemma binop_ok f w : (forall x y, 0 <= x -> 0 <= y -> 0 <= f x y) -> exec_spec (binop f) None w 2 1.
Proof. intros Hf. open_machine 2. run_machine. close_machine. Qed.


Lemma binop_push_ok f w : (forall x y, 0 <= x -> 0 <= y -> 0 <= f x y) -> exec_spec (binop_push f) None w 2 1.
Proof. intros Hf. open_machine 2. run_machine. close_machine. Qed.

Lemma push1_ok f w : (forall m, machine_ok m -> 0 <= f m) -> exec_spec (push1 f) None w 0 1.
Proof. intros Hf. open_machine 0. pose proof (Hf _ Hm). run_machine. close_machine. Qed.

(** ** Arithmetic *)

Lemma U256_nonneg x : 0 <= U256 x.
Proof. apply U256_word. Qed.
Lemma z_of_bool_nonneg b : 0 <= z_of_bool b.
Proof. by destruct b. Qed.

#[local] Hint Resolve U256_nonneg z_of_bool_nonneg : core.

Ltac nonneg := intros; unfold sdiv, smod, slt, sgt, sar in *; cbv zeta; repeat case_match; auto; try lia.

Lemma opAdd_ok : exec_spec opAdd None false 2 1.
Proof. apply binop_ok. nonneg. Qed.
Lemma opSub_ok : exec_spec opSub None false 2 1.
Proof. apply binop_ok. nonneg. Qed.
Lemma opMul_ok : exec_spec opMul None false 2 1.
Proof. apply binop_push_ok. nonneg. Qed.
Lemma opDiv_ok : exec_spec opDiv None false 2 1.
Proof. apply binop_ok. nonneg. Qed.
Lemma opSdiv_ok : exec_spec opSdiv None false 2 1.
Proof. apply binop_push_ok. nonneg. Qed.
Lemma opMod_ok : exec_spec opMod None false 2 1.
Proof. apply binop_push_ok. nonneg. Qed.
Lemma opSmod_ok : exec_spec opSmod None false 2 1.
Proof. apply binop_push_ok. nonneg. Qed.
Lemma opExp_ok : exec_spec opExp None false 2 1.
Proof.
  apply binop_push_ok. intros x y Hx Hy. unfold exp_. repeat case_match; try lia. apply Exp_word_range.
Qed.
Lemma opNot_ok : exec_spec opNot None false 1 1.
Proof. open_machine 1. run_machine. close_machine. Qed.
Lemma opLt_ok : exec_spec opLt None false 2 1.
Proof. apply binop_ok. nonneg. Qed.
Lemma opGt_ok : exec_spec opGt None false 2 1.
Proof. apply binop_ok. nonneg. Qed.
Lemma opSlt_ok : exec_spec opSlt None false 2 1.
Proof. apply binop_ok. nonneg. Qed.
Lemma opSgt_ok : exec_spec opSgt None false 2 1.
Proof. apply binop_ok. nonneg. Qed.
Lemma opEq_ok : exec_spec opEq None false 2 1.
Proof. apply binop_ok. nonneg. Qed.
Lemma opIszero_ok : exec_spec opIszero None false 1 1.
Proof. open_machine 1. run_machine. close_machine. Qed.
Lemma opAnd_ok : exec_spec opAnd None false 2 1.
Proof. apply binop_push_ok. intros x y Hx Hy. apply Z.land_nonneg. by left. Qed.
Lemma opOr_ok : exec_spec opOr None false 2 1.
Proof. apply binop_ok. intros x y Hx Hy. by apply Z.lor_nonneg. Qed.
Lemma opXor_ok : exec_spec opXor None false 2 1.
Proof. apply binop_ok. intros x y Hx Hy. by apply Z.lxor_nonneg. Qed.
Lemma opByte_ok : exec_spec opByte None false 2 1.
Proof. apply binop_ok. intros x y Hx Hy. case_match; [apply b2z_range|lia]. Qed.
Lemma opAddmod_ok : exec_spec opAddmod None false 3 1.
Proof. unfold opAddmod. open_machine 3. run_machine. case_match; close_machine. Qed.
Lemma opMulmod_ok : exec_spec opMulmod None false 3 1.
Proof. unfold opMulmod. open_machine 3. run_machine. case_match; close_machine. Qed.
Lemma opSHL_ok : exec_spec opSHL None false 2 1.
Proof. apply binop_ok. nonneg. Qed.
Lemma opSHR_ok : exec_spec opSHR None false 2 1.
Proof. apply binop_ok. nonneg. Qed.
Lemma opSAR_ok : exec_spec opSAR None false 2 1.
Proof. apply binop_push_ok. nonneg. Qed.
Lemma opSignExtend_ok : exec_spec opSignExtend None false 2 1.
Proof.
  unfold opSignExtend. open_machine 2. run_machine. case_match; run_machine; close_machine.
  unfold signextend. auto.
Qed.

(** ** Hashing and the environment *)

(** The facts about a machine after a change of the world state. *)
Lemma state_change e s : evm_ok env e -> evolves (static env e) (statedb e) s ->
  evm_ok env (set_statedb e s) /\ evm_frame env e (set_statedb e s).
Proof. intros He Hs. split; [by eapply evm_ok_state|by apply evm_frame_state]. Qed.

Tactic Notation "new_state" tactic3(tac) :=
  match goal with
  | |- context [set_statedb ?e ?s] =>
      let H1 := fresh "Hevm" in let H2 := fresh "Hframe" in
      destruct (state_change e s) as [H1 H2]; [done|tac|]
  end.

(** The memory range named by stack items [a] and [b] is covered. *)
Ltac cover Hcov a b :=
  match goal with
  | Hm : VmInvariant.machine_ok _ (mkMachine _ _ _ _ ?stk) |- covered _ _ _ =>
      apply (memoryAt_covered a b stk); [reflexivity|reflexivity|intros sz; apply (Hcov _ sz eq_refl)]
  end.

Lemma be2z_nonneg l : 0 <= be2z l.
Proof. apply be2z_bound. Qed.
Lemma Keccak256Hash_nonneg d : 0 <= Keccak256Hash (crypto env) d.
Proof. apply be2z_nonneg. Qed.
#[local] Hint Resolve Keccak256Hash_nonneg be2z_nonneg zlen_nonneg : core.

Lemma opSha3_ok : exec_spec (opSha3 env) (Some memorySha3) false 2 1.
Proof.
  unfold opSha3. open_machine 2. run_machine.
  rewrite mem_Get_ok; [|done..|by cover Hcov 0%nat 1%nat]. run_machine.
  destruct (EnablePreimageRecording env); run_machine; [|close_machine].
  new_state (apply ev_preimage). close_machine.
Qed.

Lemma opAddress_ok : exec_spec opAddress None false 0 1.
Proof. apply push1_ok. intros m Hm. apply (co_self (ok_contract Hm)). Qed.
Lemma opBalance_ok : exec_spec opBalance None false 1 1.
Proof.
  unfold opBalance. open_machine 1. run_machine. pose proof (balance_nonneg (statedb e) (BigToAddress x) (eo_state Hevm) (BigToAddress_range x)).
  close_machine.
Qed.
Lemma opOrigin_ok : exec_spec (opOrigin env) None false 0 1.
Proof. apply push1_ok. intros m Hm. apply (env_Origin Henv). Qed.
Lemma opCaller_ok : exec_spec opCaller None false 0 1.
Proof. apply push1_ok. intros m Hm. apply (co_caller (ok_contract Hm)). Qed.
Lemma opCallValue_ok : exec_spec opCallValue None false 0 1.
Proof.
  unfold opCallValue. open_machine 0. run_machine. destruct (co_value Hcon) as (v & -> & Hv). run_machine. close_machine.
Qed.
Lemma opCallDataLoad_ok : exec_spec opCallDataLoad None false 1 1.
Proof.
  unfold opCallDataLoad. open_machine 1. run_machine.
  destruct (getDataBig_ok (Input c) x 32) as [d ->]; [done..|apply (co_input Hcon)|]. run_machine. close_machine.
Qed.
Lemma opCallDataSize_ok : exec_spec opCallDataSize None false 0 1.
Proof. apply push1_ok. auto. Qed.

(** The instructions that copy into memory end with [write_memory]. *)
Lemma write_memory_ok m off len data : mem_ok (memory m) -> 0 <= off -> 0 <= len -> covered (memory m) off len ->
  exists mem', write_memory (S:=S) off len data m = Ok (tt, mkMachine (pc m) (evm m) (contract m) mem' (stack m)) /\
    mem_ok mem' /\ mem_Len mem' = mem_Len (memory m).
Proof.
  intros Hm Ho Hl Hc. destruct (mem_Set_ok _ off len data Hm Ho Hl Hc) as (mem' & E & Hok & HL).
  exists mem'. split; [|done]. unfold write_memory, vbind, gets, lift. by rewrite E.
Qed.

Ltac write Hcov a b :=
  unfold vbind at 1;
  match goal with
  | |- context [write_memory ?o ?l ?d ?m] =>
      let mem' := fresh "mem" in let H1 := fresh "Hmem" in
      destruct (write_memory_ok m o l d) as (mem' & -> & H1 & _); [done|done|done|by cover Hcov a b|]
  end.

Lemma opCallDataCopy_ok : exec_spec opCallDataCopy (Some memoryCallDataCopy) false 3 0.
Proof.
  unfold opCallDataCopy. open_machine 3. run_machine.
  destruct (getDataBig_ok (Input c) x0 x1) as [d ->]; [done..|apply (co_input Hcon)|]. run_machine.
  write Hcov 0%nat 2%nat. run_machine. close_machine.
Qed.
Lemma opReturnDataSize_ok : exec_spec opReturnDataSize None false 0 1.
Proof. apply push1_ok. auto. Qed.
Lemma opReturnDataCopy_ok : exec_spec opReturnDataCopy (Some memoryReturnDataCopy) false 3 0.
Proof.
  unfold opReturnDataCopy. open_machine 3. run_machine.
  destruct (_ || _) eqn:E; run_machine; [close_machine|].
  apply orb_false_iff in E as [E1 E2]. apply Z.ltb_ge in E1, E2.
  apply BitLen_le in E1; [|lia]. rewrite Z.abs_eq in E1 by lia.
  rewrite big_Uint64_small in E2 by lia. rewrite !big_Uint64_small by lia. rewrite slice_ok by lia. run_machine.
  write Hcov 0%nat 2%nat. run_machine. close_machine.
Qed.
Lemma opExtCodeSize_ok : exec_spec opExtCodeSize None false 1 1.
Proof. unfold opExtCodeSize. open_machine 1. run_machine. pose proof (u64_nonneg (GetCodeSize (statedb e) (BigToAddress x))). close_machine. Qed.
Lemma opCodeSize_ok : exec_spec opCodeSize None false 0 1.
Proof. apply push1_ok. auto. Qed.
Lemma opCodeCopy_ok : exec_spec opCodeCopy (Some memoryCodeCopy) false 3 0.
Proof.
  unfold opCodeCopy. open_machine 3. run_machine.
  destruct (getDataBig_ok (Code c) x0 x1) as [d ->]; [done..|apply (co_code Hcon)|]. run_machine.
  write Hcov 0%nat 2%nat. run_machine. close_machine.
Qed.
Lemma opExtCodeCopy_ok : exec_spec opExtCodeCopy (Some memoryExtCodeCopy) false 4 0.
Proof.
  unfold opExtCodeCopy. open_machine 4. run_machine.
  destruct (getDataBig_ok (GetCode (statedb e) (BigToAddress x)) x1 x2) as [d ->];
    [done..|apply (code_length _ _ (eo_state Hevm) (BigToAddress_range x))|]. run_machine.
  write Hcov 1%nat 3%nat. run_machine. close_machine.
Qed.
Lemma opExtCodeHash_ok : exec_spec opExtCodeHash None false 1 1.
Proof.
  unfold opExtCodeHash. open_machine 1. run_machine.
  pose proof (code_hash_nonneg (statedb e) (BigToAddress x) (eo_state Hevm)). case_match; close_machine.
Qed.
Lemma opGasprice_ok : exec_spec (opGasprice env) None false 0 1.
Proof. apply push1_ok. intros m Hm. apply (env_GasPrice Henv). Qed.
Lemma opBlockhash_ok : exec_spec (opBlockhash env) None false 1 1.
Proof.
  unfold opBlockhash. open_machine 1. run_machine. pose proof (env_GetHash Henv (big_Uint64 x)). case_match; close_machine.
Qed.
Lemma opCoinbase_ok : exec_spec (opCoinbase env) None false 0 1.
Proof. apply push1_ok. intros m Hm. apply (env_Coinbase Henv). Qed.
Lemma opTimestamp_ok : exec_spec (opTimestamp env) None false 0 1.
Proof. apply push1_ok. auto. Qed.
Lemma opNumber_ok : exec_spec (opNumber env) None false 0 1.
Proof. apply push1_ok. auto. Qed.
Lemma opDifficulty_ok : exec_spec (opDifficulty env) None false 0 1.
Proof. apply push1_ok. auto. Qed.
Lemma opGasLimit_ok : exec_spec (opGasLimit env) None false 0 1.
Proof. apply push1_ok. auto. Qed.

(** ** Stack, memory, storage and flow *)

Lemma opPop_ok : exec_spec opPop None false 1 0.
Proof. unfold opPop. open_machine 1. run_machine. close_machine. Qed.

Lemma memoryFixed_bound (l : Z) x st mem : l <> 0 ->
  (forall f sz, Some (memoryFixed 0 l) = Some f -> f (x :: st) = Ok sz -> sz <= mem_Len mem) -> x + l <= mem_Len mem.
Proof.
  intros Hl Hcov. specialize (Hcov _ (calcMemSize x l) eq_refl eq_refl). unfold calcMemSize in Hcov.
  rewrite Sign_eqb in Hcov. destruct (Z.eqb_spec l 0); [done|lia].
Qed.

Lemma opMload_ok : exec_spec opMload (Some memoryMLoad) false 1 1.
Proof.
  unfold opMload. open_machine 1. run_machine. apply memoryFixed_bound in Hcov; [|done].
  change 32 with (big_Int64 32). rewrite mem_Get_ok; [|done..|by right]. run_machine. close_machine.
Qed.
Lemma opMstore_ok : exec_spec opMstore (Some memoryMStore) false 2 0.
Proof.
  unfold opMstore. open_machine 2. run_machine. apply memoryFixed_bound in Hcov; [|done].
  destruct (mem_Set32_ok mem x x0) as (mem' & -> & Hok & _); [done..|]. run_machine. close_machine.
Qed.
Lemma opMstore8_ok : exec_spec opMstore8 (Some memoryMStore8) false 2 0.
Proof.
  unfold opMstore8. open_machine 2. run_machine. apply memoryFixed_bound in Hcov; [|done].
  pose proof (mo_bound _ Hmem) as Hb. unfold max_memory in Hb. rewrite big_Int64_small by lia.
  zdestruct; try lia. run_machine.
  assert (mem_ok {| store := <[Z.to_nat x:=z2b (Z.land (big_Int64 x0) 255)]> (store mem); lastGasCost := lastGasCost mem |})
    by (apply mem_ok_same; [done|apply length_insert]). close_machine.
Qed.
Lemma opSload_ok : exec_spec opSload None false 1 1.
Proof.
  unfold opSload. open_machine 1. run_machine.
  pose proof (state_word (statedb e) (self c) (BigToHash x) (eo_state Hevm) (co_self Hcon)). close_machine.
Qed.
Lemma opSstore_ok : exec_spec opSstore None true 2 0.
Proof.
  unfold opSstore. open_machine 2. run_machine. specialize (Hw eq_refl).
  new_state (rewrite Hw; apply ev_state; [done|apply (co_self Hcon)|apply BytesToHash_word..]). close_machine.
Qed.

Lemma set_analysis_ok c : contract_ok env c -> contract_ok env (set_analysis c (Some (bitmap_of (Code c)))).
Proof. intros []. split; try done. cbn. by intros bits [= <-]. Qed.

Lemma check_jump_ok m pos : evm_ok env (evm m) -> contract_ok env (contract m) -> 0 <= pos ->
  post (check_jump (S:=S) pos m) (fun r => exists e' c',
    snd r = mkMachine (pc m) e' c' (memory m) (stack m) /\ (fst r = true -> pos < zlen (Code (contract m))) /\
    evm_ok env e' /\ evm_frame env (evm m) e' /\ contract_ok env c' /\ contract_same (contract m) c' /\
    Gas c' = Gas (contract m)).
Proof.
  intros He Hc Hpos. pose proof (contract_cached env _ _ He Hc) as Hcached.
  unfold check_jump, vbind, gets, lift.
  destruct (validJumpdest_cases (jumpdests (evm m)) (contract m) pos Hpos (co_code Hc) (co_analysis Hc))
    as [(b & jd & c' & E & Hb & Hc' & Hjd)|(E & bits & Hbits & Hne)]; rewrite E; cbn.
  - eexists _, _. split; [done|]. split; [done|]. split; [|split; [by split; [apply ev_refl|..]|]].
    + split; [apply (eo_state He)|]. cbn. destruct Hjd as [->|[Hh ->]]; [apply (eo_jumpdests He)|].
      intros h bits Hn. destruct (decide (h = CodeHash (contract m))) as [->|Hne].
      * rewrite lookup_insert_eq. intros [= <-]. exists (Code (contract m)).
        split; [symmetry; by apply (co_hash Hc)|]. by split; [apply (co_code Hc)|].
      * rewrite lookup_insert_ne by done. by apply (eo_jumpdests He).
    + destruct Hc' as [->| ->]; [split; [exact Hc|by repeat split]|]. split; [by apply set_analysis_ok|]. by repeat split.
  - destruct Hcached as [[Hm _]|]; [|by right]. by destruct (Hne (Hm (proj1 Hbits) _ (proj2 Hbits))).
Qed.

Lemma jump_to_ok m pos : evm_ok env (evm m) -> contract_ok env (contract m) -> 0 <= pos ->
  post (jump_to (S:=S) pos m) (fun o => exists r e' c' p', o = (([], r), mkMachine p' e' c' (memory m) (stack m)) /\
    evm_ok env e' /\ evm_frame env (evm m) e' /\ contract_ok env c' /\ contract_same (contract m) c' /\
    Gas c' = Gas (contract m) /\ (p' = pc m \/ 0 <= p' <= zlen (Code (contract m)) + 32)).
Proof.
  intros He Hc Hpos. unfold jump_to. apply post_vbind. eapply post_mono; [by apply check_jump_ok|].
  intros [ok m'] (e' & c' & Em & Hb & H1 & H2 & H3 & H4 & H5). cbn [fst snd] in *. subst m'. destruct ok.
  - eexists _, e', c', _. split; [reflexivity|]. repeat (split; [done|]). right.
    specialize (Hb eq_refl). pose proof (co_code Hc). rewrite big_Uint64_small by lia. lia.
  - eexists _, e', c', _. split; [reflexivity|]. repeat (split; [done|]). by left.
Qed.

Lemma opJump_ok : exec_spec opJump None false 1 0.
Proof.
  unfold opJump. open_machine 1. run_machine. eapply post_mono; [by apply jump_to_ok|].
  intros ? (r & e' & c' & p' & -> & ? & ? & ? & ? & ? & ?). run_machine. close_machine.
Qed.
Lemma opJumpi_ok : exec_spec opJumpi None false 2 0.
Proof.
  unfold opJumpi. open_machine 2. run_machine. destruct (negb _).
  - eapply post_mono; [by apply jump_to_ok|].
    intros ? (r & e' & c' & p' & -> & ? & ? & ? & ? & ? & ?). run_machine. close_machine.
  - run_machine. pose proof (co_code Hcon). rewrite u64_small by (unfold is_u64, MaxUint64; lia). close_machine.
Qed.
Lemma opJumpdest_ok : exec_spec opJumpdest None false 0 0.
Proof. unfold opJumpdest. open_machine 0. run_machine. close_machine. Qed.
Lemma opPc_ok : exec_spec opPc None false 0 1.
Proof. apply push1_ok. intros m Hm. apply (ok_pc Hm). Qed.
Lemma opMsize_ok : exec_spec opMsize None false 0 1.
Proof. apply push1_ok. intros m Hm. apply mem_Len_nonneg. Qed.
Lemma opGas_ok : exec_spec opGas None false 0 1.
Proof. apply push1_ok. intros m Hm. apply (co_gas (ok_contract Hm)). Qed.

(** ** Halting, logs and stack families *)

Lemma opReturn_ok : exec_spec opReturn (Some memoryReturn) false 2 0.
Proof.
  unfold opReturn. open_machine 2. run_machine.
  rewrite mem_GetPtr_ok; [|done..|by cover Hcov 0%nat 1%nat]. run_machine.
  pose proof (zlen_mem_slice mem x x0 Hmem). close_machine.
Qed.
Lemma opRevert_ok : exec_spec opRevert (Some memoryRevert) false 2 0.
Proof. apply opReturn_ok. Qed.

Lemma opSuicide_ok : exec_spec opSuicide None true 1 0.
Proof.
  unfold opSuicide. open_machine 1. run_machine. specialize (Hw eq_refl).
  new_state (rewrite Hw; apply ev_suicide; [done|apply (co_self Hcon)|by apply BigToAddress_range]). close_machine.
Qed.

Lemma pop_topics_ok n m : Forall (Z.le 0) (stack m) -> Z.of_nat n <= st_len (stack m) ->
  exists topics, pop_topics (S:=S) n m = Ok (topics, mkMachine (pc m) (evm m) (contract m) (memory m) (drop n (stack m))).
Proof.
  revert m. induction n as [|n IH]; intros [p e c mem st] Hst Hn; cbn [stack] in *; [by eexists|].
  destruct st as [|x st]; [unfold st_len, zlen in Hn; cbn in Hn; lia|]. apply Forall_cons in Hst as [_ Hst].
  rewrite st_len_cons in Hn. destruct (IH (mkMachine p e c mem st)) as [topics E]; [done|cbn; lia|].
  cbn in E. eexists. cbn. unfold vbind. rewrite E. done.
Qed.

Lemma makeLog_ok n : exec_spec (makeLog env n) (Some memoryLog) true (2 + Z.of_nat n) 0.
Proof.
  unfold makeLog. open_machine 2. run_machine. rewrite !st_len_cons in Hp. specialize (Hw eq_refl).
  destruct (pop_topics_ok n (mkMachine p e c mem st)) as [topics E]; [done|cbn; lia|].
  unfold vbind at 1. rewrite E. run_machine. rewrite mem_Get_ok; [|done..|by cover Hcov 0%nat 1%nat]. run_machine.
  new_state (rewrite Hw; by apply ev_log).
  assert (Forall (Z.le 0) (drop n st)) by by apply Forall_drop.
  assert (st_len (drop n st) = st_len st - Z.of_nat n) by (unfold st_len, zlen in *; rewrite length_drop; lia).
  close_machine.
Qed.

Lemma makePush_ok n : 1 <= n <= 32 -> exec_spec (makePush n n) None false 0 1.
Proof.
  intros Hn. unfold makePush. open_machine 0. run_machine. pose proof (co_code Hcon) as Hcode.
  rewrite !u64_small, s64_small by (unfold is_u64, MaxUint64; lia).
  rewrite slice_ok by (zdestruct; lia). run_machine. close_machine.
Qed.

Lemma makeDup_ok n : (1 <= n)%nat -> exec_spec (makeDup n) None false (Z.of_nat n) (Z.of_nat n + 1).
Proof.
  intros Hn. unfold makeDup. open_machine 0. unfold st_len, zlen in Hp.
  destruct (lookup_lt_is_Some_2 st (n - 1)) as [x Hx]; [lia|]. unfold st_dup, st_Back. run_machine. rewrite Hx.
  run_machine. assert (0 <= x) by by eapply Forall_lookup_1 in Hst. cbn. close_machine.
Qed.

Lemma makeSwap_ok n : (1 <= n)%nat -> exec_spec (makeSwap n) None false (Z.of_nat n + 1) (Z.of_nat n + 1).
Proof.
  intros Hn. unfold makeSwap. open_machine 0. unfold st_len, zlen in Hp.
  destruct (lookup_lt_is_Some_2 st n) as [x Hx]; [lia|]. destruct (lookup_lt_is_Some_2 st 0) as [y Hy]; [lia|].
  unfold st_swap, st_peek, st_Back. run_machine. replace (n + 1 - 1)%nat with n by lia. rewrite Hx, Hy. cbn.
  assert (0 <= x) by by eapply Forall_lookup_1 in Hst. assert (0 <= y) by by eapply Forall_lookup_1 in Hst.
  assert (Forall (Z.le 0) (<[n:=y]> (<[0%nat:=x]> st))) by by repeat apply Forall_insert.
  assert (st_len (<[n:=y]> (<[0%nat:=x]> st)) = st_len st) by (unfold st_len, zlen; by rewrite !length_insert).
  close_machine.
Qed.
End exec_facts.
