(* ===== verification/PrecompileFacts.v ===== *)
(** * Precompiled contracts never panic

    On inputs of any content the precompiled contracts return, as long as their
    gas was paid from less than [2 ^ 62]; the bound is what keeps the lengths
    announced to [bigModExp] within reach of 64-bit arithmetic. *)
From S2P Require Import Prelude CommonMath Params Opcodes VmBase VmAnalysis VmInterface VmLaws Precompiles Evm.
From S2P Require Import GasTable VmInvariant GasFacts ExecFacts.
From stdpp Require Import base numbers list gmap.
From Stdlib Require Import ZArith Lia Zpow_facts.
#[local] Open Scope Z_scope.
#[local] Ltac Zify.zify_post_hook ::= Z.to_euclidean_division_equations.

Lemma zlen_take_drop {A} (l : list A) n k : zlen (take n (drop k l)) <= Z.of_nat n.
Proof. unfold zlen. rewrite length_take. lia. Qed.

(** [getData] panics only if the end wraps around. *)
Lemma getData_ok data start size : zlen data < 2 ^ 62 -> 0 <= start -> 0 <= size -> size < 2 ^ 64 - 2 ^ 62 ->
  exists d, getData data start size = Ok d /\ (size < 2 ^ 63 -> zlen d = size).
Proof.
  intros Hd Hs Hz Hw. unfold getData. pose proof (zlen_nonneg data).
  rewrite u64_small by (unfold is_u64, MaxUint64; lia).
  set (start' := if zlen data <? start then zlen data else start).
  assert (0 <= start' <= zlen data) by (unfold start'; zdestruct; lia).
  rewrite u64_small by (unfold is_u64, MaxUint64; lia).
  set (end' := if zlen data <? start' + size then zlen data else start' + size).
  assert (start' <= end' <= zlen data) by (unfold end'; zdestruct; lia).
  rewrite slice_ok by lia. eexists. split; [reflexivity|]. intros Hsm. rewrite s64_small by lia.
  rewrite zlen_RightPadBytes, zlen_slice by lia. unfold end'. zdestruct; lia.
Qed.

Lemma getData_word data start size : zlen data < 2 ^ 62 -> 0 <= start -> 0 <= size <= 32 ->
  exists d, getData data start size = Ok d /\ 0 <= be2z d < two256.
Proof.
  intros Hd Hs Hz. destruct (getData_ok data start size) as (d & E & Hl); [lia..|].
  exists d. split; [done|]. apply be2z_word. lia.
Qed.

Lemma zlen_big_Bytes_pow x n : 0 <= n -> 0 <= x < 256 ^ n -> zlen (big_Bytes x) <= n.
Proof.
  intros Hn Hx. unfold big_Bytes, zlen. rewrite length_z2be.
  assert (BitLen x <= 8 * n); [|pose proof (BitLen_nonneg x); lia]. apply BitLen_le; [lia|].
  rewrite Z.pow_mul_r by lia. change (2 ^ 8) with 256. lia.
Qed.

Section precompile_facts.
Context {S : Type} `{StateDB S} (env : Env S) (Henv : env_ok env).
Local Abbreviation cr := (crypto env).

Definition returns_bytes (r : outcome (result vmerror (list byte))) : Prop :=
  exists res, r = Ok res /\ forall ret, res = Good ret -> zlen ret < 2 ^ 62.

Lemma ecrecover_Run_ok input : zlen input < 2 ^ 62 -> returns_bytes (ecrecover_Run cr input).
Proof.
  intros Hi. unfold ecrecover_Run, ecrecover_args, ecRecoverInputLength.
  assert (128 <= zlen (RightPadBytes input 128)) by (rewrite zlen_RightPadBytes; lia).
  rewrite !slice_ok by lia. cbn [obind]. destruct (_ || _); cbn [obind]; [by eexists; split; [done|intros ? [= <-]]|].
  destruct (secp256k1_recover _ _ _) as [pk|] eqn:E; [|by eexists; split; [done|intros ? [= <-]]].
  apply (env_recover Henv) in E. rewrite slice_ok by lia. cbn [obind].
  set (pub := take _ (drop _ pk)) in *. pose proof (env_keccak Henv pub). rewrite slice_ok by lia. cbn [obind].
  eexists. split; [done|]. intros ret [= <-]. rewrite zlen_LeftPadBytes.
  pose proof (zlen_take_drop (keccak256 (crypto env) pub) (Z.to_nat (zlen (keccak256 (crypto env) pub) - 12)) (Z.to_nat 12)). lia.
Qed.

Lemma modexp_tail_len input : zlen (modexp_tail input) <= zlen input.
Proof. unfold modexp_tail. case_match; unfold zlen; rewrite ?length_drop; cbn; lia. Qed.

Lemma modexp_expHead_ok input b e : zlen input < 2 ^ 62 -> 0 <= b -> 0 <= e ->
  exists h, modexp_expHead input b e = Ok h /\ 0 <= h.
Proof.
  intros Hi Hb He. unfold modexp_expHead. destruct (zlen input <=? b); [by exists 0|].
  pose proof (u64_nonneg (Z.abs b)) as Hu.
  destruct (Z.ltb_spec 32 e).
  - destruct (getData_word input (big_Uint64 b) 32) as (d & -> & Hd); [done|apply Hu|lia|]. eexists. split; [done|lia].
  - rewrite (big_Uint64_small e) by lia.
    destruct (getData_word input (big_Uint64 b) e) as (d & -> & Hd); [done|apply Hu|lia|]. eexists. split; [done|lia].
Qed.

Lemma modexp_complexity_lower x : 1 <= x -> 1 <= modexp_complexity x /\ (1024 < x -> x * x / 16 <= modexp_complexity x).
Proof. intros Hx. unfold modexp_complexity. zdestruct; nia. Qed.

(** What a price below [2 ^ 62] says about the announced lengths. *)
Lemma bigModExp_lengths input gas : zlen input < 2 ^ 62 -> bigModExp_RequiredGas input = Ok gas -> gas < 2 ^ 62 ->
  exists b e m, getData input 0 32 = Ok b /\ getData input 32 32 = Ok e /\ getData input 64 32 = Ok m /\
    (be2z b = 0 /\ be2z m = 0 \/ be2z b < 2 ^ 36 /\ be2z m < 2 ^ 36 /\ be2z e < 5 * 2 ^ 61 + 64).
Proof.
  intros Hi. unfold bigModExp_RequiredGas.
  destruct (getData_word input 0 32) as (b & -> & Hb); [lia..|]. destruct (getData_word input 32 32) as (e & -> & He); [lia..|].
  destruct (getData_word input 64 32) as (m & -> & Hm); [lia..|]. cbn [obind].
  destruct (modexp_expHead_ok (modexp_tail input) (be2z b) (be2z e)) as (h & -> & Hh);
    [pose proof (modexp_tail_len input); lia|lia..|]. cbn [obind].
  set (L := BigMax (be2z m) (be2z b)). assert (be2z b <= L /\ be2z m <= L /\ 0 <= L) as (HL1 & HL2 & HL0).
  { unfold L, BigMax. zdestruct; lia. }
  set (adj := (if 32 <? be2z e then 8 * (be2z e - 32) else 0) + (if 0 <? BitLen h then BitLen h - 1 else 0)).
  assert (8 * (be2z e - 32) <= adj) as Hadj. { unfold adj. zdestruct; lia. }
  set (g := modexp_complexity L * BigMax adj 1 / ModExpQuadCoeffDiv). cbv zeta. intros Hg Hlt.
  exists b, e, m. repeat (split; [done|]).
  destruct (decide (L = 0)) as [E0|Hn]; [left; lia|right].
  destruct (modexp_complexity_lower L) as [Hc1 Hc2]; [lia|].
  assert (1 <= BigMax adj 1 /\ adj <= BigMax adj 1) as [Ha1 Ha2] by (unfold BigMax; zdestruct; lia).
  assert (0 <= g) as Hg0. { unfold g, ModExpQuadCoeffDiv. apply Z.div_pos; [nia|lia]. }
  assert (g < 2 ^ 62) as Hg62.
  { destruct (Z.ltb_spec 64 (BitLen g)) as [|Hbl]; injection Hg as <-; [unfold MaxUint64 in Hlt; lia|].
    apply BitLen_le in Hbl; [|lia]. rewrite big_Uint64_small in Hlt by lia. done. }
  assert (modexp_complexity L * BigMax adj 1 < 20 * 2 ^ 62) as Hprod.
  { unfold g, ModExpQuadCoeffDiv in Hg62. apply Z.nle_gt. intros Hge.
    assert (2 ^ 62 <= modexp_complexity L * BigMax adj 1 / 20); [|lia]. apply Z.div_le_lower_bound; lia. }
  assert (modexp_complexity L < 20 * 2 ^ 62) by nia. assert (adj < 20 * 2 ^ 62) by nia.
  assert (L < 2 ^ 36). { apply Z.nle_gt. intros HL. specialize (Hc2 ltac:(lia)). nia. }
  lia.
Qed.

Lemma bigModExp_Run_ok input gas : zlen input < 2 ^ 62 -> bigModExp_RequiredGas input = Ok gas -> gas < 2 ^ 62 ->
  returns_bytes (bigModExp_Run input).
Proof.
  intros Hi Hg Hlt. destruct (bigModExp_lengths input gas Hi Hg Hlt) as (b & e & m & Eb & Ee & Em & Hcase).
  unfold bigModExp_Run. rewrite Eb, Ee, Em. cbn [obind].
  pose proof (be2z_bound b). pose proof (be2z_bound e). pose proof (be2z_bound m).
  destruct Hcase as [[-> ->]|(Hb & Hm & He)]; [by eexists; split; [reflexivity|intros ? [= <-]]|].
  rewrite !big_Uint64_small by lia. destruct (_ && _); [by eexists; split; [reflexivity|intros ? [= <-]]|].
  pose proof (modexp_tail_len input). set (input' := modexp_tail input) in *.
  destruct (getData_ok input' 0 (be2z b)) as (bb & -> & _); [lia..|].
  destruct (getData_ok input' (be2z b) (be2z e)) as (eb & -> & _); [lia..|].
  destruct (getData_ok input' (u64 (be2z b + be2z e)) (be2z m)) as (mb & -> & Hmb);
    [lia|apply u64_nonneg|lia|lia|]. cbn [obind]. specialize (Hmb ltac:(lia)).
  rewrite s64_small by lia. destruct (Z.eqb_spec (BitLen (be2z mb)) 0) as [E0|Hn].
  - eexists. split; [reflexivity|]. intros ret [= <-]. rewrite zlen_LeftPadBytes. change (zlen []) with 0. lia.
  - eexists. split; [reflexivity|]. intros ret [= <-]. rewrite zlen_LeftPadBytes.
    pose proof (be2z_bound mb) as Hbm. rewrite Hmb in Hbm.
    assert (be2z mb <> 0) by (intros E; rewrite E in Hn; done).
    rewrite Zpow_mod_correct by done.
    pose proof (Z.mod_pos_bound (be2z bb ^ be2z eb) (be2z mb) ltac:(lia)).
    pose proof (zlen_big_Bytes_pow ((be2z bb ^ be2z eb) mod be2z mb) (be2z m) ltac:(lia) ltac:(lia)). lia.
Qed.

Lemma bn256Pairing_points_ok fuel input cs ts : (length input <= fuel)%nat -> zlen input mod 192 = 0 ->
  exists r, bn256Pairing_points cr fuel input cs ts = Ok r.
Proof.
  revert input cs ts. induction fuel as [|fuel IH]; intros input cs ts Hf Hm.
  - destruct input; [by eexists|cbn in Hf; lia].
  - destruct (decide (input = [])) as [->|Hne]; [by eexists|].
    assert (192 <= zlen input) as Hl.
    { destruct input as [|c t]; [done|]. rewrite zlen_cons in *. pose proof (zlen_nonneg t). lia. }
    assert (bn256Pairing_points cr (Datatypes.S fuel) input cs ts =
      let! cb := slice input 0 64 in let! tb := slice input 64 192 in
      match newCurvePoint cr cb with
      | Err e => Ok (Err e)
      | Good c => match newTwistPoint cr tb with
                  | Err e => Ok (Err e)
                  | Good t => bn256Pairing_points cr fuel (drop 192 input) (cs ++ [c]) (ts ++ [t])
                  end
      end) as -> by by destruct input.
    rewrite !slice_ok by lia. cbn [obind]. repeat case_match; try by eexists.
    apply IH; unfold zlen in *; rewrite length_drop; [lia|].
    rewrite Nat2Z.inj_sub by lia. change (Z.of_nat 192) with 192. lia.
Qed.

Lemma precompile_Run_ok p input gas : zlen input < 2 ^ 62 -> RequiredGas p input = Ok gas -> gas < 2 ^ 62 ->
  returns_bytes (precompile_Run cr p input).
Proof.
  intros Hi Hg Hlt. destruct p; cbn [precompile_Run].
  - by apply ecrecover_Run_ok.
  - eexists. split; [reflexivity|]. intros ret [= <-]. rewrite (env_sha256 Henv). lia.
  - eexists. split; [reflexivity|]. intros ret [= <-]. rewrite zlen_LeftPadBytes, (env_ripemd160 Henv). lia.
  - eexists. split; [reflexivity|]. by intros ret [= <-].
  - by eapply bigModExp_Run_ok.
  - unfold bn256Add_Run. destruct (getData_ok input 0 64) as (x & -> & _); [lia..|].
    destruct (getData_ok input 64 64) as (y & -> & _); [lia..|]. cbn [obind].
    eexists. split; [reflexivity|]. intros ret. unfold rbind. repeat case_match; intros [= <-]. rewrite (env_marshal Henv). lia.
  - unfold bn256ScalarMul_Run. destruct (getData_ok input 0 64) as (x & -> & _); [lia..|].
    destruct (getData_ok input 64 32) as (y & -> & _); [lia..|]. cbn [obind].
    eexists. split; [reflexivity|]. intros ret. unfold rbind. repeat case_match; intros [= <-]. rewrite (env_marshal Henv). lia.
  - unfold bn256Pairing_Run. destruct (Z.ltb_spec 0 (zlen input mod 192)); [by eexists; split; [reflexivity|]|].
    destruct (bn256Pairing_points_ok (length input) input [] []) as [r ->]; [lia..|]. cbn [obind].
    eexists. split; [reflexivity|]. intros ret. unfold rbind. repeat case_match; intros [= <-]; vm_compute; reflexivity.
Qed.

Lemma RequiredGas_ok p input : zlen input < 2 ^ 62 -> exists gas, RequiredGas p input = Ok gas /\ is_u64 gas.
Proof.
  intros Hi. destruct p; cbn [RequiredGas]; try by eexists; split; [reflexivity|first [apply u64_range|done]].
  unfold bigModExp_RequiredGas.
  destruct (getData_word input 0 32) as (b & -> & Hb); [lia..|]. destruct (getData_word input 32 32) as (e & -> & He); [lia..|].
  destruct (getData_word input 64 32) as (m & -> & Hm); [lia..|]. cbn [obind].
  destruct (modexp_expHead_ok (modexp_tail input) (be2z b) (be2z e)) as (h & -> & Hh);
    [pose proof (modexp_tail_len input); lia|lia..|]. cbn [obind].
  eexists. split; [reflexivity|]. cbv zeta. case_match; [done|apply u64_range].
Qed.

(** A precompiled contract only uses gas. *)
Lemma RunPrecompiledContract_ok p input c : zlen input < 2 ^ 62 -> 0 <= Gas c < 2 ^ 62 ->
  exists ret err g, RunPrecompiledContract cr p input c = Ok ((ret, err), set_Gas c g) /\
    0 <= g <= Gas c /\ zlen ret < 2 ^ 62.
Proof.
  intros Hi Hg. unfold RunPrecompiledContract. destruct (RequiredGas_ok p input Hi) as (gas & Er & Hu). rewrite Er. cbn [obind].
  unfold UseGas. destruct (Z.ltb_spec (Gas c) gas) as [Hlt|Hge].
  - exists [], (Some ErrOutOfGas), (Gas c). split; [by destruct c|]. split; [lia|]. done.
  - destruct (precompile_Run_ok p input gas Hi Er ltac:(lia)) as (res & -> & Hres). cbn [obind].
    unfold is_u64 in Hu. destruct res as [ret|e].
    + exists ret, None, (Gas c - gas). split; [done|]. split; [lia|]. by apply Hres.
    + exists [], (Some e), (Gas c - gas). split; [done|]. split; [lia|]. done.
Qed.

End precompile_facts.
