(* ===== verification/EvmFacts.v ===== *)
(** * Message calls keep the invariant

    The entry points of [evm.go], for any interpreter that satisfies [run_spec]:
    they return, give back at most the gas they were given, restore depth and
    mode, and an error leaves the world state as it was. *)
From S2P Require Import Prelude CommonMath Params Opcodes VmBase VmAnalysis VmInterface VmLaws Precompiles Evm.
From S2P Require Import GasTable Instructions VmInvariant GasFacts ExecFacts PrecompileFacts.
From stdpp Require Import base numbers list gmap.
From Stdlib Require Import ZArith Lia.
#[local] Open Scope Z_scope.

Section evm_facts.
Context {S : Type} `{StateDB S} (env : Env S) `{!StateDBLaws S (crypto env)}.
Context (Henv : env_ok env).
Local Abbreviation post := (post env).
Local Abbreviation evm_ok := (evm_ok env).

(** Static mode inside a run asked to be read-only. *)
Definition mode (e : EVM S) (ro : bool) : bool := rules_IsByzantium (chainRules env) && (readOnly e || ro).

Lemma mode_false e : mode e false = static env e.
Proof. unfold mode, static. by rewrite orb_false_r. Qed.

(** [e] before and [e'] after, in the given mode. *)
Record evm_after (md : bool) (e e' : EVM S) : Prop := {
  ea_ok : evm_ok e';
  ea_evolves : evolves md (statedb e) (statedb e');
  ea_depth : depth e' = depth e;
  ea_readOnly : readOnly e' = readOnly e
}.

Definition run_post (ro : bool) (e : EVM S) (c : Contract) (r : opresult * EVM S * Contract) : Prop :=
  evm_after (mode e ro) e (snd (fst r)) /\ 0 <= Gas (snd r) <= Gas c /\ zlen (fst (fst (fst r))) < 2 ^ 62.

(** What an interpreter promises to calls with less than [G] gas. *)
Definition run_spec (G : Z) (R : RunFunc S) : Prop :=
  forall e c input ro, evm_ok e -> contract_ok env c -> zlen input < 2 ^ 62 -> Gas c < G ->
    post (R e c input ro) (run_post ro e c).

Context (G : Z) (R : RunFunc S) (HR : run_spec G R).

Lemma evm_after_refl md e : evm_ok e -> evm_after md e e.
Proof. intros He. by split; [|apply ev_refl|..]. Qed.

Lemma evm_after_state md e s : evm_ok e -> evolves md (statedb e) s -> evm_after md e (set_statedb e s).
Proof. intros He Hs. split; [by eapply evm_ok_state|done..]. Qed.

Lemma run_ok e c input ro : evm_ok e -> contract_ok env c -> zlen input < 2 ^ 62 -> Gas c < G ->
  post (run env R e c input ro) (run_post ro e c).
Proof.
  intros He Hc Hi Hg. unfold run. destruct (_ ≫= _) as [p|]; [|by apply HR].
  pose proof (co_gas Hc) as Hgas. unfold max_gas in Hgas.
  destruct (RunPrecompiledContract_ok env Henv p input c Hi Hgas) as (ret & err & g & -> & Hg' & Hr).
  cbn. split; [by apply evm_after_refl|]. by split.
Qed.

(** ** Calls *)

Definition ref_ok (r : ContractRef) : Prop :=
  match r with
  | AccountRef a => is_address a
  | ContractAsRef a c v => is_address a /\ is_address c /\ exists x, v = Some x /\ 0 <= x
  end.

Lemma ref_ok_address r : ref_ok r -> is_address (ref_Address r).
Proof. destruct r; cbn; intuition. Qed.

Definition call_ok (ro : bool) (e : EVM S) (gas : Z) (r : callresult * EVM S) : Prop :=
  let '((ret, leftOver, err), e') := r in
  evm_after (mode e ro) e e' /\ 0 <= leftOver <= gas /\ zlen ret < 2 ^ 62 /\
  match err with
  | None => True
  | Some x => state_eq (statedb e') (statedb e) /\
      (leftOver = gas /\ (x = ErrDepth \/ x = ErrInsufficientBalance) \/ x = errExecutionReverted \/ leftOver = 0)
  end.

Lemma call_ok_early ro e gas err : evm_ok e -> 0 <= gas -> (err = None \/ err = Some ErrDepth \/ err = Some ErrInsufficientBalance) ->
  post (Ok (([], gas, err), e)) (call_ok ro e gas).
Proof.
  intros He Hg Herr. cbn. split; [by apply evm_after_refl|]. split; [lia|]. split; [done|].
  destruct Herr as [->|[->| ->]]; [done|..]; (split; [apply state_eq_refl|auto]).
Qed.

Lemma with_code_ok s addr c : state_ok s -> is_address addr -> contract_ok env (SetCallCode c None 0 []) ->
  analysis c = None -> contract_ok env (with_code_of s addr c).
Proof.
  intros Hs Hd Hc Ha. destruct Hc. unfold with_code_of. split; cbn in *; try done.
  - by apply code_length.
  - by apply code_hash_code.
  - by rewrite Ha.
Qed.

Lemma inherit_ok caller e : evm_ok e -> evm_ok (inherit_jumpdests caller e).
Proof. intros He. destruct caller; [|done]. split; [apply He|]. intros h bits _. cbn. by rewrite lookup_empty. Qed.

Lemma inherit_same caller (e : EVM S) : statedb (inherit_jumpdests caller e) = statedb e /\
  depth (inherit_jumpdests caller e) = depth e /\ readOnly (inherit_jumpdests caller e) = readOnly e.
Proof. by destruct caller. Qed.

Lemma unwind_ok md e e1 c snapshot s err :
  evm_ok e -> Snapshot (statedb e) = (snapshot, s) -> evolves md s (statedb e1) ->
  evm_ok e1 -> depth e1 = depth e -> readOnly e1 = readOnly e -> 0 <= Gas c ->
  exists e2 c2, unwind snapshot err e1 c = Ok (e2, c2) /\ evm_after md e e2 /\
    state_eq (statedb e2) (statedb e) /\ 0 <= Gas c2 <= Gas c /\ (err <> errExecutionReverted -> Gas c2 = 0).
Proof.
  intros He Es Hev He1 Hd Hro Hg.
  destruct (revert_ok (statedb e) (statedb e1) (eo_state He)) as (s3 & Er & Heq).
  { rewrite Es. by eapply evolves_weaken. }
  assert (evolves md (statedb e) s3) as Hev3.
  { eapply ev_revert; [|exact Er]. by rewrite Es. }
  unfold unwind. rewrite Es in Er. cbn in Er. rewrite Er. cbn [obind].
  eexists _, _. split; [reflexivity|]. split; [|split; [done|]].
  - split; [|done..]. split; [cbn; eapply evolves_ok; [apply (eo_state He)|done]|apply He1].
  - destruct (decide _) as [->|Hn]; [split; [lia|done]|]. unfold UseGas. rewrite Z.ltb_irrefl. cbn. split; [lia|lia].
Qed.

Lemma finish_call_ok ro e gas snapshot s r e1 c :
  evm_ok e -> Snapshot (statedb e) = (snapshot, s) -> evolves (mode e ro) s (statedb e1) ->
  depth e1 = depth e -> readOnly e1 = readOnly e -> Gas c = gas -> 0 <= gas -> run_post ro e1 c r ->
  post (finish_call snapshot r) (call_ok ro e gas).
Proof.
  intros He Es Hev Hd Hro Hgc Hgas. destruct r as [[[ret err] e'] c']. intros (Ha & Hg & Hr). cbn [fst snd] in *.
  assert (mode e1 ro = mode e ro) as Em by (unfold mode; by rewrite Hro).
  destruct Ha as [Hok Hev' Hd' Hro']. rewrite Em in Hev'.
  assert (evolves (mode e ro) s (statedb e')) as Hev'' by by eapply ev_trans.
  unfold finish_call. destruct err as [x|].
  - destruct (unwind_ok (mode e ro) e e' c' snapshot s x) as (e2 & c2 & -> & Ha2 & Heq & Hg2 & H0);
      [done|done|done|done|congruence|congruence|lia|].
    cbn. split; [done|]. split; [lia|]. split; [done|]. split; [done|].
    destruct (decide (x = errExecutionReverted)) as [->|Hx]; [by right; left|]. right; right. auto.
  - cbn. split; [|by repeat split; lia]. split; [done| |congruence..].
    eapply ev_trans; [|done]. replace s with (snd (Snapshot (statedb e))) by by rewrite Es. apply ev_snapshot.
Qed.

Lemma new_contract_ok caller addr v gas : ref_ok caller -> is_address addr -> 0 <= v -> 0 <= gas < max_gas ->
  contract_ok env (SetCallCode (NewContract caller addr (Some v) gas) None 0 []).
Proof.
  intros Hr Ha Hv Hg. split; cbn; try done; [by exists v|by apply ref_ok_address].
Qed.

(** Running the code of [addr] after the state was prepared. *)
Lemma run_code_ok ro e gas snapshot s0 s caller addr c input :
  evm_ok e -> is_address addr -> Snapshot (statedb e) = (snapshot, s0) -> evolves (mode e ro) s0 s ->
  contract_ok env (SetCallCode c None 0 []) -> analysis c = None ->
  Gas c = gas -> 0 <= gas < G -> zlen input < 2 ^ 62 ->
  post (let! r := run env R (inherit_jumpdests caller (set_statedb e s)) (with_code_of s addr c) input ro in
        finish_call snapshot r) (call_ok ro e gas).
Proof.
  intros He Had Es Hev Hc Ha Hgc Hgas Hi. apply post_bind.
  assert (evolves (mode e ro) (statedb e) s) as Hev0.
  { eapply ev_trans; [|exact Hev]. replace s0 with (snd (Snapshot (statedb e))) by by rewrite Es. apply ev_snapshot. }
  assert (state_ok s) as Hs by (eapply evolves_ok; [apply (eo_state He)|done]).
  set (e1 := inherit_jumpdests caller (set_statedb e s)).
  destruct (inherit_same caller (set_statedb e s)) as (E1 & E2 & E3). fold e1 in E1, E2, E3.
  assert (evm_ok e1) as He1 by (apply inherit_ok; by eapply evm_ok_state).
  eapply post_mono; [apply run_ok|].
  - done.
  - by apply with_code_ok.
  - done.
  - change (Gas (with_code_of s addr c)) with (Gas c). lia.
  - intros r Hr. eapply (finish_call_ok ro e gas snapshot s0 r e1); [done|done|by rewrite E1|done|done| |lia|exact Hr]. done.
Qed.

Lemma Call_ok e caller addr input gas value :
  evm_ok e -> ref_ok caller -> is_address addr -> zlen input < 2 ^ 62 -> 0 <= gas < max_gas -> gas < G ->
  0 <= value -> (static env e = true -> value = 0) ->
  post (Call env R e caller addr input gas value) (call_ok false e gas).
Proof.
  intros He Hr Ha Hi Hg HgG Hv Hst. unfold Call.
  destruct (NoRecursion env && (0 <? depth e)); [apply call_ok_early; auto; lia|].
  destruct (CallCreateDepth <? depth e); [apply call_ok_early; auto; lia|].
  rewrite (env_CanTransfer Henv). destruct (kernel_CanTransfer _ _ _) eqn:Ect; cbn [negb];
    [|apply call_ok_early; auto; lia].
  apply Z.leb_le in Ect. destruct (Snapshot (statedb e)) as [snapshot s0] eqn:Es.
  pose proof (eo_state He) as Hs. pose proof (ref_ok_address _ Hr) as Hra.
  assert (state_eq s0 (statedb e)) as Heq0. { pose proof (snapshot_eq (statedb e)) as Hq. by rewrite Es in Hq. }
  assert (evolves (mode e false) (statedb e) s0) as Hev0.
  { replace s0 with (snd (Snapshot (statedb e))) by by rewrite Es. apply ev_snapshot. }
  assert (state_ok s0) as Hs0 by by eapply evolves_ok.
  destruct (_ && _ && _ && _).
  { cbn. split; [by apply evm_after_state|]. split; [lia|]. by split. }
  rewrite (env_Transfer Henv).
  set (s1 := if negb (Exist s0 addr) then CreateAccount s0 addr else s0).
  assert (evolves (mode e false) s0 s1 /\ forall b, GetBalance s1 b = GetBalance s0 b) as [Hev1 Hbal1].
  { unfold s1. destruct (Exist s0 addr) eqn:Ex; cbn [negb]; [by split; [apply ev_refl|]|].
    split; [by apply ev_touch|]. intros b. by apply create_balance. }
  apply (run_code_ok false e gas snapshot s0); try done.
  - eapply ev_trans; [exact Hev1|]. apply ev_transfer; [done..| |by rewrite mode_false].
    rewrite Hbal1, (eq_balance _ _ _ Heq0). done.
  - by apply new_contract_ok.
  - lia.
Qed.

Lemma CallCode_ok e caller addr input gas value :
  evm_ok e -> ref_ok caller -> is_address addr -> zlen input < 2 ^ 62 -> 0 <= gas < max_gas -> gas < G -> 0 <= value ->
  post (CallCode env R e caller addr input gas value) (call_ok false e gas).
Proof.
  intros He Hr Ha Hi Hg HgG Hv. unfold CallCode.
  destruct (NoRecursion env && (0 <? depth e)); [apply call_ok_early; auto; lia|].
  destruct (CallCreateDepth <? depth e); [apply call_ok_early; auto; lia|].
  rewrite (env_CanTransfer Henv). destruct (kernel_CanTransfer _ _ _) eqn:Ect; cbn [negb];
    [|apply call_ok_early; auto; lia].
  destruct (Snapshot (statedb e)) as [snapshot s0] eqn:Es.
  apply (run_code_ok false e gas snapshot s0); try done; [apply ev_refl| |lia].
  apply new_contract_ok; try done. by apply ref_ok_address.
Qed.

Lemma DelegateCall_ok e a c v addr input gas :
  evm_ok e -> ref_ok (ContractAsRef a c v) -> is_address addr -> zlen input < 2 ^ 62 -> 0 <= gas < max_gas -> gas < G ->
  post (DelegateCall env R e (ContractAsRef a c v) addr input gas) (call_ok false e gas).
Proof.
  intros He Hr Ha Hi Hg HgG. unfold DelegateCall.
  destruct (NoRecursion env && (0 <? depth e)); [apply call_ok_early; auto; lia|].
  destruct (CallCreateDepth <? depth e); [apply call_ok_early; auto; lia|].
  destruct (Snapshot (statedb e)) as [snapshot s0] eqn:Es. cbn [AsDelegate NewContract caller obind].
  apply (run_code_ok false e gas snapshot s0); try done; [apply ev_refl| |lia].
  destruct Hr as (H1 & H2 & H3). by split; cbn.
Qed.

Lemma StaticCall_ok e caller addr input gas :
  evm_ok e -> ref_ok caller -> is_address addr -> zlen input < 2 ^ 62 -> 0 <= gas < max_gas -> gas < G ->
  post (StaticCall env R e caller addr input gas) (call_ok true e gas).
Proof.
  intros He Hr Ha Hi Hg HgG. unfold StaticCall.
  destruct (NoRecursion env && (0 <? depth e)); [apply call_ok_early; auto; lia|].
  destruct (CallCreateDepth <? depth e); [apply call_ok_early; auto; lia|].
  destruct (Snapshot (statedb e)) as [snapshot s0] eqn:Es.
  apply (run_code_ok true e gas snapshot s0); try done; [apply ev_refl| |lia]. by apply new_contract_ok.
Qed.

(** ** Creation *)

(** The state in which only the creator's nonce has moved. *)
Definition bumped (e : EVM S) (caller : ContractRef) : S :=
  SetNonce (statedb e) (ref_Address caller) (u64 (GetNonce (statedb e) (ref_Address caller) + 1)).

(** What the creation of [address] leaves: on success the code the init code returned, or
    nothing where calls do not recurse; after an error the state before the creation, but for
    the nonce of the creator; before Homestead a code that cannot be paid for is not stored and
    what the init code did stays. *)
Definition create_ok (e : EVM S) (caller : ContractRef) (address : Address) (gas : Z) (r : createresult * EVM S) : Prop :=
  let '((ret, addr, leftOver, err), e') := r in
  evm_after false e e' /\ 0 <= leftOver <= gas /\ zlen ret < 2 ^ 62 /\ is_address addr /\
  match err with
  | None => addr = address /\
      (NoRecursion env && (0 <? depth e) = true \/ exists s, evolves false (bumped e caller) s /\ statedb e' = SetCode s address ret)
  | Some x =>
      (x = ErrDepth \/ x = ErrInsufficientBalance) /\ leftOver = gas /\ e' = e \/
      state_eq (statedb e') (bumped e caller) /\ (x = errExecutionReverted \/ leftOver = 0) \/
      x = ErrCodeStoreOutOfGas /\ IsHomestead (chainConfig env) (BlockNumber env) = false /\ evolves false (bumped e caller) (statedb e')
  end.

Lemma evm_after_trans md e1 e2 e3 : evm_after md e1 e2 -> evm_after md e2 e3 -> evm_after md e1 e3.
Proof.
  intros [] []. split; [done|by eapply ev_trans|congruence..].
Qed.

(** The outcome of [finish_create] seen from the state of the snapshot. *)
Definition created_ok (e : EVM S) (address : Address) (gas : Z) (r : createresult * EVM S) : Prop :=
  let '((ret, addr, leftOver, err), e') := r in
  evm_after false e e' /\ 0 <= leftOver <= gas /\ zlen ret < 2 ^ 62 /\ is_address addr /\
  match err with
  | None => addr = address /\ exists s, evolves false (statedb e) s /\ statedb e' = SetCode s address ret
  | Some x =>
      state_eq (statedb e') (statedb e) /\ (x = errExecutionReverted \/ leftOver = 0) \/
      x = ErrCodeStoreOutOfGas /\ IsHomestead (chainConfig env) (BlockNumber env) = false /\ evolves false (statedb e) (statedb e')
  end.

Lemma finish_create_ok e gas snapshot s e1 c address ret err e' c' :
  evm_ok e -> Snapshot (statedb e) = (snapshot, s) -> evolves false s (statedb e1) ->
  depth e1 = depth e -> readOnly e1 = readOnly e -> static env e = false -> Gas c = gas -> is_address address ->
  run_post false e1 c ((ret, err), e', c') ->
  post (finish_create env snapshot address ((ret, err), e', c')) (created_ok e address gas).
Proof.
  intros He Es Hev Hd Hro Hst Hgc Hadr (Ha & Hg & Hr). cbn [fst snd] in *.
  rewrite mode_false in Ha. assert (static env e1 = false) as Hst1 by (unfold static in *; by rewrite Hro).
  rewrite Hst1 in Ha. destruct Ha as [Hok Hev' Hd' Hro'].
  assert (evolves false s (statedb e')) as Hev'' by by eapply ev_trans.
  assert (evolves false (statedb e) s) as Hev0.
  { replace s with (snd (Snapshot (statedb e))) by by rewrite Es. apply ev_snapshot. }
  assert (forall x c2, 0 <= Gas c2 <= gas ->
    exists e2 c3, unwind snapshot x e' c2 = Ok (e2, c3) /\ evm_after false e e2 /\ state_eq (statedb e2) (statedb e) /\
      0 <= Gas c3 <= gas /\ (x <> errExecutionReverted -> Gas c3 = 0)) as Hun.
  { intros x c2 Hg2. destruct (unwind_ok false e e' c2 snapshot s x) as (e2 & c3 & E & H1 & H2 & H3 & H4);
      [done|done|done|done|congruence|congruence|lia|].
    exists e2, c3. repeat (split; [done|]). split; [lia|done]. }
  assert (evm_after false e e') as Hafter by (split; [done|by eapply ev_trans|congruence..]).
  unfold finish_create. destruct err as [x|].
  - destruct (_ || _) eqn:Eb; cbn [from_option id].
    + destruct (Hun x c') as (e2 & c3 & -> & H1 & H2 & H3 & H4); [lia|]. cbn. repeat (split; [done|]).
      left. split; [done|]. destruct (decide (x = errExecutionReverted)); [by left|right; auto].
    + cbn. repeat (split; [done|]). split; [lia|]. repeat (split; [done|]). right.
      apply orb_false_iff in Eb as [_ Eb]. apply orb_false_iff in Eb as [Eh Eb].
      apply negb_false_iff in Eb. apply bool_decide_eq_true in Eb. split; [done|]. split; [done|]. apply Hafter.
  - destruct (_ && (MaxCodeSize <? zlen ret)) eqn:Emax; cbn [orb].
    + cbn [from_option id]. destruct (Hun errMaxCodeSizeExceeded c') as (e2 & c3 & -> & H1 & H2 & H3 & H4); [lia|].
      cbn. repeat (split; [done|]). left. split; [done|]. right. by apply H4.
    + unfold UseGas. destruct (Z.ltb_spec (Gas c') (u64 (zlen ret * CreateDataGas))) as [Hlt|Hge].
      * destruct (_ || _) eqn:Eh.
        -- cbn [from_option id]. destruct (Hun ErrCodeStoreOutOfGas c') as (e2 & c3 & -> & H1 & H2 & H3 & H4); [lia|].
           cbn. repeat (split; [done|]). left. split; [done|]. right. by apply H4.
        -- cbn. repeat (split; [done|]). split; [lia|]. repeat (split; [done|]). right.
           split; [done|]. split; [by apply orb_false_iff in Eh as [Eh _]|apply Hafter].
      * cbn. pose proof (u64_nonneg (zlen ret * CreateDataGas)). split; [|split; [lia|]].
        -- eapply evm_after_trans; [exact Hafter|]. apply evm_after_state; [done|]. by apply ev_code.
        -- repeat (split; [done|]). exists (statedb e'). split; [apply Hafter|done].
Qed.

Lemma create_ok_spec e caller cah gas value address :
  evm_ok e -> ref_ok caller -> static env e = false -> is_address address -> 0 <= gas < max_gas -> gas < G -> 0 <= value ->
  zlen (cah_code cah) < 2 ^ 62 -> (cah_hash cah <> 0 -> cah_hash cah = Keccak256Hash (crypto env) (cah_code cah)) ->
  post (create env R e caller cah gas value address) (create_ok e caller address gas).
Proof.
  intros He Hr Hst Hadr Hg HgG Hv Hcode Hhash. unfold create.
  pose proof (ref_ok_address _ Hr) as Hra. pose proof (eo_state He) as Hs.
  assert (forall x, x = ErrDepth \/ x = ErrInsufficientBalance ->
    post (Ok (([], 0, gas, Some x), e)) (create_ok e caller address gas)) as Hearly.
  { intros x Hx. cbn. split; [by apply evm_after_refl|]. split; [lia|]. repeat (split; [done|]). by left. }
  destruct (CallCreateDepth <? depth e); [by apply Hearly; left|].
  rewrite (env_CanTransfer Henv). destruct (kernel_CanTransfer _ _ _) eqn:Ect; cbn [negb]; [|by apply Hearly; right].
  apply Z.leb_le in Ect. fold (bumped e caller). set (s1 := bumped e caller).
  assert (evolves false (statedb e) s1) as Hev1. { apply ev_nonce; [done..|apply u64_range]. }
  assert (evm_after false e (set_statedb e s1)) as Ha1 by by apply evm_after_state.
  assert (state_ok s1) as Hs1 by by eapply evolves_ok.
  destruct (_ || _).
  { cbn. split; [done|]. split; [lia|]. repeat (split; [done|]). right; left. split; [apply state_eq_refl|by right]. }
  destruct (Snapshot s1) as [snapshot s2] eqn:Es.
  assert (evolves false s1 s2) as Hev2. { replace s2 with (snd (Snapshot s1)) by by rewrite Es. apply ev_snapshot. }
  assert (state_ok s2) as Hs2 by by eapply evolves_ok.
  assert (state_eq s2 s1) as Heq2. { pose proof (snapshot_eq s1) as Hq. by rewrite Es in Hq. }
  rewrite (env_Transfer Henv). set (s3 := CreateAccount s2 address).
  assert (evolves false s2 s3) as Hev3 by by apply ev_create.
  assert (state_ok s3) as Hs3 by by eapply evolves_ok.
  set (s4 := if IsEIP158 (chainConfig env) (BlockNumber env) then SetNonce s3 address 1 else s3).
  assert (evolves false s3 s4 /\ GetBalance s4 (ref_Address caller) = GetBalance s3 (ref_Address caller)) as [Hev4 Hb4].
  { unfold s4. destruct (IsEIP158 _ _); [|by split; [apply ev_refl|]].
    split; [by apply ev_nonce|by apply nonce_balance]. }
  set (s5 := kernel_Transfer s4 (ref_Address caller) address value).
  assert (evolves false s4 s5) as Hev5.
  { apply ev_transfer; [done..| |done]. rewrite Hb4. unfold s3. rewrite create_balance, (eq_balance _ _ _ Heq2) by done.
    unfold s1, bumped. by rewrite nonce_balance. }
  assert (evolves false s2 s5) as Hev25 by (eapply ev_trans; [exact Hev3|]; eapply ev_trans; eauto).
  assert (evolves false (statedb e) s5) as Hev05 by (eapply ev_trans; [exact Hev1|]; eapply ev_trans; eauto).
  destruct (inherit_same caller (set_statedb e s5)) as (E1 & E2 & E3).
  assert (evm_ok (inherit_jumpdests caller (set_statedb e s5))) as He5 by (apply inherit_ok; by eapply evm_ok_state).
  assert (depth (inherit_jumpdests caller (set_statedb e s5)) = depth e) as Edepth by (by rewrite E2). rewrite Edepth. destruct (NoRecursion env && (0 <? depth e)) eqn:Enr.
  { cbn. split; [split; [done|by rewrite E1|done..]|]. split; [lia|]. repeat (split; [done|]). by left. }
  apply post_bind.
  set (c := SetCodeOptionalHash (NewContract caller address (Some value) gas) (Some address) cah).
  eapply post_mono; [apply (run_ok _ c [] false)|].
  - done.
  - split; cbn; try done. by exists value.
  - done.
  - done.
  - intros [[[ret err] e'] c'] Hrun.
    eapply post_mono; [eapply (finish_create_ok (set_statedb e s1) gas snapshot s2); [..|exact Hrun]|].
    + apply Ha1.
    + done.
    + by rewrite E1.
    + done.
    + done.
    + done.
    + done.
    + done.
    + intros [[[[ret' addr'] left'] err'] e2] (H1 & H2 & H3 & H4 & H5). cbn.
      split; [by eapply evm_after_trans|]. repeat (split; [done|]).
      destruct err' as [x|]; [right; exact H5|]. destruct H5 as [-> H5]. split; [done|]. by right.
Qed.

Lemma CreateAddress_address b n : is_address (CreateAddress (crypto env) b n).
Proof. apply BytesToAddress_range. Qed.

(** Both ways to create a contract, with the address it is created at. *)
Definition creation (e : EVM S) (caller : ContractRef) (code : list byte) (gas value : Z) (salt : option Z) : outcome (createresult * EVM S) :=
  match salt with
  | None => Create env R e caller code gas value
  | Some salt => Create2 env R e caller code gas value salt
  end.

Definition creation_address (e : EVM S) (caller : ContractRef) (code : list byte) (salt : option Z) : Address :=
  match salt with
  | None => CreateAddress (crypto env) (ref_Address caller) (GetNonce (statedb e) (ref_Address caller))
  | Some salt => CreateAddress2 (crypto env) (ref_Address caller) (BigToHash salt) (Hash_Bytes (Keccak256Hash (crypto env) code))
  end.

Lemma Create_ok e caller code gas value :
  evm_ok e -> ref_ok caller -> static env e = false -> 0 <= gas < max_gas -> gas < G -> 0 <= value -> zlen code < 2 ^ 62 ->
  post (Create env R e caller code gas value) (create_ok e caller (creation_address e caller code None) gas).
Proof.
  intros. unfold Create. apply create_ok_spec; try done. apply CreateAddress_address.
Qed.

Lemma Create2_ok e caller code gas value salt :
  evm_ok e -> ref_ok caller -> static env e = false -> 0 <= gas < max_gas -> gas < G -> 0 <= value -> zlen code < 2 ^ 62 ->
  post (Create2 env R e caller code gas value salt) (create_ok e caller (creation_address e caller code (Some salt)) gas).
Proof.
  intros. unfold Create2, cah_Hash. cbn [cah_hash cah_code Z.eqb]. apply create_ok_spec; try done.
  apply BytesToAddress_range.
Qed.

End evm_facts.
