(* ===== verification/CallFacts.v ===== *)
(** * The calling and creating instructions

    They keep the invariant and return less gas than the machine had before it
    paid for them: the price covers the forwarded gas and more than the stipend. *)
From S2P Require Import Prelude CommonMath Params Opcodes VmBase VmAnalysis VmInterface VmLaws Precompiles Evm.
From S2P Require Import GasTable Instructions Interpreter VmInvariant GasFacts ExecFacts PrecompileFacts.
From S2P Require Import EvmFacts.
From stdpp Require Import base numbers list gmap.
From Stdlib Require Import ZArith Lia.
#[local] Open Scope Z_scope.

Section call_facts.
Context {S : Type} `{StateDB S} (env : Env S) `{!StateDBLaws S (crypto env)}.
Context (Henv : env_ok env).
Local Abbreviation post := (post env).
Local Abbreviation machine_ok := (machine_ok env).

(** The machine had [B] gas; the instruction forwards [callGasTemp] and kept [base] back. *)
Definition call_exec_spec (ex : RunFunc S -> executionFunc S) (mf : memorySizeFunc) (pops : Z) (base : Stack -> Z)
    (ok : machine S -> Prop) : Prop :=
  forall B R m, run_spec env B R -> machine_ok m -> pops <= st_len (stack m) -> ok m ->
    (forall sz, mf (stack m) = Ok sz -> sz <= mem_Len (memory m)) ->
    0 <= callGasTemp (evm m) -> Gas (contract m) + callGasTemp (evm m) + base (stack m) <= B -> B <= max_gas ->
    post (ex R m) (fun r => exec_post env pops 1 m r /\ Gas (contract (snd r)) < B).

Lemma as_ref_ok c : contract_ok env c -> ref_ok (as_ref c).
Proof. intros []. cbn. auto. Qed.

Lemma covered_max mem o1 l1 o2 l2 st a1 b1 a2 b2 :
  st !! a1 = Some o1 -> st !! b1 = Some l1 -> st !! a2 = Some o2 -> st !! b2 = Some l2 ->
  (forall sz, (let! x := memoryAt a1 b1 st in let! y := memoryAt a2 b2 st in Ok (BigMax x y)) = Ok sz -> sz <= mem_Len mem) ->
  covered mem o1 l1 /\ covered mem o2 l2.
Proof.
  intros E1 E2 E3 E4 Hc. unfold memoryAt, st_Back, calcMemSize in Hc. rewrite E1, E2, E3, E4 in Hc. cbn in Hc.
  rewrite !Sign_eqb in Hc. specialize (Hc _ eq_refl). unfold covered, BigMax in *.
  zdestruct; try lia; split; auto; right; lia.
Qed.

Lemma evolves_mode (e : EVM S) ro s s' : evolves (mode env e ro) s s' -> evolves (static env e) s s'.
Proof.
  unfold mode, static. intros He. destruct (rules_IsByzantium _); [|done]. cbn in *.
  destruct (readOnly e); [done|]. by eapply evolves_weaken.
Qed.

Lemma after_call_ok ro gas B pops (m0 m : machine S) r retOffset retSize :
  evm_ok env (evm m) -> contract_ok env (contract m) -> mem_ok (memory m) -> Forall (Z.le 0) (stack m) ->
  evm m = evm m0 -> contract m = contract m0 -> pc m = pc m0 -> memory m = memory m0 ->
  st_len (stack m) = st_len (stack m0) - pops ->
  0 <= retOffset -> 0 <= retSize -> covered (memory m) retOffset retSize ->
  call_ok env ro (evm m) gas r -> Gas (contract m) + gas < B -> B <= max_gas ->
  post (after_call r retOffset retSize m) (fun r => exec_post env pops 1 m0 r /\ Gas (contract (snd r)) < B).
Proof.
  intros He Hc Hmem Hst Ee Ec Ep Em Hh Ho Hsz Hcov. destruct r as [[[ret left'] err] e'].
  intros ([H1 H2 H3 H4] & Hl & Hret & _) HB Hmax. unfold after_call.
  destruct m as [p e c mem st]. destruct m0 as [p0 e0 c0 mem0 st0]. cbn [pc evm contract memory stack] in *. subst.
  cbn [vbind put_evm push put_stack st_push pc evm contract memory stack].
  unfold vbind at 1.
  assert (forall m1 : machine S, memory m1 = mem0 -> exists mem',
    (if bool_decide (err = None) || bool_decide (err = Some errExecutionReverted)
     then write_memory retOffset retSize ret else vret tt) m1 =
      Ok (tt, mkMachine (pc m1) (evm m1) (contract m1) mem' (stack m1)) /\ mem_ok mem') as Hwrite.
  { intros m1 E. destruct (_ || _).
    - destruct (write_memory_ok m1 retOffset retSize ret) as (mem' & -> & Hok & _); [by rewrite E|done|done|by rewrite E|].
      by exists mem'.
    - exists mem0. split; [|done]. destruct m1; cbn in *. by subst. }
  match goal with |- context [(if _ then write_memory _ _ _ else _) ?m1] =>
    destruct (Hwrite m1 eq_refl) as (mem' & -> & Hmem') end.
  cbn [vbind return_gas gets put_contract vret pc evm contract memory stack VmInvariant.post fst snd].
  pose proof (co_gas Hc) as Hg. unfold max_gas in *.
  rewrite u64_small by (unfold is_u64, MaxUint64; lia).
  split; [|cbn; lia]. split; cbn [fst snd pc evm contract memory stack].
  - done.
  - apply contract_ok_gas; [done|]. unfold max_gas. lia.
  - by repeat split.
  - done.
  - apply Forall_cons_2; [apply z_of_bool_nonneg|done].
  - rewrite st_len_cons. lia.
  - split; [by eapply evolves_mode|done..].
  - by left.
  - done.
Qed.

Lemma post_lift {A B} (c : outcome A) (k : A -> M S B) m (Q : B * machine S -> Prop) :
  post c (fun a => post (k a m) Q) -> post (vbind (lift c) k m) Q.
Proof. unfold vbind, lift. by destruct c. Qed.

(** Open the machine and the top of its stack. *)
Tactic Notation "open_call" integer(n) :=
  let m := fresh "m" in
  intros B R m HR Hm Hp Hok Hcov Ht HB Hmax; pose proof (ok_evm Hm) as Hevm; pose proof (ok_contract Hm) as Hcon;
  pose proof (ok_memory Hm) as Hmem; pose proof (ok_stack Hm) as Hst; pose proof (co_gas Hcon) as Hgas;
  destruct m as [p e c mem st]; cbn [pc evm contract memory stack] in *;
  do n (let x := fresh "x" in destruct st as [|x st];
        [exfalso; revert Hp; unfold st_len, zlen; cbn; lia
        |let Hx := fresh "Hx" in apply Forall_cons in Hst as [Hx Hst]]).

Ltac run_call :=
  cbn [vbind vret lift gets pop st_pop fst snd pc evm contract memory stack].

Lemma call_value_gas v : 0 <= v -> 0 <= U256 v /\ (U256 v <> 0 -> v <> 0).
Proof. intros Hv. split; [apply U256_word|]. intros Hn ->. by apply Hn. Qed.

(** The gas handed to the callee stays below what the machine had. *)
Lemma stipend_bound B g t v : 0 <= g -> 0 <= t -> 0 <= v ->
  g + t + (if v =? 0 then 40 else CallValueTransferGas) <= B -> B <= max_gas ->
  let gas := if negb (Sign (U256 v) =? 0) then u64 (t + CallStipend) else t in
  0 <= gas < max_gas /\ gas < B /\ g + gas < B.
Proof.
  intros Hg Ht Hv HB Hmax.
  destruct (call_value_gas v Hv) as [_ Hn]. rewrite Sign_eqb. unfold max_gas, CallValueTransferGas, CallStipend in *.
  destruct (Z.eqb_spec (U256 v) 0) as [E0|E0]; cbn [negb].
  - destruct (v =? 0); lia.
  - specialize (Hn E0). destruct (Z.eqb_spec v 0); [lia|]. rewrite u64_small by (unfold is_u64, MaxUint64; lia). lia.
Qed.

Ltac cover_both mem o1 l1 o2 l2 a1 b1 a2 b2 Hcov :=
  match goal with
  | Hm : VmInvariant.machine_ok _ (mkMachine _ _ _ _ ?stk) |- _ =>
      destruct (covered_max mem o1 l1 o2 l2 stk a1 b1 a2 b2) as [Hc1 Hc2];
      [reflexivity|reflexivity|reflexivity|reflexivity|exact Hcov|]
  end.

Ltac finish_op gas HB Hc1 :=
  let r := fresh "r" in let Hr := fresh "Hr" in
  intros r Hr; cbn beta in HB;
  match goal with
  | |- VmInvariant.post _ (after_call r ?o ?l ?m) (fun r => exec_post _ ?pops _ ?m0 r /\ _) =>
      eapply (after_call_ok _ gas _ pops m0 m r o l); try done; cbn [stack contract]; rewrite ?st_len_cons; lia
  end.

Lemma opCall_ok : call_exec_spec (opCall env) memoryCall 7 call_base
  (fun m => static env (evm m) = true -> stack m !! 2%nat = Some 0).
Proof.
  unfold opCall. open_call 7. run_call. cover_both mem x4 x5 x2 x3 5%nat 6%nat 3%nat 4%nat Hcov.
  rewrite mem_Get_ok by done. run_call.
  destruct (stipend_bound B (Gas c) (callGasTemp e) x1 (proj1 Hgas) Ht Hx1 HB Hmax) as (G1 & G2 & G3).
  set (gas := if negb (Sign (U256 x1) =? 0) then _ else _) in *.
  apply post_lift. eapply post_mono; [apply (Call_ok env Henv B R HR)|].
  - done.
  - by apply as_ref_ok.
  - by apply BigToAddress_range.
  - by apply zlen_mem_slice.
  - done.
  - done.
  - by apply call_value_gas.
  - intros Es. specialize (Hok Es). cbn in Hok. by injection Hok as ->.
  - finish_op gas HB Hc1.
Qed.

Lemma opCallCode_ok : call_exec_spec (opCallCode env) memoryCall 7 call_base (fun _ => True).
Proof.
  unfold opCallCode. open_call 7. run_call. cover_both mem x4 x5 x2 x3 5%nat 6%nat 3%nat 4%nat Hcov.
  rewrite mem_Get_ok by done. run_call.
  destruct (stipend_bound B (Gas c) (callGasTemp e) x1 (proj1 Hgas) Ht Hx1 HB Hmax) as (G1 & G2 & G3).
  set (gas := if negb (Sign (U256 x1) =? 0) then _ else _) in *.
  apply post_lift. eapply post_mono; [apply (CallCode_ok env Henv B R HR)|].
  - done.
  - by apply as_ref_ok.
  - by apply BigToAddress_range.
  - by apply zlen_mem_slice.
  - done.
  - done.
  - by apply call_value_gas.
  - finish_op gas HB Hc1.
Qed.

Lemma opDelegateCall_ok : call_exec_spec (opDelegateCall env) memoryDelegateCall 6 (fun _ => 40) (fun _ => True).
Proof.
  unfold opDelegateCall. open_call 6. run_call. cover_both mem x3 x4 x1 x2 4%nat 5%nat 2%nat 3%nat Hcov.
  rewrite mem_Get_ok by done. run_call.
  apply post_lift. eapply post_mono; [apply (DelegateCall_ok env Henv B R HR)|].
  - done.
  - by apply as_ref_ok.
  - by apply BigToAddress_range.
  - by apply zlen_mem_slice.
  - lia.
  - lia.
  - finish_op (callGasTemp e) HB Hc1.
Qed.

Lemma opStaticCall_ok : call_exec_spec (opStaticCall env) memoryStaticCall 6 (fun _ => 40) (fun _ => True).
Proof.
  unfold opStaticCall. open_call 6. run_call. cover_both mem x3 x4 x1 x2 4%nat 5%nat 2%nat 3%nat Hcov.
  rewrite mem_Get_ok by done. run_call.
  apply post_lift. eapply post_mono; [apply (StaticCall_ok env Henv B R HR)|].
  - done.
  - by apply as_ref_ok.
  - by apply BigToAddress_range.
  - by apply zlen_mem_slice.
  - lia.
  - lia.
  - finish_op (callGasTemp e) HB Hc1.
Qed.

(** ** Creation *)

(** Creation is given what is left after its price; the machine had [B]. *)
Definition create_exec_spec (ex : RunFunc S -> executionFunc S) (mf : memorySizeFunc) (pops : Z) : Prop :=
  forall B R m, run_spec env B R -> machine_ok m -> pops <= st_len (stack m) -> static env (evm m) = false ->
    (forall sz, mf (stack m) = Ok sz -> sz <= mem_Len (memory m)) ->
    Gas (contract m) < B -> B <= max_gas ->
    post (ex R m) (fun r => exec_post env pops 1 m r /\ Gas (contract (snd r)) < B).

Lemma UseGas_snd c g : 0 <= g <= Gas c -> snd (UseGas c g) = set_Gas c (Gas c - g).
Proof. intros Hg. unfold UseGas. destruct (Z.ltb_spec (Gas c) g); [lia|done]. Qed.

(** The end of both creating instructions. *)
Lemma after_create_ok pops B gas (m0 m : machine S) e' (addr leftOver : Z) (res : list byte) suberr x :
  evm_after env false (evm m0) e' -> static env (evm m0) = false ->
  contract_ok env (contract m0) -> mem_ok (memory m0) -> Forall (Z.le 0) (stack m) ->
  contract m = set_Gas (contract m0) (Gas (contract m0) - gas) -> 0 <= gas <= Gas (contract m0) ->
  pc m = pc m0 -> memory m = memory m0 -> st_len (stack m) = st_len (stack m0) - pops ->
  0 <= leftOver <= gas -> 0 <= x -> zlen res < 2 ^ 62 -> Gas (contract m0) < B ->
  post ((seq! put_evm e' in seq! push x in seq! return_gas leftOver in vret (revert_data res suberr)) m)
    (fun r => exec_post env pops 1 m0 r /\ Gas (contract (snd r)) < B).
Proof.
  intros [H1 H2 H3 H4] Hst Hc Hmem Hs Ec Hg Ep Em Hh Hl Hx Hr HB.
  destruct m as [p e c mem st]. destruct m0 as [p0 e0 c0 mem0 st0]. cbn [pc evm contract memory stack] in *. subst.
  cbn [vbind put_evm push put_stack st_push return_gas gets put_contract vret pc evm contract memory stack VmInvariant.post fst snd].
  pose proof (co_gas Hc) as Hgas. unfold max_gas in *. cbn [Gas set_Gas].
  rewrite u64_small by (unfold is_u64, MaxUint64; lia).
  split; [|cbn; lia]. split; cbn [fst snd pc evm contract memory stack].
  - done.
  - apply contract_ok_gas; [apply contract_ok_gas; [done|]|]; unfold max_gas; lia.
  - by repeat split.
  - done.
  - by apply Forall_cons_2.
  - rewrite st_len_cons. lia.
  - split; [by rewrite Hst|done..].
  - by left.
  - unfold revert_data. by case_match.
Qed.

Lemma create_gas_bound g : 0 <= g -> 0 <= g - g / 64 <= g.
Proof. intros Hg. pose proof (Z.div_pos g 64 Hg eq_refl). pose proof (Z.div_le_upper_bound g 64 g ltac:(lia) ltac:(lia)). lia. Qed.

Ltac open_create n :=
  intros B R m HR Hm Hp Hok Hcov HB Hmax; pose proof (ok_evm Hm) as Hevm; pose proof (ok_contract Hm) as Hcon;
  pose proof (ok_memory Hm) as Hmem; pose proof (ok_stack Hm) as Hst; pose proof (co_gas Hcon) as Hgas;
  destruct m as [p e c mem st]; cbn [pc evm contract memory stack] in *.

Lemma opCreate_ok : create_exec_spec (opCreate env) memoryCreate 3.
Proof.
  unfold opCreate. open_create 3.
  do 3 (let x := fresh "x" in destruct st as [|x st];
        [exfalso; revert Hp; unfold st_len, zlen; cbn; lia
        |let Hx := fresh "Hx" in apply Forall_cons in Hst as [Hx Hst]]). run_call.
  assert (covered mem x0 x1) as Hc1.
  { apply (memoryAt_covered 1 2 (x :: x0 :: x1 :: st)); [reflexivity..|exact Hcov]. }
  rewrite mem_Get_ok by done. run_call.
  set (gas := if IsEIP150 _ _ then _ else _).
  assert (0 <= gas <= Gas c) as Hg by (unfold gas; pose proof (create_gas_bound (Gas c)); case_match; lia).
  unfold use_gas. cbn [vbind gets put_contract pc evm contract memory stack]. rewrite UseGas_snd by done.
  apply post_lift. eapply post_mono; [apply (Create_ok env Henv B R HR)|].
  - done.
  - by apply as_ref_ok.
  - done.
  - lia.
  - lia.
  - done.
  - by apply zlen_mem_slice.
  - intros [[[[res addr] leftOver] suberr] e'] (H1 & H2 & H3 & [H4 _] & _).
    apply (after_create_ok 3 B gas (mkMachine p e c mem (x :: x0 :: x1 :: st))); try done;
      [cbn; rewrite !st_len_cons; lia|repeat case_match; lia].
Qed.

Lemma opCreate2_ok : create_exec_spec (opCreate2 env) memoryCreate2 4.
Proof.
  unfold opCreate2. open_create 4.
  do 4 (let x := fresh "x" in destruct st as [|x st];
        [exfalso; revert Hp; unfold st_len, zlen; cbn; lia
        |let Hx := fresh "Hx" in apply Forall_cons in Hst as [Hx Hst]]). run_call.
  assert (covered mem x0 x1) as Hc1.
  { apply (memoryAt_covered 1 2 (x :: x0 :: x1 :: x2 :: st)); [reflexivity..|exact Hcov]. }
  rewrite mem_Get_ok by done. run_call.
  set (gas := Gas c - Gas c / 64). assert (0 <= gas <= Gas c) as Hg by (apply create_gas_bound; lia).
  unfold use_gas. cbn [vbind gets put_contract pc evm contract memory stack]. rewrite UseGas_snd by done.
  apply post_lift. eapply post_mono; [apply (Create2_ok env Henv B R HR)|].
  - done.
  - by apply as_ref_ok.
  - done.
  - lia.
  - lia.
  - done.
  - by apply zlen_mem_slice.
  - intros [[[[res addr] leftOver] suberr] e'] (H1 & H2 & H3 & [H4 _] & _).
    apply (after_create_ok 4 B gas (mkMachine p e c mem (x :: x0 :: x1 :: x2 :: st))); try done;
      [cbn; rewrite !st_len_cons; lia|repeat case_match; lia].
Qed.
End call_facts.
