(* ===== verification/InterpreterFacts.v ===== *)
(** * The interpreter terminates, pays for every round and keeps the invariant

    One lemma per kind of table entry, then the tables of all hard forks, one
    round ([step_ok]), the loop and [Run] ([Run_ok]): fuel above the gas is
    enough because every round that goes on costs gas. *)
From S2P Require Import Prelude CommonMath Params Opcodes VmBase VmAnalysis VmInterface VmLaws Precompiles Evm.
From S2P Require Import GasTable Instructions JumpTable Interpreter VmInvariant GasFacts ExecFacts.
From S2P Require Import PrecompileFacts EvmFacts CallFacts.
From stdpp Require Import base numbers list gmap.
From Stdlib Require Import ZArith Lia.
#[local] Open Scope Z_scope.

Section interpreter_facts.
Context {S : Type} `{StateDB S} (env : Env S) `{!StateDBLaws S (crypto env)}.
Context (Henv : env_ok env).
Local Abbreviation post := (post env).
Local Abbreviation machine_ok := (machine_ok env).

(** ** One round *)

Definition step_post (m : machine S) (p : progress S) : Prop :=
  match p with
  | Continue m' => machine_ok m' /\ evm_frame env (evm m) (evm m') /\ Gas (contract m') < Gas (contract m)
  | Halt res m' => evm_ok env (evm m') /\ evm_frame env (evm m) (evm m') /\
      0 <= Gas (contract m') <= Gas (contract m) /\ zlen (fst res) < 2 ^ 62
  end.

(** The machine on which the instruction body runs. *)
Definition charged (m1 : machine S) (cost size : Z) : machine S :=
  mkMachine (pc m1) (evm m1) (set_Gas (contract m1) (Gas (contract m1) - cost)) (resized (memory m1) size) (stack m1).

Lemma charged_ok m m1 cost size : machine_ok m -> gas_frame env m m1 -> 0 <= cost <= Gas (contract m) ->
  mem_ok (resized (memory m1) size) -> machine_ok (charged m1 cost size).
Proof.
  intros Hm Hf Hc Hmem. unfold charged. rewrite (gf_contract _ _ _ Hf), (gf_stack _ _ _ Hf), (gf_pc _ _ _ Hf).
  pose proof (co_gas (ok_contract Hm)). split; cbn.
  - apply Hf.
  - apply contract_ok_gas; [apply (ok_contract Hm)|unfold max_gas in *; lia].
  - done.
  - apply (ok_stack Hm).
  - apply (ok_depth Hm).
  - apply (ok_pc Hm).
Qed.

(** What the checks before the gas charge have established. *)
Record checked_op (op : OpCode) (o : operation_ S) (pops pushes size : Z) (m : machine S) : Prop := {
  ck_machine : machine_ok m;
  ck_pops : pops <= st_len (stack m);
  ck_pushes : st_len (stack m) - pops + pushes <= StackLimit;
  ck_pc : op <> STOP -> pc m < zlen (Code (contract m));
  ck_writes : static env (evm m) = true -> writes o = false;
  ck_call : static env (evm m) = true -> op = CALL -> stack m !! 2%nat = Some 0;
  ck_size : 0 <= size /\ size mod 32 = 0;
  ck_nomem : memorySize o = None -> size = 0;
  ck_mem : forall f sz, memorySize o = Some f -> f (stack m) = Ok sz -> sz <= size
}.

(** Gas is charged, then the body runs within its budget. *)
Definition runs_op (o : operation_ S) (pops pushes size : Z) (m : machine S) (r : result vmerror Z * machine S) : Prop :=
  gas_frame env m (snd r) /\
  match fst r with
  | Err _ => True
  | Good cost => 0 <= cost /\ (cost <= Gas (contract m) ->
      post (execute o (charged (snd r) cost size)) (fun r2 =>
        exec_post env pops pushes (charged (snd r) cost size) r2 /\ Gas (contract (snd r2)) <= Gas (contract m) /\
        (halts o || reverts o = false -> Gas (contract (snd r2)) < Gas (contract m))))
  end.

Lemma step_execute_ok o pops pushes size m m1 :
  gas_frame env m m1 -> machine_ok m -> (halts o || reverts o = false -> pc m < zlen (Code (contract m))) ->
  st_len (stack m) - pops + pushes <= StackLimit ->
  (forall cost, 0 <= cost <= Gas (contract m) ->
   post (execute o (charged m1 cost size)) (fun r2 =>
        exec_post env pops pushes (charged m1 cost size) r2 /\ Gas (contract (snd r2)) <= Gas (contract m) /\
        (halts o || reverts o = false -> Gas (contract (snd r2)) < Gas (contract m))) ->
   post (step_execute o size (with_contract m1 (set_Gas (contract m1) (Gas (contract m1) - cost)))) (step_post m)).
Proof.
  intros Hf Hm Hpc Hlim cost Hcost Hex. unfold step_execute.
  replace (if 0 <? size then _ else _) with (charged m1 cost size) by (unfold charged, resized; by case_match).
  apply post_bind. eapply post_mono; [exact Hex|]. intros [[res err] m2] (Hx & Hg & Hlt); cbn [fst snd] in *.
  assert (evm_frame env (evm m) (evm m2)) as Hfr by (eapply evm_frame_trans; [apply Hf|apply Hx]).
  set (m3 := if returns o then _ else _).
  assert (evm_ok env (evm m3) /\ evm_frame env (evm m) (evm m3) /\ contract m3 = contract m2 /\ pc m3 = pc m2 /\
    memory m3 = memory m2 /\ stack m3 = stack m2) as (He3 & Hf3 & Ec3 & Ep3 & Em3 & Es3).
  { unfold m3. destruct (returns o); [|by repeat split; try apply Hx; try apply Hfr].
    repeat split; try apply Hfr; apply Hx. }
  pose proof (xp_contract _ _ _ _ _ Hx) as Hc2. cbn [snd] in Hc2. pose proof (co_gas Hc2) as Hg2.
  pose proof (xp_data _ _ _ _ _ Hx) as Hd. cbn [fst] in Hd.
  destruct err as [x|]; [cbn; rewrite Ec3; repeat (split; [done|]); by split; [lia|]|].
  destruct (reverts o) eqn:Er; [cbn; rewrite Ec3; repeat (split; [done|]); by split; [lia|]|].
  destruct (halts o) eqn:Eh; [cbn; rewrite Ec3; repeat (split; [done|]); by split; [lia|]|].
  specialize (Hpc eq_refl). specialize (Hlt eq_refl).
  assert (Code (contract m2) = Code (contract m)) as Ecode.
  { destruct (xp_same _ _ _ _ _ Hx) as [E _]. cbn in E. by rewrite E, (gf_contract _ _ _ Hf). }
  assert (machine_ok m3 /\ pc m3 <= zlen (Code (contract m3)) + 32 /\ 0 <= pc m3) as (Hm3 & Hp3 & Hp0).
  { pose proof (xp_pc _ _ _ _ _ Hx) as Hp. cbn [snd charged pc contract Code set_Gas] in Hp.
    rewrite (gf_pc _ _ _ Hf), (gf_contract _ _ _ Hf) in Hp. pose proof (ok_pc Hm).
    split; [|rewrite Ep3, Ec3, Ecode; destruct Hp as [->|]; lia].
    split; rewrite ?Ec3, ?Ep3, ?Em3, ?Es3; try apply Hx; try done.
    - pose proof (xp_height _ _ _ _ _ Hx) as Hh. cbn in Hh. rewrite (gf_stack _ _ _ Hf) in Hh. lia.
    - rewrite Ecode. destruct Hp as [->|]; lia. }
  destruct (negb (jumps o)); cbn; rewrite ?Ec3; (split; [|by split]); [|done].
  pose proof (co_code (ok_contract Hm3)). destruct Hm3. split; cbn; try done.
  rewrite u64_small by (unfold is_u64, MaxUint64; lia). lia.
Qed.

(** ** The checks before an instruction *)

(** A memory size function works on a stack of [pops] items. *)
Definition mf_ok (mf : option memorySizeFunc) (pops : Z) : Prop :=
  forall f st, mf = Some f -> pops <= st_len st -> Forall (Z.le 0) st -> exists sz, f st = Ok sz /\ 0 <= sz.

Lemma makeStackFunc_None pops pushes st : makeStackFunc pops pushes st = None ->
  pops <= st_len st /\ st_len st - pops + pushes <= StackLimit.
Proof.
  unfold makeStackFunc, st_require. destruct (Z.ltb_spec (st_len st) pops); [done|].
  destruct (Z.ltb_spec StackLimit (st_len st + pushes - pops)); intros; try done; lia.
Qed.

Lemma enforceRestrictions_ok op o pops m : machine_ok m -> pops <= st_len (stack m) -> (op = CALL -> 3 <= pops) ->
  exists r, enforceRestrictions env (readOnly (evm m)) op o (stack m) = Ok r /\
    (r = None -> static env (evm m) = true -> writes o = false /\ (op = CALL -> stack m !! 2%nat = Some 0)).
Proof.
  intros Hm Hp Hcall. unfold enforceRestrictions. fold (static env (evm m)).
  destruct (static env (evm m)); [|by eexists]. destruct (writes o); [by eexists|].
  destruct (Z.eqb_spec op CALL) as [->|Hn]; [|by eexists].
  destruct (Back_ok m 2) as (v & Ev & Hv & _); [apply (ok_stack Hm)|specialize (Hcall eq_refl); lia|].
  unfold st_Back. rewrite Ev. cbn. eexists. split; [reflexivity|]. intros Hr _. split; [done|]. intros _.
  destruct (Z.ltb_spec 0 (BitLen v)); [done|]. f_equal. pose proof (proj2 (BitLen_le v 0 ltac:(lia)) ltac:(lia)). lia.
Qed.

Lemma memory_size_ok mf pops st : mf_ok mf pops -> pops <= st_len st -> Forall (Z.le 0) st ->
  exists r, memory_size mf st = Ok r /\ forall size, r = Good size ->
    (0 <= size /\ size mod 32 = 0) /\ (mf = None -> size = 0) /\
    (forall f sz, mf = Some f -> f st = Ok sz -> sz <= size).
Proof.
  intros Hmf Hp Hst. unfold memory_size. destruct mf as [f|]; [|eexists; split; [reflexivity|by intros ? [= <-]]].
  destruct (Hmf f st eq_refl Hp Hst) as (sz & E & Hsz). rewrite E. cbn [obind].
  pose proof (memory_size_good sz) as Hg. destruct (bigUint64 sz) as [v ov].
  destruct ov; (eexists; split; [reflexivity|]); [done|]. intros size Hs.
  destruct (Hg size Hsz Hs) as (H1 & H2 & H3). split; [lia|]. split; [done|].
  intros f' sz' [= <-]. rewrite E. intros [= <-]. done.
Qed.

Lemma step_operation_ok op o pops pushes m :
  machine_ok m -> validateStack o = makeStackFunc pops pushes -> mf_ok (memorySize o) pops -> (op = CALL -> 3 <= pops) ->
  (op <> STOP -> pc m < zlen (Code (contract m))) -> (op = STOP -> halts o = true) ->
  (forall size, checked_op op o pops pushes size m -> post (gasCost o (gasTable env) size m) (runs_op o pops pushes size m)) ->
  post (step_operation env op o m) (step_post m).
Proof.
  intros Hm Hv Hmf Hcall Hpc Hstop Hrun. unfold step_operation. rewrite Hv.
  pose proof (co_gas (ok_contract Hm)) as Hgas.
  assert (forall r : opresult, zlen (fst r) < 2 ^ 62 -> post (Ok (Halt r m)) (step_post m)) as Hhalt.
  { intros r Hr. cbn. split; [apply (ok_evm Hm)|]. split; [apply evm_frame_refl|]. by split; [lia|]. }
  destruct (makeStackFunc pops pushes (stack m)) eqn:Es; [by apply Hhalt|].
  apply makeStackFunc_None in Es as [Hp Hl].
  destruct (enforceRestrictions_ok op o pops m Hm Hp Hcall) as (r & -> & Hr). cbn [obind].
  destruct r; [by apply Hhalt|]. specialize (Hr eq_refl).
  destruct (memory_size_ok _ pops (stack m) Hmf Hp (ok_stack Hm)) as (sz & -> & Hsz). cbn [obind].
  destruct sz as [size|]; [|by apply Hhalt]. destruct (Hsz size eq_refl) as (H1 & H2 & H3).
  apply post_bind. eapply post_mono; [apply Hrun; split; try done; intros; by apply Hr|].
  intros [cost m1] [Hf Hr1]; cbn [fst snd] in *.
  assert (forall r : opresult, zlen (fst r) < 2 ^ 62 -> post (Ok (Halt r m1)) (step_post m)) as Hhalt1.
  { intros r' Hr'. cbn. rewrite (gf_contract _ _ _ Hf). split; [apply Hf|]. split; [apply Hf|]. by split; [lia|]. }
  destruct cost as [cost|]; [|by apply Hhalt1]. destruct Hr1 as [Hc Hex].
  unfold UseGas. destruct (Z.ltb_spec (Gas (contract m1)) cost) as [Hlt|Hge]; [by apply Hhalt1|].
  rewrite (gf_contract _ _ _ Hf) in Hge.
  eapply step_execute_ok; [done|done| |done|lia|by apply Hex].
  intros Hh. apply Hpc. intros ->. rewrite Hstop in Hh by done. done.
Qed.

(** ** Kinds of table entries *)

Lemma resized_mem_Len (mem : Memory) size sz : 0 <= size -> sz <= size -> sz <= mem_Len (resized mem size).
Proof. intros. rewrite mem_Len_resized by done. lia. Qed.

(** An instruction with its own price. *)
Lemma simple_runs op o pops pushes size m low w :
  checked_op op o pops pushes size m -> w = writes o -> op <> STOP -> (halts o || reverts o = false -> 1 <= low) -> 0 <= low ->
  gas_spec env (gasCost o) (match memorySize o with Some _ => true | None => false end) w low pops ->
  exec_spec env (execute o) (memorySize o) w pops pushes ->
  post (gasCost o (gasTable env) size m) (runs_op o pops pushes size m).
Proof.
  intros Hck Hw Hop Hlow Hlow0 Hgas Hex. pose proof (ck_machine _ _ _ _ _ _ Hck) as Hm.
  assert (w = true -> static env (evm m) = false) as Hstat.
  { intros E. destruct (static env (evm m)) eqn:Es; [|done]. pose proof (ck_writes _ _ _ _ _ _ Hck Es). congruence. }
  eapply post_mono; [apply Hgas|].
  - done.
  - apply Hck.
  - apply Hck.
  - apply Hck.
  - intros E. apply (ck_nomem _ _ _ _ _ _ Hck). by destruct (memorySize o).
  - done.
  - intros [[cost|e] m1] [Hf Hr]; (split; [done|]); cbn [fst snd] in *; [|done].
    destruct Hr as (Hl & Hu & Hmem). split; [apply Hu|]. intros Hle.
    eapply post_mono; [apply Hex|].
    + eapply charged_ok; [exact Hm|done|unfold is_u64 in Hu; lia|done].
    + cbn. rewrite (gf_stack _ _ _ Hf). apply Hck.
    + cbn. rewrite (gf_contract _ _ _ Hf), (gf_pc _ _ _ Hf). by apply Hck.
    + intros f sz Ef. cbn. rewrite (gf_stack _ _ _ Hf). intros Esz.
      apply resized_mem_Len; [apply Hck|by eapply (ck_mem _ _ _ _ _ _ Hck)].
    + cbn. intros E. rewrite (static_frame _ _ _ (gf_evm _ _ _ Hf)). auto.
    + intros r2 [Hx Hg]. split; [done|]. rewrite Hg. cbn. rewrite (gf_contract _ _ _ Hf).
      unfold is_u64 in Hu. split; [lia|]. intros Hh. specialize (Hlow Hh). lia.
Qed.

(** A call. *)
Lemma call_runs op o B R pops base ex mf ok size m :
  checked_op op o pops 1 size m -> run_spec env B R -> Gas (contract m) <= B -> op <> STOP ->
  execute o = ex R -> memorySize o = Some mf ->
  post (gasCost o (gasTable env) size m) (call_post env size (base (stack m)) m) ->
  call_exec_spec env ex mf pops base ok -> (forall m', stack m' = stack m -> static env (evm m') = static env (evm m) -> ok m') ->
  post (gasCost o (gasTable env) size m) (runs_op o pops 1 size m).
Proof.
  intros Hck HR HB Hop Eex Emf Hgas Hex Hok. pose proof (ck_machine _ _ _ _ _ _ Hck) as Hm.
  eapply post_mono; [exact Hgas|]. intros [[cost|e] m1] [Hf Hr]; (split; [done|]); cbn [fst snd] in *; [|done].
  destruct Hr as (Hu & Hmem & Ht & Hbase). split; [apply Hu|]. intros Hle. rewrite Eex.
  pose proof (co_gas (ok_contract Hm)) as Hg.
  eapply post_mono; [apply (Hex (Gas (contract m)) R)|].
  - intros e0 c0 i0 ro0 He0 Hc0 Hi0 Hg0. apply HR; [done..|lia].
  - eapply charged_ok; [exact Hm|done|unfold is_u64 in Hu; lia|done].
  - cbn. rewrite (gf_stack _ _ _ Hf). apply Hck.
  - apply Hok; cbn; [apply Hf|]. apply static_frame. apply Hf.
  - cbn. rewrite (gf_stack _ _ _ Hf). intros sz Esz.
    apply resized_mem_Len; [apply Hck|by eapply (ck_mem _ _ _ _ _ _ Hck)].
  - done.
  - cbn. rewrite (gf_stack _ _ _ Hf), (gf_contract _ _ _ Hf). lia.
  - lia.
  - intros r2 [Hx Hlt]. split; [done|]. split; [lia|done].
Qed.

(** A creation. *)
Lemma create_runs op o B R pops ex mf size m :
  checked_op op o pops 1 size m -> run_spec env B R -> Gas (contract m) <= B -> op <> STOP -> writes o = true ->
  execute o = ex R -> memorySize o = Some mf -> gas_spec env (gasCost o) true false 1 pops ->
  create_exec_spec env ex mf pops ->
  post (gasCost o (gasTable env) size m) (runs_op o pops 1 size m).
Proof.
  intros Hck HR HB Hop Hw Eex Emf Hgas Hex. pose proof (ck_machine _ _ _ _ _ _ Hck) as Hm.
  assert (static env (evm m) = false) as Hstat.
  { destruct (static env (evm m)) eqn:Es; [|done]. pose proof (ck_writes _ _ _ _ _ _ Hck Es). congruence. }
  pose proof (co_gas (ok_contract Hm)) as Hg.
  eapply post_mono; [apply Hgas; [done|apply Hck..|done|done]|].
  intros [[cost|e] m1] [Hf Hr]; (split; [done|]); cbn [fst snd] in *; [|done].
  destruct Hr as (Hl & Hu & Hmem). split; [apply Hu|]. intros Hle. rewrite Eex.
  eapply post_mono; [apply (Hex (Gas (contract m)) R)|].
  - intros e0 c0 i0 ro0 He0 Hc0 Hi0 Hg0. apply HR; [done..|lia].
  - eapply charged_ok; [exact Hm|done|unfold is_u64 in Hu; lia|done].
  - cbn. rewrite (gf_stack _ _ _ Hf). apply Hck.
  - cbn. rewrite (static_frame _ _ _ (gf_evm _ _ _ Hf)). done.
  - cbn. rewrite (gf_stack _ _ _ Hf). intros sz Esz.
    apply resized_mem_Len; [apply Hck|by eapply (ck_mem _ _ _ _ _ _ Hck)].
  - cbn. rewrite (gf_contract _ _ _ Hf). lia.
  - lia.
  - intros r2 [Hx Hlt]. split; [done|]. split; [lia|done].
Qed.

(** ** Memory size functions *)

Lemma st_Back_ok st n : Forall (Z.le 0) st -> Z.of_nat n < st_len st -> exists x, st_Back st n = Ok x /\ 0 <= x.
Proof.
  intros Hst Hn. unfold st_len, zlen in Hn. destruct (lookup_lt_is_Some_2 st n ltac:(lia)) as [x Hx].
  exists x. unfold st_Back. rewrite Hx. split; [done|]. by eapply Forall_lookup_1 in Hst.
Qed.

Lemma memoryAt_some a b st : Forall (Z.le 0) st -> Z.of_nat a < st_len st -> Z.of_nat b < st_len st ->
  exists sz, memoryAt a b st = Ok sz /\ 0 <= sz.
Proof.
  intros Hst Ha Hb. unfold memoryAt.
  destruct (st_Back_ok st a Hst Ha) as (x & -> & Hx). destruct (st_Back_ok st b Hst Hb) as (y & -> & Hy).
  cbn. eexists. split; [reflexivity|]. unfold calcMemSize. case_match; lia.
Qed.

Lemma mf_ok_None pops : mf_ok None pops.
Proof. intros f st [=]. Qed.

Lemma mf_ok_at a b pops : Z.of_nat a < pops -> Z.of_nat b < pops -> mf_ok (Some (memoryAt a b)) pops.
Proof. intros Ha Hb f st [= <-] Hp Hst. apply memoryAt_some; [done|lia..]. Qed.

Lemma mf_ok_fixed a n pops : Z.of_nat a < pops -> 0 <= n -> mf_ok (Some (memoryFixed a n)) pops.
Proof.
  intros Ha Hn f st [= <-] Hp Hst. unfold memoryFixed. destruct (st_Back_ok st a Hst) as (x & -> & Hx); [lia|].
  cbn. eexists. split; [reflexivity|]. unfold calcMemSize. case_match; lia.
Qed.

Lemma mf_ok_max a b c d pops : Z.of_nat a < pops -> Z.of_nat b < pops -> Z.of_nat c < pops -> Z.of_nat d < pops ->
  mf_ok (Some (fun st => let! x := memoryAt a b st in let! y := memoryAt c d st in Ok (BigMax x y))) pops.
Proof.
  intros Ha Hb Hc Hd f st [= <-] Hp Hst.
  destruct (memoryAt_some a b st Hst) as (x & -> & Hx); [lia..|].
  destruct (memoryAt_some c d st Hst) as (y & -> & Hy); [lia..|].
  cbn. eexists. split; [reflexivity|]. unfold BigMax. case_match; lia.
Qed.

(** ** The tables *)

Create HintDb exec_specs.
#[local] Hint Resolve opAdd_ok opSub_ok opMul_ok opDiv_ok opSdiv_ok opMod_ok opSmod_ok opExp_ok
  opNot_ok opLt_ok opGt_ok opSlt_ok opSgt_ok opEq_ok opIszero_ok opAnd_ok
  opOr_ok opXor_ok opByte_ok opAddmod_ok opMulmod_ok opSHL_ok opSHR_ok opSAR_ok
  opSignExtend_ok opSha3_ok opAddress_ok opBalance_ok opOrigin_ok opCaller_ok opCallValue_ok opCallDataLoad_ok
  opCallDataSize_ok opCallDataCopy_ok opReturnDataSize_ok opReturnDataCopy_ok opExtCodeSize_ok opCodeSize_ok opCodeCopy_ok opExtCodeCopy_ok
  opExtCodeHash_ok opGasprice_ok opBlockhash_ok opCoinbase_ok opTimestamp_ok opNumber_ok opDifficulty_ok opGasLimit_ok
  opPop_ok opMload_ok opMstore_ok opMstore8_ok opSload_ok opSstore_ok opJump_ok opJumpi_ok
  opJumpdest_ok opPc_ok opMsize_ok opGas_ok opReturn_ok opRevert_ok opSuicide_ok : exec_specs.

Section rows.
Context (B : Z) (R : RunFunc S) (HR : run_spec env B R).

Definition row_ok (row : OpCode * operation_ S) : Prop :=
  forall m, machine_ok m -> Gas (contract m) <= B -> (fst row <> STOP -> pc m < zlen (Code (contract m))) ->
    post (step_operation env (fst row) (snd row) m) (step_post m).

Lemma simple_row op o pops pushes low :
  validateStack o = makeStackFunc pops pushes -> mf_ok (memorySize o) pops -> op <> STOP -> op <> CALL ->
  gas_spec env (gasCost o) (match memorySize o with Some _ => true | None => false end) (writes o) low pops ->
  exec_spec env (execute o) (memorySize o) (writes o) pops pushes ->
  (halts o || reverts o = false -> 1 <= low) -> 0 <= low ->
  row_ok (op, o).
Proof.
  intros Hv Hmf H1 H2 Hg Hx Hlow Hlow0 m Hm HB Hpc. cbn [fst snd] in *.
  apply (step_operation_ok op o pops pushes); try done. intros size Hck.
  by eapply simple_runs.
Qed.

Lemma call_row op o pops base ex mf ok :
  validateStack o = makeStackFunc pops 1 -> mf_ok (memorySize o) pops -> op <> STOP -> (op = CALL -> 3 <= pops) ->
  execute o = ex R -> memorySize o = Some mf ->
  (forall m size, machine_ok m -> pops <= st_len (stack m) -> 0 <= size -> size mod 32 = 0 ->
     post (gasCost o (gasTable env) size m) (call_post env size (base (stack m)) m)) ->
  call_exec_spec env ex mf pops base ok ->
  (forall m m', (static env (evm m) = true -> op = CALL -> stack m !! 2%nat = Some 0) ->
     stack m' = stack m -> static env (evm m') = static env (evm m) -> ok m') ->
  row_ok (op, o).
Proof.
  intros Hv Hmf H1 H2 Eex Emf Hg Hx Hok m Hm HB Hpc. cbn [fst snd] in *.
  apply (step_operation_ok op o pops 1); try done. intros size Hck.
  eapply call_runs; try done; [apply Hg; [done|apply Hck..]|].
  intros m'. apply Hok. apply Hck.
Qed.

Lemma create_row op o pops ex mf :
  validateStack o = makeStackFunc pops 1 -> mf_ok (memorySize o) pops -> op <> STOP -> op <> CALL -> writes o = true ->
  execute o = ex R -> memorySize o = Some mf -> gas_spec env (gasCost o) true false 1 pops ->
  create_exec_spec env ex mf pops ->
  row_ok (op, o).
Proof.
  intros Hv Hmf H1 H2 Hw Eex Emf Hg Hx m Hm HB Hpc. cbn [fst snd] in *.
  apply (step_operation_ok op o pops 1); try done. intros size Hck. by eapply create_runs.
Qed.

Lemma stop_row c : c = 0 -> row_ok (STOP, mkOperation opStop (constGasFunc c) (makeStackFunc 0 0) None true false false true false false).
Proof.
  intros -> m Hm HB Hpc. cbn [fst snd] in *. apply (step_operation_ok STOP _ 0 0); try done. intros size Hck.
  cbn. rewrite (ck_nomem _ _ _ _ _ _ Hck eq_refl). split; [by apply gas_frame_refl|]. cbn. split; [done|]. intros _.
  assert (machine_ok (charged m 0 0)) as Hc.
  { apply (charged_ok m); [done|by apply gas_frame_refl|pose proof (co_gas (ok_contract Hm)); lia|].
    rewrite resized_0. apply (ok_memory Hm). }
  split; [|split; [lia|done]]. split; cbn; try apply Hc; try done; try lia.
Qed.

Ltac mf_solve := cbn [memorySize]; first
  [ apply mf_ok_None | apply mf_ok_at; lia | apply mf_ok_fixed; lia | apply mf_ok_max; lia ].
Ltac gas_solve := cbn [gasCost memorySize writes]; first
  [ apply constGasFunc_ok; [apply Z.leb_le; reflexivity|done]
  | apply gasCopy_ok; done
  | apply gasFixed_ok; done
  | apply gasReturn_ok | apply gasRevert_ok | apply makeGasLog_ok; lia
  | apply gasBalance_ok; lia | apply gasExtCodeSize_ok; lia | apply gasSLoad_ok; lia
  | apply gasExp_ok; lia | apply gasSStore_ok; lia | apply gasSuicide_ok; lia ].
Ltac exec_solve := cbn [execute memorySize writes]; first
  [ solve [eauto with exec_specs nocore] | apply makePush_ok; lia | apply makeDup_ok; lia | apply makeSwap_ok; lia
  | apply makeLog_ok ].
Ltac row low := eapply (simple_row _ _ _ _ low);
  [reflexivity|mf_solve|done|done|gas_solve|exec_solve|try done; by intros [=]|done].
Ltac rows := repeat (apply Forall_cons_2; [row 1|]); apply Forall_nil_2.

Lemma frontier_arithmetic_ok : Forall row_ok (frontier_arithmetic env).
Proof.
  unfold frontier_arithmetic. apply Forall_cons_2; [by apply stop_row|]. rows.
Qed.
Lemma gasExtCodeCopy_ok low pops : low <= 20 -> 3 < pops -> gas_spec env gasExtCodeCopy true false low pops.
Proof.
  intros Hl Hp m size. pose proof (gasTable_bounds env) as Hb. cbn in Hb. unfold gasExtCodeCopy.
  apply (gasCopy_ok env (gt_ExtcodeCopy (gasTable env)) CopyGas 3 low pops); unfold is_u64, MaxUint64, CopyGas; lia.
Qed.

Lemma frontier_environment_ok : Forall row_ok (frontier_environment env).
Proof.
  unfold frontier_environment. repeat (apply Forall_cons_2; [try row 1|]); [|apply Forall_nil_2].
  eapply (simple_row _ _ _ _ 1); [reflexivity|mf_solve|done|done|by apply gasExtCodeCopy_ok|exec_solve|done|done].
Qed.
Lemma frontier_memory_flow_ok : Forall row_ok (frontier_memory_flow env).
Proof. unfold frontier_memory_flow. rows. Qed.
Lemma frontier_push_lo_ok : Forall row_ok frontier_push_lo.
Proof. unfold frontier_push_lo. rows. Qed.
Lemma frontier_push_hi_ok : Forall row_ok frontier_push_hi.
Proof. unfold frontier_push_hi. rows. Qed.
Lemma frontier_dup_ok : Forall row_ok frontier_dup.
Proof. unfold frontier_dup. rows. Qed.
Lemma frontier_swap_ok : Forall row_ok frontier_swap.
Proof. unfold frontier_swap. rows. Qed.
Lemma frontier_log_ok : Forall row_ok (frontier_log env).
Proof. unfold frontier_log. rows. Qed.

Lemma frontier_system_ok : Forall row_ok (frontier_system env R).
Proof.
  unfold frontier_system. repeat (apply Forall_cons_2; [|]); [..|apply Forall_nil_2].
  - eapply create_row; [reflexivity|mf_solve|done|done|done|reflexivity|reflexivity|by apply gasFixed_ok|by apply opCreate_ok].
  - eapply call_row; [reflexivity|mf_solve|done|lia|reflexivity|reflexivity|by apply gasCall_ok|by apply opCall_ok|].
    cbv beta. intros m m' Hc Es Hs. rewrite Es, Hs. auto.
  - eapply call_row; [reflexivity|mf_solve|done|lia|reflexivity|reflexivity|by apply gasCallCode_ok|by apply opCallCode_ok|done].
  - row 0.
  - row 0.
Qed.

Lemma homestead_new_ok : Forall row_ok (homestead_new env R).
Proof.
  repeat constructor.
  eapply (call_row _ _ _ (fun _ => 40)); [reflexivity|mf_solve|done|lia|reflexivity|reflexivity|apply (gasDelegateCall_ok env)|by apply opDelegateCall_ok|done].
Qed.

Lemma byzantium_new_ok : Forall row_ok (byzantium_new env R).
Proof.
  unfold byzantium_new. repeat (apply Forall_cons_2; [|]); [..|apply Forall_nil_2]; [row 0|row 1|row 1|].
  eapply (call_row _ _ _ (fun _ => 40)); [reflexivity|mf_solve|done|lia|reflexivity|reflexivity|apply (gasStaticCall_ok env)|by apply opStaticCall_ok|done].
Qed.

Lemma constantinople_new_ok : IsConstantinople (chainConfig env) (BlockNumber env) = true ->
  Forall row_ok (constantinople_new env R).
Proof.
  intros Hc. unfold constantinople_new. repeat (apply Forall_cons_2; [|]); [..|apply Forall_nil_2]; [| |row 1..].
  - eapply create_row; [reflexivity|mf_solve|done|done|done|reflexivity|reflexivity|by apply gasCopy_ok|by apply opCreate2_ok].
  - eapply (simple_row _ _ _ _ 1); [reflexivity|mf_solve|done|done|by apply gasExtCodeHash_ok|exec_solve|done|done].
Qed.

Lemma instructionSet_ok : Forall row_ok (instructionSet env R).
Proof.
  assert (Forall row_ok (frontierInstructionSet env R)) as Hf.
  { unfold frontierInstructionSet. rewrite !Forall_app.
    auto 12 using frontier_arithmetic_ok, frontier_environment_ok, frontier_memory_flow_ok, frontier_push_lo_ok,
      frontier_push_hi_ok, frontier_dup_ok, frontier_swap_ok, frontier_log_ok, frontier_system_ok. }
  assert (Forall row_ok (homesteadInstructionSet env R)) as Hh by (apply Forall_app; auto using homestead_new_ok).
  assert (Forall row_ok (byzantiumInstructionSet env R)) as Hb by (apply Forall_app; auto using byzantium_new_ok).
  unfold instructionSet. destruct (IsConstantinople _ _) eqn:Hc; [|by repeat case_match].
  apply Forall_app; auto using constantinople_new_ok.
Qed.

Lemma GetOp_stop c n : GetOp c n <> STOP -> n < zlen (Code c).
Proof. unfold GetOp, GetByte. by destruct (Z.ltb_spec n (zlen (Code c))). Qed.

Lemma map_get_elem (k : OpCode) (l : list (OpCode * operation_ S)) o : map_get k l = Some o -> (k, o) ∈ l.
Proof.
  unfold map_get. destruct (find _ l) as [[k' o']|] eqn:E; [|done]. intros [= <-].
  apply find_some in E as [Hin Hk]. apply bool_decide_eq_true in Hk. cbn in Hk. subst. by apply list_elem_of_In.
Qed.

Lemma step_ok m : machine_ok m -> Gas (contract m) <= B -> post (step env R m) (step_post m).
Proof.
  intros Hm HB. unfold step, JumpTable.
  assert (forall e, post (Ok (Halt ([], Some e) m)) (step_post m)) as Hhalt.
  { intros e. cbn. split; [apply (ok_evm Hm)|]. split; [apply evm_frame_refl|].
    pose proof (co_gas (ok_contract Hm)). by split; [lia|]. }
  destruct (map_get _ _) as [o|] eqn:E; [|apply Hhalt]. destruct (negb (valid o)); [apply Hhalt|].
  pose proof instructionSet_ok as Hset. apply map_get_elem in E.
  rewrite Forall_forall in Hset. apply (Hset _ E); [done|done|]. apply GetOp_stop.
Qed.
End rows.

(** ** The loop and [Run] *)

Definition loop_post (m : machine S) (r : opresult * machine S) : Prop :=
  evm_ok env (evm (snd r)) /\ evm_frame env (evm m) (evm (snd r)) /\
  0 <= Gas (contract (snd r)) <= Gas (contract m) /\ zlen (fst (fst r)) < 2 ^ 62.

Lemma enter_ok G lp : (forall m, machine_ok m -> Gas (contract m) < G -> post (lp m) (loop_post m)) ->
  run_spec env G (enter lp).
Proof.
  intros Hlp e c input ro He Hc Hi Hg. unfold enter. pose proof (co_gas Hc) as Hgas.
  set (e1 := if ro && negb _ then _ else _).
  assert (static env e1 = mode env e ro /\ statedb e1 = statedb e /\ depth e1 = depth e + 1 /\
    jumpdests e1 = jumpdests e) as (Hst & Hs & Hd & Hj).
  { unfold e1, static, mode. cbn. destruct ro, (readOnly e) eqn:Er; cbn; rewrite ?Er; by repeat split. }
  assert (forall e2 : EVM S, depth e2 = depth e1 -> readOnly e2 = readOnly e1 ->
    let e3 := leave (ro && negb (readOnly (set_depth e (depth e + 1)))) e2 in
    statedb e3 = statedb e2 /\ depth e3 = depth e /\ readOnly e3 = readOnly e /\ jumpdests e3 = jumpdests e2) as Hleave.
  { intros e2 Ed Er. unfold leave. cbn. revert Er. unfold e1. cbn. destruct ro, (readOnly e) eqn:Ero; cbn; rewrite ?Ero; intros Er; repeat split; try done; lia. }
  assert (evm_ok env (set_returnData e1 [])) as He1 by (split; cbn; rewrite ?Hs, ?Hj; apply He).
  destruct (zlen (Code c) =? 0).
  - cbn [VmInvariant.post]. destruct (Hleave (set_returnData e1 [])) as (L1 & L2 & L3 & L4); [done..|].
    unfold run_post. cbn [fst snd]. split; [|by split; [lia|]]. split.
    + split; [rewrite L1; apply He1|rewrite L4; apply He1].
    + rewrite L1. cbn. rewrite Hs. apply ev_refl.
    + done.
    + done.
  - apply post_bind. eapply post_mono; [apply Hlp|].
    + split; cbn; try done; [destruct Hc; by split|..].
      pose proof (zlen_nonneg (Code c)); lia.
    + done.
    + intros [res m] (Hev & Hf & Hgm & Hr). cbn [fst snd evm contract Gas set_Input] in *.
      destruct (Hleave (evm m)) as (L1 & L2 & L3 & L4); [rewrite (ef_depth Hf); done|rewrite (ef_readOnly Hf); done|].
      cbn [VmInvariant.post]. unfold run_post. cbn [fst snd]. split; [|done]. split.
      * split; [rewrite L1; apply Hev|rewrite L4; apply Hev].
      * rewrite L1, <- Hs, <- Hst. apply (ef_evolves Hf).
      * done.
      * done.
Qed.

Lemma loop_ok fuel : forall m, machine_ok m -> Gas (contract m) < Z.of_nat fuel -> post (loop env fuel m) (loop_post m).
Proof.
  induction fuel as [|fuel IH]; intros m Hm Hg; [pose proof (co_gas (ok_contract Hm)); lia|]. cbn [loop].
  set (m0 := with_evm m (tick (evm m))).
  assert (machine_ok m0) as Hm0 by (split; try apply Hm; split; apply (ok_evm Hm)).
  assert (evm_frame env (evm m) (evm m0)) as Hf0 by (split; auto with evolves).
  destruct (abort env (ticks (evm m))).
  { cbn. split; [apply (ok_evm Hm0)|]. pose proof (co_gas (ok_contract Hm)). by split; [|split; [cbn; lia|]]. }
  apply post_bind. eapply post_mono.
  { eapply (step_ok (Z.of_nat fuel)); [by apply enter_ok|done|cbn; lia]. }
  assert (Gas (contract m0) = Gas (contract m)) as Eg by done.
  intros [m1|res m1]; cbn.
  - intros (Hm1 & Hf1 & Hg1). eapply post_mono; [apply IH; [done|lia]|].
    intros r (H1 & H2 & H3 & H4). split; [done|]. split; [|by split; [lia|]].
    eapply evm_frame_trans; [exact Hf0|]. by eapply evm_frame_trans.
  - intros (H1 & H2 & H3 & H4). split; [done|]. split; [by eapply evm_frame_trans|]. by split.
Qed.

Lemma Run_ok fuel : run_spec env (Z.of_nat fuel) (Run env fuel).
Proof. apply enter_ok, loop_ok. Qed.
End interpreter_facts.
