(* ===== verification/StateAccount.v ===== *)
(** * The account record of the state trie ([kernel/state/state_object.go])

    Its RLP encoding and the struct decoder [rlp.DecodeBytes] runs on it.  What
    [updateStateObject] writes is what [getStateObject] reads. *)
From S2P Require Import Prelude CommonMath RlpEncode RlpDecode RlpFacts.
From stdpp Require Import base numbers list gmap.
From Stdlib Require Import ZArith Lia.
#[local] Open Scope Z_scope.

Record Account := mkAccount {
  Nonce : Z;
  Balance : Z;
  Root : Hash;
  CodeHash : list byte
}.

(** [rlp.Encode(w, c.data)]. *)
Definition encodeAccount (a : Account) : result rlperr (list byte) :=
  EncodeToBytes (VList [VUint (Nonce a); VBigIntPtr (Some (Balance a)); VBytes (Hash_Bytes (Root a)); VBytes (CodeHash a)]).

(** The decoder [makeStructDecoder] builds for [Account]. *)
Definition decodeStruct : SM Account :=
  do! _ := swrap s_List in
  do! nonce := field (decodeUint 64) in
  do! balance := field decodeBigInt in
  do! root := field (decodeByteArray 32) in
  do! codehash := field decodeByteSlice in
  do! _ := swrap s_ListEnd in
  sret (mkAccount nonce balance (be2z root) codehash).

Definition decodeAccount (b : list byte) : result rlperr Account :=
  match decodeStruct (NewStream b (zlen b)) with
  | (Err e, _) => Err e
  | (Good a, s) => match r s with [] => Good a | _ => Err ErrMoreThanOneValue end
  end.

(** ** Typed decoders on canonical input *)

(** [m] consumes exactly [b] and returns [v]. *)
Definition reads {A} (m : SM A) (b : list byte) (v : A) : Prop :=
  forall s l st, at_pos s (b ++ l) st -> wf (b ++ l) st -> zlen b <= left st (b ++ l) ->
  exists s', m s = (Good v, s') /\ at_pos s' l (bump (zlen b) st).


Lemma s_Bytes_reads b : zlen b <= MaxUint64 -> reads s_Bytes (enc_str b) b.
Proof.
  intros Hb s l st Ha Hw Hle. destruct (enc_str_head b Hb) as [(c & -> & E & Hh)|(h & E & Hh & Hc)]; rewrite E in *.
  - destruct (s_Kind_ok s KByte 0 [c] l st Hh Ha Hw ltac:(lia)) as (s1 & Ek & Hr & Hbv).
    destruct (s_Bytes_byte s1 _ _ Hr) as (s2 & E2 & Ha2). specialize (Hbv eq_refl). injection Hbv as Hbv.
    exists s2. split; [|done]. unfold s_Bytes, sbind in *. rewrite Ek. rewrite (s_Kind_ready _ _ _ _ _ Hr) in E2.
    cbn in E2 |- *. congruence.
  - rewrite <- app_assoc in *. rewrite zlen_app in *.
    destruct (s_Kind_ok s KString (zlen b) h (b ++ l) st Hh Ha Hw Hle) as (s1 & Ek & Hr & _).
    assert (wf (b ++ l) (bump (zlen h) st)) as Hw1 by (refine (wf_bump _ _ h _ eq_refl _ Hw); pose proof (zlen_nonneg b); lia).
    destruct (s_Bytes_str s1 b l _ Hr Hw1) as (s2 & E2 & Ha2); [|done|].
    { rewrite (left_bump _ _ (h ++ b ++ l)) by (rewrite !zlen_app; lia). lia. }
    exists s2. split; [|by rewrite <- bump_bump]. unfold s_Bytes, sbind in *. rewrite Ek.
    by rewrite (s_Kind_ready _ _ _ _ _ Hr) in E2.
Qed.

Lemma reads_swrap {A} (m : SM A) b v : reads m b v -> reads (swrap m) b v.
Proof. intros Hm s l st Ha Hw Hle. destruct (Hm s l st Ha Hw Hle) as (s' & E & Ha'). exists s'. unfold swrap. by rewrite E. Qed.

Lemma reads_field {A} (m : SM A) b v : reads m b v -> reads (field m) b v.
Proof. intros Hm s l st Ha Hw Hle. destruct (Hm s l st Ha Hw Hle) as (s' & E & Ha'). exists s'. unfold field. by rewrite E. Qed.

Lemma reads_bind {A B} (m : SM A) (k : A -> SM B) b1 b2 v w :
  reads m b1 v -> reads (k v) b2 w -> reads (do! x := m in k x) (b1 ++ b2) w.
Proof.
  intros Hm Hk s l st Ha Hw Hle. rewrite <- app_assoc in *. rewrite zlen_app in *.
  pose proof (zlen_nonneg b2). destruct (Hm s (b2 ++ l) st Ha Hw ltac:(lia)) as (s1 & E1 & Ha1).
  assert (wf (b2 ++ l) (bump (zlen b1) st)) as Hw1 by (refine (wf_bump _ _ b1 _ eq_refl _ Hw); lia).
  destruct (Hk s1 l _ Ha1 Hw1) as (s2 & E2 & Ha2).
  { rewrite (left_bump _ _ (b1 ++ b2 ++ l)) by (rewrite !zlen_app; lia). lia. }
  exists s2. unfold sbind. rewrite E1. by rewrite <- bump_bump.
Qed.

Lemma decodeBigInt_reads n : 0 <= n -> zlen (big_Bytes n) <= MaxUint64 -> reads decodeBigInt (enc_str (big_Bytes n)) n.
Proof.
  intros Hn Hz s l st Ha Hw Hle. destruct (reads_swrap _ _ _ (s_Bytes_reads _ Hz) s l st Ha Hw Hle) as (s' & E & Ha').
  exists s'. split; [|done]. unfold decodeBigInt, sbind. rewrite E.
  destruct (decide (n = 0)) as [->|Hn0]; [done|].
  destruct (big_Bytes_head n ltac:(lia)) as (c & t & Eb & Hc). pose proof (be2z_big_Bytes n) as Hb. rewrite Eb in *.
  destruct (Z.eqb_spec (b2z c) 0); [done|]. unfold sret. do 2 f_equal. lia.
Qed.

Lemma decodeUint_reads n : is_u64 n -> reads (decodeUint 64) (enc_str (big_Bytes n)) n.
Proof.
  intros Hn. pose proof (big_Bytes_u64_len n Hn) as Hl. apply reads_swrap. intros s l st Ha Hw Hle.
  destruct (enc_str_head (big_Bytes n)) as [(c & Eb & E & Hh)|(h & E & Hh & Hc)]; [unfold MaxUint64; lia|..]; rewrite E in *.
  - destruct (s_Kind_ok s KByte 0 [c] l st Hh Ha Hw ltac:(lia)) as (s1 & Ek & Hr & Hbv).
    specialize (Hbv eq_refl). injection Hbv as ->. pose proof (be2z_big_Bytes n) as Hv. rewrite Eb in Hv.
    change (be2z [byteval s1]) with (b2z (byteval s1)) in Hv. unfold is_u64 in Hn.
    assert (n <> 0) by (intros ->; rewrite big_Bytes_0 in Eb; done).
    eexists. unfold s_uint, sbind. rewrite Ek. destruct (Z.eqb_spec (b2z (byteval s1)) 0); [lia|].
    split; [do 2 f_equal; lia|]. split; [|done]. by destruct Hr as [[] _ _ _].
  - rewrite <- app_assoc in *. rewrite zlen_app in *.
    destruct (s_Kind_ok s KString _ h (big_Bytes n ++ l) st Hh Ha Hw Hle) as (s1 & Ek & Hr & _).
    unfold s_uint, sbind. rewrite Ek. destruct (Z.ltb_spec (64 / 8) (zlen (big_Bytes n))) as [Hlt|_]; [change (64 / 8) with 8 in Hlt; lia|].
    assert (wf (big_Bytes n ++ l) (bump (zlen h) st)) as Hw1
      by (refine (wf_bump _ _ h _ eq_refl _ Hw); pose proof (zlen_nonneg (big_Bytes n)); lia).
    assert (zlen (big_Bytes n) <= left (bump (zlen h) st) (big_Bytes n ++ l)) as Hle1
      by (rewrite (left_bump _ _ (h ++ big_Bytes n ++ l)) by (rewrite !zlen_app; lia); lia).
    destruct (decide (n = 0)) as [->|Hn0].
    { rewrite big_Bytes_0 in *. cbn. eexists. split; [reflexivity|]. rewrite Z.add_0_r.
      split; [|done]. by destruct Hr as [[] _ _ _]. }
    unfold is_u64 in Hn. destruct (big_Bytes_head n ltac:(lia)) as (c & t & Eb & Hc0).
    pose proof (be2z_big_Bytes n) as Hv. rewrite Eb in *.
    destruct (readUint_ok s1 c t l _ (rd_src _ _ _ _ _ Hr) Hw1 Hc0 Hle1) as (s2 & E2 & Ha2 & _).
    exists s2. unfold stry. rewrite E2, Hv, Z.abs_eq by lia. rewrite <- bump_bump. split; [|done].
    assert (128 <= n).
    { destruct t as [|d t]; [cbn in Hc; change (be2z [c]) with (b2z c) in Hv; lia|].
      pose proof (be2z_cons c (d :: t)) as Hbc. pose proof (be2z_bound (d :: t)). rewrite zlen_cons in *.
      pose proof (b2z_range c). pose proof (zlen_nonneg t).
      assert (256 ^ 1 <= 256 ^ (1 + zlen t)) by (apply Z.pow_le_mono_r; lia). nia. }
    destruct (Z.ltb_spec n 128); [lia|]. by rewrite andb_false_r.
Qed.

Lemma decodeByteArray_reads b n : 1 < n -> zlen b = n -> n <= MaxUint64 -> reads (decodeByteArray n) (enc_str b) b.
Proof.
  intros Hn Hz Hm s l st Ha Hw Hle.
  destruct (enc_str_head b) as [(c & -> & _)|(h & E & Hh & Hc)]; [lia|change (zlen [c]) with 1 in Hz; lia|]; rewrite E in *.
  rewrite <- app_assoc in *. rewrite zlen_app, Hz in *.
  destruct (s_Kind_ok s KString n h (b ++ l) st Hh Ha Hw Hle) as (s1 & Ek & Hr & _).
  assert (wf (b ++ l) (bump (zlen h) st)) as Hw1 by (refine (wf_bump _ _ h _ eq_refl _ Hw); lia).
  destruct (readFull_ok s1 b l _ (rd_src _ _ _ _ _ Hr) Hw1) as (s2 & E2 & Ha2 & _).
  { rewrite (left_bump _ _ (h ++ b ++ l)) by (rewrite !zlen_app; lia). lia. }
  exists s2. split; [|by rewrite <- bump_bump, <- Hz]. unfold decodeByteArray, sbind. rewrite Ek.
  rewrite Z.ltb_irrefl. rewrite <- Hz, E2. destruct b as [|c b]; [change (zlen []) with 0 in Hz; lia|].
  destruct (Z.eqb_spec (zlen (c :: b)) 1); [lia|done].
Qed.

(** A struct: the fields fill the list. *)
Lemma reads_struct {A} (fields : SM A) p v : zlen p <= MaxUint64 -> reads fields p v ->
  reads (do! _ := swrap s_List in do! x := fields in do! _ := swrap s_ListEnd in sret x) (enc_lst p) v.
Proof.
  intros Hp Hf s l st Ha Hw Hle. destruct (enc_lst_head p Hp) as (h & E & Hh). rewrite E in *.
  rewrite <- app_assoc in *. rewrite zlen_app in *. pose proof (zlen_nonneg p).
  destruct (s_Kind_ok s KList (zlen p) h (p ++ l) st Hh Ha Hw Hle) as (s1 & Ek & Hr & _).
  destruct (s_List_ready _ _ _ _ Hr) as (s2 & E2 & Ha2).
  assert (swrap s_List s = (Good (zlen p), s2)) as EL.
  { unfold swrap, s_List, sbind in *. rewrite Ek. rewrite (s_Kind_ready _ _ _ _ _ Hr) in E2. done. }
  assert (wf (p ++ l) (bump (zlen h) st)) as Hw1 by (refine (wf_bump _ _ h _ eq_refl _ Hw); lia).
  assert (left (bump (zlen h) st) (p ++ l) = left st (h ++ p ++ l) - zlen h) as Hl1
    by (rewrite (left_bump _ _ (h ++ p ++ l)); rewrite ?zlen_app; lia).
  assert (wf (p ++ l) (mkListpos 0 (zlen p) :: bump (zlen h) st)) as Hw2.
  { destruct Hw1 as (W1 & W2 & W3). split; [done|]. split; [|cbn; rewrite zlen_app; pose proof (zlen_nonneg l); lia].
    cbn [wf_stack pos lsize]. split; [lia|]. split; [lia|]. split; [done|].
    destruct (bump (zlen h) st) as [|t st'] eqn:Es; [done|]. cbn [left] in Hl1. lia. }
  destruct (Hf s2 l _ Ha2 Hw2) as (s3 & E3 & Ha3); [cbn; lia|].
  cbn [bump pos lsize] in Ha3. rewrite Z.add_0_l in Ha3.
  assert (wf l (mkListpos (zlen p) (zlen p) :: bump (zlen h) st)) as Hw3.
  { refine (wf_bump (zlen p) _ p (mkListpos 0 (zlen p) :: bump (zlen h) st) eq_refl _ Hw2). cbn. lia. }
  destruct (s_ListEnd_ok s3 _ _ _ Ha3 Hw3) as (s4 & E4 & Ha4).
  exists s4. rewrite <- bump_bump. split; [|done]. unfold sbind. rewrite EL, E3. unfold swrap. by rewrite E4.
Qed.

(** Accounts as [updateStateObject] meets them. *)
Record account_ok (a : Account) : Prop := {
  ac_nonce : is_u64 (Nonce a);
  ac_balance : 0 <= Balance a < 2 ^ 1024;
  ac_root : is_word (Root a);
  ac_code : zlen (CodeHash a) = 32
}.

Lemma zlen_big_Bytes n k : 0 <= n < 2 ^ (8 * k) -> 0 <= k -> zlen (big_Bytes n) <= k.
Proof.
  intros Hn Hk. unfold zlen, big_Bytes. rewrite length_z2be.
  assert (BitLen n <= 8 * k) by (apply BitLen_le; [lia|]; rewrite Z.abs_eq; lia).
  pose proof (BitLen_nonneg n). rewrite Z2Nat.id by (apply Z.div_pos; lia).
  apply Z.lt_succ_r, Z.div_lt_upper_bound; lia.
Qed.

Lemma zlen_enc_str_le b : zlen b <= 2 ^ 32 -> zlen (enc_str b) <= zlen b + 9.
Proof.
  intros Hb. pose proof (zlen_nonneg b).
  assert (zlen (enc_head 0x80 0xB7 (zlen b)) <= 9).
  { unfold enc_head. destruct (Z.ltb_spec (zlen b) 56); [by cbn|]. rewrite zlen_cons.
    pose proof (zlen_big_Bytes (zlen b) 8 ltac:(lia) ltac:(lia)). lia. }
  unfold enc_str. destruct b as [|c [|d b]]; rewrite ?zlen_app; [lia|case_match; unfold zlen; cbn; lia|lia].
Qed.

Definition account_val (a : Account) : val :=
  VList [VUint (Nonce a); VBigIntPtr (Some (Balance a)); VBytes (Hash_Bytes (Root a)); VBytes (CodeHash a)].

Lemma zlen_Hash_Bytes h : zlen (Hash_Bytes h) = 32.
Proof. unfold zlen, Hash_Bytes. by rewrite length_z2be. Qed.

Definition account_payload (a : Account) : list byte :=
  enc_str (big_Bytes (Nonce a)) ++ enc_str (big_Bytes (Balance a)) ++ enc_str (Hash_Bytes (Root a)) ++ enc_str (CodeHash a).

Lemma account_size a : account_ok a -> zlen (account_payload a) <= 1000 /\ zlen (enc_lst (account_payload a)) <= 1100.
Proof.
  intros [Hn Hb Hr Hc]. pose proof (big_Bytes_u64_len _ Hn) as L1.
  pose proof (zlen_big_Bytes (Balance a) 128 Hb ltac:(lia)) as L2. pose proof (zlen_Hash_Bytes (Root a)) as L3.
  assert (zlen (account_payload a) <= 1000) as Hp.
  { unfold account_payload. rewrite !zlen_app.
    pose proof (zlen_enc_str_le (big_Bytes (Nonce a)) ltac:(lia)). pose proof (zlen_enc_str_le (big_Bytes (Balance a)) ltac:(lia)).
    pose proof (zlen_enc_str_le (Hash_Bytes (Root a)) ltac:(lia)). pose proof (zlen_enc_str_le (CodeHash a) ltac:(lia)). lia. }
  split; [done|]. set (p := account_payload a) in *. unfold enc_lst, enc_head. rewrite zlen_app.
  pose proof (zlen_nonneg p). case_match; rewrite zlen_cons; [change (zlen []) with 0; lia|].
  pose proof (zlen_big_Bytes (zlen p) 8 ltac:(lia) ltac:(lia)). lia.
Qed.

Lemma account_fields_read a : account_ok a ->
  reads (do! nonce := field (decodeUint 64) in do! balance := field decodeBigInt in
         do! root := field (decodeByteArray 32) in do! codehash := field decodeByteSlice in
         sret (mkAccount nonce balance (be2z root) codehash)) (account_payload a) a.
Proof.
  intros [Hn Hb Hr Hc]. pose proof (zlen_big_Bytes (Balance a) 128 Hb ltac:(lia)) as L2.
  unfold account_payload. eapply reads_bind; [by apply reads_field, decodeUint_reads|].
  eapply reads_bind; [apply reads_field, decodeBigInt_reads; unfold MaxUint64; lia|].
  eapply reads_bind; [apply reads_field, decodeByteArray_reads; [done|apply zlen_Hash_Bytes|done]|].
  rewrite <- (app_nil_r (enc_str (CodeHash a))).
  eapply reads_bind; [apply reads_field, reads_swrap, s_Bytes_reads; rewrite Hc; unfold MaxUint64; lia|].
  intros s' l' st' Ha' _ _. exists s'. cbn [app] in Ha'. split; [|].
  - unfold sret, Hash_Bytes. rewrite be2z_z2be, Z.mod_small by apply Hr. by destruct a.
  - change (zlen []) with 0. by destruct st' as [|[]]; cbn; rewrite ?Z.add_0_r.
Qed.

Lemma account_reads a : account_ok a -> reads decodeStruct (enc_lst (account_payload a)) a.
Proof.
  intros Ha s l st Hs Hw Hle. pose proof (account_size a Ha) as [Hp _].
  destruct (reads_struct _ (account_payload a) a ltac:(unfold MaxUint64; lia) (account_fields_read a Ha) s l st Hs Hw Hle) as (s' & E & Ha').
  exists s'. split; [|done]. rewrite <- E. unfold decodeStruct, sbind.
  destruct (swrap s_List s) as [[n|e] s1]; [|done]. destruct (field (decodeUint 64) s1) as [[x1|e] s2]; [|done].
  destruct (field decodeBigInt s2) as [[x2|e] s3]; [|done].
  destruct (field (decodeByteArray 32) s3) as [[x3|e] s4]; [|done].
  by destruct (field decodeByteSlice s4) as [[x4|e] s5].
Qed.

Lemma account_roundtrip a : account_ok a ->
  exists b, encodeAccount a = Good b /\ b <> [] /\ decodeAccount b = Good a.
Proof.
  intros Hok. pose proof (account_size a Hok) as [Hp He]. pose proof (account_reads a Hok) as Hread.
  set (p := account_payload a) in *.
  assert (enc_val (account_val a) = enc_lst p) as Ev by (cbn; by rewrite app_nil_r).
  exists (enc_lst p). rewrite <- Ev at 1. split; [|split].
  - destruct Hok. apply EncodeToBytes_spec; [cbn; tauto|rewrite Ev; unfold MaxUint64; lia].
  - unfold enc_lst, enc_head. by case_match.
  - unfold decodeAccount. destruct (Hread (NewStream (enc_lst p) (zlen (enc_lst p))) [] []) as (s' & -> & Ha).
    + rewrite app_nil_r. apply NewStream_at.
    + rewrite app_nil_r. apply NewStream_wf. unfold MaxUint64. lia.
    + rewrite app_nil_r. cbn. lia.
    + destruct Ha as [[-> _ _ _] _]. done.
Qed.
