(* ===== verification/RlpTyped.v ===== *)
(** * Codecs of Go types ([lib/rlp/decode.go], [lib/rlp/encode.go])

    The decoders [makeDecoder] builds for structs, slices and pointers, over the
    stream of [RlpDecode], and the interface [Rlp] of a Go type with an encoding:
    the value the encoder writes, the decoder, and the values the pair is meant
    for.  [rlp_roundtrip] is proved once against the interface. *)
From S2P Require Import Prelude CommonMath RlpEncode RlpDecode RlpFacts StateAccount.
From stdpp Require Import base numbers list.
From Stdlib Require Import ZArith Lia.
#[local] Open Scope Z_scope.

(** ** Model *)

(** Decoders with loops. *)
Definition OSM (A : Type) : Type := Stream -> outcome (result rlperr A * Stream).

Definition oret {A} (a : A) : OSM A := fun s => Ok (Good a, s).
Definition ofail {A} (e : rlperr) : OSM A := fun s => Ok (Err e, s).
Definition lift {A} (m : SM A) : OSM A := fun s => Ok (m s).
Definition osbind {A B} (m : OSM A) (f : A -> OSM B) : OSM B := fun s =>
  let! (x, s) := m s in
  match x with
  | Good a => f a s
  | Err e => Ok (Err e, s)
  end.
Notation "'dec!' x := c 'in' k" := (osbind c (fun x => k))
  (at level 10, x pattern, c at level 200, k at level 200) : go_scope.

Definition ofield {A} (m : OSM A) : OSM A := fun s =>
  let! (x, s) := m s in
  match x with
  | Err EOL => Ok (Err errTooFewElements, s)
  | x => Ok (x, s)
  end.

(** [makeStructDecoder]; each of [fields] is wrapped in [ofield]. *)
Definition decodeStructOf {A} (fields : OSM A) : OSM A :=
  dec! _ := lift (swrap s_List) in
  dec! a := fields in
  dec! _ := lift (swrap s_ListEnd) in
  oret a.

(** [decodeSliceElems]: the elements up to the end of the list. *)
Fixpoint decodeSliceElemsOf {A} (elemdec : OSM A) (fuel : nat) : OSM (list A) := fun s =>
  match fuel with
  | O => OutOfFuel
  | S fuel =>
      let! (x, s) := elemdec s in
      match x with
      | Err EOL => Ok (Good [], s)
      | Err e => Ok (Err e, s)
      | Good a => (dec! l := decodeSliceElemsOf elemdec fuel in oret (a :: l)) s
      end
  end.

(** [decodeListSlice]; an element takes at least a byte of the input. *)
Definition decodeListSliceOf {A} (elemdec : OSM A) : OSM (list A) :=
  dec! size := lift (swrap s_List) in
  if size =? 0 then dec! _ := lift s_ListEnd in oret []
  else
    dec! l := (fun s => decodeSliceElemsOf elemdec (S (length (r s))) s) in
    dec! _ := lift s_ListEnd in
    oret l.

(** [makeOptionalPtrDecoder], for pointers tagged [nil]. *)
Definition decodeOptionalPtr {A} (dec : OSM A) : OSM (option A) := fun s =>
  match s_Kind s with
  | (Err e, s) => Ok (Err e, set_kind None s)
  | (Good (k, size), s) =>
      if (size =? 0) && negb (bool_decide (k = KByte)) then Ok (Good None, set_kind None s)
      else (dec! a := dec in oret (Some a)) s
  end.

(** [rlp.DecodeBytes] into a value of the type. *)
Definition DecodeBytesOf {A} (dec : OSM A) (b : list byte) : outcome (result rlperr A) :=
  let! (x, s) := dec (NewStream b (zlen b)) in
  match x with
  | Err e => Ok (Err e)
  | Good a => match r s with [] => Ok (Good a) | _ => Ok (Err ErrMoreThanOneValue) end
  end.

(** ** Types with an encoding *)

Class Rlp (A : Type) := {
  rlp_val : A -> val;
  rlp_dec : OSM A;
  rlp_valid : A -> Prop
}.

(** [m] consumes exactly [b] and returns [v]. *)
Definition oreads {A} (m : OSM A) (b : list byte) (v : A) : Prop :=
  forall s l st, at_pos s (b ++ l) st -> wf (b ++ l) st -> zlen b <= left st (b ++ l) ->
  exists s', m s = Ok (Good v, s') /\ at_pos s' l (bump (zlen b) st).

(** At the end of a list [m] answers [EOL]. *)
Definition ends {A} (m : OSM A) : Prop :=
  forall s l t st, at_pos s l (t :: st) -> pos t = lsize t ->
  exists s', m s = Ok (Err EOL, s') /\ at_pos s' l (t :: st).

Class RlpLaws (A : Type) `{Rlp A} := {
  rlp_encodable a : rlp_valid a -> encodable (rlp_val a);
  rlp_nonempty a : rlp_valid a -> 1 <= zlen (enc_val (rlp_val a));
  rlp_reads a : rlp_valid a -> oreads rlp_dec (enc_val (rlp_val a)) a;
  rlp_ends : ends (rlp_dec (A := A))
}.

(** ** Combinators *)

Lemma oreads_lift {A} (m : SM A) b v : reads m b v -> oreads (lift m) b v.
Proof. intros Hm s l st Ha Hw Hl. destruct (Hm s l st Ha Hw Hl) as (s' & E & Ha'). exists s'. unfold lift. by rewrite E. Qed.

Lemma oreads_field {A} (m : OSM A) b v : oreads m b v -> oreads (ofield m) b v.
Proof. intros Hm s l st Ha Hw Hl. destruct (Hm s l st Ha Hw Hl) as (s' & E & Ha'). exists s'. unfold ofield. by rewrite E. Qed.

Lemma oreads_ret {A} (v : A) : oreads (oret v) [] v.
Proof. intros s l st Ha _ _. exists s. split; [done|]. by destruct st as [|[]]; cbn; rewrite ?Z.add_0_r. Qed.

Lemma oreads_bind {A B} (m : OSM A) (k : A -> OSM B) b1 b2 v w :
  oreads m b1 v -> oreads (k v) b2 w -> oreads (osbind m k) (b1 ++ b2) w.
Proof.
  intros Hm Hk s l st Ha Hw Hle. rewrite <- app_assoc in *. rewrite zlen_app in *.
  pose proof (zlen_nonneg b2). destruct (Hm s (b2 ++ l) st Ha Hw ltac:(lia)) as (s1 & E1 & Ha1).
  assert (wf (b2 ++ l) (bump (zlen b1) st)) as Hw1 by (refine (wf_bump _ _ b1 _ eq_refl _ Hw); lia).
  destruct (Hk s1 l _ Ha1 Hw1) as (s2 & E2 & Ha2).
  { rewrite (left_bump _ _ (b1 ++ b2 ++ l)) by (rewrite !zlen_app; lia). lia. }
  exists s2. unfold osbind. rewrite E1. cbn [obind]. by rewrite <- bump_bump.
Qed.

(** A bind that ends the sequence. *)
Lemma oreads_last {A B} (m : OSM A) (k : A -> OSM B) b v w :
  oreads m b v -> k v = oret w -> oreads (osbind m k) b w.
Proof. intros Hm Hk. rewrite <- (app_nil_r b). eapply oreads_bind; [done|]. rewrite Hk. apply oreads_ret. Qed.

(** The size bound of a string follows from the position. *)
Lemma oreads_sized {A} (m : OSM A) b v : (zlen b <= MaxUint64 -> oreads m b v) -> oreads m b v.
Proof. intros H s l st Ha Hw Hle. pose proof (wf_left _ _ Hw). apply H; try done. lia. Qed.

(** Entering a list. *)
Lemma s_List_enters p s l st : at_pos s (enc_lst p ++ l) st -> wf (enc_lst p ++ l) st ->
  zlen (enc_lst p) <= left st (enc_lst p ++ l) ->
  exists s' st', swrap s_List s = (Good (zlen p), s') /\
    bump (zlen p) st' = bump (zlen (enc_lst p)) st /\
    at_pos s' (p ++ l) (mkListpos 0 (zlen p) :: st') /\ wf (p ++ l) (mkListpos 0 (zlen p) :: st') /\
    wf l (mkListpos (zlen p) (zlen p) :: st').
Proof.
  intros Ha Hw Hle. pose proof (zlen_enc_lst_ge p) as Hge. pose proof (wf_left _ _ Hw).
  destruct (enc_lst_head p ltac:(lia)) as (h & E & Hh). rewrite E in *.
  rewrite <- app_assoc in *. rewrite zlen_app in *. pose proof (zlen_nonneg p).
  destruct (s_Kind_ok s KList (zlen p) h (p ++ l) st Hh Ha Hw Hle) as (s1 & Ek & Hr & _).
  destruct (s_List_ready _ _ _ _ Hr) as (s2 & E2 & Ha2).
  assert (wf (p ++ l) (bump (zlen h) st)) as Hw1 by (refine (wf_bump _ _ h _ eq_refl _ Hw); lia).
  assert (left (bump (zlen h) st) (p ++ l) = left st (h ++ p ++ l) - zlen h) as Hl1
    by (rewrite (left_bump _ _ (h ++ p ++ l)); rewrite ?zlen_app; lia).
  assert (wf (p ++ l) (mkListpos 0 (zlen p) :: bump (zlen h) st)) as Hw2.
  { destruct Hw1 as (W1 & W2 & W3). split; [done|]. split; [|cbn; rewrite zlen_app; pose proof (zlen_nonneg l); lia].
    cbn [wf_stack pos lsize]. split; [lia|]. split; [lia|]. split; [done|].
    destruct (bump (zlen h) st) as [|t st'] eqn:Es; [done|]. cbn [left] in Hl1. lia. }
  exists s2, (bump (zlen h) st). split; [|split; [apply bump_bump|]].
  { unfold swrap, s_List, sbind in *. rewrite Ek. by rewrite (s_Kind_ready _ _ _ _ _ Hr) in E2. }
  split; [done|]. split; [done|].
  refine (wf_bump (zlen p) _ p (mkListpos 0 (zlen p) :: bump (zlen h) st) eq_refl _ Hw2). cbn. lia.
Qed.

Lemma oreads_struct {A} (fields : OSM A) p v : oreads fields p v -> oreads (decodeStructOf fields) (enc_lst p) v.
Proof.
  intros Hf s l st Ha Hw Hle.
  destruct (s_List_enters p s l st Ha Hw Hle) as (s1 & st' & E1 & Hb & Ha1 & Hw1 & Hw2).
  destruct (Hf s1 l _ Ha1 Hw1) as (s2 & E2 & Ha2); [cbn; lia|].
  destruct (s_ListEnd_ok s2 _ _ _ Ha2 Hw2) as (s3 & E3 & Ha3).
  exists s3. rewrite <- Hb. split; [|done]. unfold decodeStructOf, osbind, lift. rewrite E1. cbn [obind].
  rewrite E2. cbn [obind]. unfold swrap. by rewrite E3.
Qed.

Lemma ends_struct {A} (fields : OSM A) : ends (decodeStructOf fields).
Proof.
  intros s l t st Ha Ht. destruct (s_Kind_EOL s l t st Ha Ht) as (s' & E & Ha'). exists s'. split; [|done].
  unfold decodeStructOf, osbind, lift, swrap, s_List, sbind. by rewrite E.
Qed.

Lemma ends_bind {A B} (m : OSM A) (k : A -> OSM B) : ends m -> ends (osbind m k).
Proof.
  intros Hm s l t st Ha Ht. destruct (Hm s l t st Ha Ht) as (s' & E & Ha'). exists s'. split; [|done].
  unfold osbind. by rewrite E.
Qed.

Section slices.
Context {A : Type} `{RlpLaws A}.

Lemma oreads_elems (xs : list A) : Forall rlp_valid xs -> forall fuel s l p n st,
  (length xs < fuel)%nat ->
  let b := concat (map enc_val (map rlp_val xs)) in
  at_pos s (b ++ l) (mkListpos p n :: st) -> wf (b ++ l) (mkListpos p n :: st) -> p + zlen b = n ->
  exists s', decodeSliceElemsOf rlp_dec fuel s = Ok (Good xs, s') /\ at_pos s' l (mkListpos n n :: st).
Proof.
  induction 1 as [|x xs Hx Hxs IH]; intros fuel s l p n st Hf b Ha Hw Hn; subst b; (destruct fuel as [|fuel]; [lia|]).
  - cbn [map concat app] in *. change (zlen []) with 0 in Hn.
    destruct (rlp_ends s _ _ _ Ha) as (s' & E & Ha'); [cbn; lia|].
    cbn [decodeSliceElemsOf]. rewrite E. exists s'. split; [done|]. by replace n with p at 1 by lia.
  - cbn [map concat length] in *. rewrite <- app_assoc in *. rewrite zlen_app in *.
    set (c := enc_val (rlp_val x)) in *. set (d := concat (map enc_val (map rlp_val xs))) in *.
    pose proof (zlen_nonneg d).
    destruct (rlp_reads x Hx s _ _ Ha Hw) as (s1 & E1 & Ha1); [fold c; cbn [left pos lsize]; lia|]. cbn [bump pos lsize] in Ha1. fold c in Ha1.
    assert (wf (d ++ l) (mkListpos (p + zlen c) n :: st)) as Hw1
      by (refine (wf_bump (zlen c) _ c (mkListpos p n :: st) eq_refl _ Hw); cbn [left pos lsize]; lia).
    destruct (IH fuel s1 l _ n st ltac:(lia) Ha1 Hw1) as (s2 & E2 & Ha2); [lia|].
    exists s2. cbn [decodeSliceElemsOf]. rewrite E1. cbn [obind]. unfold osbind. rewrite E2. done.
Qed.

Lemma length_elems (xs : list A) : Forall rlp_valid xs ->
  Z.of_nat (length xs) <= zlen (concat (map enc_val (map rlp_val xs))).
Proof.
  induction 1 as [|x xs Hx Hxs IH]; [done|]. cbn [map concat length]. rewrite zlen_app.
  pose proof (rlp_nonempty x Hx). lia.
Qed.

Lemma oreads_slice (xs : list A) : Forall rlp_valid xs ->
  oreads (decodeListSliceOf rlp_dec) (enc_val (VList (map rlp_val xs))) xs.
Proof.
  intros Hxs s l st Ha Hw Hle. cbn [enc_val] in *. pose proof (length_elems xs Hxs) as Hlen.
  pose proof (oreads_elems xs Hxs) as Hel. cbn [enc_val] in *.
  set (p := concat (map enc_val (map rlp_val xs))) in *.
  destruct (s_List_enters p s l st Ha Hw Hle) as (s1 & st' & E1 & Hb & Ha1 & Hw1 & Hw2).
  rewrite <- Hb. unfold decodeListSliceOf, osbind, lift. rewrite E1. cbn [obind].
  destruct (Z.eqb_spec (zlen p) 0) as [E0|E0].
  - destruct xs as [|x xs]; [|cbn [length] in Hlen; lia].
    destruct (s_ListEnd_ok s1 (zlen p) l st') as (s2 & E2 & Ha2); [|done|by exists s2; rewrite E2].
    by rewrite E0 in *.
  - destruct (Hel (S (length (r s1))) s1 l 0 (zlen p) st') as (s2 & E2 & Ha2); [|done|done|lia|].
    { destruct Ha1 as [[-> _ _ _] _]. rewrite length_app. unfold zlen in Hlen. lia. }
    rewrite E2. cbn [obind]. destruct (s_ListEnd_ok s2 _ _ _ Ha2 Hw2) as (s3 & E3 & Ha3).
    exists s3. by rewrite E3.
Qed.

Lemma encodable_slice (xs : list A) : Forall rlp_valid xs -> encodable (VList (map rlp_val xs)).
Proof. induction 1 as [|x xs Hx Hxs IH]; [done|]. split; [by apply rlp_encodable|exact IH]. Qed.

End slices.

Lemma zlen_enc_lst_pos p : 1 <= zlen (enc_lst p).
Proof. unfold enc_lst. rewrite zlen_app. pose proof (zlen_enc_head_pos 0xC0 0xF7 (zlen p)). pose proof (zlen_nonneg p). lia. Qed.

Lemma zlen_enc_str_pos b : 1 <= zlen (enc_str b).
Proof. exact (enc_nonempty (Str b)). Qed.

Lemma ends_slice {A} (dec : OSM A) : ends (decodeListSliceOf dec).
Proof.
  intros s l t st Ha Ht. destruct (s_Kind_EOL s l t st Ha Ht) as (s' & E & Ha'). exists s'. split; [|done].
  unfold decodeListSliceOf, osbind, lift, swrap, s_List, sbind. by rewrite E.
Qed.

(** ** The basic types *)

(** Decoders that begin with [s.Kind()]. *)
Ltac solve_ends :=
  let s := fresh "s" in let s' := fresh "s'" in let E := fresh "E" in let Ha' := fresh "Ha'" in
  intros s ? ? ? Ha Ht; destruct (s_Kind_EOL s _ _ _ Ha Ht) as (s' & E & Ha'); exists s'; split; [|done].

(** [uint64] and [uint]. *)
Definition uint64_rlp : Rlp Z := {| rlp_val := VUint; rlp_dec := lift (decodeUint 64); rlp_valid := is_u64 |}.
Lemma uint64_laws : @RlpLaws Z uint64_rlp.
Proof.
  constructor; cbn [rlp_val rlp_dec rlp_valid uint64_rlp enc_val]; intros.
  - done.
  - apply zlen_enc_str_pos.
  - by apply oreads_lift, decodeUint_reads.
  - solve_ends. unfold lift, decodeUint, swrap, s_uint, sbind. by rewrite E.
Qed.

(** [*big.Int], never [nil]. *)
Definition bigint_rlp : Rlp Z :=
  {| rlp_val i := VBigIntPtr (Some i); rlp_dec := lift decodeBigInt; rlp_valid i := 0 <= i |}.
Lemma bigint_laws : @RlpLaws Z bigint_rlp.
Proof.
  constructor; cbn [rlp_val rlp_dec rlp_valid bigint_rlp enc_val from_option id]; intros.
  - done.
  - apply zlen_enc_str_pos.
  - apply oreads_sized. intros Hl. apply oreads_lift, decodeBigInt_reads; [done|].
    pose proof (zlen_enc_str_ge (big_Bytes a)). lia.
  - solve_ends. unfold lift, decodeBigInt, swrap, s_Bytes, sbind. by rewrite E.
Qed.

(** [[]byte]. *)
Definition bytes_rlp : Rlp (list byte) :=
  {| rlp_val := VBytes; rlp_dec := lift decodeByteSlice; rlp_valid _ := True |}.
Lemma bytes_laws : @RlpLaws (list byte) bytes_rlp.
Proof.
  constructor; cbn [rlp_val rlp_dec rlp_valid bytes_rlp enc_val]; intros.
  - done.
  - apply zlen_enc_str_pos.
  - apply oreads_sized. intros Hl. apply oreads_lift, reads_swrap, s_Bytes_reads.
    pose proof (zlen_enc_str_ge a). lia.
  - solve_ends. unfold lift, decodeByteSlice, swrap, s_Bytes, sbind. by rewrite E.
Qed.

(** Byte arrays of a fixed length. *)
Definition array_rlp (n : nat) : Rlp (list byte) :=
  {| rlp_val := VBytes; rlp_dec := lift (decodeByteArray (Z.of_nat n)); rlp_valid b := length b = n |}.
Lemma array_laws n : (1 < n)%nat -> Z.of_nat n <= MaxUint64 -> @RlpLaws (list byte) (array_rlp n).
Proof.
  intros Hn Hm. constructor; cbn [rlp_val rlp_dec rlp_valid array_rlp enc_val]; intros.
  - done.
  - apply zlen_enc_str_pos.
  - apply oreads_lift, decodeByteArray_reads; unfold zlen; lia.
  - solve_ends. unfold lift, decodeByteArray, sbind. by rewrite E.
Qed.

(** [common.Hash] and [common.Address]: arrays held as numbers. *)
Definition number_rlp (n : nat) : Rlp Z :=
  {| rlp_val h := VBytes (z2be n h);
     rlp_dec := dec! b := lift (decodeByteArray (Z.of_nat n)) in oret (be2z b);
     rlp_valid h := 0 <= h < 256 ^ Z.of_nat n |}.
Lemma number_laws n : (1 < n)%nat -> Z.of_nat n <= MaxUint64 -> @RlpLaws Z (number_rlp n).
Proof.
  intros Hn Hm. constructor; cbn [rlp_val rlp_dec rlp_valid number_rlp enc_val]; intros.
  - done.
  - apply zlen_enc_str_pos.
  - eapply oreads_last; [apply oreads_lift, decodeByteArray_reads; [lia|unfold zlen; by rewrite length_z2be|lia]|].
    cbn. rewrite be2z_z2be, Z.mod_small by done. done.
  - solve_ends. unfold osbind, lift, decodeByteArray, sbind. by rewrite E.
Qed.
Definition hash_rlp : Rlp Hash := number_rlp 32.
Definition address_rlp : Rlp Address := number_rlp 20.
Lemma hash_laws : @RlpLaws Hash hash_rlp.
Proof. apply number_laws; unfold MaxUint64; lia. Qed.
Lemma address_laws : @RlpLaws Address address_rlp.
Proof. apply number_laws; unfold MaxUint64; lia. Qed.

(** Slices of an encodable type. *)
Definition slice_rlp {A} (R : Rlp A) : Rlp (list A) :=
  {| rlp_val l := VList (map rlp_val l); rlp_dec := decodeListSliceOf rlp_dec; rlp_valid := Forall rlp_valid |}.
Lemma slice_laws {A} (R : Rlp A) : RlpLaws A -> @RlpLaws (list A) (slice_rlp R).
Proof.
  intros L. constructor; intros.
  - by apply encodable_slice.
  - apply zlen_enc_lst_pos.
  - by apply oreads_slice.
  - apply ends_slice.
Qed.

(** Pointers tagged [nil] to byte arrays: a missing one is the empty string. *)
Definition optional_rlp (n : nat) : Rlp (option Z) :=
  {| rlp_val p := VBytes (match p with Some h => z2be n h | None => [] end);
     rlp_dec := decodeOptionalPtr (rlp_dec (Rlp := number_rlp n));
     rlp_valid p := match p with Some h => 0 <= h < 256 ^ Z.of_nat n | None => True end |}.
Lemma optional_laws n : (1 < n)%nat -> Z.of_nat n <= MaxUint64 -> @RlpLaws (option Z) (optional_rlp n).
Proof.
  intros Hn Hm. constructor; cbn [rlp_val rlp_dec rlp_valid optional_rlp enc_val]; intros.
  - done.
  - apply zlen_enc_str_pos.
  - destruct a as [h|]; intros s l st Ha Hw Hle.
    + assert (zlen (z2be n h) = Z.of_nat n) as Hz by (unfold zlen; by rewrite length_z2be).
      destruct (@rlp_reads _ _ (number_laws n Hn Hm) h ltac:(done) s l st Ha Hw Hle) as (s' & E & Ha').
      destruct (enc_str_head (z2be n h)) as [(c & Ec & _)|(hd & Eh & Hh & Hc)]; [lia|..].
      { apply (f_equal length) in Ec. rewrite length_z2be in Ec. cbn in Ec. lia. }
      cbn [rlp_val rlp_dec number_rlp enc_val] in *.
      rewrite Eh in *. rewrite <- app_assoc in Ha, Hw. rewrite zlen_app in Hle.
      destruct (s_Kind_ok s KString _ hd _ st Hh Ha Hw) as (s1 & Ek & Hr & _).
      { rewrite <- app_assoc in Hle. done. }
      exists s'. split; [|done]. unfold decodeOptionalPtr. rewrite Ek.
      destruct (Z.eqb_spec (zlen (z2be n h)) 0) as [E0|_]; [lia|]. cbn [andb].
      enough (osbind (lift (decodeByteArray (Z.of_nat n))) (fun b => oret (be2z b)) s1 = Ok (Good h, s')) as E1
        by (unfold osbind at 1; rewrite E1; done).
      rewrite <- E. unfold osbind, lift, decodeByteArray, sbind. by rewrite Ek, (s_Kind_ready _ _ _ _ _ Hr).
    + destruct (enc_str_head [] ltac:(done)) as [(c & ? & _)|(hd & Eh & Hh & _)]; [done|].
      change (zlen []) with 0 in *. rewrite Eh, app_nil_r in *.
      destruct (s_Kind_ok s KString 0 hd l st Hh Ha Hw ltac:(lia)) as (s1 & Ek & Hr & _).
      eexists. unfold decodeOptionalPtr. rewrite Ek. split; [reflexivity|].
      split; [|done]. by destruct Hr as [[] _ _ _].
  - intros s ? ? ? Ha Ht. destruct (s_Kind_EOL s _ _ _ Ha Ht) as (s' & E & [Hs Hk]).
    eexists. unfold decodeOptionalPtr. rewrite E. split; [done|]. split; [|done]. by destruct Hs.
Qed.

(** ** The round trip *)

Lemma rlp_roundtrip {A} `{RlpLaws A} (a : A) : rlp_valid a -> zlen (enc_val (rlp_val a)) <= MaxUint64 ->
  exists b, EncodeToBytes (rlp_val a) = Good b /\ b = enc_val (rlp_val a) /\ DecodeBytesOf rlp_dec b = Ok (Good a).
Proof.
  intros Hv Hl. set (b := enc_val (rlp_val a)) in *. exists b.
  split; [apply EncodeToBytes_spec; [by apply rlp_encodable|done]|]. split; [done|].
  destruct (rlp_reads a Hv (NewStream b (zlen b)) [] []) as (s' & E & [[Hr _ _ _] _]).
  - rewrite app_nil_r. apply NewStream_at.
  - rewrite app_nil_r. by apply NewStream_wf.
  - rewrite app_nil_r. cbn. unfold b. lia.
  - unfold DecodeBytesOf. rewrite E. cbn [obind]. by rewrite Hr.
Qed.

Create HintDb rlp.
#[export] Hint Resolve uint64_laws bigint_laws bytes_laws hash_laws address_laws slice_laws : rlp.
#[export] Hint Resolve oreads_field ends_struct zlen_enc_lst_pos zlen_enc_str_pos : rlp.
