(* ===== verification/ChainTypes.v ===== *)
(** * Blocks, transactions, receipts and blooms ([kernel/types])

    [block.go], the data of [transaction.go], [receipt.go], [log.go] and
    [bloom9.go]: the records with their RLP encodings as instances of [Rlp], and
    the bloom filter over logs.  [big.Int] fields are never [nil], as in every
    decoded or copied header. *)
From S2P Require Import Prelude CommonMath RlpEncode RlpDecode RlpFacts StateAccount RlpTyped VmInterface.
From stdpp Require Import base numbers list.
From Stdlib Require Import ZArith Lia.
#[local] Open Scope Z_scope.

(** ** Model *)

(** *** [bloom9.go] *)

Definition BloomByteLength : nat := 256.
Definition BloomBitLength : Z := 8 * Z.of_nat BloomByteLength.

(** [[256]byte]. *)
Definition Bloom : Type := list byte.

(** [b.SetBytes(d)]: the bytes before the copied ones are kept. *)
Definition Bloom_SetBytes (b : Bloom) (d : list byte) : outcome Bloom :=
  if (length b <? length d)%nat then Panic
  else Ok (take (BloomByteLength - length d) b ++ d).

Definition BytesToBloom (b : list byte) : outcome Bloom :=
  Bloom_SetBytes (replicate BloomByteLength Byte.x00) b.

Definition Bloom_Big (b : Bloom) : Z := be2z b.

Section bloom.
Context (cr : Crypto).

(** One pair of hash bytes selects a bit; [b[i+1]] is in range for a hash. *)
Definition bloom_bit (h : list byte) (i : nat) : outcome Z :=
  match h !! S i, h !! i with
  | Some lo, Some hi => Ok (Z.land (b2z lo + Z.shiftl (b2z hi) 8) 2047)
  | _, _ => Panic
  end.

Definition bloom9 (b : list byte) : outcome Z :=
  let h := keccak256 cr b in
  let! b0 := bloom_bit h 0 in
  let! b1 := bloom_bit h 2 in
  let! b2 := bloom_bit h 4 in
  Ok (Z.lor (Z.lor (Z.lor 0 (Z.shiftl 1 b0)) (Z.shiftl 1 b1)) (Z.shiftl 1 b2)).

(** [bin.Or(bin, bloom9(x))] over a list of byte strings. *)
Fixpoint bloom_or (bin : Z) (xs : list (list byte)) : outcome Z :=
  match xs with
  | [] => Ok bin
  | x :: xs => let! c := bloom9 x in bloom_or (Z.lor bin c) xs
  end.

(** The loop of [LogsBloom]. *)
Fixpoint logs_bloom (bin : Z) (logs : list Log) : outcome Z :=
  match logs with
  | [] => Ok bin
  | log :: logs =>
      let! bin := bloom_or bin (Address_Bytes (log_Address log) :: map Hash_Bytes (log_Topics log)) in
      logs_bloom bin logs
  end.
Definition LogsBloom (logs : list Log) : outcome Z := logs_bloom 0 logs.

Definition BloomLookup (bin : Bloom) (topic : list byte) : outcome bool :=
  let bloom := Bloom_Big bin in
  let! cmp := bloom9 topic in
  Ok (Z.land bloom cmp =? cmp).

Definition Bloom_Add (b : Bloom) (d : Z) : outcome Bloom :=
  let! c := bloom9 (big_Bytes d) in
  Bloom_SetBytes b (big_Bytes (Z.lor (be2z b) c)).

Definition Bloom_Test (b : Bloom) (test : Z) : outcome bool := BloomLookup b (big_Bytes test).
Definition Bloom_TestBytes (b : Bloom) (test : list byte) : outcome bool := Bloom_Test b (be2z test).

End bloom.

(** *** [receipt.go] *)

Record Receipt := mkReceipt {
  r_PostState : list byte;
  r_Status : Z;
  r_CumulativeGasUsed : Z;
  r_Bloom : Bloom;
  r_Logs : list Log;
  r_TxHash : Hash;
  r_ContractAddress : Address;
  r_GasUsed : Z
}.

Definition ReceiptStatusFailed : Z := 0.
Definition ReceiptStatusSuccessful : Z := 1.
Definition receiptStatusFailedRLP : list byte := [].
Definition receiptStatusSuccessfulRLP : list byte := [z2b 0x01].

Definition zeroBloom : Bloom := replicate BloomByteLength Byte.x00.

Definition NewReceipt (root : list byte) (failed : bool) (cumulativeGasUsed : Z) : Receipt :=
  mkReceipt root (if failed then ReceiptStatusFailed else ReceiptStatusSuccessful)
    cumulativeGasUsed zeroBloom [] 0 0 0.

Definition statusEncoding (r : Receipt) : list byte :=
  match r_PostState r with
  | [] => if r_Status r =? ReceiptStatusFailed then receiptStatusFailedRLP else receiptStatusSuccessfulRLP
  | root => root
  end.

(** [r.setStatus]: the new [PostState] and [Status]; [None] is the error. *)
Definition setStatus (postState : list byte) (status : Z) (postStateOrStatus : list byte) : option (list byte * Z) :=
  if bool_decide (postStateOrStatus = receiptStatusSuccessfulRLP) then Some (postState, ReceiptStatusSuccessful)
  else if bool_decide (postStateOrStatus = receiptStatusFailedRLP) then Some (postState, ReceiptStatusFailed)
  else if (length postStateOrStatus =? HashLength)%nat then Some (postStateOrStatus, status)
  else None.

Section create.
Context (cr : Crypto).
Fixpoint create_bloom (bin : Z) (receipts : list Receipt) : outcome Z :=
  match receipts with
  | [] => Ok bin
  | receipt :: receipts => let! c := LogsBloom cr (r_Logs receipt) in create_bloom (Z.lor bin c) receipts
  end.
Definition CreateBloom (receipts : list Receipt) : outcome Bloom :=
  let! bin := create_bloom 0 receipts in
  BytesToBloom (big_Bytes bin).
End create.

(** *** [transaction.go] *)

Record Transaction := mkTransaction {
  tx_AccountNonce : Z;
  tx_Price : Z;
  tx_GasLimit : Z;
  tx_Recipient : option Address;
  tx_Amount : Z;
  tx_Payload : list byte;
  tx_V : Z;
  tx_R : Z;
  tx_S : Z
}.

#[global] Instance transaction_eq_decision : EqDecision Transaction.
Proof. solve_decision. Defined.

Definition newTransaction (nonce : Z) (to : option Address) (amount : option Z) (gasLimit : Z)
    (gasPrice : option Z) (data : list byte) : Transaction :=
  mkTransaction nonce (default 0 gasPrice) gasLimit to (default 0 amount) data 0 0 0.
Definition NewTransaction (nonce : Z) (to : Address) (amount : option Z) (gasLimit : Z)
    (gasPrice : option Z) (data : list byte) : Transaction :=
  newTransaction nonce (Some to) amount gasLimit gasPrice data.
Definition NewContractCreation (nonce : Z) (amount : option Z) (gasLimit : Z)
    (gasPrice : option Z) (data : list byte) : Transaction :=
  newTransaction nonce None amount gasLimit gasPrice data.

Definition Cost (tx : Transaction) : Z := tx_Price tx * tx_GasLimit tx + tx_Amount tx.

(** *** [block.go] *)

(** [[8]byte]. *)
Definition BlockNonce : Type := list byte.
Definition EncodeNonce (i : Z) : BlockNonce := z2be 8 i.
Definition BlockNonce_Uint64 (n : BlockNonce) : Z := be2z n.

Record Header := mkHeader {
  h_ParentHash : Hash;
  h_UncleHash : Hash;
  h_Coinbase : Address;
  h_Root : Hash;
  h_TxHash : Hash;
  h_ReceiptHash : Hash;
  h_Bloom : Bloom;
  h_Difficulty : Z;
  h_Number : Z;
  h_GasLimit : Z;
  h_GasUsed : Z;
  h_Time : Z;
  h_Extra : list byte;
  h_MixDigest : Hash;
  h_Nonce : BlockNonce
}.

#[global] Instance header_eq_decision : EqDecision Header.
Proof. solve_decision. Defined.

Record Block := mkBlock {
  b_header : Header;
  b_uncles : list Header;
  b_transactions : list Transaction
}.

(** ** Encodings *)

Abbreviation val_as R x := (@rlp_val _ R x).
Abbreviation dec_as R := (@rlp_dec _ R).
Abbreviation valid_as R x := (@rlp_valid _ R x).

(** [txdata] and [Transaction.EncodeRLP], [Transaction.DecodeRLP]. *)
#[export] Instance transaction_rlp : Rlp Transaction := {|
  rlp_val tx := VList
    [ val_as uint64_rlp (tx_AccountNonce tx);
      val_as bigint_rlp (tx_Price tx);
      val_as uint64_rlp (tx_GasLimit tx);
      val_as (optional_rlp 20) (tx_Recipient tx);
      val_as bigint_rlp (tx_Amount tx);
      val_as bytes_rlp (tx_Payload tx);
      val_as bigint_rlp (tx_V tx);
      val_as bigint_rlp (tx_R tx);
      val_as bigint_rlp (tx_S tx) ];
  rlp_dec := decodeStructOf (
    dec! nonce := ofield (dec_as uint64_rlp) in
    dec! price := ofield (dec_as bigint_rlp) in
    dec! gas := ofield (dec_as uint64_rlp) in
    dec! to := ofield (dec_as (optional_rlp 20)) in
    dec! amount := ofield (dec_as bigint_rlp) in
    dec! payload := ofield (dec_as bytes_rlp) in
    dec! v := ofield (dec_as bigint_rlp) in
    dec! r := ofield (dec_as bigint_rlp) in
    dec! s := ofield (dec_as bigint_rlp) in
    oret (mkTransaction nonce price gas to amount payload v r s));
  rlp_valid tx :=
    is_u64 (tx_AccountNonce tx) /\ 0 <= tx_Price tx /\ is_u64 (tx_GasLimit tx) /\
    valid_as (optional_rlp 20) (tx_Recipient tx) /\ 0 <= tx_Amount tx /\
    0 <= tx_V tx /\ 0 <= tx_R tx /\ 0 <= tx_S tx
|}.

#[export] Instance header_rlp : Rlp Header := {|
  rlp_val h := VList
    [ val_as hash_rlp (h_ParentHash h);
      val_as hash_rlp (h_UncleHash h);
      val_as address_rlp (h_Coinbase h);
      val_as hash_rlp (h_Root h);
      val_as hash_rlp (h_TxHash h);
      val_as hash_rlp (h_ReceiptHash h);
      val_as (array_rlp BloomByteLength) (h_Bloom h);
      val_as bigint_rlp (h_Difficulty h);
      val_as bigint_rlp (h_Number h);
      val_as uint64_rlp (h_GasLimit h);
      val_as uint64_rlp (h_GasUsed h);
      val_as bigint_rlp (h_Time h);
      val_as bytes_rlp (h_Extra h);
      val_as hash_rlp (h_MixDigest h);
      val_as (array_rlp 8) (h_Nonce h) ];
  rlp_dec := decodeStructOf (
    dec! parent := ofield (dec_as hash_rlp) in
    dec! uncle := ofield (dec_as hash_rlp) in
    dec! coinbase := ofield (dec_as address_rlp) in
    dec! root := ofield (dec_as hash_rlp) in
    dec! txhash := ofield (dec_as hash_rlp) in
    dec! receipthash := ofield (dec_as hash_rlp) in
    dec! bloom := ofield (dec_as (array_rlp BloomByteLength)) in
    dec! difficulty := ofield (dec_as bigint_rlp) in
    dec! number := ofield (dec_as bigint_rlp) in
    dec! gaslimit := ofield (dec_as uint64_rlp) in
    dec! gasused := ofield (dec_as uint64_rlp) in
    dec! time := ofield (dec_as bigint_rlp) in
    dec! extra := ofield (dec_as bytes_rlp) in
    dec! mix := ofield (dec_as hash_rlp) in
    dec! nonce := ofield (dec_as (array_rlp 8)) in
    oret (mkHeader parent uncle coinbase root txhash receipthash bloom difficulty number gaslimit gasused time extra mix nonce));
  rlp_valid h :=
    valid_as hash_rlp (h_ParentHash h) /\ valid_as hash_rlp (h_UncleHash h) /\
    valid_as address_rlp (h_Coinbase h) /\ valid_as hash_rlp (h_Root h) /\
    valid_as hash_rlp (h_TxHash h) /\ valid_as hash_rlp (h_ReceiptHash h) /\
    length (h_Bloom h) = BloomByteLength /\ 0 <= h_Difficulty h /\ 0 <= h_Number h /\
    is_u64 (h_GasLimit h) /\ is_u64 (h_GasUsed h) /\ 0 <= h_Time h /\
    valid_as hash_rlp (h_MixDigest h) /\ length (h_Nonce h) = 8%nat
|}.

(** [extblock]: [Block.EncodeRLP] and [Block.DecodeRLP]. *)
#[export] Instance block_rlp : Rlp Block := {|
  rlp_val b := VList
    [ val_as header_rlp (b_header b);
      val_as (slice_rlp transaction_rlp) (b_transactions b);
      val_as (slice_rlp header_rlp) (b_uncles b) ];
  rlp_dec := decodeStructOf (
    dec! header := ofield (dec_as header_rlp) in
    dec! txs := ofield (dec_as (slice_rlp transaction_rlp)) in
    dec! uncles := ofield (dec_as (slice_rlp header_rlp)) in
    oret (mkBlock header uncles txs));
  rlp_valid b :=
    rlp_valid (b_header b) /\ Forall rlp_valid (b_transactions b) /\ Forall rlp_valid (b_uncles b)
|}.

(** [rlpLog]: what [Log.EncodeRLP] writes; the other fields are derived data
    and decode to their zero values. *)
#[export] Instance log_rlp : Rlp Log := {|
  rlp_val l := VList
    [ val_as address_rlp (log_Address l);
      val_as (slice_rlp hash_rlp) (log_Topics l);
      val_as bytes_rlp (log_Data l) ];
  rlp_dec := decodeStructOf (
    dec! address := ofield (dec_as address_rlp) in
    dec! topics := ofield (dec_as (slice_rlp hash_rlp)) in
    dec! data := ofield (dec_as bytes_rlp) in
    oret (mkLog address topics data 0 0 0 0 0 false));
  rlp_valid l :=
    valid_as address_rlp (log_Address l) /\ Forall (fun h => valid_as hash_rlp h) (log_Topics l) /\
    log_BlockNumber l = 0 /\ log_TxHash l = 0 /\ log_TxIndex l = 0 /\ log_BlockHash l = 0 /\
    log_Index l = 0 /\ log_Removed l = false
|}.

(** [receiptRLP]: the consensus fields of a receipt; [errOfDecoder] is the error
    of [setStatus]. *)
#[export] Instance receipt_rlp : Rlp Receipt := {|
  rlp_val r := VList
    [ val_as bytes_rlp (statusEncoding r);
      val_as uint64_rlp (r_CumulativeGasUsed r);
      val_as (array_rlp BloomByteLength) (r_Bloom r);
      val_as (slice_rlp log_rlp) (r_Logs r) ];
  rlp_dec :=
    dec! (status, gas, bloom, logs) := decodeStructOf (
      dec! status := ofield (dec_as bytes_rlp) in
      dec! gas := ofield (dec_as uint64_rlp) in
      dec! bloom := ofield (dec_as (array_rlp BloomByteLength)) in
      dec! logs := ofield (dec_as (slice_rlp log_rlp)) in
      oret (status, gas, bloom, logs)) in
    match setStatus [] 0 status with
    | None => ofail errOfDecoder
    | Some (postState, status) => oret (mkReceipt postState status gas bloom logs 0 0 0)
    end;
  rlp_valid r :=
    ((r_PostState r = [] /\ (r_Status r = ReceiptStatusFailed \/ r_Status r = ReceiptStatusSuccessful)) \/
     (length (r_PostState r) = HashLength /\ r_Status r = 0)) /\
    is_u64 (r_CumulativeGasUsed r) /\ length (r_Bloom r) = BloomByteLength /\
    Forall rlp_valid (r_Logs r) /\ r_TxHash r = 0 /\ r_ContractAddress r = 0 /\ r_GasUsed r = 0
|}.

(** [rlpStorageLog] and [receiptStorageRLP]: the forms kept in the database. *)
Definition log_storage_rlp : Rlp Log := {|
  rlp_val l := VList
    [ val_as address_rlp (log_Address l);
      val_as (slice_rlp hash_rlp) (log_Topics l);
      val_as bytes_rlp (log_Data l);
      val_as uint64_rlp (log_BlockNumber l);
      val_as hash_rlp (log_TxHash l);
      val_as uint64_rlp (log_TxIndex l);
      val_as hash_rlp (log_BlockHash l);
      val_as uint64_rlp (log_Index l) ];
  rlp_dec := decodeStructOf (
    dec! address := ofield (dec_as address_rlp) in
    dec! topics := ofield (dec_as (slice_rlp hash_rlp)) in
    dec! data := ofield (dec_as bytes_rlp) in
    dec! number := ofield (dec_as uint64_rlp) in
    dec! txhash := ofield (dec_as hash_rlp) in
    dec! txindex := ofield (dec_as uint64_rlp) in
    dec! blockhash := ofield (dec_as hash_rlp) in
    dec! index := ofield (dec_as uint64_rlp) in
    oret (mkLog address topics data number txhash txindex blockhash index false));
  rlp_valid l :=
    valid_as address_rlp (log_Address l) /\ Forall (fun h => valid_as hash_rlp h) (log_Topics l) /\
    is_u64 (log_BlockNumber l) /\ valid_as hash_rlp (log_TxHash l) /\ is_u64 (log_TxIndex l) /\
    valid_as hash_rlp (log_BlockHash l) /\ is_u64 (log_Index l) /\ log_Removed l = false
|}.

Definition receipt_storage_rlp : Rlp Receipt := {|
  rlp_val r := VList
    [ val_as bytes_rlp (statusEncoding r);
      val_as uint64_rlp (r_CumulativeGasUsed r);
      val_as (array_rlp BloomByteLength) (r_Bloom r);
      val_as hash_rlp (r_TxHash r);
      val_as address_rlp (r_ContractAddress r);
      val_as (slice_rlp log_storage_rlp) (r_Logs r);
      val_as uint64_rlp (r_GasUsed r) ];
  rlp_dec :=
    dec! (status, gas, bloom, txhash, contract, logs, gasUsed) := decodeStructOf (
      dec! status := ofield (dec_as bytes_rlp) in
      dec! gas := ofield (dec_as uint64_rlp) in
      dec! bloom := ofield (dec_as (array_rlp BloomByteLength)) in
      dec! txhash := ofield (dec_as hash_rlp) in
      dec! contract := ofield (dec_as address_rlp) in
      dec! logs := ofield (dec_as (slice_rlp log_storage_rlp)) in
      dec! gasUsed := ofield (dec_as uint64_rlp) in
      oret (status, gas, bloom, txhash, contract, logs, gasUsed)) in
    match setStatus [] 0 status with
    | None => ofail errOfDecoder
    | Some (postState, status) => oret (mkReceipt postState status gas bloom logs txhash contract gasUsed)
    end;
  rlp_valid r :=
    ((r_PostState r = [] /\ (r_Status r = ReceiptStatusFailed \/ r_Status r = ReceiptStatusSuccessful)) \/
     (length (r_PostState r) = HashLength /\ r_Status r = 0)) /\
    is_u64 (r_CumulativeGasUsed r) /\ length (r_Bloom r) = BloomByteLength /\
    valid_as hash_rlp (r_TxHash r) /\ valid_as address_rlp (r_ContractAddress r) /\
    Forall (fun l => valid_as log_storage_rlp l) (r_Logs r) /\ is_u64 (r_GasUsed r)
|}.

(** ** Hashes *)

Section hashes.
Context (cr : Crypto).

(** [rlpHash]: the hash of what was written; a failed encoding writes nothing. *)
Definition rlpHash (x : val) : Hash :=
  Keccak256Hash cr (match EncodeToBytes x with Good b => b | Err _ => [] end).

Definition Header_Hash (h : Header) : Hash := rlpHash (rlp_val h).
Definition Tx_Hash (tx : Transaction) : Hash := rlpHash (rlp_val tx).
Definition CalcUncleHash (uncles : list Header) : Hash := rlpHash (val_as (slice_rlp header_rlp) uncles).
Definition EmptyUncleHash : Hash := CalcUncleHash [].
Definition Block_Hash (b : Block) : Hash := Header_Hash (b_header b).

(** [TxDifference]: the transactions of [a] whose hash is not in [b]. *)
Definition TxDifference (a b : list Transaction) : list Transaction :=
  let remove := map Tx_Hash b in
  filter (fun tx => Tx_Hash tx ∉ remove) a.

End hashes.

(** ** The encodings are lossless *)

Ltac read_fields :=
  repeat (eapply oreads_bind; [apply oreads_field; eapply (@rlp_reads _ _ _); first [exact I | eassumption] | cbn beta]).

Section laws.
#[local] Existing Instances uint64_laws bigint_laws bytes_laws hash_laws address_laws.

Lemma bloom_array_laws : @RlpLaws (list byte) (array_rlp BloomByteLength).
Proof. apply array_laws; [unfold BloomByteLength; lia|done]. Qed.
Lemma nonce_array_laws : @RlpLaws (list byte) (array_rlp 8).
Proof. apply array_laws; [lia|done]. Qed.
Lemma recipient_laws : @RlpLaws (option Z) (optional_rlp 20).
Proof. apply optional_laws; [lia|done]. Qed.
#[local] Existing Instances bloom_array_laws nonce_array_laws recipient_laws slice_laws.

#[export] Instance transaction_laws : RlpLaws Transaction.
Proof.
  constructor.
  - intros a Hv. cbn in Hv |- *. tauto.
  - intros a _. apply zlen_enc_lst_pos.
  - intros a Hv. cbn [rlp_valid transaction_rlp] in Hv. destruct_and!. apply oreads_struct. cbn [map concat].
    read_fields. destruct a. apply oreads_ret.
  - apply ends_struct.
Qed.

#[export] Instance header_laws : RlpLaws Header.
Proof.
  constructor.
  - intros a Hv. cbn in Hv |- *. tauto.
  - intros a _. apply zlen_enc_lst_pos.
  - intros a Hv. cbn [rlp_valid header_rlp] in Hv. destruct_and!. apply oreads_struct. cbn [map concat].
    read_fields. destruct a. apply oreads_ret.
  - apply ends_struct.
Qed.

#[export] Instance block_laws : RlpLaws Block.
Proof.
  constructor.
  - intros a (Hh & Ht & Hu). split; [by apply rlp_encodable|].
    split; [exact (encodable_slice _ Ht)|]. split; [exact (encodable_slice _ Hu)|done].
  - intros a _. apply zlen_enc_lst_pos.
  - intros a (Hh & Ht & Hu). apply oreads_struct. cbn [map concat]. read_fields. destruct a. apply oreads_ret.
  - apply ends_struct.
Qed.

#[export] Instance log_laws : RlpLaws Log.
Proof.
  constructor.
  - intros a (Ha & Ht & _). split; [exact I|]. split; [exact (encodable_slice (H0 := hash_laws) _ Ht)|done].
  - intros a _. apply zlen_enc_lst_pos.
  - intros a (Ha & Ht & E). destruct_and!. apply oreads_struct. cbn [map concat]. read_fields.
    destruct a; cbn in *; subst. apply oreads_ret.
  - apply ends_struct.
Qed.

Lemma log_storage_laws : @RlpLaws Log log_storage_rlp.
Proof.
  constructor.
  - intros a (Ha & Ht & E). destruct_and!. split; [exact I|]. split; [exact (encodable_slice (H0 := hash_laws) _ Ht)|].
    repeat (split; [done|]). done.
  - intros a _. apply zlen_enc_lst_pos.
  - intros a (Ha & Ht & E). destruct_and!. apply oreads_struct. cbn [map concat]. read_fields.
    destruct a; cbn in *; subst. apply oreads_ret.
  - apply ends_struct.
Qed.

Lemma setStatus_encoding r :
  (r_PostState r = [] /\ (r_Status r = ReceiptStatusFailed \/ r_Status r = ReceiptStatusSuccessful)) \/
  (length (r_PostState r) = HashLength /\ r_Status r = 0) ->
  setStatus [] 0 (statusEncoding r) = Some (r_PostState r, r_Status r).
Proof.
  intros [[E [H|H]]|[El H]]; unfold statusEncoding; rewrite ?E, H; [done|done|].
  destruct (r_PostState r) as [|c t] eqn:Ep; [done|]. unfold setStatus.
  rewrite !bool_decide_false, El; [done|done|]. intros [= _ ->]. done.
Qed.

#[export] Instance receipt_laws : RlpLaws Receipt.
Proof.
  constructor.
  - intros a (Hs & Hg & Hb & Hl & E). split; [exact I|]. split; [done|]. split; [exact I|].
    split; [exact (encodable_slice _ Hl)|done].
  - intros a _. apply zlen_enc_lst_pos.
  - intros a (Hs & Hg & Hb & Hl & E). destruct_and!. eapply oreads_last.
    + apply oreads_struct. cbn [map concat]. read_fields. apply oreads_ret.
    + cbn beta iota. rewrite (setStatus_encoding a Hs). by destruct a; cbn in *; subst.
  - apply ends_bind, ends_struct.
Qed.

Lemma receipt_storage_laws : @RlpLaws Receipt receipt_storage_rlp.
Proof.
  pose proof log_storage_laws. constructor.
  - intros a (Hs & Hg & Hb & Ht & Hc & Hl & E). split; [exact I|]. split; [done|]. split; [exact I|].
    split; [exact I|]. split; [exact I|].
    split; [exact (encodable_slice (H0 := log_storage_laws) _ Hl)|done].
  - intros a _. apply zlen_enc_lst_pos.
  - intros a (Hs & Hg & Hb & Ht & Hc & Hl & E). eapply oreads_last.
    + apply oreads_struct. cbn [map concat]. read_fields. apply oreads_ret.
    + cbn beta iota. rewrite (setStatus_encoding a Hs). by destruct a; cbn in *; subst.
  - apply ends_bind, ends_struct.
Qed.
End laws.
