(* ===== verification/StateModel.v ===== *)
(** * The world state ([kernel/state])

    [state_object.go], [journal.go] and [statedb.go] on top of the [Database] and
    [Trie] interfaces of [database.go].  Reads fill caches (the loaded objects,
    an object's trie, code and committed storage), so every operation returns
    the state it leaves; objects are values that are written back to the map of
    loaded objects, which is where the code mutates them through pointers. *)
From S2P Require Import Prelude CommonMath RlpEncode RlpDecode Opcodes VmBase VmInterface StateAccount.
From stdpp Require Import base numbers list gmap.
From Stdlib Require Import ZArith Lia.
#[local] Open Scope Z_scope.

Inductive dberror : Type :=
| missing_node (n : Z)
| cant_create_storage_trie (e : dberror)
| cant_load_code (hash : list byte) (e : dberror)
| rlp_failure (e : rlperr).

(** [database.go]: what the state uses of [Database], [Trie] and
    [trie.Database].  [OpenEmptyTrie] is [OpenStorageTrie] with the zero root,
    which [trie.New] never refuses. *)
Class Database (D T : Type) := {
  TryGet : T -> list byte -> list byte * option dberror;
  TryUpdate : T -> list byte -> list byte -> T * option dberror;
  TryDelete : T -> list byte -> T * option dberror;
  Trie_Hash : T -> Hash;
  Trie_Commit : T -> D -> result dberror Hash * T * D;
  OpenTrie : D -> Hash -> result dberror T;
  OpenStorageTrie : D -> Hash -> Hash -> result dberror T;
  OpenEmptyTrie : D -> Hash -> T;
  CopyTrie : D -> T -> T;
  ContractCode : D -> Hash -> Hash -> option (list byte) * option dberror;
  ContractCodeSize : D -> Hash -> Hash -> Z * option dberror;
  InsertBlob : D -> Hash -> list byte -> D
}.

(** [sort.Search]: the smallest index in [0, n) at which [f] holds, by bisection. *)
Fixpoint Search_loop (fuel : nat) (f : Z -> bool) (i j : Z) : Z :=
  match fuel with
  | O => i
  | Datatypes.S fuel =>
      if i <? j then
        let h := (i + j) / 2 in
        if negb (f h) then Search_loop fuel f (h + 1) j else Search_loop fuel f i h
      else i
  end.
Definition Search (n : Z) (f : Z -> bool) : Z := Search_loop (Z.to_nat n) f 0 n.

(** [bytes.TrimLeft(b, zero byte)]. *)
Fixpoint TrimLeftZero (l : list byte) : list byte :=
  match l with
  | c :: t => if b2z c =? 0 then TrimLeftZero t else l
  | [] => []
  end.

Module State.

Section state.
Context {D T : Type} `{Database D T} (cr : Crypto).

Definition emptyCodeHash : list byte := keccak256 cr [].
Definition emptyState : Hash := Keccak256Hash cr [].
Definition emptyCode : Hash := Keccak256Hash cr [].

(** ** [state_object.go] *)

Abbreviation Storage := (gmap Hash Hash).

(** [code = None] is the nil slice. *)
Record stateObject := mkObject {
  address : Address;
  addrHash : Hash;
  data : Account;
  dbErr : option dberror;
  trie : option T;
  code : option (list byte);
  originStorage : Storage;
  dirtyStorage : Storage;
  dirtyCode : bool;
  suicided : bool;
  deleted : bool
}.

Definition with_data (o : stateObject) (a : Account) : stateObject :=
  mkObject (address o) (addrHash o) a (dbErr o) (trie o) (code o) (originStorage o) (dirtyStorage o)
    (dirtyCode o) (suicided o) (deleted o).
Definition with_trie (o : stateObject) (t : option T) : stateObject :=
  mkObject (address o) (addrHash o) (data o) (dbErr o) t (code o) (originStorage o) (dirtyStorage o)
    (dirtyCode o) (suicided o) (deleted o).
Definition with_code (o : stateObject) (c : option (list byte)) : stateObject :=
  mkObject (address o) (addrHash o) (data o) (dbErr o) (trie o) c (originStorage o) (dirtyStorage o)
    (dirtyCode o) (suicided o) (deleted o).
Definition with_origin (o : stateObject) (m : Storage) : stateObject :=
  mkObject (address o) (addrHash o) (data o) (dbErr o) (trie o) (code o) m (dirtyStorage o)
    (dirtyCode o) (suicided o) (deleted o).
Definition with_dirty (o : stateObject) (m : Storage) : stateObject :=
  mkObject (address o) (addrHash o) (data o) (dbErr o) (trie o) (code o) (originStorage o) m
    (dirtyCode o) (suicided o) (deleted o).
Definition with_dirtyCode (o : stateObject) (b : bool) : stateObject :=
  mkObject (address o) (addrHash o) (data o) (dbErr o) (trie o) (code o) (originStorage o) (dirtyStorage o)
    b (suicided o) (deleted o).
Definition with_suicided (o : stateObject) (b : bool) : stateObject :=
  mkObject (address o) (addrHash o) (data o) (dbErr o) (trie o) (code o) (originStorage o) (dirtyStorage o)
    (dirtyCode o) b (deleted o).
Definition with_deleted (o : stateObject) (b : bool) : stateObject :=
  mkObject (address o) (addrHash o) (data o) (dbErr o) (trie o) (code o) (originStorage o) (dirtyStorage o)
    (dirtyCode o) (suicided o) b.

Definition empty (o : stateObject) : bool :=
  (Nonce (data o) =? 0) && (Sign (Balance (data o)) =? 0) && bool_decide (CodeHash (data o) = emptyCodeHash).

(** [zeroAccount] is the literal [Account{}] after [newObject] has filled in the
    balance and the code hash it lacks. *)
Definition newObject (addr : Address) (acc : Account) : stateObject :=
  mkObject addr (Keccak256Hash cr (Address_Bytes addr)) acc None None None ∅ ∅ false false false.
Definition zeroAccount : Account := mkAccount 0 0 0 emptyCodeHash.

(** The first error stays. *)
Definition obj_setError (o : stateObject) (err : option dberror) : stateObject :=
  match dbErr o with
  | Some _ => o
  | None => mkObject (address o) (addrHash o) (data o) err (trie o) (code o) (originStorage o) (dirtyStorage o)
      (dirtyCode o) (suicided o) (deleted o)
  end.

Definition getTrie (db : D) (o : stateObject) : T * stateObject :=
  match trie o with
  | Some t => (t, o)
  | None =>
      match OpenStorageTrie db (addrHash o) (Root (data o)) with
      | Good t => (t, with_trie o (Some t))
      | Err e =>
          let t := OpenEmptyTrie db (addrHash o) in
          (t, obj_setError (with_trie o (Some t)) (Some (cant_create_storage_trie e)))
      end
  end.

Definition obj_GetCommittedState (db : D) (o : stateObject) (key : Hash) : Hash * stateObject :=
  match originStorage o !! key with
  | Some value => (value, o)
  | None =>
      let (t, o) := getTrie db o in
      match TryGet t (Hash_Bytes key) with
      | (_, Some err) => (0, obj_setError o (Some err))
      | (enc, None) =>
          let (value, o) :=
            if 0 <? zlen enc then
              match Split enc with
              | Good (_, content, _) => (BytesToHash content, o)
              | Err err => (0, obj_setError o (Some (rlp_failure err)))
              end
            else (0, o) in
          (value, with_origin o (<[key := value]> (originStorage o)))
      end
  end.

Definition obj_GetState (db : D) (o : stateObject) (key : Hash) : Hash * stateObject :=
  match dirtyStorage o !! key with
  | Some value => (value, o)
  | None => obj_GetCommittedState db o key
  end.

Definition setState (o : stateObject) (key value : Hash) : stateObject :=
  with_dirty o (<[key := value]> (dirtyStorage o)).

Definition setBalance (o : stateObject) (amount : Z) : stateObject :=
  with_data o (mkAccount (Nonce (data o)) amount (Root (data o)) (CodeHash (data o))).
Definition setNonce (o : stateObject) (nonce : Z) : stateObject :=
  with_data o (mkAccount nonce (Balance (data o)) (Root (data o)) (CodeHash (data o))).
Definition setRoot (o : stateObject) (root : Hash) : stateObject :=
  with_data o (mkAccount (Nonce (data o)) (Balance (data o)) root (CodeHash (data o))).
Definition setCode (o : stateObject) (codeHash : Hash) (c : option (list byte)) : stateObject :=
  with_dirtyCode (with_data (with_code o c)
    (mkAccount (Nonce (data o)) (Balance (data o)) (Root (data o)) (Hash_Bytes codeHash))) true.
Definition markSuicided (o : stateObject) : stateObject := with_suicided o true.

Definition obj_Code (db : D) (o : stateObject) : option (list byte) * stateObject :=
  match code o with
  | Some c => (Some c, o)
  | None =>
      if bool_decide (CodeHash (data o) = emptyCodeHash) then (None, o)
      else
        let (c, err) := ContractCode db (addrHash o) (BytesToHash (CodeHash (data o))) in
        let o := match err with
                 | Some e => obj_setError o (Some (cant_load_code (CodeHash (data o)) e))
                 | None => o
                 end in
        (c, with_code o c)
  end.

(** One round of the loop of [updateTrie], for a dirty slot. *)
Definition updateSlot (to : T * stateObject) (slot : Hash * Hash) : T * stateObject :=
  let (tr, o) := to in
  let (key, value) := slot in
  let o := with_dirty o (delete key (dirtyStorage o)) in
  if value =? default 0 (originStorage o !! key) then (tr, o)
  else
    let o := with_origin o (<[key := value]> (originStorage o)) in
    if value =? 0 then
      let (tr, err) := TryDelete tr (Hash_Bytes key) in (tr, obj_setError o err)
    else
      let v := match EncodeToBytes (VBytes (TrimLeftZero (Hash_Bytes value))) with Good v => v | Err _ => [] end in
      let (tr, err) := TryUpdate tr (Hash_Bytes key) v in (tr, obj_setError o err).

(** The loop over the dirty slots, which the language runs in any order. *)
Definition updateTrie (db : D) (o : stateObject) : T * stateObject :=
  let (tr, o) := getTrie db o in
  let (tr, o) := foldl updateSlot (tr, o) (map_to_list (dirtyStorage o)) in
  (tr, with_trie o (Some tr)).

Definition updateRoot (db : D) (o : stateObject) : stateObject :=
  let (tr, o) := updateTrie db o in
  setRoot o (Trie_Hash tr).

Definition CommitTrie (db : D) (o : stateObject) : option dberror * stateObject * D :=
  let (tr, o) := updateTrie db o in
  match dbErr o with
  | Some e => (Some e, o, db)
  | None =>
      let '(root, tr, db) := Trie_Commit tr db in
      let o := with_trie o (Some tr) in
      match root with
      | Good root => (None, setRoot o root, db)
      | Err e => (Some e, o, db)
      end
  end.

Definition deepCopy (db : D) (o : stateObject) : stateObject :=
  mkObject (address o) (Keccak256Hash cr (Address_Bytes (address o))) (data o) None
    (CopyTrie db <$> trie o) (code o) (originStorage o) (dirtyStorage o) (dirtyCode o) (suicided o) (deleted o).

(** ** [journal.go] *)

Inductive journalEntry : Type :=
| createObjectChange (account : Address)
| resetObjectChange (prev : stateObject)
| suicideChange (account : Address) (prev : bool) (prevbalance : Z)
| balanceChange (account : Address) (prev : Z)
| nonceChange (account : Address) (prev : Z)
| storageChange (account : Address) (key prevalue : Hash)
| codeChange (account : Address) (prevcode : option (list byte)) (prevhash : list byte)
| refundChange (prev : Z)
| addLogChange (txhash : Hash)
| addPreimageChange (hash : Hash)
| touchChange (account : Address).

Record journal := mkJournal {
  entries : list journalEntry;
  dirties : gmap Address Z
}.
Definition newJournal : journal := mkJournal [] ∅.

Definition dirtied (e : journalEntry) : option Address :=
  match e with
  | createObjectChange a | suicideChange a _ _ | balanceChange a _ | nonceChange a _ | storageChange a _ _
  | codeChange a _ _ | touchChange a => Some a
  | resetObjectChange _ | refundChange _ | addLogChange _ | addPreimageChange _ => None
  end.

Definition j_dirty (j : journal) (addr : Address) : journal :=
  mkJournal (entries j) (<[addr := default 0 (dirties j !! addr) + 1]> (dirties j)).

Definition j_append (j : journal) (e : journalEntry) : journal :=
  let j := mkJournal (entries j ++ [e]) (dirties j) in
  match dirtied e with
  | Some addr => j_dirty j addr
  | None => j
  end.

(** [j.dirties[*addr]--], and the entry goes at zero. *)
Definition undirty (m : gmap Address Z) (e : journalEntry) : gmap Address Z :=
  match dirtied e with
  | Some addr =>
      let n := default 0 (m !! addr) - 1 in
      if n =? 0 then delete addr m else <[addr := n]> m
  | None => m
  end.

Definition ripemd : Address := 3.

(** ** [statedb.go] *)

Record revision := mkRevision { id : Z; journalIndex : Z }.

Record StateDB := mkStateDB {
  db : D;
  tr : T;
  stateObjects : gmap Address stateObject;
  stateObjectsDirty : gset Address;
  sdbErr : option dberror;
  refund : Z;
  thash : Hash;
  bhash : Hash;
  txIndex : Z;
  logs : gmap Hash (list Log);
  logSize : Z;
  preimages : gmap Hash (list byte);
  jrnl : journal;
  validRevisions : list revision;
  nextRevisionId : Z
}.

Definition set_db (s : StateDB) (d : D) : StateDB :=
  mkStateDB d (tr s) (stateObjects s) (stateObjectsDirty s) (sdbErr s) (refund s) (thash s) (bhash s)
    (txIndex s) (logs s) (logSize s) (preimages s) (jrnl s) (validRevisions s) (nextRevisionId s).
Definition set_tr (s : StateDB) (t : T) : StateDB :=
  mkStateDB (db s) t (stateObjects s) (stateObjectsDirty s) (sdbErr s) (refund s) (thash s) (bhash s)
    (txIndex s) (logs s) (logSize s) (preimages s) (jrnl s) (validRevisions s) (nextRevisionId s).
Definition set_objects (s : StateDB) (m : gmap Address stateObject) : StateDB :=
  mkStateDB (db s) (tr s) m (stateObjectsDirty s) (sdbErr s) (refund s) (thash s) (bhash s)
    (txIndex s) (logs s) (logSize s) (preimages s) (jrnl s) (validRevisions s) (nextRevisionId s).
Definition set_objectsDirty (s : StateDB) (m : gset Address) : StateDB :=
  mkStateDB (db s) (tr s) (stateObjects s) m (sdbErr s) (refund s) (thash s) (bhash s)
    (txIndex s) (logs s) (logSize s) (preimages s) (jrnl s) (validRevisions s) (nextRevisionId s).
Definition set_refund (s : StateDB) (n : Z) : StateDB :=
  mkStateDB (db s) (tr s) (stateObjects s) (stateObjectsDirty s) (sdbErr s) n (thash s) (bhash s)
    (txIndex s) (logs s) (logSize s) (preimages s) (jrnl s) (validRevisions s) (nextRevisionId s).
Definition set_logs (s : StateDB) (m : gmap Hash (list Log)) (n : Z) : StateDB :=
  mkStateDB (db s) (tr s) (stateObjects s) (stateObjectsDirty s) (sdbErr s) (refund s) (thash s) (bhash s)
    (txIndex s) m n (preimages s) (jrnl s) (validRevisions s) (nextRevisionId s).
Definition set_preimages (s : StateDB) (m : gmap Hash (list byte)) : StateDB :=
  mkStateDB (db s) (tr s) (stateObjects s) (stateObjectsDirty s) (sdbErr s) (refund s) (thash s) (bhash s)
    (txIndex s) (logs s) (logSize s) m (jrnl s) (validRevisions s) (nextRevisionId s).
Definition set_journal (s : StateDB) (j : journal) : StateDB :=
  mkStateDB (db s) (tr s) (stateObjects s) (stateObjectsDirty s) (sdbErr s) (refund s) (thash s) (bhash s)
    (txIndex s) (logs s) (logSize s) (preimages s) j (validRevisions s) (nextRevisionId s).
Definition set_revisions (s : StateDB) (l : list revision) (n : Z) : StateDB :=
  mkStateDB (db s) (tr s) (stateObjects s) (stateObjectsDirty s) (sdbErr s) (refund s) (thash s) (bhash s)
    (txIndex s) (logs s) (logSize s) (preimages s) (jrnl s) l n.

Definition setError (s : StateDB) (err : option dberror) : StateDB :=
  match sdbErr s with
  | Some _ => s
  | None =>
      mkStateDB (db s) (tr s) (stateObjects s) (stateObjectsDirty s) err (refund s) (thash s) (bhash s)
        (txIndex s) (logs s) (logSize s) (preimages s) (jrnl s) (validRevisions s) (nextRevisionId s)
  end.

Definition New (root : Hash) (d : D) : result dberror StateDB :=
  try! t := OpenTrie d root in
  Good (mkStateDB d t ∅ ∅ None 0 0 0 0 ∅ 0 ∅ newJournal [] 0).

Definition clearJournalAndRefund (s : StateDB) : StateDB :=
  set_refund (set_revisions (set_journal s newJournal) [] (nextRevisionId s)) 0.

Definition Reset (s : StateDB) (root : Hash) : result dberror StateDB :=
  try! t := OpenTrie (db s) root in
  Good (clearJournalAndRefund
    (mkStateDB (db s) t ∅ ∅ (sdbErr s) (refund s) 0 0 0 ∅ 0 ∅ (jrnl s) (validRevisions s) (nextRevisionId s))).

Definition Prepare (s : StateDB) (th bh : Hash) (ti : Z) : StateDB :=
  mkStateDB (db s) (tr s) (stateObjects s) (stateObjectsDirty s) (sdbErr s) (refund s) th bh
    ti (logs s) (logSize s) (preimages s) (jrnl s) (validRevisions s) (nextRevisionId s).

Definition journal_append (s : StateDB) (e : journalEntry) : StateDB := set_journal s (j_append (jrnl s) e).

Definition setStateObject (s : StateDB) (o : stateObject) : StateDB :=
  set_objects s (<[address o := o]> (stateObjects s)).

Definition getStateObject (s : StateDB) (addr : Address) : option stateObject * StateDB :=
  match stateObjects s !! addr with
  | Some obj => (if deleted obj then None else Some obj, s)
  | None =>
      let (enc, err) := TryGet (tr s) (Address_Bytes addr) in
      if zlen enc =? 0 then (None, setError s err)
      else
        match decodeAccount enc with
        | Err _ => (None, s)
        | Good acc => let obj := newObject addr acc in (Some obj, setStateObject s obj)
        end
  end.

Definition createObject (s : StateDB) (addr : Address) : stateObject * option stateObject * StateDB :=
  let (prev, s) := getStateObject s addr in
  let newobj := setNonce (newObject addr zeroAccount) 0 in
  let s := match prev with
           | None => journal_append s (createObjectChange addr)
           | Some prev => journal_append s (resetObjectChange prev)
           end in
  (newobj, prev, setStateObject s newobj).

Definition GetOrNewStateObject (s : StateDB) (addr : Address) : stateObject * StateDB :=
  let (o, s) := getStateObject s addr in
  match o with
  | Some o => if deleted o then let '(o, _, s) := createObject s addr in (o, s) else (o, s)
  | None => let '(o, _, s) := createObject s addr in (o, s)
  end.

(** *** Logs, preimages, refunds *)

Definition AddLog (s : StateDB) (l : Log) : StateDB :=
  let s := journal_append s (addLogChange (thash s)) in
  let l := mkLog (log_Address l) (log_Topics l) (log_Data l) (log_BlockNumber l) (thash s) (txIndex s) (bhash s)
             (logSize s) (log_Removed l) in
  set_logs s (<[thash s := default [] (logs s !! thash s) ++ [l]]> (logs s)) (logSize s + 1).

Definition GetLogs (s : StateDB) (hash : Hash) : list Log := default [] (logs s !! hash).

Definition AddPreimage (s : StateDB) (hash : Hash) (preimage : list byte) : StateDB :=
  match preimages s !! hash with
  | Some _ => s
  | None => set_preimages (journal_append s (addPreimageChange hash)) (<[hash := preimage]> (preimages s))
  end.

Definition AddRefund (s : StateDB) (gas : Z) : StateDB :=
  let s := journal_append s (refundChange (refund s)) in
  set_refund s (u64 (refund s + gas)).

Definition SubRefund (s : StateDB) (gas : Z) : outcome StateDB :=
  let s := journal_append s (refundChange (refund s)) in
  if refund s <? gas then Panic else Ok (set_refund s (refund s - gas)).

Definition GetRefund (s : StateDB) : Z := refund s.

(** *** Reads *)

(** A read of an object: its caches go back to the map. *)
Definition read {A} (s : StateDB) (addr : Address) (dflt : A) (f : stateObject -> A * stateObject) : A * StateDB :=
  match getStateObject s addr with
  | (None, s) => (dflt, s)
  | (Some o, s) => let (v, o) := f o in (v, setStateObject s o)
  end.

Definition Exist (s : StateDB) (addr : Address) : bool * StateDB :=
  let (o, s) := getStateObject s addr in (match o with Some _ => true | None => false end, s).
Definition Empty (s : StateDB) (addr : Address) : bool * StateDB :=
  let (o, s) := getStateObject s addr in (match o with Some o => empty o | None => true end, s).
Definition GetBalance (s : StateDB) (addr : Address) : Z * StateDB :=
  let (o, s) := getStateObject s addr in (match o with Some o => Balance (data o) | None => 0 end, s).
Definition GetNonce (s : StateDB) (addr : Address) : Z * StateDB :=
  let (o, s) := getStateObject s addr in (match o with Some o => Nonce (data o) | None => 0 end, s).
Definition GetCodeHash (s : StateDB) (addr : Address) : Hash * StateDB :=
  let (o, s) := getStateObject s addr in (match o with Some o => BytesToHash (CodeHash (data o)) | None => 0 end, s).
Definition HasSuicided (s : StateDB) (addr : Address) : bool * StateDB :=
  let (o, s) := getStateObject s addr in (match o with Some o => suicided o | None => false end, s).
Definition GetCode (s : StateDB) (addr : Address) : option (list byte) * StateDB :=
  read s addr None (obj_Code (db s)).
Definition GetState (s : StateDB) (addr : Address) (hash : Hash) : Hash * StateDB :=
  read s addr 0 (fun o => obj_GetState (db s) o hash).
Definition GetCommittedState (s : StateDB) (addr : Address) (hash : Hash) : Hash * StateDB :=
  read s addr 0 (fun o => obj_GetCommittedState (db s) o hash).

Definition GetCodeSize (s : StateDB) (addr : Address) : Z * StateDB :=
  match getStateObject s addr with
  | (None, s) => (0, s)
  | (Some o, s) =>
      match code o with
      | Some c => (zlen c, s)
      | None =>
          let (size, err) := ContractCodeSize (db s) (addrHash o) (BytesToHash (CodeHash (data o))) in
          (size, match err with Some e => setError s (Some e) | None => s end)
      end
  end.

(** *** Setters *)

Definition obj_SetBalance (s : StateDB) (o : stateObject) (amount : Z) : StateDB :=
  setStateObject (journal_append s (balanceChange (address o) (Balance (data o)))) (setBalance o amount).

Definition touch (s : StateDB) (o : stateObject) : StateDB :=
  let s := journal_append s (touchChange (address o)) in
  if address o =? ripemd then set_journal s (j_dirty (jrnl s) (address o)) else s.

Definition obj_AddBalance (s : StateDB) (o : stateObject) (amount : Z) : StateDB :=
  if Sign amount =? 0 then if empty o then touch s o else s
  else obj_SetBalance s o (Balance (data o) + amount).
Definition obj_SubBalance (s : StateDB) (o : stateObject) (amount : Z) : StateDB :=
  if Sign amount =? 0 then s else obj_SetBalance s o (Balance (data o) - amount).
Definition obj_SetNonce (s : StateDB) (o : stateObject) (nonce : Z) : StateDB :=
  setStateObject (journal_append s (nonceChange (address o) (Nonce (data o)))) (setNonce o nonce).
Definition obj_SetCode (s : StateDB) (o : stateObject) (codeHash : Hash) (c : option (list byte)) : StateDB :=
  let (prevcode, o) := obj_Code (db s) o in
  setStateObject (journal_append s (codeChange (address o) prevcode (CodeHash (data o)))) (setCode o codeHash c).
Definition obj_SetState (s : StateDB) (o : stateObject) (key value : Hash) : StateDB :=
  let (prev, o) := obj_GetState (db s) o key in
  if prev =? value then setStateObject s o
  else setStateObject (journal_append s (storageChange (address o) key prev)) (setState o key value).

Definition AddBalance (s : StateDB) (addr : Address) (amount : Z) : StateDB :=
  let (o, s) := GetOrNewStateObject s addr in obj_AddBalance s o amount.
Definition SubBalance (s : StateDB) (addr : Address) (amount : Z) : StateDB :=
  let (o, s) := GetOrNewStateObject s addr in obj_SubBalance s o amount.
Definition SetBalance (s : StateDB) (addr : Address) (amount : Z) : StateDB :=
  let (o, s) := GetOrNewStateObject s addr in obj_SetBalance s o amount.
Definition SetNonce (s : StateDB) (addr : Address) (nonce : Z) : StateDB :=
  let (o, s) := GetOrNewStateObject s addr in obj_SetNonce s o nonce.
Definition SetCode (s : StateDB) (addr : Address) (c : option (list byte)) : StateDB :=
  let (o, s) := GetOrNewStateObject s addr in obj_SetCode s o (Keccak256Hash cr (default [] c)) c.
Definition SetState (s : StateDB) (addr : Address) (key value : Hash) : StateDB :=
  let (o, s) := GetOrNewStateObject s addr in obj_SetState s o key value.

Definition Suicide (s : StateDB) (addr : Address) : bool * StateDB :=
  match getStateObject s addr with
  | (None, s) => (false, s)
  | (Some o, s) =>
      let s := journal_append s (suicideChange addr (suicided o) (Balance (data o))) in
      (true, setStateObject s (setBalance (markSuicided o) 0))
  end.

Definition CreateAccount (s : StateDB) (addr : Address) : StateDB :=
  let '(new, prev, s) := createObject s addr in
  match prev with
  | Some prev => setStateObject s (setBalance new (Balance (data prev)))
  | None => s
  end.

(** *** Snapshots *)

(** [revert] of each journal entry; a nil object or an empty log list panics. *)
Definition on_object (s : StateDB) (addr : Address) (f : stateObject -> stateObject) : outcome StateDB :=
  match getStateObject s addr with
  | (None, _) => Panic
  | (Some o, s) => Ok (setStateObject s (f o))
  end.

Definition entry_revert (e : journalEntry) (s : StateDB) : outcome StateDB :=
  match e with
  | createObjectChange a =>
      Ok (set_objectsDirty (set_objects s (delete a (stateObjects s))) (stateObjectsDirty s ∖ {[a]}))
  | resetObjectChange prev => Ok (setStateObject s prev)
  | suicideChange a prev prevbalance =>
      match getStateObject s a with
      | (None, s) => Ok s
      | (Some o, s) => Ok (setStateObject s (setBalance (with_suicided o prev) prevbalance))
      end
  | balanceChange a prev => on_object s a (fun o => setBalance o prev)
  | nonceChange a prev => on_object s a (fun o => setNonce o prev)
  | storageChange a key prevalue => on_object s a (fun o => setState o key prevalue)
  | codeChange a prevcode prevhash => on_object s a (fun o => setCode o (BytesToHash prevhash) prevcode)
  | refundChange prev => Ok (set_refund s prev)
  | addLogChange txhash =>
      let l := default [] (logs s !! txhash) in
      if zlen l =? 0 then Panic
      else
        let m := if zlen l =? 1 then delete txhash (logs s)
                 else <[txhash := take (length l - 1) l]> (logs s) in
        Ok (set_logs s m (logSize s - 1))
  | addPreimageChange hash => Ok (set_preimages s (delete hash (preimages s)))
  | touchChange _ => Ok s
  end.

(** The entries to undo, last one first. *)
Fixpoint revert_entries (es : list journalEntry) (s : StateDB) : outcome StateDB :=
  match es with
  | [] => Ok s
  | e :: es =>
      let! s := entry_revert e s in
      let s := set_journal s (mkJournal (entries (jrnl s)) (undirty (dirties (jrnl s)) e)) in
      revert_entries es s
  end.

Definition journal_revert (s : StateDB) (snapshot : Z) : outcome StateDB :=
  let n := Z.to_nat snapshot in
  let! s := revert_entries (reverse (drop n (entries (jrnl s)))) s in
  Ok (set_journal s (mkJournal (take n (entries (jrnl s))) (dirties (jrnl s)))).

Definition Snapshot (s : StateDB) : Z * StateDB :=
  let rid := nextRevisionId s in
  (rid, set_revisions s (validRevisions s ++ [mkRevision rid (zlen (entries (jrnl s)))]) (rid + 1)).

Definition RevertToSnapshot (s : StateDB) (revid : Z) : outcome StateDB :=
  let idx := Search (zlen (validRevisions s)) (fun i =>
    match validRevisions s !! Z.to_nat i with Some r => revid <=? id r | None => false end) in
  match validRevisions s !! Z.to_nat idx with
  | None => Panic
  | Some r =>
      if negb (id r =? revid) then Panic
      else
        let! s := journal_revert s (journalIndex r) in
        Ok (set_revisions s (take (Z.to_nat idx) (validRevisions s)) (nextRevisionId s))
  end.

(** *** Writing back *)

Definition updateStateObject (s : StateDB) (o : stateObject) : outcome StateDB :=
  match encodeAccount (data o) with
  | Err _ => Panic
  | Good enc => let (t, err) := TryUpdate (tr s) (Address_Bytes (address o)) enc in Ok (setError (set_tr s t) err)
  end.

Definition deleteStateObject (s : StateDB) (o : stateObject) : StateDB :=
  let s := setStateObject s (with_deleted o true) in
  let (t, err) := TryDelete (tr s) (Address_Bytes (address o)) in
  setError (set_tr s t) err.

(** One round of the loop of [Finalise]. *)
Definition finalise_one (deleteEmptyObjects : bool) (s : StateDB) (addr : Address) : outcome StateDB :=
  match stateObjects s !! addr with
  | None => Ok s
  | Some o =>
      let! s :=
        (if suicided o || (deleteEmptyObjects && empty o) then Ok (deleteStateObject s o)
         else
           let o := updateRoot (db s) o in
           updateStateObject (setStateObject s o) o) in
      Ok (set_objectsDirty s (stateObjectsDirty s ∪ {[addr]}))
  end.

Fixpoint finalise_loop (deleteEmptyObjects : bool) (addrs : list Address) (s : StateDB) : outcome StateDB :=
  match addrs with
  | [] => Ok s
  | a :: addrs => let! s := finalise_one deleteEmptyObjects s a in finalise_loop deleteEmptyObjects addrs s
  end.

(** The order in which the language visits the dirty addresses is [addrs]. *)
Definition Finalise_in (addrs : list Address) (deleteEmptyObjects : bool) (s : StateDB) : outcome StateDB :=
  let! s := finalise_loop deleteEmptyObjects addrs s in
  Ok (clearJournalAndRefund s).

Definition Finalise (deleteEmptyObjects : bool) (s : StateDB) : outcome StateDB :=
  Finalise_in (map_to_list (dirties (jrnl s))).*1 deleteEmptyObjects s.

Definition IntermediateRoot (deleteEmptyObjects : bool) (s : StateDB) : outcome (Hash * StateDB) :=
  let! s := Finalise deleteEmptyObjects s in
  Ok (Trie_Hash (tr s), s).

(** One round of the loop of [Commit], with the error it returns on. *)
Definition commit_one (deleteEmptyObjects : bool) (s : StateDB) (addr : Address) : outcome (option dberror * StateDB) :=
  match stateObjects s !! addr with
  | None => Ok (None, s)
  | Some o =>
      let isDirty := bool_decide (addr ∈ stateObjectsDirty s) in
      let! (err, s) :=
        (if suicided o || (isDirty && deleteEmptyObjects && empty o) then Ok (None, deleteStateObject s o)
         else if isDirty then
           let (s, o) :=
             match code o with
             | Some c =>
                 if dirtyCode o then (set_db s (InsertBlob (db s) (BytesToHash (CodeHash (data o))) c), with_dirtyCode o false)
                 else (s, o)
             | None => (s, o)
             end in
           let '(err, o, d) := CommitTrie (db s) o in
           let s := setStateObject (set_db s d) o in
           match err with
           | Some e => Ok (Some e, s)
           | None => let! s := updateStateObject s o in Ok (None, s)
           end
         else Ok (None, s)) in
      match err with
      | Some e => Ok (Some e, s)
      | None => Ok (None, set_objectsDirty s (stateObjectsDirty s ∖ {[addr]}))
      end
  end.

Fixpoint commit_loop (deleteEmptyObjects : bool) (addrs : list Address) (s : StateDB) : outcome (option dberror * StateDB) :=
  match addrs with
  | [] => Ok (None, s)
  | a :: addrs =>
      let! (err, s) := commit_one deleteEmptyObjects s a in
      match err with
      | Some e => Ok (Some e, s)
      | None => commit_loop deleteEmptyObjects addrs s
      end
  end.

(** [Commit], visiting the loaded objects in the order [addrs]; the reference
    counts the leaf callback keeps for the garbage collection of the trie
    database are left out. *)
Definition Commit_in (addrs : list Address) (deleteEmptyObjects : bool) (s : StateDB) : outcome (result dberror Hash * StateDB) :=
  let s := set_objectsDirty s (stateObjectsDirty s ∪ dom (dirties (jrnl s))) in
  let! (err, s) := commit_loop deleteEmptyObjects addrs s in
  match err with
  | Some e => Ok (Err e, clearJournalAndRefund s)
  | None =>
      let '(root, t, d) := Trie_Commit (tr s) (db s) in
      Ok (root, clearJournalAndRefund (set_db (set_tr s t) d))
  end.
Definition Commit (deleteEmptyObjects : bool) (s : StateDB) : outcome (result dberror Hash * StateDB) :=
  Commit_in (map_to_list (stateObjects s)).*1 deleteEmptyObjects s.

(** [Copy]: loaded objects that are dirty are copied, the others are left to be
    read again from the trie. *)
Definition Copy (s : StateDB) : outcome StateDB :=
  let dirtyJ := dom (dirties (jrnl s)) ∩ dom (stateObjects s) in
  if bool_decide (stateObjectsDirty s ⊆ dom (stateObjects s)) then
    let keep := dirtyJ ∪ stateObjectsDirty s in
    Ok (mkStateDB (db s) (CopyTrie (db s) (tr s))
      (deepCopy (db s) <$> filter (fun p => fst p ∈ keep) (stateObjects s)) keep None (refund s) 0 0 0
      (logs s) (logSize s) (preimages s) newJournal [] 0)
  else Panic.

End state.

End State.
