(* ===== verification/StateFacts.v ===== *)
(** * The journal undoes what was done, and caches are not observable

    [obj_eq] and [state_eq] compare objects and states by what the machine can
    read.  Every operation appends entries to the journal that undo it
    ([tracks]), so [RevertToSnapshot] restores every read. *)
From S2P Require Import Prelude CommonMath RlpEncode RlpDecode Opcodes VmBase VmInterface StateAccount StateModel.
From stdpp Require Import base numbers list gmap sorting.
From Stdlib Require Import ZArith Lia.
#[local] Open Scope Z_scope.

(** ** Bisection *)

Lemma Search_loop_spec f k fuel : forall i j, i <= k <= j -> j - i <= Z.of_nat fuel ->
  (forall x, i <= x < k -> f x = false) -> (forall x, k <= x < j -> f x = true) -> Search_loop fuel f i j = k.
Proof.
  induction fuel as [|fuel IH]; intros i j Hk Hf Hlo Hhi; cbn [Search_loop]; [lia|].
  destruct (Z.ltb_spec i j) as [Hij|Hij]; [|lia].
  assert (i <= (i + j) / 2 < j) as Hh.
  { split; [apply Z.div_le_lower_bound; lia|apply Z.div_lt_upper_bound; lia]. }
  set (h := (i + j) / 2) in *. destruct (f h) eqn:E; cbn [negb].
  - apply IH; [|lia|done|]; [|intros x Hx; apply Hhi; lia].
    destruct (Z.le_gt_cases k h); [lia|]. rewrite Hlo in E by lia. done.
  - apply IH; [|lia| |done]; [|intros x Hx; apply Hlo; lia].
    destruct (Z.le_gt_cases k h); [|lia]. rewrite Hhi in E by lia. done.
Qed.

Lemma Search_spec n f k : 0 <= k <= n ->
  (forall x, 0 <= x < k -> f x = false) -> (forall x, k <= x < n -> f x = true) -> Search n f = k.
Proof. intros Hk Hlo Hhi. apply Search_loop_spec; [lia|lia|done..]. Qed.

Section facts.
Context {D T : Type} `{Database D T} (cr : Crypto).
Import State.
Local Abbreviation stateObject := (@stateObject T).
Local Abbreviation StateDB := (@StateDB D T).
Local Abbreviation journalEntry := (@journalEntry T).
Local Abbreviation getStateObject := (getStateObject cr).
Local Abbreviation obj_Code := (obj_Code cr).

(** ** Objects by their observations *)

Definition the_trie (d : D) (o : stateObject) : T :=
  match trie o with
  | Some t => t
  | None => match OpenStorageTrie d (addrHash o) (Root (data o)) with Good t => t | Err _ => OpenEmptyTrie d (addrHash o) end
  end.

Definition trie_value (t : T) (key : Hash) : Hash :=
  match TryGet t (Hash_Bytes key) with
  | (_, Some _) => 0
  | (enc, None) =>
      if 0 <? zlen enc then match Split enc with Good (_, content, _) => BytesToHash content | Err _ => 0 end else 0
  end.

Definition committed (d : D) (o : stateObject) (key : Hash) : Hash :=
  default (trie_value (the_trie d o) key) (originStorage o !! key).
Definition current (d : D) (o : stateObject) (key : Hash) : Hash :=
  default (committed d o key) (dirtyStorage o !! key).
Definition codev (d : D) (o : stateObject) : list byte :=
  match code o with
  | Some c => c
  | None =>
      if bool_decide (CodeHash (data o) = emptyCodeHash cr) then []
      else default [] (fst (ContractCode d (addrHash o) (BytesToHash (CodeHash (data o)))))
  end.

Record obj_eq (d : D) (o o' : stateObject) : Prop := {
  oe_address : address o' = address o;
  oe_addrHash : addrHash o' = addrHash o;
  oe_nonce : Nonce (data o') = Nonce (data o);
  oe_balance : Balance (data o') = Balance (data o);
  oe_codeHash : CodeHash (data o') = CodeHash (data o);
  oe_suicided : suicided o' = suicided o;
  oe_deleted : deleted o' = deleted o;
  oe_committed : forall k, committed d o' k = committed d o k;
  oe_current : forall k, current d o' k = current d o k;
  oe_code : codev d o' = codev d o
}.

#[global] Instance obj_eq_equiv d : Equivalence (obj_eq d).
Proof.
  split.
  - intros o. by constructor.
  - intros o o' []. constructor; auto; congruence.
  - intros o1 o2 o3 [] []. constructor; intros; etrans; eauto.
Qed.

Lemma getTrie_the_trie d o : fst (getTrie d o) = the_trie d o.
Proof. unfold getTrie, the_trie. destruct (trie o); [done|]. by destruct (OpenStorageTrie _ _ _). Qed.

Lemma the_trie_getTrie d o : the_trie d (snd (getTrie d o)) = the_trie d o.
Proof.
  unfold the_trie at 2, getTrie. destruct (trie o) as [t|] eqn:E; [unfold the_trie; cbn; by rewrite E|].
  destruct (OpenStorageTrie _ _ _); cbn; [done|]. unfold obj_setError. cbn. by destruct (dbErr o).
Qed.

(** Operations on caches and error fields only. *)
Lemma obj_setError_eq d o err : obj_eq d o (obj_setError o err).
Proof. unfold obj_setError. by destruct (dbErr o); constructor. Qed.

Lemma with_trie_eq d o : obj_eq d o (with_trie o (Some (the_trie d o))).
Proof. by constructor. Qed.

Lemma getTrie_eq d o : obj_eq d o (snd (getTrie d o)).
Proof.
  pose proof (with_trie_eq d o) as Ho. unfold the_trie in Ho. unfold getTrie.
  destruct (trie o) as [t|] eqn:E; [done|]. destruct (OpenStorageTrie _ _ _) as [t|e]; cbn; [done|].
  etrans; [exact Ho|]. apply obj_setError_eq.
Qed.

Lemma getTrie_origin d o : originStorage (snd (getTrie d o)) = originStorage o.
Proof.
  unfold getTrie. destruct (trie o); [done|]. destruct (OpenStorageTrie _ _ _); [done|].
  unfold obj_setError. cbn. by destruct (dbErr o).
Qed.

Lemma with_origin_eq d o key : originStorage o !! key = None ->
  obj_eq d o (with_origin o (<[key := committed d o key]> (originStorage o))).
Proof.
  intros E. assert (forall k, committed d (with_origin o (<[key := committed d o key]> (originStorage o))) k = committed d o k) as Hc.
  { intros k. unfold committed at 1. cbn. destruct (decide (k = key)) as [->|Hk].
    - by rewrite lookup_insert_eq.
    - by rewrite lookup_insert_ne. }
  constructor; try done. intros k. unfold current. by rewrite Hc.
Qed.

Lemma obj_GetCommittedState_eq d o key :
  fst (obj_GetCommittedState d o key) = committed d o key /\ obj_eq d o (snd (obj_GetCommittedState d o key)).
Proof.
  unfold obj_GetCommittedState. destruct (originStorage o !! key) as [v|] eqn:E.
  { cbn. split; [|done]. unfold committed. by rewrite E. }
  assert (committed d o key = trie_value (the_trie d o) key) as Hc by (unfold committed; by rewrite E).
  pose proof (getTrie_eq d o) as Ho. pose proof (getTrie_origin d o) as Eo.
  rewrite <- getTrie_the_trie in Hc. unfold trie_value in Hc.
  destruct (getTrie d o) as [t o1]; cbn [fst snd] in *. rewrite <- Eo in E.
  rewrite <- (oe_committed _ _ _ Ho) in Hc |- *.
  destruct (TryGet t (Hash_Bytes key)) as [enc [err|]]; cbn [fst snd].
  { split; [done|]. etrans; [exact Ho|]. apply obj_setError_eq. }
  assert (forall o2, obj_eq d o1 o2 -> originStorage o2 = originStorage o1 ->
    obj_eq d o (with_origin o2 (<[key := committed d o1 key]> (originStorage o2)))) as Hfin.
  { intros o2 Ho2 E2. etrans; [exact Ho|]. etrans; [exact Ho2|]. rewrite <- (oe_committed _ _ _ Ho2).
    apply with_origin_eq. by rewrite E2. }
  destruct (0 <? zlen enc); [destruct (Split enc) as [[[k content] rest]|err]|]; cbn [fst snd] in *; rewrite <- Hc;
    (split; [done|]); apply Hfin; try done; try apply obj_setError_eq. unfold obj_setError. by destruct (dbErr o1).
Qed.

Lemma obj_GetState_eq d o key :
  fst (obj_GetState d o key) = current d o key /\ obj_eq d o (snd (obj_GetState d o key)).
Proof.
  unfold obj_GetState, current. destruct (dirtyStorage o !! key) as [v|]; [done|]. apply obj_GetCommittedState_eq.
Qed.

Lemma obj_Code_eq d o :
  default [] (fst (obj_Code d o)) = codev d o /\ obj_eq d o (snd (obj_Code d o)).
Proof.
  unfold State.obj_Code, codev. destruct (code o) as [c|] eqn:E; [done|]. destruct (bool_decide _) eqn:Eh; [done|].
  destruct (ContractCode d (addrHash o) _) as [c err] eqn:Ec. cbn. split; [done|].
  assert (forall o2, obj_eq d o o2 -> code o2 = None -> obj_eq d o (with_code o2 c)) as Hfin.
  { intros o2 Ho E2. destruct Ho. constructor; try done.
    assert (codev d o = default [] c) as -> by (unfold codev; by rewrite E, Eh, Ec).
    destruct c as [c|]; [done|]. unfold codev. cbn [code with_code data addrHash].
    by rewrite oe_codeHash0, oe_addrHash0, Eh, Ec. }
  destruct err; apply Hfin; try done; [apply obj_setError_eq|]. unfold obj_setError. by destruct (dbErr o).
Qed.

(** ** States by their observations *)

(** The object in the trie, as it is loaded. *)
Definition trie_object (t : T) (a : Address) : option stateObject :=
  let enc := fst (TryGet t (Address_Bytes a)) in
  if zlen enc =? 0 then None
  else match decodeAccount enc with Good acc => Some (newObject cr a acc) | Err _ => None end.

Definition lookup_object (s : StateDB) (a : Address) : option stateObject :=
  match stateObjects s !! a with
  | Some o => if deleted o then None else Some o
  | None => trie_object (tr s) a
  end.

Definition opt_eq (d : D) (x y : option stateObject) : Prop :=
  match x, y with
  | Some o, Some o' => obj_eq d o o'
  | None, None => True
  | _, _ => False
  end.

Record state_eq (s s' : StateDB) : Prop := {
  se_db : db s' = db s;
  se_tr : tr s' = tr s;
  se_refund : refund s' = refund s;
  se_thash : thash s' = thash s;
  se_bhash : bhash s' = bhash s;
  se_txIndex : txIndex s' = txIndex s;
  se_logs : forall h, GetLogs s' h = GetLogs s h;
  se_logSize : logSize s' = logSize s;
  se_preimages : preimages s' = preimages s;
  se_objects : forall a, opt_eq (db s) (lookup_object s a) (lookup_object s' a)
}.

Lemma opt_eq_refl d x : opt_eq d x x.
Proof. destruct x; cbn; done. Qed.

#[global] Instance state_eq_equiv : Equivalence state_eq.
Proof.
  split.
  - intros s. constructor; try done. intros a. apply opt_eq_refl.
  - intros s s' []. constructor; try done. intros a. specialize (se_objects0 a). rewrite se_db0. unfold opt_eq in *.
    by destruct (lookup_object s a), (lookup_object s' a).
  - intros s1 s2 s3 [] []. constructor; try (etrans; eassumption); [intros h; by rewrite se_logs1|].
    intros a. specialize (se_objects0 a). specialize (se_objects1 a). rewrite se_db0 in se_objects1. unfold opt_eq in *.
    destruct (lookup_object s1 a), (lookup_object s2 a), (lookup_object s3 a); try done. by etrans.
Qed.

(** The invariant of the map of objects and of the journal. *)
Definition entry_ok (e : journalEntry) : Prop :=
  match e with resetObjectChange prev => deleted prev = false | _ => True end.

Record wf (s : StateDB) : Prop := {
  wf_key : forall a o, stateObjects s !! a = Some o -> address o = a;
  wf_deleted : forall a o, stateObjects s !! a = Some o -> deleted o = true -> trie_object (tr s) a = None;
  wf_entries : Forall entry_ok (entries (jrnl s));
  wf_revisions : Forall (fun r => id r < nextRevisionId s) (validRevisions s)
}.

(** Everything but the objects, the database error and the journal. *)
Definition frame (s s' : StateDB) : Prop :=
  db s' = db s /\ tr s' = tr s /\ refund s' = refund s /\ thash s' = thash s /\ bhash s' = bhash s /\
  txIndex s' = txIndex s /\ logs s' = logs s /\ logSize s' = logSize s /\ preimages s' = preimages s.

Lemma frame_eq s s' : frame s s' -> (forall a, opt_eq (db s) (lookup_object s a) (lookup_object s' a)) -> state_eq s s'.
Proof. intros (? & ? & ? & ? & ? & ? & Hlog & ? & ?) Hl. constructor; try done. intros h. unfold GetLogs. by rewrite Hlog. Qed.

Lemma lookup_object_set s o a :
  lookup_object (setStateObject s o) a =
    if decide (a = address o) then (if deleted o then None else Some o) else lookup_object s a.
Proof.
  unfold lookup_object, setStateObject. cbn. destruct (decide (a = address o)) as [->|Hne].
  - by rewrite lookup_insert_eq.
  - by rewrite lookup_insert_ne.
Qed.

Lemma lookup_object_address s a o : wf s -> lookup_object s a = Some o -> address o = a /\ deleted o = false.
Proof.
  intros Hw. unfold lookup_object. destruct (stateObjects s !! a) as [o'|] eqn:E.
  - destruct (deleted o') eqn:Ed; [done|]. intros [= <-]. split; [by eapply wf_key|done].
  - unfold trie_object. destruct (zlen _ =? 0); [done|]. destruct (decodeAccount _); [|done]. by intros [= <-].
Qed.

Lemma setError_lookup s err a : lookup_object (setError s err) a = lookup_object s a.
Proof. unfold setError. by destruct (sdbErr s). Qed.

Lemma wf_set s o : wf s -> deleted o = false -> wf (setStateObject s o).
Proof.
  intros Hw Hd. split; cbn.
  - intros a o'. rewrite lookup_insert_Some. intros [[<- <-]|[_ Ho]]; [done|]. by eapply wf_key.
  - intros a o'. rewrite lookup_insert_Some. intros [[<- <-]|[_ Ho]]; [congruence|]. by eapply wf_deleted.
  - apply Hw.
  - apply Hw.
Qed.

(** Loading an object changes nothing else. *)
Record loads (s s' : StateDB) : Prop := {
  ld_frame : frame s s';
  ld_journal : jrnl s' = jrnl s;
  ld_revisions : validRevisions s' = validRevisions s;
  ld_next : nextRevisionId s' = nextRevisionId s;
  ld_wf : wf s -> wf s';
  ld_lookup : forall a, lookup_object s' a = lookup_object s a
}.

Lemma getStateObject_loads s a :
  fst (getStateObject s a) = lookup_object s a /\ loads s (snd (getStateObject s a)).
Proof.
  unfold State.getStateObject. destruct (stateObjects s !! a) as [o|] eqn:E; cbn [fst snd].
  { split; [unfold lookup_object; by rewrite E|]. by constructor. }
  assert (lookup_object s a = trie_object (tr s) a) as El by (unfold lookup_object; by rewrite E).
  unfold trie_object in El. destruct (TryGet (tr s) (Address_Bytes a)) as [enc err]; cbn [fst] in El.
  destruct (zlen enc =? 0); cbn [fst snd].
  { split; [done|]. unfold setError. destruct (sdbErr s); constructor; try done. by intros []. }
  destruct (decodeAccount enc) as [acc|]; cbn [fst snd]; [|split; [done|]; by constructor].
  split; [done|]. constructor; try done; [by intros Hw; apply wf_set|].
  intros b. rewrite lookup_object_set. cbn. destruct (decide (b = a)) as [->|]; [by rewrite El|done].
Qed.

Lemma loads_eq s s' : loads s s' -> state_eq s s'.
Proof. intros []. apply frame_eq; [done|]. intros a. rewrite ld_lookup0. apply opt_eq_refl. Qed.

Lemma set_eq s s' o o' : state_eq s s' -> obj_eq (db s) o o' -> state_eq (setStateObject s o) (setStateObject s' o').
Proof.
  intros [] Ho. constructor; try done. intros a. rewrite !lookup_object_set, (oe_address _ _ _ Ho), (oe_deleted _ _ _ Ho).
  cbn. destruct (decide _); [|done]. by destruct (deleted o).
Qed.

Lemma journal_eq s j : state_eq s (set_journal s j).
Proof. apply frame_eq; [done|]. intros a. apply opt_eq_refl. Qed.

(** ** Setters respect the observations *)

Lemma setBalance_eq d o o' x : obj_eq d o o' -> obj_eq d (setBalance o x) (setBalance o' x).
Proof. intros []. by constructor. Qed.
Lemma setNonce_eq d o o' x : obj_eq d o o' -> obj_eq d (setNonce o x) (setNonce o' x).
Proof. intros []. by constructor. Qed.
Lemma with_suicided_eq d o o' b : obj_eq d o o' -> obj_eq d (with_suicided o b) (with_suicided o' b).
Proof. intros []. by constructor. Qed.
Lemma setCode_eq d o o' h c : obj_eq d o o' -> obj_eq d (setCode o h c) (setCode o' h c).
Proof. intros []. constructor; try done. unfold codev. cbn. by rewrite oe_addrHash0. Qed.
Lemma setState_eq d o o' k v : obj_eq d o o' -> obj_eq d (setState o k v) (setState o' k v).
Proof.
  intros []. constructor; try done. intros k'. unfold current in *. cbn. destruct (decide (k' = k)) as [->|Hne].
  - by rewrite !lookup_insert_eq.
  - rewrite !lookup_insert_ne by done. apply oe_current0.
Qed.

(** ** Undoing entries *)

Definition both (x y : outcome StateDB) : Prop :=
  match x, y with
  | Ok s, Ok s' => state_eq s s' /\ wf s /\ wf s'
  | Panic, Panic => True
  | _, _ => False
  end.

Lemma on_object_both s s' a f : state_eq s s' -> wf s -> wf s' ->
  (forall d o o', obj_eq d o o' -> obj_eq d (f o) (f o')) -> (forall o, deleted (f o) = deleted o) ->
  both (on_object cr s a f) (on_object cr s' a f).
Proof.
  intros Heq Hw Hw' Hf Hd. unfold on_object.
  destruct (getStateObject_loads s a) as [E L]. destruct (getStateObject_loads s' a) as [E' L'].
  destruct (getStateObject s a) as [x s1], (getStateObject s' a) as [x' s1']; cbn [fst snd] in *. subst.
  pose proof (se_objects _ _ Heq a) as Ho. unfold opt_eq in Ho.
  destruct (lookup_object s a) as [o|] eqn:El, (lookup_object s' a) as [o'|] eqn:El'; try done.
  destruct (lookup_object_address _ _ _ Hw El) as [_ Hdo]. destruct (lookup_object_address _ _ _ Hw' El') as [_ Hdo'].
  split; [|split; (apply wf_set; [by eapply ld_wf|by rewrite Hd])].
  apply set_eq.
  - etrans; [symmetry; by apply loads_eq|]. etrans; [exact Heq|]. by apply loads_eq.
  - destruct (ld_frame _ _ L) as [-> _]. by apply Hf.
Qed.

Lemma wf_delete s a : wf s -> wf (set_objectsDirty (set_objects s (delete a (stateObjects s))) (stateObjectsDirty s ∖ {[a]})).
Proof.
  intros []. split; cbn; [| |done|done].
  - intros b o. rewrite lookup_delete_Some. intros [_ Hb]. eauto.
  - intros b o. rewrite lookup_delete_Some. intros [_ Hb]. eauto.
Qed.

Lemma lookup_object_delete s a b ds :
  lookup_object (set_objectsDirty (set_objects s (delete a (stateObjects s))) ds) b =
    if decide (b = a) then trie_object (tr s) a else lookup_object s b.
Proof.
  unfold lookup_object. cbn. destruct (decide (b = a)) as [->|Hne]; [by rewrite lookup_delete_eq|by rewrite lookup_delete_ne].
Qed.

Lemma entry_revert_both e s s' : state_eq s s' -> wf s -> wf s' -> entry_ok e ->
  both (entry_revert cr e s) (entry_revert cr e s').
Proof.
  intros Heq Hw Hw' He. destruct e as [a|prev|a prev pb|a prev|a prev|a k v|a pc ph|prev|h|h|a]; cbn [entry_revert].
  - split; [|by split; apply wf_delete]. destruct Heq. constructor; try done.
    intros b. rewrite !lookup_object_delete, se_tr0. destruct (decide (b = a)); [apply opt_eq_refl|done].
  - split; [by apply set_eq|by split; apply wf_set].
  - destruct (getStateObject_loads s a) as [E L]. destruct (getStateObject_loads s' a) as [E' L'].
    destruct (getStateObject s a) as [x s1], (getStateObject s' a) as [x' s1']; cbn [fst snd] in *. subst.
    assert (state_eq s1 s1') as Heq1 by (etrans; [symmetry; by apply loads_eq|]; etrans; [exact Heq|]; by apply loads_eq).
    pose proof (se_objects _ _ Heq a) as Ho. unfold opt_eq in Ho.
    destruct (lookup_object s a) as [o|] eqn:El, (lookup_object s' a) as [o'|] eqn:El'; try done;
      [|split; [done|by split; eapply ld_wf]].
    destruct (lookup_object_address _ _ _ Hw El) as [_ Hdo]. destruct (lookup_object_address _ _ _ Hw' El') as [_ Hdo'].
    split; [|split; (apply wf_set; [by eapply ld_wf|done])].
    apply set_eq; [done|]. destruct (ld_frame _ _ L) as [-> _]. by apply setBalance_eq, with_suicided_eq.
  - apply on_object_both; auto using setBalance_eq.
  - apply on_object_both; auto using setNonce_eq.
  - apply on_object_both; auto using setState_eq.
  - apply on_object_both; auto using setCode_eq.
  - split; [|by split; destruct Hw, Hw'; split]. by destruct Heq; constructor.
  - change (default [] (logs s' !! h)) with (GetLogs s' h). change (default [] (logs s !! h)) with (GetLogs s h).
    rewrite (se_logs _ _ Heq h), (se_logSize _ _ Heq). generalize (GetLogs s h) as l. intros l.
    destruct (zlen l =? 0); [done|].
    split; [|by split; destruct Hw, Hw'; split]. destruct Heq. constructor; try done. intros h'.
    unfold GetLogs in *. cbn [logs set_logs]. destruct (zlen l =? 1), (decide (h' = h)) as [->|Hne];
      rewrite ?lookup_delete_eq, ?lookup_insert_eq; try done;
      rewrite ?lookup_delete_ne, ?lookup_insert_ne by done; apply se_logs0.
  - rewrite (se_preimages _ _ Heq). split; [|by split; destruct Hw, Hw'; split]. by destruct Heq; constructor.
  - done.
Qed.

(** The journal entries alone, last one first. *)
Fixpoint undo (es : list journalEntry) (s : StateDB) : outcome StateDB :=
  match es with
  | [] => Ok s
  | e :: es => let! s := entry_revert cr e s in undo es s
  end.

Lemma undo_both es : forall s s', state_eq s s' -> wf s -> wf s' -> Forall entry_ok es -> both (undo es s) (undo es s').
Proof.
  induction es as [|e es IH]; intros s s' Heq Hw Hw' Hes; [done|]. inversion_clear Hes as [|? ? He Hes'].
  pose proof (entry_revert_both e s s' Heq Hw Hw' He) as Hb. cbn [undo].
  destruct (entry_revert cr e s) as [t| |], (entry_revert cr e s') as [t'| |]; try done. cbn [obind].
  destruct Hb as (? & ? & ?). by apply IH.
Qed.

Lemma undo_app es1 es2 s : undo (es1 ++ es2) s = (let! t := undo es1 s in undo es2 t).
Proof.
  revert s. induction es1 as [|e es1 IH]; intros s; [done|]. cbn [undo app].
  destruct (entry_revert cr e s); cbn [obind]; auto.
Qed.

(** ** Operations are tracked by the journal *)

Record tracks (s s' : StateDB) : Prop := {
  tk_wf : wf s';
  tk_undo : exists es r, entries (jrnl s') = entries (jrnl s) ++ es /\
    undo (reverse es) s' = Ok r /\ state_eq s r /\ wf r;
  tk_revisions : exists rs, validRevisions s' = validRevisions s ++ rs /\ Forall (fun r => nextRevisionId s <= id r) rs;
  tk_next : nextRevisionId s <= nextRevisionId s'
}.

Lemma tracks_same s s' : wf s' -> state_eq s s' -> entries (jrnl s') = entries (jrnl s) ->
  validRevisions s' = validRevisions s -> nextRevisionId s <= nextRevisionId s' -> tracks s s'.
Proof.
  intros Hw Heq He Hr Hn. split; [done| | |done].
  - exists [], s'. by rewrite app_nil_r.
  - exists []. rewrite app_nil_r. by split; [|apply Forall_nil_2].
Qed.

Lemma tracks_refl s : wf s -> tracks s s.
Proof. intros Hw. by apply tracks_same. Qed.

Lemma tracks_trans s1 s2 s3 : tracks s1 s2 -> tracks s2 s3 -> tracks s1 s3.
Proof.
  intros [W2 (es1 & r1 & E1 & U1 & Q1 & R1) (rs1 & V1 & F1) N1] [W3 (es2 & r2 & E2 & U2 & Q2 & R2) (rs2 & V2 & F2) N2].
  split; [done| | |lia].
  - exists (es1 ++ es2). assert (Forall entry_ok (reverse es1)) as Hok.
    { pose proof (wf_entries _ W2) as He. rewrite E1 in He. apply Forall_app in He as [_ He]. by rewrite Forall_reverse. }
    pose proof (undo_both (reverse es1) s2 r2 Q2 W2 R2 Hok) as Hb. rewrite U1 in Hb.
    rewrite reverse_app, undo_app, U2. cbn [obind]. destruct (undo (reverse es1) r2) as [r| |]; try done.
    exists r. destruct Hb as (Hq & _ & Hwr). split; [by rewrite E2, E1, app_assoc|]. split; [done|].
    split; [by etrans|done].
  - exists (rs1 ++ rs2). split; [by rewrite V2, V1, app_assoc|]. apply Forall_app. split; [done|].
    eapply Forall_impl; [exact F2|]. cbn. lia.
Qed.

Lemma tracks_step s s' e r :
  wf s' -> entries (jrnl s') = entries (jrnl s) ++ [e] -> validRevisions s' = validRevisions s ->
  nextRevisionId s' = nextRevisionId s -> entry_revert cr e s' = Ok r -> state_eq s r -> wf r -> tracks s s'.
Proof.
  intros Hw He Hr Hn Eu Hq Hwr. split; [done| | |lia].
  - exists [e], r. split; [done|]. split; [|done]. cbn. by rewrite Eu.
  - exists []. rewrite app_nil_r. by split; [|apply Forall_nil_2].
Qed.

Lemma tracks_loads s s' : wf s -> loads s s' -> tracks s s'.
Proof.
  intros Hw L. pose proof (loads_eq _ _ L). destruct L. apply tracks_same; auto; [by rewrite ld_journal0|lia].
Qed.

Lemma entries_append (s : StateDB) e : entries (jrnl (journal_append s e)) = entries (jrnl s) ++ [e].
Proof. unfold journal_append, j_append. cbn. by destruct (dirtied e). Qed.

Lemma wf_journal s j : wf s -> Forall entry_ok (entries j) -> wf (set_journal s j).
Proof. intros [] Hj. by split. Qed.

Lemma wf_append (s : StateDB) e : wf s -> entry_ok e -> wf (journal_append s e).
Proof.
  intros Hw He. apply wf_journal; [done|]. change (Forall entry_ok (entries (jrnl (journal_append s e)))).
  rewrite entries_append. apply Forall_app. split; [apply Hw|]. by apply Forall_singleton.
Qed.

Lemma getStateObject_set s o : deleted o = false -> getStateObject (setStateObject s o) (address o) = (Some o, setStateObject s o).
Proof. intros Hd. unfold State.getStateObject, setStateObject. cbn. rewrite lookup_insert_eq. by rewrite Hd. Qed.

(** An object is changed and the entry knows how to change it back. *)
Lemma tracks_modify s o g e f :
  wf s -> lookup_object s (address g) = Some o -> deleted g = false -> entry_ok e ->
  (forall t, getStateObject t (address g) = (Some g, t) -> entry_revert cr e t = Ok (setStateObject t (f g))) ->
  obj_eq (db s) o (f g) ->
  tracks s (setStateObject (journal_append s e) g).
Proof.
  intros Hw Hl Hd He Hrev Heq. set (s' := setStateObject (journal_append s e) g).
  assert (wf s') as Hw' by (apply wf_set; [by apply wf_append|done]).
  assert (deleted (f g) = false) as Hdf.
  { rewrite (oe_deleted _ _ _ Heq). by apply (lookup_object_address _ _ _ Hw Hl). }
  eapply (tracks_step _ _ e); [done|apply entries_append|done|done|apply Hrev; by apply getStateObject_set| |by apply wf_set].
  apply frame_eq; [done|]. intros a. unfold s'. rewrite !lookup_object_set.
  assert (address (f g) = address g) as Ea.
  { rewrite (oe_address _ _ _ Heq). by apply (lookup_object_address _ _ _ Hw Hl). }
  rewrite Ea, Hdf. destruct (decide (a = address g)) as [->|]; [by rewrite Hl|apply opt_eq_refl].
Qed.

Lemma tracks_reset s p n : wf s -> lookup_object s (address n) = Some p -> deleted n = false ->
  tracks s (setStateObject (journal_append s (resetObjectChange p)) n).
Proof.
  intros Hw Hl Hd. destruct (lookup_object_address _ _ _ Hw Hl) as [Ea Hdp].
  set (s' := setStateObject (journal_append s (resetObjectChange p)) n).
  assert (wf s') as Hw' by (apply wf_set; [by apply wf_append|done]).
  eapply (tracks_step _ _ (resetObjectChange p)); [done|apply entries_append|done|done|reflexivity| |by apply wf_set].
  apply frame_eq; [done|]. intros a. unfold s'. rewrite !lookup_object_set, Ea, Hdp.
  destruct (decide (a = address n)) as [->|]; [rewrite Hl|]; apply opt_eq_refl.
Qed.

Lemma tracks_create s n : wf s -> lookup_object s (address n) = None -> deleted n = false ->
  tracks s (setStateObject (journal_append s (createObjectChange (address n))) n).
Proof.
  intros Hw Hl Hd. set (s' := setStateObject (journal_append s (createObjectChange (address n))) n).
  assert (wf s') as Hw' by (apply wf_set; [by apply wf_append|done]).
  eapply (tracks_step _ _ (createObjectChange (address n))); [done|apply entries_append|done|done|reflexivity| |by apply wf_delete].
  apply frame_eq; [done|]. intros a. rewrite lookup_object_delete. destruct (decide (a = address n)) as [->|Hne].
  - rewrite Hl. cbn. replace (trie_object (tr s) (address n)) with (@None stateObject); [done|].
    unfold lookup_object in Hl. destruct (stateObjects s !! address n) as [o|] eqn:Eo; [|done].
    destruct (deleted o) eqn:Edo; [|done]. symmetry. by eapply wf_deleted.
  - unfold s'. rewrite lookup_object_set. rewrite decide_False by done. apply opt_eq_refl.
Qed.

(** ** What each operation does to the observations *)

Definition get_or_new (s : StateDB) (a : Address) : stateObject :=
  default (newObject cr a (zeroAccount cr)) (lookup_object s a).

(** [s'] is [s] with [g] at [a]. *)
Record acts (s s' : StateDB) (a : Address) (g : stateObject) : Prop := {
  ac_tracks : tracks s s';
  ac_frame : frame s s';
  ac_at : opt_eq (db s) (Some g) (lookup_object s' a);
  ac_other : forall b, b <> a -> lookup_object s' b = lookup_object s b
}.

Lemma frame_trans s1 s2 s3 : frame s1 s2 -> frame s2 s3 -> frame s1 s3.
Proof. unfold frame. intuition congruence. Qed.

Lemma acts_trans s1 s2 s3 a g1 g2 : acts s1 s2 a g1 -> acts s2 s3 a g2 -> acts s1 s3 a g2.
Proof.
  intros A1 A2. split.
  - eapply tracks_trans; [apply A1|apply A2].
  - eapply frame_trans; [apply A1|apply A2].
  - destruct (ac_frame _ _ _ _ A1) as [<- _]. apply A2.
  - intros b Hb. rewrite (ac_other _ _ _ _ A2) by done. by apply (ac_other _ _ _ _ A1).
Qed.

Lemma acts_eq s s' a g g' : acts s s' a g -> obj_eq (db s) g' g -> acts s s' a g'.
Proof.
  intros [] Hg. split; try done. unfold opt_eq in *. destruct (lookup_object s' a); [|done]. by etrans.
Qed.

Lemma get_or_new_address s a : wf s -> address (get_or_new s a) = a /\ deleted (get_or_new s a) = false.
Proof.
  intros Hw. unfold get_or_new. destruct (lookup_object s a) as [o|] eqn:E; [|done]. by apply (lookup_object_address s a o Hw).
Qed.

Lemma createObject_acts s a : wf s ->
  let '(n, prev, s') := createObject cr s a in
  n = newObject cr a (zeroAccount cr) /\ prev = lookup_object s a /\ acts s s' a n /\ lookup_object s' a = Some n.
Proof.
  intros Hw. unfold createObject. destruct (getStateObject_loads s a) as [E L].
  destruct (getStateObject s a) as [prev s1]; cbn [fst snd] in *. set (n := setNonce _ 0).
  assert (n = newObject cr a (zeroAccount cr)) as En by done. pose proof (ld_wf _ _ L Hw) as Hw1.
  pose proof (ld_lookup _ _ L a) as Hl. set (e := match prev with None => createObjectChange a | Some p => resetObjectChange p end).
  replace (match prev with None => _ | Some p => _ end) with (journal_append s1 e) by (unfold e; by destruct prev).
  assert (lookup_object (setStateObject (journal_append s1 e) n) a = Some n) as Hn.
  { rewrite lookup_object_set. by rewrite decide_True. }
  split; [done|]. split; [done|]. split; [|done]. split.
  - eapply tracks_trans; [by eapply tracks_loads|]. unfold e. destruct prev as [p|].
    + apply tracks_reset; [done| |done]. cbn. congruence.
    + apply (tracks_create s1 n); [done| |done]. cbn. congruence.
  - eapply frame_trans; [apply L|done].
  - by rewrite Hn.
  - intros b Hb. rewrite lookup_object_set. rewrite decide_False by done. apply (ld_lookup _ _ L).
Qed.

Lemma GetOrNewStateObject_acts s a : wf s ->
  let '(o, s') := GetOrNewStateObject cr s a in
  o = get_or_new s a /\ acts s s' a o /\ lookup_object s' a = Some o.
Proof.
  intros Hw. unfold GetOrNewStateObject. destruct (getStateObject_loads s a) as [E L].
  destruct (getStateObject s a) as [x s1]; cbn [fst snd] in *. pose proof (ld_wf _ _ L Hw) as Hw1.
  assert (forall o, lookup_object s a = Some o -> acts s s1 a o) as Hload.
  { intros o Ho. split; [by eapply tracks_loads|apply L| |intros b _; apply L].
    rewrite (ld_lookup _ _ L), Ho. apply opt_eq_refl. }
  unfold get_or_new. rewrite <- E in *. destruct x as [o|].
  - destruct (lookup_object_address s a o Hw) as [_ ->]; [congruence|]. split; [done|]. split; [by apply Hload|].
    rewrite (ld_lookup _ _ L). congruence.
  - pose proof (createObject_acts s1 a Hw1) as Hc. destruct (createObject cr s1 a) as [[n prev] s2].
    destruct Hc as (-> & _ & [] & Hn). split; [done|]. split; [|done]. split.
    + eapply tracks_trans; [by eapply tracks_loads|done].
    + eapply frame_trans; [apply L|done].
    + by rewrite Hn.
    + intros b Hb. rewrite ac_other0 by done. apply (ld_lookup _ _ L).
Qed.

(** A journaled change of the object that has just been fetched. *)
Lemma modify_acts s o g e f :
  wf s -> lookup_object s (address g) = Some o -> deleted g = false -> entry_ok e ->
  (forall t, getStateObject t (address g) = (Some g, t) -> entry_revert cr e t = Ok (setStateObject t (f g))) ->
  obj_eq (db s) o (f g) ->
  acts s (setStateObject (journal_append s e) g) (address g) g.
Proof.
  intros Hw Hl Hd He Hrev Heq. split; [by eapply tracks_modify|done|..].
  - rewrite lookup_object_set, decide_True, Hd by done. apply opt_eq_refl.
  - intros b Hb. rewrite lookup_object_set. by rewrite decide_False.
Qed.

(** Writing an equal object back. *)
Lemma rewrite_acts s o g : wf s -> lookup_object s (address o) = Some o -> obj_eq (db s) o g ->
  acts s (setStateObject s g) (address o) o.
Proof.
  intros Hw Hl Hg. destruct (lookup_object_address _ _ _ Hw Hl) as [_ Hd].
  assert (deleted g = false) as Hdg by (by rewrite (oe_deleted _ _ _ Hg)).
  pose proof (oe_address _ _ _ Hg) as Ea.
  assert (forall b, lookup_object (setStateObject s g) b = if decide (b = address o) then Some g else lookup_object s b) as Hset.
  { intros b. by rewrite lookup_object_set, Ea, Hdg. }
  split; [|done|..].
  - apply tracks_same; [by apply wf_set| |done|done|done]. apply frame_eq; [done|]. intros b. rewrite Hset.
    destruct (decide (b = address o)) as [->|]; [by rewrite Hl|apply opt_eq_refl].
  - rewrite Hset, decide_True by done. done.
  - intros b Hb. rewrite Hset. by rewrite decide_False.
Qed.

Lemma setBalance_same d o x : x = Balance (data o) -> obj_eq d o (setBalance o x).
Proof. intros ->. by constructor. Qed.

Lemma touch_acts s o : wf s -> lookup_object s (address o) = Some o -> acts s (touch s o) (address o) o.
Proof.
  intros Hw Hl. set (e := touchChange (address o) : journalEntry).
  assert (exists j, touch s o = set_journal s j /\ entries j = entries (jrnl s) ++ [e]) as (j & -> & Ej).
  { unfold touch. destruct (address o =? ripemd); eexists; (split; [reflexivity|]); apply (entries_append s e). }
  assert (wf (set_journal s j)) as Hwj.
  { apply wf_journal; [done|]. rewrite Ej. apply Forall_app. split; [apply Hw|]. by apply Forall_singleton. }
  split; [|done| |done].
  - eapply (tracks_step _ _ e); [done|done|done|done|reflexivity|apply journal_eq|done].
  - change (opt_eq (db s) (Some o) (lookup_object s (address o))). rewrite Hl. apply opt_eq_refl.
Qed.

Lemma obj_SetBalance_acts s o x : wf s -> lookup_object s (address o) = Some o ->
  acts s (obj_SetBalance s o x) (address o) (setBalance o x).
Proof.
  intros Hw Hl. destruct (lookup_object_address _ _ _ Hw Hl) as [_ Hd].
  apply (modify_acts s o (setBalance o x) _ (fun g => setBalance g (Balance (data o)))); try done.
  intros t Ht. cbn [entry_revert]. unfold on_object. cbn in Ht. by rewrite Ht.
Qed.

Lemma AddBalance_acts s a v : wf s ->
  acts s (AddBalance cr s a v) a (setBalance (get_or_new s a) (Balance (data (get_or_new s a)) + v)).
Proof.
  intros Hw. unfold AddBalance. pose proof (GetOrNewStateObject_acts s a Hw) as Hg.
  destruct (get_or_new_address s a Hw) as [Ea _].
  destruct (GetOrNewStateObject cr s a) as [o s1]. destruct Hg as (-> & A & Hl). set (o := get_or_new s a) in *.
  pose proof (tk_wf _ _ (ac_tracks _ _ _ _ A)) as Hw1. rewrite <- Ea in Hl. eapply acts_trans; [exact A|].
  rewrite <- Ea. unfold obj_AddBalance, Sign. destruct (Z.eqb_spec v 0) as [->|Hv]; [|].
  - cbn [Z.sgn]. assert (obj_eq (db s1) o (setBalance o (Balance (data o) + 0))) as He by (apply setBalance_same; lia).
    change (0 =? 0) with true. cbv iota. destruct (empty cr o).
    + eapply acts_eq; [by apply touch_acts|]. by symmetry.
    + eapply acts_eq; [|by symmetry]. split; [by apply tracks_refl|done|rewrite Hl; apply opt_eq_refl|done].
  - destruct (Z.eqb_spec (Z.sgn v) 0); [lia|]. by apply obj_SetBalance_acts.
Qed.

Lemma SubBalance_acts s a v : wf s ->
  acts s (SubBalance cr s a v) a (setBalance (get_or_new s a) (Balance (data (get_or_new s a)) - v)).
Proof.
  intros Hw. unfold SubBalance. pose proof (GetOrNewStateObject_acts s a Hw) as Hg.
  destruct (get_or_new_address s a Hw) as [Ea _].
  destruct (GetOrNewStateObject cr s a) as [o s1]. destruct Hg as (-> & A & Hl). set (o := get_or_new s a) in *.
  pose proof (tk_wf _ _ (ac_tracks _ _ _ _ A)) as Hw1. rewrite <- Ea in Hl. eapply acts_trans; [exact A|].
  rewrite <- Ea. unfold obj_SubBalance, Sign. destruct (Z.eqb_spec (Z.sgn v) 0) as [Hv|Hv].
  - assert (v = 0) as -> by lia.
    assert (obj_eq (db s1) o (setBalance o (Balance (data o) - 0))) as He by (apply setBalance_same; lia).
    eapply acts_eq; [|by symmetry]. split; [by apply tracks_refl|done|rewrite Hl; apply opt_eq_refl|done].
  - by apply obj_SetBalance_acts.
Qed.

Lemma SetBalance_acts s a v : wf s -> acts s (SetBalance cr s a v) a (setBalance (get_or_new s a) v).
Proof.
  intros Hw. unfold SetBalance. pose proof (GetOrNewStateObject_acts s a Hw) as Hg.
  destruct (get_or_new_address s a Hw) as [Ea _].
  destruct (GetOrNewStateObject cr s a) as [o s1]. destruct Hg as (-> & A & Hl). set (o := get_or_new s a) in *.
  rewrite <- Ea in Hl. eapply acts_trans; [exact A|]. rewrite <- Ea.
  apply obj_SetBalance_acts; [|done]. apply (tk_wf _ _ (ac_tracks _ _ _ _ A)).
Qed.

Lemma SetNonce_acts s a n : wf s -> acts s (SetNonce cr s a n) a (setNonce (get_or_new s a) n).
Proof.
  intros Hw. unfold SetNonce. pose proof (GetOrNewStateObject_acts s a Hw) as Hg.
  destruct (get_or_new_address s a Hw) as [Ea Hd].
  destruct (GetOrNewStateObject cr s a) as [o s1]. destruct Hg as (-> & A & Hl). set (o := get_or_new s a) in *.
  pose proof (tk_wf _ _ (ac_tracks _ _ _ _ A)) as Hw1. rewrite <- Ea in Hl. eapply acts_trans; [exact A|].
  rewrite <- Ea. unfold obj_SetNonce.
  apply (modify_acts s1 o (setNonce o n) _ (fun g => setNonce g (Nonce (data o)))); try done.
  intros t Ht. cbn [entry_revert]. unfold on_object. cbn in Ht. by rewrite Ht.
Qed.

Lemma setState_same d o k v : current d o k = v -> obj_eq d o (setState o k v).
Proof.
  intros <-. constructor; try done. intros k'. unfold current at 1. cbn. destruct (decide (k' = k)) as [->|Hne].
  - by rewrite lookup_insert_eq.
  - by rewrite lookup_insert_ne.
Qed.

Lemma current_setState d o k v k' : current d (setState o k v) k' = if decide (k' = k) then v else current d o k'.
Proof.
  unfold current at 1. cbn. destruct (decide (k' = k)) as [->|Hne]; [by rewrite lookup_insert_eq|by rewrite lookup_insert_ne].
Qed.

Lemma SetState_acts s a k v : wf s -> acts s (SetState cr s a k v) a (setState (get_or_new s a) k v).
Proof.
  intros Hw. unfold SetState. pose proof (GetOrNewStateObject_acts s a Hw) as Hg.
  destruct (get_or_new_address s a Hw) as [Ea Hd].
  destruct (GetOrNewStateObject cr s a) as [o s1]. destruct Hg as (-> & A & Hl). set (o := get_or_new s a) in *.
  pose proof (tk_wf _ _ (ac_tracks _ _ _ _ A)) as Hw1. rewrite <- Ea in Hl. eapply acts_trans; [exact A|].
  rewrite <- Ea. unfold obj_SetState. destruct (obj_GetState_eq (db s1) o k) as [Ev Ho].
  destruct (obj_GetState (db s1) o k) as [prev o1]; cbn [fst snd] in *. subst prev.
  assert (address o1 = address o) as Ea1 by apply Ho. rewrite <- Ea1 in *.
  destruct (Z.eqb_spec (current (db s1) o k) v) as [Hv|Hv].
  - eapply acts_eq; [rewrite Ea1; apply rewrite_acts; [done|by rewrite <- Ea1|done]|].
    symmetry. by apply setState_same.
  - eapply acts_eq.
    + apply (modify_acts s1 o (setState o1 k v) _ (fun g => setState g k (current (db s1) o k))); try done.
      * by rewrite <- Hd; apply Ho.
      * intros t Ht. cbn [entry_revert]. unfold on_object. cbn in Ht. by rewrite Ht.
      * etrans; [exact Ho|]. assert (setState (setState o1 k v) k (current (db s1) o k) = setState o1 k (current (db s1) o k)) as ->.
        { unfold setState, with_dirty. cbn. by rewrite insert_insert_eq. }
        apply setState_same. apply Ho.
    + by apply setState_eq.
Qed.

Lemma Hash_Bytes_BytesToHash b : zlen b = 32 -> Hash_Bytes (BytesToHash b) = b.
Proof.
  intros Hb. assert (length b = 32%nat) as Hl by (unfold zlen in Hb; lia). unfold Hash_Bytes, BytesToHash, HashLength. rewrite Hl.
  change (32 <? 32)%nat with false. cbv iota. rewrite <- Hl. apply z2be_be2z.
Qed.

Lemma SetCode_acts s a c : wf s -> zlen (CodeHash (data (get_or_new s a))) = 32 ->
  acts s (SetCode cr s a c) a (setCode (get_or_new s a) (Keccak256Hash cr (default [] c)) c).
Proof.
  intros Hw Hlen. unfold SetCode. pose proof (GetOrNewStateObject_acts s a Hw) as Hg.
  destruct (get_or_new_address s a Hw) as [Ea Hd].
  destruct (GetOrNewStateObject cr s a) as [o s1]. destruct Hg as (-> & A & Hl). set (o := get_or_new s a) in *.
  pose proof (tk_wf _ _ (ac_tracks _ _ _ _ A)) as Hw1. rewrite <- Ea in Hl. eapply acts_trans; [exact A|].
  rewrite <- Ea. unfold obj_SetCode. destruct (obj_Code_eq (db s1) o) as [Ev Ho].
  destruct (State.obj_Code cr (db s1) o) as [prev o1] eqn:Ec; cbn [fst snd] in *.
  assert (address o1 = address o) as Ea1 by apply Ho. rewrite <- Ea1 in *. set (h := Keccak256Hash cr (default [] c)).
  eapply acts_eq.
  - apply (modify_acts s1 o (setCode o1 h c) _ (fun g => setCode g (BytesToHash (CodeHash (data o1))) prev)); try done.
    + by rewrite <- Hd; apply Ho.
    + intros t Ht. cbn [entry_revert]. unfold on_object. cbn in Ht. by rewrite Ht.
    + pose proof Ho as []. constructor; try done.
      { change (Hash_Bytes (BytesToHash (CodeHash (data o1))) = CodeHash (data o)).
        by rewrite Hash_Bytes_BytesToHash, oe_codeHash0 by congruence. }
      rewrite <- Ev. unfold codev. cbn [code setCode with_code with_dirtyCode with_data data CodeHash addrHash].
      rewrite Hash_Bytes_BytesToHash by congruence. destruct prev as [p|]; [done|].
      unfold State.obj_Code in Ec. destruct (code o) as [c'|]; [done|]. rewrite oe_codeHash0, oe_addrHash0.
      destruct (bool_decide _); [done|]. destruct (ContractCode _ _ _) as [[c'|] err]; [|done]. by injection Ec.
  - by apply setCode_eq.
Qed.

Lemma Suicide_acts s a : wf s ->
  match lookup_object s a with
  | None => loads s (snd (Suicide cr s a)) /\ fst (Suicide cr s a) = false
  | Some o => acts s (snd (Suicide cr s a)) a (setBalance (markSuicided o) 0) /\ fst (Suicide cr s a) = true
  end.
Proof.
  intros Hw. unfold Suicide. destruct (getStateObject_loads s a) as [E L].
  destruct (getStateObject s a) as [x s1]; cbn [fst snd] in *. subst x. pose proof (ld_wf _ _ L Hw) as Hw1.
  destruct (lookup_object s a) as [o|] eqn:El; [|done]. split; [|done].
  destruct (lookup_object_address _ _ _ Hw El) as [Ea Hd]. subst a. set (g := setBalance (markSuicided o) 0).
  assert (acts s1 (setStateObject (journal_append s1 (suicideChange (address o) (suicided o) (Balance (data o)))) g) (address o) g) as [].
  { apply (modify_acts s1 o g _ (fun g => setBalance (with_suicided g (suicided o)) (Balance (data o)))); try done.
    - by rewrite (ld_lookup _ _ L).
    - intros t Ht. cbn [entry_revert]. cbn in Ht. by rewrite Ht. }
  split.
  - eapply tracks_trans; [by eapply tracks_loads|done].
  - eapply frame_trans; [apply L|done].
  - by destruct (ld_frame _ _ L) as [<- _].
  - intros b Hb. rewrite ac_other0 by done. apply (ld_lookup _ _ L).
Qed.

Lemma set_set (s : StateDB) o g : address g = address o -> setStateObject (setStateObject s o) g = setStateObject s g.
Proof. intros E. unfold setStateObject, set_objects. cbn. by rewrite E, insert_insert_eq. Qed.

Lemma CreateAccount_acts s a : wf s ->
  acts s (CreateAccount cr s a) a (setBalance (newObject cr a (zeroAccount cr)) (Balance (data (get_or_new s a)))).
Proof.
  intros Hw. destruct (lookup_object s a) as [p|] eqn:El.
  - unfold CreateAccount, createObject, get_or_new. destruct (getStateObject_loads s a) as [E L].
    destruct (getStateObject s a) as [x s1]; cbn [fst snd] in *. rewrite El in *. subst x. pose proof (ld_wf _ _ L Hw) as Hw1.
    rewrite set_set by done. set (g := setBalance _ _). split.
    + eapply tracks_trans; [by eapply tracks_loads|]. apply tracks_reset; [done| |done].
      change (address g) with a. by rewrite (ld_lookup _ _ L).
    + eapply frame_trans; [apply L|done].
    + rewrite lookup_object_set, decide_True by done. apply opt_eq_refl.
    + intros b Hb. rewrite lookup_object_set, decide_False by done. apply (ld_lookup _ _ L).
  - unfold CreateAccount, get_or_new. pose proof (createObject_acts s a Hw) as Hc.
    destruct (createObject cr s a) as [[n prev] s1]. destruct Hc as (-> & -> & A & _). rewrite El in *. done.
Qed.

Lemma refund_tracks (s : StateDB) n : wf s -> tracks s (set_refund (journal_append s (refundChange (refund s))) n).
Proof.
  intros Hw. set (s' := set_refund _ n).
  assert (wf s') as Hw' by (destruct (wf_append s (refundChange (refund s)) Hw I); by split).
  eapply (tracks_step _ _ (refundChange (refund s))); [done|apply entries_append|done|done|reflexivity| |by destruct Hw'; split].
  apply frame_eq; [done|]. intros a. apply opt_eq_refl.
Qed.

Lemma AddPreimage_tracks (s : StateDB) h d : wf s -> tracks s (AddPreimage s h d).
Proof.
  intros Hw. unfold AddPreimage. destruct (preimages s !! h) eqn:E; [by apply tracks_refl|]. set (s' := set_preimages _ _).
  assert (wf s') as Hw' by (destruct (wf_append s (addPreimageChange h) Hw I); by split).
  eapply (tracks_step _ _ (addPreimageChange h)); [done|apply entries_append|done|done|reflexivity| |by destruct Hw'; split].
  constructor; try done; [|intros a; apply opt_eq_refl]. cbn. by rewrite delete_insert_id.
Qed.

Lemma AddLog_tracks (s : StateDB) l : wf s -> tracks s (AddLog s l).
Proof.
  intros Hw. unfold AddLog. set (l' := mkLog _ _ _ _ _ _ _ _ _). set (s' := set_logs _ _ _).
  assert (wf s') as Hw' by (destruct (wf_append s (addLogChange (thash s)) Hw I); by split).
  assert (GetLogs s' (thash s) = GetLogs s (thash s) ++ [l']) as El.
  { unfold GetLogs, s'. cbn. by rewrite lookup_insert_eq. }
  pose proof (zlen_nonneg (GetLogs s (thash s))).
  eapply (tracks_step _ _ (addLogChange (thash s))); [done|apply entries_append|done|done| | |].
  - cbn [entry_revert]. change (default [] (logs s' !! thash s)) with (GetLogs s' (thash s)). rewrite El, zlen_app.
    change (zlen [l']) with 1. destruct (Z.eqb_spec (zlen (GetLogs s (thash s)) + 1) 0); [lia|]. reflexivity.
  - constructor; try done; [|by cbn; lia|intros a; apply opt_eq_refl].
    intros h. unfold GetLogs at 1. cbn [logs set_logs]. unfold s'. cbn [logs set_logs journal_append set_journal].
    destruct (Z.eqb_spec (zlen (GetLogs s (thash s)) + 1) 1) as [E|E], (decide (h = thash s)) as [->|Hne].
    + rewrite lookup_delete_eq. destruct (GetLogs s (thash s)) as [|x lg]; [done|].
      rewrite zlen_cons in E. pose proof (zlen_nonneg lg). lia.
    + rewrite lookup_delete_ne by done. by rewrite lookup_insert_ne.
    + rewrite lookup_insert_eq. cbn. rewrite length_app. cbn [length]. rewrite Nat.add_sub. by rewrite take_app_length.
    + by rewrite !lookup_insert_ne.
  - destruct Hw'. by case_match; split.
Qed.

(** ** Snapshots *)

Lemma Snapshot_tracks (s : StateDB) : wf s -> tracks s (snd (Snapshot s)).
Proof.
  intros Hw. split; cbn; [|exists [], (snd (Snapshot s))|exists [mkRevision (nextRevisionId s) (zlen (entries (jrnl s)))]|lia].
  - destruct Hw. split; try done. cbn. apply Forall_app. split; [|apply Forall_singleton; cbn; lia].
    eapply Forall_impl; [exact wf_revisions0|]. cbn. lia.
  - split; [by rewrite app_nil_r|]. split; [done|]. split; [apply frame_eq; [done|]; intros a; apply opt_eq_refl|].
    destruct Hw. split; try done. cbn. apply Forall_app. split; [|apply Forall_singleton; cbn; lia].
    eapply Forall_impl; [exact wf_revisions0|]. cbn. lia.
  - split; [done|]. apply Forall_singleton. cbn. lia.
Qed.

Lemma getStateObject_journal (s : StateDB) j a :
  getStateObject (set_journal s j) a = (fst (getStateObject s a), set_journal (snd (getStateObject s a)) j).
Proof.
  unfold State.getStateObject. cbn [stateObjects tr set_journal]. destruct (stateObjects s !! a); [done|].
  destruct (TryGet (tr s) (Address_Bytes a)) as [enc err]. destruct (zlen enc =? 0).
  - unfold setError. cbn [sdbErr set_journal fst snd]. by destruct (sdbErr s).
  - by destruct (decodeAccount enc).
Qed.

Lemma entry_revert_journal e (s : StateDB) j :
  entry_revert cr e (set_journal s j) = (let! r := entry_revert cr e s in Ok (set_journal r j)).
Proof.
  destruct e; cbn [entry_revert]; try done; unfold on_object; rewrite ?getStateObject_journal;
    try (by destruct (getStateObject s account) as [[o|] s1]).
  cbn [set_journal logs logSize]. by destruct (zlen _ =? 0).
Qed.

Lemma undo_journal es : forall (s : StateDB) j, undo es (set_journal s j) = (let! r := undo es s in Ok (set_journal r j)).
Proof.
  induction es as [|e es IH]; intros s j; [done|]. cbn [undo]. rewrite entry_revert_journal.
  destruct (entry_revert cr e s); cbn [obind]; [apply IH|done..].
Qed.

(** Undoing leaves the journal and the revisions alone. *)
Definition same_history (s s' : StateDB) : Prop :=
  jrnl s' = jrnl s /\ validRevisions s' = validRevisions s /\ nextRevisionId s' = nextRevisionId s.

Lemma entry_revert_history e s r : entry_revert cr e s = Ok r -> same_history s r.
Proof.
  assert (forall a, same_history s (snd (getStateObject s a))) as Hg by (intros a; by destruct (getStateObject_loads s a) as [_ []]).
  destruct e; cbn [entry_revert]; unfold on_object; try (by intros [= <-]);
    try (specialize (Hg account); destruct (getStateObject s account) as [[o|] s1]; cbn [snd] in Hg; [|done]; by intros [= <-]).
  - specialize (Hg account). destruct (getStateObject s account) as [[o|] s1]; cbn [snd] in Hg; by intros [= <-].
  - case_match; [done|]. by intros [= <-].
Qed.

Lemma undo_history es : forall s r, undo es s = Ok r -> same_history s r.
Proof.
  induction es as [|e es IH]; intros s r; cbn [undo]; [by intros [= <-]|].
  destruct (entry_revert cr e s) as [t| |] eqn:E; [|done..]. cbn [obind]. intros Er.
  apply entry_revert_history in E as (E1 & E2 & E3). apply IH in Er as (R1 & R2 & R3).
  split; [congruence|]. split; congruence.
Qed.

Lemma revert_entries_undo es : forall (s : StateDB), revert_entries cr es s =
  (let! r := undo es s in Ok (set_journal r (mkJournal (entries (jrnl s)) (foldl undirty (dirties (jrnl s)) es)))).
Proof.
  induction es as [|e es IH]; intros s; cbn [revert_entries undo]; [by destruct s as [????????????[] ? ?]|].
  destruct (entry_revert cr e s) as [t| |] eqn:E; cbn [obind]; [|done..]. rewrite IH, undo_journal.
  destruct (undo es t) as [r| |] eqn:Er; cbn [obind]; [|done..].
  apply entry_revert_history in E as (-> & _). done.
Qed.

Lemma Search_revisions (l1 l2 : list revision) r : Forall (fun x => id x < id r) l1 -> Forall (fun x => id r < id x) l2 ->
  Search (zlen (l1 ++ r :: l2)) (fun i => match (l1 ++ r :: l2) !! Z.to_nat i with Some x => id r <=? id x | None => false end) = zlen l1.
Proof.
  intros H1 H2. unfold zlen. rewrite length_app. cbn [length]. apply Search_spec; [lia|..]; intros x Hx.
  - rewrite lookup_app_l by lia. destruct (l1 !! Z.to_nat x) as [y|] eqn:E; [|done].
    eapply Forall_lookup_1 in H1; [|exact E]. apply Z.leb_gt. done.
  - rewrite lookup_app_r by lia. destruct (Z.to_nat x - length l1)%nat as [|k] eqn:Ek; cbn; [by apply Z.leb_le|].
    destruct (l2 !! k) as [y|] eqn:E; [eapply Forall_lookup_1 in H2; [|exact E]; apply Z.leb_le; cbn in H2; lia|].
    apply lookup_ge_None in E. lia.
Qed.

Lemma RevertToSnapshot_ok s s2 : wf s -> tracks (snd (Snapshot s)) s2 ->
  exists s3, RevertToSnapshot cr s2 (fst (Snapshot s)) = Ok s3 /\ state_eq s s3 /\ wf s3 /\
    entries (jrnl s3) = entries (jrnl s) /\ validRevisions s3 = validRevisions s /\ nextRevisionId s <= nextRevisionId s3.
Proof.
  intros Hw [Hw2 (es & r & Ees & Hu & Hq & Hwr) (rs & Hrs & Hids) Hn]. cbn in Ees, Hrs, Hids, Hn.
  set (r0 := mkRevision (nextRevisionId s) (zlen (entries (jrnl s)))) in *.
  rewrite <- app_assoc in Hrs. cbn [app] in Hrs. unfold RevertToSnapshot. rewrite Hrs. cbn [fst Snapshot].
  pose proof (Search_revisions (validRevisions s) rs r0 (wf_revisions _ Hw)) as Hsearch.
  cbn [id r0] in Hsearch. rewrite Hsearch by (eapply Forall_impl; [exact Hids|]; cbn; lia). clear Hsearch.
  unfold zlen at 1 2. rewrite !Nat2Z.id, list_lookup_middle by done. cbn [id r0]. rewrite Z.eqb_refl.
  cbn [negb]. unfold journal_revert. cbn [journalIndex r0]. unfold zlen at 1 2. rewrite !Nat2Z.id, Ees, drop_app_length, revert_entries_undo, Hu.
  cbn [obind]. eexists. split; [reflexivity|]. destruct (undo_history _ _ _ Hu) as (Hj & Hv & Hnx). cbn.
  assert (state_eq s r) as Hsr by (etrans; [|exact Hq]; apply frame_eq; [done|]; intros a; apply opt_eq_refl).
  rewrite ?Ees, Hv, Hrs, !take_app_length. split; [|split; [|split; [done|split; [done|lia]]]].
  - destruct Hsr. by constructor.
  - destruct Hw, Hwr. split; cbn; try done. eapply Forall_impl; [exact wf_revisions0|]. cbn. lia.
Qed.
End facts.
