(* ===== verification/StateKeys.v ===== *)
(** * The keys of the world state

    Every loaded object and every journal entry belongs to an address of twenty bytes,
    and an object that [Finalise] has deleted is neither dirty nor in the journal.  The
    operations keep this when they are called with addresses. *)
From S2P Require Import Prelude CommonMath RlpEncode RlpDecode Opcodes VmBase VmInterface VmLaws StateAccount.
From S2P Require Import StateModel StateFacts.
From stdpp Require Import base numbers list gmap.
From Stdlib Require Import ZArith Lia.
#[local] Open Scope Z_scope.

Section keys.
Context {D T : Type} `{Database D T} (cr : Crypto).
Import State.
Local Abbreviation SDB := (@State.StateDB D T).
Local Abbreviation stateObject := (@State.stateObject T).

Definition entry_address (e : journalEntry) : option Address :=
  match e with
  | resetObjectChange prev => Some (@address T prev)
  | _ => dirtied e
  end.

Record addressed (s : SDB) : Prop := {
  ad_key : forall a o, stateObjects s !! a = Some o -> is_address a /\ address o = a;
  ad_entries : forall e a, e ∈ entries (jrnl s) -> entry_address e = Some a -> is_address a;
  ad_deleted : forall a o, stateObjects s !! a = Some o -> deleted o = true ->
    dirties (jrnl s) !! a = None /\ forall e, e ∈ entries (jrnl s) -> entry_address e <> Some a
}.

(** Nothing the invariant speaks of changes. *)
Lemma addressed_same (s s' : SDB) : stateObjects s' = stateObjects s -> jrnl s' = jrnl s -> addressed s -> addressed s'.
Proof. intros E1 E2 []. split; rewrite ?E1, ?E2; done. Qed.

Lemma addressed_set (s : SDB) o : addressed s -> is_address (address o) -> deleted o = false -> addressed (setStateObject s o).
Proof.
  intros [Hk He Hd] Ha Ho. split; cbn [stateObjects jrnl setStateObject set_objects]; [|done|].
  - intros a p [[<- <-]|[_ Hl]]%lookup_insert_Some; [done|by apply Hk].
  - intros a p [[<- <-]|[_ Hl]]%lookup_insert_Some; [congruence|by apply Hd].
Qed.

Lemma dirtied_address e a : dirtied e = Some a -> entry_address e = Some a.
Proof. by destruct e. Qed.

Lemma append_dirties j e a : (forall b, entry_address e = Some b -> b <> a) -> dirties (j_append j e) !! a = @dirties T j !! a.
Proof.
  intros Hne. unfold j_append. destruct (dirtied e) as [b|] eqn:E; [|done]. cbn. rewrite lookup_insert_ne; [done|]. by apply Hne, dirtied_address.
Qed.

Lemma append_entries j e : entries (j_append j e) = @entries T j ++ [e].
Proof. unfold j_append. by destruct (dirtied e). Qed.

(** An entry for an address whose object is there and alive, or is replaced at once. *)
Lemma addressed_append (s : SDB) e : addressed s ->
  (forall a, entry_address e = Some a -> is_address a /\ forall o, stateObjects s !! a = Some o -> deleted o = false) ->
  addressed (journal_append s e).
Proof.
  intros [Hk He Hd] Ha. split; cbn [stateObjects jrnl journal_append set_journal]; [done| |].
  - intros x a. rewrite append_entries, elem_of_app, list_elem_of_singleton. intros [Hin| ->]; [by apply He|]. intros Ea. by apply Ha.
  - intros a o Hl Hdel. destruct (Hd a o Hl Hdel) as [H1 H2]. assert (entry_address e <> Some a) as Hne.
    { intros Ea. destruct (Ha a Ea) as [_ Hal]. rewrite (Hal o Hl) in Hdel. done. }
    rewrite append_dirties by (intros b Eb; congruence). split; [done|]. intros x. rewrite append_entries, elem_of_app, list_elem_of_singleton.
    intros [Hin| ->]; [by apply H2|done].
Qed.

Lemma addressed_change (s : SDB) e o : addressed s -> is_address (address o) -> deleted o = false ->
  (forall b, entry_address e = Some b -> b = address o) -> addressed (setStateObject (journal_append s e) o).
Proof.
  intros Hs Ha Ho He. assert (setStateObject (journal_append s e) o = journal_append (setStateObject s o) e) as -> by done.
  apply addressed_append; [by apply addressed_set|]. intros a Ea. rewrite (He a Ea). split; [done|].
  intros p. cbn. rewrite lookup_insert_eq. by intros [= <-].
Qed.

Definition alive_at (s : SDB) (a : Address) (o : stateObject) : Prop :=
  address o = a /\ deleted o = false /\ stateObjects s !! a = Some o.

Lemma getStateObject_addressed (s : SDB) a : addressed s -> is_address a ->
  let (x, s') := getStateObject cr s a in addressed s' /\ match x with Some o => alive_at s' a o | None => True end.
Proof.
  intros Hs Ha. unfold getStateObject. destruct (stateObjects s !! a) as [o|] eqn:El.
  - split; [done|]. destruct (deleted o) eqn:Ed; [done|]. split; [by apply (ad_key _ Hs)|done].
  - destruct (TryGet (tr s) (Address_Bytes a)) as [enc err]. destruct (zlen enc =? 0).
    + split; [|done]. apply (addressed_same s); [|by unfold setError; case_match|done]. unfold setError. by case_match.
    + destruct (decodeAccount enc) as [acc|]; [|done]. split; [by apply addressed_set|]. split; [done|]. split; [done|]. cbn. apply lookup_insert_eq.
Qed.

Lemma createObject_addressed (s : SDB) a : addressed s -> is_address a ->
  let '(o, prev, s') := createObject cr s a in addressed s' /\ alive_at s' a o /\ forall p, prev = Some p -> address p = a.
Proof.
  intros Hs Ha. unfold createObject. pose proof (getStateObject_addressed s a Hs Ha) as Hg. destruct (getStateObject cr s a) as [prev s1].
  destruct Hg as [Hs1 Hp]. split; [|split; [split; [done|]; split; [done|]; cbn; by destruct prev; apply lookup_insert_eq|]].
  - destruct prev as [p|]; apply addressed_change; try done; intros b [= <-]; [by apply Hp|done].
  - intros p ->. apply Hp.
Qed.

Lemma GetOrNew_addressed (s : SDB) a : addressed s -> is_address a ->
  let (o, s') := GetOrNewStateObject cr s a in addressed s' /\ alive_at s' a o.
Proof.
  intros Hs Ha. unfold GetOrNewStateObject. pose proof (getStateObject_addressed s a Hs Ha) as Hg. destruct (getStateObject cr s a) as [[o|] s1]; destruct Hg as [Hs1 Hp].
  - destruct Hp as (H1 & H2 & H3). by rewrite H2.
  - pose proof (createObject_addressed s1 a Hs1 Ha) as Hc. destruct (createObject cr s1 a) as [[o p] s2]. destruct Hc as (H1 & H2 & _). done.
Qed.

(** *** Operations *)

Lemma obj_change (s : SDB) a o e o' : addressed s -> is_address a -> alive_at s a o -> address o' = address o -> deleted o' = deleted o ->
  (forall b, entry_address e = Some b -> b = address o) -> addressed (setStateObject (journal_append s e) o').
Proof. intros Hs Ha (H1 & H2 & _) E1 E2 He. apply addressed_change; [done|congruence|congruence|]. intros b Eb. rewrite E1. by apply He. Qed.

Lemma AddBalance_addressed (s : SDB) a v : addressed s -> is_address a -> addressed (AddBalance cr s a v).
Proof.
  intros Hs Ha. unfold AddBalance. pose proof (GetOrNew_addressed s a Hs Ha) as Hg. destruct (GetOrNewStateObject cr s a) as [o s1]. destruct Hg as [Hs1 Ho].
  unfold obj_AddBalance. destruct (Sign v =? 0); [|by eapply obj_change; [| | exact Ho|done|done|intros b [= <-]]].
  destruct (empty cr o); [|done]. unfold touch. assert (addressed (journal_append s1 (touchChange (address o)))) as Ht.
  { apply addressed_append; [done|]. destruct Ho as (<- & H2 & H3). intros b [= <-]. split; [done|]. intros p. rewrite H3. by intros [= <-]. }
  destruct (address o =? ripemd); [|done]. destruct Ht as [Hk He Hd]. split; [done|done|].
  intros b p Hl Hdel. destruct (Hd b p Hl Hdel) as [H1 H2]. split; [|done]. cbn. rewrite lookup_insert_ne; [done|].
  destruct Ho as (<- & Hal & Hat). intros <-. cbn in Hl. congruence.
Qed.

Lemma SubBalance_addressed (s : SDB) a v : addressed s -> is_address a -> addressed (SubBalance cr s a v).
Proof.
  intros Hs Ha. unfold SubBalance. pose proof (GetOrNew_addressed s a Hs Ha) as Hg. destruct (GetOrNewStateObject cr s a) as [o s1]. destruct Hg as [Hs1 Ho].
  unfold obj_SubBalance. destruct (Sign v =? 0); [done|]. by eapply obj_change; [| | exact Ho|done|done|intros b [= <-]].
Qed.

Lemma SetNonce_addressed (s : SDB) a n : addressed s -> is_address a -> addressed (SetNonce cr s a n).
Proof.
  intros Hs Ha. unfold SetNonce. pose proof (GetOrNew_addressed s a Hs Ha) as Hg. destruct (GetOrNewStateObject cr s a) as [o s1]. destruct Hg as [Hs1 Ho].
  by eapply obj_change; [| | exact Ho|done|done|intros b [= <-]].
Qed.

Lemma SetCode_addressed (s : SDB) a c : addressed s -> is_address a -> addressed (SetCode cr s a c).
Proof.
  intros Hs Ha. unfold SetCode. pose proof (GetOrNew_addressed s a Hs Ha) as Hg. destruct (GetOrNewStateObject cr s a) as [o s1]. destruct Hg as [Hs1 Ho].
  unfold obj_SetCode. destruct (obj_Code_eq cr (db s1) o) as [_ Heq]. destruct (obj_Code cr (db s1) o) as [pc o1]. cbn [snd] in Heq.
  eapply obj_change; [done|done|exact Ho|apply Heq|apply Heq|]. intros b [= <-]. apply Heq.
Qed.

Lemma SetState_addressed (s : SDB) a k v : addressed s -> is_address a -> addressed (SetState cr s a k v).
Proof.
  intros Hs Ha. unfold SetState. pose proof (GetOrNew_addressed s a Hs Ha) as Hg. destruct (GetOrNewStateObject cr s a) as [o s1]. destruct Hg as [Hs1 Ho].
  unfold obj_SetState. destruct (obj_GetState_eq cr (db s1) o k) as [_ Heq]. destruct (obj_GetState (db s1) o k) as [prev o1]. cbn [snd] in Heq.
  pose proof (oe_address _ _ _ _ Heq) as Ea. pose proof (oe_deleted _ _ _ _ Heq) as Ed. pose proof Ho as (H1 & H2 & _).
  destruct (prev =? v); [apply addressed_set; [done|congruence|congruence]|].
  eapply obj_change; [done|done|exact Ho|exact Ea|exact Ed|]. intros b [= <-]. exact Ea.
Qed.

Lemma Suicide_addressed (s : SDB) a : addressed s -> is_address a -> addressed (snd (Suicide cr s a)).
Proof.
  intros Hs Ha. unfold Suicide. pose proof (getStateObject_addressed s a Hs Ha) as Hg. destruct (getStateObject cr s a) as [[o|] s1]; destruct Hg as [Hs1 Ho]; [|done].
  eapply obj_change; [done|done|exact Ho|done|done|]. destruct Ho as (<- & _). by intros b [= <-].
Qed.

Lemma CreateAccount_addressed (s : SDB) a : addressed s -> is_address a -> addressed (CreateAccount cr s a).
Proof.
  intros Hs Ha. unfold CreateAccount. pose proof (createObject_addressed s a Hs Ha) as Hc. destruct (createObject cr s a) as [[o prev] s1].
  destruct Hc as (Hs1 & (E1 & E2 & _) & _). destruct prev as [p|]; [|done]. apply addressed_set; cbn; congruence.
Qed.

Lemma addressed_note (s s' : SDB) e : entry_address e = None -> stateObjects s' = stateObjects s -> jrnl s' = j_append (jrnl s) e ->
  addressed s -> addressed s'.
Proof.
  intros He E1 E2 Hs. apply (addressed_same (journal_append s e)); [done|done|]. apply addressed_append; [done|]. by rewrite He.
Qed.

(** *** Undoing *)

Lemma on_object_addressed (s s' : SDB) a f : addressed s -> is_address a ->
  (forall o, address (f o) = address o /\ deleted (f o) = deleted o) -> on_object cr s a f = Ok s' ->
  addressed s' /\ (forall o, stateObjects s' !! a = Some o -> deleted o = false) /\ jrnl s' = jrnl s.
Proof.
  intros Hs Ha Hf. unfold on_object. pose proof (getStateObject_addressed s a Hs Ha) as Hg.
  pose proof (getStateObject_loads cr s a) as [_ L]. destruct (getStateObject cr s a) as [[o|] s1]; destruct Hg as [Hs1 Ho]; [|done].
  intros [= <-]. destruct (Hf o) as [E1 E2]. destruct Ho as (H1 & H2 & _). split; [apply addressed_set; [done|congruence|congruence]|].
  split; [|apply L]. intros p. cbn. rewrite E1, H1, lookup_insert_eq. intros [= <-]. congruence.
Qed.

Lemma entry_revert_addressed e (s s' : SDB) : addressed s -> e ∈ entries (jrnl s) -> entry_ok e -> entry_revert cr e s = Ok s' ->
  addressed s' /\ jrnl s' = jrnl s /\ forall a o, entry_address e = Some a -> stateObjects s' !! a = Some o -> deleted o = false.
Proof.
  intros Hs Hin Hok.
  assert (forall a, entry_address e = Some a -> is_address a /\ forall o, stateObjects s !! a = Some o -> deleted o = false) as He.
  { intros a Ea. split; [by apply (ad_entries _ Hs e)|]. intros o Hl. destruct (deleted o) eqn:Ed; [|done].
    destruct (ad_deleted _ Hs a o Hl Ed) as [_ Hno]. by destruct (Hno e Hin). }
  assert (forall a f, entry_address e = Some a -> (forall o, address (f o) = address o /\ deleted (f o) = deleted o) -> on_object cr s a f = Ok s' ->
    addressed s' /\ jrnl s' = jrnl s /\ forall b o, entry_address e = Some b -> stateObjects s' !! b = Some o -> deleted o = false) as Hon.
  { intros a f Ea Hf E. destruct (on_object_addressed s s' a f Hs (proj1 (He a Ea)) Hf E) as (H1 & H2 & H3). split; [done|]. split; [done|].
    intros b o Eb. assert (b = a) as -> by congruence. apply H2. }
  destruct e as [a|prev|a prev pb|a prev|a prev|a k v|a pc ph|prev|h|h|a]; cbn [entry_revert entry_address dirtied] in *;
    try (by apply Hon); try (intros [= <-]).
  - split; [|split; [done|]].
    + destruct Hs as [Hk Hen Hd]. split; cbn; [|done|]; intros b o [_ Hl]%lookup_delete_Some; [by apply Hk|by apply (Hd b o)].
    + intros b o [= <-]. cbn. by rewrite lookup_delete_eq.
  - destruct (He _ eq_refl) as [Ha _]. split; [by apply addressed_set|]. split; [done|]. intros b o [= <-]. cbn. rewrite lookup_insert_eq. by intros [= <-].
  - destruct (He a eq_refl) as [Ha Hal]. pose proof (getStateObject_addressed s a Hs Ha) as Hg. pose proof (getStateObject_loads cr s a) as [_ L].
    unfold getStateObject in *. destruct (stateObjects s !! a) as [o|] eqn:El.
    + rewrite (Hal o eq_refl) in *. destruct Hg as [_ (H1 & H2 & H3)]. intros [= <-]. split; [apply addressed_set; cbn; congruence|]. split; [done|].
      intros b p [= <-]. cbn. rewrite H1, lookup_insert_eq. by intros [= <-].
    + destruct (TryGet (tr s) (Address_Bytes a)) as [enc err]. destruct (zlen enc =? 0).
      * intros [= <-]. destruct Hg as [Hg _]. split; [done|]. split; [apply L|]. intros b p [= <-]. unfold setError. case_match; cbn; by rewrite El.
      * destruct (decodeAccount enc) as [acc|]; [|intros [= <-]; split; [done|]; split; [done|]; intros b p [= <-]; by rewrite El].
        destruct Hg as [Hg (H1 & H2 & H3)]. intros [= <-]. split; [by apply addressed_set|]. split; [done|].
        intros b p [= <-]. cbn. rewrite lookup_insert_eq. by intros [= <-].
  - split; [by apply (addressed_same s)|done].
  - destruct (zlen _ =? 0); [done|]. intros [= <-]. split; [by apply (addressed_same s)|done].
  - split; [by apply (addressed_same s)|done].
  - split; [done|]. split; [done|]. intros b o [= <-]. apply He. done.
Qed.

Lemma undirty_other m e a : entry_address e <> Some a -> undirty m e !! a = m !! a.
Proof.
  intros Hne. unfold undirty. destruct (dirtied e) as [b|] eqn:E; [|done]. apply dirtied_address in E.
  destruct (_ =? 0); [apply lookup_delete_ne|apply lookup_insert_ne]; congruence.
Qed.

Lemma revert_entries_addressed es : forall s s' : SDB, addressed s -> (forall e, e ∈ es -> e ∈ entries (jrnl s) /\ entry_ok e) ->
  revert_entries cr es s = Ok s' -> addressed s' /\ entries (jrnl s') = entries (jrnl s).
Proof.
  induction es as [|e es IH]; intros s s' Hs Hes; cbn [revert_entries]; [by intros [= <-]|].
  destruct (entry_revert cr e s) as [s1| |] eqn:E; [|done..]. cbn [obind]. destruct (Hes e ltac:(left)) as [Hin Hok].
  destruct (entry_revert_addressed e s s1 Hs Hin Hok E) as (Hs1 & Ej & Hal). rewrite Ej. intros E2.
  destruct (IH (set_journal s1 (mkJournal (entries (jrnl s)) (undirty (dirties (jrnl s)) e))) s') as [H1 H2]; [| |done|done].
  - destruct Hs1 as [Hk Hen Hd]. rewrite Ej in *. split; cbn [stateObjects jrnl set_journal entries dirties]; [done|done|].
    intros a o Hl Hdel. destruct (Hd a o Hl Hdel) as [H1 H2]. split; [|done]. rewrite undirty_other; [done|]. by apply H2.
  - intros x Hx. cbn. apply Hes. by right.
Qed.

Lemma RevertToSnapshot_addressed (s s' : SDB) rid : wf cr s -> addressed s -> RevertToSnapshot cr s rid = Ok s' -> addressed s'.
Proof.
  intros Hw Hs. unfold RevertToSnapshot. destruct (validRevisions s !! _) as [r|]; [|done]. destruct (negb _); [done|]. unfold journal_revert.
  destruct (revert_entries cr _ s) as [s1| |] eqn:E; [|done..]. cbn [obind]. intros [= <-].
  destruct (revert_entries_addressed (reverse (drop (Z.to_nat (journalIndex r)) (entries (jrnl s)))) s s1 Hs) as [[Hk He Hd] Ee]; [|done|].
  - intros e Hin. rewrite elem_of_reverse in Hin. assert (e ∈ entries (jrnl s)) as Hin'.
    { apply list_elem_of_lookup in Hin as [i Hi]. rewrite lookup_drop in Hi. by eapply list_elem_of_lookup_2. }
    split; [done|]. exact (proj1 (Forall_forall _ _) (wf_entries _ _ Hw) e Hin').
  - split; cbn [stateObjects jrnl set_revisions set_journal entries dirties]; [done| |].
    + intros x a (i & Hi & _)%elem_of_take. apply He. by eapply list_elem_of_lookup_2.
    + intros a o Hl Hdel. destruct (Hd a o Hl Hdel) as [H1 H2]. split; [done|]. intros x (i & Hi & _)%elem_of_take. apply H2.
      by eapply list_elem_of_lookup_2.
Qed.
End keys.
