(* ===== verification/StateInstance.v ===== *)
(** * The world state serves the machine

    [kernel/state] implements the interface of [kernel/vm/interface.go] and
    satisfies every law the machine relies on, for any database and any hash of
    32 bytes. *)
From S2P Require Import Prelude CommonMath RlpEncode RlpDecode Opcodes VmBase VmInterface VmLaws StateAccount.
From S2P Require Import StateModel StateFacts StateKeys.
From stdpp Require Import base numbers list gmap.
From Stdlib Require Import ZArith Lia.
#[local] Open Scope Z_scope.

Section instance.
Context {D T : Type} `{Database D T} (cr : Crypto).
Local Abbreviation SDB := (@State.StateDB D T).

(** Reads are taken without the caches they fill: [state_eq] says that these are
    not observable. *)
Definition state_db : StateDB SDB := {|
  CreateAccount := State.CreateAccount cr;
  SubBalance := State.SubBalance cr;
  AddBalance := State.AddBalance cr;
  GetBalance s a := fst (State.GetBalance cr s a);
  GetNonce s a := fst (State.GetNonce cr s a);
  SetNonce := State.SetNonce cr;
  GetCodeHash s a := fst (State.GetCodeHash cr s a);
  GetCode s a := default [] (fst (State.GetCode cr s a));
  SetCode s a c := State.SetCode cr s a (Some c);
  GetCodeSize s a := fst (State.GetCodeSize cr s a);
  AddRefund := State.AddRefund;
  SubRefund := State.SubRefund;
  GetRefund := State.GetRefund;
  GetCommittedState s a k := fst (State.GetCommittedState cr s a k);
  GetState s a k := fst (State.GetState cr s a k);
  SetState := State.SetState cr;
  Suicide s a := snd (State.Suicide cr s a);
  HasSuicided s a := fst (State.HasSuicided cr s a);
  Exist s a := fst (State.Exist cr s a);
  EmptyAccount s a := fst (State.Empty cr s a);
  RevertToSnapshot := State.RevertToSnapshot cr;
  Snapshot := State.Snapshot;
  AddLog := State.AddLog;
  AddPreimage := State.AddPreimage
|}.
Local Existing Instance state_db.

Import State.
Local Abbreviation stateObject := (@State.stateObject T).

(** ** Reads in terms of the observations *)

Lemma GetBalance_spec (s : SDB) a : VmInterface.GetBalance s a = from_option (fun o => Balance (data o)) 0 (lookup_object cr s a).
Proof.
  cbn. unfold State.GetBalance. destruct (getStateObject_loads cr s a) as [E _].
  destruct (getStateObject cr s a) as [x s1]; cbn in *. subst. by destruct (lookup_object cr s a).
Qed.

Lemma GetCodeHash_spec (s : SDB) a :
  VmInterface.GetCodeHash s a = from_option (fun o => BytesToHash (StateAccount.CodeHash (data o))) 0 (lookup_object cr s a).
Proof.
  cbn. unfold State.GetCodeHash. destruct (getStateObject_loads cr s a) as [E _].
  destruct (getStateObject cr s a) as [x s1]; cbn in *. subst. by destruct (lookup_object cr s a).
Qed.

Lemma loads_db (s s' : SDB) : loads cr s s' -> db s' = db s.
Proof. intros [[? _]]. done. Qed.

Lemma GetCode_spec (s : SDB) a : VmInterface.GetCode s a = from_option (codev cr (db s)) [] (lookup_object cr s a).
Proof.
  cbn. unfold State.GetCode, read. destruct (getStateObject_loads cr s a) as [E L].
  destruct (getStateObject cr s a) as [x s1]; cbn [fst snd] in *. subst. destruct (lookup_object cr s a) as [o|]; [|done].
  destruct (obj_Code_eq cr (db s) o) as [Ev _]. by destruct (obj_Code cr (db s) o).
Qed.

Lemma GetState_spec (s : SDB) a k : VmInterface.GetState s a k = from_option (fun o => current (db s) o k) 0 (lookup_object cr s a).
Proof.
  cbn. unfold State.GetState, read. destruct (getStateObject_loads cr s a) as [E L].
  destruct (getStateObject cr s a) as [x s1]; cbn [fst snd] in *. subst. destruct (lookup_object cr s a) as [o|]; [|done].
  destruct (obj_GetState_eq cr (db s) o k) as [Ev _]. by destruct (obj_GetState (db s) o k).
Qed.

(** ** Ranges *)

Record obj_ok (d : D) (o : stateObject) : Prop := {
  ob_balance : 0 <= Balance (data o);
  ob_hash : zlen (StateAccount.CodeHash (data o)) = 32;
  ob_code : BytesToHash (StateAccount.CodeHash (data o)) = Keccak256Hash cr (codev cr d o);
  ob_length : zlen (codev cr d o) < 2 ^ 62;
  ob_storage : forall k, 0 <= current d o k
}.

Record world_ok (s : SDB) : Prop := {
  wo_wf : wf cr s;
  wo_obj : forall a o, is_address a -> lookup_object cr s a = Some o -> obj_ok (db s) o;
  wo_refund : is_u64 (refund s)
}.

Lemma obj_ok_eq d o o' : obj_eq cr d o o' -> obj_ok d o -> obj_ok d o'.
Proof. intros [] []. split; intros; congruence || (rewrite ?oe_current; auto). Qed.

Lemma eq_world_ok (s s' : SDB) : state_eq cr s s' -> wf cr s' -> world_ok s -> world_ok s'.
Proof.
  intros Heq Hw [_ Ho Hr]. split; [done| |by rewrite (se_refund _ _ _ Heq)]. intros a o' Haa E'. pose proof (se_objects _ _ _ Heq a) as Ha. rewrite E' in Ha.
  destruct (lookup_object cr s a) as [o|] eqn:E; [|done]. rewrite (se_db _ _ _ Heq). eapply obj_ok_eq; [exact Ha|]. by apply Ho in E.
Qed.

Lemma acts_ok (s s' : SDB) a g : acts cr s s' a g -> world_ok s -> obj_ok (db s) g -> tracks cr s s' /\ world_ok s'.
Proof.
  intros A [_ Ho Hr] Hg. split; [apply A|]. destruct (ac_frame _ _ _ _ _ A) as (Ed & _ & Er & _).
  split; [apply (tk_wf _ _ _ (ac_tracks _ _ _ _ _ A))| |by rewrite Er]. rewrite Ed. intros b o Hbb E. destruct (decide (b = a)) as [->|Hb].
  - pose proof (ac_at _ _ _ _ _ A) as Ha. rewrite E in Ha. by eapply obj_ok_eq.
  - rewrite (ac_other _ _ _ _ _ A) in E by done. by apply Ho in E.
Qed.

Lemma same_objects_ok (s s' : SDB) : tracks cr s s' -> db s' = db s -> (forall a, lookup_object cr s' a = lookup_object cr s a) ->
  is_u64 (refund s') -> world_ok s -> tracks cr s s' /\ world_ok s'.
Proof.
  intros Ht Hd Hl Hr [_ Ho _]. split; [done|]. split; [apply (tk_wf _ _ _ Ht)| |done]. intros a o Ha. rewrite Hl, Hd. by apply Ho.
Qed.

Context (Hk : forall d, zlen (keccak256 cr d) = 32).

Lemma BytesToHash_keccak c : BytesToHash (keccak256 cr c) = Keccak256Hash cr c.
Proof.
  rewrite BytesToHash_mod. apply Z.mod_small. pose proof (be2z_bound (keccak256 cr c)) as Hb. rewrite Hk in Hb. done.
Qed.

Lemma current_nonneg_new d a x k : 0 <= current d (newObject cr a x : stateObject) k.
Proof.
  unfold current, committed. cbn [dirtyStorage originStorage newObject]. rewrite !lookup_empty.
  unfold default, trie_value. repeat case_match; try done. rewrite BytesToHash_mod. apply Z.mod_pos_bound. done.
Qed.

Lemma new_ok d a x : obj_ok d (setBalance (newObject cr a (zeroAccount cr)) x) <-> 0 <= x.
Proof.
  assert (codev cr d (setBalance (newObject cr a (zeroAccount cr)) x) = []) as Hc.
  { unfold codev. cbn. by rewrite bool_decide_eq_true_2. }
  split; [by intros []|]. intros Hx. split; rewrite ?Hc; try done.
  - apply Hk.
  - apply BytesToHash_keccak.
  - intros k. apply (current_nonneg_new d a (zeroAccount cr) k).
Qed.

Lemma get_or_new_ok (s : SDB) a : world_ok s -> is_address a -> obj_ok (db s) (get_or_new cr s a).
Proof.
  intros Hs Ha. unfold get_or_new. destruct (lookup_object cr s a) as [o|] eqn:E; [by apply (wo_obj _ Hs) in E|].
  by apply (new_ok (db s) a 0).
Qed.

Lemma GetBalance_new (s : SDB) a : VmInterface.GetBalance s a = Balance (data (get_or_new cr s a)).
Proof. rewrite GetBalance_spec. unfold get_or_new. by destruct (lookup_object cr s a). Qed.

Lemma setBalance_ok d o x : obj_ok d o -> 0 <= x -> obj_ok d (setBalance o x).
Proof. intros [] Hx. by split. Qed.
Lemma setNonce_ok d o n : obj_ok d o -> obj_ok d (setNonce o n).
Proof. intros []. by split. Qed.
Lemma setState_ok d o k v : obj_ok d o -> 0 <= v -> obj_ok d (setState o k v).
Proof. intros [] Hv. split; try done. intros k'. rewrite current_setState. by destruct (decide (k' = k)). Qed.
Lemma setCode_ok d o c : obj_ok d o -> zlen c < 2 ^ 62 -> obj_ok d (setCode o (Keccak256Hash cr c) (Some c)).
Proof.
  intros [] Hc. split; try done; cbn [data setCode with_dirtyCode with_data StateAccount.CodeHash].
  unfold codev. cbn [code setCode with_dirtyCode with_data with_code]. rewrite BytesToHash_mod. unfold Hash_Bytes, HashLength.
  rewrite be2z_z2be. pose proof (be2z_bound (keccak256 cr c)) as Hb. rewrite Hk in Hb. unfold Keccak256Hash.
  rewrite (Z.mod_small (be2z _)) by exact Hb. by apply Z.mod_small.
Qed.
Lemma suicided_ok d o : obj_ok d o -> obj_ok d (setBalance (markSuicided o) 0).
Proof. intros []. by split. Qed.

(** ** The ways of the machine *)

Lemma AddBalance_ok (s : SDB) a v : world_ok s -> is_address a -> 0 <= VmInterface.GetBalance s a + v ->
  tracks cr s (State.AddBalance cr s a v) /\ world_ok (State.AddBalance cr s a v).
Proof.
  intros Hs Ha Hv. eapply acts_ok; [by apply AddBalance_acts, Hs|done|]. rewrite GetBalance_new in Hv.
  apply setBalance_ok; [by apply get_or_new_ok|done].
Qed.

Lemma SubBalance_ok (s : SDB) a v : world_ok s -> is_address a -> v <= VmInterface.GetBalance s a ->
  tracks cr s (State.SubBalance cr s a v) /\ world_ok (State.SubBalance cr s a v).
Proof.
  intros Hs Ha Hv. eapply acts_ok; [by apply SubBalance_acts, Hs|done|]. rewrite GetBalance_new in Hv.
  apply setBalance_ok; [by apply get_or_new_ok|lia].
Qed.

Lemma balance_ok (s : SDB) a : world_ok s -> is_address a -> 0 <= VmInterface.GetBalance s a.
Proof. intros Hs Ha. rewrite GetBalance_new. by apply ob_balance with (d := db s), get_or_new_ok. Qed.

Lemma Suicide_ok (s : SDB) a : world_ok s -> is_address a -> tracks cr s (snd (State.Suicide cr s a)) /\ world_ok (snd (State.Suicide cr s a)).
Proof.
  intros Hs Ha. pose proof (Suicide_acts cr s a (wo_wf _ Hs)) as Hsu. destruct (lookup_object cr s a) as [o|] eqn:E.
  - eapply acts_ok; [apply Hsu|done|]. apply suicided_ok. by apply (wo_obj _ Hs) in E.
  - destruct Hsu as [L _]. apply same_objects_ok; [by apply tracks_loads; [apply Hs|]|by apply loads_db|apply L| |done].
    destruct (ld_frame _ _ _ L) as (_ & _ & -> & _). apply Hs.
Qed.

Lemma ok_trans (s1 s2 s3 : SDB) : tracks cr s1 s2 -> tracks cr s2 s3 /\ world_ok s3 -> tracks cr s1 s3 /\ world_ok s3.
Proof. intros H1 [H2 H3]. split; [by eapply tracks_trans|done]. Qed.

Lemma refund_ok (s : SDB) n : world_ok s -> is_u64 n ->
  tracks cr s (set_refund (journal_append s (refundChange (refund s))) n) /\
  world_ok (set_refund (journal_append s (refundChange (refund s))) n).
Proof. intros Hs Hn. apply same_objects_ok; [by apply refund_tracks, Hs|done|done|done|done]. Qed.

Lemma evolves_tracks ro (s s' : SDB) : evolves ro s s' -> world_ok s -> tracks cr s s' /\ world_ok s'.
Proof.
  induction 1 as [s|s1 s2 s3 _ IH1 _ IH2|s h d|s a Ha Hx|s a b v Ha Hb Hv Hro|s|s s2 s3 _ IH E|s a Hro Ha|s a n Hro Ha Hn
    |s a c Hro Ha Hc|s a k v Hro Ha Hkw Hv|s g Hro Hg|s s' g Hro Hg E|s l Hro|s a b Hro Ha Hb]; intros Hs.
  - split; [by apply tracks_refl, Hs|done].
  - destruct (IH1 Hs) as [T1 W1]. eapply ok_trans; [exact T1|]. by apply IH2.
  - pose proof (wo_refund _ Hs). apply same_objects_ok; [by apply AddPreimage_tracks, Hs| | | |done]; cbn; unfold State.AddPreimage; by case_match.
  - eapply acts_ok; [by apply CreateAccount_acts, Hs|done|]. apply new_ok. rewrite <- GetBalance_new. by apply balance_ok.
  - unfold kernel_Transfer. destruct (SubBalance_ok s a v Hs Ha ltac:(lia)) as [T1 W1]. eapply ok_trans; [exact T1|].
    apply AddBalance_ok; [done|done|]. apply Z.add_nonneg_nonneg; [exact (balance_ok (State.SubBalance cr s a v) b W1 Hb)|lia].
  - apply same_objects_ok; [by apply Snapshot_tracks, Hs|done|done|apply Hs|done].
  - assert (world_ok (snd (VmInterface.Snapshot s))) as Hs1.
    { apply (same_objects_ok s); [by apply Snapshot_tracks, Hs|done|done|apply Hs|done]. }
    destruct (IH Hs1) as [T2 _]. destruct (RevertToSnapshot_ok cr s s2 (wo_wf _ Hs) T2) as (s3' & E' & Heq & Hw & He & Hr & Hn).
    assert (Ok s3' = Ok s3) as [= ->] by (rewrite <- E', <- E; reflexivity).
    split; [by apply tracks_same|]. by eapply eq_world_ok.
  - eapply acts_ok; [by apply CreateAccount_acts, Hs|done|]. apply new_ok. rewrite <- GetBalance_new. by apply balance_ok.
  - eapply acts_ok; [by apply SetNonce_acts, Hs|done|]. by apply setNonce_ok, get_or_new_ok.
  - pose proof (get_or_new_ok s a Hs Ha) as Hg. eapply acts_ok; [apply SetCode_acts; [apply Hs|apply Hg]|done|]. by apply setCode_ok.
  - eapply acts_ok; [by apply SetState_acts, Hs|done|]. apply setState_ok; [by apply get_or_new_ok|apply Hv].
  - apply refund_ok; [done|apply u64_range].
  - cbn in E. unfold State.SubRefund in E. destruct (Z.ltb_spec (refund (journal_append s (refundChange (refund s)))) g) as [|Hle]; [done|].
    injection E as <-. apply refund_ok; [done|]. pose proof (wo_refund _ Hs). cbn in *. unfold is_u64 in *. lia.
  - apply same_objects_ok; [by apply AddLog_tracks, Hs|done|done|apply Hs|done].
  - destruct (AddBalance_ok s b (VmInterface.GetBalance s a) Hs Hb) as [T1 W1].
    { pose proof (balance_ok s a Hs Ha). pose proof (balance_ok s b Hs Hb). lia. }
    eapply ok_trans; [exact T1|]. by apply Suicide_ok.
Qed.

Lemma evolves_addressed ro (s s' : SDB) : evolves ro s s' -> world_ok s -> addressed s -> addressed s'.
Proof.
  induction 1 as [s|s1 s2 s3 He1 IH1 He2 IH2|s h d|s a Ha Hx|s a b v Ha Hb Hv Hro|s|s s2 s3 He IH E|s a Hro Ha|s a n Hro Ha Hn
    |s a c Hro Ha Hc|s a k v Hro Ha Hkw Hv|s g Hro Hg|s s' g Hro Hg E|s l Hro|s a b Hro Ha Hb]; intros Hs Had.
  - done.
  - apply IH2; [by apply (evolves_tracks _ _ _ He1)|by apply IH1].
  - cbn. unfold State.AddPreimage. case_match; [done|]. by apply (addressed_note s _ (addPreimageChange h)).
  - by apply CreateAccount_addressed.
  - by apply AddBalance_addressed; [apply SubBalance_addressed|].
  - by apply (addressed_same s).
  - assert (world_ok (snd (VmInterface.Snapshot s))) as Hs1.
    { apply (same_objects_ok s); [by apply Snapshot_tracks, Hs|done|done|apply Hs|done]. }
    eapply RevertToSnapshot_addressed; [apply (wo_wf s2), (evolves_tracks _ _ _ He Hs1)| |exact E]. apply IH; [done|]. by apply (addressed_same s).
  - by apply CreateAccount_addressed.
  - by apply SetNonce_addressed.
  - by apply SetCode_addressed.
  - by apply SetState_addressed.
  - by apply (addressed_note s _ (refundChange (refund s))).
  - cbn in E. unfold State.SubRefund in E. destruct (_ <? g); [done|]. injection E as <-. by apply (addressed_note s _ (refundChange (refund s))).
  - by apply (addressed_note s _ (addLogChange (thash s))).
  - by apply Suicide_addressed; [apply AddBalance_addressed|].
Qed.

(** The invariant of the world state. *)
Definition sound (s : SDB) : Prop := world_ok s /\ addressed s.

Lemma eq_balance_spec (s s' : SDB) a : state_eq cr s s' -> VmInterface.GetBalance s a = VmInterface.GetBalance s' a.
Proof.
  intros Heq. rewrite !GetBalance_spec. pose proof (se_objects _ _ _ Heq a) as Ho.
  destruct (lookup_object cr s a), (lookup_object cr s' a); try done. symmetry. apply Ho.
Qed.

Lemma acts_balance (s s' : SDB) a g b : acts cr s s' a g -> Balance (data g) = VmInterface.GetBalance s a ->
  VmInterface.GetBalance s' b = VmInterface.GetBalance s b.
Proof.
  intros A Hg. destruct (decide (b = a)) as [->|Hb].
  - rewrite <- Hg, GetBalance_spec. pose proof (ac_at _ _ _ _ _ A) as Ha. destruct (lookup_object cr s' a) as [o|]; [|done]. apply Ha.
  - rewrite !GetBalance_spec. by rewrite (ac_other _ _ _ _ _ A).
Qed.

Definition state_laws : StateDBLaws SDB cr.
Proof.
  refine {| state_ok := sound; VmLaws.state_eq := state_eq cr |}.
  - intros s. reflexivity.
  - intros s1 s2 s3 E1 E2. by etrans.
  - intros ro s s' [Hs Had] He. split; [by apply (evolves_tracks ro s s')|by apply (evolves_addressed ro s s')].
  - intros s s2 [Hs _] He. assert (world_ok (snd (VmInterface.Snapshot s))) as Hs1.
    { apply (same_objects_ok s); [by apply Snapshot_tracks, Hs|done|done|apply Hs|done]. }
    destruct (evolves_tracks _ _ _ He Hs1) as [T2 _].
    destruct (RevertToSnapshot_ok cr s s2 (wo_wf _ Hs) T2) as (s3 & E & Heq & _). exists s3. split; [exact E|]. by symmetry.
  - intros s g. cbn. unfold State.SubRefund. destruct (_ <? g); eauto.
  - intros s. symmetry. apply frame_eq; [done|]. intros a. apply opt_eq_refl.
  - intros s s' a Heq. by apply eq_balance_spec.
  - intros s a b [Hs _]. eapply acts_balance; [by apply CreateAccount_acts, Hs|]. by rewrite GetBalance_new.
  - intros s a b n [Hs _]. eapply acts_balance; [by apply SetNonce_acts, Hs|]. by rewrite GetBalance_new.
  - intros s a [Hs _] Ha. by apply balance_ok.
  - intros s a [Hs _]. rewrite GetCodeHash_spec. destruct (lookup_object cr s a) as [o|]; [|done].
    cbn [from_option]. rewrite BytesToHash_mod. apply Z.mod_pos_bound. done.
  - intros s a k [Hs _] Ha. rewrite GetState_spec. destruct (lookup_object cr s a) as [o|] eqn:E; [|done].
    apply (ob_storage _ _ (wo_obj _ Hs a o Ha E)).
  - intros s a [Hs _] Ha. rewrite GetCodeHash_spec, GetCode_spec. destruct (lookup_object cr s a) as [o|] eqn:E; [|done].
    intros _. apply (ob_code _ _ (wo_obj _ Hs a o Ha E)).
  - intros s a [Hs _] Ha. rewrite GetCode_spec. destruct (lookup_object cr s a) as [o|] eqn:E; [|done].
    apply (ob_length _ _ (wo_obj _ Hs a o Ha E)).
Defined.
End instance.
