(* ===== verification/Supply.v ===== *)
(** * The supply of ether

    What the balance operations of the world state promise, and what follows for
    any execution of the machine: ether is moved and burnt, never minted. *)
From S2P Require Import Prelude CommonMath Opcodes VmBase VmInterface VmLaws StateAccount StateModel StateFacts.
From S2P Require Import StateKeys StateInstance.
From stdpp Require Import base numbers list gmap.
From Stdlib Require Import ZArith Lia.
#[local] Open Scope Z_scope.

Class LedgerLaws (S : Type) `{StateDB S} (cr : Crypto) `{!StateDBLaws S cr} : Prop := {
  add_ok : forall s a v, state_ok s -> is_address a -> 0 <= v -> state_ok (AddBalance s a v);
  sub_ok : forall s a v, state_ok s -> is_address a -> 0 <= v <= GetBalance s a -> state_ok (SubBalance s a v);
  add_balance : forall s a v b, state_ok s -> GetBalance (AddBalance s a v) b = GetBalance s b + if decide (b = a) then v else 0;
  sub_balance : forall s a v b, state_ok s -> GetBalance (SubBalance s a v) b = GetBalance s b - if decide (b = a) then v else 0;
  suicide_balance : forall s a b, state_ok s -> GetBalance (Suicide s a) b = if decide (b = a) then 0 else GetBalance s b;
  code_balance : forall s a c b, state_ok s -> is_address a -> GetBalance (SetCode s a c) b = GetBalance s b;
  storage_balance : forall s a k v b, state_ok s -> GetBalance (SetState s a k v) b = GetBalance s b;
  refund_balance : forall s g b, GetBalance (AddRefund s g) b = GetBalance s b;
  unrefund_balance : forall s s' g b, SubRefund s g = Ok s' -> GetBalance s' b = GetBalance s b;
  log_balance : forall s l b, GetBalance (AddLog s l) b = GetBalance s b;
  preimage_balance : forall s h d b, GetBalance (AddPreimage s h d) b = GetBalance s b;
  refund_range : forall s, state_ok s -> is_u64 (GetRefund s)
}.

Section supply.
Context {S : Type} `{StateDB S} {cr : Crypto} `{!StateDBLaws S cr} `{!LedgerLaws S cr}.

(** The ether held by the accounts of [L]. *)
Definition supply (L : list Address) (s : S) : Z := foldr (fun a n => GetBalance s a + n) 0 L.

Lemma supply_same L s s' : (forall a, GetBalance s' a = GetBalance s a) -> supply L s' = supply L s.
Proof. intros Hs. unfold supply. induction L as [|a L IH]; cbn; [done|]. by rewrite Hs, IH. Qed.

Lemma supply_delta L s s' a v : NoDup L -> (forall b, GetBalance s' b = GetBalance s b + if decide (b = a) then v else 0) ->
  supply L s' = supply L s + if decide (a ∈ L) then v else 0.
Proof.
  intros Hnd Hs. unfold supply. induction L as [|b L IH]; [cbn; case_decide as Hd; [by apply not_elem_of_nil in Hd|lia]|].
  apply NoDup_cons in Hnd as [Hb Hnd]. cbn. rewrite Hs, (IH Hnd). destruct (decide (b = a)) as [->|Hne].
  - rewrite (decide_False (P := a ∈ L)) by done. rewrite decide_True by left. lia.
  - destruct (decide (a ∈ L)) as [Hin|Hin].
    + rewrite decide_True by (by right). lia.
    + rewrite decide_False; [lia|]. by intros [->|]%elem_of_cons.
Qed.

(** No set of addresses that is large enough gains ether from [s] to [s']. *)
Definition no_mint (s s' : S) : Prop :=
  exists L0, Forall is_address L0 /\ forall L, NoDup L -> Forall is_address L -> L0 ⊆ L -> supply L s' <= supply L s.

Lemma no_mint_same s s' : (forall a, GetBalance s' a = GetBalance s a) -> no_mint s s'.
Proof. intros Hs. exists []. split; [done|]. intros L _ _ _. by rewrite (supply_same L s s'). Qed.

#[export] Instance no_mint_preorder : PreOrder no_mint.
Proof.
  split; [intros s; by apply no_mint_same|]. intros s1 s2 s3 (L1 & A1 & H1) (L2 & A2 & H2). exists (L1 ++ L2).
  split; [by apply Forall_app|]. intros L Hnd Ha Hsub. etrans; [apply H2; [done|done|set_solver]|apply H1; [done|done|set_solver]].
Qed.

Lemma supply_add L s a v : NoDup L -> state_ok s -> supply L (AddBalance s a v) = supply L s + if decide (a ∈ L) then v else 0.
Proof. intros Hnd Hs. apply supply_delta; [done|]. intros b. by apply add_balance. Qed.

Lemma supply_sub L s a v : NoDup L -> state_ok s -> supply L (SubBalance s a v) = supply L s - if decide (a ∈ L) then v else 0.
Proof.
  intros Hnd Hs. rewrite (supply_delta L s (SubBalance s a v) a (- v) Hnd); [by case_decide; lia|].
  intros b. rewrite sub_balance by done. case_decide; lia.
Qed.

Lemma addresses_pair a b : is_address a -> is_address b -> Forall is_address [a; b].
Proof. intros Ha Hb. apply Forall_cons_2; [done|]. by apply Forall_singleton. Qed.

Lemma transfer_no_mint s a b v : state_ok s -> is_address a -> is_address b -> 0 <= v <= GetBalance s a -> no_mint s (kernel_Transfer s a b v).
Proof.
  intros Hs Ha Hb Hv. exists [a; b]. split; [by apply addresses_pair|]. intros L Hnd _ Hsub. unfold kernel_Transfer.
  rewrite supply_add; [|done|by apply sub_ok]. rewrite supply_sub by done.
  rewrite !decide_True by (apply Hsub; clear; set_solver). lia.
Qed.

Lemma suicide_no_mint s a b : state_ok s -> is_address a -> is_address b -> no_mint s (Suicide (AddBalance s b (GetBalance s a)) a).
Proof.
  intros Hs Haa Hb. pose proof (balance_nonneg s a Hs Haa) as Ha. pose proof (add_ok s b _ Hs Hb Ha) as Hs1.
  exists [a; b]. split; [by apply addresses_pair|]. intros L Hnd _ Hsub.
  rewrite (supply_delta L (AddBalance s b (GetBalance s a)) _ a (- GetBalance (AddBalance s b (GetBalance s a)) a) Hnd).
  - rewrite supply_add by done. rewrite !decide_True by (apply Hsub; clear; set_solver). rewrite add_balance by done. case_decide; lia.
  - intros c. rewrite suicide_balance by done. case_decide; subst; lia.
Qed.

Lemma evolves_no_mint ro s s' : evolves ro s s' -> state_ok s -> no_mint s s'.
Proof.
  induction 1 as [s|s1 s2 s3 E1 IH1 _ IH2|s h d|s a Ha Hx|s a b v Ha Hb Hv Hro|s|s s2 s3 He IH E|s a Hro Ha|s a n Hro Ha Hn
    |s a c Hro Ha Hc|s a k v Hro Ha Hkw Hv|s g Hro Hg|s s' g Hro Hg E|s l Hro|s a b Hro Ha Hb]; intros Hs.
  - done.
  - etrans; [by apply IH1|]. apply IH2. by eapply evolves_ok.
  - apply no_mint_same. intros b. apply preimage_balance.
  - apply no_mint_same. intros b. by apply create_balance.
  - by apply transfer_no_mint.
  - apply no_mint_same. intros b. apply eq_balance, snapshot_eq.
  - apply no_mint_same. intros b. destruct (revert_ok s s2 Hs (evolves_weaken _ _ _ He)) as (s3' & E' & Heq).
    assert (s3' = s3) as -> by congruence. by apply eq_balance.
  - apply no_mint_same. intros b. by apply create_balance.
  - apply no_mint_same. intros b. by apply nonce_balance.
  - apply no_mint_same. intros b. by apply code_balance.
  - apply no_mint_same. intros b. by apply storage_balance.
  - apply no_mint_same. intros b. apply refund_balance.
  - apply no_mint_same. intros b. by eapply unrefund_balance.
  - apply no_mint_same. intros b. apply log_balance.
  - by apply suicide_no_mint.
Qed.
End supply.

(** ** [kernel/state] keeps the laws *)

Section ledger.
Context {D T : Type} `{Database D T} (cr : Crypto) (Hk : forall d, zlen (keccak256 cr d) = 32).
Import State.
Local Abbreviation SDB := (@State.StateDB D T).
#[local] Hint Extern 0 (VmInterface.StateDB _) => exact (state_db cr) : typeclass_instances.

Lemma acts_balance_at (s s' : SDB) a g b : acts cr s s' a g ->
  VmInterface.GetBalance s' b = if decide (b = a) then Balance (data g) else VmInterface.GetBalance s b.
Proof.
  intros A. rewrite !(GetBalance_spec cr). destruct (decide (b = a)) as [->|Hb].
  - pose proof (ac_at _ _ _ _ _ A) as Ha. destruct (lookup_object cr s' a) as [o|]; [|done]. apply Ha.
  - by rewrite (ac_other _ _ _ _ _ A).
Qed.

Lemma state_ledger : @LedgerLaws SDB (state_db cr) cr (state_laws cr Hk).
Proof.
  split.
  - intros s a v [Hs Had] Ha Hv. split; [|by apply AddBalance_addressed]. eapply (AddBalance_ok cr Hk); [done|done|].
    apply Z.add_nonneg_nonneg; [by apply (balance_ok cr Hk)|done].
  - intros s a v [Hs Had] Ha [_ Hv]. split; [by eapply (SubBalance_ok cr Hk)|by apply SubBalance_addressed].
  - intros s a v b [Hs _]. etrans; [exact (acts_balance_at s _ _ _ b (AddBalance_acts cr s a v (wo_wf _ _ Hs)))|].
    cbn [Balance data setBalance with_data]. rewrite <- (GetBalance_new cr). case_decide; [by subst|lia].
  - intros s a v b [Hs _]. etrans; [exact (acts_balance_at s _ _ _ b (SubBalance_acts cr s a v (wo_wf _ _ Hs)))|].
    cbn [Balance data setBalance with_data]. rewrite <- (GetBalance_new cr). case_decide; [by subst|lia].
  - intros s a b [Hs _]. pose proof (Suicide_acts cr s a (wo_wf _ _ Hs)) as Hsu. destruct (lookup_object cr s a) as [o|] eqn:E.
    + exact (acts_balance_at s _ _ _ b (proj1 Hsu)).
    + destruct Hsu as [L _]. rewrite !(GetBalance_spec cr). cbn. rewrite (ld_lookup _ _ _ L). case_decide as Hb; [|done]. subst. by rewrite E.
  - intros s a c b [Hs _] Ha. eapply acts_balance; [apply SetCode_acts; [apply Hs|apply (get_or_new_ok cr Hk s a Hs Ha)]|].
    by rewrite (GetBalance_new cr).
  - intros s a k v b [Hs _]. eapply acts_balance; [apply SetState_acts, Hs|]. by rewrite (GetBalance_new cr).
  - intros s g b. by rewrite !(GetBalance_spec cr).
  - intros s s' g b E. cbn in E. unfold State.SubRefund in E. case_match; [done|]. injection E as <-. by rewrite !(GetBalance_spec cr).
  - intros s l b. by rewrite !(GetBalance_spec cr).
  - intros s h d b. rewrite !(GetBalance_spec cr). cbn. unfold State.AddPreimage. by case_match.
  - intros s [Hs _]. apply Hs.
Qed.
End ledger.
