(* ===== verification/MemDb.v ===== *)
(** * An in-memory database

    Association lists in place of tries, and simple functions in place of the
    cryptographic primitives: a closed environment in which the model runs and
    in which the hypotheses of the theorems hold. *)
From S2P Require Import Prelude CommonMath Params RlpEncode RlpDecode Opcodes VmBase VmInterface VmLaws.
From S2P Require Import Precompiles Evm GasTable Instructions JumpTable Interpreter VmInvariant StateAccount.
From S2P Require Import StateModel StateFacts StateKeys StateInstance EvmFacts.
From stdpp Require Import base numbers list gmap.
From Stdlib Require Import ZArith Lia.
#[local] Open Scope Z_scope.

Definition MemTrie : Type := list (list byte * list byte).

Fixpoint mt_get (t : MemTrie) (k : list byte) : list byte :=
  match t with
  | [] => []
  | (k', v) :: t => if bool_decide (k' = k) then v else mt_get t k
  end.
Fixpoint mt_delete (t : MemTrie) (k : list byte) : MemTrie :=
  match t with
  | [] => []
  | (k', v) :: t => if bool_decide (k' = k) then mt_delete t k else (k', v) :: mt_delete t k
  end.
Definition mt_put (t : MemTrie) (k v : list byte) : MemTrie := (k, v) :: mt_delete t k.

Record MemDB := mkMemDB { md_tries : list (Hash * MemTrie); md_codes : list (Hash * list byte) }.

Fixpoint md_find {A} (l : list (Hash * A)) (h : Hash) : option A :=
  match l with
  | [] => None
  | (h', a) :: l => if h' =? h then Some a else md_find l h
  end.

(** A hash of 32 bytes. *)
Definition mem_hash (b : list byte) : list byte := z2be 32 ((be2z b + zlen b * 2 ^ 240) mod (2 ^ 256 - 189)).
Definition mt_hash (t : MemTrie) : Hash := be2z (mem_hash (concat (map (fun p => fst p ++ snd p) t))).

#[export] Instance mem_database : Database MemDB MemTrie := {|
  TryGet t k := (mt_get t k, None);
  TryUpdate t k v := (mt_put t k v, None);
  TryDelete t k := (mt_delete t k, None);
  Trie_Hash := mt_hash;
  Trie_Commit t d := (Good (mt_hash t), t, mkMemDB ((mt_hash t, t) :: md_tries d) (md_codes d));
  OpenTrie d h :=
    if h =? 0 then Good []
    else match md_find (md_tries d) h with Some t => Good t | None => Err (missing_node h) end;
  OpenStorageTrie d _ h :=
    if h =? 0 then Good []
    else match md_find (md_tries d) h with Some t => Good t | None => Err (missing_node h) end;
  OpenEmptyTrie _ _ := [];
  CopyTrie _ t := t;
  ContractCode d _ h :=
    match md_find (md_codes d) h with Some c => (Some c, None) | None => (None, Some (missing_node h)) end;
  ContractCodeSize d _ h :=
    match md_find (md_codes d) h with Some c => (zlen c, None) | None => (0, Some (missing_node h)) end;
  InsertBlob d h c := mkMemDB (md_tries d) ((h, c) :: md_codes d)
|}.

Definition mem_crypto : Crypto := {|
  keccak256 := mem_hash;
  sha256 := mem_hash;
  ripemd160 d := take 20 (mem_hash d);
  secp256k1_recover _ _ := None;
  G1 := unit;
  G2 := unit;
  G1_Unmarshal _ := None;
  G2_Unmarshal _ := None;
  G1_Add _ _ := tt;
  G1_ScalarMult _ _ := tt;
  G1_Marshal _ := replicate 64 Byte.x00;
  PairingCheck _ _ := true
|}.

Definition MemState : Type := @State.StateDB MemDB MemTrie.
#[export] Instance mem_state_db : StateDB MemState := state_db mem_crypto.

Lemma mem_hash_length d : zlen (mem_hash d) = 32.
Proof. unfold zlen, mem_hash. by rewrite length_z2be. Qed.

#[export] Instance mem_state_laws : StateDBLaws MemState mem_crypto := state_laws mem_crypto mem_hash_length.

Definition empty_state : MemState :=
  State.mkStateDB (mkMemDB [] []) [] ∅ ∅ None 0 0 0 0 ∅ 0 ∅ State.newJournal [] 0.

Lemma empty_world_ok cr (Hk : forall d, zlen (keccak256 cr d) = 32) : state_ok (StateDBLaws := state_laws cr Hk) empty_state.
Proof.
  split; [split; [split| |]|split].
  - done.
  - done.
  - apply Forall_nil_2.
  - apply Forall_nil_2.
  - done.
  - done.
  - done.
  - intros e a He. by apply not_elem_of_nil in He.
  - done.
Qed.

Lemma empty_state_ok : state_ok (StateDBLaws := mem_state_laws) empty_state.
Proof. apply empty_world_ok. Qed.

(** The environment of a message in a block of a given chain. *)
Definition mem_env (config : ChainConfig) (number : Z) : Env MemState := {|
  CanTransfer := kernel_CanTransfer;
  Transfer := kernel_Transfer;
  GetHash _ := 0;
  Origin := 0x1000;
  GasPrice := 1;
  Coinbase := 0x2000;
  GasLimit := 8000000;
  BlockNumber := number;
  Time := 1500000000;
  Difficulty := 131072;
  chainConfig := config;
  NoRecursion := false;
  EnablePreimageRecording := false;
  abort _ := false;
  crypto := mem_crypto
|}.

Lemma mem_env_ok config number : env_ok (mem_env config number).
Proof. by split. Qed.

(** A world with a funded sender and a contract. *)
Definition sender : Address := 0x1000.
Definition callee : Address := 0x3000.
Definition example_world (code : list byte) : MemState :=
  SetCode (AddBalance empty_state sender 1000000) callee code.

Lemma example_world_ok code : zlen code < 2 ^ 62 -> state_ok (StateDBLaws := mem_state_laws) (example_world code).
Proof.
  intros Hc. eapply (evolves_ok false); [|apply ev_code; [done|done|exact Hc]].
  destruct empty_state_ok as [Hw Ha]. split; [|by apply AddBalance_addressed].
  apply (AddBalance_ok mem_crypto mem_hash_length); [exact Hw|by vm_compute|vm_compute; discriminate].
Qed.

Definition example_evm (code : list byte) : EVM MemState := fresh_evm (example_world code).
