(* ===== verification/StateTransition.v ===== *)
(** * Applying a message ([kernel/state_transition.go], [kernel/gaspool.go])

    The gas pool of a block, the intrinsic gas of a message and [TransitionDb]:
    buying gas, running the message, refunding gas and paying the miner. *)
From S2P Require Import Prelude CommonMath Params Opcodes VmBase VmInterface VmLaws Precompiles Evm GasTable.
From S2P Require Import Instructions JumpTable Interpreter VmInvariant EvmFacts CallFacts InterpreterFacts Supply.
From S2P Require Import StateInstance MemDb.
From stdpp Require Import base numbers list gmap.
From Stdlib Require Import ZArith Lia.
#[local] Open Scope Z_scope.

Inductive txerror : Type :=
| ErrGasLimitReached
| ErrNonceTooHigh
| ErrNonceTooLow
| errInsufficientBalanceForGas
| vmErr (e : vmerror).

(** ** The gas pool *)

Definition GasPool : Type := Z.
Definition AddGas (gp : GasPool) (amount : Z) : outcome GasPool :=
  if MaxUint64 - amount <? gp then Panic else Ok (gp + amount).
Definition SubGas (gp : GasPool) (amount : Z) : result txerror GasPool :=
  if gp <? amount then Err ErrGasLimitReached else Good (gp - amount).

(** ** Messages *)

Record Message := mkMessage {
  msg_From : Address;
  msg_To : option Address;
  msg_GasPrice : Z;
  msg_Gas : Z;
  msg_Value : Z;
  msg_Nonce : Z;
  msg_CheckNonce : bool;
  msg_Data : list byte
}.

(** The loop that counts the non-zero bytes. *)
Definition nonzero (data : list byte) : Z :=
  foldl (fun nz byt => if b2z byt =? 0 then nz else nz + 1) 0 data.

Definition IntrinsicGas (data : list byte) (contractCreation homestead : bool) : result txerror Z :=
  let gas := if contractCreation && homestead then TxGasContractCreation else TxGas in
  if 0 <? zlen data then
    let nz := nonzero data in
    if (MaxUint64 - gas) / TxDataNonZeroGas <? nz then Err (vmErr ErrOutOfGas)
    else
      let gas := u64 (gas + nz * TxDataNonZeroGas) in
      let z := u64 (zlen data - nz) in
      if (MaxUint64 - gas) / TxDataZeroGas <? z then Err (vmErr ErrOutOfGas)
      else Good (u64 (gas + z * TxDataZeroGas))
  else Good gas.

Section transition.
Context {S : Type} `{StateDB S} (env : Env S).

Record StateTransition := mkST {
  gp : GasPool;
  msg : Message;
  gas : Z;
  gasPrice : Z;
  initialGas : Z;
  st_value : Z;
  st_data : list byte;
  st_evm : EVM S
}.

Definition st_state (st : StateTransition) : S := statedb (st_evm st).
Definition with_gas (st : StateTransition) (g : Z) : StateTransition :=
  mkST (gp st) (msg st) g (gasPrice st) (initialGas st) (st_value st) (st_data st) (st_evm st).
Definition with_gp (st : StateTransition) (p : GasPool) : StateTransition :=
  mkST p (msg st) (gas st) (gasPrice st) (initialGas st) (st_value st) (st_data st) (st_evm st).
Definition with_initialGas (st : StateTransition) (g : Z) : StateTransition :=
  mkST (gp st) (msg st) (gas st) (gasPrice st) g (st_value st) (st_data st) (st_evm st).
Definition with_st_evm (st : StateTransition) (e : EVM S) : StateTransition :=
  mkST (gp st) (msg st) (gas st) (gasPrice st) (initialGas st) (st_value st) (st_data st) e.
Definition with_state (st : StateTransition) (s : S) : StateTransition :=
  with_st_evm st (set_statedb (st_evm st) s).

Definition NewStateTransition (e : EVM S) (m : Message) (p : GasPool) : StateTransition :=
  mkST p m 0 (msg_GasPrice m) 0 (msg_Value m) (msg_Data m) e.

Definition to (st : StateTransition) : Address :=
  match msg_To (msg st) with None => 0 | Some a => a end.

Definition useGas (st : StateTransition) (amount : Z) : result txerror StateTransition :=
  if gas st <? amount then Err (vmErr ErrOutOfGas) else Good (with_gas st (gas st - amount)).

Definition buyGas (st : StateTransition) : result txerror StateTransition :=
  let mgval := msg_Gas (msg st) * gasPrice st in
  if GetBalance (st_state st) (msg_From (msg st)) <? mgval then Err errInsufficientBalanceForGas
  else
    try! p := SubGas (gp st) (msg_Gas (msg st)) in
    let st := with_gas (with_gp st p) (u64 (gas st + msg_Gas (msg st))) in
    let st := with_initialGas st (msg_Gas (msg st)) in
    Good (with_state st (SubBalance (st_state st) (msg_From (msg st)) mgval)).

Definition preCheck (st : StateTransition) : result txerror StateTransition :=
  if msg_CheckNonce (msg st) then
    let nonce := GetNonce (st_state st) (msg_From (msg st)) in
    if nonce <? msg_Nonce (msg st) then Err ErrNonceTooHigh
    else if msg_Nonce (msg st) <? nonce then Err ErrNonceTooLow
    else buyGas st
  else buyGas st.

Definition gasUsed (st : StateTransition) : Z := u64 (initialGas st - gas st).

Definition refundGas (st : StateTransition) : outcome StateTransition :=
  let refund := gasUsed st / 2 in
  let refund := if GetRefund (st_state st) <? refund then GetRefund (st_state st) else refund in
  let st := with_gas st (u64 (gas st + refund)) in
  let remaining := gas st * gasPrice st in
  let st := with_state st (AddBalance (st_state st) (msg_From (msg st)) remaining) in
  let! p := AddGas (gp st) (gas st) in
  Ok (with_gp st p).

(** The message call or creation: result bytes and error of the machine. *)
Definition execute_message (run : RunFunc S) (st : StateTransition) : outcome (list byte * option vmerror * StateTransition) :=
  let sender := AccountRef (msg_From (msg st)) in
  match msg_To (msg st) with
  | None =>
      let! ((ret, _, leftOver, vmerr), e) := Create env run (st_evm st) sender (st_data st) (gas st) (st_value st) in
      Ok (ret, vmerr, with_gas (with_st_evm st e) leftOver)
  | Some _ =>
      let nonce := GetNonce (st_state st) (ref_Address sender) in
      let st := with_state st (SetNonce (st_state st) (msg_From (msg st)) (u64 (nonce + 1))) in
      let! ((ret, leftOver, vmerr), e) := Call env run (st_evm st) sender (to st) (st_data st) (gas st) (st_value st) in
      Ok (ret, vmerr, with_gas (with_st_evm st e) leftOver)
  end.

(** Result bytes, used gas, whether the machine failed, error. *)
Definition txresult : Type := list byte * Z * bool * option txerror.

Definition TransitionDb (run : RunFunc S) (st : StateTransition) : outcome (txresult * StateTransition) :=
  match preCheck st with
  | Err e => Ok (([], 0, false, Some e), st)
  | Good st =>
      let homestead := IsHomestead (chainConfig env) (BlockNumber env) in
      let contractCreation := bool_decide (msg_To (msg st) = None) in
      match IntrinsicGas (st_data st) contractCreation homestead with
      | Err e => Ok (([], 0, false, Some e), st)
      | Good intrinsic =>
          match useGas st intrinsic with
          | Err e => Ok (([], 0, false, Some e), st)
          | Good st =>
              let! (ret, vmerr, st) := execute_message run st in
              if bool_decide (vmerr = Some ErrInsufficientBalance)
              then Ok (([], 0, false, Some (vmErr ErrInsufficientBalance)), st)
              else
                let! st := refundGas st in
                let st := with_state st (AddBalance (st_state st) (Coinbase env) (gasUsed st * gasPrice st)) in
                Ok ((ret, gasUsed st, bool_decide (vmerr <> None), None), st)
          end
      end
  end.

Definition ApplyMessage (run : RunFunc S) (e : EVM S) (m : Message) (p : GasPool) : outcome (txresult * StateTransition) :=
  TransitionDb run (NewStateTransition e m p).

End transition.
Arguments StateTransition S : clear implicits.
Arguments mkST {S}.

(** ** Intrinsic gas *)

(** The price of the bytes of a message, one by one. *)
Definition byte_gas (b : byte) : Z := if b2z b =? 0 then TxDataZeroGas else TxDataNonZeroGas.
Definition data_gas (data : list byte) : Z := foldr (fun b g => byte_gas b + g) 0 data.

Lemma nonzero_from (data : list byte) n : foldl (fun (nz : Z) (byt : byte) => if b2z byt =? 0 then nz else nz + 1) n data = n + nonzero data.
Proof.
  unfold nonzero. revert n. induction data as [|b data IH]; intros n; cbn; [lia|].
  rewrite IH. rewrite (IH (if b2z b =? 0 then 0 else 0 + 1)). destruct (b2z b =? 0); lia.
Qed.

Lemma nonzero_cons b data : nonzero (b :: data) = (if b2z b =? 0 then 0 else 1) + nonzero data.
Proof. unfold nonzero at 1. cbn. rewrite nonzero_from. by destruct (b2z b =? 0). Qed.

Lemma nonzero_spec data : 0 <= nonzero data <= zlen data /\
  data_gas data = nonzero data * TxDataNonZeroGas + (zlen data - nonzero data) * TxDataZeroGas.
Proof.
  induction data as [|b data [IH1 IH2]]; [done|]. rewrite nonzero_cons. cbn [data_gas foldr]. fold (data_gas data).
  unfold byte_gas, zlen in *. cbn [length]. rewrite IH2. autounfold with params. destruct (b2z b =? 0); lia.
Qed.

Lemma data_gas_nonneg data : 0 <= data_gas data.
Proof. destruct (nonzero_spec data) as [Hnz ->]. autounfold with params. lia. Qed.

Definition base_gas (contractCreation homestead : bool) : Z :=
  if contractCreation && homestead then TxGasContractCreation else TxGas.

Lemma base_gas_range c h : 21000 <= base_gas c h <= 53000.
Proof. unfold base_gas. autounfold with params. destruct (c && h); lia. Qed.

Lemma div_ltb a b n : 0 < b -> 0 <= n -> (a / b <? n) = (a <? b * n).
Proof.
  intros Hb Hn. pose proof (Z.mul_div_le a b Hb). pose proof (Z.mul_succ_div_gt a b Hb).
  apply Bool.eq_iff_eq_true. rewrite !Z.ltb_lt. nia.
Qed.

Lemma IntrinsicGas_cases data c h : zlen data <= MaxUint64 ->
  IntrinsicGas data c h =
    if base_gas c h + data_gas data <=? MaxUint64 then Good (base_gas c h + data_gas data) else Err (vmErr ErrOutOfGas).
Proof.
  intros Hl. destruct (nonzero_spec data) as [Hnz ->]. pose proof (base_gas_range c h) as Hb. unfold IntrinsicGas.
  fold (base_gas c h). set (g := base_gas c h) in *. autounfold with params. unfold MaxUint64 in *.
  destruct (Z.ltb_spec 0 (zlen data)) as [Hpos|Hzero].
  - rewrite div_ltb by lia. destruct (Z.ltb_spec (18446744073709551615 - g) (68 * nonzero data)); [by rewrite (proj2 (Z.leb_gt _ _)) by lia|].
    rewrite (u64_small (g + _)) by (unfold is_u64, MaxUint64; lia). rewrite (u64_small (zlen data - _)) by (unfold is_u64, MaxUint64; lia). rewrite div_ltb by lia.
    destruct (Z.ltb_spec (18446744073709551615 - (g + nonzero data * 68)) (4 * (zlen data - nonzero data))).
    + by rewrite (proj2 (Z.leb_gt _ _)) by lia.
    + rewrite (proj2 (Z.leb_le _ _)) by lia. rewrite u64_small by (unfold is_u64, MaxUint64; lia). f_equal. lia.
  - rewrite (proj2 (Z.leb_le _ _)) by lia. f_equal. lia.
Qed.

(** The intrinsic gas of a message is the base price plus the price of each
    of its bytes, and the function reports out-of-gas exactly when that sum does
    not fit a [uint64]: no step of the computation wraps around. *)
Theorem IntrinsicGas_exact data c h : zlen data <= MaxUint64 ->
  match IntrinsicGas data c h with
  | Good g => g = base_gas c h + data_gas data /\ g <= MaxUint64
  | Err e => e = vmErr ErrOutOfGas /\ MaxUint64 < base_gas c h + data_gas data
  end.
Proof. intros Hl. rewrite IntrinsicGas_cases by done. by destruct (Z.leb_spec (base_gas c h + data_gas data) MaxUint64). Qed.

Lemma IntrinsicGas_exact_witness :
  match IntrinsicGas (map z2b [0; 1; 0; 255]) true true with
  | Good g => g = base_gas true true + data_gas (map z2b [0; 1; 0; 255]) /\ g <= MaxUint64
  | Err e => e = vmErr ErrOutOfGas /\ MaxUint64 < base_gas true true + data_gas (map z2b [0; 1; 0; 255])
  end /\ IntrinsicGas (map z2b [0; 1; 0; 255]) true true = Good 53144.
Proof. split; [apply IntrinsicGas_exact; by vm_compute|by vm_compute]. Defined.

(** ** State transitions *)

Section facts.
Context {S : Type} `{StateDB S} (env : Env S) `{!StateDBLaws S (crypto env)} `{!LedgerLaws S (crypto env)}.
Context (Henv : env_ok env).

Record message_ok (m : Message) : Prop := {
  mo_From : is_address (msg_From m);
  mo_To : forall a, msg_To m = Some a -> is_address a;
  mo_GasPrice : 0 <= msg_GasPrice m;
  mo_Gas : 0 <= msg_Gas m < max_gas;
  mo_Value : 0 <= msg_Value m;
  mo_Data : zlen (msg_Data m) < 2 ^ 62
}.

(** A transition under way: its parameters are those of the message. *)
Record st_ok (m : Message) (st : StateTransition S) : Prop := {
  so_msg : msg st = m;
  so_price : gasPrice st = msg_GasPrice m;
  so_value : st_value st = msg_Value m;
  so_data : st_data st = msg_Data m;
  so_evm : evm_ok env (st_evm st);
  so_static : static env (st_evm st) = false
}.

Lemma st_ok_gas m st g : st_ok m st -> st_ok m (with_gas st g).
Proof. intros []. by split. Qed.
Lemma st_ok_state m st s : st_ok m st -> state_ok s -> st_ok m (with_state st s).
Proof. intros [] Hs. split; try done. destruct so_evm0. by split. Qed.

(** What the machine may do to a transition. *)
Record ran (st st' : StateTransition S) : Prop := {
  rn_evolves : evolves false (st_state st) (st_state st');
  rn_gp : gp st' = gp st;
  rn_initialGas : initialGas st' = initialGas st;
  rn_gas : 0 <= gas st' <= gas st
}.

Lemma execute_message_ok fuel m st : message_ok m -> st_ok m st -> 0 <= gas st <= msg_Gas m -> msg_Gas m < Z.of_nat fuel ->
  post env (execute_message env (Run env fuel) st) (fun '(_, _, st') => st_ok m st' /\ ran st st').
Proof.
  intros [Hfrom Hto _ Hgas Hval Hdata] Hst Hg Hfuel. unfold execute_message. pose proof Hst as [Em Ep Ev Ed He Hs]. rewrite Em.
  destruct (msg_To m) as [a|] eqn:Et.
  - set (s1 := SetNonce _ _ _). assert (evolves false (st_state st) s1) as Hev by (apply ev_nonce; [done|done|apply u64_range]).
    assert (evm_ok env (st_evm (with_state st s1))) as He1 by (by eapply evm_ok_state).
    set (st1 := with_state st s1) in *. unfold to. change (msg st1) with (msg st). change (gas st1) with (gas st).
    change (st_data st1) with (st_data st). change (st_value st1) with (st_value st). rewrite Em, Et, Ev, Ed.
    pose proof (Call_ok env Henv _ _ (Run_ok env Henv fuel) (st_evm st1) (AccountRef (msg_From m)) a (msg_Data m)
      (gas st) (msg_Value m) He1 Hfrom (Hto a eq_refl) Hdata ltac:(lia) ltac:(lia) Hval ltac:(change (static env (st_evm st) = true -> msg_Value m = 0); by rewrite Hs)) as Hpost.
    destruct (Call _ _ _ _ _ _ _ _) as [[[[ret leftOver] err] e']| |]; cbn in *; [|done..].
    destruct Hpost as ([He' Hf _ Hro] & Hl & _). split; [split; try done|split; try done].
    + unfold static in *. cbn. by rewrite Hro.
    + eapply ev_trans; [exact Hev|]. by eapply evolves_weaken.
  - rewrite Ev, Ed. pose proof (Create_ok env Henv _ _ (Run_ok env Henv fuel) (st_evm st) (AccountRef (msg_From m)) (msg_Data m) (gas st) (msg_Value m)
      He Hfrom Hs ltac:(lia) ltac:(lia) Hval Hdata) as Hpost.
    destruct (Create _ _ _ _ _ _ _) as [[[[[ret addr] leftOver] err] e']| |]; cbn in *; [|done..].
    destruct Hpost as ([He' Hf _ Hro] & Hl & _). split; [split; try done|split; try done].
    unfold static in *. cbn. by rewrite Hro.
Qed.

Lemma is_u64_gas m : message_ok m -> forall g, 0 <= g <= msg_Gas m -> is_u64 g.
Proof. intros Hm g Hg. pose proof (mo_Gas _ Hm) as Hmax. unfold is_u64, MaxUint64. change max_gas with 4611686018427387904 in Hmax. lia. Qed.

(** The gas is bought: it is out of the pool, and its price out of the sender's account. *)
Record bought (m : Message) (st st1 : StateTransition S) : Prop := {
  bt_ok : st_ok m st1;
  bt_state : st_state st1 = SubBalance (st_state st) (msg_From m) (msg_Gas m * msg_GasPrice m);
  bt_afford : msg_Gas m * msg_GasPrice m <= GetBalance (st_state st) (msg_From m);
  bt_gas : gas st1 = msg_Gas m;
  bt_initialGas : initialGas st1 = msg_Gas m;
  bt_gp : gp st1 = gp st - msg_Gas m
}.

Lemma preCheck_ok m st st1 : message_ok m -> st_ok m st -> gas st = 0 -> preCheck st = Good st1 ->
  bought m st st1 /\ msg_Gas m <= gp st.
Proof.
  intros Hm Hst Hg0 E. assert (buyGas st = Good st1) as Eb.
  { unfold preCheck in E. destruct (msg_CheckNonce _); [|done]. destruct (_ <? _); [done|]. by destruct (_ <? _). }
  clear E. pose proof (so_msg _ _ Hst) as Em. pose proof (so_price _ _ Hst) as Ep. unfold buyGas, SubGas in Eb. rewrite Em, Ep, Hg0 in Eb.
  destruct (Z.ltb_spec (GetBalance (st_state st) (msg_From m)) (msg_Gas m * msg_GasPrice m)) as [|Hbal]; [done|].
  destruct (Z.ltb_spec (gp st) (msg_Gas m)) as [|Hgp]; [done|]. cbn [rbind] in Eb. injection Eb as <-. split; [|done].
  pose proof (mo_Gas _ Hm). pose proof (mo_GasPrice _ Hm).
  assert (state_ok (SubBalance (st_state st) (msg_From m) (msg_Gas m * msg_GasPrice m))) as Hs.
  { apply sub_ok; [apply (eo_state (so_evm _ _ Hst))|apply Hm|]. nia. }
  split; try done; cbn; rewrite ?Em; try done.
  - by apply (st_ok_state m (mkST _ (msg st) _ _ _ _ _ _)); [destruct Hst; by split|].
  - apply u64_small. apply (is_u64_gas m Hm). lia.
Qed.

(** What is left is given back: between the machine's left over gas and the gas bought. *)
Lemma refundGas_ok m st p : message_ok m -> st_ok m st -> initialGas st = msg_Gas m -> 0 <= gas st <= msg_Gas m ->
  gp st = p - msg_Gas m -> is_u64 p ->
  exists st' g, refundGas st = Ok st' /\ gas st <= g /\ 2 * (g - gas st) <= msg_Gas m - gas st /\
    st' = with_gp (with_gas (with_state st (AddBalance (st_state st) (msg_From m) (g * msg_GasPrice m))) g) (p - (msg_Gas m - g)).
Proof.
  intros Hm Hst Hi Hg Hp Hu. pose proof (is_u64_gas m Hm) as Hu64. unfold refundGas, gasUsed. rewrite Hi.
  rewrite (u64_small (msg_Gas m - gas st)) by (apply Hu64; lia). set (used := msg_Gas m - gas st).
  pose proof (refund_range (st_state st) (eo_state (so_evm _ _ Hst))) as Hr.
  set (refund := if GetRefund (st_state st) <? used / 2 then GetRefund (st_state st) else used / 2).
  assert (0 <= refund /\ 2 * refund <= used) as [Hr0 Hr1].
  { pose proof (Z.mul_div_le used 2 ltac:(lia)). pose proof (Z.div_pos used 2 ltac:(lia) ltac:(lia)). subst refund.
    destruct (Z.ltb_spec (GetRefund (st_state st)) (used / 2)); unfold is_u64 in Hr; lia. }
  rewrite (u64_small (gas st + refund)) by (apply Hu64; lia). cbn [gas gasPrice with_gas msg].
  rewrite (so_price _ _ Hst), (so_msg _ _ Hst). unfold AddGas. cbn [gp gas with_state with_gas with_st_evm]. rewrite Hp.
  rewrite (proj2 (Z.ltb_ge _ _)) by (unfold is_u64 in Hu; lia). cbn [obind]. eexists _, (gas st + refund).
  split; [reflexivity|]. split; [lia|]. split; [lia|]. unfold with_gp, with_gas, with_state, with_st_evm. cbn. f_equal. lia.
Qed.

Lemma no_mint_fees s0 s1 a b x y z : state_ok s0 -> is_address a -> is_address b -> 0 <= x -> 0 <= y -> 0 <= z -> y + z <= x <= GetBalance s0 a ->
  evolves false (SubBalance s0 a x) s1 -> no_mint s0 (AddBalance (AddBalance s1 a y) b z).
Proof.
  intros Hs Ha Hb Hx Hy Hz Hle Hev. pose proof (sub_ok s0 a x Hs Ha ltac:(lia)) as Hs'. pose proof (evolves_ok _ _ _ Hs' Hev) as Hs1.
  destruct (evolves_no_mint _ _ _ Hev Hs') as (L0 & HA & HL).
  exists (a :: b :: L0). split; [by repeat apply Forall_cons_2|]. intros L Hnd HAL Hsub.
  rewrite supply_add; [|done|by apply add_ok]. rewrite supply_add by done.
  specialize (HL L Hnd HAL ltac:(clear - Hsub; set_solver)). rewrite supply_sub in HL by done.
  rewrite decide_True in HL by (apply Hsub; left). rewrite !decide_True by (apply Hsub; clear; set_solver). lia.
Qed.

Lemma no_mint_paid s0 s1 a x : state_ok s0 -> is_address a -> 0 <= x <= GetBalance s0 a -> evolves false (SubBalance s0 a x) s1 -> no_mint s0 s1.
Proof.
  intros Hs Ha Hx Hev. etrans; [|apply (evolves_no_mint _ _ _ Hev); by apply sub_ok].
  exists []. split; [done|]. intros L Hnd _ _. rewrite supply_sub by done. case_decide; lia.
Qed.

(** The outcome of a transition from the pool [p] and the state [s]. *)
Definition transition_post (m : Message) (p : GasPool) (e : EVM S) (r : txresult * StateTransition S) : Prop :=
  let '((ret, used, failed, err), st) := r in
  evm_ok env (st_evm st) /\ no_mint (statedb e) (st_state st) /\
  match err with
  | None =>
      gp st = p - used /\ 0 <= used <= msg_Gas m /\
      exists g, IntrinsicGas (msg_Data m) (bool_decide (msg_To m = None)) (IsHomestead (chainConfig env) (BlockNumber env)) = Good g /\
        g <= msg_Gas m /\ g <= 2 * used
  | Some (vmErr _) => gp st = p - msg_Gas m
  | Some _ => gp st = p /\ st_evm st = e
  end.

Lemma settle_ok m st0 st1 st2 p e ret (vmerr : option vmerror) g :
  message_ok m -> is_u64 p -> bought m st0 st1 -> st_evm st0 = e -> evm_ok env e -> gp st0 = p -> st_ok m st2 ->
  IntrinsicGas (msg_Data m) (bool_decide (msg_To m = None)) (IsHomestead (chainConfig env) (BlockNumber env)) = Good g ->
  0 <= g <= msg_Gas m -> ran (with_gas st1 (gas st1 - g)) st2 ->
  post env (let! st := refundGas st2 in
            let st := with_state st (AddBalance (st_state st) (Coinbase env) (gasUsed st * gasPrice st)) in
            Ok ((ret, gasUsed st, bool_decide (vmerr <> None), None), st)) (transition_post m p e).
Proof.
  intros Hm Hp [Hst1 Es Haff Eg Ei Egp] Ee He Egp0 Hst2 Hig Hg [Hev Egp2 Ei2 Hg2]. cbn [gas gp initialGas with_gas] in *. rewrite Eg in *.
  pose proof (mo_GasPrice _ Hm) as Hpr.
  destruct (refundGas_ok m st2 p Hm Hst2) as (st3 & gl & -> & Hgl1 & Hgl2 & ->); [congruence|lia|rewrite Egp2, Egp; lia|done|].
  cbn [obind]. set (st4 := with_gp _ _). assert (gasUsed st4 = msg_Gas m - gl) as Eu.
  { unfold gasUsed, st4. cbn. rewrite Ei2, Ei. apply u64_small, (is_u64_gas m Hm). lia. }
  change (gasUsed (with_state st4 (AddBalance (st_state st4) (Coinbase env) (gasUsed st4 * gasPrice st4)))) with (gasUsed st4).
  rewrite Eu. change (gasPrice st4) with (gasPrice st2). rewrite (so_price _ _ Hst2). cbn [post transition_post].
  change (st_state st4) with (AddBalance (st_state st2) (msg_From m) (gl * msg_GasPrice m)).
  change (st_state (with_gas st1 (msg_Gas m - g))) with (st_state st1) in Hev. rewrite Es in Hev.
  assert (state_ok (AddBalance (st_state st2) (msg_From m) (gl * msg_GasPrice m))) as Hs3.
  { apply add_ok; [apply (eo_state (so_evm _ _ Hst2))|apply Hm|nia]. }
  split; [|split; [|split; [done|split; [lia|]]]].
  - split; [apply add_ok; [done|apply Henv|nia]|apply (eo_jumpdests (so_evm _ _ Hst2))].
  - rewrite <- Ee. apply (no_mint_fees _ _ _ _ (msg_Gas m * msg_GasPrice m)); [|apply Hm|apply Henv|nia|nia|nia|split; [nia|done]|done].
    rewrite Ee. apply He.
  - exists g. split; [done|]. lia.
Qed.

Lemma ApplyMessage_post fuel e m p :
  message_ok m -> evm_ok env e -> static env e = false -> is_u64 p -> msg_Gas m < Z.of_nat fuel ->
  post env (ApplyMessage env (Run env fuel) e m p) (transition_post m p e).
Proof.
  intros Hm He Hs Hp Hfuel.
  unfold ApplyMessage, TransitionDb. set (st0 := NewStateTransition e m p). assert (st_ok m st0) as Hst0 by done.
  destruct (preCheck st0) as [st1|x] eqn:E; [|].
  2: { unfold preCheck, buyGas, SubGas in E. cbn. repeat case_match; try done; by injection E as <-. }
  destruct (preCheck_ok m st0 st1 Hm Hst0 eq_refl E) as [Hb _]. pose proof Hb as [Hst1 Es Haff Eg Ei Egp]. cbn [gp st0 NewStateTransition] in Egp.
  pose proof (mo_GasPrice _ Hm) as Hpr. pose proof (mo_Gas _ Hm) as Hgas. pose proof (mo_Data _ Hm) as Hdata.
  assert (no_mint (statedb e) (st_state st1)) as Hpaid.
  { rewrite Es. apply (no_mint_paid _ _ (msg_From m) (msg_Gas m * msg_GasPrice m)); [apply He|apply Hm|split; [nia|done]|apply ev_refl]. }
  rewrite (so_msg _ _ Hst1), (so_data _ _ Hst1).
  pose proof (IntrinsicGas_cases (msg_Data m) (bool_decide (msg_To m = None)) (IsHomestead (chainConfig env) (BlockNumber env))
    ltac:(unfold MaxUint64; lia)) as Ecase.
  destruct (IntrinsicGas _ _ _) as [g|x] eqn:Eig.
  2: { destruct (_ <=? _); [done|]. injection Ecase as ->. split; [apply Hst1|done]. }
  assert (0 <= g) as Hg0. { pose proof (base_gas_range (bool_decide (msg_To m = None)) (IsHomestead (chainConfig env) (BlockNumber env))).
    pose proof (data_gas_nonneg (msg_Data m)). destruct (_ <=? _); [|done]. injection Ecase as ->. lia. }
  unfold useGas. rewrite Eg. destruct (Z.ltb_spec (msg_Gas m) g) as [|Hg]; [by split; [apply Hst1|]|].
  pose proof (execute_message_ok fuel m (with_gas st1 (msg_Gas m - g)) Hm (st_ok_gas m st1 _ Hst1) ltac:(cbn; lia) Hfuel) as Hex.
  destruct (execute_message _ _ _) as [[[ret vmerr] st2]| |]; [|done..]. destruct Hex as [Hst2 Hran]. cbn [obind].
  destruct (bool_decide_reflect (vmerr = Some ErrInsufficientBalance)) as [->|_].
  - destruct Hran as [Hev Egp2 _ _]. cbn [post transition_post]. split; [apply Hst2|]. split; [|rewrite Egp2; exact Egp].
    apply (no_mint_paid _ _ (msg_From m) (msg_Gas m * msg_GasPrice m)); [apply He|apply Hm|split; [nia|done]|].
    change (statedb e) with (st_state st0). by rewrite <- Es.
  - apply (settle_ok m st0 st1 st2 p e ret vmerr g); try done. by rewrite Eg.
Qed.

(** A message with more gas than the pool is turned down. *)
Lemma ApplyMessage_over run e m p : p < msg_Gas m ->
  exists err, ApplyMessage env run e m p = Ok (([], 0, false, Some err), NewStateTransition e m p).
Proof.
  intros Hp. unfold ApplyMessage, TransitionDb. destruct (preCheck (NewStateTransition e m p)) as [st|x] eqn:E; [|by eexists].
  exfalso. unfold preCheck, buyGas, SubGas in E. cbn [gp msg NewStateTransition] in E. rewrite (proj2 (Z.ltb_lt _ _) Hp) in E.
  cbn [rbind] in E. repeat case_match; done.
Qed.

(** C4. Applying a message terminates and accounts for gas and ether: no ether
    is minted (the fee of the miner and the refund of the sender never exceed
    what the sender prepaid, and execution only moves or burns ether); on success
    the pool has lost exactly the gas that was used, which is at most the gas of
    the message and at least half of its intrinsic gas; a message that is turned
    down before gas is bought changes nothing, and one that fails with an error
    of the machine keeps its whole gas out of the pool.  A panic is possible only
    from Constantinople on or if two codes have the same hash. *)
Theorem ApplyMessage_correct fuel e m p :
  message_ok m -> evm_ok env e -> static env e = false -> is_u64 p -> msg_Gas m < Z.of_nat fuel ->
  match ApplyMessage env (Run env fuel) e m p with
  | Ok r => transition_post m p e r
  | Panic => rules_IsConstantinople (chainRules env) = true \/ collision env
  | OutOfFuel => False
  end.
Proof. apply ApplyMessage_post. Qed.
End facts.

(** ** The theorem at work *)

#[export] Instance mem_ledger : @LedgerLaws MemState mem_state_db mem_crypto mem_state_laws := state_ledger mem_crypto mem_hash_length.

(** The sender calls [PUSH1 1 PUSH1 2 ADD STOP] with 7 wei. *)
Definition add_code : list byte := map z2b [0x60; 0x01; 0x60; 0x02; 0x01; 0x00].
Definition example_message : Message := mkMessage sender (Some callee) 2 30000 7 0 true (map z2b [1; 0]).
Definition example_env : Env MemState := mem_env MainnetChainConfig 5000000.

Lemma ApplyMessage_correct_witness :
  exists ret used st, ApplyMessage example_env (Run example_env (Z.to_nat 30001)) (example_evm add_code) example_message 8000000 =
      Ok ((ret, used, false, None), st) /\ used = 21081 /\ gp st = 8000000 - used /\ no_mint (example_world add_code) (st_state st).
Proof.
  pose proof (ApplyMessage_correct example_env (mem_env_ok _ _) (Z.to_nat 30001) (example_evm add_code) example_message 8000000
    ltac:(split; [by vm_compute|by intros a [= <-]|by vm_compute|by vm_compute|by vm_compute|by vm_compute])
    ltac:(split; [by apply (example_world_ok add_code)|done]) eq_refl ltac:(by vm_compute) ltac:(by vm_compute)) as Hc.
  assert (match ApplyMessage example_env (Run example_env (Z.to_nat 30001)) (example_evm add_code) example_message 8000000 with
          | Ok ((_, used, failed, err), _) => Some (used, failed, err) | _ => None end = Some (21081, false, None)) as Hv
    by (vm_compute; reflexivity).
  destruct (ApplyMessage _ _ _ _ _) as [[[[[ret used] failed] err] st]| |]; [|discriminate Hv..].
  injection Hv as -> -> ->. exists ret, 21081, st. destruct Hc as (_ & Hn & Hgp & _). auto.
Defined.
