(* ===== verification/ChainFacts.v ===== *)
(** * Facts about blocks, receipts and blooms

    The bloom filter of a block has no false negatives, the RLP encodings of
    [kernel/types] are lossless, and a header hash determines the header. *)
From S2P Require Import Prelude CommonMath RlpEncode RlpDecode RlpFacts StateAccount RlpTyped VmInterface ChainTypes MemDb.
From stdpp Require Import base numbers list.
From Stdlib Require Import ZArith Lia.
#[local] Open Scope Z_scope.

(** ** Blooms *)

Section bloom.
Context (cr : Crypto) (Hk : forall d, zlen (keccak256 cr d) = 32).

(** The bits of [x] are set in [y]. *)
Definition subbits (x y : Z) : Prop := Z.land y x = x.

Lemma subbits_refl x : subbits x x.
Proof. apply Z.land_diag. Qed.
Lemma subbits_trans x y z : subbits x y -> subbits y z -> subbits x z.
Proof. unfold subbits. intros H1 H2. by rewrite <- H1, Z.land_assoc, H2. Qed.
Lemma subbits_lor_l x y : subbits x (Z.lor x y).
Proof. apply Z.bits_inj'. intros n Hn. rewrite Z.land_spec, Z.lor_spec. by destruct (Z.testbit x n), (Z.testbit y n). Qed.
Lemma subbits_lor_r x y : subbits y (Z.lor x y).
Proof. rewrite Z.lor_comm. apply subbits_lor_l. Qed.

Lemma bloom_bit_ok d i : (i < 31)%nat -> exists k, bloom_bit (keccak256 cr d) i = Ok k /\ 0 <= k < BloomBitLength.
Proof.
  intros Hi. pose proof (Hk d) as Hl. unfold zlen in Hl. unfold bloom_bit.
  destruct (lookup_lt_is_Some_2 (keccak256 cr d) (S i) ltac:(lia)) as [lo ->].
  destruct (lookup_lt_is_Some_2 (keccak256 cr d) i ltac:(lia)) as [hi ->].
  eexists. split; [done|]. change 2047 with (Z.ones 11). rewrite Z.land_ones by done.
  unfold BloomBitLength, BloomByteLength. apply Z.mod_pos_bound. done.
Qed.

Lemma lor_bound a b n : 0 <= n -> 0 <= a < 2 ^ n -> 0 <= b < 2 ^ n -> 0 <= Z.lor a b < 2 ^ n.
Proof.
  intros Hn Ha Hb. split; [apply Z.lor_nonneg; lia|].
  destruct (Z.eq_dec (Z.lor a b) 0) as [->|Hne]; [lia|]. apply Z.log2_lt_pow2; [pose proof (proj2 (Z.lor_nonneg a b)); lia|].
  rewrite Z.log2_lor by lia. apply Z.max_lub_lt.
  - destruct (Z.eq_dec a 0) as [->|]; [|apply Z.log2_lt_pow2; lia]. destruct (Z.eq_dec n 0) as [->|]; [|cbn; lia].
    assert (b = 0) as -> by lia. done.
  - destruct (Z.eq_dec b 0) as [->|]; [|apply Z.log2_lt_pow2; lia]. destruct (Z.eq_dec n 0) as [->|]; [|cbn; lia].
    assert (a = 0) as -> by lia. done.
Qed.

Definition bloom_range (x : Z) : Prop := 0 <= x < 2 ^ BloomBitLength.

Lemma bloom_range_lor x y : bloom_range x -> bloom_range y -> bloom_range (Z.lor x y).
Proof. apply lor_bound. done. Qed.
Lemma bloom_range_0 : bloom_range 0.
Proof. by split. Qed.

Lemma bloom9_ok d : exists c, bloom9 cr d = Ok c /\ bloom_range c.
Proof.
  unfold bloom9. destruct (bloom_bit_ok d 0) as (k0 & -> & H0); [lia|]. destruct (bloom_bit_ok d 2) as (k1 & -> & H1); [lia|].
  destruct (bloom_bit_ok d 4) as (k2 & -> & H2); [lia|]. cbn [obind]. eexists. split; [done|].
  assert (forall k, 0 <= k < BloomBitLength -> bloom_range (Z.shiftl 1 k)) as Hs.
  { intros k Hk'. rewrite Z.shiftl_1_l. split; [apply Z.pow_nonneg; lia|]. apply Z.pow_lt_mono_r; lia. }
  repeat apply bloom_range_lor; auto using bloom_range_0.
Qed.

Lemma bloom_or_ok xs : forall bin, bloom_range bin ->
  exists c, bloom_or cr bin xs = Ok c /\ bloom_range c /\ subbits bin c /\
    forall x k, x ∈ xs -> bloom9 cr x = Ok k -> subbits k c.
Proof.
  induction xs as [|x xs IH]; intros bin Hb; cbn [bloom_or].
  - exists bin. split; [done|]. split; [done|]. split; [apply subbits_refl|]. intros ? ? []%not_elem_of_nil.
  - destruct (bloom9_ok x) as (k & E & Hk'). rewrite E. cbn [obind].
    destruct (IH (Z.lor bin k)) as (c & -> & Hc & Hs & Hx); [by apply bloom_range_lor|].
    exists c. split; [done|]. split; [done|]. split; [eapply subbits_trans; [apply subbits_lor_l|done]|].
    intros y k' [->|Hy]%elem_of_cons Ey; [|by apply Hx with y].
    rewrite E in Ey. injection Ey as <-. eapply subbits_trans; [apply subbits_lor_r|done].
Qed.

(** What a log contributes to the filter. *)
Definition log_keys (log : Log) : list (list byte) := Address_Bytes (log_Address log) :: map Hash_Bytes (log_Topics log).

Lemma logs_bloom_ok logs : forall bin, bloom_range bin ->
  exists c, logs_bloom cr bin logs = Ok c /\ bloom_range c /\ subbits bin c /\
    forall log x k, log ∈ logs -> x ∈ log_keys log -> bloom9 cr x = Ok k -> subbits k c.
Proof.
  induction logs as [|log logs IH]; intros bin Hb; cbn [logs_bloom].
  - exists bin. split; [done|]. split; [done|]. split; [apply subbits_refl|]. intros ? ? ? []%not_elem_of_nil.
  - destruct (bloom_or_ok (log_keys log) bin Hb) as (b1 & E1 & H1 & S1 & X1). unfold log_keys in E1. rewrite E1. cbn [obind].
    destruct (IH b1 H1) as (c & -> & Hc & Hs & Hx).
    exists c. split; [done|]. split; [done|]. split; [by eapply subbits_trans|].
    intros y x k [->|Hy]%elem_of_cons Hxk Ek; [|by apply (Hx y x)].
    eapply subbits_trans; [by apply (X1 x)|done].
Qed.

Lemma create_bloom_ok rs : forall bin, bloom_range bin ->
  exists c, create_bloom cr bin rs = Ok c /\ bloom_range c /\ subbits bin c /\
    forall r log x k, r ∈ rs -> log ∈ r_Logs r -> x ∈ log_keys log -> bloom9 cr x = Ok k -> subbits k c.
Proof.
  induction rs as [|r rs IH]; intros bin Hb; cbn [create_bloom].
  - exists bin. split; [done|]. split; [done|]. split; [apply subbits_refl|]. intros ? ? ? ? []%not_elem_of_nil.
  - unfold LogsBloom. destruct (logs_bloom_ok (r_Logs r) 0 bloom_range_0) as (b1 & -> & H1 & _ & X1). cbn [obind].
    destruct (IH (Z.lor bin b1)) as (c & -> & Hc & Hs & Hx); [by apply bloom_range_lor|].
    exists c. split; [done|]. split; [done|]. split; [eapply subbits_trans; [apply subbits_lor_l|done]|].
    intros y log x k [->|Hy]%elem_of_cons Hl Hxk Ek; [|by apply (Hx y log x)].
    eapply subbits_trans; [by apply (X1 log x)|]. eapply subbits_trans; [apply subbits_lor_r|done].
Qed.

Lemma BytesToBloom_ok c : bloom_range c ->
  exists b, BytesToBloom (big_Bytes c) = Ok b /\ length b = BloomByteLength /\ Bloom_Big b = c.
Proof.
  intros Hc. assert (length (big_Bytes c) <= BloomByteLength)%nat as Hl.
  { pose proof (zlen_big_Bytes c 256 Hc ltac:(lia)) as H. unfold zlen in H. unfold BloomByteLength. lia. }
  unfold BytesToBloom, Bloom_SetBytes. rewrite length_replicate, take_replicate.
  destruct (Nat.ltb_spec BloomByteLength (length (big_Bytes c))); [lia|]. eexists. split; [done|]. split.
  - rewrite length_app, length_replicate. lia.
  - unfold Bloom_Big. rewrite be2z_zeros_app, be2z_big_Bytes. apply Z.abs_eq, Hc.
Qed.

Lemma BloomLookup_sub b k x : bloom9 cr x = Ok k -> subbits k (Bloom_Big b) -> BloomLookup cr b x = Ok true.
Proof. intros E Hs. unfold BloomLookup. rewrite E. cbn [obind]. unfold subbits in Hs. rewrite Hs. by rewrite Z.eqb_refl. Qed.

Lemma CreateBloom_ok receipts : exists b, CreateBloom cr receipts = Ok b.
Proof.
  unfold CreateBloom. destruct (create_bloom_ok receipts 0 bloom_range_0) as (c & -> & Hc & _ & _). cbn [obind].
  destruct (BytesToBloom_ok c Hc) as (b & -> & _). by exists b.
Qed.

(** The bloom filter of a block's receipts is always defined, and looking up the
    address or a topic of any log of any receipt in it answers true: there are
    no false negatives. *)
Theorem CreateBloom_complete receipts :
  exists b, CreateBloom cr receipts = Ok b /\ length b = BloomByteLength /\
    forall r log x, r ∈ receipts -> log ∈ r_Logs r ->
      x = Address_Bytes (log_Address log) \/ (exists t, t ∈ log_Topics log /\ x = Hash_Bytes t) ->
      BloomLookup cr b x = Ok true.
Proof.
  unfold CreateBloom. destruct (create_bloom_ok receipts 0 bloom_range_0) as (c & -> & Hc & _ & Hx). cbn [obind].
  destruct (BytesToBloom_ok c Hc) as (b & -> & Hl & Hb). exists b. split; [done|]. split; [done|].
  intros r log x Hr Hlog Hxk. destruct (bloom9_ok x) as (k & Ek & _).
  apply (BloomLookup_sub b k x Ek). rewrite Hb. apply (Hx r log x k); try done. unfold log_keys.
  destruct Hxk as [->|(t & Ht & ->)]; [left|right]. by apply list_elem_of_fmap_2.
Qed.

Lemma lor_ge x y : 0 <= x -> 0 <= y -> x <= Z.lor x y.
Proof.
  intros Hx Hy. assert (Z.lor x y = x + Z.ldiff y x) as ->; [|pose proof (proj2 (Z.ldiff_nonneg y x)); lia].
  rewrite Z.add_nocarry_lxor.
  - apply Z.bits_inj'. intros n Hn. rewrite Z.lor_spec, Z.lxor_spec, Z.ldiff_spec. by destruct (Z.testbit x n), (Z.testbit y n).
  - apply Z.bits_inj'. intros n Hn. rewrite Z.land_spec, Z.ldiff_spec, Z.bits_0. by destruct (Z.testbit x n), (Z.testbit y n).
Qed.

(** [SetBytes] keeps the bytes in front of the copied ones; when the new value is
    not smaller than the old one, they are zero. *)
Lemma SetBytes_grows b c : length b = BloomByteLength -> be2z b <= c -> bloom_range c ->
  exists b', Bloom_SetBytes b (big_Bytes c) = Ok b' /\ length b' = BloomByteLength /\ Bloom_Big b' = c.
Proof.
  intros Hb Hle Hc. assert (length (big_Bytes c) <= BloomByteLength)%nat as Hl.
  { pose proof (zlen_big_Bytes c 256 Hc ltac:(lia)) as H. unfold zlen in H. unfold BloomByteLength. lia. }
  unfold Bloom_SetBytes. rewrite Hb. destruct (Nat.ltb_spec BloomByteLength (length (big_Bytes c))); [lia|].
  eexists. split; [done|]. split; [rewrite length_app, length_take; lia|].
  unfold Bloom_Big. rewrite be2z_app, be2z_big_Bytes, Z.abs_eq by apply Hc.
  set (n := (BloomByteLength - length (big_Bytes c))%nat).
  pose proof (be2z_big_Bytes c) as Ec. rewrite Z.abs_eq in Ec by apply Hc. pose proof (be2z_bound (big_Bytes c)) as Hbc.
  assert (be2z b = be2z (take n b) * 256 ^ zlen (big_Bytes c) + be2z (drop n b)) as Eb.
  { rewrite <- (take_drop n b) at 1. rewrite be2z_app. do 2 f_equal. unfold zlen. rewrite length_drop. unfold n. f_equal. lia. }
  pose proof (be2z_bound (take n b)). pose proof (be2z_bound (drop n b)).
  assert (be2z (take n b) = 0) by nia. lia.
Qed.

Lemma Bloom_Add_ok b d : length b = BloomByteLength ->
  exists b' k, Bloom_Add cr b d = Ok b' /\ length b' = BloomByteLength /\
    bloom9 cr (big_Bytes d) = Ok k /\ Bloom_Big b' = Z.lor (Bloom_Big b) k.
Proof.
  intros Hb. destruct (bloom9_ok (big_Bytes d)) as (k & Ek & Hk'). unfold Bloom_Add. rewrite Ek. cbn [obind].
  assert (bloom_range (be2z b)) as Hr.
  { pose proof (be2z_bound b) as H. unfold bloom_range. unfold zlen in H. rewrite Hb in H. exact H. }
  destruct (SetBytes_grows b (Z.lor (be2z b) k) Hb) as (b' & E & Hl & Hv).
  { apply lor_ge; [apply Hr|apply Hk']. }
  { by apply bloom_range_lor. }
  by exists b', k.
Qed.

(** Adding to a filter never fails, the added value is found afterwards, and
    whatever was found before is still found. *)
Theorem Bloom_Add_monotone b d (Hb : length b = BloomByteLength) :
  exists b', Bloom_Add cr b d = Ok b' /\ length b' = BloomByteLength /\ Bloom_Test cr b' d = Ok true /\
    forall x, BloomLookup cr b x = Ok true -> BloomLookup cr b' x = Ok true.
Proof.
  destruct (Bloom_Add_ok b d Hb) as (b' & k & E & Hl & Ek & Hv). exists b'. split; [done|]. split; [done|]. split.
  - apply (BloomLookup_sub b' k); [done|]. rewrite Hv. apply subbits_lor_r.
  - intros x Hx. destruct (bloom9_ok x) as (c & Ec & _). apply (BloomLookup_sub b' c x Ec). rewrite Hv.
    apply subbits_trans with (Bloom_Big b); [|apply subbits_lor_l].
    unfold BloomLookup in Hx. rewrite Ec in Hx. cbn [obind] in Hx. injection Hx as Hx%Z.eqb_eq. exact Hx.
Qed.

End bloom.

(** ** Encodings *)

(** A receipt as the processor makes it: with a status, or with a state root, in which case
    the status is not encoded. *)
Record receipt_ok (r : Receipt) : Prop := {
  rc_status : r_PostState r = [] /\ (r_Status r = ReceiptStatusFailed \/ r_Status r = ReceiptStatusSuccessful) \/ length (r_PostState r) = HashLength;
  rc_gas : is_u64 (r_CumulativeGasUsed r) /\ is_u64 (r_GasUsed r);
  rc_bloom : length (r_Bloom r) = BloomByteLength;
  rc_fields : valid_as hash_rlp (r_TxHash r) /\ valid_as address_rlp (r_ContractAddress r);
  rc_logs : Forall (fun l => valid_as address_rlp (log_Address l) /\ Forall (fun h => valid_as hash_rlp h) (log_Topics l) /\
    is_u64 (log_BlockNumber l) /\ valid_as hash_rlp (log_TxHash l) /\ is_u64 (log_TxIndex l) /\
    valid_as hash_rlp (log_BlockHash l) /\ is_u64 (log_Index l)) (r_Logs r)
}.

Definition kept_status (r : Receipt) : Z := match r_PostState r with [] => r_Status r | _ => 0 end.

(** What consensus is about: the address, topics and data of the logs, the gas up to the
    transaction, the filter, and the state root or the status. *)
Definition log_consensus (l : Log) : Log := mkLog (log_Address l) (log_Topics l) (log_Data l) 0 0 0 0 0 false.
Definition receipt_consensus (r : Receipt) : Receipt :=
  mkReceipt (r_PostState r) (kept_status r) (r_CumulativeGasUsed r) (r_Bloom r) (map log_consensus (r_Logs r)) 0 0 0.

(** What the database keeps: all but a status beside a state root, and the mark of a log that
    was removed. *)
Definition log_stored (l : Log) : Log :=
  mkLog (log_Address l) (log_Topics l) (log_Data l) (log_BlockNumber l) (log_TxHash l) (log_TxIndex l) (log_BlockHash l) (log_Index l) false.
Definition receipt_stored (r : Receipt) : Receipt :=
  mkReceipt (r_PostState r) (kept_status r) (r_CumulativeGasUsed r) (r_Bloom r) (map log_stored (r_Logs r))
    (r_TxHash r) (r_ContractAddress r) (r_GasUsed r).

Lemma kept_encoding r r' : r_PostState r' = r_PostState r -> r_Status r' = kept_status r -> statusEncoding r' = statusEncoding r.
Proof. unfold statusEncoding, kept_status. intros -> ->. by destruct (r_PostState r). Qed.

Lemma kept_valid r : receipt_ok r -> (r_PostState r = [] /\ (kept_status r = ReceiptStatusFailed \/ kept_status r = ReceiptStatusSuccessful)) \/
  (length (r_PostState r) = HashLength /\ kept_status r = 0).
Proof. intros [[[E Hs]|Hl] _ _ _ _]; unfold kept_status; [left; by rewrite E|right]. split; [done|]. by destruct (r_PostState r). Qed.

Lemma receipt_consensus_val r : rlp_val (receipt_consensus r) = rlp_val r /\ (receipt_ok r -> rlp_valid (receipt_consensus r)).
Proof.
  split.
  - cbn [rlp_val receipt_rlp]. rewrite (kept_encoding r (receipt_consensus r) eq_refl eq_refl). do 5 f_equal. cbn. by rewrite map_map.
  - intros Hr. pose proof (kept_valid r Hr) as Hk. destruct Hr as [_ [Hg _] Hb _ Hl]. split; [exact Hk|]. split; [done|]. split; [done|]. split; [|done].
    cbn [r_Logs receipt_consensus]. rewrite Forall_fmap. eapply Forall_impl; [exact Hl|]. cbn. tauto.
Qed.

Lemma receipt_stored_val r : val_as receipt_storage_rlp (receipt_stored r) = val_as receipt_storage_rlp r /\
  (receipt_ok r -> valid_as receipt_storage_rlp (receipt_stored r)).
Proof.
  split.
  - cbn [rlp_val receipt_storage_rlp]. rewrite (kept_encoding r (receipt_stored r) eq_refl eq_refl). do 7 f_equal. cbn. by rewrite map_map.
  - intros Hr. pose proof (kept_valid r Hr) as Hk. destruct Hr as [_ [Hg Hu] Hb [Ht Ha] Hl]. split; [exact Hk|]. repeat (split; [done|]). split; [|done].
    cbn [r_Logs receipt_stored]. rewrite Forall_fmap. eapply Forall_impl; [exact Hl|]. cbn. tauto.
Qed.

(** C27. What [EncodeRLP] writes for a block or a transaction decodes to the same value with
    nothing left over.  A receipt decodes to its consensus fields, and the form for the database
    to the whole receipt, with two exceptions: the status of a receipt that has a state root, and
    the mark of a removed log.  The encodings are shorter than [2 ^ 64] bytes. *)
Theorem wire_roundtrip (b : Block) (tx : Transaction) (r : Receipt)
    (Hb : rlp_valid b) (Htx : rlp_valid tx) (Hr : receipt_ok r)
    (Hsize : zlen (enc_val (rlp_val b)) <= MaxUint64 /\ zlen (enc_val (rlp_val tx)) <= MaxUint64 /\
             zlen (enc_val (rlp_val r)) <= MaxUint64 /\ zlen (enc_val (val_as receipt_storage_rlp r)) <= MaxUint64) :
  (exists e, EncodeToBytes (rlp_val b) = Good e /\ DecodeBytesOf rlp_dec e = Ok (Good b)) /\
  (exists e, EncodeToBytes (rlp_val tx) = Good e /\ DecodeBytesOf rlp_dec e = Ok (Good tx)) /\
  (exists e, EncodeToBytes (rlp_val r) = Good e /\ DecodeBytesOf rlp_dec e = Ok (Good (receipt_consensus r))) /\
  (exists e, EncodeToBytes (val_as receipt_storage_rlp r) = Good e /\
             DecodeBytesOf (dec_as receipt_storage_rlp) e = Ok (Good (receipt_stored r))).
Proof.
  destruct Hsize as (S1 & S2 & S3 & S4). destruct (receipt_consensus_val r) as [E3 V3], (receipt_stored_val r) as [E4 V4].
  rewrite <- E3 in S3 |- *. rewrite <- E4 in S4 |- *.
  destruct (rlp_roundtrip b Hb S1) as (e1 & ? & _ & ?). destruct (rlp_roundtrip tx Htx S2) as (e2 & ? & _ & ?).
  destruct (rlp_roundtrip (receipt_consensus r) (V3 Hr) S3) as (e3 & ? & _ & ?).
  destruct (@rlp_roundtrip _ _ receipt_storage_laws (receipt_stored r) (V4 Hr) S4) as (e4 & ? & _ & ?).
  split_and!; eexists; split; eassumption.
Qed.

Definition example_tx : Transaction := mkTransaction 7 20 21000 (Some 0xabc) 1000 [z2b 1; z2b 0] 37 5 6.
Definition example_header : Header :=
  mkHeader 1 2 3 4 5 6 (replicate 256 Byte.x00) 131072 10 8000000 21000 1500000000 [z2b 9] 0 (replicate 8 Byte.x00).
Definition example_block : Block := mkBlock example_header [example_header] [example_tx; example_tx].
Definition example_log : Log := mkLog 0xabc [17; 18] [z2b 3] 0 0 0 0 0 false.
Definition example_receipt : Receipt := mkReceipt [] 1 21000 (replicate 256 Byte.x00) [example_log] 0 0 0.
(** A receipt from before Byzantium, with its derived fields. *)
Definition example_mined : Receipt :=
  mkReceipt (replicate 32 (z2b 7)) 1 21000 (replicate 256 Byte.x00) [mkLog 5 [17] [z2b 3] 10 11 0 12 3 false] 11 0 21000.

Lemma example_block_valid : rlp_valid example_block.
Proof.
  assert (rlp_valid example_header /\ rlp_valid example_tx) as [Hh Ht] by (vm_compute; intuition discriminate).
  split; [done|]. by repeat constructor.
Qed.
Lemma example_tx_valid : rlp_valid example_tx.
Proof. vm_compute. intuition discriminate. Qed.
Lemma example_mined_ok : receipt_ok example_mined.
Proof.
  split; [by right|by vm_compute|done|by vm_compute|]. apply Forall_singleton. cbn. unfold is_u64.
  repeat (first [split | apply List.Forall_cons | apply List.Forall_nil]); try done; cbn; lia.
Qed.

Lemma wire_roundtrip_witness : exists e, EncodeToBytes (rlp_val example_mined) = Good e /\
  DecodeBytesOf rlp_dec e = Ok (Good (mkReceipt (replicate 32 (z2b 7)) 0 21000 (replicate 256 Byte.x00) [mkLog 5 [17] [z2b 3] 0 0 0 0 0 false] 0 0 0)).
Proof.
  apply (wire_roundtrip example_block example_tx example_mined example_block_valid example_tx_valid example_mined_ok).
  vm_compute. repeat split; discriminate.
Defined.

Section binding.
Context (cr : Crypto) (Hk : forall d, zlen (keccak256 cr d) = 32).

Lemma Keccak256Hash_inj x y : Keccak256Hash cr x = Keccak256Hash cr y -> keccak256 cr x = keccak256 cr y.
Proof.
  intros E. apply be2z_inj; [|exact E]. pose proof (Hk x). pose proof (Hk y). unfold zlen in *. lia.
Qed.

(** Equal hashes are hashes of equal values, if the hash tells the two encodings apart. *)
Lemma rlpHash_binding {A} `{RlpLaws A} (a b : A) : rlp_valid a -> rlp_valid b ->
  zlen (enc_val (rlp_val a)) <= MaxUint64 -> zlen (enc_val (rlp_val b)) <= MaxUint64 ->
  (keccak256 cr (enc_val (rlp_val a)) = keccak256 cr (enc_val (rlp_val b)) -> enc_val (rlp_val a) = enc_val (rlp_val b)) ->
  rlpHash cr (rlp_val a) = rlpHash cr (rlp_val b) -> a = b.
Proof.
  intros Ha Hb La Lb Hsep E. destruct (rlp_roundtrip a Ha La) as (ea & Ea & Va & Da).
  destruct (rlp_roundtrip b Hb Lb) as (eb & Eb & Vb & Db). unfold rlpHash in E. rewrite Ea, Eb in E.
  apply Keccak256Hash_inj in E. rewrite <- Va, <- Vb in Hsep. rewrite (Hsep E) in Da. congruence.
Qed.

End binding.

Lemma CreateBloom_complete_witness : exists b, CreateBloom mem_crypto [example_receipt] = Ok b /\
  BloomLookup mem_crypto b (Address_Bytes 0xabc) = Ok true /\ BloomLookup mem_crypto b (Hash_Bytes 18) = Ok true.
Proof.
  destruct (CreateBloom_complete mem_crypto mem_hash_length [example_receipt]) as (b & E & _ & Hb). exists b. split; [exact E|].
  assert (example_receipt ∈ [example_receipt] /\ example_log ∈ r_Logs example_receipt) as [Hr Hl] by (split; left).
  split; apply (Hb example_receipt example_log); try assumption; [by left|]. right. exists 18. split; [right; left|reflexivity].
Defined.

Lemma Bloom_Add_monotone_witness : exists b, Bloom_Add mem_crypto zeroBloom 77 = Ok b /\ Bloom_Test mem_crypto b 77 = Ok true.
Proof.
  destruct (Bloom_Add_monotone mem_crypto mem_hash_length zeroBloom 77 eq_refl) as (b & E & _ & Ht & _).
  exists b. split; [exact E|exact Ht].
Defined.
