(* ===== verification/Transactions.v ===== *)
(** * Transaction signing ([kernel/types/transaction_signing.go])

    The three signers, recovery of the sender from a signature, and what a signed
    transaction is turned into for execution.  Signing is [crypto.Sign] of the
    library [secp256k1], a parameter. *)
From S2P Require Import Prelude CommonMath Params RlpEncode RlpDecode RlpFacts StateAccount RlpTyped VmInterface ChainTypes.
From S2P Require Import Opcodes VmBase StateTransition.
From stdpp Require Import base numbers list.
From Stdlib Require Import ZArith Lia.
#[local] Open Scope Z_scope.

(** ** Model *)

Inductive sigerror : Type :=
| ErrInvalidChainId
| ErrInvalidSig
| errRecover
| errInvalidPublicKey.

Inductive Signer : Type :=
| FrontierSigner
| HomesteadSigner
| EIP155Signer (chainId : Z).

Definition NewEIP155Signer (chainId : option Z) : Signer := EIP155Signer (default 0 chainId).

Definition MakeSigner (config : ChainConfig) (blockNumber : Z) : Signer :=
  if IsEIP155 config blockNumber then NewEIP155Signer (ChainID config)
  else if IsHomestead config blockNumber then HomesteadSigner
  else FrontierSigner.

Definition Signer_Equal (s s2 : Signer) : bool :=
  match s, s2 with
  | EIP155Signer c, EIP155Signer c2 => c2 =? c
  | HomesteadSigner, HomesteadSigner => true
  | FrontierSigner, FrontierSigner => true
  | _, _ => false
  end.

(** [V] is an unsigned number; [Uint64] takes its low bits. *)
Definition isProtectedV (V : Z) : bool :=
  if BitLen V <=? 8 then
    let v := u64 (Z.abs V) in negb (v =? 27) && negb (v =? 28)
  else true.

Definition deriveChainId (v : Z) : Z :=
  if BitLen v <=? 64 then
    let v := u64 (Z.abs v) in
    if (v =? 27) || (v =? 28) then 0 else u64 (v - 35) / 2
  else (v - 35) / 2.

Definition Protected (tx : Transaction) : bool := isProtectedV (tx_V tx).
Definition Tx_ChainId (tx : Transaction) : Z := deriveChainId (tx_V tx).

(** [copy(sig[e-len(b):e], b)]. *)
Definition sig_copy (sig : list byte) (e : Z) (b : list byte) : outcome (list byte) :=
  if e <? zlen b then Panic
  else Ok (take (Z.to_nat (e - zlen b)) sig ++ b ++ drop (Z.to_nat e) sig).

Section signing.
Context (cr : Crypto).

(** The fields every signature covers. *)
Definition signed_fields (tx : Transaction) : list val :=
  [ VUint (tx_AccountNonce tx);
    VBigIntPtr (Some (tx_Price tx));
    VUint (tx_GasLimit tx);
    VBytes (match tx_Recipient tx with Some a => Address_Bytes a | None => [] end);
    VBigIntPtr (Some (tx_Amount tx));
    VBytes (tx_Payload tx) ].

Definition Signer_Hash (s : Signer) (tx : Transaction) : Hash :=
  match s with
  | EIP155Signer chainId => rlpHash cr (VList (signed_fields tx ++ [VBigIntPtr (Some chainId); VUint 0; VUint 0]))
  | HomesteadSigner | FrontierSigner => rlpHash cr (VList (signed_fields tx))
  end.

Definition recoverPlain (sighash : Hash) (R S Vb : Z) (homestead : bool) : outcome (result sigerror Address) :=
  if 8 <? BitLen Vb then Ok (Err ErrInvalidSig)
  else
    let V := u64 (u64 (Z.abs Vb) - 27) mod 256 in
    if negb (ValidateSignatureValues V R S homestead) then Ok (Err ErrInvalidSig)
    else
      let sig := replicate 65 Byte.x00 in
      let! sig := sig_copy sig 32 (big_Bytes R) in
      let! sig := sig_copy sig 64 (big_Bytes S) in
      let sig := <[64%nat := z2b V]> sig in
      match secp256k1_recover cr (Hash_Bytes sighash) sig with
      | None => Ok (Err errRecover)
      | Some [] => Ok (Err errInvalidPublicKey)
      | Some (c :: pub) =>
          if b2z c =? 4 then Ok (Good (BytesToAddress (drop 12 (keccak256 cr pub))))
          else Ok (Err errInvalidPublicKey)
      end.

Definition Signer_Sender (s : Signer) (tx : Transaction) : outcome (result sigerror Address) :=
  match s with
  | FrontierSigner => recoverPlain (Signer_Hash FrontierSigner tx) (tx_R tx) (tx_S tx) (tx_V tx) false
  | HomesteadSigner => recoverPlain (Signer_Hash HomesteadSigner tx) (tx_R tx) (tx_S tx) (tx_V tx) true
  | EIP155Signer chainId =>
      if negb (Protected tx) then
        recoverPlain (Signer_Hash HomesteadSigner tx) (tx_R tx) (tx_S tx) (tx_V tx) true
      else if negb (Tx_ChainId tx =? chainId) then Ok (Err ErrInvalidChainId)
      else recoverPlain (Signer_Hash s tx) (tx_R tx) (tx_S tx) (tx_V tx - chainId * 2 - 8) true
  end.

(** [R], [S] and [V]; a signature of the wrong size panics. *)
Definition SignatureValues (s : Signer) (sig : list byte) : outcome (Z * Z * Z) :=
  match sig !! 64%nat with
  | Some c =>
      if negb (length sig =? 65)%nat then Panic
      else
        let r := be2z (take 32 sig) in
        let t := be2z (take 32 (drop 32 sig)) in
        match s with
        | EIP155Signer chainId =>
            if negb (chainId =? 0) then Ok (r, t, (b2z c + 35) mod 256 + chainId * 2)
            else Ok (r, t, (b2z c + 27) mod 256)
        | _ => Ok (r, t, (b2z c + 27) mod 256)
        end
  | None => Panic
  end.

Definition WithSignature (tx : Transaction) (signer : Signer) (sig : list byte) : outcome Transaction :=
  let! (r, s, v) := SignatureValues signer sig in
  Ok (mkTransaction (tx_AccountNonce tx) (tx_Price tx) (tx_GasLimit tx) (tx_Recipient tx) (tx_Amount tx)
        (tx_Payload tx) v r s).

(** [SignTx] with [crypto.Sign] of a private key. *)
Definition SignTx (sign : list byte -> option (list byte)) (tx : Transaction) (s : Signer) : outcome (option Transaction) :=
  match sign (Hash_Bytes (Signer_Hash s tx)) with
  | None => Ok None
  | Some sig => let! tx := WithSignature tx s sig in Ok (Some tx)
  end.

(** A transaction object with its caches [hash] and [from]. *)
Record TxObject := mkTxObject {
  obj_data : Transaction;
  obj_hash : option Hash;
  obj_from : option (Signer * Address)
}.

Definition Transaction_Hash (tx : TxObject) : Hash * TxObject :=
  match obj_hash tx with
  | Some h => (h, tx)
  | None => let v := Tx_Hash cr (obj_data tx) in (v, mkTxObject (obj_data tx) (Some v) (obj_from tx))
  end.

Definition Sender (signer : Signer) (tx : TxObject) : outcome (result sigerror Address * TxObject) :=
  let miss :=
    let! addr := Signer_Sender signer (obj_data tx) in
    match addr with
    | Err e => Ok (Err e, tx)
    | Good a => Ok (Good a, mkTxObject (obj_data tx) (obj_hash tx) (Some (signer, a)))
    end in
  match obj_from tx with
  | Some (s, from) => if Signer_Equal s signer then Ok (Good from, tx) else miss
  | None => miss
  end.

Definition AsMessage (s : Signer) (tx : TxObject) : outcome (result sigerror Message * TxObject) :=
  let d := obj_data tx in
  let! (from, tx) := Sender s tx in
  match from with
  | Err e => Ok (Err e, tx)
  | Good a => Ok (Good (mkMessage a (tx_Recipient d) (tx_Price d) (tx_GasLimit d) (tx_Amount d)
                          (tx_AccountNonce d) true (tx_Payload d)), tx)
  end.

End signing.
