(* ===== verification/TxFacts.v ===== *)
(** * Signing and recovering senders

    A signature made for a chain is accepted on that chain, by the signer's
    address, and on no other; the sender cache never changes an answer. *)
From S2P Require Import Prelude CommonMath Params RlpEncode RlpDecode RlpFacts StateAccount RlpTyped VmInterface ChainTypes.
From S2P Require Import Opcodes VmBase StateTransition MemDb Transactions.
From stdpp Require Import base numbers list.
From Stdlib Require Import ZArith Lia.
#[local] Open Scope Z_scope.

(** ** Building the signature *)

Lemma BitLen_small x k : 0 <= x < 2 ^ k -> 0 <= k -> BitLen x <= k.
Proof. intros Hx Hk. apply BitLen_le; [done|]. rewrite Z.abs_eq; lia. Qed.

Lemma BitLen_large x k : 0 <= k -> 2 ^ k <= x -> k < BitLen x.
Proof.
  intros Hk Hx. assert (0 < 2 ^ k) by (apply Z.pow_pos_nonneg; lia). pose proof (BitLen_bound x) as Hb.
  rewrite Z.abs_eq in Hb by lia. apply (Z.pow_lt_mono_r_iff 2); [lia|apply BitLen_nonneg|lia].
Qed.

Lemma big_Bytes_word x : is_word x -> zlen (big_Bytes x) <= 32.
Proof. intros Hx. apply zlen_big_Bytes; [exact Hx|lia]. Qed.

Lemma pad_big_Bytes x n : 0 <= x -> zlen (big_Bytes x) <= Z.of_nat n ->
  replicate (n - length (big_Bytes x)) Byte.x00 ++ big_Bytes x = z2be n x.
Proof.
  intros Hx Hl. unfold zlen in Hl. apply be2z_inj.
  - rewrite length_app, length_replicate, length_z2be. lia.
  - rewrite be2z_zeros_app, be2z_big_Bytes, be2z_z2be, Z.abs_eq by done. symmetry. apply Z.mod_small.
    pose proof (be2z_bound (big_Bytes x)) as Hb. rewrite be2z_big_Bytes, Z.abs_eq in Hb by done.
    split; [done|]. eapply Z.lt_le_trans; [apply Hb|]. apply Z.pow_le_mono_r; unfold zlen; lia.
Qed.

Lemma sig_bytes R S V : is_word R -> is_word S ->
  exists s1 s2, sig_copy (replicate 65 Byte.x00) 32 (big_Bytes R) = Ok s1 /\ sig_copy s1 64 (big_Bytes S) = Ok s2 /\
    <[64%nat := V]> s2 = z2be 32 R ++ z2be 32 S ++ [V].
Proof.
  intros HR HS. pose proof (big_Bytes_word R HR) as LR. pose proof (big_Bytes_word S HS) as LS.
  pose proof (zlen_nonneg (big_Bytes R)). pose proof (zlen_nonneg (big_Bytes S)).
  rewrite <- (pad_big_Bytes R 32), <- (pad_big_Bytes S 32) by (first [apply HR|apply HS|done]).
  unfold sig_copy. destruct (Z.ltb_spec 32 (zlen (big_Bytes R))); [lia|]. destruct (Z.ltb_spec 64 (zlen (big_Bytes S))); [lia|].
  unfold zlen in *. set (br := big_Bytes R) in *. set (bs := big_Bytes S) in *.
  set (p := replicate (32 - length br) Byte.x00 ++ br). set (q := replicate (32 - length bs) Byte.x00 ++ bs).
  assert (length p = 32%nat) as Hp by (unfold p; rewrite length_app, length_replicate; lia).
  assert (length q = 32%nat) as Hq by (unfold q; rewrite length_app, length_replicate; lia).
  exists (p ++ replicate 33 Byte.x00), (p ++ q ++ [Byte.x00]). split; [|split].
  - f_equal. replace (Z.to_nat (32 - Z.of_nat (length br))) with (32 - length br)%nat by lia.
    rewrite take_replicate, drop_replicate, app_assoc. unfold p. do 2 f_equal. f_equal. lia.
  - f_equal. replace (Z.to_nat (64 - Z.of_nat (length bs))) with (length p + (32 - length bs))%nat by lia.
    rewrite take_app_add, drop_app_ge, Hp, take_replicate, drop_replicate by (rewrite ?Hp; lia).
    rewrite <- app_assoc. f_equal. rewrite app_assoc. unfold q. do 2 f_equal. f_equal. lia.
  - rewrite insert_app_r_alt by lia. f_equal. by rewrite insert_app_r_alt, Hp, Hq by lia.
Qed.

Lemma secp256k1N_word : secp256k1N < two256.
Proof. done. Qed.

Section recover.
Context (cr : Crypto).

(** What a valid signature recovers to. *)
Definition recovered (hash sig : list byte) : result sigerror Address :=
  match secp256k1_recover cr hash sig with
  | None => Err errRecover
  | Some [] => Err errInvalidPublicKey
  | Some (c :: pub) => if b2z c =? 4 then Good (BytesToAddress (drop 12 (keccak256 cr pub))) else Err errInvalidPublicKey
  end.

Lemma ValidateSignatureValues_word V R S h : ValidateSignatureValues V R S h = true -> is_word R /\ is_word S.
Proof.
  unfold ValidateSignatureValues, is_word. pose proof secp256k1N_word.
  destruct (Z.ltb_spec R 1); [done|]. destruct (Z.ltb_spec S 1); [done|]. cbn [orb].
  destruct (h && (secp256k1halfN <? S)); [done|].
  destruct (Z.ltb_spec R secp256k1N), (Z.ltb_spec S secp256k1N); cbn; try done. lia.
Qed.

Lemma recoverPlain_eq sighash R S Vb h :
  recoverPlain cr sighash R S Vb h =
    if 8 <? BitLen Vb then Ok (Err ErrInvalidSig)
    else let V := u64 (u64 (Z.abs Vb) - 27) mod 256 in
         if ValidateSignatureValues V R S h
         then Ok (recovered (Hash_Bytes sighash) (z2be 32 R ++ z2be 32 S ++ [z2b V]))
         else Ok (Err ErrInvalidSig).
Proof.
  unfold recoverPlain. destruct (8 <? BitLen Vb); [done|]. cbn zeta. set (V := u64 _ mod 256).
  destruct (ValidateSignatureValues V R S h) eqn:E; [|done]. cbn [negb].
  apply ValidateSignatureValues_word in E as [HR HS].
  destruct (sig_bytes R S (z2b V) HR HS) as (s1 & s2 & -> & E2 & E3). cbn [obind]. rewrite E2. cbn [obind]. rewrite E3.
  unfold recovered. destruct (secp256k1_recover _ _ _) as [[|c pub]|]; try done. by destruct (b2z c =? 4).
Qed.

Lemma Signer_Sender_total s tx : exists r, Signer_Sender cr s tx = Ok r.
Proof.
  assert (forall hash R S V h, exists r, recoverPlain cr hash R S V h = Ok r) as H.
  { intros. rewrite recoverPlain_eq. destruct (8 <? BitLen V); [by eexists|]. cbn zeta.
    by destruct (ValidateSignatureValues _ _ _ _); eexists. }
  unfold Signer_Sender. destruct s as [| |c]; [apply H|apply H|].
  destruct (negb (Protected tx)); [apply H|]. destruct (negb (Tx_ChainId tx =? c)); [by eexists|apply H].
Qed.

Lemma Signer_Sender_address s tx a : Signer_Sender cr s tx = Ok (Good a) -> is_address a.
Proof.
  assert (forall hash R S V h, recoverPlain cr hash R S V h = Ok (Good a) -> is_address a) as H.
  { intros hash R S V h. rewrite recoverPlain_eq. destruct (8 <? BitLen V); [done|]. cbn zeta.
    destruct (ValidateSignatureValues _ _ _ _); [|done]. unfold recovered. destruct (secp256k1_recover _ _ _) as [[|c pub]|]; [done| |done].
    destruct (b2z c =? 4); [|done]. intros [= <-]. apply BytesToAddress_range. }
  unfold Signer_Sender. destruct s as [| |c]; [apply H|apply H|].
  destruct (negb (Protected tx)); [apply H|]. destruct (negb (Tx_ChainId tx =? c)); [done|apply H].
Qed.

(** High-[S] malleability is closed: when the Homestead rules accept a
    signature, the twin with [N - S] is rejected whatever its recovery id. *)
Theorem recoverPlain_not_malleable sighash R S V V' a
    (Hok : recoverPlain cr sighash R S V true = Ok (Good a)) :
  recoverPlain cr sighash R (secp256k1N - S) V' true = Ok (Err ErrInvalidSig).
Proof.
  rewrite recoverPlain_eq in *. destruct (8 <? BitLen V); [done|]. destruct (8 <? BitLen V'); [done|]. cbn zeta in *.
  destruct (ValidateSignatureValues _ R S true) eqn:E; [|done]. clear Hok.
  unfold ValidateSignatureValues in E |- *. destruct (R <? 1); [done|]. destruct (S <? 1); [done|]. cbn [orb andb] in *.
  destruct (Z.ltb_spec secp256k1halfN S) as [|Hs]; [done|]. destruct (secp256k1N - S <? 1); [done|].
  destruct (Z.ltb_spec secp256k1halfN (secp256k1N - S)) as [|Hs']; [done|].
  exfalso. assert (secp256k1N = 2 * secp256k1halfN + 1) as HN by (vm_compute; reflexivity). lia.
Qed.

(** ** The sender cache *)

Definition object_ok (tx : TxObject) : Prop :=
  (forall h, obj_hash tx = Some h -> h = Tx_Hash cr (obj_data tx)) /\
  (forall s a, obj_from tx = Some (s, a) -> Signer_Sender cr s (obj_data tx) = Ok (Good a)).

Lemma Signer_Equal_eq s s' : Signer_Equal s s' = true <-> s = s'.
Proof.
  destruct s as [| |c], s' as [| |c']; cbn; (split; [intros E|intros [=]]); subst; try done.
  - by apply Z.eqb_eq in E as ->.
  - apply Z.eqb_refl.
Qed.

(** The caches of a transaction object are transparent: as long as they were
    filled by these functions, [Sender] and [Hash] answer what the signer and
    the encoding of the data answer, and keep the caches valid. *)
Theorem caches_transparent s tx (Hok : object_ok tx) :
  (exists r tx', Sender cr s tx = Ok (r, tx') /\ Signer_Sender cr s (obj_data tx) = Ok r /\
     obj_data tx' = obj_data tx /\ object_ok tx') /\
  (exists tx', Transaction_Hash cr tx = (Tx_Hash cr (obj_data tx), tx') /\
     obj_data tx' = obj_data tx /\ object_ok tx').
Proof.
  destruct Hok as [Hh Hf]. split.
  - assert (exists r tx', (let! addr := Signer_Sender cr s (obj_data tx) in
        match addr with
        | Err e => Ok (Err e, tx)
        | Good a => Ok (Good a, mkTxObject (obj_data tx) (obj_hash tx) (Some (s, a)))
        end) = Ok (r, tx') /\ Signer_Sender cr s (obj_data tx) = Ok r /\ obj_data tx' = obj_data tx /\ object_ok tx') as Hmiss.
    { destruct (Signer_Sender_total s (obj_data tx)) as [[a|e] E]; rewrite E; cbn [obind].
      - eexists _, _. split; [done|]. split; [done|]. split; [done|]. split; [done|]. by intros ? ? [= <- <-].
      - by eexists _, tx. }
    unfold Sender. destruct (obj_from tx) as [[s' a]|] eqn:Ef; [|done].
    destruct (Signer_Equal s' s) eqn:Es; [|done]. apply Signer_Equal_eq in Es as ->.
    exists (Good a), tx. split; [done|]. split; [by apply Hf|]. split; [done|]. split; [done|].
    intros s' a' E. rewrite Ef in E. injection E as <- <-. by apply Hf.
  - unfold Transaction_Hash. destruct (obj_hash tx) as [h|] eqn:Eh.
    + rewrite (Hh h eq_refl). exists tx. split; [done|]. split; [done|]. split; [|done]. intros h' E. rewrite Eh in E. injection E as <-. by apply Hh.
    + eexists. split; [done|]. split; [done|]. split; [|done]. by intros ? [= <-].
Qed.

End recover.

(** ** Signing *)

Section signing.
Context (cr : Crypto).

(** [crypto.Sign] of a key whose uncompressed public key is [4 :: pub]: the
    documented form [R || S || V] of its signatures, with low [S], from which the
    key is recovered. *)
Definition signs_for (sign : list byte -> option (list byte)) (pub : list byte) : Prop :=
  forall hash, length hash = 32%nat -> exists R S v,
    sign hash = Some (z2be 32 R ++ z2be 32 S ++ [z2b v]) /\
    1 <= R < secp256k1N /\ 1 <= S <= secp256k1halfN /\ (v = 0 \/ v = 1) /\
    secp256k1_recover cr hash (z2be 32 R ++ z2be 32 S ++ [z2b v]) = Some (z2b 4 :: pub).

Definition address_of (pub : list byte) : Address := BytesToAddress (drop 12 (keccak256 cr pub)).

Lemma recovered_signed hash sig pub : secp256k1_recover cr hash sig = Some (z2b 4 :: pub) -> recovered cr hash sig = Good (address_of pub).
Proof. intros E. unfold recovered. by rewrite E. Qed.

Lemma Validate_signed v R S h : 1 <= R < secp256k1N -> 1 <= S <= secp256k1halfN -> v = 0 \/ v = 1 ->
  ValidateSignatureValues v R S h = true.
Proof.
  intros HR HS Hv. assert (secp256k1N = 2 * secp256k1halfN + 1) as HN by (vm_compute; reflexivity).
  unfold ValidateSignatureValues. destruct (Z.ltb_spec R 1); [lia|]. destruct (Z.ltb_spec S 1); [lia|]. cbn [orb].
  destruct (Z.ltb_spec secp256k1halfN S); [lia|]. rewrite andb_false_r.
  destruct (Z.ltb_spec R secp256k1N); [|lia]. destruct (Z.ltb_spec S secp256k1N); [|lia]. by destruct Hv as [-> | ->].
Qed.

Lemma recoverPlain_signed hash R S v pub h : 1 <= R < secp256k1N -> 1 <= S <= secp256k1halfN -> v = 0 \/ v = 1 ->
  secp256k1_recover cr (Hash_Bytes hash) (z2be 32 R ++ z2be 32 S ++ [z2b v]) = Some (z2b 4 :: pub) ->
  recoverPlain cr hash R S (27 + v) h = Ok (Good (address_of pub)).
Proof.
  intros HR HS Hv E. rewrite recoverPlain_eq. assert ((8 <? BitLen (27 + v)) = false) as -> by (destruct Hv as [-> | ->]; done).
  assert (u64 (u64 (Z.abs (27 + v)) - 27) mod 256 = v) as -> by (destruct Hv as [-> | ->]; done).
  cbn zeta. rewrite Validate_signed by done. by rewrite (recovered_signed _ _ pub).
Qed.

(** A recovery id other than 27 and 28. *)
Lemma recoverPlain_bad_V hash R S V h : 29 <= V -> recoverPlain cr hash R S V h = Ok (Err ErrInvalidSig).
Proof.
  intros HV. rewrite recoverPlain_eq. destruct (Z.ltb_spec 8 (BitLen V)) as [|Hb]; [done|].
  assert (V < 256) as Hlt.
  { destruct (Z.lt_ge_cases V 256); [done|]. pose proof (BitLen_large V 8). lia. }
  cbn zeta. rewrite Z.abs_eq by lia. rewrite (u64_small V), (u64_small (V - 27)) by (unfold is_u64, MaxUint64; lia). rewrite Z.mod_small by lia.
  unfold ValidateSignatureValues. destruct (Z.eqb_spec (V - 27) 0); [lia|]. destruct (Z.eqb_spec (V - 27) 1); [lia|].
  rewrite andb_false_r. by repeat case_match.
Qed.

Lemma SignatureValues_signed s R S v : is_word R -> is_word S -> v = 0 \/ v = 1 ->
  SignatureValues s (z2be 32 R ++ z2be 32 S ++ [z2b v]) =
    Ok (R, S, match s with EIP155Signer c => if c =? 0 then 27 + v else 35 + v + c * 2 | _ => 27 + v end).
Proof.
  intros HR HS Hv. unfold SignatureValues. set (sig := _ ++ _).
  assert (take 32 sig = z2be 32 R) as -> by (apply take_app_length'; by rewrite length_z2be).
  assert (drop 32 sig = z2be 32 S ++ [z2b v]) as -> by (apply drop_app_length'; by rewrite length_z2be).
  rewrite take_app_length' by (by rewrite length_z2be). rewrite !be2z_z2be, !Z.mod_small by (first [exact HR|exact HS]).
  assert (sig !! 64%nat = Some (z2b v)) as ->.
  { unfold sig. rewrite !lookup_app_r; rewrite ?length_z2be; try lia. done. }
  assert ((length sig =? 65)%nat = true) as -> by (unfold sig; rewrite !length_app, !length_z2be; done). cbn [negb].
  destruct s as [| |c]; [by destruct Hv as [-> | ->]..|]. destruct (Z.eqb_spec c 0); cbn [negb]; by destruct Hv as [-> | ->].
Qed.

Lemma SignTx_signed sign pub s tx : signs_for sign pub -> exists R S v tx',
  SignTx cr sign tx s = Ok (Some tx') /\ signed_fields tx' = signed_fields tx /\
  1 <= R < secp256k1N /\ 1 <= S <= secp256k1halfN /\ (v = 0 \/ v = 1) /\
  secp256k1_recover cr (Hash_Bytes (Signer_Hash cr s tx)) (z2be 32 R ++ z2be 32 S ++ [z2b v]) = Some (z2b 4 :: pub) /\
  tx_R tx' = R /\ tx_S tx' = S /\
  tx_V tx' = match s with EIP155Signer c => if c =? 0 then 27 + v else 35 + v + c * 2 | _ => 27 + v end.
Proof.
  intros Hs. destruct (Hs (Hash_Bytes (Signer_Hash cr s tx))) as (R & S & v & E & HR & HS & Hv & Er).
  { unfold Hash_Bytes. by rewrite length_z2be. }
  assert (is_word R /\ is_word S) as [WR WS].
  { assert (secp256k1N < two256 /\ secp256k1halfN < two256) by (split; vm_compute; reflexivity). unfold is_word. lia. }
  exists R, S, v. eexists. unfold SignTx, WithSignature. rewrite E, SignatureValues_signed by done. cbn [obind].
  do 8 (split; [done|]). done.
Qed.

Lemma Signer_Hash_fields s tx tx' : signed_fields tx' = signed_fields tx -> Signer_Hash cr s tx' = Signer_Hash cr s tx.
Proof. intros E. unfold Signer_Hash. by rewrite E. Qed.

Lemma protected_V c v : 0 < c -> v = 0 \/ v = 1 -> isProtectedV (35 + v + c * 2) = true /\ deriveChainId (35 + v + c * 2) = c.
Proof.
  intros Hc Hv. set (V := 35 + v + c * 2). assert (37 <= V) as HV by (unfold V; lia).
  assert ((V - 35) / 2 = c) as Hd.
  { unfold V. replace (35 + v + c * 2 - 35) with (v + c * 2) by lia. rewrite Z.div_add by done. destruct Hv as [-> | ->]; done. }
  split.
  - unfold isProtectedV. destruct (Z.leb_spec (BitLen V) 8) as [Hb|]; [|done].
    assert (V < 256). { destruct (Z.lt_ge_cases V 256); [done|]. pose proof (BitLen_large V 8). lia. }
    rewrite Z.abs_eq, u64_small by (unfold is_u64, MaxUint64; lia). destruct (Z.eqb_spec V 27); [lia|]. by destruct (Z.eqb_spec V 28); [lia|].
  - unfold deriveChainId. destruct (Z.leb_spec (BitLen V) 64) as [Hb|]; [|done].
    assert (V < 2 ^ 64). { destruct (Z.lt_ge_cases V (2 ^ 64)); [done|]. pose proof (BitLen_large V 64). lia. }
    rewrite Z.abs_eq, (u64_small V) by (unfold is_u64, MaxUint64; lia). destruct (Z.eqb_spec V 27); [lia|]. destruct (Z.eqb_spec V 28); [lia|].
    cbn [orb]. rewrite u64_small by (unfold is_u64, MaxUint64; lia). done.
Qed.

(** C14. Replay protection: a transaction signed for a chain with a positive id is
    accepted by exactly the signer of that chain, which recovers the key's
    address; every other chain answers [ErrInvalidChainId] and the signers
    without a chain id [ErrInvalidSig].  A transaction signed without a chain id
    is accepted, with the same sender, by every signer. *)
Theorem SignTx_Sender sign pub tx (Hs : signs_for sign pub) :
  (forall c, 0 < c -> exists tx', SignTx cr sign tx (EIP155Signer c) = Ok (Some tx') /\ signed_fields tx' = signed_fields tx /\
     (forall c', Signer_Sender cr (EIP155Signer c') tx' = Ok (if c' =? c then Good (address_of pub) else Err ErrInvalidChainId)) /\
     Signer_Sender cr HomesteadSigner tx' = Ok (Err ErrInvalidSig) /\
     Signer_Sender cr FrontierSigner tx' = Ok (Err ErrInvalidSig)) /\
  (exists tx', SignTx cr sign tx HomesteadSigner = Ok (Some tx') /\ SignTx cr sign tx FrontierSigner = Ok (Some tx') /\
     signed_fields tx' = signed_fields tx /\ forall s, Signer_Sender cr s tx' = Ok (Good (address_of pub))).
Proof.
  split.
  - intros c Hc. destruct (SignTx_signed sign pub (EIP155Signer c) tx Hs) as (R & S & v & tx' & E & Ef & HR & HS & Hv & Er & ER & ES & EV).
    exists tx'. split; [done|]. split; [done|]. destruct (Z.eqb_spec c 0); [lia|].
    destruct (protected_V c v Hc Hv) as [Hp Hd]. rewrite <- EV in Hp, Hd. split; [|split].
    + intros c'. unfold Signer_Sender, Protected, Tx_ChainId. rewrite Hp, Hd. cbn [negb]. rewrite (Z.eqb_sym c' c).
      destruct (Z.eqb_spec c c') as [<-|]; [|done]. cbn [negb]. rewrite (Signer_Hash_fields _ tx tx' Ef), ER, ES, EV.
      replace (35 + v + c * 2 - c * 2 - 8) with (27 + v) by lia. by apply recoverPlain_signed.
    + apply recoverPlain_bad_V. lia.
    + apply recoverPlain_bad_V. lia.
  - destruct (SignTx_signed sign pub HomesteadSigner tx Hs) as (R & S & v & tx' & E & Ef & HR & HS & Hv & Er & ER & ES & EV).
    exists tx'. split; [done|]. split; [done|]. split; [done|].
    assert (forall h, recoverPlain cr (Signer_Hash cr HomesteadSigner tx') (tx_R tx') (tx_S tx') (tx_V tx') h = Ok (Good (address_of pub))) as Hr.
    { intros h. rewrite (Signer_Hash_fields _ tx tx' Ef), ER, ES, EV. by apply recoverPlain_signed. }
    intros [| |c]; [apply Hr|apply Hr|]. cbn [Signer_Sender]. unfold Protected. rewrite EV.
    assert (isProtectedV (27 + v) = false) as -> by (destruct Hv as [-> | ->]; done). cbn [negb]. rewrite <- EV. apply Hr.
Qed.

(** With chain id zero the signature covers the chain id but the recovery does
    not: [Sender] looks at another hash than the one that was signed. *)
Lemma chain_zero_hash sign pub tx : signs_for sign pub -> exists tx', SignTx cr sign tx (EIP155Signer 0) = Ok (Some tx') /\
  Signer_Sender cr (EIP155Signer 0) tx' =
    recoverPlain cr (Signer_Hash cr HomesteadSigner tx) (tx_R tx') (tx_S tx') (tx_V tx') true.
Proof.
  intros Hs. destruct (SignTx_signed sign pub (EIP155Signer 0) tx Hs) as (R & S & v & tx' & E & Ef & HR & HS & Hv & Er & ER & ES & EV).
  exists tx'. split; [done|]. cbn in EV. cbn [Signer_Sender]. unfold Protected.
  assert (isProtectedV (tx_V tx') = false) as -> by (rewrite EV; destruct Hv as [-> | ->]; done). cbn [negb].
  by rewrite (Signer_Hash_fields HomesteadSigner tx tx' Ef).
Qed.

End signing.

(** ** A key *)

Definition toy_sign (hash : list byte) : option (list byte) :=
  Some (z2be 32 (1 + be2z hash mod (secp256k1N - 1)) ++ z2be 32 1 ++ [z2b 0]).
Definition toy_pub : list byte := [z2b 1].
Definition toy_crypto : Crypto := {|
  keccak256 := mem_hash;
  sha256 := sha256 mem_crypto;
  ripemd160 := ripemd160 mem_crypto;
  secp256k1_recover hash sig :=
    if bool_decide (toy_sign hash = Some sig) then Some (z2b 4 :: toy_pub) else Some [z2b 4; z2b 2];
  G1 := G1 mem_crypto;
  G2 := G2 mem_crypto;
  G1_Unmarshal := G1_Unmarshal mem_crypto;
  G2_Unmarshal := G2_Unmarshal mem_crypto;
  G1_Add := G1_Add mem_crypto;
  G1_ScalarMult := G1_ScalarMult mem_crypto;
  G1_Marshal := G1_Marshal mem_crypto;
  PairingCheck := PairingCheck mem_crypto
|}.
Definition toy_tx : Transaction := NewTransaction 3 0xbeef (Some 10) 21000 (Some 2) [].

Lemma toy_signs_for : signs_for toy_crypto toy_sign toy_pub.
Proof.
  intros hash Hh. exists (1 + be2z hash mod (secp256k1N - 1)), 1, 0. split; [done|].
  assert (0 <= be2z hash mod (secp256k1N - 1) < secp256k1N - 1) as Hm by (apply Z.mod_pos_bound; done).
  split; [lia|]. split; [by vm_compute|]. split; [by left|]. cbn [secp256k1_recover toy_crypto]. by rewrite bool_decide_true.
Qed.

Lemma SignTx_Sender_witness : exists tx', SignTx toy_crypto toy_sign toy_tx (EIP155Signer 1) = Ok (Some tx') /\
  Signer_Sender toy_crypto (EIP155Signer 1) tx' = Ok (Good (address_of toy_crypto toy_pub)) /\
  Signer_Sender toy_crypto (EIP155Signer 2) tx' = Ok (Err ErrInvalidChainId).
Proof.
  destruct (SignTx_Sender toy_crypto toy_sign toy_pub toy_tx toy_signs_for) as [H _].
  destruct (H 1 ltac:(lia)) as (tx' & E & _ & Hs & _). exists tx'. split; [done|]. split; [exact (Hs 1)|exact (Hs 2)].
Defined.

(** The exception: with chain id zero signing and recovering do not fit together.
    There is a key and a transaction that the key signs with the signer of chain
    zero and for which the same signer recovers another address. *)
Theorem SignTx_chain_zero : exists cr sign pub tx tx' a, signs_for cr sign pub /\
  SignTx cr sign tx (EIP155Signer 0) = Ok (Some tx') /\
  Signer_Sender cr (EIP155Signer 0) tx' = Ok (Good a) /\ a <> address_of cr pub.
Proof.
  exists toy_crypto, toy_sign, toy_pub, toy_tx. eexists _, _. split; [apply toy_signs_for|].
  split; [vm_compute; reflexivity|]. split; [vm_compute; reflexivity|]. vm_compute. discriminate.
Qed.

Definition toy_signed : Transaction := mkTransaction 3 2 21000 (Some 0xbeef) 10 [] 27 5 6.

Lemma recoverPlain_not_malleable_witness :
  recoverPlain toy_crypto 0 5 6 27 true = Ok (Good (address_of toy_crypto [z2b 2])) /\
  recoverPlain toy_crypto 0 5 (secp256k1N - 6) 28 true = Ok (Err ErrInvalidSig).
Proof.
  assert (recoverPlain toy_crypto 0 5 6 27 true = Ok (Good (address_of toy_crypto [z2b 2]))) as E by (vm_compute; reflexivity).
  split; [exact E|exact (recoverPlain_not_malleable toy_crypto 0 5 6 27 28 _ E)].
Defined.

Lemma caches_transparent_witness : exists r tx', Sender toy_crypto HomesteadSigner (mkTxObject toy_signed None None) = Ok (r, tx') /\
  obj_from tx' = Some (HomesteadSigner, address_of toy_crypto [z2b 2]) /\ object_ok toy_crypto tx'.
Proof.
  destruct (caches_transparent toy_crypto HomesteadSigner (mkTxObject toy_signed None None)) as [(r & tx' & E & _ & _ & Hok) _]; [by split|].
  exists r, tx'. split; [exact E|]. split; [|exact Hok].
  assert (Sender toy_crypto HomesteadSigner (mkTxObject toy_signed None None) =
    Ok (Good (address_of toy_crypto [z2b 2]), mkTxObject toy_signed None (Some (HomesteadSigner, address_of toy_crypto [z2b 2])))) as E'
    by (vm_compute; reflexivity).
  rewrite E in E'. injection E' as _ ->. reflexivity.
Defined.
