(* ===== verification/TxList.v ===== *)
(** * The transaction lists of the pool ([kernel/tx_list.go])

    [txSortedMap]: the transactions of an account by nonce, with a heap of the
    nonces and a cached sorted slice; [txList] on top of it with the caps that
    let [Filter] return early; [txPricedList]: a heap by price that is cleaned
    of removed transactions lazily.  The order in which Go ranges over a map is
    a parameter. *)
From S2P Require Import Prelude Heap CommonMath VmInterface ChainTypes.
From stdpp Require Import base numbers list gmap sorting.
From Stdlib Require Import ZArith Lia.
#[local] Open Scope Z_scope.

(** ** Model *)

Definition TxNonce (tx : Transaction) : Z := tx_AccountNonce tx.
Definition nonceLess (a b : Z) : bool := a <? b.

Record txSortedMap := mkSortedMap {
  items : gmap Z Transaction;
  index : list Z;
  cache : option (list Transaction)
}.

Definition newTxSortedMap : txSortedMap := mkSortedMap ∅ [] None.

Definition sm_Get (m : txSortedMap) (nonce : Z) : option Transaction := items m !! nonce.

Definition sm_Put (m : txSortedMap) (tx : Transaction) : txSortedMap :=
  let nonce := TxNonce tx in
  let index := match items m !! nonce with
               | None => Heap.Push nonceLess (index m) nonce
               | Some _ => index m
               end in
  mkSortedMap (<[nonce := tx]> (items m)) index None.

(** The transactions at nonces that are in the index; a missing one would be
    [nil]. *)
Definition at_nonce (m : gmap Z Transaction) (nonce : Z) : list Transaction :=
  match m !! nonce with Some tx => [tx] | None => [] end.

(** The loop of [Forward]; each turn pops a nonce. *)
Fixpoint Forward_loop (fuel : nat) (threshold : Z) (m : gmap Z Transaction) (index : list Z)
    (removed : list Transaction) : gmap Z Transaction * list Z * list Transaction :=
  match fuel, index with
  | S fuel, n0 :: _ =>
      if n0 <? threshold then
        match Heap.Pop nonceLess index with
        | Some (nonce, index) => Forward_loop fuel threshold (delete nonce m) index (removed ++ at_nonce m nonce)
        | None => (m, index, removed)
        end
      else (m, index, removed)
  | _, _ => (m, index, removed)
  end.

Definition sm_Forward (m : txSortedMap) (threshold : Z) : list Transaction * txSortedMap :=
  let '(its, idx, removed) := Forward_loop (length (index m)) threshold (items m) (index m) [] in
  (removed, mkSortedMap its idx (option_map (drop (length removed)) (cache m))).

(** The loop of [Cap] over the sorted index, from its end; the index has an entry
    per item, so the positions exist. *)
Fixpoint Cap_loop (n : nat) (threshold : nat) (m : gmap Z Transaction) (index : list Z)
    (drops : list Transaction) : gmap Z Transaction * list Transaction :=
  match n with
  | O => (m, drops)
  | S n =>
      let size := (threshold + S n)%nat in
      match index !! (size - 1)%nat with
      | Some nonce => Cap_loop n threshold (delete nonce m) index (drops ++ at_nonce m nonce)
      | None => (m, drops)
      end
  end.

(** [sort.Sort]; the nonces of an account are distinct. *)
Definition sort_nonces (l : list Z) : list Z := merge_sort Z.le l.
Definition TxByNonce_le (a b : Transaction) : Prop := TxNonce a <= TxNonce b.
#[global] Instance TxByNonce_le_dec a b : Decision (TxByNonce_le a b).
Proof. unfold TxByNonce_le. apply _. Defined.
Definition sort_txs (l : list Transaction) : list Transaction := merge_sort TxByNonce_le l.

Definition sm_Cap (m : txSortedMap) (threshold : nat) : list Transaction * txSortedMap :=
  if (size (items m) <=? threshold)%nat then ([], m)
  else
    let idx := sort_nonces (index m) in
    let '(its, drops) := Cap_loop (size (items m) - threshold) threshold (items m) idx [] in
    (drops,
     mkSortedMap its (Heap.Init nonceLess (take threshold idx))
       (option_map (fun c => take (length c - length drops) c) (cache m))).

(** The position of the nonce in the index. *)
Fixpoint index_of (nonce : Z) (l : list Z) : option nat :=
  match l with
  | [] => None
  | n :: l => if n =? nonce then Some O else option_map S (index_of nonce l)
  end.

Definition sm_Remove (m : txSortedMap) (nonce : Z) : bool * txSortedMap :=
  match items m !! nonce with
  | None => (false, m)
  | Some _ =>
      let idx := match index_of nonce (index m) with
                 | Some i => Heap.Remove nonceLess (index m) i
                 | None => index m
                 end in
      (true, mkSortedMap (delete nonce (items m)) idx None)
  end.

(** The loop of [Ready]; [next] wraps like a [uint64]. *)
Fixpoint Ready_loop (fuel : nat) (next : Z) (m : gmap Z Transaction) (index : list Z)
    (ready : list Transaction) : gmap Z Transaction * list Z * list Transaction :=
  match fuel, index with
  | S fuel, n0 :: _ =>
      if n0 =? next then
        match Heap.Pop nonceLess index with
        | Some (_, index) => Ready_loop fuel (u64 (next + 1)) (delete next m) index (ready ++ at_nonce m next)
        | None => (m, index, ready)
        end
      else (m, index, ready)
  | _, _ => (m, index, ready)
  end.

Definition sm_Ready (m : txSortedMap) (start : Z) : list Transaction * txSortedMap :=
  match index m with
  | [] => ([], m)
  | n0 :: _ =>
      if start <? n0 then ([], m)
      else
        let '(its, idx, ready) := Ready_loop (length (index m)) n0 (items m) (index m) [] in
        (ready, mkSortedMap its idx None)
  end.

Definition sm_Len (m : txSortedMap) : nat := size (items m).

Section ranges.
(** [for nonce, tx := range m]. *)
Context (range : gmap Z Transaction -> list (Z * Transaction)).

Definition sm_Filter (m : txSortedMap) (f : Transaction -> bool) : list Transaction * txSortedMap :=
  let removed := filter (fun p => f (snd p) = true) (range (items m)) in
  let its := foldl (fun its p => delete (fst p) its) (items m) removed in
  if (0 <? length removed)%nat
  then (map snd removed, mkSortedMap its (Heap.Init nonceLess (map fst (range its))) None)
  else ([], mkSortedMap its (index m) (cache m)).

Definition sm_Flatten (m : txSortedMap) : list Transaction * txSortedMap :=
  match cache m with
  | Some c => (c, m)
  | None => let c := sort_txs (map snd (range (items m))) in (c, mkSortedMap (items m) (index m) (Some c))
  end.

(** *** [txList] *)

Record txList := mkTxList {
  tl_strict : bool;
  txs : txSortedMap;
  costcap : Z;
  gascap : Z
}.

Definition newTxList (strict : bool) : txList := mkTxList strict newTxSortedMap 0 0.

Definition with_txs (l : txList) (m : txSortedMap) : txList := mkTxList (tl_strict l) m (costcap l) (gascap l).

Definition Overlaps (l : txList) (tx : Transaction) : bool :=
  match sm_Get (txs l) (TxNonce tx) with Some _ => true | None => false end.

(** The price bump is an [int64] sum. *)
Definition bump_threshold (old : Transaction) (priceBump : Z) : Z :=
  tx_Price old * s64 (100 + s64 priceBump) / 100.

Definition tl_Add (l : txList) (tx : Transaction) (priceBump : Z) : bool * option Transaction * txList :=
  let old := sm_Get (txs l) (TxNonce tx) in
  if match old with
     | Some old => (tx_Price tx <=? tx_Price old) || (tx_Price tx <? bump_threshold old priceBump)
     | None => false
     end
  then (false, None, l)
  else
    let m := sm_Put (txs l) tx in
    let costcap := if costcap l <? Cost tx then Cost tx else costcap l in
    let gascap := if gascap l <? tx_GasLimit tx then tx_GasLimit tx else gascap l in
    (true, old, mkTxList (tl_strict l) m costcap gascap).

Definition tl_Forward (l : txList) (threshold : Z) : list Transaction * txList :=
  let (removed, m) := sm_Forward (txs l) threshold in (removed, with_txs l m).

(** The lowest nonce of the removed transactions. *)
Definition lowest_nonce (removed : list Transaction) : Z :=
  foldl (fun lowest tx => if TxNonce tx <? lowest then TxNonce tx else lowest) MaxUint64 removed.

Definition tl_Filter (l : txList) (costLimit gasLimit : Z) : list Transaction * list Transaction * txList :=
  if (costcap l <=? costLimit) && (gascap l <=? gasLimit) then ([], [], l)
  else
    let (removed, m) := sm_Filter (txs l) (fun tx => (costLimit <? Cost tx) || (gasLimit <? tx_GasLimit tx)) in
    if tl_strict l && (0 <? length removed)%nat then
      let lowest := lowest_nonce removed in
      let (invalids, m) := sm_Filter m (fun tx => lowest <? TxNonce tx) in
      (removed, invalids, mkTxList (tl_strict l) m costLimit gasLimit)
    else (removed, [], mkTxList (tl_strict l) m costLimit gasLimit).

Definition tl_Cap (l : txList) (threshold : nat) : list Transaction * txList :=
  let (drops, m) := sm_Cap (txs l) threshold in (drops, with_txs l m).

Definition tl_Remove (l : txList) (tx : Transaction) : bool * list Transaction * txList :=
  let nonce := TxNonce tx in
  let (removed, m) := sm_Remove (txs l) nonce in
  if negb removed then (false, [], with_txs l m)
  else if tl_strict l then
    let (invalids, m) := sm_Filter m (fun tx => nonce <? TxNonce tx) in (true, invalids, with_txs l m)
  else (true, [], with_txs l m).

Definition tl_Ready (l : txList) (start : Z) : list Transaction * txList :=
  let (ready, m) := sm_Ready (txs l) start in (ready, with_txs l m).
Definition tl_Len (l : txList) : nat := sm_Len (txs l).
Definition tl_Empty (l : txList) : bool := (tl_Len l =? 0)%nat.
Definition tl_Flatten (l : txList) : list Transaction * txList :=
  let (c, m) := sm_Flatten (txs l) in (c, with_txs l m).

End ranges.

(** *** [txPricedList] *)

Definition priceLess (a b : Transaction) : bool :=
  match tx_Price a ?= tx_Price b with
  | Lt => true
  | Gt => false
  | Eq => TxNonce b <? TxNonce a
  end.

Record txPricedList := mkPricedList {
  pl_items : list Transaction;
  stales : Z
}.

Definition newTxPricedList : txPricedList := mkPricedList [] 0.

Section priced.
(** The hash of a transaction, [all.Get(tx.Hash())] and the order in which
    [all.Range] visits the live transactions. *)
Context (hash : Transaction -> Hash) (range : gmap Hash Transaction -> list (Hash * Transaction)).

Definition live (all : gmap Hash Transaction) (tx : Transaction) : bool :=
  match all !! hash tx with Some _ => true | None => false end.

Definition pl_Put (l : txPricedList) (tx : Transaction) : txPricedList :=
  mkPricedList (Heap.Push priceLess (pl_items l) tx) (stales l).

Definition pl_Removed (all : gmap Hash Transaction) (l : txPricedList) : txPricedList :=
  let stales := stales l + 1 in
  if stales <=? Z.of_nat (length (pl_items l)) / 4 then mkPricedList (pl_items l) stales
  else mkPricedList (Heap.Init priceLess (map snd (range all))) 0.

(** The loops below pop one transaction per turn. *)
Fixpoint pl_Cap_loop (fuel : nat) (all : gmap Hash Transaction) (threshold : Z) (local : Transaction -> bool)
    (l : txPricedList) (drop save : list Transaction) : txPricedList * list Transaction * list Transaction :=
  match fuel, Heap.Pop priceLess (pl_items l) with
  | S fuel, Some (tx, its) =>
      if negb (live all tx) then pl_Cap_loop fuel all threshold local (mkPricedList its (stales l - 1)) drop save
      else if threshold <=? tx_Price tx then (mkPricedList its (stales l), drop, save ++ [tx])
      else if local tx then pl_Cap_loop fuel all threshold local (mkPricedList its (stales l)) drop (save ++ [tx])
      else pl_Cap_loop fuel all threshold local (mkPricedList its (stales l)) (drop ++ [tx]) save
  | _, _ => (l, drop, save)
  end.

Definition pl_Cap (all : gmap Hash Transaction) (l : txPricedList) (threshold : Z) (local : Transaction -> bool) :
    list Transaction * txPricedList :=
  let '(l, drop, save) := pl_Cap_loop (length (pl_items l)) all threshold local l [] [] in
  (drop, foldl pl_Put l save).

Fixpoint pl_clean (fuel : nat) (all : gmap Hash Transaction) (l : txPricedList) : txPricedList :=
  match fuel, pl_items l with
  | S fuel, head :: _ =>
      if negb (live all head) then
        match Heap.Pop priceLess (pl_items l) with
        | Some (_, its) => pl_clean fuel all (mkPricedList its (stales l - 1))
        | None => l
        end
      else l
  | _, _ => l
  end.

Definition pl_Underpriced (all : gmap Hash Transaction) (l : txPricedList) (tx : Transaction) (local : Transaction -> bool) :
    bool * txPricedList :=
  if local tx then (false, l)
  else
    let l := pl_clean (length (pl_items l)) all l in
    match pl_items l with
    | [] => (false, l)
    | cheapest :: _ => (tx_Price tx <=? tx_Price cheapest, l)
    end.

Fixpoint pl_Discard_loop (fuel : nat) (all : gmap Hash Transaction) (count : Z) (local : Transaction -> bool)
    (l : txPricedList) (drop save : list Transaction) : txPricedList * list Transaction * list Transaction :=
  match fuel with
  | O => (l, drop, save)
  | S fuel =>
      if 0 <? count then
        match Heap.Pop priceLess (pl_items l) with
        | Some (tx, its) =>
            if negb (live all tx) then pl_Discard_loop fuel all count local (mkPricedList its (stales l - 1)) drop save
            else if local tx then pl_Discard_loop fuel all count local (mkPricedList its (stales l)) drop (save ++ [tx])
            else pl_Discard_loop fuel all (count - 1) local (mkPricedList its (stales l)) (drop ++ [tx]) save
        | None => (l, drop, save)
        end
      else (l, drop, save)
  end.

Definition pl_Discard (all : gmap Hash Transaction) (l : txPricedList) (count : Z) (local : Transaction -> bool) :
    list Transaction * txPricedList :=
  let '(l, drop, save) := pl_Discard_loop (length (pl_items l)) all count local l [] [] in
  (drop, foldl pl_Put l save).

End priced.
