(* ===== verification/TxListFacts.v ===== *)
(** * The transaction lists refine sorted lists

    A [txSortedMap] represents the list of its transactions in nonce order
    ([sm_rep]); every operation is an operation on that list, and keeps the
    heap, the map and the cache in step with it. *)
From S2P Require Import Prelude Heap CommonMath VmInterface ChainTypes TxList.
From stdpp Require Import base numbers list gmap sorting.
From Stdlib Require Import ZArith Lia.
#[local] Open Scope Z_scope.

#[global] Instance nonce_order : HeapOrder nonceLess.
Proof.
  split; unfold hle, nonceLess.
  - intros x y z H1%Z.ltb_ge H2%Z.ltb_ge. apply Z.ltb_ge. lia.
  - intros x y H%Z.ltb_lt. apply Z.ltb_ge. lia.
Qed.

(** ** Sorted lists of transactions *)

Lemma filter_none {A} (P : A -> Prop) `{forall x, Decision (P x)} (l : list A) : (forall x, x ∈ l -> ~ P x) -> filter P l = [].
Proof.
  induction l as [|x l IH]; intros Hl; [done|]. rewrite filter_cons_False by (apply Hl; left).
  apply IH. intros y Hy. apply Hl. by right.
Qed.
Lemma filter_every {A} (P : A -> Prop) `{forall x, Decision (P x)} (l : list A) : (forall x, x ∈ l -> P x) -> filter P l = l.
Proof.
  induction l as [|x l IH]; intros Hl; [done|]. rewrite filter_cons_True by (apply Hl; left).
  f_equal. apply IH. intros y Hy. apply Hl. by right.
Qed.

Definition nonce_lt (a b : Transaction) : Prop := TxNonce a < TxNonce b.
Definition by_nonce (c : list Transaction) : Prop := StronglySorted nonce_lt c.

Lemma by_nonce_NoDup c : by_nonce c -> NoDup (map TxNonce c).
Proof.
  induction 1 as [|tx c Hc IH Hlt]; [constructor|]. cbn. constructor; [|done].
  intros (tx' & E & Hin)%list_elem_of_fmap. rewrite Forall_forall in Hlt. specialize (Hlt tx' Hin). unfold nonce_lt in Hlt. lia.
Qed.
Lemma by_nonce_inj c a b : by_nonce c -> a ∈ c -> b ∈ c -> TxNonce a = TxNonce b -> a = b.
Proof.
  induction 1 as [|tx c Hc IH Hlt]; intros Ha Hb E; [by apply not_elem_of_nil in Ha|].
  rewrite Forall_forall in Hlt. unfold nonce_lt in Hlt.
  apply elem_of_cons in Ha as [->|Ha], Hb as [->|Hb]; [done|specialize (Hlt b Hb); lia|specialize (Hlt a Ha); lia|by apply IH].
Qed.
Lemma by_nonce_unique c c' : by_nonce c -> by_nonce c' -> c ≡ₚ c' -> c = c'.
Proof.
  intros Hc Hc' Hp. assert (AntiSymm (=) nonce_lt) by (intros a b; unfold nonce_lt; lia). by apply (StronglySorted_unique nonce_lt).
Qed.
Lemma by_nonce_filter (P : Transaction -> Prop) `{forall x, Decision (P x)} c : by_nonce c -> by_nonce (filter P c).
Proof.
  induction 1 as [|tx c Hc IH Hlt]; [constructor|]. rewrite filter_cons. case_decide; [|done].
  constructor; [done|]. rewrite Forall_forall in *. intros x [_ Hx]%list_elem_of_filter. by apply Hlt.
Qed.
Lemma by_nonce_cons tx c : by_nonce (tx :: c) <-> (forall b, b ∈ c -> TxNonce tx < TxNonce b) /\ by_nonce c.
Proof. unfold by_nonce. by rewrite StronglySorted_cons, Forall_forall. Qed.

Lemma by_nonce_ext (c c' : list Transaction) : by_nonce c -> by_nonce c' -> (forall x, x ∈ c <-> x ∈ c') -> c = c'.
Proof.
  intros Hc Hc' Hx. apply by_nonce_unique; [done|done|].
  apply NoDup_Permutation; [by apply (NoDup_fmap_1 TxNonce), by_nonce_NoDup|by apply (NoDup_fmap_1 TxNonce), by_nonce_NoDup|done].
Qed.

Lemma sort_txs_ok c c' : by_nonce c -> c' ≡ₚ c -> sort_txs c' = c.
Proof.
  intros Hc Hp. unfold sort_txs. assert (Total TxByNonce_le) by (intros a b; unfold TxByNonce_le; lia).
  assert (Transitive TxByNonce_le) by (intros x y z; unfold TxByNonce_le; lia).
  pose proof (StronglySorted_merge_sort TxByNonce_le c') as Hs. pose proof (merge_sort_Permutation TxByNonce_le c') as Hp'.
  apply by_nonce_unique; [|done|by rewrite Hp', Hp].
  assert (NoDup (map TxNonce (merge_sort TxByNonce_le c'))) as Hn.
  { eapply (NoDup_Permutation_proper _ (map TxNonce c)); [|by apply by_nonce_NoDup]. apply Permutation_map. by rewrite Hp', Hp. }
  clear Hp' Hp Hc. induction Hs as [|tx l Hl IH Hle]; [constructor|]. cbn in Hn. apply NoDup_cons in Hn as [Hni Hn].
  constructor; [by apply IH|]. apply Forall_forall. intros b Hb. rewrite Forall_forall in Hle. specialize (Hle b Hb).
  unfold TxByNonce_le, nonce_lt in *. destruct (Z.eq_dec (TxNonce tx) (TxNonce b)) as [E|]; [|lia].
  destruct Hni. rewrite E. by apply list_elem_of_fmap_2.
Qed.

Lemma elem_of_drop_in {A} (x : A) n l : x ∈ drop n l -> x ∈ l.
Proof. intros Hx. rewrite <- (take_drop n l). apply elem_of_app. by right. Qed.
Lemma elem_of_take_in {A} (x : A) n l : x ∈ take n l -> x ∈ l.
Proof. intros Hx. rewrite <- (take_drop n l). apply elem_of_app. by left. Qed.

(** ** Representation *)

Record sm_rep (m : txSortedMap) (c : list Transaction) : Prop := {
  rep_sorted : by_nonce c;
  rep_u64 : forall tx, tx ∈ c -> is_u64 (TxNonce tx);
  rep_items : forall n tx, items m !! n = Some tx <-> tx ∈ c /\ TxNonce tx = n;
  rep_heap : Heap.is_heap nonceLess (index m);
  rep_index : index m ≡ₚ map TxNonce c;
  rep_cache : forall c', cache m = Some c' -> c' = c
}.

(** The heap and the map of a representation. *)
Record rep (its : gmap Z Transaction) (idx : list Z) (c : list Transaction) : Prop := {
  r_sorted : by_nonce c;
  r_items : forall n tx, its !! n = Some tx <-> tx ∈ c /\ TxNonce tx = n;
  r_heap : Heap.is_heap nonceLess idx;
  r_index : idx ≡ₚ map TxNonce c
}.

Lemma sm_rep_rep m c : sm_rep m c -> rep (items m) (index m) c.
Proof. by intros []. Qed.

Lemma rep_items_list its c : (forall n tx, its !! n = Some tx <-> tx ∈ c /\ TxNonce tx = n) -> by_nonce c ->
  map_to_list its ≡ₚ map (fun tx => (TxNonce tx, tx)) c.
Proof.
  intros Hi Hc. apply NoDup_Permutation; [apply NoDup_map_to_list| |].
  - apply (NoDup_fmap_1 fst). rewrite <- list_fmap_compose. exact (by_nonce_NoDup c Hc).
  - intros [n tx]. rewrite elem_of_map_to_list, Hi, list_elem_of_fmap. split.
    + intros [Hin <-]. by exists tx.
    + intros (tx' & [= -> ->] & Hin). done.
Qed.

Lemma rep_size its idx c : rep its idx c -> size its = length c /\ length idx = length c.
Proof.
  intros [Hc Hi _ Hx]. split.
  - rewrite <- length_map_to_list, (Permutation_length (rep_items_list its c Hi Hc)). apply length_map.
  - rewrite (Permutation_length Hx). apply length_map.
Qed.

Lemma rep_nil its idx : rep its idx [] -> its = ∅ /\ idx = [].
Proof.
  intros [_ Hi _ Hx]. split; [|by apply Permutation_nil_r in Hx].
  apply map_empty. intros n. apply eq_None_not_Some. intros [tx [Hin _]%Hi]. by apply not_elem_of_nil in Hin.
Qed.

(** Taking out the transaction with the lowest nonce. *)
Lemma rep_pop its idx tx c : rep its idx (tx :: c) ->
  exists idx', Heap.Pop nonceLess idx = Some (TxNonce tx, idx') /\ (exists t, idx = TxNonce tx :: t) /\
    at_nonce its (TxNonce tx) = [tx] /\ rep (delete (TxNonce tx) its) idx' c.
Proof.
  intros [Hc Hi Hh Hx]. assert (idx <> []) as Hne by (intros ->; cbn in Hx; by apply Permutation_nil_l in Hx).
  destruct (Heap.Pop_ok nonceLess idx Hne Hh) as (x & idx' & Ep & E0 & Hp & Hh' & Hmin).
  assert (x = TxNonce tx) as ->.
  { inversion Hc as [|? ? Hc' Hlt]; subst. rewrite Forall_forall in Hlt.
    assert (TxNonce tx ∈ idx) as H1 by (rewrite Hx; left). apply Hmin, Z.ltb_ge in H1.
    assert (x ∈ map TxNonce (tx :: c)) as H2 by (rewrite <- Hx; by apply list_elem_of_lookup; exists 0%nat).
    apply list_elem_of_fmap in H2 as (tx' & -> & [->|Hin]%elem_of_cons); [done|]. specialize (Hlt tx' Hin). unfold nonce_lt in Hlt. lia. }
  assert (its !! TxNonce tx = Some tx) as Et by (apply Hi; split; [left|done]).
  exists idx'. split; [done|]. split; [destruct idx as [|y t]; [done|]; injection E0 as ->; by exists t|].
  split; [unfold at_nonce; by rewrite Et|]. inversion Hc as [|? ? Hc' Hlt]; subst. split; [done| |done|].
  - intros n tx'. rewrite lookup_delete_Some, Hi, elem_of_cons. rewrite Forall_forall in Hlt. split.
    + intros (Hn & [->|Hin] & <-); [done|by split].
    + intros (Hin & <-). specialize (Hlt tx' Hin). unfold nonce_lt in Hlt. split; [lia|]. split; [by right|done].
  - rewrite Hp in Hx. cbn in Hx. by apply Permutation_cons_inv in Hx.
Qed.

(** ** [Forward] *)

Lemma Forward_loop_ok threshold : forall c its idx removed fuel, rep its idx c -> (length c <= fuel)%nat ->
  exists its' idx', Forward_loop fuel threshold its idx removed = (its', idx', removed ++ filter (fun tx => TxNonce tx < threshold) c) /\
    rep its' idx' (filter (fun tx => threshold <= TxNonce tx) c).
Proof.
  induction c as [|tx c IH]; intros its idx removed fuel Hr Hf.
  - destruct (rep_nil _ _ Hr) as [-> ->]. exists ∅, []. rewrite app_nil_r. by destruct fuel.
  - destruct fuel as [|fuel]; [cbn in Hf; lia|].
    destruct (rep_pop _ _ _ _ Hr) as (idx' & Ep & (t & ->) & Ea & Hr'). cbn [Forward_loop].
    destruct (Z.ltb_spec (TxNonce tx) threshold) as [Hlt|Hge].
    + rewrite Ep, Ea. destruct (IH (delete (TxNonce tx) its) idx' (removed ++ [tx]) fuel Hr' ltac:(cbn in Hf; lia)) as (its2 & idx2 & -> & Hr2).
      exists its2, idx2. rewrite filter_cons_True by done. rewrite filter_cons_False by lia. by rewrite <- app_assoc.
    + pose proof (r_sorted _ _ _ Hr) as [Hlt _]%by_nonce_cons. exists its, (TxNonce tx :: t).
      rewrite filter_none, app_nil_r by (intros x [->|Hx]%elem_of_cons; [lia|specialize (Hlt x Hx); lia]).
      rewrite filter_every by (intros x [->|Hx]%elem_of_cons; [lia|specialize (Hlt x Hx); lia]). done.
Qed.

Lemma split_threshold threshold c : by_nonce c ->
  c = filter (fun tx => TxNonce tx < threshold) c ++ filter (fun tx => threshold <= TxNonce tx) c.
Proof.
  induction c as [|tx c IH]; intros Hc; [done|]. apply by_nonce_cons in Hc as [Hlt Hc].
  destruct (Z.lt_ge_cases (TxNonce tx) threshold) as [H|H].
  - rewrite filter_cons_True by done. rewrite filter_cons_False by lia. cbn. f_equal. by apply IH.
  - rewrite filter_none by (intros x [->|Hx]%elem_of_cons; [lia|specialize (Hlt x Hx); lia]).
    by rewrite filter_every by (intros x [->|Hx]%elem_of_cons; [lia|specialize (Hlt x Hx); lia]).
Qed.

Lemma sm_rep_intro its idx ca c (c0 : list Transaction) : rep its idx c -> (forall tx, tx ∈ c0 -> is_u64 (TxNonce tx)) -> (forall tx, tx ∈ c -> tx ∈ c0) ->
  (forall c', ca = Some c' -> c' = c) -> sm_rep (mkSortedMap its idx ca) c.
Proof. intros [Hc Hi Hh Hx] Hu Hin Hca. split; try done. intros tx Htx. by apply Hu, Hin. Qed.

Lemma sm_Forward_rep m c threshold : sm_rep m c -> exists m',
  sm_Forward m threshold = (filter (fun tx => TxNonce tx < threshold) c, m') /\
  sm_rep m' (filter (fun tx => threshold <= TxNonce tx) c).
Proof.
  intros Hm. pose proof (sm_rep_rep _ _ Hm) as Hr. destruct (rep_size _ _ _ Hr) as [_ Hl].
  destruct (Forward_loop_ok threshold c (items m) (index m) [] (length (index m)) Hr ltac:(lia)) as (its & idx & E & Hr').
  unfold sm_Forward. rewrite E. cbn [app]. eexists. split; [done|].
  apply (sm_rep_intro _ _ _ _ c Hr'); [apply Hm|by intros tx [_ ?]%list_elem_of_filter|].
  intros c' Ec. destruct (cache m) as [ca|] eqn:Eca; [|done]. injection Ec as <-. rewrite (rep_cache _ _ Hm ca Eca).
  pose proof (split_threshold threshold c (rep_sorted _ _ Hm)) as Es. rewrite Es at 2. by rewrite drop_app_length.
Qed.

(** ** [Ready] *)

(** The transactions with the nonces [next], [next + 1], ... at the front. *)
Fixpoint run (next : Z) (c : list Transaction) : list Transaction :=
  match c with
  | tx :: c => if TxNonce tx =? next then tx :: run (next + 1) c else []
  | [] => []
  end.

Lemma Ready_loop_ok : forall c its idx ready next fuel, rep its idx c -> (length c <= fuel)%nat ->
  (forall tx, tx ∈ c -> is_u64 (TxNonce tx)) ->
  exists its' idx', Ready_loop fuel next its idx ready = (its', idx', ready ++ run next c) /\
    rep its' idx' (drop (length (run next c)) c).
Proof.
  induction c as [|tx c IH]; intros its idx ready next fuel Hr Hf Hu.
  - destruct (rep_nil _ _ Hr) as [-> ->]. exists ∅, []. rewrite app_nil_r. by destruct fuel.
  - destruct fuel as [|fuel]; [cbn in Hf; lia|].
    destruct (rep_pop _ _ _ _ Hr) as (idx' & Ep & (t & ->) & Ea & Hr'). cbn [Ready_loop run].
    destruct (Z.eqb_spec (TxNonce tx) next) as [<-|Hne]; [|exists its, (TxNonce tx :: t); by rewrite app_nil_r].
    rewrite Ep, Ea. pose proof (r_sorted _ _ _ Hr) as [Hlt _]%by_nonce_cons.
    destruct (IH (delete (TxNonce tx) its) idx' (ready ++ [tx]) (u64 (TxNonce tx + 1)) fuel Hr') as (its2 & idx2 & E2 & Hr2);
      [cbn in Hf; lia|intros x Hx; apply Hu; by right|].
    assert (run (u64 (TxNonce tx + 1)) c = run (TxNonce tx + 1) c) as Er.
    { destruct c as [|tx' c]; [done|]. rewrite u64_small; [done|]. specialize (Hlt tx' ltac:(left)).
      pose proof (Hu tx ltac:(left)). pose proof (Hu tx' ltac:(right; left)). unfold is_u64 in *. lia. }
    rewrite Er in *. exists its2, idx2. rewrite <- app_assoc in E2. done.
Qed.

(** The first nonces are consecutive, and the next one is not. *)
Lemma run_maximal c next : exists rest, c = run next c ++ rest /\
  (forall i tx, run next c !! i = Some tx -> TxNonce tx = next + Z.of_nat i) /\
  (forall tx, head rest = Some tx -> TxNonce tx <> next + Z.of_nat (length (run next c))).
Proof.
  revert next. induction c as [|tx c IH]; intros next; [by exists []|]. cbn [run].
  destruct (Z.eqb_spec (TxNonce tx) next) as [<-|Hne].
  - destruct (IH (TxNonce tx + 1)) as (rest & E & Hn & Hh). exists rest. split; [cbn; by f_equal|]. split.
    + intros [|i] tx' Hi; [injection Hi as <-; cbn; lia|]. apply Hn in Hi. lia.
    + intros tx' Ht. cbn [length]. specialize (Hh tx' Ht). lia.
  - exists (tx :: c). split; [done|]. split; [done|]. intros tx' [= <-]. cbn. lia.
Qed.

Lemma sm_Ready_rep m c start : sm_rep m c -> exists ready m', sm_Ready m start = (ready, m') /\
  sm_rep m' (drop (length ready) c) /\
  ready = match c with tx :: _ => if TxNonce tx <=? start then run (TxNonce tx) c else [] | [] => [] end.
Proof.
  intros Hm. pose proof (sm_rep_rep _ _ Hm) as Hr. destruct (rep_size _ _ _ Hr) as [_ Hl]. unfold sm_Ready.
  destruct c as [|tx c].
  - destruct (rep_nil _ _ Hr) as [_ ->]. by exists [], m.
  - destruct (rep_pop _ _ _ _ Hr) as (_ & _ & (t & E) & _ & _). rewrite E.
    rewrite Z.leb_antisym. destruct (Z.ltb_spec start (TxNonce tx)) as [Hlt|Hge]; [by exists [], m|]. cbn [negb].
    destruct (Ready_loop_ok (tx :: c) (items m) (index m) [] (TxNonce tx) (length (index m)) Hr ltac:(lia) (rep_u64 _ _ Hm)) as (its & idx & El & Hr').
    rewrite <- E, El. eexists _, _. split; [done|]. split; [|done]. cbn [app].
    apply (sm_rep_intro _ _ _ _ (tx :: c) Hr'); [apply Hm| |done]. intros x Hx. by apply elem_of_drop_in in Hx.
Qed.

(** ** [Put] and [Remove] *)

(** Insertion into a sorted list, in place of the transaction with the nonce. *)
Fixpoint put (tx : Transaction) (c : list Transaction) : list Transaction :=
  match c with
  | [] => [tx]
  | t :: c => if TxNonce tx <? TxNonce t then tx :: t :: c
              else if TxNonce tx =? TxNonce t then tx :: c
              else t :: put tx c
  end.

Lemma elem_of_put tx c x : by_nonce c -> x ∈ put tx c <-> x = tx \/ x ∈ c /\ TxNonce x <> TxNonce tx.
Proof.
  induction c as [|t c IH]; intros Hc; cbn [put].
  - rewrite list_elem_of_singleton. split; [by left|]. intros [->|[Hx _]]; [done|]. by apply not_elem_of_nil in Hx.
  - apply by_nonce_cons in Hc as [Hlt Hc]. specialize (IH Hc).
    destruct (Z.ltb_spec (TxNonce tx) (TxNonce t)) as [H1|H1].
    { rewrite elem_of_cons. split; [|tauto]. intros [->|Hx]; [by left|]. right. split; [done|].
      apply elem_of_cons in Hx as [->|Hx]; [lia|]. specialize (Hlt x Hx). lia. }
    destruct (Z.eqb_spec (TxNonce tx) (TxNonce t)) as [H2|H2].
    { rewrite !elem_of_cons. split; [intros [->|Hx]; [by left|]|intros [->|[[->|Hx] Hn]]; [by left|by rewrite H2 in Hn|by right]].
      right. split; [by right|]. specialize (Hlt x Hx). lia. }
    rewrite !elem_of_cons, IH. split; [intros [->|[->|[Hx Hn]]]|intros [->|[[->|Hx] Hn]]]; auto.
Qed.

Lemma put_sorted tx c : by_nonce c -> by_nonce (put tx c).
Proof.
  induction c as [|t c IH]; intros Hc; cbn [put]; [repeat constructor|].
  pose proof Hc as [Hlt Hc']%by_nonce_cons. destruct (Z.ltb_spec (TxNonce tx) (TxNonce t)) as [H1|H1].
  { apply by_nonce_cons. split; [|done]. intros b [->|Hb]%elem_of_cons; [done|]. specialize (Hlt b Hb). lia. }
  destruct (Z.eqb_spec (TxNonce tx) (TxNonce t)) as [H2|H2].
  { apply by_nonce_cons. split; [|done]. intros b Hb. rewrite H2. by apply Hlt. }
  apply by_nonce_cons. split; [|by apply IH]. intros b [->|[Hb _]]%elem_of_put; [lia|by apply Hlt|done].
Qed.

Lemma nonce_filter_NoDup n (c : list Transaction) : by_nonce c -> forall tx, tx ∈ c -> TxNonce tx = n -> map TxNonce c ≡ₚ n :: map TxNonce (filter (fun t => TxNonce t <> n) c).
Proof.
  intros Hc tx Hin <-. apply NoDup_Permutation; [by apply by_nonce_NoDup| |].
  - constructor; [|by apply by_nonce_NoDup, by_nonce_filter]. intros (t & E & [Hn _]%list_elem_of_filter)%list_elem_of_fmap. done.
  - intros k. rewrite elem_of_cons, !list_elem_of_fmap. split.
    + intros (t & -> & Ht). destruct (decide (TxNonce t = TxNonce tx)); [by left|right]. exists t. split; [done|]. by apply list_elem_of_filter.
    + intros [->|(t & -> & [_ Ht]%list_elem_of_filter)]; [by exists tx|by exists t].
Qed.

Lemma sm_Put_rep m c tx : sm_rep m c -> is_u64 (TxNonce tx) -> sm_rep (sm_Put m tx) (put tx c).
Proof.
  intros [Hc Hu Hi Hh Hx Hca] Ht. assert (NoDup (map TxNonce (put tx c))) as Hnd by (by apply by_nonce_NoDup, put_sorted).
  split; cbn [sm_Put items index cache]; [by apply put_sorted| | | | |done].
  - intros t [->|[Hin _]]%elem_of_put; [done|by apply Hu|done].
  - intros n t. rewrite lookup_insert_Some, Hi, elem_of_put by done. split.
    + intros [[<- <-]|(Hn & Hin & <-)]; [by split; [left|]|]. split; [right; by split|done].
    + intros [[->|[Hin Hn]] <-]; [by left|right]. done.
  - destruct (items m !! TxNonce tx); [done|]. exact (proj1 (Heap.Push_ok nonceLess _ _ Hh)).
  - apply NoDup_Permutation; [|done|].
    + destruct (items m !! TxNonce tx) as [t|] eqn:E; [rewrite Hx; by apply by_nonce_NoDup|].
      rewrite (proj2 (Heap.Push_ok nonceLess _ _ Hh)), Hx. constructor; [|by apply by_nonce_NoDup].
      intros (t & En & Hin)%list_elem_of_fmap. assert (items m !! TxNonce tx = Some t) by (apply Hi; done). congruence.
    + intros n. rewrite list_elem_of_fmap. destruct (items m !! TxNonce tx) as [t|] eqn:E.
      * apply Hi in E as [Hin En]. rewrite Hx, list_elem_of_fmap. split.
        { intros (t' & -> & Ht'). destruct (decide (TxNonce t' = TxNonce tx)) as [E|E]; [exists tx|exists t']; rewrite elem_of_put by done; auto. }
        { intros (t' & -> & [->|[Ht' _]]%elem_of_put); [by exists t|by exists t'|done]. }
      * rewrite (proj2 (Heap.Push_ok nonceLess _ _ Hh)), elem_of_cons, Hx, list_elem_of_fmap. split.
        { intros [->|(t' & -> & Ht')]; [exists tx; rewrite elem_of_put by done; auto|].
          exists t'. rewrite elem_of_put by done. split; [done|]. right. split; [done|]. intros En.
          assert (items m !! TxNonce tx = Some t') by (apply Hi; done). congruence. }
        { intros (t' & -> & [->|[Ht' _]]%elem_of_put); [by left|right; by exists t'|done]. }
Qed.

Lemma index_of_lookup n l : n ∈ l -> exists i, index_of n l = Some i /\ l !! i = Some n.
Proof.
  induction l as [|k l IH]; intros Hn; [by apply not_elem_of_nil in Hn|]. cbn [index_of].
  destruct (Z.eqb_spec k n) as [->|Hne]; [by exists 0%nat|]. apply elem_of_cons in Hn as [->|Hn]; [done|].
  destruct (IH Hn) as (i & -> & Hi). by exists (S i).
Qed.

Lemma sm_Remove_rep m c n : sm_rep m c -> exists m', sm_Remove m n = (bool_decide (n ∈ map TxNonce c), m') /\
  sm_rep m' (filter (fun tx => TxNonce tx <> n) c).
Proof.
  intros Hm. pose proof Hm as [Hc Hu Hi Hh Hx Hca]. unfold sm_Remove. destruct (items m !! n) as [tx|] eqn:E.
  - pose proof E as [Hin En]%Hi. assert (n ∈ map TxNonce c) as Hn by (subst n; by apply list_elem_of_fmap_2).
    rewrite bool_decide_true by done. eexists. split; [done|].
    destruct (index_of_lookup n (index m)) as (i & -> & Ei); [by rewrite Hx|].
    destruct (Heap.Remove_ok nonceLess (index m) i n Hh Ei) as [Hh' Hp].
    apply (sm_rep_intro _ _ _ _ c); [|done|by intros x [_ Hin']%list_elem_of_filter|done]. split; [by apply by_nonce_filter| |done|].
    + intros k t. rewrite lookup_delete_Some, Hi, list_elem_of_filter. split; [intros (? & ? & <-)|intros ((? & ?) & <-)]; auto.
    + rewrite Hp, (nonce_filter_NoDup n c Hc tx Hin En) in Hx. by apply Permutation_cons_inv in Hx.
  - assert (forall tx, tx ∈ c -> TxNonce tx <> n) as Hne.
    { intros tx Hin En. assert (items m !! n = Some tx) by (apply Hi; done). congruence. }
    exists m. rewrite bool_decide_false by (intros (tx & -> & Hin)%list_elem_of_fmap; by apply (Hne tx)).
    by rewrite filter_every.
Qed.

(** ** [Cap] *)

Lemma Cap_loop_ok threshold : forall n c its drops, by_nonce c -> length c = (threshold + n)%nat ->
  (forall k tx, its !! k = Some tx <-> tx ∈ c /\ TxNonce tx = k) -> forall c2,
  exists its', Cap_loop n threshold its (map TxNonce (c ++ c2)) drops = (its', drops ++ reverse (drop threshold c)) /\
    forall k tx, its' !! k = Some tx <-> tx ∈ take threshold c /\ TxNonce tx = k.
Proof.
  induction n as [|n IH]; intros c its drops Hc Hl Hi c2; cbn [Cap_loop].
  - exists its. rewrite drop_ge, take_ge by lia. by rewrite app_nil_r.
  - replace (threshold + S n - 1)%nat with (threshold + n)%nat by lia.
    destruct (lookup_lt_is_Some_2 c (threshold + n)) as [tx Htx]; [lia|].
    rewrite list_lookup_fmap, lookup_app_l, Htx by lia. cbn [fmap option_fmap option_map].
    assert (c = take (threshold + n) c ++ [tx]) as Ec.
    { rewrite <- (take_drop (threshold + n) c) at 1. f_equal. rewrite (drop_S c tx) by done. by rewrite drop_ge by lia. }
    set (c1 := take (threshold + n) c) in *. assert (length c1 = (threshold + n)%nat) as Hl1 by (unfold c1; rewrite length_take; lia).
    assert (by_nonce c1 /\ forall t, t ∈ c1 -> TxNonce t <> TxNonce tx) as [Hc1 Hne].
    { split; [unfold by_nonce in *; rewrite Ec in Hc; by apply StronglySorted_app_1_l in Hc|].
      intros t Ht En. unfold by_nonce in Hc. rewrite Ec in Hc.
      pose proof (StronglySorted_app_1_elem_of _ _ _ t tx Hc Ht ltac:(left)) as Hlt. unfold nonce_lt in Hlt. lia. }
    assert (at_nonce its (TxNonce tx) = [tx]) as ->.
    { unfold at_nonce. replace (its !! TxNonce tx) with (Some tx); [done|]. symmetry. apply Hi. split; [|done]. by eapply list_elem_of_lookup_2. }
    destruct (IH c1 (delete (TxNonce tx) its) (drops ++ [tx]) Hc1 Hl1) with (c2 := tx :: c2) as (its' & E & Hi').
    { intros k t. rewrite lookup_delete_Some, Hi. rewrite Ec at 1. rewrite elem_of_app, list_elem_of_singleton. split.
      - intros (Hk & [Ht| ->] & <-); [done|done].
      - intros (Ht & <-). split; [by intros Hk; apply (Hne t)|]. auto. }
    rewrite Ec, <- app_assoc. cbn [app]. rewrite E. exists its'. split.
    + f_equal. rewrite <- app_assoc. f_equal. rewrite drop_app_le by lia. by rewrite reverse_snoc.
    + intros k t. rewrite Hi'. rewrite take_app_le by lia. done.
Qed.

Lemma sort_nonces_ok l c : by_nonce c -> l ≡ₚ map TxNonce c -> sort_nonces l = map TxNonce c.
Proof.
  intros Hc Hp. unfold sort_nonces. apply (StronglySorted_unique Z.le).
  - apply StronglySorted_merge_sort; apply _.
  - eapply (StronglySorted_fmap _ nonce_lt); [|exact Hc]. intros x y. unfold nonce_lt. lia.
  - by rewrite <- Hp, (merge_sort_Permutation Z.le l).
Qed.

Lemma sm_Cap_rep m c threshold : sm_rep m c -> exists m',
  sm_Cap m threshold = (reverse (drop threshold c), m') /\ sm_rep m' (take threshold c).
Proof.
  intros Hm. pose proof Hm as [Hc Hu Hi Hh Hx Hca]. destruct (rep_size _ _ _ (sm_rep_rep _ _ Hm)) as [Hsz _].
  unfold sm_Cap. rewrite Hsz. destruct (Nat.leb_spec (length c) threshold) as [Hle|Hgt].
  { exists m. by rewrite drop_ge, take_ge. }
  rewrite (sort_nonces_ok (index m) c Hc Hx).
  destruct (Cap_loop_ok threshold (length c - threshold) c (items m) [] Hc ltac:(lia) Hi []) as (its & E & Hi').
  rewrite app_nil_r in E. rewrite E. cbn [app]. eexists. split; [done|].
  destruct (Heap.Init_ok nonceLess (take threshold (map TxNonce c))) as [Hh' Hp].
  apply (sm_rep_intro _ _ _ _ c); [|done|intros x Hx'; by apply elem_of_take_in in Hx'|].
  - split; [|done|done|by rewrite Hp, <- fmap_take].
    unfold by_nonce in *. rewrite <- (take_drop threshold c) in Hc. by apply StronglySorted_app_1_l in Hc.
  - intros c' Ec. destruct (cache m) as [ca|] eqn:Eca; [|done]. injection Ec as <-. rewrite (Hca ca eq_refl).
    rewrite length_reverse, length_drop. f_equal. lia.
Qed.

(** ** [Filter] and [Flatten] *)

Section ranges.
Context (range : gmap Z Transaction -> list (Z * Transaction)) (Hrange : forall m, range m ≡ₚ map_to_list m).

Lemma foldl_delete_lookup (l : list (Z * Transaction)) : forall (its : gmap Z Transaction) n tx,
  foldl (fun its p => delete (fst p) its) its l !! n = Some tx <-> its !! n = Some tx /\ n ∉ map fst l.
Proof.
  induction l as [|p l IH]; intros its n tx; cbn [foldl map].
  - split; [intros; split; [done|apply not_elem_of_nil]|tauto].
  - rewrite IH, lookup_delete_Some, not_elem_of_cons. split; [intros ((? & ?) & ?)|intros (? & ? & ?)]; auto.
Qed.

Lemma filter_map_pairs (f : Transaction -> bool) c :
  filter (fun p : Z * Transaction => f (snd p) = true) (map (fun tx => (TxNonce tx, tx)) c) =
  map (fun tx => (TxNonce tx, tx)) (filter (fun tx => f tx = true) c).
Proof. induction c as [|tx c IH]; [done|]. cbn [map]. rewrite !filter_cons. cbn [snd]. case_decide; cbn [map]; by rewrite IH. Qed.

Lemma sm_Filter_rep m c f : sm_rep m c -> exists removed m', sm_Filter range m f = (removed, m') /\
  removed ≡ₚ filter (fun tx => f tx = true) c /\ sm_rep m' (filter (fun tx => f tx = false) c).
Proof.
  intros Hm. pose proof Hm as [Hc Hu Hi Hh Hx Hca]. unfold sm_Filter.
  set (R := filter (fun p => f (snd p) = true) (range (items m))).
  assert (R ≡ₚ map (fun tx => (TxNonce tx, tx)) (filter (fun tx => f tx = true) c)) as HR.
  { unfold R. by rewrite Hrange, (rep_items_list _ c Hi Hc), filter_map_pairs. }
  assert (map snd R ≡ₚ filter (fun tx => f tx = true) c) as HRs.
  { rewrite HR, <- list_fmap_compose. by rewrite list_fmap_id. }
  destruct (Nat.ltb_spec 0 (length R)) as [Hpos|Hz].
  - eexists _, _. split; [done|]. split; [done|].
    set (its := foldl _ (items m) R).
    assert (forall n tx, its !! n = Some tx <-> tx ∈ filter (fun tx => f tx = false) c /\ TxNonce tx = n) as Hi'.
    { intros n tx. unfold its. rewrite foldl_delete_lookup, Hi, list_elem_of_filter.
      assert (n ∈ map fst R <-> exists t, t ∈ c /\ f t = true /\ TxNonce t = n) as Hn.
      { rewrite HR, <- list_fmap_compose, list_elem_of_fmap. split.
        - intros (t & -> & [? ?]%list_elem_of_filter). by exists t.
        - intros (t & Ht & Hf & <-). exists t. split; [done|]. by apply list_elem_of_filter. }
      rewrite Hn. split.
      - intros ((Hin & <-) & Hno). split; [|done]. split; [|done]. destruct (f tx) eqn:Ef; [|done]. destruct Hno. by exists tx.
      - intros ((Hf & Hin) & <-). split; [done|]. intros (t & Ht & Hft & En). assert (t = tx) as -> by (by eapply by_nonce_inj). congruence. }
    destruct (Heap.Init_ok nonceLess (map fst (range its))) as [Hh' Hp].
    apply (sm_rep_intro _ _ _ _ c); [|done|by intros x [_ Hin]%list_elem_of_filter|done].
    assert (by_nonce (filter (fun tx => f tx = false) c)) as Hc' by (by apply by_nonce_filter).
    split; [done|done|done|]. by rewrite Hp, Hrange, (rep_items_list its _ Hi' Hc'), <- list_fmap_compose.
  - assert (R = []) as ER by (destruct R; [done|cbn in Hz; lia]). rewrite ER in HRs |- *. cbn in HRs |- *.
    apply Permutation_nil_l in HRs. symmetry in HRs. exists [], m. split; [by destruct m|]. rewrite HRs. split; [done|].
    rewrite filter_every; [done|]. intros x Hin. destruct (f x) eqn:Ef; [|done].
    assert (x ∈ filter (fun tx => f tx = true) c) as Hxf by (by apply list_elem_of_filter). rewrite HRs in Hxf. by apply not_elem_of_nil in Hxf.
Qed.

Lemma sm_Flatten_rep m c : sm_rep m c -> exists m', sm_Flatten range m = (c, m') /\ sm_rep m' c.
Proof.
  intros Hm. unfold sm_Flatten. destruct (cache m) as [ca|] eqn:Eca.
  - rewrite (rep_cache _ _ Hm ca Eca). by exists m.
  - destruct Hm as [Hc Hu Hi Hh Hx Hca].
    rewrite (sort_txs_ok c) by (first [done|rewrite Hrange, (rep_items_list _ c Hi Hc), <- list_fmap_compose; by rewrite list_fmap_id]).
    eexists. split; [done|]. split; try done. by intros c' [= <-].
Qed.

End ranges.

(** ** The sorted map *)

Section refinement.
Context (range : gmap Z Transaction -> list (Z * Transaction)) (Hrange : forall m, range m ≡ₚ map_to_list m).

(** [Ready] takes out the longest run of consecutive nonces at the front of the
    list, provided the lowest nonce is not above [start]. *)
Lemma sm_Ready_run m c start : sm_rep m c -> exists ready rest m',
  sm_Ready m start = (ready, m') /\ c = ready ++ rest /\ sm_rep m' rest /\
  (forall i a, ready !! i = Some a -> exists first, head ready = Some first /\ TxNonce first <= start /\ TxNonce a = TxNonce first + Z.of_nat i) /\
  (forall first, head c = Some first -> TxNonce first <= start -> ready <> [] /\
     forall next, head rest = Some next -> TxNonce next <> TxNonce first + Z.of_nat (length ready)).
Proof.
  intros Hm. destruct (sm_Ready_rep m c start Hm) as (ready & m' & E & Hr & Er). exists ready, (drop (length ready) c), m'. split; [done|].
  destruct c as [|tx c]; [subst ready; by split_and!|]. destruct (Z.leb_spec (TxNonce tx) start) as [Hle|Hgt].
  - destruct (run_maximal (tx :: c) (TxNonce tx)) as (rest & Ec & Hn & Hh). rewrite <- Er in Ec, Hn, Hh.
    assert (drop (length ready) (tx :: c) = rest) as -> by (rewrite Ec; apply drop_app_length). rewrite Ec in Hr. rewrite drop_app_length in Hr.
    assert (head ready = Some tx) as Ehd by (rewrite Er; cbn; by rewrite Z.eqb_refl).
    split; [done|]. split; [done|]. split.
    + intros i a Hi. exists tx. split; [done|]. split; [done|]. by apply Hn.
    + intros first [= <-] _. split; [by intros ->|]. apply Hh.
  - subst ready. cbn [length drop] in *. split; [done|]. split; [done|]. split; [done|]. intros first [= <-]. lia.
Qed.

(** C19. The nonce-indexed map of an account behaves as the list of its transactions
    in nonce order: each operation returns and leaves what the list operation
    does, and the heap of nonces, the map and the cached slice stay in step.  [Ready]
    takes out the longest run of consecutive nonces at the front of the list, provided
    the lowest nonce is not above its argument. *)
Theorem txSortedMap_refines m c (Hm : sm_rep m c) :
  (forall n tx, sm_Get m n = Some tx <-> tx ∈ c /\ TxNonce tx = n) /\ sm_Len m = length c /\
  (forall tx, is_u64 (TxNonce tx) -> sm_rep (sm_Put m tx) (put tx c)) /\
  (forall threshold, exists m', sm_Forward m threshold = (filter (fun tx => TxNonce tx < threshold) c, m') /\
     sm_rep m' (filter (fun tx => threshold <= TxNonce tx) c)) /\
  (forall f, exists removed m', sm_Filter range m f = (removed, m') /\ removed ≡ₚ filter (fun tx => f tx = true) c /\
     sm_rep m' (filter (fun tx => f tx = false) c)) /\
  (forall threshold, exists m', sm_Cap m threshold = (reverse (drop threshold c), m') /\ sm_rep m' (take threshold c)) /\
  (forall n, exists m', sm_Remove m n = (bool_decide (n ∈ map TxNonce c), m') /\ sm_rep m' (filter (fun tx => TxNonce tx <> n) c)) /\
  (exists m', sm_Flatten range m = (c, m') /\ sm_rep m' c) /\
  (forall start, exists ready rest m', sm_Ready m start = (ready, m') /\ c = ready ++ rest /\ sm_rep m' rest /\
     (forall i a, ready !! i = Some a -> exists first, head ready = Some first /\ TxNonce first <= start /\ TxNonce a = TxNonce first + Z.of_nat i) /\
     (forall first, head c = Some first -> TxNonce first <= start -> ready <> [] /\
        forall next, head rest = Some next -> TxNonce next <> TxNonce first + Z.of_nat (length ready))).
Proof.
  split; [apply Hm|]. split; [by apply (rep_size _ _ _ (sm_rep_rep _ _ Hm))|].
  split; [intros; by apply sm_Put_rep|]. split; [intros; by apply sm_Forward_rep|].
  split; [intros; by apply sm_Filter_rep|]. split; [intros; by apply sm_Cap_rep|].
  split; [intros; by apply sm_Remove_rep|]. split; [by apply sm_Flatten_rep|]. intros. by apply sm_Ready_run.
Qed.

(** ** The list of an account *)

Record tl_rep (l : txList) (c : list Transaction) : Prop := {
  tl_txs : sm_rep (txs l) c;
  tl_caps : forall tx, tx ∈ c -> Cost tx <= costcap l /\ tx_GasLimit tx <= gascap l
}.

Definition gapless (c : list Transaction) : Prop :=
  forall i a b, c !! i = Some a -> c !! S i = Some b -> TxNonce b = TxNonce a + 1.

Lemma gapless_take n c : gapless c -> gapless (take n c).
Proof. intros Hc i a b Ha Hb. apply lookup_take_Some in Ha as [Ha _], Hb as [Hb _]. by eapply Hc. Qed.

Lemma filter_below_take k c : by_nonce c -> exists n, filter (fun tx => TxNonce tx < k) c = take n c.
Proof.
  intros Hc. exists (length (filter (fun tx => TxNonce tx < k) c)). pose proof (split_threshold k c Hc) as E.
  rewrite E at 3. by rewrite take_app_length.
Qed.

Lemma lowest_nonce_le removed : forall lo tx, tx ∈ removed ->
  foldl (fun lowest tx => if TxNonce tx <? lowest then TxNonce tx else lowest) lo removed <= TxNonce tx.
Proof.
  assert (forall l lo, foldl (fun lowest tx => if TxNonce tx <? lowest then TxNonce tx else lowest) lo l <= lo) as Hle.
  { induction l as [|t l IH]; intros lo; cbn [foldl]; [lia|]. destruct (Z.ltb_spec (TxNonce t) lo); [etrans; [apply IH|lia]|apply IH]. }
  induction removed as [|t removed IH]; intros lo tx Hin; [by apply not_elem_of_nil in Hin|]. cbn [foldl].
  apply elem_of_cons in Hin as [->|Hin]; [|by apply IH]. destruct (Z.ltb_spec (TxNonce t) lo); [apply Hle|]. etrans; [apply Hle|done].
Qed.

Lemma lowest_nonce_in removed : removed <> [] -> (forall tx, tx ∈ removed -> is_u64 (TxNonce tx)) ->
  exists tx, tx ∈ removed /\ TxNonce tx = lowest_nonce removed.
Proof.
  intros Hne Hu. assert (forall l lo, let lowest := foldl (fun lowest tx => if TxNonce tx <? lowest then TxNonce tx else lowest) lo l in
    lowest = lo \/ exists tx, tx ∈ l /\ TxNonce tx = lowest) as H.
  { induction l as [|t l IH]; intros lo; cbn [foldl]; [by left|]. destruct (IH (if TxNonce t <? lo then TxNonce t else lo)) as [E|(tx & Hin & E)].
    - cbn zeta in E |- *. rewrite E. destruct (TxNonce t <? lo); [right; exists t; split; [left|done]|by left].
    - right. exists tx. split; [by right|done]. }
  destruct (H removed MaxUint64) as [E|Hx]; [|done]. destruct removed as [|t l]; [done|]. exists t. split; [left|].
  pose proof (lowest_nonce_le (t :: l) MaxUint64 t ltac:(left)) as Hle. pose proof (Hu t ltac:(left)) as [_ Ht].
  unfold lowest_nonce. cbn zeta in E. lia.
Qed.

(** What a strict list drops after its transactions above a limit. *)
Lemma strict_rest (f : Transaction -> bool) c lowest : by_nonce c ->
  (exists tx, tx ∈ c /\ f tx = true /\ TxNonce tx = lowest) -> (forall tx, tx ∈ c -> f tx = true -> lowest <= TxNonce tx) ->
  filter (fun tx => (lowest <? TxNonce tx) = false) (filter (fun tx => f tx = false) c) = filter (fun tx => TxNonce tx < lowest) c.
Proof.
  intros Hc (low & Hlow & Hfl & El) Hmin. apply by_nonce_ext; [by do 2 apply by_nonce_filter|by apply by_nonce_filter|].
  intros tx. rewrite !list_elem_of_filter. split.
  - intros (H1%Z.ltb_ge & H2 & Hin). split; [|done]. destruct (Z.eq_dec (TxNonce tx) lowest) as [E|]; [|lia].
    assert (tx = low) as -> by (eapply by_nonce_inj; [exact Hc|done|done|congruence]). congruence.
  - intros [H1 Hin]. split; [apply Z.ltb_ge; lia|]. split; [|done]. destruct (f tx) eqn:Ef; [|done]. specialize (Hmin tx Hin Ef). lia.
Qed.

Lemma by_nonce_partition (f : Transaction -> bool) (c : list Transaction) :
  c ≡ₚ filter (fun tx => f tx = false) c ++ filter (fun tx => f tx = true) c.
Proof.
  induction c as [|tx c IH]; [done|]. rewrite !filter_cons. destruct (f tx) eqn:E.
  - rewrite decide_False, decide_True by done. rewrite <- Permutation_middle. by rewrite <- IH.
  - rewrite decide_True, decide_False by done. cbn. by rewrite <- IH.
Qed.

(** What [Filter] returns and leaves. *)
Definition Filter_post (l : txList) (c : list Transaction) (costLimit gasLimit : Z) (res : list Transaction * list Transaction * txList) : Prop :=
  let '(removed, invalids, l') := res in
  exists c', tl_rep l' c' /\ c ≡ₚ c' ++ invalids ++ removed /\
  (forall tx, tx ∈ removed <-> tx ∈ c /\ (costLimit < Cost tx \/ gasLimit < tx_GasLimit tx)) /\
  (forall tx, tx ∈ invalids <-> tl_strict l = true /\ tx ∈ c /\ Cost tx <= costLimit /\ tx_GasLimit tx <= gasLimit /\
     exists t, t ∈ removed /\ TxNonce t < TxNonce tx) /\
  (tl_strict l = true -> gapless c -> gapless c').

Lemma Filter_slow l c costLimit gasLimit (f := fun tx => (costLimit <? Cost tx) || (gasLimit <? tx_GasLimit tx)) : tl_rep l c ->
  Filter_post l c costLimit gasLimit
    (let (removed, m) := sm_Filter range (txs l) f in
     if tl_strict l && (0 <? length removed)%nat then
       let (invalids, m) := sm_Filter range m (fun tx => lowest_nonce removed <? TxNonce tx) in
       (removed, invalids, mkTxList (tl_strict l) m costLimit gasLimit)
     else (removed, [], mkTxList (tl_strict l) m costLimit gasLimit)).
Proof.
  intros [Hm Hcap]. pose proof (rep_sorted _ _ Hm) as Hc.
  assert (forall tx, f tx = true <-> costLimit < Cost tx \/ gasLimit < tx_GasLimit tx) as Hf
    by (intros tx; unfold f; rewrite orb_true_iff, !Z.ltb_lt; done).
  assert (forall tx, f tx = false -> Cost tx <= costLimit /\ tx_GasLimit tx <= gasLimit) as Hf'
    by (intros tx; unfold f; rewrite orb_false_iff, !Z.ltb_ge; done).
  destruct (sm_Filter_rep range Hrange (txs l) c f Hm) as (removed & m' & -> & Hrem & Hm').
  assert (forall tx, tx ∈ removed <-> tx ∈ c /\ f tx = true) as Hrin by (intros tx; rewrite Hrem, list_elem_of_filter; tauto).
  pose proof (by_nonce_partition f c) as Hpart. rewrite <- Hrem in Hpart.
  destruct (tl_strict l && (0 <? length removed)%nat) eqn:Es.
  - apply andb_true_iff in Es as [Es Hne%Nat.ltb_lt].
    destruct (sm_Filter_rep range Hrange m' _ (fun tx => lowest_nonce removed <? TxNonce tx) Hm') as (invalids & m2 & -> & Hinv & Hm2).
    destruct (lowest_nonce_in removed) as (low & Hlow & El); [by intros ->; cbn in Hne; lia|intros tx Hin; apply Hm, Hrin, Hin|].
    assert (forall tx, tx ∈ c -> f tx = true -> lowest_nonce removed <= TxNonce tx) as Hmin by (intros tx H1 H2; apply lowest_nonce_le, Hrin; done).
    assert (Hrest := strict_rest f c (lowest_nonce removed) Hc ltac:(exists low; split; [by apply Hrin|split; [by apply Hrin|done]]) Hmin).
    eexists. split; [|split; [|split; [|split]]].
    + split; [exact Hm2|]. cbn [costcap gascap]. intros tx [_ [Hft _]%list_elem_of_filter]%list_elem_of_filter. by apply Hf'.
    + rewrite Hpart at 1. rewrite (by_nonce_partition (fun tx => lowest_nonce removed <? TxNonce tx) (filter (fun tx => f tx = false) c)) at 1.
      by rewrite <- Hinv, <- app_assoc.
    + intros tx. by rewrite Hrin, Hf.
    + intros tx. rewrite Hinv, !list_elem_of_filter, Z.ltb_lt. split.
      * intros (Hlt & Hft & Hin). split; [done|]. split; [done|]. split; [by apply Hf'|]. split; [by apply Hf'|]. exists low. by rewrite El.
      * intros (_ & Hin & Hc1 & Hg1 & t & Ht & Hlt). split; [pose proof (Hmin t); apply Hrin in Ht as [? ?]; intuition lia|]. split; [|done].
        unfold f. apply orb_false_iff. rewrite !Z.ltb_ge. done.
    + intros _ Hg. rewrite Hrest. destruct (filter_below_take (lowest_nonce removed) c Hc) as [n ->]. by apply gapless_take.
  - exists (filter (fun tx => f tx = false) c). split; [|split; [done|split; [intros tx; by rewrite Hrin, Hf|split]]].
    + split; [exact Hm'|]. cbn [costcap gascap]. intros tx [Hft _]%list_elem_of_filter. by apply Hf'.
    + intros tx. split; [by intros ?%not_elem_of_nil|]. intros (Est & _ & _ & _ & t & Ht & _). rewrite Est in Es.
      destruct removed; [by apply not_elem_of_nil in Ht|done].
    + intros Est Hg. rewrite Est in Es. destruct removed as [|t rem]; [|done]. rewrite filter_every; [done|].
      intros x Hin. destruct (f x) eqn:Ef; [|done]. assert (x ∈ []) as Hn by (by apply Hrin). by apply not_elem_of_nil in Hn.
Qed.

(** [Filter] drops exactly the transactions above the cost or the gas limit; a
    strict list also drops, as invalid, what comes after the first of them.  The
    rest is within the limits, nothing is lost, and a strict list without gaps
    still has none.  This covers the early return on the caps. *)
Theorem txList_Filter l c costLimit gasLimit (Hl : tl_rep l c) :
  exists removed invalids l' c', tl_Filter range l costLimit gasLimit = (removed, invalids, l') /\
  tl_rep l' c' /\ c ≡ₚ c' ++ invalids ++ removed /\
  (forall tx, tx ∈ removed <-> tx ∈ c /\ (costLimit < Cost tx \/ gasLimit < tx_GasLimit tx)) /\
  (forall tx, tx ∈ invalids <-> tl_strict l = true /\ tx ∈ c /\ Cost tx <= costLimit /\ tx_GasLimit tx <= gasLimit /\
     exists t, t ∈ removed /\ TxNonce t < TxNonce tx) /\
  (tl_strict l = true -> gapless c -> gapless c').
Proof.
  assert (Filter_post l c costLimit gasLimit (tl_Filter range l costLimit gasLimit)) as H.
  { unfold tl_Filter. destruct ((costcap l <=? costLimit) && (gascap l <=? gasLimit)) eqn:E; [|by apply Filter_slow].
    apply andb_true_iff in E as [H1%Z.leb_le H2%Z.leb_le]. exists c. split; [done|]. split; [by rewrite !app_nil_r|].
    split; [|split; [|done]]; intros tx; (split; [by intros ?%not_elem_of_nil|]).
    - intros [Hin Hex]. pose proof (tl_caps _ _ Hl tx Hin). lia.
    - intros (_ & _ & _ & _ & t & Ht & _). by apply not_elem_of_nil in Ht. }
  destruct (tl_Filter range l costLimit gasLimit) as [[removed invalids] l']. destruct H as (c' & H). by exists removed, invalids, l', c'.
Qed.

(** [Add] replaces a transaction with the same nonce only for a strictly higher
    price that also reaches the bump; a rejected transaction leaves no trace, an
    accepted one is stored at its nonce and covered by the caps. *)
Theorem txList_Add l c tx priceBump (Hl : tl_rep l c) (Htx : is_u64 (TxNonce tx)) :
  let old := sm_Get (txs l) (TxNonce tx) in
  let rejected := exists o, old = Some o /\ (tx_Price tx <= tx_Price o \/ tx_Price tx < bump_threshold o priceBump) in
  exists inserted replaced l', tl_Add l tx priceBump = (inserted, replaced, l') /\
    (inserted = false -> rejected /\ replaced = None /\ l' = l) /\
    (inserted = true -> ~ rejected /\ replaced = old /\ tl_rep l' (put tx c) /\ tl_strict l' = tl_strict l).
Proof.
  cbn zeta. unfold tl_Add. destruct Hl as [Hm Hcap]. pose proof (rep_sorted _ _ Hm) as Hc.
  set (m := sm_Put (txs l) tx). assert (sm_rep m (put tx c)) as Hm' by (by apply sm_Put_rep).
  assert (tl_rep (mkTxList (tl_strict l) m (if costcap l <? Cost tx then Cost tx else costcap l)
    (if gascap l <? tx_GasLimit tx then tx_GasLimit tx else gascap l)) (put tx c)) as Hrep.
  { split; [done|]. cbn [costcap gascap]. intros t Ht. apply elem_of_put in Ht as [->|[Ht _]]; [| |done].
    - split; zdestruct; lia.
    - specialize (Hcap t Ht). split; zdestruct; lia. }
  destruct (sm_Get (txs l) (TxNonce tx)) as [o|].
  - destruct (_ || _) eqn:E; eexists _, _, _; (split; [done|]); split; try done; intros _.
    + apply orb_true_iff in E. rewrite Z.leb_le, Z.ltb_lt in E. split; [by exists o|done].
    + apply orb_false_iff in E. rewrite Z.leb_gt, Z.ltb_ge in E. split; [|done]. intros (o' & [= <-] & ?). lia.
  - eexists _, _, _. split; [done|]. split; [done|]. intros _. split; [|done]. by intros (o & ? & _).
Qed.

Lemma gapless_drop n c : gapless c -> gapless (drop n c).
Proof. intros Hc i a b Ha Hb. rewrite lookup_drop in Ha, Hb. rewrite Nat.add_succ_r in Hb. by eapply Hc. Qed.

Lemma filter_from_drop k c : by_nonce c -> exists n, filter (fun tx => k <= TxNonce tx) c = drop n c.
Proof.
  intros Hc. exists (length (filter (fun tx => TxNonce tx < k) c)). pose proof (split_threshold k c Hc) as E.
  rewrite E at 3. by rewrite drop_app_length.
Qed.

Lemma tl_rep_sub l m c (c' : list Transaction) : tl_rep l c -> sm_rep m c' -> (forall tx, tx ∈ c' -> tx ∈ c) -> tl_rep (with_txs l m) c'.
Proof. intros [_ Hcap] Hm Hin. split; [done|]. cbn. intros tx Htx. by apply Hcap, Hin. Qed.

(** The operations that shrink the list of an account keep its caps valid, and
    keep a list without nonce gaps free of gaps: dropping the low nonces, capping
    the length, taking what is ready, and, in a strict list, removing a
    transaction together with its successors. *)
Theorem txList_shrink l c (Hl : tl_rep l c) :
  (forall n, exists c', tl_rep (snd (tl_Forward l n)) c' /\ (gapless c -> gapless c')) /\
  (forall n, exists c', tl_rep (snd (tl_Cap l n)) c' /\ (gapless c -> gapless c') /\ (length c' <= n)%nat) /\
  (forall start, exists c', tl_rep (snd (tl_Ready l start)) c' /\ (gapless c -> gapless c')) /\
  (forall tx, exists c', tl_rep (snd (tl_Remove range l tx)) c' /\ (tl_strict l = true -> gapless c -> gapless c') /\
     TxNonce tx ∉ map TxNonce c').
Proof.
  pose proof (tl_txs _ _ Hl) as Hm. pose proof (rep_sorted _ _ Hm) as Hc. split_and!.
  - intros n. unfold tl_Forward. destruct (sm_Forward_rep (txs l) c n Hm) as (m' & -> & Hm'). eexists. split.
    + apply (tl_rep_sub l m' c _ Hl Hm'). by intros tx [_ ?]%list_elem_of_filter.
    + intros Hg. destruct (filter_from_drop n c Hc) as [k ->]. by apply gapless_drop.
  - intros n. unfold tl_Cap. destruct (sm_Cap_rep (txs l) c n Hm) as (m' & -> & Hm'). eexists. split; [|split].
    + apply (tl_rep_sub l m' c _ Hl Hm'). intros tx Htx. by apply elem_of_take_in in Htx.
    + apply gapless_take.
    + rewrite length_take. lia.
  - intros start. unfold tl_Ready. destruct (sm_Ready_rep (txs l) c start Hm) as (ready & m' & -> & Hm' & _). eexists. split.
    + apply (tl_rep_sub l m' c _ Hl Hm'). intros tx Htx. by apply elem_of_drop_in in Htx.
    + apply gapless_drop.
  - intros tx. unfold tl_Remove. destruct (sm_Remove_rep (txs l) c (TxNonce tx) Hm) as (m' & -> & Hm').
    set (c1 := filter (fun t => TxNonce t <> TxNonce tx) c) in *.
    assert (TxNonce tx ∉ map TxNonce c1) as Hni by (intros (t & E & [Hn _]%list_elem_of_filter)%list_elem_of_fmap; done).
    destruct (bool_decide_reflect (TxNonce tx ∈ map TxNonce c)) as [Hin|Hnin]; cbn [negb].
    + destruct (tl_strict l) eqn:Es.
      * destruct (sm_Filter_rep range Hrange m' c1 (fun t => TxNonce tx <? TxNonce t) Hm') as (inv & m2 & -> & _ & Hm2).
        exists (filter (fun t => TxNonce t < TxNonce tx) c).
        assert (filter (fun t => (TxNonce tx <? TxNonce t) = false) c1 = filter (fun t => TxNonce t < TxNonce tx) c) as E.
        { apply by_nonce_ext; [by do 2 apply by_nonce_filter|by apply by_nonce_filter|]. intros t. unfold c1.
          rewrite !list_elem_of_filter, Z.ltb_ge. split; [intros (? & ? & ?)|intros (? & ?)]; split_and?; try done; lia. }
        rewrite E in Hm2. split; [|split].
        -- apply (tl_rep_sub l m2 c _ Hl Hm2). by intros t [_ ?]%list_elem_of_filter.
        -- intros _ Hg. destruct (filter_below_take (TxNonce tx) c Hc) as [k ->]. by apply gapless_take.
        -- intros (t & E' & [Hn _]%list_elem_of_filter)%list_elem_of_fmap. lia.
      * exists c1. split; [apply (tl_rep_sub l m' c _ Hl Hm'); by intros t [_ ?]%list_elem_of_filter|]. by split.
    + assert (c1 = c) as Ec1 by (apply filter_every; intros t Ht E; apply Hnin; rewrite <- E; by apply list_elem_of_fmap_2).
      rewrite Ec1 in *. exists c. split; [by apply (tl_rep_sub l m' c)|]. by split.
Qed.

End refinement.

(** ** Examples *)

Lemma new_rep : sm_rep newTxSortedMap [].
Proof.
  split; cbn [newTxSortedMap items index cache map]; [constructor|by intros tx ?%not_elem_of_nil| | |done|done].
  - intros n tx. rewrite lookup_empty. split; [done|]. intros [?%not_elem_of_nil _]. done.
  - intros j Hj. cbn in Hj. lia.
Qed.
Lemma new_list_rep s : tl_rep (newTxList s) [].
Proof. split; [apply new_rep|]. by intros tx ?%not_elem_of_nil. Qed.

Definition pool_tx (nonce price : Z) : Transaction := mkTransaction nonce price 21000 (Some 1) 0 [] 27 1 1.
Definition pool_map : txSortedMap := sm_Put (sm_Put (sm_Put newTxSortedMap (pool_tx 6 1)) (pool_tx 5 1)) (pool_tx 8 1).

Lemma pool_map_rep : sm_rep pool_map [pool_tx 5 1; pool_tx 6 1; pool_tx 8 1].
Proof.
  assert (forall n, 0 <= n <= 8 -> is_u64 (TxNonce (pool_tx n 1))) as Hu by (intros n Hn; unfold is_u64, MaxUint64; cbn; lia).
  apply (sm_Put_rep _ [pool_tx 5 1; pool_tx 6 1]); [|apply Hu; lia]. apply (sm_Put_rep _ [pool_tx 6 1]); [|apply Hu; lia].
  apply (sm_Put_rep _ []); [apply new_rep|apply Hu; lia].
Qed.

Definition pool_list : txList := mkTxList true pool_map 30000 21000.
Lemma pool_list_rep : tl_rep pool_list [pool_tx 5 1; pool_tx 6 1; pool_tx 8 1].
Proof.
  split; [apply pool_map_rep|]. intros tx Hin. cbn [pool_list costcap gascap].
  repeat (apply elem_of_cons in Hin as [->|Hin]; [vm_compute; split; discriminate|]). by apply not_elem_of_nil in Hin.
Qed.

Lemma txSortedMap_refines_witness :
  exists m', sm_Forward pool_map 6 = ([pool_tx 5 1], m') /\ sm_rep m' [pool_tx 6 1; pool_tx 8 1].
Proof. exact (proj1 (proj2 (proj2 (proj2 (txSortedMap_refines map_to_list (fun m => reflexivity _) pool_map _ pool_map_rep)))) 6). Defined.

Lemma txList_Filter_witness : exists removed invalids l' c',
  tl_Filter map_to_list pool_list 25000 20000 = (removed, invalids, l') /\ tl_rep l' c'.
Proof.
  destruct (txList_Filter map_to_list (fun m => reflexivity _) pool_list _ 25000 20000 pool_list_rep)
    as (removed & invalids & l' & c' & E & Hr & _).
  exists removed, invalids, l', c'. split; [exact E|exact Hr].
Defined.

Lemma txList_Add_witness : exists inserted replaced l', tl_Add pool_list (pool_tx 6 2) 10 = (inserted, replaced, l') /\ inserted = true.
Proof.
  destruct (txList_Add pool_list _ (pool_tx 6 2) 10 pool_list_rep) as (inserted & replaced & l' & E & _).
  { split; vm_compute; discriminate. }
  exists inserted, replaced, l'. split; [exact E|].
  assert (fst (fst (tl_Add pool_list (pool_tx 6 2) 10)) = true) as H by (vm_compute; reflexivity). by rewrite E in H.
Defined.

Lemma txList_shrink_witness : exists c', tl_rep (snd (tl_Cap pool_list 2)) c' /\ (length c' <= 2)%nat.
Proof.
  destruct (txList_shrink map_to_list (fun m => reflexivity _) pool_list _ pool_list_rep) as (_ & H & _).
  destruct (H 2%nat) as (c' & Hr & _ & Hl). exists c'. split; [exact Hr|exact Hl].
Defined.
