(* ===== verification/TxPricedFacts.v ===== *)
(** * The price heap of the pool ([txPricedList])

    The heap holds the live transactions and some that were removed since; the
    counter [stales] is the number of the latter.  What [Underpriced], [Discard]
    and [Cap] answer depends on the live ones only. *)
From S2P Require Import Prelude Heap CommonMath VmInterface ChainTypes TxList TxListFacts.
From stdpp Require Import base numbers list gmap sorting.
From Stdlib Require Import ZArith Lia.
#[local] Open Scope Z_scope.

Lemma priceLess_spec a b : priceLess a b = true <-> tx_Price a < tx_Price b \/ (tx_Price a = tx_Price b /\ TxNonce b < TxNonce a).
Proof. unfold priceLess. destruct (Z.compare_spec (tx_Price a) (tx_Price b)); rewrite ?Z.ltb_lt; intuition (lia || done). Qed.

Lemma priceLess_hle a b : hle priceLess a b <-> tx_Price a < tx_Price b \/ (tx_Price a = tx_Price b /\ TxNonce b <= TxNonce a).
Proof. unfold hle. rewrite <- not_true_iff_false, priceLess_spec. lia. Qed.

#[global] Instance price_order : HeapOrder priceLess.
Proof.
  split.
  - intros x y z. rewrite !priceLess_hle. lia.
  - intros x y. rewrite priceLess_hle, priceLess_spec. lia.
Qed.

Lemma hle_price a b : hle priceLess a b -> tx_Price a <= tx_Price b.
Proof. rewrite priceLess_hle. lia. Qed.

Section priced.
Context (hash : Transaction -> Hash) (range : gmap Hash Transaction -> list (Hash * Transaction)).
Context (Hrange : forall m, range m ≡ₚ map_to_list m).

Definition values (all : gmap Hash Transaction) : list Transaction := map snd (map_to_list all).

(** [all] is keyed by the hash. *)
Definition keyed (all : gmap Hash Transaction) : Prop := forall h tx, all !! h = Some tx -> hash tx = h.

(** The entries of the heap: [L] live ones, possibly with repetitions, and [st] stale ones. *)
Record pl_rep (all : gmap Hash Transaction) (l : txPricedList) (L st : list Transaction) : Prop := {
  pl_heap : Heap.is_heap priceLess (pl_items l);
  pl_perm : pl_items l ≡ₚ L ++ st;
  pl_live : forall tx, tx ∈ L -> live hash all tx = true;
  pl_stale : forall tx, tx ∈ st -> live hash all tx = false
}.

(** The heap holds the transactions of the lookup, and stale ones that have left it; the
    counter accounts for all entries beyond one for each transaction. *)
Record pl_ok (all : gmap Hash Transaction) (l : txPricedList) : Prop := {
  po_keyed : keyed all;
  po_heap : Heap.is_heap priceLess (pl_items l);
  po_in : forall t, all !! hash t = Some t -> t ∈ pl_items l;
  po_same : forall t, t ∈ pl_items l -> live hash all t = true -> all !! hash t = Some t;
  po_stales : Z.of_nat (length (pl_items l)) <= Z.of_nat (size all) + stales l
}.

Lemma values_live all tx : keyed all -> tx ∈ values all <-> all !! hash tx = Some tx.
Proof.
  intros Hk. unfold values. rewrite list_elem_of_fmap. split.
  - intros ([h t] & -> & Hin%elem_of_map_to_list). cbn. by rewrite (Hk h t Hin).
  - intros E. exists (hash tx, tx). split; [done|]. by apply elem_of_map_to_list.
Qed.

Lemma live_true all tx : live hash all tx = true <-> is_Some (all !! hash tx).
Proof. unfold live. destruct (all !! hash tx); split; intros H; try done; by destruct H. Qed.

(** Popping takes a cheapest transaction, live or stale. *)
Lemma pl_pop all l L st tx its : pl_rep all l L st -> Heap.Pop priceLess (pl_items l) = Some (tx, its) ->
  (forall t, t ∈ L -> tx_Price tx <= tx_Price t) /\
  if live hash all tx then exists L', L ≡ₚ tx :: L' /\ pl_rep all (mkPricedList its (stales l)) L' st
  else exists st', st ≡ₚ tx :: st' /\ pl_rep all (mkPricedList its (stales l - 1)) L st'.
Proof.
  intros [Hh Hp HL Hst] E. assert (pl_items l <> []) as Hne by (intros En; rewrite En in E; done).
  destruct (Heap.Pop_ok priceLess (pl_items l) Hne Hh) as (x & l' & E' & _ & Hp' & Hh' & Hmin). rewrite E in E'. injection E' as <- <-.
  split; [intros t Ht; apply hle_price, Hmin; rewrite Hp; apply elem_of_app; by left|].
  assert (tx ∈ L ++ st) as Hin by (rewrite <- Hp, Hp'; left). rewrite Hp' in Hp.
  destruct (live hash all tx) eqn:El.
  - apply elem_of_app in Hin as [Hin|Hin]; [|specialize (Hst tx Hin); congruence].
    apply elem_of_Permutation in Hin as [L' HL']. exists L'. split; [done|]. split; try done.
    + cbn. rewrite HL' in Hp. cbn in Hp. by apply Permutation_cons_inv in Hp.
    + intros t Ht. apply HL. rewrite HL'. by right.
  - apply elem_of_app in Hin as [Hin|Hin]; [specialize (HL tx Hin); congruence|].
    apply elem_of_Permutation in Hin as [st' Hst']. exists st'. split; [done|]. split; try done.
    + cbn. rewrite Hst', <- Permutation_middle in Hp. by apply Permutation_cons_inv in Hp.
    + intros t Ht. apply Hst. rewrite Hst'. by right.
Qed.

Lemma pl_pop_none l : Heap.is_heap priceLess (pl_items l) -> Heap.Pop priceLess (pl_items l) = None -> pl_items l = [].
Proof.
  intros Hh E. destruct (pl_items l) as [|tx t] eqn:Ei; [done|]. destruct (Heap.Pop_ok priceLess (tx :: t)) as (? & ? & E' & _); [done..|]. congruence.
Qed.

Lemma pl_Put_rep all l L st tx : pl_rep all l L st -> live hash all tx = true -> pl_rep all (pl_Put l tx) (tx :: L) st.
Proof.
  intros [Hh Hp HL Hst] Hl. destruct (Heap.Push_ok priceLess (pl_items l) tx Hh) as [Hh' Hp']. split; try done.
  - cbn. by rewrite Hp', Hp.
  - by intros t [->|Ht]%elem_of_cons; [|apply HL].
Qed.

Lemma pl_Puts_rep all save : forall l L st, pl_rep all l L st -> (forall tx, tx ∈ save -> live hash all tx = true) ->
  exists L', pl_rep all (foldl pl_Put l save) L' st /\ L' ≡ₚ L ++ save.
Proof.
  induction save as [|tx save IH]; intros l L st Hr Hs; cbn [foldl]; [exists L; by rewrite app_nil_r|].
  destruct (IH (pl_Put l tx) (tx :: L) st) as (L' & Hr' & Hp); [apply pl_Put_rep; [done|apply Hs; left]|intros t Ht; apply Hs; by right|].
  exists L'. split; [done|]. rewrite Hp. cbn. by rewrite <- Permutation_middle.
Qed.

(** ** [Discard] *)

Lemma pl_pop_length l tx its : Heap.is_heap priceLess (pl_items l) -> Heap.Pop priceLess (pl_items l) = Some (tx, its) ->
  length (pl_items l) = S (length its).
Proof.
  intros Hh E. assert (pl_items l <> []) as Hne by (intros En; rewrite En in E; done).
  destruct (Heap.Pop_ok priceLess (pl_items l) Hne Hh) as (x & l' & E' & _ & Hp' & _). rewrite E in E'. injection E' as <- <-.
  by rewrite (Permutation_length Hp').
Qed.

(** The entries that the counter does not account for. *)
Definition uncounted (l : txPricedList) : Z := Z.of_nat (length (pl_items l)) - stales l.

Lemma pl_Puts_uncounted save : forall l, Heap.is_heap priceLess (pl_items l) ->
  uncounted (foldl pl_Put l save) = uncounted l + Z.of_nat (length save).
Proof.
  induction save as [|tx save IH]; intros l Hh; cbn [foldl length]; [lia|].
  destruct (Heap.Push_ok priceLess (pl_items l) tx Hh) as [Hh' Hp']. rewrite IH by done.
  unfold uncounted. cbn [pl_items stales pl_Put]. rewrite (Permutation_length Hp'). cbn [length]. lia.
Qed.

Lemma pl_pop_uncounted l tx its k : Heap.is_heap priceLess (pl_items l) -> Heap.Pop priceLess (pl_items l) = Some (tx, its) ->
  uncounted l = uncounted (mkPricedList its (stales l - k)) + 1 - k.
Proof. intros Hh E. unfold uncounted. rewrite (pl_pop_length l tx its Hh E). cbn [pl_items stales]. lia. Qed.

(** The outcome of a popping loop: [d] was dropped, [s] is put back, [L'] remains. *)
Record popped (all : gmap Hash Transaction) (local : Transaction -> bool) (l : txPricedList) (L : list Transaction)
    (l' : txPricedList) (L' st' d s : list Transaction) : Prop := {
  po_rep : pl_rep all l' L' st';
  po_perm : L ≡ₚ L' ++ d ++ s;
  po_drop : forall t, t ∈ d -> local t = false;
  po_order : forall t u, t ∈ d -> u ∈ L' -> tx_Price t <= tx_Price u;
  po_count : uncounted l = uncounted l' + Z.of_nat (length d) + Z.of_nat (length s)
}.

Lemma popped_refl all local l L st : pl_rep all l L st -> popped all local l L l L st [] [].
Proof. intros Hr. split; [done|by rewrite !app_nil_r|by intros t ?%not_elem_of_nil|by intros t u ?%not_elem_of_nil|cbn; lia]. Qed.
Lemma popped_drop all local l l1 L L1 tx l' L' st' d s : L ≡ₚ tx :: L1 -> local tx = false -> (forall t, t ∈ L -> tx_Price tx <= tx_Price t) ->
  uncounted l = uncounted l1 + 1 -> popped all local l1 L1 l' L' st' d s -> popped all local l L l' L' st' (tx :: d) s.
Proof.
  intros HL Ht Hmin Hu [Hr Hp Hd Ho Hc]. split; [done| | | |cbn [length]; lia].
  - rewrite HL, Hp. cbn. by rewrite <- Permutation_middle.
  - by intros t [->|Hin]%elem_of_cons; [|apply Hd].
  - intros t u [->|Hin]%elem_of_cons Hin'; [|by apply Ho]. apply Hmin. rewrite HL, Hp. right. apply elem_of_app. by left.
Qed.
Lemma popped_save all local l l1 L L1 tx l' L' st' d s : L ≡ₚ tx :: L1 -> uncounted l = uncounted l1 + 1 ->
  popped all local l1 L1 l' L' st' d s -> popped all local l L l' L' st' d (tx :: s).
Proof.
  intros HL Hu [Hr Hp Hd Ho Hc]. split; [done| |done|done|cbn [length]; lia]. rewrite HL, Hp, !app_assoc. by rewrite <- Permutation_middle.
Qed.
Lemma popped_stale all local l l1 L l' L' st' d s : uncounted l = uncounted l1 ->
  popped all local l1 L l' L' st' d s -> popped all local l L l' L' st' d s.
Proof. intros Hu [Hr Hp Hd Ho Hc]. split; [done..|lia]. Qed.

Lemma pl_rep_empty all l L st : pl_rep all l L st -> pl_items l = [] -> L = [] /\ st = [].
Proof. intros Hr En. pose proof (pl_perm _ _ _ _ Hr) as Hp. rewrite En in Hp. apply Permutation_nil_l in Hp. symmetry in Hp. by apply app_eq_nil in Hp. Qed.

Lemma Discard_loop_ok all local : forall fuel l L st count drop save, pl_rep all l L st -> (length (pl_items l) <= fuel)%nat ->
  exists l' L' st' d s, pl_Discard_loop hash fuel all count local l drop save = (l', drop ++ d, save ++ s) /\
    popped all local l L l' L' st' d s /\ (forall t, t ∈ s -> local t = true) /\
    Z.of_nat (length d) <= Z.max 0 count /\ (L' <> [] -> count <= Z.of_nat (length d)).
Proof.
  assert (forall l L st count (drop save : list Transaction), pl_rep all l L st -> pl_items l = [] \/ count <= 0 ->
    exists l' L' st' d s, (l, drop, save) = (l', drop ++ d, save ++ s) /\ popped all local l L l' L' st' d s /\
    (forall t, t ∈ s -> local t = true) /\ Z.of_nat (length d) <= Z.max 0 count /\ (L' <> [] -> count <= Z.of_nat (length d))) as Hstop.
  { intros l L st count drop save Hr Hend. exists l, L, st, [], []. rewrite !app_nil_r. split; [done|]. split; [by apply popped_refl|].
    split; [by intros t ?%not_elem_of_nil|]. cbn. split; [lia|]. intros HL. destruct Hend as [En|]; [|done].
    by destruct (pl_rep_empty _ _ _ _ Hr En). }
  induction fuel as [|fuel IH]; intros l L st count drop save Hr Hf; cbn [pl_Discard_loop].
  { apply (Hstop l L st); [done|]. left. destruct (pl_items l); [done|cbn in Hf; lia]. }
  destruct (Z.ltb_spec 0 count) as [Hc|Hc]; [|by apply (Hstop l L st); [|right]].
  destruct (Heap.Pop priceLess (pl_items l)) as [[tx its]|] eqn:Ep.
  2: { apply (Hstop l L st); [done|]. left. by apply pl_pop_none; [apply Hr|]. }
  pose proof (pl_pop_length l tx its (pl_heap _ _ _ _ Hr) Ep) as Hlen. pose proof (pl_pop_uncounted l tx its 1 (pl_heap _ _ _ _ Hr) Ep) as Hu.
  destruct (pl_pop all l L st tx its Hr Ep) as [Hmin Hpop]. destruct (live hash all tx) eqn:El; cbn [negb].
  - destruct Hpop as (L1 & HL & Hr1). assert (uncounted l = uncounted (mkPricedList its (stales l)) + 1) as Hu1 by (unfold uncounted in *; cbn in *; lia).
    destruct (local tx) eqn:Eloc.
    + destruct (IH _ _ _ count drop (save ++ [tx]) Hr1 ltac:(cbn; lia)) as (l' & L' & st' & d & s & -> & Hp & Hs & Hd & He).
      exists l', L', st', d, (tx :: s). rewrite <- app_assoc. split; [done|]. split; [by eapply popped_save|].
      split; [by intros t [->|Hin]%elem_of_cons; [|apply Hs]|done].
    + destruct (IH _ _ _ (count - 1) (drop ++ [tx]) save Hr1 ltac:(cbn; lia)) as (l' & L' & st' & d & s & -> & Hp & Hs & Hd & He).
      exists l', L', st', (tx :: d), s. rewrite <- app_assoc. split; [done|]. split; [by eapply popped_drop|]. split; [done|].
      cbn [length]. split; [lia|]. intros HL'. specialize (He HL'). lia.
  - destruct Hpop as (st1 & Hst & Hr1). destruct (IH _ _ _ count drop save Hr1 ltac:(cbn; lia)) as (l' & L' & st' & d & s & -> & Hp & Hrest).
    exists l', L', st', d, s. split; [done|]. split; [eapply popped_stale; [|done]; lia|done].
Qed.

(** ** [Cap] *)

Lemma Cap_loop_priced all local threshold : forall fuel l L st drop save, pl_rep all l L st -> (length (pl_items l) <= fuel)%nat ->
  exists l' L' st' d s, pl_Cap_loop hash fuel all threshold local l drop save = (l', drop ++ d, save ++ s) /\
    popped all local l L l' L' st' d s /\ (forall t, t ∈ d -> tx_Price t < threshold) /\
    (forall t, t ∈ s -> local t = true \/ threshold <= tx_Price t) /\ (forall t, t ∈ L' -> threshold <= tx_Price t).
Proof.
  assert (forall l L st (drop save : list Transaction), pl_rep all l L st -> pl_items l = [] ->
    exists l' L' st' d s, (l, drop, save) = (l', drop ++ d, save ++ s) /\ popped all local l L l' L' st' d s /\
    (forall t, t ∈ d -> tx_Price t < threshold) /\ (forall t, t ∈ s -> local t = true \/ threshold <= tx_Price t) /\
    (forall t, t ∈ L' -> threshold <= tx_Price t)) as Hstop.
  { intros l L st drop save Hr En. exists l, L, st, [], []. rewrite !app_nil_r. split; [done|]. split; [by apply popped_refl|].
    destruct (pl_rep_empty _ _ _ _ Hr En) as [-> ->]. split_and!; by intros t ?%not_elem_of_nil. }
  induction fuel as [|fuel IH]; intros l L st drop save Hr Hf; cbn [pl_Cap_loop].
  { apply (Hstop l L st); [done|]. destruct (pl_items l); [done|cbn in Hf; lia]. }
  destruct (Heap.Pop priceLess (pl_items l)) as [[tx its]|] eqn:Ep.
  2: { apply (Hstop l L st); [done|]. by apply pl_pop_none; [apply Hr|]. }
  pose proof (pl_pop_length l tx its (pl_heap _ _ _ _ Hr) Ep) as Hlen. pose proof (pl_pop_uncounted l tx its 1 (pl_heap _ _ _ _ Hr) Ep) as Hu.
  destruct (pl_pop all l L st tx its Hr Ep) as [Hmin Hpop]. destruct (live hash all tx) eqn:El; cbn [negb].
  - destruct Hpop as (L1 & HL & Hr1). assert (uncounted l = uncounted (mkPricedList its (stales l)) + 1) as Hu1 by (unfold uncounted in *; cbn in *; lia).
    destruct (Z.leb_spec threshold (tx_Price tx)) as [Hge|Hlt].
    { exists (mkPricedList its (stales l)), L1, st, [], [tx]. rewrite app_nil_r. split; [done|].
      split; [eapply popped_save; [done|exact Hu1|by apply popped_refl]|]. split; [by intros t ?%not_elem_of_nil|].
      split; [intros t ->%list_elem_of_singleton; by right|]. intros t Ht. etrans; [exact Hge|]. apply Hmin. rewrite HL. by right. }
    destruct (local tx) eqn:Eloc.
    + destruct (IH _ _ _ drop (save ++ [tx]) Hr1 ltac:(cbn; lia)) as (l' & L' & st' & d & s & -> & Hp & Hd & Hs & He).
      exists l', L', st', d, (tx :: s). rewrite <- app_assoc. split; [done|]. split; [by eapply popped_save|]. split; [done|].
      split; [|done]. intros t [->|Hin]%elem_of_cons; [by left|by apply Hs].
    + destruct (IH _ _ _ (drop ++ [tx]) save Hr1 ltac:(cbn; lia)) as (l' & L' & st' & d & s & -> & Hp & Hd & Hs & He).
      exists l', L', st', (tx :: d), s. rewrite <- app_assoc. split; [done|]. split; [by eapply popped_drop|].
      split; [|done]. by intros t [->|Hin]%elem_of_cons; [|apply Hd].
  - destruct Hpop as (st1 & Hst & Hr1). destruct (IH _ _ _ drop save Hr1 ltac:(cbn; lia)) as (l' & L' & st' & d & s & -> & Hp & Hrest).
    exists l', L', st', d, s. split; [done|]. split; [eapply popped_stale; [|done]; lia|done].
Qed.

(** ** Removing from the lookup *)

Lemma pl_ok_rep all l : pl_ok all l -> exists L st, pl_rep all l L st /\ forall t, t ∈ L <-> all !! hash t = Some t.
Proof.
  intros [Hk Hh Hin Hsame _]. exists (filter (fun t => live hash all t = true) (pl_items l)), (filter (fun t => ~ live hash all t = true) (pl_items l)).
  split; [split|].
  - done.
  - symmetry. apply filter_app_complement.
  - by intros t [? _]%list_elem_of_filter.
  - intros t [? _]%list_elem_of_filter. by apply not_true_iff_false.
  - intros t. rewrite list_elem_of_filter. split; [intros [Hl Ht]; by apply Hsame|]. intros E. split; [apply live_true; by exists t|by apply Hin].
Qed.

Definition without (all : gmap Hash Transaction) (d : list Transaction) : gmap Hash Transaction :=
  foldr (fun tx m => delete (hash tx) m) all d.

Lemma without_Some all d h t : without all d !! h = Some t <-> all !! h = Some t /\ h ∉ map hash d.
Proof.
  induction d as [|tx d IH]; [cbn; split; [intros E; split; [done|apply not_elem_of_nil]|by intros [E _]]|].
  cbn [without foldr map]. rewrite lookup_delete_Some, IH, not_elem_of_cons. naive_solver.
Qed.

Lemma size_without all d : Z.of_nat (size all) <= Z.of_nat (size (without all d)) + Z.of_nat (length d).
Proof.
  induction d as [|tx d IH]; [cbn; lia|]. cbn [without foldr length]. fold (without all d). rewrite map_size_delete.
  destruct (without all d !! hash tx); cbn; lia.
Qed.

Lemma keyed_delete all h : keyed all -> keyed (delete h all).
Proof. intros Hk k t [_ Et]%lookup_delete_Some. by apply Hk. Qed.

(** The heap after the loops, seen from the lookup without the dropped ones. *)
Lemma popped_ok all local l L l' L' st' d s : pl_ok all l -> (forall t, t ∈ L <-> all !! hash t = Some t) ->
  popped all local l L l' L' st' d s -> pl_ok (without all d) (foldl pl_Put l' s).
Proof.
  intros [Hk Hh Hin Hsame Hsz] HL [Hr Hp Hd Ho Hc].
  assert (forall t, t ∈ L' \/ t ∈ d \/ t ∈ s <-> all !! hash t = Some t) as HL' by (intros t; by rewrite <- HL, Hp, !elem_of_app).
  destruct (pl_Puts_rep all s l' L' st' Hr) as (L2 & [Hh2 Hp2 _ Hst2] & HL2); [intros t Ht; apply live_true; exists t; apply HL'; auto|].
  assert (forall t, t ∈ pl_items (foldl pl_Put l' s) <-> t ∈ L' \/ t ∈ s \/ t ∈ st') as Hitems
    by (intros t; rewrite Hp2, HL2, !elem_of_app; tauto).
  split.
  - intros h t [E _]%without_Some. by apply Hk.
  - done.
  - intros t [E Hn]%without_Some. apply Hitems. apply HL' in E as [?|[Ht|?]]; [auto| |auto]. destruct Hn. by apply list_elem_of_fmap_2.
  - intros t Ht [u Hu]%live_true. pose proof Hu as [E Hn]%without_Some. apply Hitems in Ht. assert (all !! hash t = Some t) as Et; [|congruence].
    destruct Ht as [Ht|[Ht|Ht]]; [apply HL'; auto..|]. specialize (Hst2 t Ht). unfold live in Hst2. by rewrite E in Hst2.
  - pose proof (pl_Puts_uncounted s l' (pl_heap _ _ _ _ Hr)) as Hu. pose proof (size_without all d). unfold uncounted in *. lia.
Qed.

Lemma Discard_cheapest all l count local : pl_ok all l ->
  exists drop l', pl_Discard hash all l count local = (drop, l') /\ pl_ok (without all drop) l' /\
    (forall t, t ∈ drop -> all !! hash t = Some t /\ local t = false) /\ Z.of_nat (length drop) <= Z.max 0 count /\
    (forall u, without all drop !! hash u = Some u -> local u = false ->
       count <= Z.of_nat (length drop) /\ forall t, t ∈ drop -> tx_Price t <= tx_Price u) /\
    (NoDup (pl_items l) -> NoDup drop).
Proof.
  intros Hok. destruct (pl_ok_rep all l Hok) as (L & st & Hr & HL). unfold pl_Discard.
  destruct (Discard_loop_ok all local (length (pl_items l)) l L st count [] [] Hr ltac:(lia)) as (l' & L' & st' & d & s & -> & Hp & Hs & Hd & He).
  cbn [app]. eexists _, _. split; [done|]. split; [by eapply popped_ok|]. pose proof Hp as [_ Hperm Hnl Ho _].
  assert (forall t, t ∈ L' \/ t ∈ d \/ t ∈ s <-> all !! hash t = Some t) as HL' by (intros t; by rewrite <- HL, Hperm, !elem_of_app).
  split; [intros t Ht; split; [apply HL'; auto|by apply Hnl]|]. split; [done|]. split.
  - intros u [E Hn]%without_Some Hloc. assert (u ∈ L') as Hu.
    { apply HL' in E as [?|[Hu|Hu]]; [done|destruct Hn; by apply list_elem_of_fmap_2|]. specialize (Hs u Hu). congruence. }
    split; [apply He; intros ->; by apply not_elem_of_nil in Hu|]. intros t Ht. by apply Ho.
  - intros Hnd. rewrite (pl_perm _ _ _ _ Hr), Hperm in Hnd. apply NoDup_app in Hnd as [Hnd _]. apply NoDup_app in Hnd as (_ & _ & Hnd).
    by apply NoDup_app in Hnd as [? _].
Qed.

(** [Cap(threshold)] drops the non-local transactions below the threshold. *)
Lemma Cap_below all l threshold local : pl_ok all l ->
  exists drop l', pl_Cap hash all l threshold local = (drop, l') /\ pl_ok (without all drop) l' /\
    forall t, t ∈ drop <-> all !! hash t = Some t /\ local t = false /\ tx_Price t < threshold.
Proof.
  intros Hok. destruct (pl_ok_rep all l Hok) as (L & st & Hr & HL). unfold pl_Cap.
  destruct (Cap_loop_priced all local threshold (length (pl_items l)) l L st [] [] Hr ltac:(lia)) as (l' & L' & st' & d & s & -> & Hp & Hd & Hs & He).
  cbn [app]. eexists _, _. split; [done|]. split; [by eapply popped_ok|]. pose proof Hp as [_ Hperm Hnl _ _].
  intros t. rewrite <- HL, Hperm, !elem_of_app. split; [intros Ht; auto|]. intros ([Ht|[Ht|Ht]] & Hloc & Hlt); [|done|].
  - specialize (He t Ht). lia.
  - destruct (Hs t Ht); [congruence|lia].
Qed.

(** ** [Underpriced], [Removed], [Put] *)

Lemma pl_clean_ok all : forall fuel l L st, pl_rep all l L st -> (length (pl_items l) <= fuel)%nat ->
  exists st', pl_rep all (pl_clean hash fuel all l) L st' /\ uncounted (pl_clean hash fuel all l) = uncounted l /\
    forall head t, pl_items (pl_clean hash fuel all l) = head :: t -> live hash all head = true.
Proof.
  induction fuel as [|fuel IH]; intros l L st Hr Hf; cbn [pl_clean].
  { exists st. split; [done|]. split; [done|]. intros head t E. rewrite E in Hf. cbn in Hf. lia. }
  destruct (pl_items l) as [|head t] eqn:Ei; [exists st; split; [done|]; split; [done|congruence]|].
  destruct (live hash all head) eqn:El; cbn [negb]; [exists st; split; [done|]; split; [done|]; intros h' t' E; rewrite Ei in E; by injection E as <- _|].
  destruct (Heap.Pop_ok priceLess (pl_items l)) as (x & its & Ep & Ex & _); [by rewrite Ei|apply Hr|].
  rewrite Ei in Ep, Ex. injection Ex as <-. rewrite Ep. rewrite <- Ei in Ep. destruct (pl_pop all l L st head its Hr Ep) as [_ Hpop].
  rewrite El in Hpop. destruct Hpop as (st' & _ & Hr'). pose proof (pl_pop_length l head its (pl_heap _ _ _ _ Hr) Ep) as Hl. rewrite Ei in Hl.
  destruct (IH _ L st' Hr') as (st2 & H1 & H2 & H3); [cbn in *; lia|]. exists st2. split; [done|]. split; [|done].
  rewrite H2, (pl_pop_uncounted l head its 1 (pl_heap _ _ _ _ Hr) Ep). lia.
Qed.

Lemma Underpriced_cheapest all l tx local : pl_ok all l ->
  exists b l', pl_Underpriced hash all l tx local = (b, l') /\ pl_ok all l' /\
    (b = true <-> local tx = false /\ all <> ∅ /\ forall t, all !! hash t = Some t -> tx_Price tx <= tx_Price t).
Proof.
  intros Hok. unfold pl_Underpriced. destruct (local tx) eqn:Eloc; [eexists _, _; split; [done|]; split; [done|]; split; [done|by intros [? _]]|].
  destruct (pl_ok_rep all l Hok) as (L & st & Hr & HL). destruct (pl_clean_ok all (length (pl_items l)) l L st Hr ltac:(lia)) as (st' & Hr' & Hu & Hh).
  set (l1 := pl_clean hash (length (pl_items l)) all l) in *. pose proof Hok as [Hk _ _ _ Hsz].
  assert (forall t, t ∈ pl_items l1 <-> all !! hash t = Some t \/ t ∈ st') as Hitems by (intros t; by rewrite (pl_perm _ _ _ _ Hr'), elem_of_app, HL).
  assert (pl_ok all l1) as Hok1.
  { split; [done|apply Hr'|intros t E; apply Hitems; by left| |unfold uncounted in Hu; lia].
    intros t [?|Ht]%Hitems Hl; [done|]. rewrite (pl_stale _ _ _ _ Hr' t Ht) in Hl. done. }
  assert (forall h t, all !! h = Some t -> all !! hash t = Some t) as Hself by (intros h t E; by rewrite (Hk h t E)).
  destruct (pl_items l1) as [|cheapest its] eqn:Ei; eexists _, _; (split; [done|]; split; [done|]).
  - split; [done|]. intros (_ & Hne & _). destruct (map_choose all Hne) as (h & t & E). assert (t ∈ []) as []%not_elem_of_nil. apply Hitems. left. by eapply Hself.
  - specialize (Hh cheapest its eq_refl). assert (all !! hash cheapest = Some cheapest) as Ec by (apply (po_same _ _ Hok1); [rewrite Ei; left|done]).
    rewrite Z.leb_le. split; [|intros (_ & _ & H); by apply H]. intros Hle. split; [done|].
    split; [intros ->; by rewrite lookup_empty in Ec|]. intros t E. etrans; [exact Hle|]. apply hle_price.
    assert (t ∈ pl_items l1) as (i & Hi)%list_elem_of_lookup by (rewrite Ei; apply Hitems; by left).
    eapply (Heap.is_heap_root priceLess (pl_items l1)); [apply Hr'| |exact Hi]. by rewrite Ei.
Qed.

Lemma Removed_in_step all l tx : pl_ok all l -> all !! hash tx = Some tx ->
  pl_ok (delete (hash tx) all) (pl_Removed range (delete (hash tx) all) l).
Proof.
  intros [Hk Hh Hin Hsame Hsz] E. assert (Z.of_nat (size all) = Z.of_nat (size (delete (hash tx) all)) + 1) as Hsize.
  { rewrite map_size_delete, E. cbn. assert (size all <> 0%nat); [|lia]. apply map_size_non_empty_iff. intros ->. by rewrite lookup_empty in E. }
  assert (keyed (delete (hash tx) all)) as Hk' by (by apply keyed_delete). unfold pl_Removed. destruct (_ <=? _).
  - split; [done|done| | |cbn [pl_items stales]; lia].
    + intros t [_ Et]%lookup_delete_Some. by apply Hin.
    + intros t Ht [u [Hne Hu]%lookup_delete_Some]%live_true. apply lookup_delete_Some. split; [done|].
      apply Hsame; [done|]. apply live_true. by exists u.
  - destruct (Heap.Init_ok priceLess (map snd (range (delete (hash tx) all)))) as [Hh' Hp'].
    assert (forall t, t ∈ Heap.Init priceLess (map snd (range (delete (hash tx) all))) <-> delete (hash tx) all !! hash t = Some t) as Hits.
    { intros t. rewrite Hp', Hrange. by apply values_live. }
    split; [done|done|intros t Et; by apply Hits|intros t Ht _; by apply Hits|]. cbn [pl_items stales].
    rewrite Hp', Hrange, length_map, length_map_to_list. lia.
Qed.

Lemma Put_in_step all l tx : pl_ok all l -> all !! hash tx = None -> (forall t, t ∈ pl_items l -> hash t = hash tx -> t = tx) ->
  pl_ok (<[hash tx := tx]> all) (pl_Put l tx).
Proof.
  intros [Hk Hh Hin Hsame Hsz] En Hcol. destruct (Heap.Push_ok priceLess (pl_items l) tx Hh) as [Hh' Hp'].
  split; [|done| | |].
  - intros h t [[<- <-]|[_ E]]%lookup_insert_Some; [done|by apply Hk].
  - intros t Ht. cbn [pl_items pl_Put]. rewrite Hp', elem_of_cons. apply lookup_insert_Some in Ht as [[_ <-]|[_ E]]; [by left|right; by apply Hin].
  - intros t Ht Hl. cbn [pl_items pl_Put] in Ht. rewrite Hp', elem_of_cons in Ht. destruct (decide (hash tx = hash t)) as [Eh|Hne].
    + assert (t = tx) as -> by (destruct Ht as [->|Ht]; [done|by apply Hcol]). by rewrite lookup_insert_eq.
    + rewrite lookup_insert_ne by done. apply Hsame; [by destruct Ht as [->|]|]. unfold live in *. by rewrite lookup_insert_ne in Hl.
  - cbn [pl_items stales pl_Put]. rewrite Hp', map_size_insert_None by done. cbn [length]. lia.
Qed.

(** C31. The price heap follows the lookup of the pool, with its stale and repeated entries.
    The invariant is that the heap has every pooled transaction, that entries of a pooled
    hash are that transaction, and that the counter accounts for all further entries.  It is
    kept by adding a transaction that is not pooled, whether or not the heap still has stale
    entries of it (no other entry may have its hash), and by taking one out.  [Cap] drops
    exactly the non-local transactions below its threshold.  [Underpriced] answers whether no
    pooled transaction is cheaper than a non-local one.  [Discard] drops pooled non-local
    transactions, no more than asked for, as many as asked for if a non-local one is left,
    which is then no cheaper than the dropped ones; no transaction is dropped twice if the heap
    has no repeated entry. *)
Theorem priced_in_step all l (Hok : pl_ok all l) :
  (forall tx, all !! hash tx = None -> (forall t, t ∈ pl_items l -> hash t = hash tx -> t = tx) -> pl_ok (<[hash tx := tx]> all) (pl_Put l tx)) /\
  (forall tx, all !! hash tx = Some tx -> pl_ok (delete (hash tx) all) (pl_Removed range (delete (hash tx) all) l)) /\
  (forall threshold local, exists drop l', pl_Cap hash all l threshold local = (drop, l') /\ pl_ok (without all drop) l' /\
    forall t, t ∈ drop <-> all !! hash t = Some t /\ local t = false /\ tx_Price t < threshold) /\
  (forall tx local, exists b l', pl_Underpriced hash all l tx local = (b, l') /\ pl_ok all l' /\
    (b = true <-> local tx = false /\ all <> ∅ /\ forall t, all !! hash t = Some t -> tx_Price tx <= tx_Price t)) /\
  (forall count local, exists drop l', pl_Discard hash all l count local = (drop, l') /\ pl_ok (without all drop) l' /\
    (forall t, t ∈ drop -> all !! hash t = Some t /\ local t = false) /\ Z.of_nat (length drop) <= Z.max 0 count /\
    (forall u, without all drop !! hash u = Some u -> local u = false ->
       count <= Z.of_nat (length drop) /\ forall t, t ∈ drop -> tx_Price t <= tx_Price u) /\
    (NoDup (pl_items l) -> NoDup drop)).
Proof.
  split; [intros; by apply Put_in_step|]. split; [intros; by apply Removed_in_step|]. split; [intros; by apply Cap_below|].
  split; [intros; by apply Underpriced_cheapest|]. intros. by apply Discard_cheapest.
Qed.

End priced.

(** ** Examples *)

Definition price_hash (tx : Transaction) : Hash := TxNonce tx * 2 ^ 64 + tx_Price tx.

Definition priced_txs : list Transaction := [pool_tx 1 1; pool_tx 2 2; pool_tx 3 3; pool_tx 4 4].
Definition priced_all : gmap Hash Transaction := foldl (fun m tx => <[price_hash tx := tx]> m) ∅ priced_txs.
Definition priced_list : txPricedList := foldl pl_Put newTxPricedList priced_txs.

Lemma new_priced_ok : pl_ok price_hash ∅ newTxPricedList.
Proof.
  split; [by intros h tx ?|intros j Hj; cbn in Hj; lia|by intros t ?|by intros t ?%not_elem_of_nil|done].
Qed.

Lemma priced_list_ok : pl_ok price_hash priced_all priced_list.
Proof.
  assert (forall all l tx, pl_ok price_hash all l -> bool_decide (all !! price_hash tx = None) = true ->
    bool_decide (Forall (fun t => price_hash t <> price_hash tx) (pl_items l)) = true ->
    pl_ok price_hash (<[price_hash tx := tx]> all) (pl_Put l tx)) as Hput.
  { intros all l tx Hok Hn%bool_decide_eq_true Hnew%bool_decide_eq_true. rewrite Forall_forall in Hnew. apply Put_in_step; [done..|].
    intros t Ht E. by destruct (Hnew t Ht). }
  unfold priced_all, priced_list, priced_txs. cbn [foldl].
  repeat (apply Hput; [|vm_compute; reflexivity|vm_compute; reflexivity]). apply new_priced_ok.
Qed.

(** A transaction is dropped and comes back while its stale entry is in the heap. *)
Definition back_all : gmap Hash Transaction := delete (price_hash (pool_tx 1 1)) priced_all.
Definition back_list : txPricedList := pl_Removed map_to_list back_all priced_list.

Lemma priced_in_step_witness : pool_tx 1 1 ∈ pl_items back_list /\
  pl_ok price_hash (<[price_hash (pool_tx 1 1) := pool_tx 1 1]> back_all) (pl_Put back_list (pool_tx 1 1)).
Proof.
  destruct (priced_in_step price_hash map_to_list (fun m => reflexivity _) priced_all priced_list priced_list_ok) as (_ & Hremoved & _).
  destruct (priced_in_step price_hash map_to_list (fun m => reflexivity _) back_all back_list) as (Hput & _);
    [apply Hremoved; vm_compute; reflexivity|].
  split; [apply (bool_decide_unpack _); vm_compute; exact I|]. apply Hput; [vm_compute; reflexivity|].
  assert (bool_decide (Forall (fun t => price_hash t = price_hash (pool_tx 1 1) -> t = pool_tx 1 1) (pl_items back_list)) = true) as Hf
    by (vm_compute; reflexivity).
  apply bool_decide_eq_true in Hf. intros t Ht. exact (proj1 (Forall_forall _ _) Hf t Ht).
Defined.

(** The limit of the lazy cleaning: when a transaction is dropped and added again
    before its stale entry is popped, the heap holds it twice.  [Discard(2)] then
    returns one transaction twice instead of the two cheapest. *)
Theorem Discard_repeats (range : gmap Hash Transaction -> list (Hash * Transaction)) :
  exists all l tx, pl_ok price_hash all l /\ all !! price_hash tx = Some tx /\
    let l := pl_Removed range (delete (price_hash tx) all) l in
    let l := pl_Put l tx in
    fst (pl_Discard price_hash all l 2 (fun _ => false)) = [tx; tx].
Proof.
  exists priced_all, priced_list, (pool_tx 1 1). split; [apply priced_list_ok|]. split; [vm_compute; reflexivity|].
  vm_compute. reflexivity.
Qed.
