(* ===== verification/TxOrder.v ===== *)
(** * Transactions by price and nonce ([kernel/types/transaction.go])

    [TransactionsByPriceAndNonce], the order in which a block is filled: a heap of
    the next transaction of each account, by price.  Draining it gives a merge of
    the accounts' lists that at each point takes the best price on offer and
    never reorders an account. *)
From S2P Require Import Prelude Heap CommonMath VmInterface ChainTypes StateTransition Transactions TxFacts TxList.
From stdpp Require Import base numbers list gmap.
From Stdlib Require Import ZArith Lia.
#[local] Open Scope Z_scope.

(** ** Model *)

(** [TxByPrice.Less]: the highest price first. *)
Definition TxByPrice_Less (a b : Transaction) : bool := tx_Price b <? tx_Price a.

Record TransactionsByPriceAndNonce := mkByPrice {
  bp_txs : gmap Address (list Transaction);
  heads : list Transaction
}.

Section order.
(** [Sender(signer, tx)] with the error ignored: the zero address on failure. *)
Context (sender : Transaction -> Address).

(** One turn of the loop of [NewTransactionsByPriceAndNonce]; an account without
    transactions panics. *)
Definition New_step (from : Address) (txs : gmap Address (list Transaction)) (heads : list Transaction) :
    outcome (gmap Address (list Transaction) * list Transaction) :=
  match txs !! from with
  | None => Ok (txs, heads)
  | Some [] => Panic
  | Some (tx :: rest) =>
      let acc := sender tx in
      let txs := <[acc := rest]> txs in
      let txs := if acc =? from then txs else delete from txs in
      Ok (txs, heads ++ [tx])
  end.

(** The loop, visiting the accounts in the order [order] of the map. *)
Fixpoint New_loop (order : list Address) (txs : gmap Address (list Transaction)) (heads : list Transaction) :
    outcome (gmap Address (list Transaction) * list Transaction) :=
  match order with
  | [] => Ok (txs, heads)
  | from :: order => let! (txs, heads) := New_step from txs heads in New_loop order txs heads
  end.

Definition NewTransactionsByPriceAndNonce (order : list Address) (txs : gmap Address (list Transaction)) :
    outcome TransactionsByPriceAndNonce :=
  let! (txs, heads) := New_loop order txs [] in
  Ok (mkByPrice txs (Heap.Init TxByPrice_Less heads)).

Definition Peek (t : TransactionsByPriceAndNonce) : option Transaction := head (heads t).

Definition Shift (t : TransactionsByPriceAndNonce) : outcome TransactionsByPriceAndNonce :=
  match heads t with
  | [] => Panic
  | h :: hs =>
      let acc := sender h in
      match bp_txs t !! acc with
      | Some (tx :: rest) => Ok (mkByPrice (<[acc := rest]> (bp_txs t)) (Heap.Fix TxByPrice_Less (tx :: hs) 0))
      | _ =>
          match Heap.Pop TxByPrice_Less (heads t) with
          | Some (_, hs) => Ok (mkByPrice (bp_txs t) hs)
          | None => Panic
          end
      end
  end.

Definition ByPrice_Pop (t : TransactionsByPriceAndNonce) : outcome TransactionsByPriceAndNonce :=
  match Heap.Pop TxByPrice_Less (heads t) with
  | Some (_, hs) => Ok (mkByPrice (bp_txs t) hs)
  | None => Panic
  end.

(** The transactions a block producer sees that shifts after each. *)
Fixpoint drain (fuel : nat) (t : TransactionsByPriceAndNonce) : outcome (list Transaction) :=
  match fuel with
  | O => OutOfFuel
  | S fuel =>
      match Peek t with
      | None => Ok []
      | Some tx => let! t := Shift t in let! l := drain fuel t in Ok (tx :: l)
      end
  end.

(** ** Specification *)

(** Merging lists [rem], one per account: the next transaction is the first of some
    account and has the best price among the first ones. *)
Inductive merges : gmap Address (list Transaction) -> list Transaction -> Prop :=
| merges_nil rem : (forall a, default [] (rem !! a) = []) -> merges rem []
| merges_cons rem a tx rest out : rem !! a = Some (tx :: rest) ->
    (forall b ty l, rem !! b = Some (ty :: l) -> tx_Price ty <= tx_Price tx) ->
    merges (<[a := rest]> rem) out -> merges rem (tx :: out).

#[global] Instance by_price_order : HeapOrder TxByPrice_Less.
Proof.
  split; unfold hle, TxByPrice_Less.
  - intros x y z H1%Z.ltb_ge H2%Z.ltb_ge. apply Z.ltb_ge. lia.
  - intros x y H%Z.ltb_lt. apply Z.ltb_ge. lia.
Qed.

(** The structure holds, for each account of [rem] with transactions left, the
    first one in the heap and the others in the map. *)
Record by_price (rem : gmap Address (list Transaction)) (t : TransactionsByPriceAndNonce) : Prop := {
  bp_sender : forall a l tx, rem !! a = Some l -> tx ∈ l -> sender tx = a;
  bp_heap : Heap.is_heap TxByPrice_Less (heads t);
  bp_heads : heads t ≡ₚ omap (fun p => head (snd p)) (map_to_list rem);
  bp_rest : forall a tx rest, rem !! a = Some (tx :: rest) -> default [] (bp_txs t !! a) = rest
}.

Definition firsts (rem : gmap Address (list Transaction)) : list Transaction := omap (fun p => head (snd p)) (map_to_list rem).

Lemma elem_of_firsts rem tx : tx ∈ firsts rem <-> exists a rest, rem !! a = Some (tx :: rest).
Proof.
  unfold firsts. rewrite list_elem_of_omap. split.
  - intros ([a l] & Hin%elem_of_map_to_list & E). cbn in E. destruct l as [|x rest]; [done|]. injection E as ->. by exists a, rest.
  - intros (a & rest & E). exists (a, tx :: rest). split; [by apply elem_of_map_to_list|done].
Qed.

Lemma firsts_insert rem a l : firsts (<[a := l]> rem) ≡ₚ option_list (head l) ++ firsts (delete a rem).
Proof.
  unfold firsts. rewrite <- (insert_delete_eq rem a l). rewrite map_to_list_insert by (apply lookup_delete_eq). cbn.
  by destruct l.
Qed.

Lemma firsts_lookup rem a tx rest : rem !! a = Some (tx :: rest) -> firsts rem ≡ₚ tx :: firsts (delete a rem).
Proof. intros E. rewrite <- (insert_id rem a _ E) at 1. by rewrite firsts_insert. Qed.

(** ** Draining *)

Definition total (rem : gmap Address (list Transaction)) : nat := length (concat (map snd (map_to_list rem))).

Lemma concat_perm {A} (l k : list (list A)) : l ≡ₚ k -> concat l ≡ₚ concat k.
Proof. induction 1 as [|x l k H IH|x y l|l1 l2 l3 _ IH1 _ IH2]; cbn; [done|by rewrite IH|rewrite !app_assoc; f_equiv; apply Permutation_app_comm|by rewrite IH1]. Qed.

Lemma all_txs_lookup (rem : gmap Address (list Transaction)) a l : rem !! a = Some l ->
  concat (map snd (map_to_list rem)) ≡ₚ l ++ concat (map snd (map_to_list (delete a rem))).
Proof. intros E. rewrite <- (concat_perm _ _ (Permutation_map snd (map_to_list_delete rem a l E))). done. Qed.

Lemma all_txs_insert (rem : gmap Address (list Transaction)) a l : concat (map snd (map_to_list (<[a := l]> rem))) ≡ₚ l ++ concat (map snd (map_to_list (delete a rem))).
Proof. rewrite (all_txs_lookup _ a l) by (apply lookup_insert_eq). by rewrite delete_insert_eq. Qed.

Lemma Shift_ok rem t h hs : by_price rem t -> heads t = h :: hs ->
  exists a rest t', rem !! a = Some (h :: rest) /\ Shift t = Ok t' /\ by_price (<[a := rest]> rem) t' /\
    (forall b ty l, rem !! b = Some (ty :: l) -> tx_Price ty <= tx_Price h).
Proof.
  intros [Hs Hh Hp Hr] Eh. fold (firsts rem) in Hp.
  assert (h ∈ firsts rem) as (a & rest & E)%elem_of_firsts by (rewrite <- Hp, Eh; left).
  assert (sender h = a) as Ea by (apply (Hs a _ h E); left).
  assert (hs ≡ₚ firsts (delete a rem)) as Hps by (rewrite Eh, (firsts_lookup _ _ _ _ E) in Hp; by apply Permutation_cons_inv in Hp).
  assert (forall b ty l, rem !! b = Some (ty :: l) -> tx_Price ty <= tx_Price h) as Hmax.
  { intros b ty l Eb. assert (ty ∈ heads t) as (i & Hi)%list_elem_of_lookup by (rewrite Hp; apply elem_of_firsts; by exists b, l).
    pose proof (Heap.is_heap_root TxByPrice_Less (heads t) h ty i Hh ltac:(by rewrite Eh) Hi) as H. by apply Z.ltb_ge in H. }
  assert (forall b l tx, <[a := rest]> rem !! b = Some l -> tx ∈ l -> sender tx = b) as Hs'.
  { intros b l tx [[<- <-]|[_ Eb]]%lookup_insert_Some Hin; [|by eapply Hs]. apply (Hs a _ tx E). by right. }
  specialize (Hr a h rest E) as Hra. exists a, rest. unfold Shift. rewrite Eh, Ea.
  assert (forall tx r (txs' : gmap Address (list Transaction)), (forall b, b <> a -> txs' !! b = bp_txs t !! b) -> default [] (txs' !! a) = r -> rest = tx :: r ->
    forall b ty l, <[a := rest]> rem !! b = Some (ty :: l) -> default [] (txs' !! b) = l) as Hrest.
  { intros tx r txs' Hne Ha Er b ty l [[<- Eq]|[Hb Eb]]%lookup_insert_Some; [rewrite Er in Eq; injection Eq as _ <-; done|].
    rewrite Hne by done. by apply (Hr b ty). }
  destruct rest as [|tx r].
  - assert (exists hs', Heap.Pop TxByPrice_Less (h :: hs) = Some (h, hs') /\ hs' ≡ₚ hs /\ Heap.is_heap TxByPrice_Less hs') as (hs' & Epop & Hp' & Hh').
    { rewrite Eh in Hh. destruct (Heap.Pop_ok TxByPrice_Less (h :: hs)) as (x & hs' & E1 & [= <-] & E2 & E3 & _); [done|done|].
      exists hs'. split; [done|]. split; [by apply Permutation_cons_inv in E2|done]. }
    exists (mkByPrice (bp_txs t) hs'). split; [done|]. split.
    { destruct (bp_txs t !! a) as [[|]|]; cbn in Hra; try done; by rewrite Epop. }
    split; [|done]. split; [done|done| |].
    + cbn [heads]. fold (firsts (<[a := []]> rem)). by rewrite firsts_insert, Hp', Hps.
    + cbn [bp_txs]. intros b ty l [[<- [=]]|[Hb Eb]]%lookup_insert_Some. by apply (Hr b ty).
  - destruct (bp_txs t !! a) as [[|tx' r']|] eqn:Eat; cbn in Hra; try done. injection Hra as -> ->.
    rewrite Eh in Hh. destruct (Heap.Fix_root_ok TxByPrice_Less h tx hs Hh) as [Hh' Hp'].
    eexists. split; [done|]. split; [done|]. split; [|done]. split; [done|done| |].
    + cbn [heads]. fold (firsts (<[a := tx :: r]> rem)). by rewrite firsts_insert, Hp', Hps.
    + cbn [bp_txs]. apply (Hrest tx r); [intros b Hb; by rewrite lookup_insert_ne|by rewrite lookup_insert_eq|done].
Qed.

Lemma drain_ok : forall fuel rem t, by_price rem t -> (total rem < fuel)%nat ->
  exists out, drain fuel t = Ok out /\ merges rem out.
Proof.
  induction fuel as [|fuel IH]; intros rem t Ht Hf; [lia|]. cbn [drain]. unfold Peek. destruct (heads t) as [|h hs] eqn:Eh; cbn [head].
  - exists []. split; [done|]. constructor. intros a. destruct (rem !! a) as [[|tx l]|] eqn:E; [done| |done].
    assert (tx ∈ heads t) as Hin by (rewrite (bp_heads _ _ Ht); apply elem_of_firsts; by exists a, l). rewrite Eh in Hin. by apply not_elem_of_nil in Hin.
  - destruct (Shift_ok rem t h hs Ht Eh) as (a & rest & t' & E & -> & Ht' & Hmax). cbn [obind].
    destruct (IH (<[a := rest]> rem) t' Ht') as (out & -> & Hm).
    { unfold total in *. rewrite (Permutation_length (all_txs_lookup rem a _ E)) in Hf. rewrite (Permutation_length (all_txs_insert rem a rest)).
      rewrite length_app in *. cbn [length] in Hf. lia. }
    cbn [obind]. exists (h :: out). split; [done|]. by eapply merges_cons.
Qed.

(** ** What a merge is *)

Lemma merges_perm rem out : merges rem out -> out ≡ₚ concat (map snd (map_to_list rem)).
Proof.
  induction 1 as [rem Hnil|rem a tx rest out E Hmax Hm IH].
  - assert (concat (map snd (map_to_list rem)) = []) as ->; [|done]. apply concat_nil_Forall, List.Forall_forall.
    intros l Hl%list_elem_of_In. apply list_elem_of_fmap in Hl as ([a k] & -> & Hin%elem_of_map_to_list). specialize (Hnil a). by rewrite Hin in Hnil.
  - rewrite IH, all_txs_insert, (all_txs_lookup rem a _ E). done.
Qed.

Lemma merges_account rem out a : merges rem out -> (forall b l tx, rem !! b = Some l -> tx ∈ l -> sender tx = b) ->
  filter (fun tx => sender tx = a) out = default [] (rem !! a).
Proof.
  induction 1 as [rem Hnil|rem b tx rest out E Hmax Hm IH]; intros Hs; [by rewrite Hnil|].
  assert (sender tx = b) as Eb by (apply (Hs b _ tx E); left).
  assert (filter (fun tx => sender tx = a) out = default [] (<[b := rest]> rem !! a)) as IH'.
  { apply IH. intros c l ty [[<- <-]|[_ Ec]]%lookup_insert_Some Hin; [|by eapply Hs]. apply (Hs b _ ty E). by right. }
  rewrite filter_cons, IH'. case_decide as Hd.
  - assert (a = b) as -> by congruence. by rewrite lookup_insert_eq, E.
  - rewrite lookup_insert_ne; [done|congruence].
Qed.

(** ** Building *)

Lemma New_loop_ok : forall order (txs : gmap Address (list Transaction)) hds, NoDup order ->
  (forall a, a ∈ order -> exists tx rest, txs !! a = Some (tx :: rest) /\ sender tx = a) ->
  exists txs', New_loop order txs hds = Ok (txs', hds ++ omap (fun a => txs !! a ≫= head) order) /\
    forall a, txs' !! a = if decide (a ∈ order) then tail <$> txs !! a else txs !! a.
Proof.
  induction order as [|from order IH]; intros txs hds Hnd Hs; cbn [New_loop].
  { exists txs. rewrite app_nil_r. split; [done|]. intros a. by rewrite decide_False by apply not_elem_of_nil. }
  apply NoDup_cons in Hnd as [Hni Hnd]. destruct (Hs from ltac:(left)) as (tx & rest & E & Es).
  unfold New_step. rewrite E, Es, Z.eqb_refl. cbn [obind].
  destruct (IH (<[from := rest]> txs) (hds ++ [tx]) Hnd) as (txs' & -> & Hl).
  { intros a Ha. rewrite lookup_insert_ne by (intros ->; done). apply Hs. by right. }
  exists txs'. split.
  - rewrite <- app_assoc. cbn [app omap list_omap]. rewrite E. cbn. do 4 f_equal. apply list_omap_ext.
    apply Forall_Forall2_diag, Forall_forall. intros a Ha. rewrite lookup_insert_ne; [done|intros ->; done].
  - intros a. rewrite Hl. destruct (decide (a = from)) as [->|Hne].
    + rewrite decide_False by done. rewrite lookup_insert_eq, decide_True by left. by rewrite E.
    + rewrite lookup_insert_ne by done. destruct (decide (a ∈ order)); [rewrite decide_True by (by right)|rewrite decide_False]; [done|done|].
      intros [?|?]%elem_of_cons; done.
Qed.

Lemma omap_fst_firsts (txs : gmap Address (list Transaction)) (l : list (Address * list Transaction)) :
  (forall p, p ∈ l -> txs !! fst p = Some (snd p)) -> omap (fun a => txs !! a ≫= head) (map fst l) = omap (fun p => head (snd p)) l.
Proof.
  induction l as [|[a k] l IH]; intros Hl; [done|]. cbn [map omap list_omap fst snd].
  pose proof (Hl (a, k) ltac:(left)) as E. cbn [fst snd] in E. rewrite E. cbn [mbind option_bind].
  rewrite IH by (intros p Hp; apply Hl; by right). done.
Qed.

Lemma New_by_price order txs : order ≡ₚ map fst (map_to_list txs) ->
  (forall a l, txs !! a = Some l -> l <> [] /\ forall tx, tx ∈ l -> sender tx = a) ->
  exists t, NewTransactionsByPriceAndNonce order txs = Ok t /\ by_price txs t.
Proof.
  intros Ho Hs. assert (forall a, a ∈ order <-> is_Some (txs !! a)) as Hin.
  { intros a. rewrite Ho, list_elem_of_fmap. split.
    - intros ([b l] & -> & E%elem_of_map_to_list). by exists l.
    - intros [l E]. exists (a, l). split; [done|]. by apply elem_of_map_to_list. }
  destruct (New_loop_ok order txs []) as (txs' & E & Hl).
  { rewrite Ho. apply NoDup_fst_map_to_list. }
  { intros a [l El]%Hin. destruct (Hs a l El) as [Hne Hsd]. destruct l as [|tx rest]; [done|]. exists tx, rest. split; [done|]. apply Hsd. left. }
  unfold NewTransactionsByPriceAndNonce. rewrite E. cbn [obind app]. eexists. split; [done|].
  destruct (Heap.Init_ok TxByPrice_Less (omap (fun a => txs !! a ≫= head) order)) as [Hh Hp].
  split; [intros a l tx El; by apply (Hs a l El)|done| |].
  - cbn [heads]. rewrite Hp, Ho. rewrite (omap_fst_firsts txs (map_to_list txs)); [done|]. intros [a l] H%elem_of_map_to_list. done.
  - cbn [bp_txs]. intros a tx rest Ea. rewrite Hl, decide_True by (apply Hin; by eexists). by rewrite Ea.
Qed.

(** C28. The order in which a block is filled.  For accounts whose transactions are
    listed under their sender, whatever order the map is visited in, draining the
    structure with [Peek] and [Shift] terminates and yields a merge of the lists
    that always takes the best price on offer; so it contains each transaction
    once, and the transactions of an account in their order. *)
Theorem price_and_nonce_order order txs (Ho : order ≡ₚ map fst (map_to_list txs))
    (Hs : forall a l, txs !! a = Some l -> l <> [] /\ forall tx, tx ∈ l -> sender tx = a) :
  exists t out, NewTransactionsByPriceAndNonce order txs = Ok t /\ drain (S (total txs)) t = Ok out /\ merges txs out /\
    out ≡ₚ concat (map snd (map_to_list txs)) /\
    forall a, filter (fun tx => sender tx = a) out = default [] (txs !! a).
Proof.
  destruct (New_by_price order txs Ho Hs) as (t & E & Ht). destruct (drain_ok (S (total txs)) txs t Ht ltac:(lia)) as (out & Ed & Hm).
  exists t, out. split; [done|]. split; [done|]. split; [done|]. split; [by apply merges_perm|].
  intros a. apply merges_account; [done|]. intros b l tx Eb. by apply (Hs b l Eb).
Qed.

End order.

Definition order_sender (tx : Transaction) : Address := default 0 (tx_Recipient tx).
Definition order_tx (a nonce price : Z) : Transaction := mkTransaction nonce price 21000 (Some a) 0 [] 27 1 1.
Definition order_txs : gmap Address (list Transaction) :=
  <[1 := [order_tx 1 0 5; order_tx 1 1 9]]> (<[2 := [order_tx 2 0 7; order_tx 2 1 6]]> ∅).

Lemma price_and_nonce_order_witness : exists t,
  NewTransactionsByPriceAndNonce order_sender (map fst (map_to_list order_txs)) order_txs = Ok t /\
  drain order_sender 5 t = Ok [order_tx 2 0 7; order_tx 2 1 6; order_tx 1 0 5; order_tx 1 1 9].
Proof.
  destruct (price_and_nonce_order order_sender (map fst (map_to_list order_txs)) order_txs) as (t & out & E & Ed & _); [reflexivity| |].
  - unfold order_txs. intros a l [[<- <-]|[_ [[<- <-]|[_ H]]%lookup_insert_Some]]%lookup_insert_Some; [| |done];
      (split; [discriminate|]); intros tx Hin; repeat (apply elem_of_cons in Hin as [->|Hin]; [reflexivity|]); by apply not_elem_of_nil in Hin.
  - exists t. split; [exact E|].
    assert ((let! t := NewTransactionsByPriceAndNonce order_sender (map fst (map_to_list order_txs)) order_txs in drain order_sender 5 t) =
      Ok [order_tx 2 0 7; order_tx 2 1 6; order_tx 1 0 5; order_tx 1 1 9]) as H by (vm_compute; reflexivity).
    rewrite E in H. exact H.
Defined.
