(* ===== verification/EthashAlgo.v ===== *)
(** * The proof-of-work function ([lib/consensus/ethash/algorithm.go])

    The verification cache, the dataset and [hashimoto] over either of them.  The cache
    is generated in a flat buffer of bytes, as in the source, and shown to be the list of
    64-byte rows of the definition of Ethash; the dataset, whose offsets are multiples
    of 64, is a list of rows.  Words are read little-endian, which is what [swap]
    arranges on the other machines.  Offsets computed in [uint32] wrap as in the
    source.  Light and full hashing agree for datasets up to 4 GiB; beyond, the
    generated dataset is wrong. *)
From S2P Require Import Prelude CommonMath VmInterface MemDb.
From stdpp Require Import base numbers list.
From Stdlib Require Import ZArith Lia.
#[local] Open Scope Z_scope.

(** ** Model *)

Definition datasetInitBytes : Z := 2 ^ 30.
Definition datasetGrowthBytes : Z := 2 ^ 23.
Definition cacheInitBytes : Z := 2 ^ 24.
Definition cacheGrowthBytes : Z := 2 ^ 17.
Definition epochLength : Z := 30000.
Definition mixBytes : Z := 128.
Definition hashBytes : Z := 64.
Definition hashWords : nat := 16.
Definition datasetParents : nat := 256.
Definition cacheRounds : nat := 3.
Definition loopAccesses : nat := 64.

Definition u32 (x : Z) : Z := x mod 2 ^ 32.

(** Little-endian words. *)
Definition le2z (b : list byte) : Z := be2z (reverse b).
Definition z2le (n : nat) (x : Z) : list byte := reverse (z2be n x).

Fixpoint words (n : nat) (b : list byte) : list Z :=
  match n with
  | O => []
  | S n => le2z (take 4 b) :: words n (drop 4 b)
  end.
Definition words_of (b : list byte) : list Z := words (length b / 4) b.
Definition bytes_of (ws : list Z) : list byte := concat (map (z2le 4) ws).

Definition fnv (a b : Z) : Z := Z.lxor (u32 (a * 0x01000193)) b.

(** [fnvHash(mix, data)]; [data] is at least as long as [mix]. *)
Definition fnvHash (mix data : list Z) : list Z := zip_with fnv mix data.

Definition xorBytes (a b : list byte) : list byte := zip_with (fun x y => z2b (Z.lxor (b2z x) (b2z y))) a b.

Section algo.
Context (cr : Crypto) (keccak512 : list byte -> list byte).

(** [seedHash]: one hash per epoch; below the first epoch there is none. *)
Definition seedHash (block : Z) : list byte :=
  let seed := replicate 32 Byte.x00 in
  if block <? epochLength then seed
  else Nat.iter (Z.to_nat (block / epochLength)) (keccak256 cr) seed.

(** [generateCache] works on the buffer [dest] as bytes.  The hasher writes its 64 bytes
    at [off], and [buf[a:b]] is a slice; both panic out of range. *)
Definition keccak512_at (buf : list byte) (off : Z) (data : list byte) : outcome (list byte) :=
  if (0 <=? off) && (off + hashBytes <=? zlen buf)
  then Ok (take (Z.to_nat off) buf ++ keccak512 data ++ drop (Z.to_nat (off + hashBytes)) buf) else Panic.
Definition slice (buf : list byte) (a b : Z) : outcome (list byte) :=
  if (0 <=? a) && (a <=? b) && (b <=? zlen buf) then Ok (take (Z.to_nat (b - a)) (drop (Z.to_nat a) buf)) else Panic.

(** A loop over the values of its counter. *)
Fixpoint each {A} (f : A -> Z -> outcome A) (ks : list Z) (x : A) : outcome A :=
  match ks with
  | [] => Ok x
  | k :: ks => let! x := f x k in each f ks x
  end.

Definition fill_step (cache : list byte) (offset : Z) : outcome (list byte) :=
  let! data := slice cache (offset - hashBytes) offset in
  keccak512_at cache offset data.

Definition cache_step (rows : Z) (cache : list byte) (j : Z) : outcome (list byte) :=
  let srcOff := ((j - 1 + rows) mod rows) * hashBytes in
  let dstOff := j * hashBytes in
  let! word := slice cache dstOff (dstOff + 4) in
  if u32 rows =? 0 then Panic
  else
    let xorOff := u32 ((le2z word mod u32 rows) * hashBytes) in
    let! src := slice cache srcOff (srcOff + hashBytes) in
    let! xor := slice cache xorOff (u32 (xorOff + hashBytes)) in
    keccak512_at cache dstOff (xorBytes src xor).

(** The offsets of the first pass are the multiples of 64 from 64 to the size. *)
Definition generateCache (dest : list byte) (seed : list byte) : outcome (list byte) :=
  let size := zlen dest in
  let rows := size / hashBytes in
  let! cache := keccak512_at dest 0 seed in
  let! cache := each fill_step (map (fun i => i * hashBytes) (seqZ 1 ((size + hashBytes - 1) / hashBytes - 1))) cache in
  each (fun cache _ => each (cache_step rows) (seqZ 0 rows) cache) (seqZ 0 (Z.of_nat cacheRounds)) cache.

(** [generateDatasetItem]; [cache] is the cache as words, [rows] of 16 each.  The word of a
    row is looked up at a [uint32]. *)
Definition cache_row (cache : list Z) (row : Z) : list Z := take hashWords (drop (Z.to_nat (u32 (row * 16))) cache).

Definition item_parent (cache : list Z) (rows index : Z) (mix : list Z) (i : Z) : list Z :=
  let parent := fnv (Z.lxor index i) (mix !!! Z.to_nat (i mod 16)) mod rows in
  fnvHash mix (cache_row cache parent).

Definition generateDatasetItem (cache : list Z) (index : Z) : list byte :=
  let rows := u32 (Z.of_nat (length cache / hashWords)) in
  let row := cache_row cache (index mod rows) in
  let first := match row with w :: row => Z.lxor w index :: row | [] => [] end in
  let mix := keccak512 (bytes_of first) in
  let intMix := words hashWords mix in
  let intMix := foldl (item_parent cache rows index) intMix (seqZ 0 (Z.of_nat datasetParents)) in
  keccak512 (bytes_of intMix).

(** [generateDataset]: the progress reports are left out; they divide by a hundredth of
    the rows, so that the code needs a hundred rows at least.  The indices of a thread, *)
Definition batch (size threads : Z) : Z := u32 ((size + hashBytes * threads - 1) / (hashBytes * threads)).

Definition thread_range (size threads id : Z) : list Z :=
  let first := u32 (u32 id * batch size threads) in
  let limit := u32 (first + batch size threads) in
  let limit := if u32 (size / hashBytes) <? limit then u32 (size / hashBytes) else limit in
  seqZ first (limit - first).

(** the write of one item, at a [uint32] offset, *)
Definition dataset_write (cache : list Z) (dataset : list (list byte)) (index : Z) : list (list byte) :=
  <[Z.to_nat (u32 (index * hashBytes) / hashBytes) := generateDatasetItem cache index]> dataset.

(** and the dataset, when the threads' writes interleave as in [order]. *)
Definition generateDataset (cache : list Z) (dest : list (list byte)) (order : list Z) : list (list byte) :=
  foldl (dataset_write cache) dest order.

(** [hashimoto]. *)
Definition hashimoto_access (rows seedHead : Z) (lookup : Z -> list Z) (mix : list Z) (i : Z) : list Z :=
  let parent := fnv (Z.lxor (u32 i) seedHead) (mix !!! Z.to_nat (i mod 32)) mod rows in
  fnvHash mix (lookup (u32 (2 * parent)) ++ lookup (u32 (2 * parent + 1))).

Fixpoint compress_mix (n : nat) (mix : list Z) : list Z :=
  match n, mix with
  | S n, a :: b :: c :: d :: mix => fnv (fnv (fnv a b) c) d :: compress_mix n mix
  | _, _ => []
  end.

Definition hashimoto (hash : list byte) (nonce size : Z) (lookup : Z -> list Z) : list byte * list byte :=
  let rows := u32 (size / mixBytes) in
  let seed := keccak512 (take 32 (hash ++ replicate 32 Byte.x00) ++ z2le 8 nonce) in
  let seedHead := le2z (take 4 seed) in
  let mix := words 16 seed ++ words 16 seed in
  let mix := foldl (hashimoto_access rows seedHead lookup) mix (seqZ 0 (Z.of_nat loopAccesses)) in
  let digest := bytes_of (compress_mix 8 mix) in
  (digest, keccak256 cr (seed ++ digest)).

Definition hashimotoLight (size : Z) (cache : list Z) (hash : list byte) (nonce : Z) : list byte * list byte :=
  hashimoto hash nonce size (fun index => words_of (generateDatasetItem cache index)).

(** The dataset as rows; the offset of a row in words is a [uint32]. *)
Definition hashimotoFull (dataset : list (list byte)) (hash : list byte) (nonce : Z) : list byte * list byte :=
  hashimoto hash nonce (hashBytes * Z.of_nat (length dataset))
    (fun index => words_of (dataset !!! Z.to_nat (u32 (index * 16) / 16))).

(** ** Threads *)

Lemma u32_small x : 0 <= x < 2 ^ 32 -> u32 x = x.
Proof. apply Z.mod_small. Qed.

Lemma seqZ_split m a b : 0 <= a -> 0 <= b -> seqZ m (a + b) = seqZ m a ++ seqZ (m + a) b.
Proof. intros Ha Hb. by rewrite seqZ_app. Qed.

Lemma batch_eq rows threads : 0 < threads -> 0 <= rows -> rows + threads < 2 ^ 32 ->
  batch (64 * rows) threads = (rows + threads - 1) / threads.
Proof.
  intros Ht Hr Hb. unfold batch, hashBytes.
  assert ((64 * rows + 64 * threads - 1) / (64 * threads) = (rows + threads - 1) / threads) as ->.
  { rewrite <- Z.div_div by lia. f_equal. replace (64 * rows + 64 * threads - 1) with (63 + (rows + threads - 1) * 64) by lia.
    rewrite Z.div_add by done. done. }
  apply u32_small. split; [apply Z.div_pos; lia|]. apply Z.div_lt_upper_bound; nia.
Qed.

(** The ranges of the first [n] threads. *)
Lemma thread_ranges_prefix rows threads n : 0 < threads -> 0 <= rows -> rows + threads < 2 ^ 32 -> (Z.of_nat n <= threads) ->
  concat (map (fun id => thread_range (64 * rows) threads (Z.of_nat id)) (seq 0 n)) =
  seqZ 0 (Z.min rows (Z.of_nat n * batch (64 * rows) threads)).
Proof.
  intros Ht Hr Hb Hn. pose proof (batch_eq rows threads Ht Hr Hb) as Eb.
  set (B := batch (64 * rows) threads) in *. assert (0 <= B /\ threads * B < rows + threads) as [HB0 HB].
  { rewrite Eb. split; [apply Z.div_pos; lia|]. pose proof (Z.mul_div_le (rows + threads - 1) threads Ht). lia. }
  induction n as [|n IH]; [cbn; by rewrite Z.min_r by lia|]. rewrite seq_S, map_app, concat_app, IH by lia. cbn [map concat].
  rewrite app_nil_r, Nat.add_0_l.
  unfold thread_range. fold B. assert (Z.of_nat n * B <= (threads - 1) * B) by nia.
  assert (Z.of_nat n * B + B < 2 ^ 32) by nia.
  rewrite (u32_small (Z.of_nat n)) by nia. rewrite (u32_small (Z.of_nat n * B)) by nia. rewrite (u32_small (Z.of_nat n * B + B)) by nia.
  replace (64 * rows / hashBytes) with rows by (unfold hashBytes; rewrite Z.mul_comm, Z.div_mul; lia).
  rewrite (u32_small rows) by lia. replace (Z.of_nat (S n) * B) with (Z.of_nat n * B + B) by lia.
  destruct (Z.ltb_spec rows (Z.of_nat n * B + B)) as [Hlt|Hge].
  - rewrite (Z.min_l rows (Z.of_nat n * B + B)) by lia. destruct (Z.le_gt_cases rows (Z.of_nat n * B)) as [Hle|Hgt].
    + rewrite Z.min_l by lia. replace (seqZ (Z.of_nat n * B) (rows - Z.of_nat n * B)) with (@nil Z); [by rewrite app_nil_r|].
      symmetry. unfold seqZ. replace (Z.to_nat (rows - Z.of_nat n * B)) with 0%nat by lia. done.
    + rewrite Z.min_r by lia. rewrite <- (seqZ_split 0 (Z.of_nat n * B)) by nia. f_equal. lia.
  - rewrite !Z.min_r by lia. replace (Z.of_nat n * B + B - Z.of_nat n * B) with B by lia. by rewrite <- (seqZ_split 0 (Z.of_nat n * B)) by nia.
Qed.

Lemma thread_ranges rows threads : 0 < threads -> 0 <= rows -> rows + threads < 2 ^ 32 ->
  concat (map (fun id => thread_range (64 * rows) threads (Z.of_nat id)) (seq 0 (Z.to_nat threads))) = seqZ 0 rows.
Proof.
  intros Ht Hr Hb. rewrite thread_ranges_prefix by lia. f_equal. apply Z.min_l. rewrite (batch_eq rows threads), Z2Nat.id by lia.
  pose proof (Z.div_mod (rows + threads - 1) threads ltac:(lia)). pose proof (Z.mod_pos_bound (rows + threads - 1) threads Ht). lia.
Qed.

(** ** The generated dataset *)

Lemma offset_row index : 0 <= index -> u32 (index * hashBytes) / hashBytes = index mod 2 ^ 26.
Proof.
  intros Hi. unfold u32, hashBytes. replace (2 ^ 32) with (2 ^ 26 * 64) by done. rewrite Z.mul_mod_distr_r by done. by apply Z.div_mul.
Qed.

Lemma generateDataset_length cache order : forall dest, length (generateDataset cache dest order) = length dest.
Proof. induction order as [|i order IH]; intros dest; [done|]. unfold generateDataset in *. cbn [foldl]. rewrite IH. apply length_insert. Qed.

(** A row no index is mapped to keeps its content. *)
Lemma generateDataset_untouched cache order row : forall dest, (forall i, i ∈ order -> Z.to_nat (u32 (i * hashBytes) / hashBytes) <> row) ->
  generateDataset cache dest order !! row = dest !! row.
Proof.
  induction order as [|i order IH]; intros dest Hno; [done|]. unfold generateDataset in *. cbn [foldl].
  rewrite IH by (intros j Hj; apply Hno; by right). apply list_lookup_insert_ne, Hno. left.
Qed.

Lemma generateDataset_lookup cache order i : forall dest, NoDup order -> (forall j, j ∈ order -> 0 <= j < 2 ^ 26) -> i ∈ order ->
  (Z.to_nat i < length dest)%nat -> generateDataset cache dest order !! Z.to_nat i = Some (generateDatasetItem cache i).
Proof.
  induction order as [|j order IH]; intros dest Hnd Hr Hi Hl; [by apply not_elem_of_nil in Hi|]. apply NoDup_cons in Hnd as [Hj Hnd].
  assert (forall k, k ∈ j :: order -> u32 (k * hashBytes) / hashBytes = k) as Ho.
  { intros k Hk. specialize (Hr k Hk). rewrite offset_row, Z.mod_small; lia. }
  change (generateDataset cache dest (j :: order)) with (generateDataset cache (dataset_write cache dest j) order).
  apply elem_of_cons in Hi as [->|Hi].
  - rewrite generateDataset_untouched.
    + unfold dataset_write. rewrite Ho by left. by apply list_lookup_insert_eq.
    + intros k Hk. rewrite Ho by (by right). specialize (Hr k ltac:(by right)) as Hk'. specialize (Hr j ltac:(left)). intros E.
      assert (k = j) by lia. congruence.
  - apply IH; [done|intros k Hk; apply Hr; by right|done|]. unfold dataset_write. by rewrite length_insert.
Qed.

(** Up to 4 GiB the dataset is right however the generating threads interleave:
    their ranges cover each row once, and row [i] becomes item [i]. *)
Theorem generateDataset_rows cache dest threads order (rows := Z.of_nat (length dest))
    (Ht : 0 < threads) (Hsize : 100 <= rows <= 2 ^ 26) (Hmax : rows + threads < 2 ^ 32)
    (Horder : order ≡ₚ concat (map (fun id => thread_range (hashBytes * rows) threads (Z.of_nat id)) (seq 0 (Z.to_nat threads)))) :
  generateDataset cache dest order = map (generateDatasetItem cache) (seqZ 0 rows).
Proof.
  unfold hashBytes in Horder. rewrite thread_ranges in Horder by lia.
  apply list_eq_same_length with (length dest); [by rewrite length_map, length_seqZ; unfold rows; lia|by rewrite generateDataset_length|].
  intros i x y Hi Hx Hy. rewrite list_lookup_fmap in Hy. rewrite lookup_seqZ_lt in Hy by lia. cbn in Hy. injection Hy as <-.
  pose proof (generateDataset_lookup cache order (Z.of_nat i) dest) as H. rewrite Nat2Z.id, Hx in H.
  assert (forall j, j ∈ order <-> 0 <= j < rows) as Hin by (intros j; rewrite Horder, elem_of_seqZ; lia).
  injection H as ->; [done|rewrite Horder; apply NoDup_seqZ|intros j Hj%Hin; lia|apply Hin; lia|lia].
Qed.

(** Beyond 4 GiB it is not: the byte offset of an item is computed in 32 bits, so no write
    ever reaches a row past the first [2^26]. *)
Lemma generateDataset_past cache dest order row : 2 ^ 26 <= row -> (forall i, i ∈ order -> 0 <= i) ->
  generateDataset cache dest order !! Z.to_nat row = dest !! Z.to_nat row.
Proof.
  intros Hrow Horder. apply generateDataset_untouched. intros i Hi. specialize (Horder i Hi). rewrite offset_row by done.
  pose proof (Z.mod_pos_bound i (2 ^ 26) ltac:(done)). lia.
Qed.

(** ** Light and full *)

Lemma hashimoto_ext hash nonce size lookup lookup' : 0 < u32 (size / mixBytes) ->
  (forall i, 0 <= i < 2 * u32 (size / mixBytes) -> lookup (u32 i) = lookup' (u32 i)) ->
  hashimoto hash nonce size lookup = hashimoto hash nonce size lookup'.
Proof.
  intros Hr Hl. unfold hashimoto. set (rows := u32 (size / mixBytes)) in *. set (seed := keccak512 _).
  assert (forall ks mix, foldl (hashimoto_access rows (le2z (take 4 seed)) lookup) mix ks =
                         foldl (hashimoto_access rows (le2z (take 4 seed)) lookup') mix ks) as ->; [|done].
  induction ks as [|i ks IH]; intros mix; [done|]. cbn [foldl]. rewrite <- IH. f_equal. unfold hashimoto_access.
  set (parent := _ mod rows). pose proof (Z.mod_pos_bound (fnv (Z.lxor (u32 i) (le2z (take 4 seed))) (mix !!! Z.to_nat (i mod 32))) rows Hr) as Hp.
  fold parent in Hp. rewrite !Hl by lia. done.
Qed.

Lemma light_is_full_eq cache dest threads order hash nonce (rows := Z.of_nat (length dest)) : 0 < threads -> 100 <= rows <= 2 ^ 26 -> rows + threads < 2 ^ 32 ->
  order ≡ₚ concat (map (fun id => thread_range (hashBytes * rows) threads (Z.of_nat id)) (seq 0 (Z.to_nat threads))) ->
  hashimotoFull (generateDataset cache dest order) hash nonce = hashimotoLight (hashBytes * rows) cache hash nonce.
Proof.
  intros Ht Hrows Hmax Horder.
  unfold hashBytes in Horder. rewrite thread_ranges in Horder by lia.
  unfold hashimotoFull, hashimotoLight. rewrite generateDataset_length. fold rows.
  assert (u32 (hashBytes * rows / mixBytes) = rows / 2) as Er.
  { unfold hashBytes, mixBytes. replace 128 with (64 * 2) by done. rewrite Z.div_mul_cancel_l by lia. apply u32_small.
    split; [apply Z.div_pos; lia|]. apply Z.div_lt_upper_bound; lia. }
  apply hashimoto_ext; rewrite Er.
  - apply Z.div_str_pos. lia.
  - intros i Hi. assert (i < rows) as Hlt by (pose proof (Z.mul_div_le rows 2 ltac:(lia)); lia).
    rewrite (u32_small i) by lia. rewrite (u32_small (i * 16)), Z.div_mul by lia. f_equal.
    apply list_lookup_total_correct, generateDataset_lookup; [rewrite Horder; apply NoDup_seqZ| | |unfold rows in *; lia].
    + intros j. rewrite Horder, elem_of_seqZ. lia.
    + rewrite Horder, elem_of_seqZ. lia.
Qed.

(** ** The cache *)

Context (Hk512 : forall b, length (keccak512 b) = 64%nat).

(** The cache of the definition of Ethash: a chain of hashes, then three rounds in which
    each row becomes the hash of the row before it, cyclically, and a row that it selects. *)
Fixpoint hash_chain (n : nat) (prev : list byte) : list (list byte) :=
  match n with
  | O => []
  | S n => let row := keccak512 prev in row :: hash_chain n row
  end.

Definition mix_row (rows : list (list byte)) (j : nat) : list (list byte) :=
  let n := length rows in
  let before := rows !!! ((j + n - 1) mod n)%nat in
  let chosen := rows !!! (Z.to_nat (le2z (take 4 (rows !!! j))) mod n)%nat in
  <[j := keccak512 (xorBytes before chosen)]> rows.

Definition mkcache (n : nat) (seed : list byte) : list (list byte) :=
  Nat.iter 3 (fun rows => foldl mix_row rows (seq 0 n)) (hash_chain n seed).

(** *** Rows of a buffer *)

Definition rows_ok (n : nat) (rows : list (list byte)) : Prop := length rows = n /\ Forall (fun r => length r = 64%nat) rows.

Lemma rows_ok_insert n rows i r : rows_ok n rows -> length r = 64%nat -> rows_ok n (<[i := r]> rows).
Proof. intros [Hl Hr] H. split; [by rewrite length_insert|]. by apply Forall_insert. Qed.

Lemma concat_split n rows i r : rows_ok n rows -> rows !! i = Some r ->
  exists a b, concat rows = a ++ r ++ b /\ length a = (64 * i)%nat /\ length r = 64%nat /\
    length (concat rows) = (64 * n)%nat /\ forall r', concat (<[i := r']> rows) = a ++ r' ++ b.
Proof.
  intros [Hl Hr] Hi. assert (forall l, Forall (fun r : list byte => length r = 64%nat) l -> length (concat l) = (64 * length l)%nat) as Hc.
  { induction 1 as [|x l Hx _ IH]; [done|]. cbn [concat length]. rewrite length_app. lia. }
  exists (concat (take i rows)), (concat (drop (S i) rows)). pose proof (lookup_lt_Some _ _ _ Hi) as Hlt. split_and!.
  - rewrite <- (take_drop_middle rows i r Hi) at 1. by rewrite concat_app.
  - rewrite Hc by (by apply Forall_take). rewrite length_take. lia.
  - by eapply Forall_lookup_1 in Hr.
  - rewrite Hc by done. lia.
  - intros r'. rewrite insert_take_drop by done. by rewrite concat_app.
Qed.

Lemma slice_row n rows i r off k : rows_ok n rows -> rows !! i = Some r -> off = Z.of_nat i * hashBytes -> 0 <= k <= 64 ->
  slice (concat rows) off (off + k) = Ok (take (Z.to_nat k) r).
Proof.
  intros Hok Hi -> Hk. destruct (concat_split n rows i r Hok Hi) as (a & b & Ec & La & Lr & Lc & _). pose proof (lookup_lt_Some _ _ _ Hi) as Hlt.
  destruct Hok as [Hl _]. unfold slice, hashBytes, zlen. rewrite Lc.
  rewrite (proj2 (Z.leb_le _ _)), (proj2 (Z.leb_le _ _)), (proj2 (Z.leb_le _ _)) by lia. cbn [andb]. f_equal. rewrite Ec.
  rewrite drop_app_length' by lia. rewrite take_app_le by lia. f_equal. lia.
Qed.

Lemma keccak512_row n rows i r off data : rows_ok n rows -> rows !! i = Some r -> off = Z.of_nat i * hashBytes ->
  keccak512_at (concat rows) off data = Ok (concat (<[i := keccak512 data]> rows)).
Proof.
  intros Hok Hi ->. destruct (concat_split n rows i r Hok Hi) as (a & b & Ec & La & Lr & Lc & Hins). pose proof (lookup_lt_Some _ _ _ Hi) as Hlt.
  destruct Hok as [Hl _]. unfold keccak512_at, hashBytes, zlen. rewrite Lc, (proj2 (Z.leb_le _ _)), (proj2 (Z.leb_le _ _)) by lia. cbn [andb]. f_equal.
  rewrite Hins, Ec. rewrite take_app_length' by lia. f_equal. f_equal. rewrite app_assoc, drop_app_length'; [done|]. rewrite length_app. lia.
Qed.

Lemma each_app {A} (f : A -> Z -> outcome A) l1 l2 x : each f (l1 ++ l2) x = let! y := each f l1 x in each f l2 y.
Proof. revert x. induction l1 as [|i l1 IH]; intros x; cbn [app each obind]; [done|]. destruct (f x i); cbn [obind]; [apply IH|done..]. Qed.

(** *** The first pass *)

Lemma hash_chain_length n : forall prev, length (hash_chain n prev) = n.
Proof. induction n as [|n IH]; intros prev; cbn; [done|]. by rewrite IH. Qed.

Lemma hash_chain_next n : forall prev i r, hash_chain n prev !! i = Some r -> (S i < n)%nat -> hash_chain n prev !! S i = Some (keccak512 r).
Proof.
  induction n as [|n IH]; intros prev i r Hi Hn; [lia|]. cbn [hash_chain] in *. destruct i as [|i].
  - injection Hi as <-. destruct n as [|n]; [lia|]. done.
  - cbn [lookup list_lookup] in *. apply IH; [done|lia].
Qed.

Lemma hash_chain_ok n seed : rows_ok n (hash_chain n seed).
Proof.
  split; [apply hash_chain_length|]. revert seed. induction n as [|n IH]; intros seed; cbn [hash_chain]; constructor; [apply Hk512|apply IH].
Qed.

(** The first [k] rows are done. *)
Lemma fill_ok n seed rows k : rows_ok n rows -> (1 <= k <= n)%nat -> take 1 rows = take 1 (hash_chain n seed) ->
  each fill_step (map (fun i => i * hashBytes) (seqZ 1 (Z.of_nat k - 1))) (concat rows) =
  Ok (concat (take k (hash_chain n seed) ++ drop k rows)).
Proof.
  intros Hok Hk H1. induction k as [|k IH]; [lia|]. destruct (decide (k = 0)%nat) as [->|Hk0].
  { cbn [seqZ]. replace (seqZ 1 (Z.of_nat 1 - 1)) with (@nil Z) by done. cbn [map each]. by rewrite <- H1, take_drop. }
  replace (Z.of_nat (S k) - 1) with ((Z.of_nat k - 1) + 1) by lia. rewrite seqZ_split, map_app, each_app, IH by lia. cbn [obind].
  replace (1 + (Z.of_nat k - 1)) with (Z.of_nat k) by lia. change (seqZ (Z.of_nat k) 1) with [0 + Z.of_nat k]. cbn [map each]. rewrite Z.add_0_l.
  set (rows1 := take k (hash_chain n seed) ++ drop k rows). pose proof (hash_chain_ok n seed) as [Hcl Hcr]. destruct Hok as [Hl Hr].
  assert (rows_ok n rows1) as Hok1.
  { split; [unfold rows1; rewrite length_app, length_take, length_drop, Hcl; lia|]. apply Forall_app. split; [by apply Forall_take|by apply Forall_drop]. }
  destruct (lookup_lt_is_Some_2 (hash_chain n seed) (k - 1)) as [r Hcr1]; [lia|].
  assert (rows1 !! (k - 1)%nat = Some r) as Hr1 by (unfold rows1; rewrite lookup_app_l by (rewrite length_take; lia); rewrite lookup_take_lt by lia; done).
  destruct (lookup_lt_is_Some_2 rows1 k) as [r2 Hr2]; [destruct Hok1; lia|].
  unfold fill_step. replace (Z.of_nat k * hashBytes) with (Z.of_nat (k - 1) * hashBytes + 64) at 2 by (unfold hashBytes; lia).
  replace (Z.of_nat k * hashBytes - hashBytes) with (Z.of_nat (k - 1) * hashBytes) by (unfold hashBytes; lia).
  rewrite (slice_row n rows1 (k - 1) r _ 64 Hok1 Hr1 eq_refl) by lia. cbn [obind].
  assert (length r = 64%nat) as Lr by (by eapply Forall_lookup_1 in Hcr). rewrite (take_ge r) by lia.
  rewrite (keccak512_row n rows1 k r2 _ r Hok1 Hr2 eq_refl). cbn [obind]. do 2 f_equal.
  pose proof (hash_chain_next n seed (k - 1) r Hcr1 ltac:(lia)) as Hn. replace (S (k - 1)) with k in Hn by lia.
  rewrite (take_S_r _ _ _ Hn). unfold rows1. rewrite insert_app_r_alt by (rewrite length_take; lia). rewrite length_take, Hcl.
  replace (k - k `min` n)%nat with 0%nat by lia. rewrite <- app_assoc. f_equal.
  destruct (drop k rows) as [|x t] eqn:Ed; [assert (length (drop k rows) = 0%nat) by (by rewrite Ed); rewrite length_drop in *; lia|].
  cbn. f_equal. replace (S k) with (k + 1)%nat by lia. by rewrite <- drop_drop, Ed.
Qed.

(** *** The rounds *)

Lemma le2z_range b : 0 <= le2z b < 256 ^ zlen b.
Proof. unfold le2z. pose proof (be2z_bound (reverse b)) as H. unfold zlen in *. by rewrite length_reverse in H. Qed.

Lemma mix_row_ok n rows j : rows_ok n rows -> rows_ok n (mix_row rows j).
Proof. intros Hok. by apply rows_ok_insert; [|apply Hk512]. Qed.

Lemma cache_step_row n rows j : rows_ok n rows -> (j < n)%nat -> Z.of_nat n < 2 ^ 26 ->
  cache_step (Z.of_nat n) (concat rows) (Z.of_nat j) = Ok (concat (mix_row rows j)).
Proof.
  intros Hok Hj Hn. pose proof Hok as [Hl Hr]. unfold cache_step, mix_row. rewrite Hl.
  assert (forall i, (i < n)%nat -> rows !! i = Some (rows !!! i) /\ length (rows !!! i) = 64%nat) as Hrow.
  { intros i Hi. destruct (lookup_lt_is_Some_2 rows i) as [r E]; [lia|]. rewrite (list_lookup_total_correct _ _ _ E). split; [done|]. by eapply Forall_lookup_1 in Hr. }
  destruct (Hrow j Hj) as [Ej Lj]. rewrite (slice_row n rows j _ _ 4 Hok Ej eq_refl) by lia. cbn [obind].
  rewrite (u32_small (Z.of_nat n)) by lia. rewrite (proj2 (Z.eqb_neq (Z.of_nat n) 0)) by lia.
  change (Z.to_nat 4) with 4%nat. set (w := le2z (take 4 (rows !!! j))). assert (0 <= w) as Hw by apply le2z_range.
  pose proof (Z.mod_pos_bound w (Z.of_nat n) ltac:(lia)) as Hm.
  rewrite (u32_small (w mod Z.of_nat n * hashBytes)) by (unfold hashBytes; lia). rewrite (u32_small (_ + hashBytes)) by (unfold hashBytes; lia).
  assert ((j + n - 1) mod n < n)%nat as Hs by (apply Nat.mod_upper_bound; lia).
  assert (((Z.of_nat j - 1 + Z.of_nat n) mod Z.of_nat n) = Z.of_nat ((j + n - 1) mod n)) as -> by (rewrite Nat2Z.inj_mod; f_equal; lia).
  assert (w mod Z.of_nat n = Z.of_nat (Z.to_nat w mod n)) as -> by (rewrite Nat2Z.inj_mod, Z2Nat.id by lia; done).
  destruct (Hrow _ Hs) as [Es Ls]. rewrite (slice_row n rows _ _ _ hashBytes Hok Es eq_refl) by done. cbn [obind].
  assert (Z.to_nat w mod n < n)%nat as Hx by (apply Nat.mod_upper_bound; lia).
  destruct (Hrow _ Hx) as [Ex Lx]. rewrite (slice_row n rows _ _ _ hashBytes Hok Ex eq_refl) by done. cbn [obind].
  change (Z.to_nat hashBytes) with 64%nat. rewrite !(take_ge (rows !!! _)) by lia. by apply (keccak512_row n rows j (rows !!! j)).
Qed.

Lemma cache_round_rows n rows : rows_ok n rows -> Z.of_nat n < 2 ^ 26 ->
  each (cache_step (Z.of_nat n)) (seqZ 0 (Z.of_nat n)) (concat rows) = Ok (concat (foldl mix_row rows (seq 0 n))) /\
  rows_ok n (foldl mix_row rows (seq 0 n)).
Proof.
  intros Hok Hn. assert (forall k, (k <= n)%nat ->
    each (cache_step (Z.of_nat n)) (seqZ 0 (Z.of_nat k)) (concat rows) = Ok (concat (foldl mix_row rows (seq 0 k))) /\
    rows_ok n (foldl mix_row rows (seq 0 k))) as H; [|by apply H].
  induction k as [|k IH]; intros Hk; [done|]. destruct IH as [IH1 IH2]; [lia|].
  replace (Z.of_nat (S k)) with (Z.of_nat k + 1) by lia. rewrite seqZ_split, each_app, IH1 by lia. cbn [obind].
  change (seqZ (0 + Z.of_nat k) 1) with [0 + (0 + Z.of_nat k)]. rewrite !Z.add_0_l. cbn [each].
  rewrite seq_S, foldl_app. cbn [foldl]. rewrite Nat.add_0_l, (cache_step_row n) by (done || lia). cbn [obind].
  split; [done|by apply mix_row_ok].
Qed.

(** A buffer of whole rows. *)
Lemma rows_of_buffer n : forall buf : list byte, length buf = (64 * n)%nat -> exists rows, buf = concat rows /\ rows_ok n rows.
Proof.
  induction n as [|n IH]; intros buf Hl; [exists []; split; [by destruct buf|by split]|].
  destruct (IH (drop 64 buf)) as (rows & E & [Hn Hr]); [rewrite length_drop; lia|]. exists (take 64 buf :: rows). cbn [concat].
  rewrite <- E, take_drop. split; [done|]. split; [cbn; by rewrite Hn|]. constructor; [rewrite length_take; lia|done].
Qed.

Lemma generateCache_rows dest seed n : length dest = (64 * n)%nat -> (1 <= n)%nat -> Z.of_nat n < 2 ^ 26 ->
  generateCache dest seed = Ok (concat (mkcache n seed)) /\ rows_ok n (mkcache n seed).
Proof.
  intros Hl Hn1 Hn. destruct (rows_of_buffer n dest Hl) as (rows & -> & Hok). unfold generateCache, mkcache.
  assert (zlen (concat rows) = Z.of_nat n * hashBytes) as Ez by (unfold zlen, hashBytes; lia). rewrite Ez, Z.div_mul by done.
  destruct (lookup_lt_is_Some_2 rows 0) as [r0 Hr0]; [destruct Hok; lia|]. rewrite (keccak512_row n rows 0 r0 0 seed Hok Hr0) by done. cbn [obind].
  assert ((Z.of_nat n * hashBytes + hashBytes - 1) / hashBytes = Z.of_nat n) as ->.
  { unfold hashBytes. replace (Z.of_nat n * 64 + 64 - 1) with (63 + Z.of_nat n * 64) by lia. by rewrite Z.div_add. }
  assert (rows_ok n (<[0%nat := keccak512 seed]> rows)) as Hok0 by (by apply rows_ok_insert).
  rewrite (fill_ok n seed) by (done || lia || (destruct rows; [done|]; destruct n; [lia|done])). cbn [obind].
  rewrite (take_ge (hash_chain n seed)) by (rewrite hash_chain_length; lia). rewrite drop_ge by (destruct Hok0; lia). rewrite app_nil_r.
  pose proof (hash_chain_ok n seed) as H0. change (seqZ 0 (Z.of_nat cacheRounds)) with [0; 1; 2]. cbn [each Nat.iter nat_rect].
  destruct (cache_round_rows n _ H0 Hn) as [-> H1]. cbn [obind]. destruct (cache_round_rows n _ H1 Hn) as [-> H2]. cbn [obind].
  destruct (cache_round_rows n _ H2 Hn) as [-> H3]. done.
Qed.

(** C38. The verification cache: in any buffer of whole rows below 4 GiB, with offsets in bytes
    and some of them in 32 bits, the generator computes the cache of the definition of Ethash, a
    chain of hashes of the seed that is mixed in three rounds. *)
Theorem generateCache_refines dest seed n (Hl : length dest = (64 * n)%nat) (Hn : 1 <= Z.of_nat n < 2 ^ 26) :
  generateCache dest seed = Ok (concat (mkcache n seed)) /\ length (mkcache n seed) = n.
Proof. destruct (generateCache_rows dest seed n Hl) as [H1 [H2 _]]; [lia|lia|done]. Qed.

End algo.

(** ** Examples *)

Definition toy512 (b : list byte) : list byte := take 64 (b ++ replicate 64 Byte.x00).
Lemma toy512_length b : length (toy512 b) = 64%nat.
Proof. unfold toy512. rewrite length_take, length_app, length_replicate. lia. Qed.

Definition toy_cache : list Z := seqZ 0 32.
Definition toy_dest : list (list byte) := replicate 128 [].
Definition toy_order : list Z := concat (map (fun id => thread_range (hashBytes * 128) 3 (Z.of_nat id)) (seq 0 3)).

Lemma generateDataset_rows_witness :
  generateDataset toy512 toy_cache toy_dest toy_order = map (generateDatasetItem toy512 toy_cache) (seqZ 0 128).
Proof. apply (generateDataset_rows toy512 toy_cache toy_dest 3 toy_order); [lia|cbn; lia|cbn; lia|reflexivity]. Defined.

Lemma generateCache_refines_witness : generateCache toy512 (replicate 320 Byte.xff) [z2b 5] = Ok (concat (mkcache toy512 5 [z2b 5])).
Proof. destruct (generateCache_refines toy512 toy512_length (replicate 320 Byte.xff) [z2b 5] 5) as [H _]; [reflexivity|lia|exact H]. Defined.
