(* ===== verification/EthashEpoch.v ===== *)
(** * Caches and datasets of the epochs ([lib/consensus/ethash/ethash.go])

    Which cache and dataset a block is hashed with: the least recently used lists with
    their item for the next epoch, and the generation of the items.  Verification with
    the cache of a block and mining with its dataset agree for the blocks before
    11,550,000; from there on the datasets are wrong.  Memory-mapped files are not
    modelled; a dataset may be generated in memory, in a mapped file, or in memory after
    mapping has failed. *)
From S2P Require Import Prelude CommonMath VmInterface MemDb EthashAlgo EthashSizes.
From stdpp Require Import base numbers list gmap.
From Stdlib Require Import ZArith Lia.
#[local] Open Scope Z_scope.

(** ** Items by epoch *)

Section lru.
Context {I : Type} (new : Z -> I).
(** What [Add] of the library keeps of the items. *)
Context (evict : gmap Z I -> gmap Z I).

(** No future item is number zero. *)
Record lru := mkLru {
  lru_cache : gmap Z I;
  lru_future : option (Z * I)
}.
Definition newlru : lru := mkLru ∅ None.

(** The item, with the items kept. *)
Definition lru_item (l : lru) (epoch : Z) : I * gmap Z I :=
  match lru_cache l !! epoch with
  | Some item => (item, lru_cache l)
  | None =>
      let item :=
        match lru_future l with
        | Some (future, futureItem) => if future =? epoch then futureItem else new epoch
        | None => new epoch
        end in
      (item, evict (<[epoch := item]> (lru_cache l)))
  end.

Definition lru_get (l : lru) (epoch : Z) : I * option I * lru :=
  let (item, cache) := lru_item l epoch in
  if (epoch <? maxEpoch - 1) && (match lru_future l with Some (future, _) => future | None => 0 end <? epoch + 1)
  then let future := new (epoch + 1) in (item, Some future, mkLru cache (Some (epoch + 1, future)))
  else (item, None, mkLru cache (lru_future l)).

(** The items are those of their epochs. *)
Record lru_ok (l : lru) : Prop := {
  lo_cache : forall e i, lru_cache l !! e = Some i -> i = new e;
  lo_future : forall e i, lru_future l = Some (e, i) -> i = new e
}.

Context (Hevict : forall m e i, evict m !! e = Some i -> m !! e = Some i).

Lemma newlru_ok : lru_ok newlru.
Proof. by split. Qed.

Lemma lru_get_ok l epoch : lru_ok l -> exists future l', lru_get l epoch = (new epoch, future, l') /\ lru_ok l' /\
  (forall i, future = Some i -> i = new (epoch + 1)).
Proof.
  intros [Hc Hf]. unfold lru_get. assert (exists cache, lru_item l epoch = (new epoch, cache) /\ forall e i, cache !! e = Some i -> i = new e) as (cache & -> & Hcache).
  { unfold lru_item. destruct (lru_cache l !! epoch) as [item|] eqn:E; [exists (lru_cache l); by rewrite (Hc _ _ E)|].
    assert (match lru_future l with Some (future, futureItem) => if future =? epoch then futureItem else new epoch | None => new epoch end = new epoch) as ->.
    { destruct (lru_future l) as [[f i]|] eqn:Ef; [|done]. destruct (Z.eqb_spec f epoch) as [->|]; [by apply Hf|done]. }
    eexists. split; [done|]. intros e i [[<- <-]|[_ ?]]%Hevict%lookup_insert_Some; [done|by apply Hc]. }
  destruct (_ && _).
  - eexists _, _. split; [done|]. split; [split; [done|by intros e i [= <- <-]]|by intros i [= <-]].
  - eexists _, _. split; [done|]. split; [by split|done].
Qed.
End lru.

(** ** Generation *)

Record cache := newCache { cache_epoch : Z }.
Record dataset := newDataset { dataset_epoch : Z }.

(** Where a dataset is generated. *)
Inductive storage := inMemory | mapped | mapFailed.

Section epochs.
Context (cr : Crypto) (keccak512 : list byte -> list byte) (prime : Z -> bool) (fuel : nat) (test : bool).

Definition epoch_block (epoch : Z) : Z := u64 (u64 (epoch * epochLength) + 1).

(** The words of the cache; [make] gives zeros. *)
Definition cache_generate (c : cache) : outcome (list Z) :=
  let! size := cacheSize prime fuel (epoch_block (cache_epoch c)) in
  let seed := seedHash cr (epoch_block (cache_epoch c)) in
  let size := if test then 1024 else size in
  let! buffer := generateCache keccak512 (replicate (Z.to_nat (4 * (size / 4))) Byte.x00) seed in
  Ok (words_of buffer).

(** The rows of the dataset; [order] is how the writes of the threads interleave. *)
Definition dataset_generate (place : storage) (order : list Z) (d : dataset) : outcome (list (list byte)) :=
  let! csize := cacheSize prime fuel (epoch_block (dataset_epoch d)) in
  let! dsize := datasetSize prime fuel (epoch_block (dataset_epoch d)) in
  let seed := seedHash cr (epoch_block (dataset_epoch d)) in
  let csize := if test then 1024 else csize in
  let dsize := if test then 32 * 1024 else dsize in
  let! buffer := generateCache keccak512 (replicate (Z.to_nat (4 * (csize / 4))) Byte.x00) seed in
  let words := match place with mapFailed => dsize / 2 | _ => dsize / 4 end in
  let dest := replicate (Z.to_nat (4 * words / hashBytes)) (replicate 64 Byte.x00) in
  Ok (generateDataset keccak512 (words_of buffer) dest order).

Context (evictC : gmap Z cache -> gmap Z cache) (evictD : gmap Z dataset -> gmap Z dataset).

(** [Ethash.cache] and [Ethash.dataset]: the item for the next epoch is generated in the
    background. *)
Definition Ethash_cache (caches : lru) (block : Z) : outcome (list Z) * lru :=
  let '(current, _, caches) := lru_get newCache evictC caches (block / epochLength) in
  (cache_generate current, caches).
Definition Ethash_dataset (datasets : lru) (place : storage) (order : list Z) (block : Z) : outcome (list (list byte)) * lru :=
  let '(current, _, datasets) := lru_get newDataset evictD datasets (block / epochLength) in
  (dataset_generate place order current, datasets).

(** The size that [verifySeal] hashes with. *)
Definition verify_size (number : Z) : outcome Z :=
  let! size := datasetSize prime fuel number in
  Ok (if test then 32 * 1024 else size).

(** ** Mining and verification agree *)

Context (Hk512 : forall b, length (keccak512 b) = 64%nat).
Context (HevictC : forall m e i, evictC m !! e = Some i -> m !! e = Some i).
Context (HevictD : forall m e i, evictD m !! e = Some i -> m !! e = Some i).

Lemma epoch_block_of block : 0 <= block < maxEpoch * epochLength ->
  0 <= epoch_block (block / epochLength) < maxEpoch * epochLength /\ epoch_block (block / epochLength) / epochLength = block / epochLength.
Proof.
  intros Hb. unfold epoch_block, maxEpoch, epochLength in *. pose proof (Z.div_mod block 30000 ltac:(lia)). pose proof (Z.mod_pos_bound block 30000 ltac:(lia)).
  set (e := block / 30000) in *. rewrite (u64_small (e * 30000)) by (unfold is_u64, MaxUint64; lia). rewrite u64_small by (unfold is_u64, MaxUint64; lia).
  split; [lia|]. rewrite Z.add_comm, Z.div_add by lia. done.
Qed.

(** The writes of [threads] threads that share a dataset of [size] bytes. *)
Definition interleaving (size threads : Z) (order : list Z) : Prop :=
  order ≡ₚ concat (map (fun id => thread_range size threads (Z.of_nat id)) (seq 0 (Z.to_nat threads))).

Lemma block_sizes block (e := block / epochLength) : 0 <= block < maxEpoch * epochLength ->
  exists c d, cacheSize prime fuel (epoch_block e) = Ok c /\ datasetSize prime fuel (epoch_block e) = Ok d /\ datasetSize prime fuel block = Ok d /\
    c = 64 * (c / 64) /\ 1 <= c / 64 < 2 ^ 26 /\ d = 64 * (d / 64) /\ 100 <= d / 64 < 2 ^ 30 /\ (d / 64 <= 2 ^ 26 <-> block < 11550000).
Proof.
  intros Hb. destruct (epoch_block_of block Hb) as [_ He]. fold e in He. unfold cacheSize, datasetSize. rewrite He.
  destruct (sizes_of_block prime fuel block Hb) as (c & d & Ec & Ed & (kc & Hkc & Gc) & (kd & Hkd & Gd) & Hd & _ & Hmax).
  unfold cacheSize, datasetSize in Ec, Ed. fold e in Ec, Ed, Gc, Gd. exists c, d. rewrite Ec, Ed. do 3 (split; [done|]).
  assert (0 <= e < 2048) as Hr. { unfold e, maxEpoch, epochLength in *. split; [apply Z.div_pos; lia|apply Z.div_lt_upper_bound; lia]. }
  unfold cacheInitBytes, cacheGrowthBytes, datasetInitBytes, datasetGrowthBytes, hashBytes, mixBytes in *.
  assert (c = (2 ^ 18 + 2 ^ 11 * e - 1 - 2 * kc) * 64) as Ec' by lia. rewrite Ec' at 2 3 4. rewrite Z.div_mul by lia. lia.
Qed.

Lemma make_cache c seed : c = 64 * (c / 64) -> 1 <= c / 64 < 2 ^ 26 ->
  exists buffer, generateCache keccak512 (replicate (Z.to_nat (4 * (c / 4))) Byte.x00) seed = Ok buffer.
Proof.
  intros Hc Hr. destruct (generateCache_rows keccak512 Hk512 (replicate (Z.to_nat (4 * (c / 4))) Byte.x00) seed (Z.to_nat (c / 64))) as [H _]; [|lia|lia|by eexists].
  rewrite length_replicate. assert (c / 4 = 16 * (c / 64)) as -> by (rewrite Hc at 1; replace (64 * (c / 64)) with (16 * (c / 64) * 4) by lia; by rewrite Z.div_mul).
  lia.
Qed.

(** What the cache and the dataset of a block are. *)
Lemma epoch_items block place order (e := block / epochLength) : 0 <= block < maxEpoch * epochLength ->
  exists words size, cache_generate (newCache e) = Ok words /\ verify_size block = Ok size /\
    dataset_generate place order (newDataset e) =
      Ok (generateDataset keccak512 words (replicate (Z.to_nat (match place with mapFailed => 2 * (size / 64) | _ => size / 64 end)) (replicate 64 Byte.x00)) order) /\
    size = 64 * (size / 64) /\ 100 <= size / 64 < 2 ^ 30 /\ (size / 64 <= 2 ^ 26 <-> test = true \/ block < 11550000).
Proof.
  intros Hb. destruct (block_sizes block Hb) as (c & d & Ec & Ed & Ed' & Hc & Hcr & Hd & Hdr & Hmax). fold e in Ec, Ed.
  unfold cache_generate, dataset_generate, verify_size. cbn [cache_epoch dataset_epoch]. rewrite Ec, Ed, Ed'. cbn [obind].
  set (c1 := if test then 1024 else c). set (d1 := if test then 32 * 1024 else d).
  assert (c1 = 64 * (c1 / 64) /\ 1 <= c1 / 64 < 2 ^ 26) as [Hc1 Hcr1] by (unfold c1; destruct test; [by vm_compute|done]).
  assert (d1 = 64 * (d1 / 64) /\ 100 <= d1 / 64 < 2 ^ 30) as [Hd1 Hdr1] by (unfold d1; destruct test; [by vm_compute|done]).
  destruct (make_cache c1 (seedHash cr (epoch_block e)) Hc1 Hcr1) as [buffer ->]. cbn [obind].
  exists (words_of buffer), d1. do 2 (split; [done|]). split; [|split; [done|split; [done|]]].
  - do 4 f_equal. unfold hashBytes. assert (d1 / 4 = 16 * (d1 / 64) /\ d1 / 2 = 32 * (d1 / 64)) as [E4 E2].
    { split; rewrite Hd1 at 1; [replace (64 * (d1 / 64)) with (16 * (d1 / 64) * 4) by lia|replace (64 * (d1 / 64)) with (32 * (d1 / 64) * 2) by lia]; by rewrite Z.div_mul. }
    rewrite E4, E2. destruct place.
    + replace (4 * (16 * (d1 / 64))) with (d1 / 64 * 64) by lia. by rewrite Z.div_mul.
    + replace (4 * (16 * (d1 / 64))) with (d1 / 64 * 64) by lia. by rewrite Z.div_mul.
    + replace (4 * (32 * (d1 / 64))) with (2 * (d1 / 64) * 64) by lia. by rewrite Z.div_mul.
  - unfold d1. destruct test; [|rewrite Hmax; naive_solver]. split; [by left|]. intros _. by vm_compute.
Qed.

Lemma Ethash_items caches datasets place order block : lru_ok newCache caches -> lru_ok newDataset datasets ->
  exists caches' datasets', Ethash_cache caches block = (cache_generate (newCache (block / epochLength)), caches') /\ lru_ok newCache caches' /\
    Ethash_dataset datasets place order block = (dataset_generate place order (newDataset (block / epochLength)), datasets') /\ lru_ok newDataset datasets'.
Proof.
  intros Hc Hd. destruct (lru_get_ok newCache evictC HevictC caches (block / epochLength) Hc) as (f & caches' & E & Hc' & _).
  destruct (lru_get_ok newDataset evictD HevictD datasets (block / epochLength) Hd) as (g & datasets' & E' & Hd' & _).
  exists caches', datasets'. unfold Ethash_cache, Ethash_dataset. by rewrite E, E'.
Qed.

Lemma items_agree caches datasets place threads order block : lru_ok newCache caches -> lru_ok newDataset datasets ->
  place <> mapFailed -> 0 <= block < maxEpoch * epochLength -> test = true \/ block < 11550000 -> 0 < threads < 2 ^ 31 ->
  (forall size, verify_size block = Ok size -> interleaving size threads order) ->
  exists words size rows caches' datasets', Ethash_cache caches block = (Ok words, caches') /\ lru_ok newCache caches' /\
    Ethash_dataset datasets place order block = (Ok rows, datasets') /\ lru_ok newDataset datasets' /\ verify_size block = Ok size /\
    forall hash nonce, hashimotoFull cr keccak512 rows hash nonce = hashimotoLight cr keccak512 size words hash nonce.
Proof.
  intros Hc Hd Hplace Hb Htest Ht Horder. destruct (Ethash_items caches datasets place order block Hc Hd) as (caches' & datasets' & -> & Hc' & -> & Hd').
  destruct (epoch_items block place order Hb) as (words & size & -> & Es & -> & Hsize & Hrows & Hmax).
  eexists _, size, _, caches', datasets'. do 5 (split; [done|]). intros hash nonce. specialize (Horder size Es).
  assert (match place with mapFailed => 2 * (size / 64) | _ => size / 64 end = size / 64) as -> by (by destruct place).
  set (dest := replicate _ _). assert (Z.of_nat (length dest) = size / 64) as El by (unfold dest; rewrite length_replicate; lia).
  rewrite (light_is_full_eq cr keccak512 words dest threads order hash nonce); rewrite ?El; [|lia|rewrite Hmax; split; [lia|done]|lia|].
  - replace (hashBytes * (size / 64)) with size by (unfold hashBytes; lia). reflexivity.
  - replace (hashBytes * (size / 64)) with size by (unfold hashBytes; lia). exact Horder.
Qed.

(** C24. Mining and verifying compute the same function.  For a block before 11,550,000 (or of a
    test engine), [hashimotoFull] over the dataset of its epoch returns the digest and the result
    that [hashimotoLight] computes with the cache of its epoch and the size of the dataset, for
    every header hash and nonce, however many threads have generated the dataset and however their
    writes interleaved, and whatever the lists of caches and datasets held before.  The dataset was
    not generated after mapping a file had failed. *)
Theorem light_is_full caches datasets place threads order block
    (Hc : lru_ok newCache caches) (Hd : lru_ok newDataset datasets) (Hplace : place <> mapFailed)
    (Hb : 0 <= block < maxEpoch * epochLength) (Htest : test = true \/ block < 11550000) (Ht : 0 < threads < 2 ^ 31)
    (Horder : forall size, verify_size block = Ok size -> interleaving size threads order) :
  exists words size rows caches' datasets', Ethash_cache caches block = (Ok words, caches') /\ lru_ok newCache caches' /\
    Ethash_dataset datasets place order block = (Ok rows, datasets') /\ lru_ok newDataset datasets' /\ verify_size block = Ok size /\
    forall hash nonce, hashimotoFull cr keccak512 rows hash nonce = hashimotoLight cr keccak512 size words hash nonce.
Proof. by apply (items_agree caches datasets place threads order block). Qed.

(** C39. From block 11,550,000 on the datasets are wrong: offsets are computed in 32 bits, so
    that the rows past 4 GiB, and there are such rows, are never written and stay zero,
    whatever the threads do. *)
Theorem dataset_overflows datasets place threads order block row
    (Hd : lru_ok newDataset datasets) (Hb : 11550000 <= block < maxEpoch * epochLength) (Htest : test = false)
    (Ht : 0 < threads) (Hrow : 2 ^ 26 <= row)
    (Horder : forall size, verify_size block = Ok size -> interleaving size threads order) :
  exists size rows datasets', verify_size block = Ok size /\ 2 ^ 32 < size /\ Ethash_dataset datasets place order block = (Ok rows, datasets') /\
    (row < size / 64 -> rows !! Z.to_nat row = Some (replicate 64 Byte.x00)).
Proof.
  assert (lru_ok newCache newlru) as Hc by apply newlru_ok. destruct (Ethash_items newlru datasets place order block Hc Hd) as (_ & datasets' & _ & _ & -> & _).
  destruct (epoch_items block place order) as (words & size & _ & Es & -> & Hsize & Hrows & Hmax); [lia|].
  exists size. eexists _, datasets'. split; [done|]. split; [|split; [done|]].
  - destruct (Z.le_gt_cases (size / 64) (2 ^ 26)) as [Hle|]; [|lia]. apply Hmax in Hle as [E|]; [congruence|lia].
  - intros Hlt. rewrite generateDataset_past; [|done|].
    + apply lookup_replicate. split; [done|]. destruct place; lia.
    + intros i Hi. specialize (Horder size Es). unfold interleaving in Horder. rewrite Horder in Hi.
      apply list_elem_of_In, in_concat in Hi as (l & (id & <- & _)%in_map_iff & Hi%list_elem_of_In). unfold thread_range in Hi. apply elem_of_seqZ in Hi.
      pose proof (Z.mod_pos_bound (u32 (Z.of_nat id) * batch size threads) (2 ^ 32) ltac:(done)). unfold u32 at 1 in Hi. lia.
Qed.

(** After a failed mapping the dataset is twice as long as it should be, and so is the size that
    [hashimotoFull] takes from it. *)
Theorem mapFailed_doubles datasets order block (Hd : lru_ok newDataset datasets) (Hb : 0 <= block < maxEpoch * epochLength) :
  exists size rows datasets', verify_size block = Ok size /\ Ethash_dataset datasets mapFailed order block = (Ok rows, datasets') /\
    hashBytes * Z.of_nat (length rows) = 2 * size.
Proof.
  assert (lru_ok newCache newlru) as Hc by apply newlru_ok. destruct (Ethash_items newlru datasets mapFailed order block Hc Hd) as (_ & datasets' & _ & _ & -> & _).
  destruct (epoch_items block mapFailed order Hb) as (words & size & _ & Es & -> & Hsize & Hrows & _).
  exists size. eexists _, datasets'. do 2 (split; [done|]). rewrite generateDataset_length, length_replicate. unfold hashBytes. lia.
Qed.
End epochs.

(** ** Examples *)

(** The writes of four threads, one after the other. *)
Definition in_turn (size : Z) : list Z := concat (map (fun id => thread_range size 4 (Z.of_nat id)) (seq 0 (Z.to_nat 4))).

Lemma in_turn_interleaves prime fuel block size : verify_size prime fuel false block = Ok size ->
  forall s, verify_size prime fuel false block = Ok s -> interleaving s 4 (in_turn size).
Proof. intros E s E'. rewrite E in E'. injection E' as <-. unfold interleaving, in_turn. apply Permutation_refl. Qed.

Definition no_prime (_ : Z) : bool := false.
Lemma last_good_size : verify_size no_prime 1 false 11549999 = Ok 4294962304.
Proof. vm_compute. reflexivity. Qed.
Lemma first_bad_size : verify_size no_prime 1 false 11550000 = Ok 4303349632.
Proof. vm_compute. reflexivity. Qed.

(** The last block with a right dataset. *)
Lemma light_is_full_witness : exists words rows caches datasets,
  Ethash_cache mem_crypto toy512 no_prime 1 false id newlru 11549999 = (Ok words, caches) /\
  Ethash_dataset mem_crypto toy512 no_prime 1 false id newlru inMemory (in_turn 4294962304) 11549999 = (Ok rows, datasets) /\
  hashimotoFull mem_crypto toy512 rows [] 7 = hashimotoLight mem_crypto toy512 4294962304 words [] 7.
Proof.
  destruct (light_is_full mem_crypto toy512 no_prime 1 false id id toy512_length ltac:(done) ltac:(done) newlru newlru inMemory 4 (in_turn 4294962304) 11549999)
    as (words & size & rows & caches & datasets & Ec & _ & Ed & _ & Es & H).
  - apply newlru_ok.
  - apply newlru_ok.
  - discriminate.
  - unfold maxEpoch, epochLength. lia.
  - right. lia.
  - lia.
  - exact (in_turn_interleaves _ _ _ _ last_good_size).
  - rewrite last_good_size in Es. injection Es as <-. exists words, rows, caches, datasets. split; [exact Ec|]. split; [exact Ed|apply H].
Defined.

(** The first block with a wrong one. *)
Lemma dataset_overflows_witness : exists rows datasets,
  Ethash_dataset mem_crypto toy512 no_prime 1 false id newlru inMemory (in_turn 4303349632) 11550000 = (Ok rows, datasets) /\
  rows !! Z.to_nat (2 ^ 26) = Some (replicate 64 Byte.x00).
Proof.
  destruct (dataset_overflows mem_crypto toy512 no_prime 1 false id id toy512_length ltac:(done) ltac:(done) newlru inMemory 4 (in_turn 4303349632) 11550000 (2 ^ 26))
    as (size & rows & datasets & Es & _ & Ed & H).
  - apply newlru_ok.
  - unfold maxEpoch, epochLength. lia.
  - reflexivity.
  - lia.
  - lia.
  - exact (in_turn_interleaves _ _ _ _ first_bad_size).
  - rewrite first_bad_size in Es. injection Es as <-. exists rows, datasets. split; [exact Ed|]. apply H. reflexivity.
Defined.

Lemma mapFailed_doubles_witness : exists rows datasets,
  Ethash_dataset mem_crypto toy512 no_prime 1 false id newlru mapFailed (in_turn 4294962304) 11549999 = (Ok rows, datasets) /\
  hashBytes * Z.of_nat (length rows) = 2 * 4294962304.
Proof.
  destruct (mapFailed_doubles mem_crypto toy512 no_prime 1 false id id toy512_length ltac:(done) ltac:(done) newlru (in_turn 4294962304) 11549999)
    as (size & rows & datasets & Es & Ed & H).
  - apply newlru_ok.
  - unfold maxEpoch, epochLength. lia.
  - rewrite last_good_size in Es. injection Es as <-. exists rows, datasets. split; [exact Ed|exact H].
Defined.
