(* ===== verification/Ethash.v ===== *)
(** * Proof-of-work consensus rules ([lib/consensus/ethash/consensus.go])

    Difficulty, header and uncle verification, seals and rewards, with the fork
    checks of [lib/consensus/misc].  The chain is read through [ChainReader]; the
    clock is the parameter [now].  The rules are those of a node in the normal
    mode, with no shared engine. *)
From S2P Require Import Prelude CommonMath Params RlpEncode RlpTyped VmInterface ChainTypes EthashAlgo.
From stdpp Require Import base numbers list gmap.
From Stdlib Require Import ZArith Lia.
#[local] Open Scope Z_scope.

(** ** Model *)

(** [consensus.ChainReader]. *)
Record ChainReader := mkChainReader {
  chain_Config : ChainConfig;
  GetHeader : Hash -> Z -> option Header;
  GetHeaderByNumber : Z -> option Header;
  GetBlock : Hash -> Z -> option Block
}.

Inductive consensus_error : Type :=
| ErrUnknownAncestor
| ErrFutureBlock
| ErrInvalidNumber
| errExtraTooLong
| errLargeBlockTime
| errZeroBlockTime
| errTooManyUncles
| errDuplicateUncle
| errUncleIsAncestor
| errDanglingUncle
| errInvalidDifficulty
| errWrongDifficulty
| errGasLimitCap
| errGasUsed
| errGasLimit
| errInvalidMixDigest
| errInvalidPoW
| ErrBadProDAOExtra
| ErrBadNoDAOExtra
| errForkHash.

(** [misc.VerifyDAOHeaderExtraData]; [DAOForkBlockExtra] is "dao-hard-fork". *)
Definition DAOForkBlockExtra : list byte :=
  map z2b [0x64; 0x61; 0x6f; 0x2d; 0x68; 0x61; 0x72; 0x64; 0x2d; 0x66; 0x6f; 0x72; 0x6b].
Definition DAOForkExtraRange : Z := 10.

Definition VerifyDAOHeaderExtraData (config : ChainConfig) (header : Header) : option consensus_error :=
  match DAOForkBlock config with
  | None => None
  | Some fork =>
      let limit := fork + DAOForkExtraRange in
      if (h_Number header <? fork) || (limit <=? h_Number header) then None
      else if DAOForkSupport config then
        if negb (bool_decide (h_Extra header = DAOForkBlockExtra)) then Some ErrBadProDAOExtra else None
      else if bool_decide (h_Extra header = DAOForkBlockExtra) then Some ErrBadNoDAOExtra else None
  end.

Section ethash.
Context (cr : Crypto).

(** [misc.VerifyForkHashes]. *)
Definition VerifyForkHashes (config : ChainConfig) (header : Header) (uncle : bool) : option consensus_error :=
  if uncle then None
  else
    match EIP150Block config with
    | Some n =>
        if n =? h_Number header then
          if negb (EIP150Hash config =? 0) && negb (EIP150Hash config =? Header_Hash cr header) then Some errForkHash else None
        else None
    | None => None
    end.

(** *** Difficulty *)

Definition expDiffPeriod : Z := 100000.

(** The exponential term: the ice age. *)
Definition bomb (periodCount : Z) : Z := if 1 <? periodCount then 2 ^ (periodCount - 2) else 0.

Definition makeDifficultyCalculator (bombDelay : Z) (time : Z) (parent : Header) : Z :=
  let bombDelayFromParent := bombDelay - 1 in
  let x := (time - h_Time parent) / 9 in
  let x := if h_UncleHash parent =? EmptyUncleHash cr then 1 - x else 2 - x in
  let x := if x <? -99 then -99 else x in
  let y := h_Difficulty parent / DifficultyBoundDivisor in
  let x := h_Difficulty parent + y * x in
  let x := if x <? MinimumDifficulty then MinimumDifficulty else x in
  let fakeBlockNumber := if bombDelayFromParent <=? h_Number parent then h_Number parent - bombDelayFromParent else 0 in
  let periodCount := fakeBlockNumber / expDiffPeriod in
  x + bomb periodCount.
Definition calcDifficultyConstantinople : Z -> Header -> Z := makeDifficultyCalculator 5000000.
Definition calcDifficultyByzantium : Z -> Header -> Z := makeDifficultyCalculator 3000000.

Definition calcDifficultyHomestead (time : Z) (parent : Header) : Z :=
  let x := (time - h_Time parent) / 10 in
  let x := 1 - x in
  let x := if x <? -99 then -99 else x in
  let y := h_Difficulty parent / DifficultyBoundDivisor in
  let x := h_Difficulty parent + y * x in
  let x := if x <? MinimumDifficulty then MinimumDifficulty else x in
  let periodCount := (h_Number parent + 1) / expDiffPeriod in
  x + bomb periodCount.

Definition calcDifficultyFrontier (time : Z) (parent : Header) : Z :=
  let adjust := h_Difficulty parent / DifficultyBoundDivisor in
  let diff := if time - h_Time parent <? DurationLimit then h_Difficulty parent + adjust else h_Difficulty parent - adjust in
  let diff := if diff <? MinimumDifficulty then MinimumDifficulty else diff in
  let periodCount := (h_Number parent + 1) / expDiffPeriod in
  if 1 <? periodCount then Z.max (diff + 2 ^ (periodCount - 2)) MinimumDifficulty else diff.

Definition CalcDifficulty (config : ChainConfig) (time : Z) (parent : Header) : Z :=
  let next := h_Number parent + 1 in
  if IsConstantinople config next then calcDifficultyConstantinople time parent
  else if IsByzantium config next then calcDifficultyByzantium time parent
  else if IsHomestead config next then calcDifficultyHomestead time parent
  else calcDifficultyFrontier time parent.

(** *** Seals *)

(** [SealHash]: the header without nonce and mix digest. *)
Definition SealHash (h : Header) : Hash :=
  rlpHash cr (VList
    [ val_as hash_rlp (h_ParentHash h); val_as hash_rlp (h_UncleHash h); val_as address_rlp (h_Coinbase h);
      val_as hash_rlp (h_Root h); val_as hash_rlp (h_TxHash h); val_as hash_rlp (h_ReceiptHash h);
      val_as (array_rlp BloomByteLength) (h_Bloom h); val_as bigint_rlp (h_Difficulty h); val_as bigint_rlp (h_Number h);
      val_as uint64_rlp (h_GasLimit h); val_as uint64_rlp (h_GasUsed h); val_as bigint_rlp (h_Time h);
      val_as bytes_rlp (h_Extra h) ]).

(** The proof-of-work function of the block's epoch, as a digest and a result:
    [hashimotoLight] over the cache, or [hashimotoFull] over a dataset. *)
Context (pow : Z -> list byte -> Z -> list byte * list byte).

Definition verifySeal (header : Header) : option consensus_error :=
  if h_Difficulty header <=? 0 then Some errInvalidDifficulty
  else
    let number := u64 (h_Number header) in
    let (digest, result) := pow number (Hash_Bytes (SealHash header)) (BlockNonce_Uint64 (h_Nonce header)) in
    if negb (bool_decide (Hash_Bytes (h_MixDigest header) = digest)) then Some errInvalidMixDigest
    else
      let target := two256 / h_Difficulty header in
      if target <? be2z result then Some errInvalidPoW else None.

Definition with_seal (h : Header) (nonce : BlockNonce) (mix : Hash) : Header :=
  mkHeader (h_ParentHash h) (h_UncleHash h) (h_Coinbase h) (h_Root h) (h_TxHash h) (h_ReceiptHash h) (h_Bloom h)
    (h_Difficulty h) (h_Number h) (h_GasLimit h) (h_GasUsed h) (h_Time h) (h_Extra h) mix nonce.

(** The nonce search of a mining thread; [fuel] bounds the attempts before it is
    aborted, which is [None]. *)
Fixpoint mine (fuel : nat) (header : Header) (nonce : Z) : option Header :=
  match fuel with
  | O => None
  | S fuel =>
      let (digest, result) := pow (u64 (h_Number header)) (Hash_Bytes (SealHash header)) nonce in
      if be2z result <=? two256 / h_Difficulty header
      then Some (with_seal header (EncodeNonce nonce) (BytesToHash digest))
      else mine fuel header (u64 (nonce + 1))
  end.

(** *** Headers *)

Definition allowedFutureBlockTime : Z := 15.

Definition verifyHeader (chain : ChainReader) (now : Z) (header parent : Header) (uncle seal : bool) : option consensus_error :=
  let config := chain_Config chain in
  if MaximumExtraDataSize <? zlen (h_Extra header) then Some errExtraTooLong
  else if uncle && (two256 - 1 <? h_Time header) then Some errLargeBlockTime
  else if negb uncle && (now + allowedFutureBlockTime <? h_Time header) then Some ErrFutureBlock
  else if h_Time header <=? h_Time parent then Some errZeroBlockTime
  else if negb (CalcDifficulty config (u64 (h_Time header)) parent =? h_Difficulty header) then Some errWrongDifficulty
  else if 0x7fffffffffffffff <? h_GasLimit header then Some errGasLimitCap
  else if h_GasLimit header <? h_GasUsed header then Some errGasUsed
  else
    let diff := s64 (s64 (h_GasLimit parent) - s64 (h_GasLimit header)) in
    let diff := if diff <? 0 then s64 (diff * -1) else diff in
    let limit := h_GasLimit parent / GasLimitBoundDivisor in
    if (limit <=? u64 diff) || (h_GasLimit header <? MinGasLimit) then Some errGasLimit
    else if negb (h_Number header - h_Number parent =? 1) then Some ErrInvalidNumber
    else
      match (if seal then verifySeal header else None) with
      | Some e => Some e
      | None =>
          match VerifyDAOHeaderExtraData config header with
          | Some e => Some e
          | None => VerifyForkHashes config header uncle
          end
      end.

Definition VerifyHeader (chain : ChainReader) (now : Z) (header : Header) (seal : bool) : option consensus_error :=
  let number := u64 (h_Number header) in
  match GetHeader chain (Header_Hash cr header) number with
  | Some _ => None
  | None =>
      match GetHeader chain (h_ParentHash header) (u64 (number - 1)) with
      | None => Some ErrUnknownAncestor
      | Some parent => verifyHeader chain now header parent false seal
      end
  end.

(** [verifyHeaderWorker]: the header at [index] of a batch. *)
Definition verifyHeaderWorker (chain : ChainReader) (now : Z) (headers : list Header) (seals : list bool) (index : nat) :
    option consensus_error :=
  match headers !! index with
  | None => None
  | Some header =>
      let parent :=
        match index with
        | O => GetHeader chain (h_ParentHash header) (u64 (u64 (h_Number header) - 1))
        | S i => match headers !! i with
                 | Some prev => if Header_Hash cr prev =? h_ParentHash header then Some prev else None
                 | None => None
                 end
        end in
      match parent with
      | None => Some ErrUnknownAncestor
      | Some parent =>
          match GetHeader chain (Header_Hash cr header) (u64 (h_Number header)) with
          | Some _ => None
          | None => verifyHeader chain now header parent false (seals !!! index)
          end
      end
  end.

(** *** Uncles *)

Definition maxUncles : nat := 2.

(** The ancestors by hash and the uncles they included, over [n] generations. *)
Fixpoint collect (n : nat) (chain : ChainReader) (parent : Hash) (number : Z)
    (uncles : gset Hash) (ancestors : gmap Hash Header) : gset Hash * gmap Hash Header :=
  match n with
  | O => (uncles, ancestors)
  | S n =>
      match GetBlock chain parent number with
      | None => (uncles, ancestors)
      | Some ancestor =>
          let ancestors := <[Block_Hash cr ancestor := b_header ancestor]> ancestors in
          let uncles := uncles ∪ list_to_set (map (Header_Hash cr) (b_uncles ancestor)) in
          collect n chain (h_ParentHash (b_header ancestor)) (u64 (number - 1)) uncles ancestors
      end
  end.

Fixpoint check_uncles (chain : ChainReader) (now : Z) (block : Block) (uncles : gset Hash) (ancestors : gmap Hash Header)
    (us : list Header) : option consensus_error :=
  match us with
  | [] => None
  | uncle :: us =>
      let hash := Header_Hash cr uncle in
      if bool_decide (hash ∈ uncles) then Some errDuplicateUncle
      else
        let uncles := {[hash]} ∪ uncles in
        match ancestors !! hash with
        | Some _ => Some errUncleIsAncestor
        | None =>
            match ancestors !! h_ParentHash uncle with
            | None => Some errDanglingUncle
            | Some parent =>
                if h_ParentHash uncle =? h_ParentHash (b_header block) then Some errDanglingUncle
                else
                  match verifyHeader chain now uncle parent true true with
                  | Some e => Some e
                  | None => check_uncles chain now block uncles ancestors us
                  end
            end
        end
  end.

Definition VerifyUncles (chain : ChainReader) (now : Z) (block : Block) : option consensus_error :=
  if (maxUncles <? length (b_uncles block))%nat then Some errTooManyUncles
  else
    let '(uncles, ancestors) :=
      collect 7 chain (h_ParentHash (b_header block)) (u64 (u64 (h_Number (b_header block)) - 1)) ∅ ∅ in
    let ancestors := <[Block_Hash cr block := b_header block]> ancestors in
    let uncles := {[Block_Hash cr block]} ∪ uncles in
    check_uncles chain now block uncles ancestors (b_uncles block).

(** [Prepare]: the header with its difficulty. *)
Definition Ethash_Prepare (chain : ChainReader) (h : Header) : result consensus_error Header :=
  match GetHeader chain (h_ParentHash h) (u64 (u64 (h_Number h) - 1)) with
  | None => Err ErrUnknownAncestor
  | Some parent =>
      Good (mkHeader (h_ParentHash h) (h_UncleHash h) (h_Coinbase h) (h_Root h) (h_TxHash h) (h_ReceiptHash h) (h_Bloom h)
        (CalcDifficulty (chain_Config chain) (u64 (h_Time h)) parent) (h_Number h) (h_GasLimit h) (h_GasUsed h) (h_Time h)
        (h_Extra h) (h_MixDigest h) (h_Nonce h))
  end.

(** *** Rewards *)

Definition FrontierBlockReward : Z := 5 * 10 ^ 18.
Definition ByzantiumBlockReward : Z := 3 * 10 ^ 18.
Definition ConstantinopleBlockReward : Z := 2 * 10 ^ 18.

Definition blockReward (config : ChainConfig) (number : Z) : Z :=
  if IsConstantinople config number then ConstantinopleBlockReward
  else if IsByzantium config number then ByzantiumBlockReward
  else FrontierBlockReward.

Section rewards.
Context {S : Type} `{StateDB S}.

Definition uncleReward (reward : Z) (header uncle : Header) : Z := (h_Number uncle + 8 - h_Number header) * reward / 8.

Fixpoint reward_uncles (blockReward : Z) (header : Header) (uncles : list Header) (reward : Z) (state : S) : Z * S :=
  match uncles with
  | [] => (reward, state)
  | uncle :: uncles =>
      let state := AddBalance state (h_Coinbase uncle) (uncleReward blockReward header uncle) in
      reward_uncles blockReward header uncles (reward + blockReward / 32) state
  end.

Definition accumulateRewards (config : ChainConfig) (state : S) (header : Header) (uncles : list Header) : S :=
  let R := blockReward config (h_Number header) in
  let '(reward, state) := reward_uncles R header uncles R state in
  AddBalance state (h_Coinbase header) reward.
End rewards.

End ethash.
