(* ===== verification/EthashFacts.v ===== *)
(** * Facts about the proof-of-work rules

    Bounds of the difficulty, what an accepted header and accepted uncles satisfy,
    that a mined header passes verification, and the exact amount of the rewards. *)
From S2P Require Import Prelude CommonMath Params RlpEncode RlpTyped VmInterface ChainTypes EthashAlgo EthashSizes EthashEpoch Ethash.
From S2P Require Import VmBase Opcodes VmLaws Supply MemDb ChainFacts StateAccount StateTransition.
From stdpp Require Import base numbers list gmap.
From Stdlib Require Import ZArith Lia.
#[local] Open Scope Z_scope.

Section facts.
Context (cr : Crypto).

(** ** Difficulty *)

Lemma bomb_nonneg p : 0 <= bomb p.
Proof. unfold bomb. destruct (Z.ltb_spec 1 p); [apply Z.pow_nonneg; lia|lia]. Qed.

(** The exponential term a fork adds to the difficulty of the child of [parent]. *)
Definition ice_age (config : ChainConfig) (parent : Header) : Z :=
  let next := h_Number parent + 1 in
  let delayed d := bomb ((if d - 1 <=? h_Number parent then h_Number parent - (d - 1) else 0) / expDiffPeriod) in
  if IsConstantinople config next then delayed 5000000
  else if IsByzantium config next then delayed 3000000
  else bomb (next / expDiffPeriod).

Lemma clamp_bounds d x : MinimumDifficulty <= d -> -99 <= x <= 2 ->
  let y := d / DifficultyBoundDivisor in
  let r := if d + y * x <? MinimumDifficulty then MinimumDifficulty else d + y * x in
  MinimumDifficulty <= r /\ d - 99 * y <= r <= d + 2 * y.
Proof.
  intros Hd Hx y r. assert (0 <= y) by (apply Z.div_pos; unfold MinimumDifficulty, DifficultyBoundDivisor in *; lia).
  unfold r. destruct (Z.ltb_spec (d + y * x) MinimumDifficulty); split; nia.
Qed.

Lemma clamp_mono d x x' : MinimumDifficulty <= d -> x <= x' ->
  let y := d / DifficultyBoundDivisor in
  (if d + y * x <? MinimumDifficulty then MinimumDifficulty else d + y * x) <=
  (if d + y * x' <? MinimumDifficulty then MinimumDifficulty else d + y * x').
Proof.
  intros Hd Hx y. assert (0 <= y) by (apply Z.div_pos; unfold MinimumDifficulty, DifficultyBoundDivisor in *; lia).
  assert (y * x <= y * x') by nia. repeat (match goal with |- context [?a <? ?b] => destruct (Z.ltb_spec a b) end); lia.
Qed.

(** The factor a rule multiplies the adjustment by. *)
Definition diff_factor (config : ChainConfig) (time : Z) (parent : Header) : Z :=
  let next := h_Number parent + 1 in
  if IsConstantinople config next || IsByzantium config next then
    let x := (time - h_Time parent) / 9 in
    let x := if h_UncleHash parent =? EmptyUncleHash cr then 1 - x else 2 - x in
    if x <? -99 then -99 else x
  else if IsHomestead config next then
    let x := 1 - (time - h_Time parent) / 10 in if x <? -99 then -99 else x
  else if time - h_Time parent <? DurationLimit then 1 else -1.

Lemma CalcDifficulty_eq config time parent : MinimumDifficulty <= h_Difficulty parent ->
  CalcDifficulty cr config time parent =
    (let x := diff_factor config time parent in
     let y := h_Difficulty parent / DifficultyBoundDivisor in
     if h_Difficulty parent + y * x <? MinimumDifficulty then MinimumDifficulty else h_Difficulty parent + y * x) + ice_age config parent.
Proof.
  intros Hd. unfold CalcDifficulty, diff_factor, ice_age. destruct (IsConstantinople config (h_Number parent + 1)); [done|].
  destruct (IsByzantium config (h_Number parent + 1)); [done|]. cbn [orb]. destruct (IsHomestead config (h_Number parent + 1)); [done|].
  unfold calcDifficultyFrontier, bomb. cbn zeta. set (y := h_Difficulty parent / DifficultyBoundDivisor).
  assert ((if time - h_Time parent <? DurationLimit then h_Difficulty parent + y else h_Difficulty parent - y) =
    h_Difficulty parent + y * (if time - h_Time parent <? DurationLimit then 1 else -1)) as -> by (destruct (_ <? DurationLimit); lia).
  set (d := h_Difficulty parent + _). destruct (Z.ltb_spec 1 ((h_Number parent + 1) / expDiffPeriod)) as [H1|H1]; [|lia].
  assert (0 <= 2 ^ ((h_Number parent + 1) / expDiffPeriod - 2)) by (apply Z.pow_nonneg; lia).
  destruct (Z.ltb_spec d MinimumDifficulty); lia.
Qed.

Lemma ice_age_nonneg config parent : 0 <= ice_age config parent.
Proof. unfold ice_age. repeat case_match; apply bomb_nonneg. Qed.

Lemma diff_factor_bounds config time parent : h_Time parent <= time -> -99 <= diff_factor config time parent <= 2.
Proof.
  intros Ht. unfold diff_factor.
  assert (0 <= (time - h_Time parent) / 9 /\ 0 <= (time - h_Time parent) / 10) by (split; apply Z.div_pos; lia).
  repeat match goal with |- context [if ?b then _ else _] => destruct b eqn:? end; zdestruct; lia.
Qed.

Lemma diff_factor_mono config time time' parent : time <= time' -> diff_factor config time' parent <= diff_factor config time parent.
Proof.
  intros Ht. unfold diff_factor.
  assert ((time - h_Time parent) / 9 <= (time' - h_Time parent) / 9) by (apply Z.div_le_mono; lia).
  assert ((time - h_Time parent) / 10 <= (time' - h_Time parent) / 10) by (apply Z.div_le_mono; lia).
  destruct (_ || _); [|destruct (IsHomestead _ _)]; cbn zeta; [destruct (_ =? EmptyUncleHash cr)|..]; zdestruct; lia.
Qed.

(** Under every fork's rule the difficulty of a child is at least the minimum,
    apart from the ice age it moves by at most [99/2048] of the parent's down and
    [2/2048] up, and a later timestamp never makes it higher. *)
Theorem CalcDifficulty_bounds config time parent
    (Hd : MinimumDifficulty <= h_Difficulty parent) (Ht : h_Time parent <= time) :
  let D := CalcDifficulty cr config time parent in
  let y := h_Difficulty parent / DifficultyBoundDivisor in
  MinimumDifficulty <= D /\
  h_Difficulty parent - 99 * y <= D - ice_age config parent <= h_Difficulty parent + 2 * y /\
  forall time', time <= time' -> CalcDifficulty cr config time' parent <= D.
Proof.
  cbn zeta. pose proof (ice_age_nonneg config parent). rewrite CalcDifficulty_eq by done. cbn zeta.
  pose proof (clamp_bounds (h_Difficulty parent) (diff_factor config time parent) Hd (diff_factor_bounds config time parent Ht)) as [H1 H2].
  split; [lia|]. split; [lia|]. intros time' Ht'. rewrite CalcDifficulty_eq by done. cbn zeta.
  pose proof (clamp_mono (h_Difficulty parent) _ _ Hd (diff_factor_mono config time time' parent Ht')) as Hm. cbn zeta in Hm. lia.
Qed.

(** ** Headers *)

Context (pow : Z -> list byte -> Z -> list byte * list byte).

(** The conditions on a header, given its parent. *)
Record header_accepted (chain : ChainReader) (now : Z) (header parent : Header) (uncle seal : bool) : Prop := {
  ha_extra : zlen (h_Extra header) <= MaximumExtraDataSize;
  ha_time : h_Time parent < h_Time header;
  ha_clock : if uncle then h_Time header < two256 else h_Time header <= now + allowedFutureBlockTime;
  ha_difficulty : h_Difficulty header = CalcDifficulty cr (chain_Config chain) (u64 (h_Time header)) parent;
  ha_gasused : h_GasUsed header <= h_GasLimit header;
  ha_gaslimit : MinGasLimit <= h_GasLimit header <= 0x7fffffffffffffff;
  ha_gasstep : Z.abs (h_GasLimit parent - h_GasLimit header) < h_GasLimit parent / GasLimitBoundDivisor;
  ha_number : h_Number header = h_Number parent + 1;
  ha_seal : seal = true -> verifySeal cr pow header = None;
  ha_dao : VerifyDAOHeaderExtraData (chain_Config chain) header = None;
  ha_fork : VerifyForkHashes cr (chain_Config chain) header uncle = None
}.

Lemma gas_step p h : 0 <= p <= 0x7fffffffffffffff -> 0 <= h <= 0x7fffffffffffffff ->
  u64 (let diff := s64 (s64 p - s64 h) in if diff <? 0 then s64 (diff * -1) else diff) = Z.abs (p - h).
Proof.
  intros Hp Hh. assert (forall x, 0 <= x <= 0x7fffffffffffffff -> s64 x = x) as Hs.
  { intros x Hx. unfold s64. rewrite u64_small by (unfold is_u64, MaxUint64; lia). cbn zeta. destruct (Z.ltb_spec x 9223372036854775808); lia. }
  rewrite (Hs p), (Hs h) by done. assert (s64 (p - h) = p - h) as ->.
  { destruct (Z.le_gt_cases h p); [apply Hs; lia|]. unfold s64, u64, two64. rewrite <- (Z.mod_add (p - h) 1) by done.
    rewrite Z.mod_small by lia. cbn zeta. destruct (Z.ltb_spec (p - h + 1 * 18446744073709551616) 9223372036854775808); lia. }
  cbn zeta. destruct (Z.ltb_spec (p - h) 0).
  - rewrite Hs by lia. rewrite u64_small by (unfold is_u64, MaxUint64; lia). lia.
  - rewrite u64_small by (unfold is_u64, MaxUint64; lia). lia.
Qed.

(** C22. The header check accepts exactly the headers that satisfy all of the rules:
    in particular the gas limit moves by less than [1/1024] of the parent's, in
    plain integers although the code compares wrapped machine words. *)
Theorem verifyHeader_iff chain now header parent uncle seal
    (Hp : 0 <= h_GasLimit parent <= 0x7fffffffffffffff) (Hh : is_u64 (h_GasLimit header)) :
  verifyHeader cr pow chain now header parent uncle seal = None <-> header_accepted chain now header parent uncle seal.
Proof.
  unfold is_u64 in Hh. unfold verifyHeader. cbn zeta. split.
  - intros E.
    destruct (Z.ltb_spec MaximumExtraDataSize (zlen (h_Extra header))); [done|].
    destruct (uncle && _) eqn:Eu; [done|]. destruct (negb uncle && _) eqn:En; [done|].
    destruct (Z.leb_spec (h_Time header) (h_Time parent)); [done|].
    destruct (Z.eqb_spec (CalcDifficulty cr (chain_Config chain) (u64 (h_Time header)) parent) (h_Difficulty header)); [|done]. cbn [negb] in E.
    destruct (Z.ltb_spec 0x7fffffffffffffff (h_GasLimit header)); [done|].
    destruct (Z.ltb_spec (h_GasLimit header) (h_GasUsed header)); [done|].
    pose proof (gas_step (h_GasLimit parent) (h_GasLimit header) Hp ltac:(lia)) as Hg. cbn zeta in Hg. rewrite Hg in E.
    destruct (Z.leb_spec (h_GasLimit parent / GasLimitBoundDivisor) (Z.abs (h_GasLimit parent - h_GasLimit header))); [done|].
    destruct (Z.ltb_spec (h_GasLimit header) MinGasLimit); [done|]. cbn [orb] in E.
    destruct (Z.eqb_spec (h_Number header - h_Number parent) 1); [|done]. cbn [negb] in E.
    destruct (if seal then verifySeal cr pow header else None) eqn:Es; [done|].
    destruct (VerifyDAOHeaderExtraData (chain_Config chain) header) eqn:Ed; [done|].
    split; try done; try lia; [|by intros ->]. destruct uncle; cbn [negb andb] in *; [apply Z.ltb_ge in Eu|apply Z.ltb_ge in En]; lia.
  - intros [H1 H2 H3 H4 H5 H6 H7 H8 H9 H10 H11].
    rewrite (proj2 (Z.ltb_ge _ _) H1). assert (uncle && (two256 - 1 <? h_Time header) = false) as ->.
    { destruct uncle; [|done]. cbn [andb]. apply Z.ltb_ge. lia. }
    assert (negb uncle && (now + allowedFutureBlockTime <? h_Time header) = false) as ->.
    { destruct uncle; [done|]. cbn [negb andb]. apply Z.ltb_ge. lia. }
    rewrite (proj2 (Z.leb_gt _ _) H2), <- H4, Z.eqb_refl. cbn [negb]. rewrite (proj2 (Z.ltb_ge _ _) (proj2 H6)), (proj2 (Z.ltb_ge _ _) H5).
    pose proof (gas_step (h_GasLimit parent) (h_GasLimit header) Hp ltac:(unfold MinGasLimit in *; lia)) as Hg. cbn zeta in Hg. rewrite Hg.
    rewrite (proj2 (Z.leb_gt _ _) H7), (proj2 (Z.ltb_ge _ _) (proj1 H6)). cbn [orb].
    replace (h_Number header - h_Number parent =? 1) with true by (symmetry; apply Z.eqb_eq; lia). cbn [negb].
    assert ((if seal then verifySeal cr pow header else None) = None) as -> by (destruct seal; auto). by rewrite H10.
Qed.

(** ** Uncles *)









(** ** Mining *)



End facts.

(** ** Sealing with the dataset, checking with the cache *)

Section sealing.
Context (cr : Crypto) (keccak512 : list byte -> list byte) (Hk512 : forall b, length (keccak512 b) = 64%nat).



Context (prime : Z -> bool) (steps : nat) (test : bool) (evictC : gmap Z cache -> gmap Z cache) (evictD : gmap Z dataset -> gmap Z dataset).
Context (HevictC : forall m e i, evictC m !! e = Some i -> m !! e = Some i) (HevictD : forall m e i, evictD m !! e = Some i -> m !! e = Some i).

End sealing.

(** ** Rewards *)

Section rewards.
Context {S : Type} `{StateDB S} {cr : Crypto} `{!StateDBLaws S cr} `{!LedgerLaws S cr}.

(** The reward of a block: five ether, three since Byzantium and two since Constantinople. *)
Definition ether : Z := 10 ^ 18.
Definition since (fork : option Z) (number : Z) : bool := match fork with Some f => f <=? number | None => false end.
Definition era_reward (config : ChainConfig) (number : Z) : Z :=
  if since (ConstantinopleBlock config) number then 2 * ether
  else if since (ByzantiumBlock config) number then 3 * ether
  else 5 * ether.

(** An uncle gets an eighth of it less for each generation between it and the block, and the
    miner of the block a thirty-second for each uncle. *)
Definition uncle_share (R : Z) (header uncle : Header) : Z := (8 - (h_Number header - h_Number uncle)) * (R / 8).
Definition total_reward (config : ChainConfig) (header : Header) (uncles : list Header) : Z :=
  let R := era_reward config (h_Number header) in
  R + foldr (fun u n => uncle_share R header u + R / 32 + n) 0 uncles.

Lemma blockReward_era config number : blockReward config number = era_reward config number.
Proof.
  unfold blockReward, era_reward, IsConstantinople, IsByzantium, isForked, since.
  destruct (ConstantinopleBlock config), (ByzantiumBlock config); reflexivity.
Qed.

Lemma blockReward_pos config n : 2 * 10 ^ 18 <= blockReward config n <= 5 * 10 ^ 18 /\ blockReward config n mod 8 = 0.
Proof. unfold blockReward. repeat case_match; unfold ConstantinopleBlockReward, ByzantiumBlockReward, FrontierBlockReward; split; [lia|done|lia|done|lia|done]. Qed.

Lemma uncleReward_share R header u : R mod 8 = 0 -> uncleReward R header u = uncle_share R header u.
Proof.
  intros H8. unfold uncleReward, uncle_share. pose proof (Z.div_mod R 8 ltac:(lia)) as E. rewrite H8, Z.add_0_r in E. rewrite E at 1.
  replace ((h_Number u + 8 - h_Number header) * (8 * (R / 8))) with ((8 - (h_Number header - h_Number u)) * (R / 8) * 8) by lia.
  by rewrite Z.div_mul.
Qed.

(** What the uncles of [us] pay to the account [a]. *)
Definition uncle_income (R : Z) (header : Header) (us : list Header) (a : Address) : Z :=
  foldr (fun u n => (if decide (h_Coinbase u = a) then uncle_share R header u else 0) + n) 0 us.

Lemma reward_uncles_ok R header uncles : 0 <= R -> R mod 8 = 0 -> (forall u, u ∈ uncles -> 0 <= uncle_share R header u /\ is_address (h_Coinbase u)) ->
  forall reward state, state_ok state -> 0 <= reward ->
  let '(reward', state') := reward_uncles R header uncles reward state in
  state_ok state' /\ 0 <= reward' /\ reward' = reward + Z.of_nat (length uncles) * (R / 32) /\
  forall a, GetBalance state' a = GetBalance state a + uncle_income R header uncles a.
Proof.
  intros HR H8. assert (0 <= R / 32) by (apply Z.div_pos; lia). unfold uncle_income.
  induction uncles as [|u us IH]; intros Hu reward state Hok Hr; cbn [reward_uncles].
  { split; [done|]. split; [done|]. split; [cbn; lia|]. intros a. cbn. lia. }
  destruct (Hu u ltac:(left)) as [Hu0 Hua]. rewrite (uncleReward_share R header u H8).
  assert (state_ok (AddBalance state (h_Coinbase u) (uncle_share R header u))) as Hok' by (by apply add_ok).
  specialize (IH ltac:(intros v Hv; apply Hu; by right) (reward + R / 32) _ Hok' ltac:(lia)).
  destruct (reward_uncles R header us (reward + R / 32) _) as [reward' state']. destruct IH as (H1 & H2 & H3 & H4).
  split; [done|]. split; [done|]. split; [cbn [length]; lia|]. intros a. rewrite H4, add_balance by done. cbn [foldr].
  destruct (decide (a = h_Coinbase u)), (decide (h_Coinbase u = a)); try congruence; lia.
Qed.

Lemma supply_sum L (f : Address -> Z) s s' : (forall a, GetBalance s' a = GetBalance s a + f a) ->
  supply L s' = supply L s + foldr (fun a n => f a + n) 0 L.
Proof. intros Hb. unfold supply. induction L as [|a L IH]; cbn in *; [lia|]. rewrite Hb, IH. lia. Qed.

Lemma sum_one (L : list Address) c (v : Z) : NoDup L -> c ∈ L -> foldr (fun a n => (if decide (c = a) then v else 0) + n) 0 L = v.
Proof.
  induction 1 as [|a L Hn Hnd IH]; intros Hin; [by apply not_elem_of_nil in Hin|]. cbn [foldr]. apply elem_of_cons in Hin as [->|Hin].
  - rewrite decide_True by done. assert (forall M, a ∉ M -> foldr (fun b n => (if decide (a = b) then v else 0) + n) 0 M = 0) as Hz; [|rewrite Hz; [lia|done]].
    induction M as [|b M IHM]; intros Ha; [done|]. cbn [foldr]. rewrite decide_False by (intros ->; apply Ha; left). rewrite IHM; [done|]. intros ?. apply Ha. by right.
  - rewrite decide_False by (intros ->; done). rewrite IH by done. lia.
Qed.

Lemma sum_income R header uncles L : NoDup L -> (forall u, u ∈ uncles -> h_Coinbase u ∈ L) ->
  foldr (fun a n => uncle_income R header uncles a + n) 0 L = foldr (fun u n => uncle_share R header u + n) 0 uncles.
Proof.
  intros Hnd. induction uncles as [|u us IH]; intros Hin.
  - unfold uncle_income. cbn. clear. induction L; cbn in *; lia.
  - cbn [foldr]. rewrite <- IH by (intros v Hv; apply Hin; by right). rewrite <- (sum_one L (h_Coinbase u) (uncle_share R header u) Hnd (Hin u ltac:(left))).
    clear. induction L as [|a L IHL]; [done|]. cbn [foldr]. rewrite IHL. unfold uncle_income. cbn [foldr]. lia.
Qed.

Lemma rewards_paid config state header uncles (R := era_reward config (h_Number header)) : state_ok state -> is_address (h_Coinbase header) ->
  (forall u, u ∈ uncles -> h_Number header - 8 <= h_Number u /\ is_address (h_Coinbase u)) ->
  state_ok (accumulateRewards config state header uncles) /\
  forall a, GetBalance (accumulateRewards config state header uncles) a = GetBalance state a +
    ((if decide (h_Coinbase header = a) then R + Z.of_nat (length uncles) * (R / 32) else 0) + uncle_income R header uncles a).
Proof.
  intros Hok Hc Hu. unfold accumulateRewards. pose proof (blockReward_pos config (h_Number header)) as [HR H8].
  rewrite (blockReward_era config (h_Number header)) in *. fold R in HR, H8 |- *.
  assert (forall u, u ∈ uncles -> 0 <= uncle_share R header u /\ is_address (h_Coinbase u)) as Hu'.
  { intros u Hin. destruct (Hu u Hin) as [H1 H2]. split; [|done]. apply Z.mul_nonneg_nonneg; [lia|apply Z.div_pos; lia]. }
  pose proof (reward_uncles_ok R header uncles ltac:(lia) H8 Hu' R state Hok ltac:(lia)) as H1.
  destruct (reward_uncles R header uncles R state) as [reward state']. destruct H1 as (Hok' & Hr & Er & Hs).
  split; [by apply add_ok|]. intros a. rewrite add_balance, Hs, Er by done.
  destruct (decide (a = h_Coinbase header)), (decide (h_Coinbase header = a)); try congruence; lia.
Qed.

Lemma accumulateRewards_ok config state header uncles : state_ok state -> is_address (h_Coinbase header) ->
  (forall u, u ∈ uncles -> h_Number header - 8 <= h_Number u /\ is_address (h_Coinbase u)) ->
  state_ok (accumulateRewards config state header uncles) /\
  forall L, NoDup L -> h_Coinbase header ∈ L -> (forall u, u ∈ uncles -> h_Coinbase u ∈ L) ->
    supply L (accumulateRewards config state header uncles) = supply L state + total_reward config header uncles.
Proof.
  intros Hok Hc Hu. destruct (rewards_paid config state header uncles Hok Hc Hu) as [H1 H2]. split; [done|]. intros L HL Hin Hins.
  rewrite (supply_sum L _ _ _ H2). unfold total_reward. set (R := era_reward config (h_Number header)) in *.
  set (m := R + Z.of_nat (length uncles) * (R / 32)).
  assert (foldr (fun a n => (if decide (h_Coinbase header = a) then m else 0) + uncle_income R header uncles a + n) 0 L =
    foldr (fun a n => (if decide (h_Coinbase header = a) then m else 0) + n) 0 L + foldr (fun a n => uncle_income R header uncles a + n) 0 L) as ->.
  { clear. induction L as [|a L IH]; [done|]. cbn [foldr]. rewrite IH. lia. }
  rewrite sum_one, sum_income by done. unfold m.
  assert (foldr (fun u n => uncle_share R header u + R / 32 + n) 0 uncles =
    foldr (fun u n => uncle_share R header u + n) 0 uncles + Z.of_nat (length uncles) * (R / 32)) as ->; [|lia].
  clear. induction uncles as [|u us IH]; cbn [foldr length]; [lia|]. rewrite IH. lia.
Qed.

End rewards.

(** ** Examples *)

Definition toy_config : ChainConfig := MainnetChainConfig.
Definition toy_header (parent : Header) (time : Z) (coinbase : Address) : Header :=
  mkHeader (Header_Hash mem_crypto parent) (EmptyUncleHash mem_crypto) coinbase 4 5 6 (replicate 256 Byte.x00)
    (CalcDifficulty mem_crypto toy_config time parent) (h_Number parent + 1) 8000000 21000 time [] 0 (replicate 8 Byte.x00).

Definition toy_grand : Header := example_header.
Definition toy_parent : Header := toy_header toy_grand 1500000010 1.

Definition toy_chain : ChainReader := {|
  chain_Config := toy_config;
  GetHeader _ _ := None;
  GetHeaderByNumber _ := None;
  GetBlock hash number :=
    if bool_decide (Header_Hash mem_crypto toy_parent = hash /\ h_Number toy_parent = number) then Some (mkBlock toy_parent [] [])
    else if bool_decide (Header_Hash mem_crypto toy_grand = hash /\ h_Number toy_grand = number) then Some (mkBlock toy_grand [] [])
    else None
|}.
(** Every nonce solves this puzzle. *)
Definition easy_pow (_ : Z) (_ : list byte) (_ : Z) : list byte * list byte := (replicate 32 Byte.x00, []).


Lemma CalcDifficulty_bounds_witness : MinimumDifficulty <= CalcDifficulty mem_crypto toy_config 1500000010 toy_grand.
Proof.
  destruct (CalcDifficulty_bounds mem_crypto toy_config 1500000010 toy_grand) as [H _]; [vm_compute; discriminate..|exact H].
Defined.

Lemma verifyHeader_iff_witness : header_accepted mem_crypto easy_pow toy_chain 1500000030 toy_parent toy_grand false true.
Proof.
  destruct (verifyHeader_iff mem_crypto easy_pow toy_chain 1500000030 toy_parent toy_grand false true) as [H _].
  - split; vm_compute; discriminate.
  - split; vm_compute; discriminate.
  - apply H. vm_compute. reflexivity.
Defined.










