(* ===== verification/Clique.v ===== *)
(** * Proof-of-authority consensus ([lib/consensus/clique])

    Voting snapshots ([snapshot.go]) and the header rules, preparation and sealing
    of [clique.go].  A header of the model has all its numbers, so the tests for nil
    fields have no counterpart.  The cache of recent snapshots is a map from which
    adding may evict; a stored snapshot is the value its JSON text stands for.  The
    cache of recovered signers is [ecrecover]'s; the rules call [recover_signer],
    which is what it memoises. *)
From S2P Require Import Prelude CommonMath Params RlpEncode RlpTyped VmInterface ChainTypes Ethash.
From stdpp Require Import base numbers list gmap sorting.
From Stdlib Require Import ZArith Lia.
#[local] Open Scope Z_scope.

(** ** Data *)

Record Vote := mkVote { v_Signer : Address; v_Block : Z; v_Address : Address; v_Authorize : bool }.

Record Tally := mkTally { t_Authorize : bool; t_Votes : Z }.

Record Snapshot := mkSnapshot {
  sn_Number : Z;
  sn_Hash : Hash;
  sn_Signers : gset Address;
  sn_Recents : gmap Z Address;
  sn_Votes : list Vote;
  sn_Tally : gmap Address Tally
}.

Inductive clique_error : Type :=
| errUnknownBlock
| errInvalidCheckpointBeneficiary
| errInvalidVote
| errInvalidCheckpointVote
| errMissingVanity
| errMissingSignature
| errExtraSigners
| errInvalidCheckpointSigners
| errMismatchingCheckpointSigners
| errInvalidMixDigest
| errInvalidUncleHash
| errInvalidDifficulty
| errWrongDifficulty
| ErrInvalidTimestamp
| errInvalidVotingChain
| errUnauthorizedSigner
| errRecentlySigned
| errUnclesNotAllowed
| errSignature
| errDatabase
| errConsensus (e : consensus_error).

Definition checkpointInterval : Z := 1024.
Definition epochLength : Z := 30000.
Definition extraVanity : Z := 32.
Definition extraSeal : Z := 65.
Definition nonceAuthVote : BlockNonce := replicate 8 Byte.xff.
Definition nonceDropVote : BlockNonce := replicate 8 Byte.x00.
Definition diffInTurn : Z := 2.
Definition diffNoTurn : Z := 1.

(** ** Snapshots *)

Definition newSnapshot (number : Z) (hash : Hash) (signers : list Address) : Snapshot :=
  mkSnapshot number hash (list_to_set signers) ∅ [] ∅.

Definition validVote (s : Snapshot) (address : Address) (authorize : bool) : bool :=
  let signer := bool_decide (address ∈ sn_Signers s) in
  (signer && negb authorize) || (negb signer && authorize).

(** The fields [cast] and [uncast] change. *)
Definition with_tally (s : Snapshot) (tally : gmap Address Tally) : Snapshot :=
  mkSnapshot (sn_Number s) (sn_Hash s) (sn_Signers s) (sn_Recents s) (sn_Votes s) tally.
Definition with_votes (s : Snapshot) (votes : list Vote) : Snapshot :=
  mkSnapshot (sn_Number s) (sn_Hash s) (sn_Signers s) (sn_Recents s) votes (sn_Tally s).
Definition with_recents (s : Snapshot) (recents : gmap Z Address) : Snapshot :=
  mkSnapshot (sn_Number s) (sn_Hash s) (sn_Signers s) recents (sn_Votes s) (sn_Tally s).
Definition with_signers (s : Snapshot) (signers : gset Address) : Snapshot :=
  mkSnapshot (sn_Number s) (sn_Hash s) signers (sn_Recents s) (sn_Votes s) (sn_Tally s).

Definition cast (s : Snapshot) (address : Address) (authorize : bool) : bool * Snapshot :=
  if negb (validVote s address authorize) then (false, s)
  else
    match sn_Tally s !! address with
    | Some old => (true, with_tally s (<[address := mkTally (t_Authorize old) (t_Votes old + 1)]> (sn_Tally s)))
    | None => (true, with_tally s (<[address := mkTally authorize 1]> (sn_Tally s)))
    end.

Definition uncast (s : Snapshot) (address : Address) (authorize : bool) : bool * Snapshot :=
  match sn_Tally s !! address with
  | None => (false, s)
  | Some tally =>
      if negb (Bool.eqb (t_Authorize tally) authorize) then (false, s)
      else if 1 <? t_Votes tally
           then (true, with_tally s (<[address := mkTally (t_Authorize tally) (t_Votes tally - 1)]> (sn_Tally s)))
           else (true, with_tally s (delete address (sn_Tally s)))
  end.

(** The first loop of [apply]: the signer's previous vote on the address, if any, is
    taken back.  [before] are the votes already passed. *)
Fixpoint drop_vote (signer address : Address) (before votes : list Vote) (s : Snapshot) : Snapshot :=
  match votes with
  | [] => s
  | vote :: votes =>
      if (v_Signer vote =? signer) && (v_Address vote =? address)
      then with_votes (snd (uncast s (v_Address vote) (v_Authorize vote))) (before ++ votes)
      else drop_vote signer address (before ++ [vote]) votes s
  end.

(** The votes a dropped signer cast are taken back. *)
Fixpoint drop_votes_of (signer : Address) (before votes : list Vote) (s : Snapshot) : Snapshot :=
  match votes with
  | [] => with_votes s before
  | vote :: votes =>
      if v_Signer vote =? signer
      then drop_votes_of signer before votes (snd (uncast s (v_Address vote) (v_Authorize vote)))
      else drop_votes_of signer (before ++ [vote]) votes s
  end.

(** [uint64(len(snap.Signers)/2 + 1)]. *)
Definition limit (s : Snapshot) : Z := Z.of_nat (size (sn_Signers s)) / 2 + 1.

(** [delete(snap.Recents, number-limit)], when the subtraction does not wrap. *)
Definition shift_recents (number : Z) (s : Snapshot) : Snapshot :=
  if limit s <=? number then with_recents s (delete (number - limit s) (sn_Recents s)) else s.

Definition is_recent (recents : gmap Z Address) (signer : Address) : bool :=
  existsb (fun r => snd r =? signer) (map_to_list recents).

(** A vote that passed: the signer set changes, and votes on the address go. *)
Definition pass_vote (number : Z) (coinbase : Address) (tally : Tally) (s : Snapshot) : Snapshot :=
  let s :=
    if t_Authorize tally then with_signers s ({[coinbase]} ∪ sn_Signers s)
    else
      let s := with_signers s (sn_Signers s ∖ {[coinbase]}) in
      let s := shift_recents number s in
      drop_votes_of coinbase [] (sn_Votes s) s in
  let s := with_votes s (filter (fun v => v_Address v <> coinbase) (sn_Votes s)) in
  with_tally s (delete coinbase (sn_Tally s)).

Section clique.
Context (cr : Crypto).

(** *** Signatures *)

(** The header without the 65 bytes of the seal. *)
Definition unsealed_hash (h : Header) : Hash :=
  rlpHash cr (VList
    [ val_as hash_rlp (h_ParentHash h); val_as hash_rlp (h_UncleHash h); val_as address_rlp (h_Coinbase h);
      val_as hash_rlp (h_Root h); val_as hash_rlp (h_TxHash h); val_as hash_rlp (h_ReceiptHash h);
      val_as (array_rlp BloomByteLength) (h_Bloom h); val_as bigint_rlp (h_Difficulty h); val_as bigint_rlp (h_Number h);
      val_as uint64_rlp (h_GasLimit h); val_as uint64_rlp (h_GasUsed h); val_as bigint_rlp (h_Time h);
      val_as bytes_rlp (take (length (h_Extra h) - 65) (h_Extra h)); val_as hash_rlp (h_MixDigest h);
      val_as (array_rlp 8) (h_Nonce h) ]).

(** Slicing an extra field shorter than the seal panics. *)
Definition sigHash (h : Header) : outcome Hash := if zlen (h_Extra h) <? extraSeal then Panic else Ok (unsealed_hash h).

(** What [ecrecover] computes; a recovered public key has 65 bytes. *)
Definition recover_signer (h : Header) : result clique_error Address :=
  if zlen (h_Extra h) <? extraSeal then Err errMissingSignature
  else
    let signature := drop (length (h_Extra h) - 65) (h_Extra h) in
    match secp256k1_recover cr (Hash_Bytes (unsealed_hash h)) signature with
    | None => Err errSignature
    | Some pubkey => Good (BytesToAddress (drop 12 (keccak256 cr (drop 1 pubkey))))
    end.

(** [ecrecover], with the cache of signers by header hash. *)
Definition ecrecover (h : Header) (sigcache : gmap Hash Address) : result clique_error Address * gmap Hash Address :=
  let hash := Header_Hash cr h in
  match sigcache !! hash with
  | Some address => (Good address, sigcache)
  | None =>
      match recover_signer h with
      | Err e => (Err e, sigcache)
      | Good signer => (Good signer, <[hash := signer]> sigcache)
      end
  end.

(** *** Applying headers *)

(** One turn of the loop of [apply]. *)
Definition apply_header (config : CliqueConfig) (snap : Snapshot) (header : Header) : result clique_error Snapshot :=
  let number := u64 (h_Number header) in
  let snap := if number mod Epoch config =? 0 then with_tally (with_votes snap []) ∅ else snap in
  let snap := shift_recents number snap in
  match recover_signer header with
  | Err e => Err e
  | Good signer =>
      if negb (bool_decide (signer ∈ sn_Signers snap)) then Err errUnauthorizedSigner
      else if is_recent (sn_Recents snap) signer then Err errRecentlySigned
      else
        let snap := with_recents snap (<[number := signer]> (sn_Recents snap)) in
        let snap := drop_vote signer (h_Coinbase header) [] (sn_Votes snap) snap in
        let nonce := if bool_decide (h_Nonce header = nonceAuthVote) then Some true
                     else if bool_decide (h_Nonce header = nonceDropVote) then Some false else None in
        match nonce with
        | None => Err errInvalidVote
        | Some authorize =>
            let '(ok, snap) := cast snap (h_Coinbase header) authorize in
            let snap := if ok then with_votes snap (sn_Votes snap ++ [mkVote signer number (h_Coinbase header) authorize]) else snap in
            match sn_Tally snap !! h_Coinbase header with
            | Some tally =>
                if Z.of_nat (size (sn_Signers snap)) / 2 <? t_Votes tally
                then Good (pass_vote number (h_Coinbase header) tally snap) else Good snap
            | None => Good snap
            end
        end
  end.

Fixpoint apply_loop (config : CliqueConfig) (snap : Snapshot) (headers : list Header) : result clique_error Snapshot :=
  match headers with
  | [] => Good snap
  | header :: headers =>
      match apply_header config snap header with
      | Err e => Err e
      | Good snap => apply_loop config snap headers
      end
  end.

(** Whether each number is the previous one's successor. *)
Fixpoint contiguous (headers : list Header) : bool :=
  match headers with
  | h1 :: (h2 :: _) as rest => (u64 (h_Number h2) =? u64 (u64 (h_Number h1) + 1)) && contiguous rest
  | _ => true
  end.

Definition Snapshot_apply (config : CliqueConfig) (s : Snapshot) (headers : list Header) : result clique_error Snapshot :=
  match headers with
  | [] => Good s
  | first :: _ =>
      if negb (contiguous headers) then Err errInvalidVotingChain
      else if negb (u64 (h_Number first) =? u64 (sn_Number s + 1)) then Err errInvalidVotingChain
      else
        match apply_loop config s headers with
        | Err e => Err e
        | Good snap =>
            Good (mkSnapshot (u64 (sn_Number snap + zlen headers)) (Header_Hash cr (default first (last headers)))
              (sn_Signers snap) (sn_Recents snap) (sn_Votes snap) (sn_Tally snap))
        end
  end.

(** *** Turns *)

Definition signers (s : Snapshot) : list Address := merge_sort Z.le (elements (sn_Signers s)).

Fixpoint offset_of (signer : Address) (l : list Address) : Z :=
  match l with
  | [] => 0
  | a :: l => if a =? signer then 0 else 1 + offset_of signer l
  end.

(** With no signers the remainder is by zero. *)
Definition inturn (s : Snapshot) (number : Z) (signer : Address) : outcome bool :=
  if zlen (signers s) =? 0 then Panic
  else Ok (number mod zlen (signers s) =? offset_of signer (signers s)).

Definition CalcDifficulty (snap : Snapshot) (signer : Address) : outcome Z :=
  let! turn := inturn snap (u64 (sn_Number snap + 1)) signer in
  Ok (if turn : bool then diffInTurn else diffNoTurn).

(** *** The engine *)

Record CliqueEngine := mkCliqueEngine {
  cl_config : CliqueConfig;
  cl_db : gmap Hash Snapshot;
  cl_recents : gmap Hash Snapshot;
  cl_proposals : gmap Address bool;
  cl_signer : Address;
  cl_fakeDiff : bool
}.

Definition Clique_New (config : CliqueConfig) (db : gmap Hash Snapshot) : CliqueEngine :=
  let conf := mkCliqueConfig (Period config) (if Epoch config =? 0 then epochLength else Epoch config) in
  mkCliqueEngine conf db ∅ ∅ 0 false.

Definition Authorize (c : CliqueEngine) (signer : Address) : CliqueEngine :=
  mkCliqueEngine (cl_config c) (cl_db c) (cl_recents c) (cl_proposals c) signer (cl_fakeDiff c).

(** [API.Propose] and [API.Discard]. *)
Definition with_proposals (c : CliqueEngine) (proposals : gmap Address bool) : CliqueEngine :=
  mkCliqueEngine (cl_config c) (cl_db c) (cl_recents c) proposals (cl_signer c) (cl_fakeDiff c).
Definition Propose (c : CliqueEngine) (address : Address) (auth : bool) : CliqueEngine :=
  with_proposals c (<[address := auth]> (cl_proposals c)).
Definition Discard (c : CliqueEngine) (address : Address) : CliqueEngine :=
  with_proposals c (delete address (cl_proposals c)).

(** What an ARC cache of bounded size keeps, and whether a write to disk succeeds. *)
Context (evict : gmap Hash Snapshot -> gmap Hash Snapshot) (put_ok : Snapshot -> bool).

Definition recents_Add (c : CliqueEngine) (snap : Snapshot) : CliqueEngine :=
  mkCliqueEngine (cl_config c) (cl_db c) (<[sn_Hash snap := snap]> (evict (cl_recents c))) (cl_proposals c) (cl_signer c)
    (cl_fakeDiff c).

Definition loadSnapshot (c : CliqueEngine) (hash : Hash) : option Snapshot := cl_db c !! hash.

Definition store (c : CliqueEngine) (snap : Snapshot) : result clique_error CliqueEngine :=
  if put_ok snap
  then Good (mkCliqueEngine (cl_config c) (<[sn_Hash snap := snap]> (cl_db c)) (cl_recents c) (cl_proposals c) (cl_signer c)
               (cl_fakeDiff c))
  else Err errDatabase.

(** The signers a checkpoint lists between vanity and seal; a negative size panics. *)
Definition checkpoint_signers (checkpoint : Header) : outcome (list Address) :=
  let n := Z.quot (zlen (h_Extra checkpoint) - extraVanity - extraSeal) 20 in
  if n <? 0 then Panic
  else Ok (map (fun i => be2z (take 20 (drop (32 + i * 20) (h_Extra checkpoint)))) (seq 0 (Z.to_nat n))).

Definition reply (A : Type) : Type := outcome (result clique_error A * CliqueEngine).

(** The search of [snapshot] for a known snapshot; [headers] are the ones passed on
    the way back, newest first. *)
Fixpoint search (fuel : nat) (c : CliqueEngine) (chain : ChainReader) (number : Z) (hash : Hash)
    (parents headers : list Header) : reply (Snapshot * list Header) :=
  match fuel with
  | O => OutOfFuel
  | S fuel =>
      let further (_ : unit) :=
        match last parents with
        | Some header =>
            if negb (Header_Hash cr header =? hash) || negb (u64 (h_Number header) =? number)
            then Ok (Err (errConsensus ErrUnknownAncestor), c)
            else search fuel c chain (u64 (number - 1)) (h_ParentHash header) (removelast parents) (headers ++ [header])
        | None =>
            match GetHeader chain hash number with
            | None => Ok (Err (errConsensus ErrUnknownAncestor), c)
            | Some header => search fuel c chain (u64 (number - 1)) (h_ParentHash header) parents (headers ++ [header])
            end
        end in
      match cl_recents c !! hash with
      | Some s => Ok (Good (s, headers), c)
      | None =>
          match (if number mod checkpointInterval =? 0 then loadSnapshot c hash else None) with
          | Some s => Ok (Good (s, headers), c)
          | None =>
              if (number =? 0) || ((number mod Epoch (cl_config c) =? 0) &&
                   match GetHeaderByNumber chain (u64 (number - 1)) with None => true | Some _ => false end)
              then
                match GetHeaderByNumber chain number with
                | Some checkpoint =>
                    let! signers := checkpoint_signers checkpoint in
                    let snap := newSnapshot number (Header_Hash cr checkpoint) signers in
                    match store c snap with
                    | Err e => Ok (Err e, c)
                    | Good c => Ok (Good (snap, headers), c)
                    end
                | None => further tt
                end
              else further tt
          end
      end
  end.

Definition snapshot (fuel : nat) (c : CliqueEngine) (chain : ChainReader) (number : Z) (hash : Hash) (parents : list Header) :
    reply Snapshot :=
  let! r := search fuel c chain number hash parents [] in
  match r with
  | (Err e, c) => Ok (Err e, c)
  | (Good (snap, headers), c) =>
      match Snapshot_apply (cl_config c) snap (rev headers) with
      | Err e => Ok (Err e, c)
      | Good snap =>
          let c := recents_Add c snap in
          if (sn_Number snap mod checkpointInterval =? 0) && negb (zlen headers =? 0)
          then match store c snap with
               | Err e => Ok (Err e, c)
               | Good c => Ok (Good snap, c)
               end
          else Ok (Good snap, c)
      end
  end.

(** *** Verification *)

Definition Clique_VerifyUncles (block : Block) : option clique_error :=
  if (0 <? length (b_uncles block))%nat then Some errUnclesNotAllowed else None.

(** The signer has signed one of the recent blocks the current one does not shift out. *)
Definition signed_recently (snap : Snapshot) (number : Z) (signer : Address) : bool :=
  existsb (fun r => (snd r =? signer) && (u64 (number - limit snap) <? fst r)) (map_to_list (sn_Recents snap)).

(** [verifySeal] once the snapshot is there. *)
Definition check_seal (c : CliqueEngine) (snap : Snapshot) (header : Header) : outcome (option clique_error) :=
  let number := u64 (h_Number header) in
  match recover_signer header with
  | Err e => Ok (Some e)
  | Good signer =>
      if negb (bool_decide (signer ∈ sn_Signers snap)) then Ok (Some errUnauthorizedSigner)
      else if signed_recently snap number signer then Ok (Some errRecentlySigned)
      else if negb (cl_fakeDiff c) then
        let! turn := inturn snap number signer in
        if turn && negb (h_Difficulty header =? diffInTurn) then Ok (Some errWrongDifficulty)
        else if negb turn && negb (h_Difficulty header =? diffNoTurn) then Ok (Some errWrongDifficulty)
        else Ok None
      else Ok None
  end.

Definition verdict : Type := outcome (option clique_error * CliqueEngine).

Definition verifySeal (fuel : nat) (c : CliqueEngine) (chain : ChainReader) (header : Header) (parents : list Header) : verdict :=
  let number := u64 (h_Number header) in
  if number =? 0 then Ok (Some errUnknownBlock, c)
  else
    let! r := snapshot fuel c chain (u64 (number - 1)) (h_ParentHash header) parents in
    match r with
    | (Err e, c) => Ok (Some e, c)
    | (Good snap, c) => let! e := check_seal c snap header in Ok (e, c)
    end.

Definition verifyCascadingFields (fuel : nat) (c : CliqueEngine) (chain : ChainReader) (header : Header) (parents : list Header) :
    verdict :=
  let number := u64 (h_Number header) in
  if number =? 0 then Ok (None, c)
  else
    let parent := match last parents with
                  | Some p => Some p
                  | None => GetHeader chain (h_ParentHash header) (u64 (number - 1))
                  end in
    match parent with
    | None => Ok (Some (errConsensus ErrUnknownAncestor), c)
    | Some parent =>
        if negb (u64 (h_Number parent) =? u64 (number - 1)) || negb (Header_Hash cr parent =? h_ParentHash header)
        then Ok (Some (errConsensus ErrUnknownAncestor), c)
        else if u64 (h_Time header) <? u64 (u64 (h_Time parent) + Period (cl_config c)) then Ok (Some ErrInvalidTimestamp, c)
        else
          let! r := snapshot fuel c chain (u64 (number - 1)) (h_ParentHash header) parents in
          match r with
          | (Err e, c) => Ok (Some e, c)
          | (Good snap, c) =>
              let listed := take (length (h_Extra header) - 65 - 32) (drop 32 (h_Extra header)) in
              if (number mod Epoch (cl_config c) =? 0) && negb (bool_decide (listed = concat (map Address_Bytes (signers snap))))
              then Ok (Some errMismatchingCheckpointSigners, c)
              else verifySeal fuel c chain header parents
          end
    end.

(** The rules that read the header alone. *)
Definition check_fields (c : CliqueEngine) (chain : ChainReader) (now : Z) (header : Header) : option clique_error :=
  let number := u64 (h_Number header) in
  let checkpoint := number mod Epoch (cl_config c) =? 0 in
  let signersBytes := zlen (h_Extra header) - extraVanity - extraSeal in
  if now <? h_Time header then Some (errConsensus ErrFutureBlock)
  else if checkpoint && negb (h_Coinbase header =? 0) then Some errInvalidCheckpointBeneficiary
  else if negb (bool_decide (h_Nonce header = nonceAuthVote)) && negb (bool_decide (h_Nonce header = nonceDropVote))
    then Some errInvalidVote
  else if checkpoint && negb (bool_decide (h_Nonce header = nonceDropVote)) then Some errInvalidCheckpointVote
  else if zlen (h_Extra header) <? extraVanity then Some errMissingVanity
  else if zlen (h_Extra header) <? extraVanity + extraSeal then Some errMissingSignature
  else if negb checkpoint && negb (signersBytes =? 0) then Some errExtraSigners
  else if checkpoint && negb (signersBytes mod 20 =? 0) then Some errInvalidCheckpointSigners
  else if negb (h_MixDigest header =? 0) then Some errInvalidMixDigest
  else if negb (h_UncleHash header =? CalcUncleHash cr []) then Some errInvalidUncleHash
  else if (0 <? number) && (negb (h_Difficulty header =? diffInTurn) && negb (h_Difficulty header =? diffNoTurn))
    then Some errInvalidDifficulty
  else match VerifyForkHashes cr (chain_Config chain) header false with Some e => Some (errConsensus e) | None => None end.

Definition verifyHeader (fuel : nat) (c : CliqueEngine) (chain : ChainReader) (now : Z) (header : Header) (parents : list Header) :
    verdict :=
  match check_fields c chain now header with
  | Some e => Ok (Some e, c)
  | None => verifyCascadingFields fuel c chain header parents
  end.

(** [VerifyHeaders]: each header with the ones before it as parents. *)
Fixpoint VerifyHeaders (fuel : nat) (c : CliqueEngine) (chain : ChainReader) (now : Z) (before headers : list Header) :
    outcome (list (option clique_error) * CliqueEngine) :=
  match headers with
  | [] => Ok ([], c)
  | header :: headers =>
      let! r := verifyHeader fuel c chain now header before in
      let! rest := VerifyHeaders fuel (snd r) chain now (before ++ [header]) headers in
      Ok (fst r :: fst rest, snd rest)
  end.

(** *** Preparing and sealing *)

Definition with_extra (h : Header) (extra : list byte) : Header :=
  mkHeader (h_ParentHash h) (h_UncleHash h) (h_Coinbase h) (h_Root h) (h_TxHash h) (h_ReceiptHash h) (h_Bloom h)
    (h_Difficulty h) (h_Number h) (h_GasLimit h) (h_GasUsed h) (h_Time h) extra (h_MixDigest h) (h_Nonce h).

(** The vote [Prepare] puts in the header: one of the valid proposals, picked at
    random ([choice]). *)
Definition pick_vote (c : CliqueEngine) (snap : Snapshot) (choice : nat) : Address * BlockNonce :=
  let addresses := map fst (filter (fun p => validVote snap (fst p) (snd p) = true) (map_to_list (cl_proposals c))) in
  match addresses !! (choice mod length addresses)%nat with
  | None => (0, nonceDropVote)
  | Some address => (address, if default false (cl_proposals c !! address) then nonceAuthVote else nonceDropVote)
  end.

Definition Prepare (fuel : nat) (c : CliqueEngine) (chain : ChainReader) (now : Z) (choice : nat) (header : Header) :
    reply Header :=
  let number := u64 (h_Number header) in
  let! r := snapshot fuel c chain (u64 (number - 1)) (h_ParentHash header) [] in
  match r with
  | (Err e, c) => Ok (Err e, c)
  | (Good snap, c) =>
      let '(coinbase, nonce) :=
        if negb (number mod Epoch (cl_config c) =? 0) then pick_vote c snap choice else (0, nonceDropVote) in
      let! difficulty := CalcDifficulty snap (cl_signer c) in
      let extra := h_Extra header ++ replicate (32 - length (h_Extra header)) Byte.x00 in
      let extra := take 32 extra in
      let extra := if number mod Epoch (cl_config c) =? 0 then extra ++ concat (map Address_Bytes (signers snap)) else extra in
      let extra := extra ++ replicate 65 Byte.x00 in
      match GetHeader chain (h_ParentHash header) (u64 (number - 1)) with
      | None => Ok (Err (errConsensus ErrUnknownAncestor), c)
      | Some parent =>
          let time := h_Time parent + Period (cl_config c) in
          let time := if s64 time <? now then now else time in
          Ok (Good (mkHeader (h_ParentHash header) (h_UncleHash header) coinbase (h_Root header) (h_TxHash header)
            (h_ReceiptHash header) (h_Bloom header) difficulty (h_Number header) (h_GasLimit header) (h_GasUsed header)
            time extra 0 nonce), c)
      end
  end.

(** [Seal] up to the delay: the sealed header, or nothing when there is nothing to do
    now.  [txs] is the number of transactions, [signFn] the wallet's signature. *)
Definition Seal (fuel : nat) (c : CliqueEngine) (chain : ChainReader) (signFn : Address -> list byte -> option (list byte))
    (header : Header) (txs : nat) : reply (option Header) :=
  let number := u64 (h_Number header) in
  if number =? 0 then Ok (Err errUnknownBlock, c)
  else if (Period (cl_config c) =? 0) && (txs =? 0)%nat then Ok (Good None, c)
  else
    let! r := snapshot fuel c chain (u64 (number - 1)) (h_ParentHash header) [] in
    match r with
    | (Err e, c) => Ok (Err e, c)
    | (Good snap, c) =>
        if negb (bool_decide (cl_signer c ∈ sn_Signers snap)) then Ok (Err errUnauthorizedSigner, c)
        else if existsb (fun r => (snd r =? cl_signer c) && ((number <? limit snap) || (u64 (number - limit snap) <? fst r)))
                  (map_to_list (sn_Recents snap)) then Ok (Good None, c)
        else
          let! hash := sigHash header in
          match signFn (cl_signer c) (Hash_Bytes hash) with
          | None => Ok (Err errSignature, c)
          | Some sighash =>
              let keep := take (length (h_Extra header) - 65) (h_Extra header) in
              let seal := drop (length (h_Extra header) - 65) (h_Extra header) in
              Ok (Good (Some (with_extra header (keep ++ take 65 sighash ++ drop (length sighash) seal))), c)
          end
    end.

(** The engine's [CalcDifficulty]: nil when there is no snapshot. *)
Definition Clique_CalcDifficulty (fuel : nat) (c : CliqueEngine) (chain : ChainReader) (parent : Header) :
    outcome (option Z * CliqueEngine) :=
  let! r := snapshot fuel c chain (u64 (h_Number parent)) (Header_Hash cr parent) [] in
  match r with
  | (Err _, c) => Ok (None, c)
  | (Good snap, c) => let! d := CalcDifficulty snap (cl_signer c) in Ok (Some d, c)
  end.

End clique.
