(* ===== verification/CliqueFacts.v ===== *)
(** * Facts about proof of authority

    The tally of a snapshot counts its votes, the signer set changes by majority only,
    the recent signers fit a window that never blocks every signer, a header that
    passes the seal check can be applied, and a turn belongs to one signer. *)
From S2P Require Import Prelude CommonMath Params RlpEncode RlpTyped VmInterface ChainTypes StateAccount MemDb Ethash Clique.
From stdpp Require Import base numbers list gmap sorting.
From Stdlib Require Import ZArith Lia.
#[local] Open Scope Z_scope.

(** ** Votes and tally *)

Definition votes_on (a : Address) (votes : list Vote) : list Vote := filter (fun v => v_Address v = a) votes.

(** What the tally of an address should be. *)
Definition tally_for (signers : gset Address) (votes : list Vote) (a : Address) : option Tally :=
  let n := zlen (votes_on a votes) in
  if n =? 0 then None else Some (mkTally (negb (bool_decide (a ∈ signers))) n).

(** A live vote is a signer's, and would change the signer set. *)
Definition vote_ok (signers : gset Address) (v : Vote) : Prop :=
  v_Signer v ∈ signers /\ v_Authorize v = negb (bool_decide (v_Address v ∈ signers)).

Definition ballot (v : Vote) : Address * Address := (v_Signer v, v_Address v).

Record votes_ok (s : Snapshot) : Prop := {
  vo_tally : forall a, sn_Tally s !! a = tally_for (sn_Signers s) (sn_Votes s) a;
  vo_votes : Forall (vote_ok (sn_Signers s)) (sn_Votes s);
  vo_once : NoDup (map ballot (sn_Votes s))
}.

Lemma votes_on_app a l1 l2 : votes_on a (l1 ++ l2) = votes_on a l1 ++ votes_on a l2.
Proof. apply filter_app. Qed.

Lemma votes_on_cons a v l : votes_on a (v :: l) = if decide (v_Address v = a) then v :: votes_on a l else votes_on a l.
Proof. reflexivity. Qed.

Lemma count_remove a v l1 l2 :
  zlen (votes_on a (l1 ++ v :: l2)) = zlen (votes_on a (l1 ++ l2)) + (if decide (v_Address v = a) then 1 else 0).
Proof.
  rewrite !votes_on_app, votes_on_cons. unfold zlen. destruct (decide (v_Address v = a)); rewrite !length_app; cbn [length]; lia.
Qed.

(** Taking a live vote back keeps the tally exact. *)
Lemma uncast_ok s signers votes v l1 l2 : vote_ok signers v -> votes = l1 ++ v :: l2 ->
  (forall a, sn_Tally s !! a = tally_for signers votes a) ->
  exists tally, snd (uncast s (v_Address v) (v_Authorize v)) = with_tally s tally /\
    forall a, tally !! a = tally_for signers (l1 ++ l2) a.
Proof.
  intros [_ Hauth] -> HT. pose proof (HT (v_Address v)) as Hv. unfold tally_for in Hv.
  rewrite count_remove, decide_True in Hv by done. set (n := zlen (votes_on (v_Address v) (l1 ++ l2))) in *.
  assert (0 <= n) by apply zlen_nonneg. destruct (Z.eqb_spec (n + 1) 0); [lia|].
  unfold uncast. rewrite Hv. cbn [t_Authorize t_Votes]. rewrite <- Hauth, Bool.eqb_reflx. cbn [negb].
  destruct (Z.ltb_spec 1 (n + 1)); (eexists; split; [reflexivity|]); intros a;
    (destruct (decide (a = v_Address v)) as [->|Hne];
     [rewrite ?lookup_insert_eq, ?lookup_delete_eq; unfold tally_for; fold n; rewrite <- Hauth
     |rewrite ?lookup_insert_ne, ?lookup_delete_ne, HT by done; unfold tally_for; rewrite count_remove, decide_False by done; by rewrite Z.add_0_r]).
  - destruct (Z.eqb_spec n 0); [lia|]. do 2 f_equal. lia.
  - by destruct (Z.eqb_spec n 0); [|lia].
Qed.

Lemma with_tally_votes s t v : with_tally (with_votes s v) t = with_votes (with_tally s t) v.
Proof. done. Qed.

Lemma NoDup_remove {A} (f : Vote -> A) l1 v l2 : NoDup (map f (l1 ++ v :: l2)) -> NoDup (map f (l1 ++ l2)) /\ f v ∉ map f (l1 ++ l2).
Proof.
  rewrite !map_app. cbn [map]. rewrite <- Permutation_middle. intros [H1 H2]%NoDup_cons. done.
Qed.

(** The votes that stay are the others. *)
Definition no_ballot (signer address : Address) (votes : list Vote) : Prop := (signer, address) ∉ map ballot votes.

Lemma drop_vote_spec signer address votes : forall before s, sn_Votes s = before ++ votes ->
  no_ballot signer address before ->
  (drop_vote signer address before votes s = s /\ no_ballot signer address (before ++ votes)) \/
  exists l1 v l2, before ++ votes = l1 ++ v :: l2 /\ ballot v = (signer, address) /\
    drop_vote signer address before votes s = with_votes (snd (uncast s (v_Address v) (v_Authorize v))) (l1 ++ l2).
Proof.
  induction votes as [|v votes IH]; intros before s Hs Hb; cbn [drop_vote].
  { left. by rewrite app_nil_r. }
  destruct (decide (ballot v = (signer, address))) as [Hv|Hv].
  { injection Hv as H1 H2. rewrite H1, H2, !Z.eqb_refl. right. exists before, v, votes. unfold ballot. rewrite H1, H2. done. }
  assert ((v_Signer v =? signer) && (v_Address v =? address) = false) as ->.
  { apply not_true_iff_false. intros [?%Z.eqb_eq ?%Z.eqb_eq]%andb_true_iff. apply Hv. unfold ballot. congruence. }
  assert (no_ballot signer address (before ++ [v])) as Hb'.
  { unfold no_ballot in *. rewrite map_app, not_elem_of_app. split; [done|]. cbn [map]. intros E%list_elem_of_singleton. by apply Hv. }
  destruct (IH (before ++ [v]) s ltac:(by rewrite Hs, <- app_assoc) Hb') as [H|H]; rewrite <- app_assoc in H; [by left|by right].
Qed.

(** What the steps of one header leave alone. *)
Definition same_rest (s s' : Snapshot) : Prop :=
  sn_Number s' = sn_Number s /\ sn_Hash s' = sn_Hash s /\ sn_Signers s' = sn_Signers s /\ sn_Recents s' = sn_Recents s.

Lemma drop_vote_ok signer address s : votes_ok s ->
  let s' := drop_vote signer address [] (sn_Votes s) s in
  votes_ok s' /\ same_rest s s' /\ no_ballot signer address (sn_Votes s') /\ sn_Votes s' ⊆ sn_Votes s.
Proof.
  intros Hok s'. destruct (drop_vote_spec signer address (sn_Votes s) [] s eq_refl ltac:(apply not_elem_of_nil))
    as [[E Hno]|(l1 & v & l2 & Hv & Hb & E)]; cbn [app] in *; subst s'; rewrite E.
  { done. }
  destruct Hok as [HT HF HN]. rewrite Hv in HF, HN, HT. destruct (NoDup_remove ballot l1 v l2 HN) as [HN' Hno].
  apply Forall_app in HF as [HF1 HF2]. inversion HF2 as [|?? Hvok HF2']; subst.
  destruct (uncast_ok s (sn_Signers s) _ v l1 l2 Hvok eq_refl HT) as (tally & Eu & HT'). rewrite Eu.
  split; [split; [exact HT'|apply Forall_app; done|done]|]. split; [done|]. split; [by rewrite Hb in Hno|].
  cbn. rewrite Hv. intros x. rewrite !elem_of_app, elem_of_cons. tauto.
Qed.

Lemma drop_votes_of_ok signer signers0 votes : forall before s,
  Forall (vote_ok signers0) (before ++ votes) -> (forall a, sn_Tally s !! a = tally_for signers0 (before ++ votes) a) ->
  exists tally, drop_votes_of signer before votes s =
      with_votes (with_tally s tally) (before ++ filter (fun v => v_Signer v <> signer) votes) /\
    forall a, tally !! a = tally_for signers0 (before ++ filter (fun v => v_Signer v <> signer) votes) a.
Proof.
  induction votes as [|v votes IH]; intros before s HF HT; cbn [drop_votes_of].
  { exists (sn_Tally s). cbn [filter list_filter]. rewrite app_nil_r in *. by destruct s. }
  rewrite filter_cons. destruct (Z.eqb_spec (v_Signer v) signer) as [E|E].
  - rewrite decide_False by tauto. pose proof (proj2 (proj1 (Forall_app _ _ _) HF)) as HF2. inversion HF2; subst.
    destruct (uncast_ok s signers0 _ v before votes ltac:(done) eq_refl HT) as (tally & -> & HT').
    apply Forall_app in HF as [HF1 HF3]. inversion HF3; subst.
    destruct (IH before (with_tally s tally) ltac:(apply Forall_app; done) HT') as (t & -> & Ht). by exists t.
  - rewrite decide_True by done. replace (before ++ v :: votes) with ((before ++ [v]) ++ votes) in * by by rewrite <- app_assoc.
    destruct (IH (before ++ [v]) s HF HT) as (t & -> & Ht). exists t. rewrite <- app_assoc in *. done.
Qed.

Lemma votes_on_filter (P : Vote -> Prop) `{!forall v, Decision (P v)} a l : (forall v, v_Address v = a -> P v) ->
  votes_on a (filter P l) = votes_on a l.
Proof.
  intros HP. induction l as [|v l IH]; [done|]. rewrite filter_cons, votes_on_cons. destruct (decide (v_Address v = a)) as [E|E].
  - rewrite decide_True by auto. by rewrite votes_on_cons, decide_True, IH.
  - destruct (decide (P v)); [by rewrite votes_on_cons, decide_False|done].
Qed.

Lemma votes_on_none (a : Address) (l : list Vote) : votes_on a (filter (fun v => v_Address v <> a) l) = [].
Proof.
  apply elem_of_nil_inv. intros v [H1 [H2 _]%list_elem_of_filter]%list_elem_of_filter. done.
Qed.

Lemma NoDup_map_filter {A B} (f : A -> B) (P : A -> Prop) `{!forall v, Decision (P v)} (l : list A) : NoDup (map f l) -> NoDup (map f (filter P l)).
Proof.
  induction l as [|v l IH]; [done|]. cbn [map]. intros [Hv Hl]%NoDup_cons. rewrite filter_cons. destruct (decide (P v)); [|auto].
  cbn [map]. apply NoDup_cons. split; [|auto]. intros Hin. apply Hv. apply list_elem_of_In, in_map_iff in Hin as (x & Ex & Hx).
  apply list_elem_of_In, in_map_iff. exists x. split; [done|]. by apply list_elem_of_In, list_elem_of_filter in Hx as [_ ?%list_elem_of_In].
Qed.

(** Once the votes on an address are settled, the signer set may differ there. *)
Lemma settle_votes_ok s signers0 coinbase :
  (forall a, sn_Tally s !! a = tally_for signers0 (sn_Votes s) a) -> Forall (vote_ok signers0) (sn_Votes s) ->
  NoDup (map ballot (sn_Votes s)) -> (forall a, a <> coinbase -> (a ∈ sn_Signers s <-> a ∈ signers0)) ->
  (forall v, v ∈ sn_Votes s -> v_Signer v ∈ sn_Signers s) ->
  votes_ok (with_tally (with_votes s (filter (fun v => v_Address v <> coinbase) (sn_Votes s))) (delete coinbase (sn_Tally s))).
Proof.
  intros HT HF HN Hsame Hvoter.
  assert (forall a, a <> coinbase -> bool_decide (a ∈ sn_Signers s) = bool_decide (a ∈ signers0)) as Hb.
  { intros a Ha. by apply bool_decide_ext, Hsame. }
  split; cbn [sn_Tally sn_Votes sn_Signers with_tally with_votes].
  - intros a. unfold tally_for. destruct (decide (a = coinbase)) as [->|Ha].
    + by rewrite lookup_delete_eq, votes_on_none.
    + rewrite lookup_delete_ne, HT, Hb by done. unfold tally_for. by rewrite votes_on_filter by congruence.
  - apply Forall_forall. intros v [Ha Hv]%list_elem_of_filter. rewrite Forall_forall in HF. destruct (HF v Hv) as [_ H].
    split; [by apply Hvoter|]. by rewrite Hb.
  - by apply NoDup_map_filter.
Qed.

Lemma pass_vote_ok number coinbase tally s : votes_ok s -> sn_Tally s !! coinbase = Some tally ->
  votes_ok (pass_vote number coinbase tally s) /\
  sn_Signers (pass_vote number coinbase tally s) =
    (if t_Authorize tally then {[coinbase]} ∪ sn_Signers s else sn_Signers s ∖ {[coinbase]}).
Proof.
  intros [HT HF HN] Ht. unfold pass_vote. destruct (t_Authorize tally).
  - split; [|done]. apply (settle_votes_ok (with_signers s _) (sn_Signers s)); cbn [sn_Tally sn_Votes sn_Signers with_signers]; try done.
    + intros a Ha. rewrite elem_of_union, elem_of_singleton. tauto.
    + intros v Hv. rewrite Forall_forall in HF. destruct (HF v Hv) as [Hin _]. apply elem_of_union. by right.
  - set (s1 := shift_recents number (with_signers s (sn_Signers s ∖ {[coinbase]}))).
    assert (sn_Tally s1 = sn_Tally s /\ sn_Votes s1 = sn_Votes s /\ sn_Signers s1 = sn_Signers s ∖ {[coinbase]}) as (E1 & E2 & E3).
    { unfold s1, shift_recents. by destruct (_ <=? _). }
    destruct (drop_votes_of_ok coinbase (sn_Signers s) (sn_Votes s1) [] s1) as (t & E & Ht'); [by rewrite E2|by rewrite E1, E2|].
    rewrite E, E2 in *. cbn [app] in *. split; [|exact E3].
    apply (settle_votes_ok (with_votes (with_tally s1 t) (filter (fun v => v_Signer v <> coinbase) (sn_Votes s))) (sn_Signers s)); cbn [sn_Tally sn_Votes sn_Signers with_votes with_tally]; [exact Ht'|..].
    + apply Forall_forall. intros v [_ Hv]%list_elem_of_filter. by apply (proj1 (Forall_forall _ _) HF).
    + by apply NoDup_map_filter.
    + intros a Ha. rewrite E3, elem_of_difference, elem_of_singleton. tauto.
    + intros v [Hv1 Hv2]%list_elem_of_filter. rewrite Forall_forall in HF. destruct (HF v Hv2) as [Hin _].
      by rewrite E3, elem_of_difference, elem_of_singleton.
Qed.

(** The snapshot with a counted vote added. *)
Definition cast_vote (number : Z) (signer coinbase : Address) (authorize : bool) (s : Snapshot) : Snapshot :=
  let '(ok, s) := cast s coinbase authorize in
  if ok then with_votes s (sn_Votes s ++ [mkVote signer number coinbase authorize]) else s.

Lemma validVote_eq s a authorize : validVote s a authorize = true <-> authorize = negb (bool_decide (a ∈ sn_Signers s)).
Proof. unfold validVote. destruct (bool_decide _), authorize; cbn; split; congruence. Qed.

Lemma cast_vote_ok number signer coinbase authorize s : votes_ok s -> signer ∈ sn_Signers s ->
  no_ballot signer coinbase (sn_Votes s) ->
  let s' := cast_vote number signer coinbase authorize s in
  votes_ok s' /\ same_rest s s' /\
  (s' = s \/ sn_Votes s' = sn_Votes s ++ [mkVote signer number coinbase (negb (bool_decide (coinbase ∈ sn_Signers s)))]).
Proof.
  intros [HT HF HN] Hs Hno s'. unfold s', cast_vote, cast.
  destruct (validVote s coinbase authorize) eqn:Hvalid; cbn [negb]; [|by repeat split; auto].
  apply validVote_eq in Hvalid. set (v := mkVote signer number coinbase authorize).
  assert (exists tally, (match sn_Tally s !! coinbase with
     | Some old => (true, with_tally s (<[coinbase:=mkTally (t_Authorize old) (t_Votes old + 1)]> (sn_Tally s)))
     | None => (true, with_tally s (<[coinbase:=mkTally authorize 1]> (sn_Tally s))) end) = (true, with_tally s tally) /\
     forall a, tally !! a = tally_for (sn_Signers s) (sn_Votes s ++ [v]) a) as (tally & -> & HT').
  { set (n := zlen (votes_on coinbase (sn_Votes s))). assert (0 <= n) by apply zlen_nonneg.
    pose proof (count_remove coinbase v (sn_Votes s) []) as Hc. rewrite app_nil_r, decide_True in Hc by done. fold n in Hc.
    pose proof (HT coinbase) as Hcb. unfold tally_for in Hcb. fold n in Hcb.
    assert (forall t a, t = mkTally authorize (n + 1) -> <[coinbase:=t]> (sn_Tally s) !! a = tally_for (sn_Signers s) (sn_Votes s ++ [v]) a) as Hgo.
    { intros t a ->. unfold tally_for. destruct (decide (a = coinbase)) as [->|Hne].
      - rewrite lookup_insert_eq, Hc. destruct (Z.eqb_spec (n + 1) 0); [lia|]. by rewrite <- Hvalid.
      - rewrite lookup_insert_ne, HT by done. unfold tally_for. pose proof (count_remove a v (sn_Votes s) []) as Hd.
        rewrite app_nil_r, decide_False in Hd by (cbn; congruence). by rewrite Hd, Z.add_0_r. }
    rewrite Hcb. destruct (Z.eqb_spec n 0) as [E|E]; (eexists; split; [reflexivity|]); intros a; apply Hgo; [by rewrite E|].
    cbn. by rewrite <- Hvalid. }
  split; [|split; [done|right; cbn; unfold v; by rewrite Hvalid]].
  split; [exact HT'| |]; cbn [sn_Signers sn_Votes with_votes with_tally].
  - apply Forall_app. split; [done|]. constructor; [by split|done].
  - rewrite map_app. apply NoDup_app. split; [done|]. split; [|apply NoDup_singleton].
    intros x Hx ->%list_elem_of_singleton. by apply Hno.
Qed.

(** ** Recent signers *)

(** After block [number] the recent entries lie in the window of the current signer
    set, and no signer has two. *)
Record recents_ok (number : Z) (s : Snapshot) : Prop := {
  ro_window : forall k a, sn_Recents s !! k = Some a -> 0 <= k /\ number - limit s < k <= number;
  ro_once : forall k k' a, sn_Recents s !! k = Some a -> sn_Recents s !! k' = Some a -> k = k'
}.

Lemma limit_pos s : 1 <= limit s.
Proof. unfold limit. pose proof (Z.div_pos (Z.of_nat (size (sn_Signers s))) 2). lia. Qed.

Lemma is_recent_spec recents signer : is_recent recents signer = true <-> exists k, recents !! k = Some signer.
Proof.
  unfold is_recent. rewrite existsb_exists. split.
  - intros ([k a] & Hin & E%Z.eqb_eq). cbn in E. subst. exists k. by apply elem_of_map_to_list, list_elem_of_In.
  - intros [k Hk]. exists (k, signer). split; [by apply list_elem_of_In, elem_of_map_to_list|]. apply Z.eqb_refl.
Qed.

(** The shift before block [number + 1]. *)
Lemma shift_recents_ok number s : recents_ok number s ->
  let s' := shift_recents (number + 1) s in
  (forall k a, sn_Recents s' !! k = Some a -> sn_Recents s !! k = Some a /\ 0 <= k /\ number + 1 - limit s < k <= number) /\
  (forall k a, sn_Recents s !! k = Some a -> k <> number + 1 - limit s -> sn_Recents s' !! k = Some a).
Proof.
  intros [Hw _] s'. unfold s', shift_recents. destruct (Z.leb_spec (limit s) (number + 1)) as [Hl|Hl]; cbn [sn_Recents with_recents].
  - split; [|intros k a Hk Hne; by rewrite lookup_delete_ne].
    intros k a [Hne Hk]%lookup_delete_Some. pose proof (Hw k a Hk). split; [done|lia].
  - split; [|done]. intros k a Hk. pose proof (Hw k a Hk). split; [done|lia].
Qed.

Lemma limit_change coinbase s : limit (with_signers s ({[coinbase]} ∪ sn_Signers s)) >= limit s /\
  limit s - 1 <= limit (with_signers s (sn_Signers s ∖ {[coinbase]})) <= limit s.
Proof.
  unfold limit. cbn [sn_Signers with_signers].
  assert (size (sn_Signers s) <= size ({[coinbase]} ∪ sn_Signers s))%nat by (apply subseteq_size, union_subseteq_r).
  assert (size (sn_Signers s ∖ {[coinbase]}) <= size (sn_Signers s))%nat by apply subseteq_size, subseteq_difference_l, reflexivity.
  assert (size (sn_Signers s) <= size (sn_Signers s ∖ {[coinbase]}) + 1)%nat.
  { transitivity (size ({[coinbase]} ∪ (sn_Signers s ∖ {[coinbase]}))).
    - apply subseteq_size. intros x Hx. rewrite elem_of_union, elem_of_difference, elem_of_singleton.
      destruct (decide (x = coinbase)); [by left|by right].
    - rewrite size_union_alt, size_singleton. pose proof (subseteq_size ((sn_Signers s ∖ {[coinbase]}) ∖ {[coinbase]}) (sn_Signers s ∖ {[coinbase]})
        ltac:(apply subseteq_difference_l, reflexivity)). lia. }
  split; [apply Z.le_ge, Z.add_le_mono_r, Z.div_le_mono; lia|]. split.
  - assert (Z.of_nat (size (sn_Signers s)) / 2 <= (Z.of_nat (size (sn_Signers s ∖ {[coinbase]})) + 1 * 2) / 2) as Hd by (apply Z.div_le_mono; lia).
    rewrite Z.div_add in Hd by lia. lia.
  - apply Z.add_le_mono_r, Z.div_le_mono; lia.
Qed.

Lemma uncast_rest s a b : same_rest s (snd (uncast s a b)).
Proof. unfold uncast. repeat case_match; done. Qed.

Lemma drop_votes_of_rest signer votes : forall before s, same_rest s (drop_votes_of signer before votes s).
Proof.
  induction votes as [|v votes IH]; intros before s; cbn [drop_votes_of]; [done|]. destruct (_ =? _); [|apply IH].
  destruct (IH before (snd (uncast s (v_Address v) (v_Authorize v)))) as (H1 & H2 & H3 & H4).
  destruct (uncast_rest s (v_Address v) (v_Authorize v)) as (G1 & G2 & G3 & G4). unfold same_rest. rewrite H1, H2, H3, H4. done.
Qed.

Lemma recents_ok_limit number s s' : recents_ok number s -> sn_Recents s' = sn_Recents s -> limit s <= limit s' -> recents_ok number s'.
Proof. intros [H1 H2] E Hl. split; rewrite E; [|done]. intros k a Hk. pose proof (H1 k a Hk). lia. Qed.

Lemma pass_vote_recents number coinbase tally s : recents_ok number s -> recents_ok number (pass_vote number coinbase tally s).
Proof.
  intros Hok. unfold pass_vote. pose proof (limit_change coinbase s) as [Hadd Hdel]. destruct (t_Authorize tally).
  { apply (recents_ok_limit number s); [done|done|]. unfold limit in *. cbn [sn_Signers with_tally with_votes with_signers] in *. lia. }
  set (s1 := with_signers s (sn_Signers s ∖ {[coinbase]})) in *. set (s2 := shift_recents number s1).
  assert (sn_Signers s2 = sn_Signers s1) as Esig by (unfold s2, shift_recents; by destruct (_ <=? _)).
  assert (recents_ok number s2) as H2.
  { destruct Hok as [Hw Ho]. assert (forall k a, sn_Recents s2 !! k = Some a -> sn_Recents s !! k = Some a /\ k <> number - limit s1) as Hsub.
    { intros k a. unfold s2, shift_recents. destruct (Z.leb_spec (limit s1) number) as [Hl|Hl].
      - cbn [sn_Recents with_recents]. intros [Hne Hk]%lookup_delete_Some. by split; [|congruence].
      - intros Hk. split; [exact Hk|]. pose proof (Hw k a Hk). lia. }
    split.
    - intros k a Hk. destruct (Hsub k a Hk) as [Hk' Hne]. pose proof (Hw k a Hk'). unfold limit in *. rewrite Esig. lia.
    - intros k k' a Hk Hk'. apply (Ho k k' a); by apply Hsub. }
  destruct (drop_votes_of_rest coinbase (sn_Votes s2) [] s2) as (_ & _ & E3 & E4).
  apply (recents_ok_limit number s2); [done|exact E4|]. unfold limit. cbn [sn_Signers with_tally with_votes]. by rewrite E3.
Qed.

(** ** One header *)

Definition reset (config : CliqueConfig) (number : Z) (s : Snapshot) : Snapshot :=
  if number mod Epoch config =? 0 then with_tally (with_votes s []) ∅ else s.

Definition vote_nonce (nonce : BlockNonce) : option bool :=
  if bool_decide (nonce = nonceAuthVote) then Some true else if bool_decide (nonce = nonceDropVote) then Some false else None.

(** What an accepted header does to the shifted snapshot. *)
Definition count_vote (number : Z) (signer coinbase : Address) (authorize : bool) (s : Snapshot) : Snapshot :=
  let s := with_recents s (<[number := signer]> (sn_Recents s)) in
  let s := drop_vote signer coinbase [] (sn_Votes s) s in
  let s := cast_vote number signer coinbase authorize s in
  match sn_Tally s !! coinbase with
  | Some tally => if Z.of_nat (size (sn_Signers s)) / 2 <? t_Votes tally then pass_vote number coinbase tally s else s
  | None => s
  end.

(** More than half of the signers stand behind a change of [a]'s membership, each by a
    live vote or by signing the current header. *)
Definition majority (s : Snapshot) (signer a : Address) : Prop :=
  exists voters, NoDup voters /\ Z.of_nat (size (sn_Signers s)) < 2 * zlen voters /\
    forall w, w ∈ voters -> w ∈ sn_Signers s /\
      (w = signer \/ exists v, v ∈ sn_Votes s /\ v_Signer v = w /\ v_Address v = a /\
        v_Authorize v = negb (bool_decide (a ∈ sn_Signers s))).

Definition toggle (a : Address) (signers : gset Address) : gset Address :=
  if bool_decide (a ∈ signers) then signers ∖ {[a]} else {[a]} ∪ signers.

Lemma voters_of a votes : NoDup (map ballot votes) -> NoDup (map v_Signer (votes_on a votes)).
Proof.
  intros HN. assert (NoDup (map ballot (votes_on a votes))) as H by by apply NoDup_map_filter.
  replace (map v_Signer (votes_on a votes)) with (map fst (map ballot (votes_on a votes))) by (rewrite map_map; by apply map_ext).
  apply NoDup_fmap_2_strong; [|done]. intros [x1 x2] [y1 y2] Hx Hy E. cbn in E. subst.
  apply list_elem_of_In, in_map_iff in Hx as (v & Ev & [Ha _]%list_elem_of_In%list_elem_of_filter).
  apply list_elem_of_In, in_map_iff in Hy as (w & Ew & [Hb _]%list_elem_of_In%list_elem_of_filter).
  unfold ballot in *. congruence.
Qed.

Lemma tally_majority s s3 signer coinbase tally : votes_ok s3 -> sn_Signers s3 = sn_Signers s ->
  sn_Tally s3 !! coinbase = Some tally -> Z.of_nat (size (sn_Signers s)) / 2 < t_Votes tally ->
  (forall v, v ∈ sn_Votes s3 -> v_Signer v = signer \/ v ∈ sn_Votes s) ->
  majority s signer coinbase /\ t_Authorize tally = negb (bool_decide (coinbase ∈ sn_Signers s)).
Proof.
  intros [HT HF HN] Es Ht Hmaj Hvotes. rewrite HT in Ht. unfold tally_for in Ht. rewrite Es in *.
  destruct (Z.eqb_spec (zlen (votes_on coinbase (sn_Votes s3))) 0); [done|]. injection Ht as <-. cbn [t_Votes t_Authorize] in *. split; [|done].
  exists (map v_Signer (votes_on coinbase (sn_Votes s3))). split; [by apply voters_of|]. split.
  - unfold zlen in *. rewrite length_map. pose proof (Z.mod_pos_bound (Z.of_nat (size (sn_Signers s))) 2).
    pose proof (Z_div_mod_eq_full (Z.of_nat (size (sn_Signers s))) 2). lia.
  - intros w (v & <- & [Ha Hin]%list_elem_of_In%list_elem_of_filter)%list_elem_of_In%in_map_iff.
    rewrite Forall_forall in HF. destruct (HF v Hin) as [Hin' Hauth]. split; [done|].
    destruct (Hvotes v Hin) as [E|E]; [by left|right]. exists v. by rewrite Ha in Hauth.
Qed.

Lemma count_vote_ok number signer coinbase authorize s : 0 <= number -> votes_ok s -> signer ∈ sn_Signers s ->
  recents_ok (number - 1) s -> (forall k a, sn_Recents s !! k = Some a -> number - limit s < k) ->
  is_recent (sn_Recents s) signer = false ->
  let s' := count_vote number signer coinbase authorize s in
  votes_ok s' /\ recents_ok number s' /\
  (sn_Signers s' = sn_Signers s \/ (majority s signer coinbase /\ sn_Signers s' = toggle coinbase (sn_Signers s))).
Proof.
  intros Hn Hv Hs [Hw Ho] Hw' Hnot s'. set (s1 := with_recents s (<[number := signer]> (sn_Recents s))).
  assert (recents_ok number s1) as Hr1.
  { split; cbn [sn_Recents s1 with_recents].
    - pose proof (limit_pos s). intros k a [[<- <-]|[Hne Hk]]%lookup_insert_Some; [unfold limit in *; cbn; lia|].
      pose proof (Hw k a Hk). pose proof (Hw' k a Hk). unfold limit in *. cbn [sn_Signers with_recents s1]. lia.
    - assert (forall k, sn_Recents s !! k = Some signer -> False) as Hno.
      { intros k Hk. rewrite (proj2 (is_recent_spec _ _)) in Hnot; [done|by exists k]. }
      intros k k' a [[<- <-]|[Hne Hk]]%lookup_insert_Some [[<- E]|[Hne' Hk']]%lookup_insert_Some; subst;
        [done|by exfalso; eapply Hno|by exfalso; eapply Hno|by eapply Ho]. }
  assert (votes_ok s1) as Hv1 by (by destruct Hv). destruct (drop_vote_ok signer coinbase s1 Hv1) as (Hv2 & Hrest2 & Hno2 & Hsub).
  set (s2 := drop_vote signer coinbase [] (sn_Votes s1) s1) in *. destruct Hrest2 as (_ & _ & Es2 & Er2).
  destruct (cast_vote_ok number signer coinbase authorize s2 Hv2 ltac:(by rewrite Es2) Hno2) as (Hv3 & (_ & _ & Es3 & Er3) & Hvotes).
  set (s3 := cast_vote number signer coinbase authorize s2) in *.
  assert (recents_ok number s3) as Hr3 by (apply (recents_ok_limit number s1); [done|congruence|unfold limit; by rewrite Es3, Es2]).
  assert (s' = match sn_Tally s3 !! coinbase with
    | Some tally => if Z.of_nat (size (sn_Signers s3)) / 2 <? t_Votes tally then pass_vote number coinbase tally s3 else s3
    | None => s3 end) as -> by done.
  assert (sn_Signers s3 = sn_Signers s) as Es by (rewrite Es3, Es2; done).
  destruct (sn_Tally s3 !! coinbase) as [tally|] eqn:Ht; [|split; [done|]; split; [done|by left]].
  destruct (Z.ltb_spec (Z.of_nat (size (sn_Signers s3)) / 2) (t_Votes tally)) as [Hmaj|]; [|split; [done|]; split; [done|by left]].
  destruct (pass_vote_ok number coinbase tally s3 Hv3 Ht) as [Hv4 Esig]. split; [done|]. split; [by apply pass_vote_recents|]. right.
  rewrite Es in Hmaj, Esig. destruct (tally_majority s s3 signer coinbase tally Hv3 Es Ht Hmaj) as [Hm Hauth].
  { intros v Hv'. destruct Hvotes as [E|E]; [right; apply Hsub; by rewrite <- E|]. rewrite E in Hv'.
    apply elem_of_app in Hv' as [Hin| ->%list_elem_of_singleton]; [right; by apply Hsub|by left]. }
  split; [done|]. rewrite Hauth in Esig. rewrite Esig. unfold toggle. destruct (bool_decide (coinbase ∈ sn_Signers s)); reflexivity.
Qed.

Section apply.
Context (cr : Crypto) (config : CliqueConfig).

Lemma apply_header_eq s h : let number := u64 (h_Number h) in let s1 := shift_recents number (reset config number s) in
  apply_header cr config s h =
    match recover_signer cr h with
    | Err e => Err e
    | Good signer =>
        if negb (bool_decide (signer ∈ sn_Signers s)) then Err errUnauthorizedSigner
        else if is_recent (sn_Recents s1) signer then Err errRecentlySigned
        else match vote_nonce (h_Nonce h) with
             | None => Err errInvalidVote
             | Some authorize => Good (count_vote number signer (h_Coinbase h) authorize s1)
             end
    end.
Proof.
  intros number s1. unfold apply_header. fold number. fold (reset config number s). fold s1.
  destruct (recover_signer cr h) as [signer|e]; [|done].
  replace (sn_Signers s1) with (sn_Signers s) by (unfold s1, shift_recents, reset; by repeat case_match).
  destruct (negb _); [done|]. destruct (is_recent _ _); [done|]. fold (vote_nonce (h_Nonce h)).
  destruct (vote_nonce (h_Nonce h)) as [authorize|]; [|done]. unfold count_vote, cast_vote.
  destruct (cast _ _ _) as [ok s2]. destruct ok; by repeat case_match.
Qed.
Lemma drop_vote_rest signer a votes : forall before s, same_rest s (drop_vote signer a before votes s).
Proof.
  induction votes as [|v votes IH]; intros before s; cbn [drop_vote]; [done|]. destruct (_ && _); [|apply IH].
  apply (uncast_rest s (v_Address v) (v_Authorize v)).
Qed.

Lemma cast_vote_rest number signer a authorize s : same_rest s (cast_vote number signer a authorize s).
Proof. unfold cast_vote, cast. repeat case_match; simplify_eq; done. Qed.

Lemma shift_recents_rest number s : sn_Number (shift_recents number s) = sn_Number s /\ sn_Hash (shift_recents number s) = sn_Hash s /\
  sn_Signers (shift_recents number s) = sn_Signers s /\ sn_Votes (shift_recents number s) = sn_Votes s /\
  sn_Tally (shift_recents number s) = sn_Tally s.
Proof. unfold shift_recents. by destruct (_ <=? _). Qed.

Lemma pass_vote_id number a tally s :
  sn_Number (pass_vote number a tally s) = sn_Number s /\ sn_Hash (pass_vote number a tally s) = sn_Hash s.
Proof.
  unfold pass_vote. destruct (t_Authorize tally); [done|]. set (s1 := shift_recents number _).
  destruct (drop_votes_of_rest a (sn_Votes s1) [] s1) as (H1 & H2 & _). cbn [sn_Number sn_Hash with_tally with_votes]. rewrite H1, H2.
  unfold s1. by rewrite !(proj1 (shift_recents_rest _ _)), !(proj1 (proj2 (shift_recents_rest _ _))).
Qed.

Lemma count_vote_id number signer a authorize s :
  sn_Number (count_vote number signer a authorize s) = sn_Number s /\ sn_Hash (count_vote number signer a authorize s) = sn_Hash s.
Proof.
  unfold count_vote. set (s1 := with_recents s _). destruct (drop_vote_rest signer a (sn_Votes s1) [] s1) as (H1 & H2 & _).
  set (s2 := drop_vote _ _ _ _ _) in *. destruct (cast_vote_rest number signer a authorize s2) as (G1 & G2 & _).
  set (s3 := cast_vote _ _ _ _ _) in *. repeat case_match; rewrite ?(proj1 (pass_vote_id _ _ _ _)), ?(proj2 (pass_vote_id _ _ _ _)), G1, G2, H1, H2; done.
Qed.

Lemma reset_ok number s : votes_ok s -> votes_ok (reset config number s) /\ same_rest s (reset config number s) /\
  sn_Votes (reset config number s) ⊆ sn_Votes s.
Proof.
  intros H. unfold reset. destruct (_ =? 0); [|done]. split; [|split; [done|]].
  - split; [|by constructor|constructor]. intros a. cbn [sn_Tally with_tally]. by rewrite lookup_empty.
  - intros v Hv. by apply elem_of_nil in Hv.
Qed.

(** What holds of a snapshot after block [number]. *)
Definition snap_ok (number : Z) (s : Snapshot) : Prop := votes_ok s /\ recents_ok number s.

Lemma apply_header_ok n s h s' : 0 <= n -> u64 (h_Number h) = n + 1 -> snap_ok n s -> apply_header cr config s h = Good s' ->
  snap_ok (n + 1) s' /\ sn_Number s' = sn_Number s /\ sn_Hash s' = sn_Hash s /\
  exists signer, recover_signer cr h = Good signer /\ signer ∈ sn_Signers s /\
    (sn_Signers s' = sn_Signers s \/ (majority s signer (h_Coinbase h) /\ sn_Signers s' = toggle (h_Coinbase h) (sn_Signers s))).
Proof.
  intros Hn Hnum [Hv Hr] E. rewrite apply_header_eq, Hnum in E. cbn zeta in E. destruct (recover_signer cr h) as [signer|] eqn:Erec; [|done].
  case_bool_decide as Hs; [|done]. cbn [negb] in E. destruct (is_recent _ _) eqn:Hrec; [done|].
  destruct (vote_nonce _) as [authorize|]; [|done]. injection E as <-.
  destruct (reset_ok (n + 1) s Hv) as (Hv1 & (E1 & E2 & E3 & E4) & Hsub). set (s1 := reset config (n + 1) s) in *.
  assert (recents_ok n s1) as Hr1 by (apply (recents_ok_limit n s); [done|done|unfold limit; by rewrite E3]).
  destruct (shift_recents_ok n s1 Hr1) as [Hin _]. destruct (shift_recents_rest (n + 1) s1) as (F1 & F2 & F3 & F4 & F5).
  set (s2 := shift_recents (n + 1) s1) in *. assert (limit s2 = limit s1) as El by (unfold limit; by rewrite F3).
  destruct (count_vote_ok (n + 1) signer (h_Coinbase h) authorize s2) as (Hv' & Hr' & Hm); [lia| |by rewrite F3, E3| | |done|].
  { destruct Hv1 as [H1 H2 H3]. by split; rewrite ?F3, ?F4, ?F5. }
  { split; [|intros k k' a Hk Hk'; apply (ro_once n s1 Hr1 k k' a); by apply Hin]. intros k a Hk. destruct (Hin k a Hk) as [_ H]. lia. }
  { intros k a Hk. destruct (Hin k a Hk) as [_ H]. lia. }
  destruct (count_vote_id (n + 1) signer (h_Coinbase h) authorize s2) as [-> ->]. split; [done|]. split; [congruence|]. split; [congruence|].
  exists signer. split; [done|]. split; [done|]. rewrite F3, E3 in Hm. destruct Hm as [Hm|[(vs & V1 & V2 & V3) Hm]]; [by left|right].
  split; [|done]. exists vs. rewrite F3, E3 in *. split; [done|]. split; [done|]. intros w Hw. destruct (V3 w Hw) as [W1 [W2|(v & W2 & W3)]]; split; auto.
  right. exists v. split; [apply Hsub; by rewrite <- F4|done].
Qed.

(** ** Many headers *)

Lemma u64_id z : 0 <= z < 2 ^ 64 -> u64 z = z.
Proof. intros H. unfold u64. by apply Z.mod_small. Qed.

Lemma contiguous_cons h1 h2 hs : contiguous (h1 :: h2 :: hs) = true <->
  u64 (h_Number h2) = u64 (u64 (h_Number h1) + 1) /\ contiguous (h2 :: hs) = true.
Proof. cbn [contiguous]. rewrite andb_true_iff, Z.eqb_eq. done. Qed.

(** The snapshot the loop has after [pre], while the rest is still to come. *)
Lemma apply_loop_split hs : forall n s s', 0 <= n -> n + zlen hs < 2 ^ 64 -> snap_ok n s ->
  match hs with [] => True | h :: _ => u64 (h_Number h) = n + 1 end -> contiguous hs = true ->
  apply_loop cr config s hs = Good s' ->
  snap_ok (n + zlen hs) s' /\ sn_Number s' = sn_Number s /\ sn_Hash s' = sn_Hash s /\
  forall a, ~ (a ∈ sn_Signers s <-> a ∈ sn_Signers s') ->
    exists pre h post s1 signer, hs = pre ++ h :: post /\ apply_loop cr config s pre = Good s1 /\ h_Coinbase h = a /\
      recover_signer cr h = Good signer /\ signer ∈ sn_Signers s1 /\ majority s1 signer a.
Proof.
  induction hs as [|h hs IH]; intros n s s' Hn Hmax Hok Hfirst Hc E; cbn [apply_loop] in E.
  { injection E as <-. rewrite Z.add_0_r. split; [done|]. split; [done|]. split; [done|]. tauto. }
  destruct (apply_header cr config s h) as [s1|] eqn:Eh; [|done].
  assert (zlen (h :: hs) = 1 + zlen hs) as Hlen by (unfold zlen; cbn [length]; lia).
  destruct (apply_header_ok n s h s1 Hn Hfirst Hok Eh) as (Hok1 & E1 & E2 & signer & Hrec & Hin & Hm).
  pose proof (zlen_nonneg hs). destruct (IH (n + 1) s1 s') as (Hok' & F1 & F2 & F3); [lia|lia|done| | |done|].
  { destruct hs as [|h2 hs]; [done|]. apply contiguous_cons in Hc as [-> _]. rewrite Hfirst. apply u64_id. unfold zlen in *. cbn [length] in *. lia. }
  { destruct hs as [|h2 hs]; [done|]. by apply contiguous_cons in Hc as [_ ?]. }
  split; [by replace (n + zlen (h :: hs)) with (n + 1 + zlen hs) by lia|]. split; [congruence|]. split; [congruence|]. intros a Ha.
  destruct (decide (bool_decide (a ∈ sn_Signers s) = bool_decide (a ∈ sn_Signers s1))) as [Hsame|Hdiff].
  - destruct (F3 a) as (pre & h' & post & s2 & signer' & -> & Epre & Hrest).
    { intros Hiff. apply Ha. rewrite <- Hiff. split; intros H1; apply (bool_decide_unpack _); [rewrite <- Hsame|rewrite Hsame]; by apply bool_decide_pack. }
    exists (h :: pre), h', post, s2, signer'. split; [done|]. cbn [apply_loop]. by rewrite Eh.
  - exists [], h, hs, s, signer. split; [done|]. split; [done|]. destruct Hm as [Hm|[Hm Hf]]; [by rewrite Hm in Hdiff|].
    assert (h_Coinbase h = a) as <-; [|done]. apply dec_stable. intros Hne. apply Hdiff, bool_decide_ext. rewrite Hf. unfold toggle.
    clear Hdiff. destruct (bool_decide (h_Coinbase h ∈ sn_Signers s)); [rewrite elem_of_difference|rewrite elem_of_union]; rewrite elem_of_singleton; intuition congruence.
Qed.

Lemma apply_loop_of s hs s' : Snapshot_apply cr config s hs = Good s' -> hs <> [] ->
  contiguous hs = true /\ match hs with [] => True | h :: _ => u64 (h_Number h) = u64 (sn_Number s + 1) end /\
  exists t, apply_loop cr config s hs = Good t /\ s' = mkSnapshot (u64 (sn_Number t + zlen hs)) (sn_Hash s') (sn_Signers t) (sn_Recents t) (sn_Votes t) (sn_Tally t) /\
    exists h, last hs = Some h /\ sn_Hash s' = Header_Hash cr h.
Proof.
  intros E Hne. destruct hs as [|h hs]; [done|]. unfold Snapshot_apply in E. destruct (contiguous (h :: hs)); [|done]. cbn [negb] in E.
  destruct (Z.eqb_spec (u64 (h_Number h)) (u64 (sn_Number s + 1))); [|done]. cbn [negb] in E. destruct (apply_loop _ _ _ _) as [t|]; [|done].
  injection E as <-. split; [done|]. split; [done|]. exists t. split; [done|]. split; [done|]. cbn [sn_Hash].
  destruct (last (h :: hs)) as [l|] eqn:El; [by exists l|]. by apply last_None in El.
Qed.

Lemma snap_ok_fields number s n h : snap_ok number s -> snap_ok number (mkSnapshot n h (sn_Signers s) (sn_Recents s) (sn_Votes s) (sn_Tally s)).
Proof. intros [[H1 H2 H3] [H4 H5]]. done. Qed.

Lemma apply_ok s hs s' : 0 <= sn_Number s -> sn_Number s + zlen hs < 2 ^ 64 -> snap_ok (sn_Number s) s ->
  Snapshot_apply cr config s hs = Good s' -> sn_Number s' = sn_Number s + zlen hs /\ snap_ok (sn_Number s') s'.
Proof.
  intros Hn Hmax Hok E.
  destruct (decide (hs = [])) as [->|Hne]; [injection E as <-; cbn; by rewrite Z.add_0_r|].
  destruct (apply_loop_of s hs s' E Hne) as (Hc & Hf & t & Et & Es & _). pose proof (zlen_nonneg hs).
  assert (1 <= zlen hs) by (destruct hs; [done|unfold zlen; cbn; lia]).
  destruct (apply_loop_split hs (sn_Number s) s t) as (Hok' & E1 & _); [done|done|done| |done|done|].
  { destruct hs; [done|]. rewrite Hf. apply u64_id. lia. }
  assert (sn_Number s' = sn_Number s + zlen hs) as En by (rewrite Es; cbn [sn_Number]; rewrite E1; apply u64_id; lia).
  split; [done|]. rewrite En, Es. by apply snap_ok_fields.
Qed.

(** C15. Applying headers keeps a snapshot's books: the tally counts exactly the live votes
    on each address, every live vote is a current signer's and would change the set, no
    signer votes twice on an address, and the recent signers lie in the window, once each. *)
Theorem apply_keeps_books s hs s' (Hn : 0 <= sn_Number s) (Hmax : sn_Number s + zlen hs < 2 ^ 64)
    (Hok : snap_ok (sn_Number s) s) (E : Snapshot_apply cr config s hs = Good s') :
  sn_Number s' = sn_Number s + zlen hs /\ snap_ok (sn_Number s') s'.
Proof. by apply apply_ok with (hs := hs). Qed.

(** C30. The signer set changes only by majority: if an address joins or leaves while headers
    are applied, one of them carries a vote on it after which more than half of the
    signers of that moment, each counted once, stand behind the change. *)
Theorem signers_change_by_majority s hs s' a (Hn : 0 <= sn_Number s) (Hmax : sn_Number s + zlen hs < 2 ^ 64)
    (Hok : snap_ok (sn_Number s) s) (E : Snapshot_apply cr config s hs = Good s') (Hchange : ~ (a ∈ sn_Signers s <-> a ∈ sn_Signers s')) :
  exists pre h post s1 signer, hs = pre ++ h :: post /\ apply_loop cr config s pre = Good s1 /\ h_Coinbase h = a /\
    recover_signer cr h = Good signer /\ signer ∈ sn_Signers s1 /\ majority s1 signer a.
Proof.
  destruct (decide (hs = [])) as [->|Hne]; [injection E as <-; tauto|].
  destruct (apply_loop_of s hs s' E Hne) as (Hc & Hf & t & Et & Es & _).
  assert (1 <= zlen hs) by (destruct hs; [done|unfold zlen; cbn; lia]).
  destruct (apply_loop_split hs (sn_Number s) s t) as (_ & _ & _ & Hm); [done|done|done| |done|done|].
  { destruct hs; [done|]. rewrite Hf. apply u64_id. lia. }
  apply Hm. by rewrite Es in Hchange.
Qed.

(** ** Who may sign next *)

Lemma apply_single s h : Snapshot_apply cr config s [h] =
  if negb (u64 (h_Number h) =? u64 (sn_Number s + 1)) then Err errInvalidVotingChain
  else match apply_header cr config s h with
       | Err e => Err e
       | Good t => Good (mkSnapshot (u64 (sn_Number t + 1)) (Header_Hash cr h) (sn_Signers t) (sn_Recents t) (sn_Votes t) (sn_Tally t))
       end.
Proof. cbn. by destruct (apply_header cr config s h). Qed.

(** The recent signers once block [number + 1] has shifted the window. *)
Definition blocked (s : Snapshot) (number : Z) : gset Address :=
  list_to_set (map snd (map_to_list (sn_Recents (shift_recents (number + 1) s)))).

Lemma blocked_spec s number a : a ∈ blocked s number <-> is_recent (sn_Recents (shift_recents (number + 1) s)) a = true.
Proof.
  unfold blocked. rewrite is_recent_spec, elem_of_list_to_set, list_elem_of_In, in_map_iff. split.
  - intros ([k b] & <- & Hin). exists k. by apply elem_of_map_to_list, list_elem_of_In.
  - intros [k Hk]. exists (k, a). split; [done|]. by apply list_elem_of_In, elem_of_map_to_list.
Qed.

Lemma size_list_to_set_le (l : list Z) : (size (list_to_set l : gset Z) <= length l)%nat.
Proof.
  induction l as [|x l IH]; [done|]. cbn [list_to_set length]. rewrite size_union_alt, size_singleton.
  pose proof (subseteq_size (list_to_set l ∖ {[x]}) (list_to_set l : gset Z) ltac:(apply subseteq_difference_l, reflexivity)). lia.
Qed.

Lemma blocked_few s number : recents_ok number s -> Z.of_nat (size (blocked s number)) <= limit s - 1.
Proof.
  intros Hok. destruct (shift_recents_ok number s Hok) as [Hin _]. set (m := sn_Recents (shift_recents (number + 1) s)) in *.
  assert (size (blocked s number) <= size m)%nat as H1.
  { unfold blocked. fold m. etransitivity; [apply size_list_to_set_le|]. by rewrite length_map, length_map_to_list. }
  assert (dom m ⊆ (list_to_set (seqZ (number + 2 - limit s) (limit s - 1)) : gset Z)) as H2.
  { intros k [a Hk]%elem_of_dom. apply elem_of_list_to_set, elem_of_seqZ. pose proof (Hin k a Hk). lia. }
  apply subseteq_size in H2. rewrite size_dom in H2.
  pose proof (size_list_to_set_le (seqZ (number + 2 - limit s) (limit s - 1))) as H3. rewrite length_seqZ in H3.
  pose proof (limit_pos s). lia.
Qed.

Lemma reset_recents number s : sn_Recents (shift_recents number (reset config number s)) = sn_Recents (shift_recents number s).
Proof. unfold reset, shift_recents, limit. destruct (_ =? 0); [|done]. cbn [sn_Signers with_tally with_votes]. by destruct (_ <=? _). Qed.

(** Which header can be applied. *)
Lemma apply_header_accepts s h : (exists s', apply_header cr config s h = Good s') <->
  exists signer, recover_signer cr h = Good signer /\ signer ∈ sn_Signers s /\
    is_recent (sn_Recents (shift_recents (u64 (h_Number h)) s)) signer = false /\ vote_nonce (h_Nonce h) <> None.
Proof.
  rewrite apply_header_eq. cbn zeta. rewrite reset_recents. destruct (recover_signer cr h) as [signer|e]; split.
  - intros [s' E]. exists signer. case_bool_decide as Hs; [|done]. cbn [negb] in E.
    destruct (is_recent _ _); [done|]. by destruct (vote_nonce _).
  - intros (x & [= <-] & Hs & Hr & Hv). rewrite bool_decide_true, Hr by done. cbn [negb]. destruct (vote_nonce _); [by eexists|done].
  - by intros [s' E].
  - by intros (x & E & _).
Qed.

(** C29. Proof of authority never gets stuck: while there is a signer, at least one of the
    signers may sign the next block, whatever the history of recent signatures. *)
Theorem some_signer_can_sign s (Hn : 0 <= sn_Number s) (Hmax : sn_Number s + 1 < 2 ^ 64) (Hok : snap_ok (sn_Number s) s)
    (Hne : sn_Signers s <> ∅) :
  exists signer, signer ∈ sn_Signers s /\
    forall h, u64 (h_Number h) = sn_Number s + 1 -> recover_signer cr h = Good signer -> vote_nonce (h_Nonce h) <> None ->
      exists s', Snapshot_apply cr config s [h] = Good s' /\ sn_Number s' = sn_Number s + 1.
Proof.
  destruct Hok as [Hv Hr]. pose proof (blocked_few s _ Hr) as Hb.
  assert (Z.of_nat (size (sn_Signers s)) / 2 < Z.of_nat (size (sn_Signers s))) as Hhalf.
  { apply Z.div_lt; [|lia]. assert (size (sn_Signers s) <> 0%nat); [|lia]. by intros ?%size_empty_inv%leibniz_equiv. }
  assert (exists signer, signer ∈ sn_Signers s /\ signer ∉ blocked s (sn_Number s)) as (signer & Hs & Hfree).
  { destruct (set_choose_or_empty (sn_Signers s ∖ blocked s (sn_Number s))) as [[x Hx]|He]; [exists x; by apply elem_of_difference|].
    exfalso. apply empty_difference_subseteq in He. apply subseteq_size in He. unfold limit in Hb. lia. }
  exists signer. split; [done|]. intros h Hnum Hrec Hnonce. rewrite apply_single, (u64_id (sn_Number s + 1)), Hnum, Z.eqb_refl by lia. cbn [negb].
  destruct (proj2 (apply_header_accepts s h)) as [t Et].
  { exists signer. split; [done|]. split; [done|]. split; [|done]. rewrite Hnum. apply not_true_iff_false. by rewrite <- blocked_spec. }
  rewrite Et. eexists. split; [reflexivity|]. destruct (apply_header_ok (sn_Number s) s h t Hn Hnum (conj Hv Hr) Et) as (_ & E1 & _).
  cbn [sn_Number]. rewrite E1. apply u64_id. lia.
Qed.

(** ** The seal check against the snapshot *)

Lemma signed_recently_spec s number signer : signed_recently s number signer = true <->
  exists k, sn_Recents s !! k = Some signer /\ u64 (number - limit s) < k.
Proof.
  unfold signed_recently. rewrite existsb_exists. split.
  - intros ([k a] & Hin & [E%Z.eqb_eq Hk%Z.ltb_lt]%andb_true_iff). cbn in *. subst. exists k. split; [|done]. by apply elem_of_map_to_list, list_elem_of_In.
  - intros (k & Hk & Hlt). exists (k, signer). split; [by apply list_elem_of_In, elem_of_map_to_list|]. cbn. rewrite Z.eqb_refl. by apply Z.ltb_lt.
Qed.

(** Past the first blocks, both checks for recent signers are the same. *)
Lemma recently_iff s number signer : recents_ok number s -> number + 1 < 2 ^ 64 ->
  (limit s <= number + 1 -> signed_recently s (number + 1) signer = is_recent (sn_Recents (shift_recents (number + 1) s)) signer) /\
  (number + 1 < limit s -> 0 <= number -> signed_recently s (number + 1) signer = true ->
    is_recent (sn_Recents (shift_recents (number + 1) s)) signer = true).
Proof.
  intros Hr Hmax. destruct (shift_recents_ok number s Hr) as [Hin Hkeep]. pose proof (limit_pos s).
  assert (forall k, sn_Recents s !! k = Some signer -> number + 1 - limit s < k -> exists k, sn_Recents (shift_recents (number + 1) s) !! k = Some signer) as Hto.
  { intros k Hk Hlt. exists k. apply Hkeep; [done|lia]. }
  split.
  - intros Hl. apply eq_iff_eq_true. rewrite signed_recently_spec, is_recent_spec, u64_id by lia. split; [intros (k & ? & ?); by apply (Hto k)|].
    intros [k Hk]. destruct (Hin k signer Hk) as (H1 & H2 & H3). exists k. split; [done|lia].
  - intros Hl Hn (k & Hk & Hlt)%signed_recently_spec. apply is_recent_spec. apply (Hto k Hk). pose proof (ro_window _ _ Hr k signer Hk). lia.
Qed.

(** The seal check and the snapshot agree: past the first blocks, a header whose seal
    is accepted on a snapshot can be applied to it; and a header that can be applied
    fails the seal check at most for its difficulty. *)
Theorem seal_check_agrees c s h (Hc : cl_config c = config) (Hn : 0 <= sn_Number s) (Hmax : sn_Number s + 1 < 2 ^ 64)
    (Hok : snap_ok (sn_Number s) s) (Hnum : u64 (h_Number h) = sn_Number s + 1) :
  (limit s <= sn_Number s + 1 -> vote_nonce (h_Nonce h) <> None -> check_seal cr c s h = Ok None ->
    exists s', Snapshot_apply cr config s [h] = Good s') /\
  (forall s', Snapshot_apply cr config s [h] = Good s' ->
    check_seal cr c s h = Ok None \/ check_seal cr c s h = Ok (Some errWrongDifficulty)).
Proof.
  destruct Hok as [Hv Hr]. rewrite apply_single, (u64_id (sn_Number s + 1)), Hnum, Z.eqb_refl by lia. cbn [negb].
  pose proof (apply_header_accepts s h) as Hacc. rewrite Hnum in Hacc. unfold check_seal. rewrite Hnum. split.
  - intros Hl Hnonce E. destruct (recover_signer cr h) as [signer|] eqn:Hrec; [|done]. case_bool_decide as Hs; [|done]. cbn [negb] in E.
    destruct (signed_recently _ _ _) eqn:Hsr; [done|]. rewrite (proj1 (recently_iff s (sn_Number s) signer Hr Hmax) Hl) in Hsr.
    destruct (proj2 Hacc) as [t ->]; [by exists signer|]. by eexists.
  - intros s' E. destruct (apply_header cr config s h) as [t|] eqn:Et; [|done].
    destruct (proj1 Hacc) as (signer & -> & Hs & Hnr & _); [by exists t|]. rewrite bool_decide_true by done. cbn [negb].
    assert (signed_recently s (sn_Number s + 1) signer = false) as ->.
    { apply not_true_iff_false. intros Hsr. destruct (recently_iff s (sn_Number s) signer Hr Hmax) as [H1 H2].
      destruct (Z.le_gt_cases (limit s) (sn_Number s + 1)) as [Hl|Hl]; [rewrite H1 in Hsr by done|apply H2 in Hsr; [|lia|lia]]; congruence. }
    destruct (cl_fakeDiff c); [by left|]. cbn [negb]. unfold inturn. destruct (Z.eqb_spec (zlen (signers s)) 0) as [E0|E0].
    { exfalso. assert (signer ∈ signers s) as Hin by (unfold signers; by rewrite merge_sort_Permutation, elem_of_elements).
      destruct (signers s); [by apply elem_of_nil in Hin|unfold zlen in E0; cbn in E0; lia]. }
    cbn [obind]. repeat case_match; auto.
Qed.

(** ** Turns *)

Lemma signers_spec s a : a ∈ signers s <-> a ∈ sn_Signers s.
Proof. unfold signers. by rewrite merge_sort_Permutation, elem_of_elements. Qed.

Lemma signers_NoDup s : NoDup (signers s).
Proof. unfold signers. rewrite merge_sort_Permutation. apply NoDup_elements. Qed.

Lemma offset_of_bounds a l : 0 <= offset_of a l <= zlen l.
Proof. induction l as [|b l IH]; cbn [offset_of]; unfold zlen in *; cbn [length]; [lia|]. destruct (b =? a); lia. Qed.

Lemma offset_of_lookup a l i : 0 <= i < zlen l -> NoDup l -> (i = offset_of a l <-> l !! Z.to_nat i = Some a).
Proof.
  revert i. induction l as [|b l IH]; intros i Hi HN; cbn [offset_of]; [unfold zlen in Hi; cbn in Hi; lia|].
  apply NoDup_cons in HN as [Hb HN]. unfold zlen in *. cbn [length] in Hi. destruct (Z.eqb_spec b a) as [->|Hne].
  - split; [intros ->; done|]. intros Hl. destruct (decide (i = 0)) as [|Hi0]; [done|].
    replace (Z.to_nat i) with (S (Z.to_nat (i - 1))) in Hl by lia. cbn in Hl. apply list_elem_of_lookup_2 in Hl. done.
  - destruct (decide (i = 0)) as [->|Hi0]; [cbn [lookup list_lookup Z.to_nat]; split; [|by intros [= ->]]; pose proof (offset_of_bounds a l); lia|].
    replace (Z.to_nat i) with (S (Z.to_nat (i - 1))) by lia. cbn [lookup list_lookup]. rewrite <- IH by (done || lia). lia.
Qed.

(** Every block has exactly one signer in turn, and the turns go round: each signer is in
    turn once in any run of as many blocks as there are signers. *)
Theorem one_signer_in_turn s (Hne : sn_Signers s <> ∅) :
  (forall number, exists a, a ∈ sn_Signers s /\ forall b, inturn s number b = Ok (bool_decide (b = a))) /\
  (forall a number, a ∈ sn_Signers s -> exists k, 0 <= k < zlen (signers s) /\ inturn s (number + k) a = Ok true /\
    forall j, 0 <= j < zlen (signers s) -> inturn s (number + j) a = Ok true -> j = k).
Proof.
  assert (0 < zlen (signers s)) as Hl.
  { destruct (set_choose_or_empty (sn_Signers s)) as [[x Hx]|He]; [|by apply leibniz_equiv in He].
    apply signers_spec in Hx. destruct (signers s); [by apply elem_of_nil in Hx|unfold zlen; cbn; lia]. }
  pose proof (signers_NoDup s) as HN. unfold inturn. destruct (Z.eqb_spec (zlen (signers s)) 0); [lia|]. split.
  - intros number. pose proof (Z.mod_pos_bound number (zlen (signers s)) Hl) as Hm.
    destruct (lookup_lt_is_Some_2 (signers s) (Z.to_nat (number mod zlen (signers s)))) as [a Ha]; [unfold zlen in *; lia|].
    exists a. split; [by eapply signers_spec, list_elem_of_lookup_2|]. intros b. f_equal. apply eq_iff_eq_true.
    rewrite Z.eqb_eq, bool_decide_eq_true, offset_of_lookup by done. rewrite Ha. split; congruence.
  - intros a number Ha%signers_spec. apply list_elem_of_lookup in Ha as [i Hi]. pose proof (lookup_lt_Some _ _ _ Hi).
    assert (Z.of_nat i = offset_of a (signers s)) as Ho by (apply offset_of_lookup; [unfold zlen; lia|done|by rewrite Nat2Z.id]). rewrite <- Ho.
    exists ((Z.of_nat i - number) mod zlen (signers s)). pose proof (Z.mod_pos_bound (Z.of_nat i - number) (zlen (signers s)) Hl).
    split; [done|]. assert (0 <= Z.of_nat i < zlen (signers s)) by (unfold zlen; lia). split.
    + do 2 f_equal. apply Z.eqb_eq. rewrite Z.add_mod_idemp_r by lia. replace (number + (Z.of_nat i - number)) with (Z.of_nat i) by lia. by apply Z.mod_small.
    + intros j Hj [= E%Z.eqb_eq]. rewrite <- E, Zminus_mod_idemp_l. replace (number + j - number) with j by lia. symmetry. by apply Z.mod_small.
Qed.
Lemma count_vote_sole number a s : votes_ok s -> sn_Signers s = {[a]} -> sn_Signers (count_vote number a a false s) = ∅.
Proof.
  intros Hv Es. set (s1 := with_recents s (<[number := a]> (sn_Recents s))). assert (votes_ok s1) as Hv1 by (by destruct Hv).
  destruct (drop_vote_ok a a s1 Hv1) as (Hv2 & (_ & _ & Es2 & _) & Hno & _). set (s2 := drop_vote a a [] (sn_Votes s1) s1) in *.
  assert (sn_Signers s2 = {[a]}) as Es2' by (by rewrite Es2). destruct Hv2 as [HT HF HN].
  assert (votes_on a (sn_Votes s2) = []) as Hnone.
  { destruct (votes_on a (sn_Votes s2)) as [|v l] eqn:E; [done|]. exfalso.
    assert (v ∈ votes_on a (sn_Votes s2)) as [Ha Hin]%list_elem_of_filter by (rewrite E; left).
    rewrite Forall_forall in HF. destruct (HF v Hin) as [Hs _]. rewrite Es2' in Hs. apply elem_of_singleton in Hs.
    apply Hno, list_elem_of_In, in_map_iff. exists v. split; [unfold ballot; congruence|by apply list_elem_of_In]. }
  assert (sn_Tally s2 !! a = None) as Ht by (rewrite HT; unfold tally_for; by rewrite Hnone).
  assert (validVote s2 a false = true) as Hvalid by (apply validVote_eq; rewrite Es2', bool_decide_true by set_solver; done).
  destruct (cast_vote_ok number a a false s2 (Build_votes_ok s2 HT HF HN) ltac:(set_solver) Hno) as (Hv3 & (_ & _ & Es3 & _) & _).
  unfold count_vote. fold s1. fold s2. set (s3 := cast_vote number a a false s2) in *.
  assert (sn_Tally s3 !! a = Some (mkTally false 1)) as Ht3 by (unfold s3, cast_vote, cast; rewrite Hvalid, Ht; cbn; by rewrite lookup_insert_eq).
  rewrite Ht3, Es3, Es2', size_singleton. cbn [t_Votes]. change (Z.of_nat 1 / 2 <? 1) with true. cbn iota.
  destruct (pass_vote_ok number a (mkTally false 1) s3 Hv3 Ht3) as [_ ->]. rewrite Es3, Es2'. cbn [t_Authorize]. set_solver.
Qed.

Lemma no_signers_stop s : sn_Signers s = ∅ ->
  (forall signer, CalcDifficulty s signer = Panic) /\ (forall h s', Snapshot_apply cr config s [h] <> Good s').
Proof.
  intros E. split.
  - intros signer. unfold CalcDifficulty, inturn, signers. by rewrite E, elements_empty.
  - intros h s' Ha. rewrite apply_single in Ha. destruct (negb _); [done|]. destruct (apply_header cr config s h) as [t|] eqn:Et; [|done].
    destruct (proj1 (apply_header_accepts s h)) as (x & _ & Hx & _); [by exists t|]. rewrite E in Hx. set_solver.
Qed.

(** C40. A sole signer can vote itself out, at any height and whatever votes are pending: its
    block is accepted and leaves no signers, computing the difficulty of the next block
    then divides by zero, and no later header can ever be applied. *)
Theorem last_signer_leaves s h a (Hn : 0 <= sn_Number s) (Hmax : sn_Number s + 1 < 2 ^ 64) (Hok : snap_ok (sn_Number s) s)
    (Hone : sn_Signers s = {[a]}) (Hnum : u64 (h_Number h) = sn_Number s + 1) (Hsig : recover_signer cr h = Good a)
    (Hself : h_Coinbase h = a) (Hdrop : h_Nonce h = nonceDropVote) :
  exists s', Snapshot_apply cr config s [h] = Good s' /\ sn_Signers s' = ∅ /\
    (forall signer, CalcDifficulty s' signer = Panic) /\ (forall h' s'', Snapshot_apply cr config s' [h'] <> Good s'').
Proof.
  destruct Hok as [Hv Hr]. assert (vote_nonce (h_Nonce h) = Some false) as Hnonce by (rewrite Hdrop; by vm_compute).
  assert (is_recent (sn_Recents (shift_recents (u64 (h_Number h)) s)) a = false) as Hfree.
  { rewrite Hnum. apply not_true_iff_false. rewrite <- blocked_spec. intros Hb. pose proof (blocked_few s _ Hr) as Hf.
    unfold limit in Hf. rewrite Hone, size_singleton in Hf. change (Z.of_nat 1 / 2) with 0 in Hf.
    assert (size (blocked s (sn_Number s)) = 0%nat) as Hz%size_empty_inv by lia. set_solver. }
  rewrite apply_single, (u64_id (sn_Number s + 1)), Hnum, Z.eqb_refl by lia. cbn [negb].
  rewrite apply_header_eq. cbn zeta. rewrite Hsig, bool_decide_true, reset_recents, Hfree, Hnonce, Hself by (rewrite Hone; set_solver). cbn [negb].
  eexists. split; [reflexivity|]. set (n := u64 (h_Number h)).
  destruct (reset_ok n s Hv) as ([H1 H2 H3] & (_ & _ & E3 & _) & _). destruct (shift_recents_rest n (reset config n s)) as (_ & _ & F3 & F4 & F5).
  assert (sn_Signers (count_vote n a a false (shift_recents n (reset config n s))) = ∅) as Hempty.
  { apply count_vote_sole; [split; by rewrite ?F3, ?F4, ?F5|by rewrite F3, E3]. }
  split; [exact Hempty|]. by apply no_signers_stop.
Qed.

End apply.

(** ** Examples *)

(** A signature's first byte names the key. *)
Definition seal_crypto : Crypto := {|
  keccak256 := mem_hash;
  sha256 := sha256 mem_crypto;
  ripemd160 := ripemd160 mem_crypto;
  secp256k1_recover _ sig := match sig with b :: _ => Some [z2b 4; b] | [] => None end;
  G1 := G1 mem_crypto;
  G2 := G2 mem_crypto;
  G1_Unmarshal := G1_Unmarshal mem_crypto;
  G2_Unmarshal := G2_Unmarshal mem_crypto;
  G1_Add := G1_Add mem_crypto;
  G1_ScalarMult := G1_ScalarMult mem_crypto;
  G1_Marshal := G1_Marshal mem_crypto;
  PairingCheck := PairingCheck mem_crypto
|}.
Definition seal_address (key : Z) : Address := BytesToAddress (drop 12 (mem_hash [z2b key])).

Definition seal_header (number key : Z) (coinbase : Address) (nonce : BlockNonce) : Header :=
  mkHeader 1 (CalcUncleHash seal_crypto []) coinbase 0 0 0 (replicate 256 Byte.x00) 1 number 8000000 0 1500000000
    (replicate 32 Byte.x00 ++ z2b key :: replicate 64 Byte.x00) 0 nonce.

Definition seal_config : CliqueConfig := mkCliqueConfig 15 30000.
Definition seal_engine : CliqueEngine := mkCliqueEngine seal_config ∅ ∅ ∅ 0 true.

Definition four_signers : Snapshot := newSnapshot 0 7 (map seal_address [1; 2; 3; 4]).
Definition one_signer : Snapshot := newSnapshot 0 7 [seal_address 1].

Definition two_votes : list Header := [seal_header 1 1 (seal_address 5) nonceAuthVote; seal_header 2 2 (seal_address 5) nonceAuthVote].
Definition one_vote : list Header := [seal_header 1 1 (seal_address 5) nonceAuthVote].

Lemma new_snap_ok number hash l : snap_ok number (newSnapshot number hash l).
Proof.
  split; split; cbn [sn_Tally sn_Votes sn_Recents newSnapshot map]; try (by intros; rewrite lookup_empty in *); try by constructor.
Qed.

Lemma apply_keeps_books_witness : exists s',
  Snapshot_apply seal_crypto seal_config four_signers two_votes = Good s' /\
  sn_Tally s' !! seal_address 5 = Some (mkTally true 2) /\ snap_ok 2 s'.
Proof.
  destruct (Snapshot_apply seal_crypto seal_config four_signers two_votes) as [s'|] eqn:E; [|vm_compute in E; discriminate E].
  exists s'. destruct (apply_keeps_books seal_crypto seal_config four_signers two_votes s' ltac:(by vm_compute) ltac:(by vm_compute) (new_snap_ok 0 _ _) E) as [En Hok].
  rewrite En in Hok. split; [reflexivity|]. split; [|exact Hok]. vm_compute in E. injection E as <-. vm_compute. reflexivity.
Defined.

Lemma signers_change_by_majority_witness : exists s' pre h post s1 signer,
  Snapshot_apply seal_crypto seal_config one_signer one_vote = Good s' /\
  one_vote = pre ++ h :: post /\ majority s1 signer (seal_address 5).
Proof.
  destruct (Snapshot_apply seal_crypto seal_config one_signer one_vote) as [s'|] eqn:E; [|vm_compute in E; discriminate E].
  destruct (signers_change_by_majority seal_crypto seal_config one_signer one_vote s' (seal_address 5) ltac:(by vm_compute) ltac:(by vm_compute) (new_snap_ok 0 _ _) E)
    as (pre & h & post & s1 & signer & Hs & _ & _ & _ & _ & Hm).
  - intros [_ H]. assert (seal_address 5 ∈ sn_Signers one_signer) as H'.
    { apply H, (bool_decide_unpack _). vm_compute in E. injection E as <-. vm_compute. exact I. }
    apply (bool_decide_pack _) in H'. vm_compute in H'. exact H'.
  - exists s', pre, h, post, s1, signer. split; [reflexivity|]. split; [exact Hs|exact Hm].
Defined.

(** Four signers after the first has signed block 1. *)
Definition four_after : Snapshot :=
  match Snapshot_apply seal_crypto seal_config four_signers [seal_header 1 1 0 nonceDropVote] with Good s => s | Err _ => four_signers end.

Lemma four_after_ok : snap_ok (sn_Number four_after) four_after.
Proof.
  unfold four_after. destruct (Snapshot_apply _ _ _ _) as [s|] eqn:E; [|apply new_snap_ok].
  eapply (apply_ok _ _ four_signers); [by vm_compute|..|exact E]; [by vm_compute|apply new_snap_ok].
Qed.

Lemma four_after_signers a : a ∈ sn_Signers four_after -> exists key, key ∈ [1; 2; 3; 4] /\ recover_signer seal_crypto (seal_header 2 key 0 nonceDropVote) = Good a.
Proof.
  intros Ha. assert (sn_Signers four_after = list_to_set (map seal_address [1; 2; 3; 4])) as E by (apply (bool_decide_unpack _); vm_compute; exact I).
  rewrite E, elem_of_list_to_set in Ha. apply list_elem_of_In, in_map_iff in Ha as (key & <- & Hk). apply list_elem_of_In in Hk. exists key. split; [done|].
  assert (Forall (fun key => recover_signer seal_crypto (seal_header 2 key 0 nonceDropVote) = Good (seal_address key)) [1; 2; 3; 4]) as HF
    by (repeat constructor; vm_compute; reflexivity).
  rewrite Forall_forall in HF. by apply HF.
Qed.

(** One of the four can sign block 2, and its header is accepted. *)
Lemma some_signer_can_sign_witness : exists key s', key ∈ [1; 2; 3; 4] /\
  Snapshot_apply seal_crypto seal_config four_after [seal_header 2 key 0 nonceDropVote] = Good s' /\ sn_Number s' = 2.
Proof.
  destruct (some_signer_can_sign seal_crypto seal_config four_after ltac:(by vm_compute) ltac:(by vm_compute) four_after_ok) as (signer & Hin & Hs).
  - intros H. apply (f_equal size) in H. vm_compute in H. discriminate H.
  - destruct (four_after_signers signer Hin) as (key & Hkey & Hr).
    destruct (Hs (seal_header 2 key 0 nonceDropVote) ltac:(by vm_compute) Hr ltac:(by vm_compute)) as (s' & E & En).
    exists key, s'. split; [exact Hkey|]. split; [exact E|exact En].
Defined.

Lemma seal_check_agrees_witness :
  exists s', Snapshot_apply seal_crypto seal_config one_signer [seal_header 1 1 0 nonceDropVote] = Good s'.
Proof.
  destruct (seal_check_agrees seal_crypto seal_config seal_engine one_signer (seal_header 1 1 0 nonceDropVote) eq_refl ltac:(by vm_compute) ltac:(by vm_compute)
    (new_snap_ok 0 _ _)) as [H _]; [vm_compute; reflexivity|]. apply H; vm_compute; congruence.
Defined.

Lemma one_signer_in_turn_witness : exists a, a ∈ sn_Signers four_signers /\ inturn four_signers 6 a = Ok true.
Proof.
  destruct (one_signer_in_turn four_signers) as [H _].
  - intros H. apply (f_equal size) in H. vm_compute in H. discriminate H.
  - destruct (H 6) as (a & Ha & Hb). exists a. split; [exact Ha|]. rewrite Hb. by rewrite bool_decide_true.
Defined.

(** In the first blocks the subtraction of the seal check wraps: with four signers the
    signer of block 1 passes it again for block 2, a header no snapshot accepts. *)
Theorem early_resign_accepted : exists cr config c s h,
  snap_ok (sn_Number s) s /\ cl_config c = config /\ u64 (h_Number h) = sn_Number s + 1 /\ sn_Number s + 1 < limit s /\
  check_seal cr c s h = Ok None /\ Snapshot_apply cr config s [h] = Err errRecentlySigned.
Proof.
  destruct (Snapshot_apply seal_crypto seal_config four_signers [seal_header 1 1 0 nonceDropVote]) as [s'|] eqn:E; [|vm_compute in E; discriminate E].
  exists seal_crypto, seal_config, seal_engine, s', (seal_header 2 1 0 nonceDropVote). split.
  { eapply (apply_ok _ _ four_signers); [by vm_compute|..|exact E]; [by vm_compute|apply new_snap_ok]. }
  vm_compute in E. injection E as <-. vm_compute. repeat split; reflexivity.
Qed.

Definition self_drop : Header := seal_header 1 1 (seal_address 1) nonceDropVote.

Lemma last_signer_leaves_witness : exists s',
  Snapshot_apply seal_crypto seal_config one_signer [self_drop] = Good s' /\ CalcDifficulty s' (seal_address 1) = Panic.
Proof.
  destruct (last_signer_leaves seal_crypto seal_config one_signer self_drop (seal_address 1) ltac:(by vm_compute) ltac:(by vm_compute)
    (new_snap_ok 0 _ _)) as (s' & E & _ & Hd & _); [vm_compute; reflexivity..|].
  exists s'. split; [exact E|apply Hd].
Defined.
