(* ===== verification/CliqueChain.v ===== *)
(** * Proof of authority over a chain

    The snapshot the engine finds through its caches is the replay of the votes since
    the genesis block, and a header it prepares and seals passes its own verification. *)
From S2P Require Import Prelude CommonMath Params RlpEncode RlpTyped VmInterface ChainTypes ChainFacts StateAccount MemDb Ethash Clique CliqueFacts.
From stdpp Require Import base numbers list gmap sorting.
From Stdlib Require Import ZArith Lia.
#[local] Open Scope Z_scope.

(** ** The number and hash of a snapshot do not influence the votes *)

Definition set_id (n : Z) (h : Hash) (s : Snapshot) : Snapshot :=
  mkSnapshot n h (sn_Signers s) (sn_Recents s) (sn_Votes s) (sn_Tally s).

Lemma uncast_set_id n h s a b : snd (uncast (set_id n h s) a b) = set_id n h (snd (uncast s a b)).
Proof. unfold uncast, set_id. cbn [sn_Tally]. repeat case_match; done. Qed.

Lemma drop_vote_set_id n h signer a votes : forall before s,
  drop_vote signer a before votes (set_id n h s) = set_id n h (drop_vote signer a before votes s).
Proof.
  induction votes as [|v votes IH]; intros before s; cbn [drop_vote]; [done|]. destruct (_ && _); [|apply IH]. by rewrite uncast_set_id.
Qed.

Lemma drop_votes_of_set_id n h signer votes : forall before s,
  drop_votes_of signer before votes (set_id n h s) = set_id n h (drop_votes_of signer before votes s).
Proof.
  induction votes as [|v votes IH]; intros before s; cbn [drop_votes_of]; [done|]. destruct (_ =? _); [|apply IH]. by rewrite uncast_set_id, IH.
Qed.

Lemma shift_recents_set_id n h number s : shift_recents number (set_id n h s) = set_id n h (shift_recents number s).
Proof. unfold shift_recents, limit. cbn [sn_Signers set_id]. by destruct (_ <=? _). Qed.

Lemma pass_vote_set_id n h number a tally s : pass_vote number a tally (set_id n h s) = set_id n h (pass_vote number a tally s).
Proof.
  unfold pass_vote. destruct (t_Authorize tally); [done|].
  change (with_signers (set_id n h s) (sn_Signers (set_id n h s) ∖ {[a]})) with (set_id n h (with_signers s (sn_Signers s ∖ {[a]}))).
  rewrite shift_recents_set_id. set (s1 := shift_recents number _). change (sn_Votes (set_id n h s1)) with (sn_Votes s1).
  by rewrite drop_votes_of_set_id.
Qed.

Lemma cast_vote_set_id n h number signer a authorize s :
  cast_vote number signer a authorize (set_id n h s) = set_id n h (cast_vote number signer a authorize s).
Proof.
  unfold cast_vote, cast, validVote. cbn [sn_Signers sn_Tally set_id]. destruct (negb _); [done|]. by destruct (sn_Tally s !! a).
Qed.

Lemma count_vote_set_id n h number signer a authorize s :
  count_vote number signer a authorize (set_id n h s) = set_id n h (count_vote number signer a authorize s).
Proof.
  unfold count_vote. change (with_recents (set_id n h s) (<[number:=signer]> (sn_Recents (set_id n h s))))
    with (set_id n h (with_recents s (<[number:=signer]> (sn_Recents s)))). set (s1 := with_recents s _).
  change (sn_Votes (set_id n h s1)) with (sn_Votes s1). rewrite drop_vote_set_id, cast_vote_set_id. set (s2 := cast_vote _ _ _ _ _).
  change (sn_Tally (set_id n h s2)) with (sn_Tally s2). change (sn_Signers (set_id n h s2)) with (sn_Signers s2).
  repeat case_match; try done. apply pass_vote_set_id.
Qed.

Section chain.
Context (cr : Crypto) (Hk : forall d, zlen (keccak256 cr d) = 32).

Lemma apply_header_set_id config n h s hd : apply_header cr config (set_id n h s) hd =
  match apply_header cr config s hd with Good t => Good (set_id n h t) | Err e => Err e end.
Proof.
  rewrite !apply_header_eq. cbn zeta. set (number := u64 (h_Number hd)). change (sn_Signers (set_id n h s)) with (sn_Signers s).
  assert (reset config number (set_id n h s) = set_id n h (reset config number s)) as -> by (unfold reset; by destruct (_ =? 0)).
  rewrite shift_recents_set_id. set (s1 := shift_recents number _). change (sn_Recents (set_id n h s1)) with (sn_Recents s1).
  destruct (recover_signer cr hd); [|done]. destruct (negb _); [done|]. destruct (is_recent _ _); [done|].
  destruct (vote_nonce _); [|done]. by rewrite count_vote_set_id.
Qed.

Lemma apply_loop_app config hs hs' : forall s, apply_loop cr config s (hs ++ hs') =
  match apply_loop cr config s hs with Good t => apply_loop cr config t hs' | Err e => Err e end.
Proof. induction hs as [|h hs IH]; intros s; cbn [app apply_loop]; [done|]. destruct (apply_header cr config s h); [apply IH|done]. Qed.

Lemma contiguous_snoc hs h2 : forall h1, contiguous ((hs ++ [h1]) ++ [h2]) = true ->
  contiguous (hs ++ [h1]) = true /\ u64 (h_Number h2) = u64 (u64 (h_Number h1) + 1).
Proof.
  induction hs as [|h hs IH]; intros h1 H.
  - apply contiguous_cons in H as [H _]. done.
  - destruct hs as [|h' hs]; cbn [app] in *; apply contiguous_cons in H as [E H].
    + destruct (IH h1 H) as [_ H2]. split; [apply contiguous_cons; done|done].
    + destruct (IH h1 H) as [H1 H2]. split; [apply contiguous_cons; done|done].
Qed.

Lemma contiguous_number hs : forall h l, contiguous (h :: hs) = true -> last (h :: hs) = Some l -> u64 (h_Number l) = u64 (u64 (h_Number h) + zlen hs).
Proof.
  induction hs as [|h2 hs IH]; intros h l Hc Hl.
  - injection Hl as <-. unfold zlen. cbn [length]. rewrite Z.add_0_r. unfold u64. by rewrite Zmod_mod.
  - apply contiguous_cons in Hc as [E Hc]. rewrite (IH h2 l Hc Hl), E. unfold u64, zlen. cbn [length]. rewrite Zplus_mod_idemp_l. f_equal. lia.
Qed.

Lemma apply_loop_id config hs : forall s t, apply_loop cr config s hs = Good t -> sn_Number t = sn_Number s.
Proof.
  induction hs as [|h hs IH]; intros s t E; cbn [apply_loop] in E; [by injection E as <-|].
  destruct (apply_header cr config s h) as [s1|] eqn:E1; [|done]. rewrite (IH _ _ E). rewrite apply_header_eq in E1. cbn zeta in E1.
  destruct (recover_signer cr h); [|done]. destruct (negb _); [done|]. destruct (is_recent _ _); [done|]. destruct (vote_nonce _); [|done].
  injection E1 as <-. rewrite (proj1 (count_vote_id _ _ _ _ _)), (proj1 (shift_recents_rest _ _)). unfold reset. by destruct (_ =? 0).
Qed.

(** Applying one more header is applying it to the result. *)
Lemma apply_snoc config s hs h s' : Snapshot_apply cr config s (hs ++ [h]) = Good s' ->
  exists s1, Snapshot_apply cr config s hs = Good s1 /\ Snapshot_apply cr config s1 [h] = Good s'.
Proof.
  destruct hs as [|h0 hs] using rev_ind; [intros E; by exists s|]. clear IHhs. intros E.
  destruct (apply_loop_of cr config s _ s' E) as (Hc & Hf & t & Et & Es & l & Hl & Eh); [by destruct hs|].
  rewrite last_snoc in Hl. injection Hl as <-. destruct (contiguous_snoc hs h h0 Hc) as [Hc1 Hn]. rewrite apply_loop_app in Et.
  destruct (apply_loop cr config s (hs ++ [h0])) as [t1|] eqn:Et1; [|done]. cbn [apply_loop] in Et.
  destruct (apply_header cr config t1 h) as [t'|] eqn:Eh1; [|done]. injection Et as ->.
  set (n1 := u64 (sn_Number t1 + zlen (hs ++ [h0]))). exists (set_id n1 (Header_Hash cr h0) t1). split.
  - destruct (hs ++ [h0]) as [|f rest] eqn:Ehs; [by destruct hs|]. unfold Snapshot_apply. rewrite Hc1. cbn [negb].
    cbn [app] in Hf. rewrite Hf, Z.eqb_refl. cbn [negb]. rewrite Et1. unfold set_id. unfold n1. by rewrite <- Ehs, last_snoc.
  - rewrite apply_single, apply_header_set_id, Eh1. cbn [sn_Number set_id].
    assert (u64 (h_Number h) = u64 (n1 + 1)) as ->.
    { unfold n1. rewrite Hn, (apply_loop_id _ _ _ _ Et1). destruct (hs ++ [h0]) as [|f rest] eqn:Ehs; [by destruct hs|].
      rewrite (contiguous_number rest f h0 Hc1) by (by rewrite <- Ehs, last_snoc). cbn [app] in Hf. rewrite Hf.
      unfold u64, zlen. cbn [length]. rewrite Zplus_mod_idemp_l, <- (Z.add_assoc (_ mod _)), !Zplus_mod_idemp_l. f_equal. lia. }
    rewrite Z.eqb_refl. cbn [negb]. f_equal. rewrite Es, Eh. f_equal. unfold n1.
    assert (sn_Number t = sn_Number t1) as -> by (apply (apply_loop_id config [h]); cbn [apply_loop]; by rewrite Eh1).
    unfold u64, zlen. rewrite Zplus_mod_idemp_l, !length_app. f_equal. cbn [length]. lia.
Qed.

(** ** Snapshots as replayed votes *)

(** The headers that there are: those of the chain and those the engine is handed. *)
Context (known : Header -> Prop).

(** The snapshot after block [n] with hash [h]: the signers of the genesis block, then
    one header after the other. *)
Inductive snapshot_of (config : CliqueConfig) (chain : ChainReader) : Z -> Hash -> Snapshot -> Prop :=
| of_genesis h genesis signers :
    GetHeaderByNumber chain 0 = Some genesis -> checkpoint_signers genesis = Ok signers ->
    snapshot_of config chain 0 h (newSnapshot 0 (Header_Hash cr genesis) signers)
| of_next n header s s' :
    0 < n -> u64 (h_Number header) = n -> known header ->
    snapshot_of config chain (n - 1) (h_ParentHash header) s -> Snapshot_apply cr config s [header] = Good s' ->
    snapshot_of config chain n (Header_Hash cr header) s'.

Lemma u64_bounds z : 0 <= u64 z < 2 ^ 64.
Proof. unfold u64. apply Z.mod_pos_bound. lia. Qed.

Lemma snapshot_of_number config chain n h s : snapshot_of config chain n h s -> sn_Number s = n /\ 0 <= n < 2 ^ 64.
Proof.
  induction 1 as [|n header s s' Hn Hnum _ _ [IH Hb] E]; [done|]. pose proof (u64_bounds (h_Number header)) as Hr. split; [|lia].
  rewrite apply_single in E. destruct (Z.eqb_spec (u64 (h_Number header)) (u64 (sn_Number s + 1))) as [E1|]; [|done]. cbn [negb] in E.
  destruct (apply_header cr config s header) as [t|] eqn:Et; [|done]. injection E as <-. cbn [sn_Number].
  assert (sn_Number t = sn_Number s) as -> by (apply (apply_loop_id config [header]); cbn [apply_loop]; by rewrite Et). congruence.
Qed.

(** The hash tells the known headers apart. *)
Definition hash_names : Prop := forall h1 h2, known h1 -> known h2 -> Header_Hash cr h1 = Header_Hash cr h2 -> h1 = h2.

(** A block determines its snapshot. *)
Lemma snapshot_of_unique config chain n h s : hash_names -> snapshot_of config chain n h s -> forall s', snapshot_of config chain n h s' -> s = s'.
Proof.
  intros Hnames. induction 1 as [h genesis l Hg Hl|n header s s' Hn Hnum Hwf Hs IH E]; intros s2 H2.
  - inversion H2; subst; [|lia]. congruence.
  - inversion H2 as [|n2 header2 t t' Hn2 Hnum2 Hwf2 Ht E2]; subst; [lia|].
    assert (header2 = header) as -> by (by apply Hnames). rewrite (IH t Ht) in E. congruence.
Qed.

Lemma snapshot_of_books config chain n h s : snapshot_of config chain n h s -> snap_ok n s.
Proof.
  induction 1 as [h genesis l|n header s s' Hn Hnum Hwf Hs IH E]; [apply new_snap_ok|].
  destruct (snapshot_of_number _ _ _ _ _ Hs) as [Es Hb]. pose proof (u64_bounds (h_Number header)).
  destruct (apply_ok cr config s [header] s') as [En Hok]; [lia|unfold zlen; cbn [length]; lia|by rewrite Es|done|].
  rewrite Es in En. unfold zlen in En. cbn [length] in En. by replace n with (sn_Number s') by lia.
Qed.

(** What the chain answers; the genesis block is there, with its signers. *)
Record chain_sound (chain : ChainReader) : Prop := {
  cs_header : forall h n hd, GetHeader chain h n = Some hd -> Header_Hash cr hd = h /\ u64 (h_Number hd) = n /\ known hd;
  cs_genesis : exists genesis signers, GetHeaderByNumber chain 0 = Some genesis /\ checkpoint_signers genesis = Ok signers;
  cs_gapless : forall n hd, 0 < n -> GetHeaderByNumber chain n = Some hd -> GetHeaderByNumber chain (n - 1) <> None
}.

Context (evict : gmap Hash Snapshot -> gmap Hash Snapshot) (put_ok : Snapshot -> bool) (Hevict : forall m, evict m ⊆ m).

(** Both caches hold what their keys stand for. *)
Definition coherent (c : CliqueEngine) (chain : ChainReader) : Prop :=
  forall h s, cl_recents c !! h = Some s \/ cl_db c !! h = Some s -> snapshot_of (cl_config c) chain (sn_Number s) h s.

Definition same_engine (c c' : CliqueEngine) : Prop :=
  cl_config c' = cl_config c /\ cl_proposals c' = cl_proposals c /\ cl_signer c' = cl_signer c /\ cl_fakeDiff c' = cl_fakeDiff c.

Lemma store_coherent c chain s c' : coherent c chain -> snapshot_of (cl_config c) chain (sn_Number s) (sn_Hash s) s ->
  store put_ok c s = Good c' -> coherent c' chain /\ same_engine c c'.
Proof.
  intros Hc Hs. unfold store. destruct (put_ok s); [|done]. intros [= <-]. split; [|done].
  intros h t. cbn [cl_recents cl_db cl_config]. intros [Ht|[[<- <-]|[_ Ht]]%lookup_insert_Some]; [apply Hc; by left|done|apply Hc; by right].
Qed.

Lemma recents_Add_ok c chain s : coherent c chain -> snapshot_of (cl_config c) chain (sn_Number s) (sn_Hash s) s ->
  coherent (recents_Add evict c s) chain /\ same_engine c (recents_Add evict c s).
Proof.
  intros Hc Hs. split; [|done]. intros h t. unfold recents_Add. cbn [cl_recents cl_db cl_config].
  intros [[[<- <-]|[_ Ht]]%lookup_insert_Some|Ht]; [done|..|apply Hc; by right].
  apply Hc. left. eapply lookup_weaken; [exact Ht|apply Hevict].
Qed.

(** The headers passed on the way back, newest first, from one block to an older one. *)
Fixpoint linked (number : Z) (hash : Hash) (passed : list Header) (last : Hash) : Prop :=
  match passed with
  | [] => hash = last
  | header :: passed =>
      0 < number /\ u64 (h_Number header) = number /\ Header_Hash cr header = hash /\ known header /\
      linked (number - 1) (h_ParentHash header) passed last
  end.

Lemma replay config chain passed : forall number hash last s s', linked number hash passed last ->
  snapshot_of config chain (sn_Number s) last s -> Snapshot_apply cr config s (rev passed) = Good s' ->
  snapshot_of config chain (sn_Number s') hash s'.
Proof.
  induction passed as [|header passed IH]; intros number hash last s s' Hl Hs E; cbn [rev linked] in *.
  { injection E as <-. by subst. }
  destruct Hl as (Hn & Hnum & <- & Hwf & Hl). apply apply_snoc in E as (s1 & E1 & E2).
  pose proof (IH _ _ _ s s1 Hl Hs E1) as Hs1. destruct (snapshot_of_number _ _ _ _ _ Hs1) as [_ Hb].
  pose proof E2 as E3. rewrite apply_single in E3.
  destruct (Z.eqb_spec (u64 (h_Number header)) (u64 (sn_Number s1 + 1))) as [Eq|]; [|done]. cbn [negb] in E3.
  assert (sn_Number s1 = number - 1) as Hnum1.
  { rewrite Hnum in Eq. destruct (Z.eq_dec (sn_Number s1 + 1) (2 ^ 64)) as [Ez|Ez]; [|rewrite u64_id in Eq; lia].
    rewrite Ez in Eq. change (u64 (2 ^ 64)) with 0 in Eq. lia. }
  assert (snapshot_of config chain number (Header_Hash cr header) s') as Hs'.
  { eapply (of_next config chain number header s1); [done|done|done| |done]. by rewrite <- Hnum1. }
  by rewrite (proj1 (snapshot_of_number _ _ _ _ _ Hs')).
Qed.

Lemma last_removelast {A} (l : list A) x : last l = Some x -> l = removelast l ++ [x].
Proof.
  destruct l as [|y l] using rev_ind; [done|]. rewrite last_snoc. intros [= ->]. by rewrite removelast_last.
Qed.

(** An answer of the search: an error, or a known snapshot and the headers above it. *)
Definition found (c : CliqueEngine) (chain : ChainReader) (number : Z) (hash : Hash) (headers : list Header)
    (o : reply (Snapshot * list Header)) : Prop :=
  exists r c', o = Ok (r, c') /\ coherent c' chain /\ same_engine c c' /\
    forall s hs, r = Good (s, hs) -> exists passed last, hs = headers ++ passed /\ linked number hash passed last /\
      snapshot_of (cl_config c) chain (sn_Number s) last s.

Lemma found_err c chain number hash headers e : coherent c chain -> found c chain number hash headers (Ok (Err e, c)).
Proof. intros Hc. by exists (Err e), c. Qed.

Lemma found_here c c' chain number hash headers s : coherent c' chain -> same_engine c c' ->
  snapshot_of (cl_config c) chain (sn_Number s) hash s -> found c chain number hash headers (Ok (Good (s, headers), c')).
Proof.
  intros Hc Hsame Hs. exists (Good (s, headers)), c'. split; [done|]. split; [done|]. split; [done|]. intros s0 hs [= <- <-]. exists [], hash.
  by rewrite app_nil_r.
Qed.

Lemma found_back c chain number hash headers header o : 0 < number -> Header_Hash cr header = hash -> u64 (h_Number header) = number ->
  known header -> found c chain (number - 1) (h_ParentHash header) (headers ++ [header]) o -> found c chain number hash headers o.
Proof.
  intros Hn Hh Hnum Hwf (r & c' & E & Hc' & Hsame & Hr). exists r, c'. split; [done|]. split; [done|]. split; [done|]. intros s hs Es.
  destruct (Hr s hs Es) as (passed & last & -> & Hl & Hs). exists (header :: passed), last. by rewrite <- app_assoc.
Qed.

Lemma search_ok chain (Hchain : chain_sound chain) fuel : forall c number hash parents headers,
  coherent c chain -> 0 <= number < 2 ^ 64 -> (Z.to_nat number < fuel)%nat -> Forall known parents ->
  found c chain number hash headers (search cr put_ok fuel c chain number hash parents headers).
Proof.
  induction fuel as [|fuel IH]; intros c number hash parents headers Hc Hn Hfuel HF; [lia|]. cbn [search].
  match goal with |- context [match GetHeaderByNumber chain number with Some _ => _ | None => ?f end] => set (further := f) end.
  assert (number <> 0 -> found c chain number hash headers further) as Hfurther.
  { intros Hn0. unfold further. rewrite (u64_id (number - 1)) by lia. destruct (last parents) as [header|] eqn:El.
    - destruct (Z.eqb_spec (Header_Hash cr header) hash) as [Eh|]; [|by apply found_err].
      destruct (Z.eqb_spec (u64 (h_Number header)) number) as [En|]; [|by apply found_err].
      cbn [negb orb]. rewrite (last_removelast _ _ El), Forall_app in HF. destruct HF as [HF1 HF2%Forall_inv].
      apply (found_back _ _ _ _ _ header); [lia|done..|]. apply IH; [done|lia|lia|done].
    - destruct (GetHeader chain hash number) as [header|] eqn:Eg; [|by apply found_err]. destruct (cs_header _ Hchain _ _ _ Eg) as (Eh & En & Hwf).
      apply (found_back _ _ _ _ _ header); [lia|done..|]. apply IH; [done|lia|lia|done]. }
  destruct (cl_recents c !! hash) as [s|] eqn:Er; [by apply found_here; [..|apply Hc; left]|].
  destruct (if number mod checkpointInterval =? 0 then loadSnapshot c hash else None) as [s|] eqn:Ed.
  { apply found_here; [done|done|]. apply Hc. right. by destruct (_ =? 0). }
  destruct (Z.eqb_spec number 0) as [->|Hn0]; cbn [orb].
  - destruct (cs_genesis _ Hchain) as (genesis & l & Eg & El). rewrite Eg, El. cbn [obind].
    assert (forall h, snapshot_of (cl_config c) chain 0 h (newSnapshot 0 (Header_Hash cr genesis) l)) as Hg by (intros h; by apply of_genesis).
    destruct (store put_ok c _) as [c'|e] eqn:Es; [|by apply found_err]. destruct (store_coherent c chain (newSnapshot 0 (Header_Hash cr genesis) l) c' Hc (Hg _) Es) as [Hc' Hsame].
    by apply found_here.
  - destruct (_ && _) eqn:Echeck; [|by apply Hfurther]. apply andb_true_iff in Echeck as [_ Eprev]. rewrite u64_id in Eprev by lia.
    destruct (GetHeaderByNumber chain number) as [hd|] eqn:Ehd; [|by apply Hfurther].
    exfalso. apply (cs_gapless _ Hchain number hd); [lia|done|]. by destruct (GetHeaderByNumber chain (number - 1)).
Qed.

Lemma snapshot_ok chain (Hchain : chain_sound chain) fuel c number hash parents :
  coherent c chain -> 0 <= number < 2 ^ 64 -> (Z.to_nat number < fuel)%nat -> Forall known parents ->
  exists r c', snapshot cr evict put_ok fuel c chain number hash parents = Ok (r, c') /\ coherent c' chain /\ same_engine c c' /\
    forall s, r = Good s -> snapshot_of (cl_config c) chain (sn_Number s) hash s.
Proof.
  intros Hc Hn Hfuel HF. unfold snapshot. destruct (search_ok chain Hchain fuel c number hash parents [] Hc Hn Hfuel HF)
    as (r & c1 & -> & Hc1 & Hsame & Hr). cbn [obind]. destruct r as [[s hs]|e]; [|by exists (Err e), c1].
  destruct (Hr s hs eq_refl) as (passed & last & -> & Hl & Hs). cbn [app]. assert (cl_config c1 = cl_config c) as Ec by apply Hsame. rewrite Ec.
  destruct (Snapshot_apply cr (cl_config c) s (rev passed)) as [s'|e] eqn:Ea; [|by exists (Err e), c1].
  pose proof (replay _ _ _ _ _ _ _ _ Hl Hs Ea) as Hs'.
  assert (snapshot_of (cl_config c1) chain (sn_Number s') (sn_Hash s') s') as Hkey.
  { rewrite Ec. clear Hr Hsame. inversion Hs' as [h g l Hg El Hz Hh Heq|n hd t t' Hpos Hnum Hwf Ht Et Hz Hh Heq]; subst.
    - by apply of_genesis.
    - pose proof Et as Et2. rewrite apply_single in Et2. repeat case_match; simplify_eq. cbn [sn_Hash]. eapply of_next; [done|done|done|exact Ht|exact Et]. }
  destruct (recents_Add_ok c1 chain s' Hc1 Hkey) as [Hc2 Hsame2]. set (c2 := recents_Add evict c1 s') in *.
  assert (same_engine c c2) as Hsame' by (destruct Hsame as (?&?&?&?), Hsame2 as (?&?&?&?); repeat split; congruence).
  destruct (_ && _); [|by exists (Good s'), c2; split; [|split; [|split; [|intros ? [= <-]]]]].
  destruct (store put_ok c2 s') as [c3|e] eqn:Es; [|by exists (Err e), c2].
  destruct (store_coherent c2 chain s' c3 Hc2) as [Hc3 Hsame3]; [by rewrite (proj1 Hsame2)|done|]. exists (Good s'), c3. split; [done|]. split; [done|].
  split; [destruct Hsame' as (?&?&?&?), Hsame3 as (?&?&?&?); repeat split; congruence|]. by intros ? [= <-].
Qed.

(** C16. The snapshot of a block is the replay of the votes since the genesis block, however
    much of it came from the caches: the lookup ends, keeps both caches coherent, and what
    it returns is, when no two of the known headers have the same hash, the one snapshot
    the chain determines. *)
Theorem snapshot_replays chain fuel c number hash parents (Hchain : chain_sound chain) (Hc : coherent c chain)
    (Hn : 0 <= number < 2 ^ 64) (Hfuel : (Z.to_nat number < fuel)%nat) (HF : Forall known parents) :
  exists r c', snapshot cr evict put_ok fuel c chain number hash parents = Ok (r, c') /\ coherent c' chain /\
    forall s, r = Good s -> snapshot_of (cl_config c) chain (sn_Number s) hash s /\ snap_ok (sn_Number s) s /\
      (hash_names -> forall s', snapshot_of (cl_config c) chain (sn_Number s) hash s' -> s' = s).
Proof.
  destruct (snapshot_ok chain Hchain fuel c number hash parents Hc Hn Hfuel HF) as (r & c' & E & Hc' & _ & Hr). exists r, c'.
  split; [done|]. split; [done|]. intros s Es. pose proof (Hr s Es) as Hs. split; [done|].
  split; [by eapply snapshot_of_books|]. intros Hnames s' Hs'. by apply (snapshot_of_unique _ _ _ _ _ Hnames Hs').
Qed.

(** ** Preparing, sealing and verifying *)

Lemma same_engine_trans c1 c2 c3 : same_engine c1 c2 -> same_engine c2 c3 -> same_engine c1 c3.
Proof. intros (?&?&?&?) (?&?&?&?). repeat split; congruence. Qed.

Lemma store_same c s c' : store put_ok c s = Good c' -> same_engine c c' /\ cl_recents c' = cl_recents c.
Proof. unfold store. destruct (put_ok s); [|done]. by intros [= <-]. Qed.

Lemma search_same fuel : forall c chain number hash parents headers r c',
  search cr put_ok fuel c chain number hash parents headers = Ok (r, c') -> same_engine c c'.
Proof.
  induction fuel as [|fuel IH]; intros c chain number hash parents headers r c'; [done|]. cbn [search].
  match goal with |- context [match GetHeaderByNumber chain number with Some _ => _ | None => ?f end] => set (further := f) end.
  assert (further = Ok (r, c') -> same_engine c c') as Hfurther.
  { unfold further. repeat case_match; try (by intros [= <- <-]); apply IH. }
  destruct (cl_recents c !! hash); [by intros [= <- <-]|]. destruct (if _ : bool then loadSnapshot c hash else None); [by intros [= <- <-]|].
  destruct (_ || _); [|done]. destruct (GetHeaderByNumber chain number) as [cp|]; [|done]. destruct (checkpoint_signers cp); [|done..]. cbn [obind].
  destruct (store put_ok c _) as [c1|] eqn:Es; intros [= <- <-]; [by apply store_same in Es as [? _]|done].
Qed.

(** A successful lookup leaves its snapshot in the cache, where the next one finds it. *)
Lemma snapshot_caches fuel c chain number hash parents s c' :
  snapshot cr evict put_ok fuel c chain number hash parents = Ok (Good s, c') -> same_engine c c' /\ cl_recents c' !! sn_Hash s = Some s.
Proof.
  unfold snapshot. destruct (search _ _ _ _ _ _ _ _ _) as [[r c1]| |] eqn:E; [|done..]. apply search_same in E. cbn [obind].
  destruct r as [[s0 hs]|]; [|done]. destruct (Snapshot_apply _ _ _ _) as [s1|]; [|done].
  assert (same_engine c (recents_Add evict c1 s1)) as Hsame by (by apply (same_engine_trans c c1)).
  destruct (_ && _); [|intros [= <- <-]; split; [done|apply lookup_insert_eq]].
  destruct (store put_ok _ s1) as [c2|] eqn:Es; [|done]. intros [= <- <-]. apply store_same in Es as [H1 ->].
  split; [by eapply same_engine_trans|apply lookup_insert_eq].
Qed.

Lemma snapshot_cached fuel c chain number hash parents s : cl_recents c !! hash = Some s ->
  snapshot cr evict put_ok (S fuel) c chain number hash parents = Ok (Good s, recents_Add evict c s).
Proof. intros E. unfold snapshot. cbn [search]. rewrite E. cbn. by rewrite andb_false_r. Qed.

Lemma recents_Add_again c s hash : sn_Hash s = hash -> cl_recents (recents_Add evict c s) !! hash = Some s.
Proof. intros <-. apply lookup_insert_eq. Qed.

(** What [Prepare] establishes of a header and sealing keeps. *)
Record prepared (c : CliqueEngine) (s : Snapshot) (parent : Header) (h : Header) : Prop := {
  pr_nonce : vote_nonce (h_Nonce h) <> None;
  pr_checkpoint : u64 (h_Number h) mod Epoch (cl_config c) = 0 -> h_Coinbase h = 0 /\ h_Nonce h = nonceDropVote;
  pr_extra : exists vanity seal, length vanity = 32%nat /\ length seal = 65%nat /\ h_Extra h = vanity ++
    (if u64 (h_Number h) mod Epoch (cl_config c) =? 0 then concat (map Address_Bytes (signers s)) else []) ++ seal;
  pr_mix : h_MixDigest h = 0;
  pr_difficulty : CalcDifficulty s (cl_signer c) = Ok (h_Difficulty h);
  pr_time : u64 (u64 (h_Time parent) + Period (cl_config c)) <= u64 (h_Time h)
}.

Lemma pick_vote_nonce c s choice : vote_nonce (snd (pick_vote c s choice)) <> None.
Proof.
  unfold pick_vote. match goal with |- context [match ?x with None => _ | Some _ => _ end] => destruct x as [a|] end; cbn [snd]; [|by vm_compute].
  destruct (default _ _); by vm_compute.
Qed.

Lemma Prepare_prepared fuel c chain now choice header h c1 s c0 parent :
  snapshot cr evict put_ok fuel c chain (u64 (u64 (h_Number header) - 1)) (h_ParentHash header) [] = Ok (Good s, c0) ->
  GetHeader chain (h_ParentHash header) (u64 (u64 (h_Number header) - 1)) = Some parent ->
  0 <= h_Time parent -> 0 <= Period (cl_config c) -> h_Time parent + Period (cl_config c) < 2 ^ 63 -> 0 <= now < 2 ^ 63 ->
  Prepare cr evict put_ok fuel c chain now choice header = Ok (Good h, c1) ->
  prepared c s parent h /\ c1 = c0 /\ h_ParentHash h = h_ParentHash header /\ h_Number h = h_Number header.
Proof.
  intros Es Ep Hp0 Hp1 Hp2 Hnow. unfold Prepare. rewrite Es, Ep. cbn [obind]. destruct (snapshot_caches _ _ _ _ _ _ _ _ Es) as [(Ec & _ & Esig & _) _].
  rewrite Ec, Esig. set (number := u64 (h_Number header)). destruct (if negb _ : bool then _ else _) as [coinbase nonce] eqn:Ev.
  destruct (CalcDifficulty s (cl_signer c)) as [d| |] eqn:Ed; [|done..]. cbn [obind]. intros [= <- <-]. split; [|done].
  set (extra := take 32 _). assert (length extra = 32%nat) as Hx by (unfold extra; rewrite length_take, length_app, length_replicate; lia).
  split; cbn [h_Nonce h_Number h_Coinbase h_Extra h_MixDigest h_Difficulty h_Time]; fold number; [| | |done|exact Ed|].
  - destruct (negb _); [|by injection Ev as <- <-]. pose proof (pick_vote_nonce c0 s choice) as H. by rewrite Ev in H.
  - intros Hz. rewrite Hz in Ev. cbn [Z.eqb negb] in Ev. by injection Ev as <- <-.
  - exists extra, (replicate 65 Byte.x00). split; [done|]. split; [done|]. destruct (_ =? 0); [by rewrite <- app_assoc|done].
  - set (time := h_Time parent + Period (cl_config c)). assert (s64 time = time) as -> by (unfold s64; rewrite u64_id by lia; destruct (Z.ltb_spec time 9223372036854775808); lia).
    rewrite (u64_id (h_Time parent)) by lia. fold time. destruct (Z.ltb_spec time now); rewrite !u64_id; unfold time in *; lia.
Qed.

Lemma length_addresses l : (length (concat (map Address_Bytes l)) mod 20 = 0)%nat.
Proof.
  induction l as [|a l IH]; [done|]. cbn [map concat]. rewrite length_app. unfold Address_Bytes at 1. rewrite length_z2be. unfold AddressLength.
  change 20%nat with (1 * 20)%nat at 1. by rewrite Nat.add_comm, Nat.Div0.mod_add.
Qed.

Lemma prepared_fields c chain now h s parent : prepared c s parent h -> h_UncleHash h = CalcUncleHash cr [] -> h_Time h <= now ->
  VerifyForkHashes cr (chain_Config chain) h false = None -> check_fields cr c chain now h = None.
Proof.
  intros [Pn Pc (vanity & seal & Hv & Hl & Ex) Pm Pd Pt] Hu Hnow Hfork.
  set (number := u64 (h_Number h)) in *. set (cp := number mod Epoch (cl_config c) =? 0) in *.
  set (listed := if cp then concat (map Address_Bytes (signers s)) else []) in *.
  assert (length listed mod 20 = 0)%nat as Hm.
  { unfold listed. destruct cp; [apply length_addresses|done]. }
  assert (zlen (h_Extra h) = 97 + Z.of_nat (length listed)) as Hlen by (unfold zlen; rewrite Ex, !length_app; lia).
  assert (difficulty_known : h_Difficulty h = diffInTurn \/ h_Difficulty h = diffNoTurn).
  { unfold CalcDifficulty in Pd. destruct (inturn _ _ _) as [[]| |]; cbn in Pd; [injection Pd; auto..|done|done]. }
  assert (forall b : bool, (cp = true -> b = false) -> cp && b = false) as Hcp by (intros b; destruct cp; cbn; auto).
  assert (cp = true -> h_Coinbase h = 0 /\ h_Nonce h = nonceDropVote) as Pc' by (unfold cp; rewrite Z.eqb_eq; exact Pc).
  unfold check_fields. fold number. fold cp. rewrite Hlen, Pm, Hu, Hfork, !Z.eqb_refl. unfold extraVanity, extraSeal.
  rewrite (proj2 (Z.ltb_ge _ _) Hnow), Hcp by (intros Hc; by rewrite (proj1 (Pc' Hc))).
  assert (negb (bool_decide (h_Nonce h = nonceAuthVote)) && negb (bool_decide (h_Nonce h = nonceDropVote)) = false) as ->.
  { unfold vote_nonce in Pn. by destruct (bool_decide (h_Nonce h = nonceAuthVote)), (bool_decide (h_Nonce h = nonceDropVote)). }
  rewrite Hcp by (intros Hc; by rewrite (proj2 (Pc' Hc)), bool_decide_true).
  destruct (Z.ltb_spec (97 + Z.of_nat (length listed)) 32); [lia|]. destruct (Z.ltb_spec (97 + Z.of_nat (length listed)) (32 + 65)); [lia|].
  replace (97 + Z.of_nat (length listed) - 32 - 65) with (Z.of_nat (length listed)) by lia.
  assert (negb cp && negb (Z.of_nat (length listed) =? 0) = false) as -> by (unfold listed; by destruct cp).
  rewrite Hcp by (intros _; change 20 with (Z.of_nat 20); by rewrite <- Nat2Z.inj_mod, Hm). cbn [negb].
  assert (negb (h_Difficulty h =? diffInTurn) && negb (h_Difficulty h =? diffNoTurn) = false) as -> by (by destruct difficulty_known as [->| ->]).
  by rewrite andb_false_r.
Qed.

(** A prepared header signed by a signer that is not blocked is accepted. *)
Lemma prepared_verifies fuel c chain now h s parent :
  cl_recents c !! h_ParentHash h = Some s -> sn_Hash s = h_ParentHash h -> sn_Number s + 1 = u64 (h_Number h) -> 0 < u64 (h_Number h) ->
  GetHeader chain (h_ParentHash h) (u64 (u64 (h_Number h) - 1)) = Some parent ->
  u64 (h_Number parent) = u64 (u64 (h_Number h) - 1) -> Header_Hash cr parent = h_ParentHash h ->
  prepared c s parent h -> h_UncleHash h = CalcUncleHash cr [] -> h_Time h <= now ->
  VerifyForkHashes cr (chain_Config chain) h false = None ->
  recover_signer cr h = Good (cl_signer c) -> cl_signer c ∈ sn_Signers s -> signed_recently s (u64 (h_Number h)) (cl_signer c) = false ->
  exists c', verifyHeader cr evict put_ok (S fuel) c chain now h [] = Ok (None, c').
Proof.
  intros Ecache Ehash Enum Hpos Ep Epn Eph Hprep Hu Hnow Hfork Hrec Hin Hnr.
  pose proof (prepared_fields c chain now h s parent Hprep Hu Hnow Hfork) as Hfields.
  destruct Hprep as [_ _ (vanity & seal & Hv & Hl & Ex) _ Pd Pt].
  set (number := u64 (h_Number h)) in *. set (cp := number mod Epoch (cl_config c) =? 0) in *.
  unfold verifyHeader. rewrite Hfields. unfold verifyCascadingFields. fold number. destruct (Z.eqb_spec number 0); [lia|]. cbn [last].
  rewrite Ep, Epn, Eph, !Z.eqb_refl. cbn [negb orb]. rewrite (proj2 (Z.ltb_ge _ _) Pt).
  rewrite (snapshot_cached fuel c chain _ _ [] s Ecache). cbn [obind cl_config recents_Add]. fold cp.
  assert (cp && negb (bool_decide (take (length (h_Extra h) - 65 - 32) (drop 32 (h_Extra h)) = concat (map Address_Bytes (signers s)))) = false) as ->.
  { destruct cp eqn:Ecp; [|done]. rewrite bool_decide_true; [done|]. rewrite Ex, drop_app_length' by done. rewrite take_app_length'; [done|].
    rewrite !length_app. lia. }
  unfold verifySeal. fold number. destruct (Z.eqb_spec number 0); [lia|].
  rewrite (snapshot_cached fuel (recents_Add evict c s) chain _ _ [] s) by (by apply recents_Add_again). cbn [obind].
  eexists. unfold check_seal. fold number. rewrite Hrec, bool_decide_true, Hnr by done. cbn [negb recents_Add cl_fakeDiff].
  unfold CalcDifficulty in Pd. rewrite Enum, u64_id in Pd by apply u64_bounds. destruct (cl_fakeDiff c); [reflexivity|]. cbn [negb].
  destruct (inturn s number (cl_signer c)) as [turn| |]; [|done..]. cbn [obind] in *. injection Pd as Pd. rewrite <- Pd. by destruct turn.
Qed.

(** What finalising a block may change in a prepared header. *)
Record finalized (h h' : Header) : Prop := {
  fi_parent : h_ParentHash h' = h_ParentHash h;
  fi_uncles : h_UncleHash h' = CalcUncleHash cr [];
  fi_coinbase : h_Coinbase h' = h_Coinbase h;
  fi_difficulty : h_Difficulty h' = h_Difficulty h;
  fi_number : h_Number h' = h_Number h;
  fi_time : h_Time h' = h_Time h;
  fi_extra : h_Extra h' = h_Extra h;
  fi_mix : h_MixDigest h' = h_MixDigest h;
  fi_nonce : h_Nonce h' = h_Nonce h
}.

Lemma Seal_spec fuel c chain signFn h txs h' c' s : cl_recents c !! h_ParentHash h = Some s -> sn_Hash s = h_ParentHash h ->
  Seal cr evict put_ok (S fuel) c chain signFn h txs = Ok (Good (Some h'), c') ->
  u64 (h_Number h) <> 0 /\ c' = recents_Add evict c s /\ cl_signer c ∈ sn_Signers s /\
  signed_recently s (u64 (h_Number h)) (cl_signer c) = false /\ extraSeal <= zlen (h_Extra h) /\
  exists sig, signFn (cl_signer c) (Hash_Bytes (unsealed_hash cr h)) = Some sig /\
    h' = with_extra h (take (length (h_Extra h) - 65) (h_Extra h) ++ take 65 sig ++ drop (length sig) (drop (length (h_Extra h) - 65) (h_Extra h))).
Proof.
  intros Ecache Ehash. unfold Seal. destruct (Z.eqb_spec (u64 (h_Number h)) 0) as [|Hn]; [done|]. destruct (_ && _); [done|].
  rewrite (snapshot_cached fuel c chain _ _ [] s Ecache). cbn [obind recents_Add cl_signer]. case_bool_decide as Hin; [|done]. cbn [negb].
  destruct (existsb _ _) eqn:Er; [done|]. unfold sigHash. destruct (Z.ltb_spec (zlen (h_Extra h)) extraSeal) as [|Hx]; [done|]. cbn [obind].
  destruct (signFn _ _) as [sig|] eqn:Es; [|done]. intros [= <- <-]. split; [done|]. split; [done|]. split; [done|]. split; [|by eauto].
  apply not_true_iff_false. intros (k & Hkey & Hlt)%signed_recently_spec. apply not_true_iff_false in Er. apply Er, existsb_exists.
  exists (k, cl_signer c). split; [by apply list_elem_of_In, elem_of_map_to_list|]. cbn [fst snd]. rewrite Z.eqb_refl. cbn [andb].
  apply orb_true_iff. right. by apply Z.ltb_lt.
Qed.

(** The seal does not enter the hash that is signed. *)
Lemma seal_recovers h sig : extraSeal <= zlen (h_Extra h) -> length sig = 65%nat ->
  let h' := with_extra h (take (length (h_Extra h) - 65) (h_Extra h) ++ take 65 sig ++ drop (length sig) (drop (length (h_Extra h) - 65) (h_Extra h))) in
  h_Extra h' = take (length (h_Extra h) - 65) (h_Extra h) ++ sig /\ unsealed_hash cr h' = unsealed_hash cr h /\
  recover_signer cr h' = match secp256k1_recover cr (Hash_Bytes (unsealed_hash cr h)) sig with
    | None => Err errSignature | Some pubkey => Good (BytesToAddress (drop 12 (keccak256 cr (drop 1 pubkey)))) end.
Proof.
  intros Hx Hs h'. unfold extraSeal, zlen in Hx. assert (h_Extra h' = take (length (h_Extra h) - 65) (h_Extra h) ++ sig) as Ex.
  { unfold h'. cbn [h_Extra with_extra]. rewrite Hs, drop_drop. rewrite (drop_ge (h_Extra h)) by lia. by rewrite app_nil_r, (take_ge sig) by lia. }
  assert (length (h_Extra h') = length (h_Extra h)) as El by (rewrite Ex, length_app, length_take; lia).
  assert (unsealed_hash cr h' = unsealed_hash cr h) as Eu.
  { unfold unsealed_hash. rewrite El. replace (take (length (h_Extra h) - 65) (h_Extra h')) with (take (length (h_Extra h) - 65) (h_Extra h)); [done|].
    rewrite Ex, take_app_length'; [done|]. rewrite length_take. lia. }
  split; [done|]. split; [done|]. unfold recover_signer, extraSeal, zlen. rewrite Eu, El. destruct (Z.ltb_spec (Z.of_nat (length (h_Extra h))) 65); [lia|].
  replace (drop (length (h_Extra h) - 65) (h_Extra h')) with sig; [done|]. rewrite Ex, drop_app_length'; [done|]. rewrite length_take. lia.
Qed.

(** C13. A header that the engine prepares, that is finalised and then sealed by it passes its
    verification at any later time, checkpoints included. *)
Theorem sealed_header_verifies fuel c chain now choice header h1 c1 h2 signFn txs h3 c2 s c0 parent now'
    (Hsnap : snapshot cr evict put_ok (S fuel) c chain (u64 (u64 (h_Number header) - 1)) (h_ParentHash header) [] = Ok (Good s, c0))
    (Hhash : sn_Hash s = h_ParentHash header) (Hnum : sn_Number s + 1 = u64 (h_Number header))
    (Hparent : GetHeader chain (h_ParentHash header) (u64 (u64 (h_Number header) - 1)) = Some parent)
    (Hpn : u64 (h_Number parent) = u64 (u64 (h_Number header) - 1)) (Hph : Header_Hash cr parent = h_ParentHash header)
    (Htime : 0 <= h_Time parent) (Hperiod : 0 <= Period (cl_config c)) (Htmax : h_Time parent + Period (cl_config c) < 2 ^ 63)
    (Hclock : 0 <= now < 2 ^ 63)
    (Hprep : Prepare cr evict put_ok (S fuel) c chain now choice header = Ok (Good h1, c1)) (Hfin : finalized h1 h2)
    (Hseal : Seal cr evict put_ok (S fuel) c1 chain signFn h2 txs = Ok (Good (Some h3), c2))
    (Hsign : forall hash sig, signFn (cl_signer c) hash = Some sig -> length sig = 65%nat /\ exists pub,
       secp256k1_recover cr hash sig = Some pub /\ BytesToAddress (drop 12 (keccak256 cr (drop 1 pub))) = cl_signer c)
    (Hfork : VerifyForkHashes cr (chain_Config chain) h3 false = None) (Hnow : h_Time h3 <= now') :
  exists c3, verifyHeader cr evict put_ok (S fuel) c2 chain now' h3 [] = Ok (None, c3).
Proof.
  destruct (Prepare_prepared _ _ _ _ _ _ _ _ _ _ _ Hsnap Hparent Htime Hperiod Htmax Hclock Hprep) as (Hpr & -> & Ep1 & En1).
  destruct (snapshot_caches _ _ _ _ _ _ _ _ Hsnap) as [(Ec & _ & Esig & _) Ecache]. rewrite Hhash in Ecache. destruct Hfin as [F1 F2 F3 F4 F5 F6 F7 F8 F9].
  destruct (Seal_spec fuel c0 chain signFn h2 txs h3 c2 s) as (Hn0 & -> & Hin & Hnr & Hx & sig & Es & ->); [congruence|congruence|done|].
  rewrite Esig in *. destruct (Hsign _ _ Es) as (Hlen & pub & Hrec & Haddr). destruct (seal_recovers h2 sig Hx Hlen) as (Ex & _ & Er). rewrite Hrec, Haddr in Er.
  set (h3 := with_extra h2 _) in *. assert (h_Number h3 = h_Number header /\ h_ParentHash h3 = h_ParentHash header) as [En3 Ep3] by (cbn; split; congruence).
  pose proof (u64_bounds (h_Number header)). rewrite F5, En1 in *.
  eapply (prepared_verifies fuel _ chain now' h3 s parent); rewrite ?En3, ?Ep3; cbn [cl_signer recents_Add]; rewrite ?Esig; try done.
  - by apply recents_Add_again.
  - lia.
  - destruct Hpr as [Pn Pc (vanity & seal & Hv & Hl & Exx) Pm Pd Pt].
    split; rewrite ?En3; cbn [cl_signer cl_config recents_Add]; rewrite ?Ec, ?Esig.
    + cbn [h_Nonce h3 with_extra]. by rewrite F9.
    + rewrite En1 in Pc. cbn [h_Nonce h_Coinbase h3 with_extra]. by rewrite F9, F3.
    + exists vanity, sig. split; [done|]. split; [done|]. rewrite Ex, F7, Exx, En1. rewrite app_assoc. rewrite take_app_length'; [by rewrite app_assoc|].
      rewrite !length_app. lia.
    + cbn. congruence.
    + cbn. congruence.
    + cbn. by rewrite F6.
Qed.
End chain.

(** ** Examples *)

Definition poa_genesis : Header :=
  mkHeader 0 (CalcUncleHash seal_crypto []) 0 0 0 0 (replicate 256 Byte.x00) 1 0 8000000 0 1500000000
    (replicate 32 Byte.x00 ++ Address_Bytes (seal_address 1) ++ replicate 65 Byte.x00) 0 nonceDropVote.
Definition poa_chain : ChainReader := {|
  chain_Config := AllCliqueProtocolChanges;
  GetHeader h n := if bool_decide (Header_Hash seal_crypto poa_genesis = h) && (n =? 0) then Some poa_genesis else None;
  GetHeaderByNumber n := if n =? 0 then Some poa_genesis else None;
  GetBlock _ _ := None
|}.
Definition poa_engine : CliqueEngine := Authorize (Clique_New seal_config ∅) (seal_address 1).
Definition poa_sign (_ : Address) (_ : list byte) : option (list byte) := Some (z2b 1 :: replicate 64 Byte.x00).
Definition poa_header : Header := mkHeader (Header_Hash seal_crypto poa_genesis) (CalcUncleHash seal_crypto []) 9 0 0 0 (replicate 256 Byte.x00) 0 1 8000000 0 0 [] 5 [].

(** Block 1 votes for a second signer. *)
Definition poa_vote : Header :=
  mkHeader (Header_Hash seal_crypto poa_genesis) (CalcUncleHash seal_crypto []) (seal_address 5) 0 0 0 (replicate 256 Byte.x00) 2 1 8000000 0 1500000015
    (replicate 32 Byte.x00 ++ z2b 1 :: replicate 64 Byte.x00) 0 nonceAuthVote.
Definition poa_known (h : Header) : Prop := h = poa_genesis \/ h = poa_vote.

Lemma poa_names : hash_names seal_crypto poa_known.
Proof.
  assert (Header_Hash seal_crypto poa_genesis <> Header_Hash seal_crypto poa_vote) as Hne by (vm_compute; discriminate).
  intros h1 h2 [->| ->] [->| ->] E; try reflexivity; exfalso; [exact (Hne E)|exact (Hne (eq_sym E))].
Qed.

Lemma poa_chain_sound : chain_sound seal_crypto poa_known poa_chain.
Proof.
  split.
  - intros h n hd. cbn [GetHeader poa_chain]. case_bool_decide as Eh; [|done]. destruct (Z.eqb_spec n 0) as [->|]; [|done]. intros [= <-].
    split; [done|]. split; [done|]. by left.
  - exists poa_genesis, [seal_address 1]. split; [done|]. vm_compute. reflexivity.
  - intros n hd Hn. cbn [GetHeaderByNumber poa_chain]. destruct (Z.eqb_spec n 0); [lia|done].
Qed.

Lemma poa_replay : match snapshot seal_crypto id (fun _ => true) 2 poa_engine poa_chain 1 (Header_Hash seal_crypto poa_vote) [poa_vote] with
  | Ok (Good s, _) => (sn_Number s =? 1) && bool_decide (sn_Signers s = {[seal_address 1; seal_address 5]}) | _ => false end = true.
Proof. vm_compute. reflexivity. Qed.

(** The vote is replayed on the signer of the genesis block. *)
Lemma snapshot_replays_witness : exists s c',
  snapshot seal_crypto id (fun _ => true) 2 poa_engine poa_chain 1 (Header_Hash seal_crypto poa_vote) [poa_vote] = Ok (Good s, c') /\
  coherent seal_crypto poa_known c' poa_chain /\ sn_Signers s = {[seal_address 1; seal_address 5]} /\
  forall s', snapshot_of seal_crypto poa_known seal_config poa_chain 1 (Header_Hash seal_crypto poa_vote) s' -> s' = s.
Proof.
  destruct (snapshot_replays seal_crypto poa_known id (fun _ => true) ltac:(done) poa_chain 2 poa_engine 1 (Header_Hash seal_crypto poa_vote) [poa_vote]
    poa_chain_sound) as (r & c' & E & Hc & Hr).
  - intros h s. cbn [cl_recents cl_db poa_engine Authorize Clique_New]. intros [H|H]; rewrite lookup_empty in H; discriminate H.
  - split; [lia|reflexivity].
  - apply Nat.lt_1_2.
  - constructor; [by right|constructor].
  - pose proof poa_replay as Hv. rewrite E in Hv. destruct r as [s|]; [|discriminate Hv].
    apply andb_true_iff in Hv as [Hn%Z.eqb_eq Hs%bool_decide_eq_true]. exists s, c'. split; [exact E|]. split; [exact Hc|]. split; [exact Hs|].
    destruct (Hr s eq_refl) as (_ & _ & Hu). rewrite Hn in Hu. exact (Hu poa_names).
Defined.

Lemma poa_snapshot : match snapshot seal_crypto id (fun _ => true) 1 poa_engine poa_chain (u64 (u64 (h_Number poa_header) - 1)) (h_ParentHash poa_header) [] with
  | Ok (Good s, _) => (sn_Hash s =? h_ParentHash poa_header) && (sn_Number s + 1 =? u64 (h_Number poa_header)) | _ => false end = true.
Proof. vm_compute. reflexivity. Qed.

Lemma poa_seal : match Prepare seal_crypto id (fun _ => true) 1 poa_engine poa_chain 1500000020 0 poa_header with
  | Ok (Good h1, c1) =>
      (h_UncleHash h1 =? CalcUncleHash seal_crypto []) &&
      match Seal seal_crypto id (fun _ => true) 1 c1 poa_chain poa_sign h1 1 with
      | Ok (Good (Some h3), _) =>
          match VerifyForkHashes seal_crypto (chain_Config poa_chain) h3 false with None => h_Time h3 <=? 1500000030 | Some _ => false end
      | _ => false
      end
  | _ => false
  end = true.
Proof. vm_compute. reflexivity. Qed.

Lemma poa_parent : GetHeader poa_chain (h_ParentHash poa_header) (u64 (u64 (h_Number poa_header) - 1)) = Some poa_genesis.
Proof. vm_compute. reflexivity. Qed.

Lemma poa_numbers : u64 (h_Number poa_genesis) = u64 (u64 (h_Number poa_header) - 1) /\ Header_Hash seal_crypto poa_genesis = h_ParentHash poa_header.
Proof. split; vm_compute; reflexivity. Qed.

Lemma poa_signs hash sig : poa_sign (cl_signer poa_engine) hash = Some sig -> length sig = 65%nat /\ exists pub,
  secp256k1_recover seal_crypto hash sig = Some pub /\ BytesToAddress (drop 12 (keccak256 seal_crypto (drop 1 pub))) = cl_signer poa_engine.
Proof. intros [= <-]. split; [reflexivity|]. eexists. split; [reflexivity|]. vm_compute. reflexivity. Qed.

Lemma sealed_header_verifies_witness : exists h1 c1 h3 c2 c3,
  Prepare seal_crypto id (fun _ => true) 1 poa_engine poa_chain 1500000020 0 poa_header = Ok (Good h1, c1) /\
  Seal seal_crypto id (fun _ => true) 1 c1 poa_chain poa_sign h1 1 = Ok (Good (Some h3), c2) /\
  verifyHeader seal_crypto id (fun _ => true) 1 c2 poa_chain 1500000030 h3 [] = Ok (None, c3).
Proof.
  pose proof poa_snapshot as Hs. pose proof poa_seal as Hl.
  destruct (snapshot seal_crypto id (fun _ => true) 1 poa_engine poa_chain (u64 (u64 (h_Number poa_header) - 1)) (h_ParentHash poa_header) [])
    as [[[s|] c0]| |] eqn:Es; [|discriminate Hs..]. apply andb_true_iff in Hs as [Hh%Z.eqb_eq Hn%Z.eqb_eq].
  destruct (Prepare seal_crypto id (fun _ => true) 1 poa_engine poa_chain 1500000020 0 poa_header)
    as [[[h1|] c1]| |] eqn:Ep; [|discriminate Hl..]. apply andb_true_iff in Hl as [Hu%Z.eqb_eq Hl].
  destruct (Seal seal_crypto id (fun _ => true) 1 c1 poa_chain poa_sign h1 1) as [[[[h3|]|] c2]| |] eqn:El; [|discriminate Hl..].
  destruct (VerifyForkHashes seal_crypto (chain_Config poa_chain) h3 false) eqn:Ef; [discriminate Hl|]. apply Z.leb_le in Hl.
  destruct (sealed_header_verifies seal_crypto id (fun _ => true) 0 poa_engine poa_chain 1500000020 0 poa_header h1 c1 h1 poa_sign 1 h3 c2 s c0 poa_genesis 1500000030
    Es Hh Hn poa_parent (proj1 poa_numbers) (proj2 poa_numbers)) as (c3 & Hc3); [..|exact Ep|split; [reflexivity|exact Hu|reflexivity..]|exact El|exact poa_signs|exact Ef|exact Hl|].
  - discriminate.
  - discriminate.
  - reflexivity.
  - split; [discriminate|reflexivity].
  - exists h1, c1, h3, c2, c3. split; [reflexivity|]. split; [exact El|exact Hc3].
Defined.
