(* ===== verification/VmFunctional.v ===== *)
(** * What single operations of the machine compute

    The price of memory, the gas handed to a call, two's complement arithmetic,
    and the input slice of the signature recovery. *)
From S2P Require Import Prelude CommonMath Params Opcodes VmBase VmInterface VmLaws Precompiles GasTable Evm.
From S2P Require Import Instructions VmInvariant GasFacts.
From stdpp Require Import base numbers list gmap.
From Stdlib Require Import ZArith Lia.
#[local] Open Scope Z_scope.
#[local] Ltac Zify.zify_post_hook ::= Z.to_euclidean_division_equations.

(** ** Memory *)

(** The price of a memory of [w] words, in exact arithmetic. *)
Definition memory_price (w : Z) : Z := 3 * w + w * w / 512.

(** Sizes whose number of words has a square below [2 ^ 64]. *)
Definition exact_memory : Z := 0x1fffffffe0.

Lemma memory_price_fits w : 0 <= w <= 4294967295 -> mem_fee w = memory_price w.
Proof.
  intros Hw. unfold mem_fee, memory_price. autounfold with params.
  assert (0 <= w * w <= 18446744065119617025) by nia.
  rewrite (u64_small (w * w)) by (unfold is_u64, MaxUint64; lia).
  pose proof (Z.div_pos (w * w) 512 ltac:(lia) ltac:(lia)). pose proof (Z.div_le_upper_bound (w * w) 512 36028797018963968 ltac:(lia) ltac:(lia)).
  rewrite (u64_small (w * 3)) by (unfold is_u64, MaxUint64; lia).
  rewrite u64_small by (unfold is_u64, MaxUint64; lia). lia.
Qed.

(** Expanding memory to at most [0x1fffffffe0] bytes costs exactly the
    difference of the quadratic prices of the new and the old number of words,
    and nothing if the memory is large enough already. *)
Theorem memoryGasCost_exact mem size : mem_ok mem -> 0 <= size <= exact_memory ->
  exists mem', memoryGasCost mem size =
    Good (memory_price (Z.max (toWordSize size) (mem_Len mem / 32)) - memory_price (mem_Len mem / 32), mem') /\ store mem' = store mem.
Proof.
  intros [Hw Hb Hf] Hs. unfold exact_memory in Hs. pose proof (mem_Len_nonneg mem) as Hl. unfold memoryGasCost.
  assert (toWordSize size = (size + 31) / 32) as -> by (unfold toWordSize, MaxUint64; zdestruct; lia).
  destruct (Z.eqb_spec size 0) as [->|Hn]; [exists mem; rewrite Z.max_r by lia; split; [do 2 f_equal; lia|done]|].
  rewrite (proj2 (Z.ltb_ge _ _)) by lia. rewrite (u64_small (_ * 32)) by (unfold is_u64, MaxUint64; lia).
  destruct (Z.ltb_spec (mem_Len mem) ((size + 31) / 32 * 32)) as [Hlt|Hge].
  - rewrite Z.max_l by lia. rewrite Hf, (memory_price_fits (mem_Len mem / 32)) by lia.
    set (w := (size + 31) / 32) in *. fold (mem_fee w). rewrite (memory_price_fits w) by lia.
    rewrite u64_small; [eexists; by split|]. unfold memory_price, is_u64, MaxUint64. nia.
  - exists mem. rewrite Z.max_r by lia. split; [do 2 f_equal; lia|done].
Qed.

Lemma memoryGasCost_exact_witness : exists mem', memoryGasCost NewMemory 1000 = Good (98, mem') /\ store mem' = [].
Proof.
  destruct (memoryGasCost_exact NewMemory 1000 ltac:(by split) ltac:(by split)) as (mem' & E & Es).
  exists mem'. split; [rewrite E; vm_compute; reflexivity|exact Es].
Defined.

(** Above that size the guard of [memoryGasCost] is too weak: it lets
    [2 ^ 37] bytes through although the square of the number of words is
    [2 ^ 64], and the quadratic part of the price vanishes. *)
Theorem memoryGasCost_wraps : exists mem',
  memoryGasCost NewMemory (2 ^ 37) = Good (12884901888, mem') /\ memory_price (2 ^ 37 / 32) = 12884901888 + 2 ^ 55.
Proof. eexists. split; vm_compute; reflexivity. Qed.

(** ** The gas of a call *)

(** "All but one 64th" of [g]. *)
Definition all_but_one_64th (g : Z) : Z := g - g / 64.

(** The gas handed to a call: from the repricing of EIP-150 on it is what
    was asked for, capped at all but one 64th of what is left after the base cost,
    and never an error; before, it is what was asked for, an error exactly when
    that does not fit a [uint64]. *)
Theorem callGas_exact gt available base cost : 0 <= base <= available -> available <= MaxUint64 -> 0 <= cost ->
  callGas gt available base cost =
    if 0 <? gt_CreateBySuicide gt then Good (Z.min cost (all_but_one_64th (available - base)))
    else if cost <=? MaxUint64 then Good cost else Err errGasUintOverflow.
Proof.
  intros Hb Ha Hc. unfold callGas, all_but_one_64th.
  assert ((64 <? BitLen cost) = negb (cost <=? MaxUint64)) as ->.
  { pose proof (BitLen_le cost 64 ltac:(lia)) as Hbl. rewrite Z.abs_eq in Hbl by done. unfold MaxUint64.
    change (2 ^ 64) with 18446744073709551616 in Hbl. zdestruct; cbn; lia. }
  rewrite (u64_small (available - base)) by (unfold is_u64; lia).
  rewrite u64_small by (unfold is_u64; lia).
  destruct (Z.leb_spec cost MaxUint64) as [Hfit|Hbig]; cbn [negb orb].
  - assert (big_Uint64 cost = cost) as ->. { unfold big_Uint64. rewrite Z.abs_eq by done. by apply u64_small. }
    destruct (0 <? gt_CreateBySuicide gt); [|done]. zdestruct; f_equal; lia.
  - destruct (0 <? gt_CreateBySuicide gt); [|done]. f_equal. lia.
Qed.

Lemma callGas_exact_witness : callGas GasTableEIP158 10000 700 100000 = Good (Z.min 100000 (all_but_one_64th (10000 - 700))).
Proof. apply (callGas_exact GasTableEIP158 10000 700 100000); by vm_compute. Defined.

(** ** Two's complement *)

Lemma S256_range x : is_word x -> - 2 ^ 255 <= S256 x < 2 ^ 255.
Proof.
  unfold is_word, two256, S256, tt255, tt256. change (2 ^ 256) with (2 * 2 ^ 255). generalize (2 ^ 255). intros p ?.
  destruct (Z.ltb_spec x p); lia.
Qed.

Lemma U256_S256 x : is_word x -> U256 (S256 x) = x.
Proof.
  intros Hx. rewrite U256_mod. unfold S256, tt256. zdestruct; [by apply Z.mod_small|].
  fold two256. replace (x - two256) with (x + (-1) * two256) by lia. rewrite Z.mod_add by done. by apply Z.mod_small.
Qed.

(** Splits on the signs of two non-zero integers and drops [Z.abs] and [Z.sgn]. *)
Ltac case_signs a b :=
  destruct (Z.lt_ge_cases a 0), (Z.lt_ge_cases b 0);
  rewrite ?(Z.sgn_neg a), ?(Z.sgn_neg b), ?(Z.sgn_pos a), ?(Z.sgn_pos b),
    ?(Z.abs_eq a), ?(Z.abs_eq b), ?(Z.abs_neq a), ?(Z.abs_neq b) by lia;
  cbn [Z.eqb Z.ltb Z.compare Pos.compare Pos.compare_cont Pos.eqb negb orb].

Lemma sdiv_spec x y : sdiv x y = U256 (Z.quot (S256 x) (S256 y)).
Proof.
  unfold sdiv. set (a := S256 x). set (b := S256 y). clearbody a b.
  destruct (Z.eq_dec b 0) as [->|Hb]; [by rewrite Z.quot_0_r_ext|]. destruct (Z.eq_dec a 0) as [->|Ha].
  { rewrite Z.quot_0_l by done. by rewrite orb_true_r. }
  unfold Sign. rewrite <- (Z.quot_div_nonneg (Z.abs a) (Z.abs b)) by lia. case_signs a b.
  all: rewrite ?Z.quot_opp_opp, ?Z.quot_opp_l, ?Z.quot_opp_r, ?Z.opp_involutive by lia; done.
Qed.

Lemma smod_spec x y : smod x y = if S256 y =? 0 then 0 else U256 (Z.rem (S256 x) (S256 y)).
Proof.
  unfold smod. set (a := S256 x). set (b := S256 y). clearbody a b. unfold Sign.
  destruct (Z.eqb_spec b 0) as [->|Hb]; [done|]. destruct (Z.eq_dec a 0) as [->|Ha].
  { rewrite Z.rem_0_l by done. rewrite (proj2 (Z.eqb_neq (Z.sgn b) 0)) by lia. cbn [Z.sgn Z.ltb Z.compare Z.abs]. by rewrite Z.mod_0_l by lia. }
  rewrite <- (Z.rem_mod_nonneg (Z.abs a) (Z.abs b)) by lia. case_signs a b.
  all: rewrite ?Z.rem_opp_l, ?Z.rem_opp_r, ?Z.opp_involutive by lia; done.
Qed.

Lemma slt_spec x y : is_word x -> is_word y -> slt x y = z_of_bool (S256 x <? S256 y).
Proof.
  unfold is_word, two256, slt, S256, tt255, tt256. change (2 ^ 256) with (2 * 2 ^ 255). generalize (2 ^ 255). intros p Hx Hy.
  unfold z_of_bool. zdestruct; cbn; lia.
Qed.

Lemma sgt_spec x y : is_word x -> is_word y -> sgt x y = z_of_bool (S256 y <? S256 x).
Proof.
  unfold is_word, two256, sgt, S256, tt255, tt256. change (2 ^ 256) with (2 * 2 ^ 255). generalize (2 ^ 255). intros p Hx Hy.
  unfold z_of_bool. zdestruct; cbn; lia.
Qed.

Lemma sar_spec shift v : is_word shift -> is_word v -> sar shift v = U256 (S256 v / 2 ^ shift).
Proof.
  intros Hs Hv. unfold sar. rewrite U256_id by done. pose proof (S256_range v Hv) as Hr.
  destruct (Z.leb_spec 256 shift) as [Hbig|Hsmall].
  - f_equal. assert (2 ^ 256 <= 2 ^ shift) by (apply Z.pow_le_mono_r; lia). assert (2 ^ 256 = 2 * 2 ^ 255) by done.
    unfold Sign. destruct (Z.leb_spec 0 (Z.sgn (S256 v))).
    + symmetry. apply Z.div_small. lia.
    + apply Z.div_unique with (S256 v + 2 ^ shift); lia.
  - f_equal. unfold big_Uint64. rewrite Z.abs_eq by apply Hs. rewrite u64_small by (unfold is_u64, MaxUint64, is_word in *; lia).
    apply Z.shiftr_div_pow2, Hs.
Qed.

(** The low [w] bits of [x] read in two's complement. *)
Definition sign_extended (w x : Z) : Z := (x + 2 ^ (w - 1)) mod 2 ^ w - 2 ^ (w - 1).

Lemma lor_ones x b : 0 <= b -> Z.lor x (Z.lnot (Z.ones b)) = x mod 2 ^ b - 2 ^ b.
Proof.
  intros Hb. rewrite <- (Z.lnot_involutive (Z.lor _ _)), Z.lnot_lor, Z.lnot_involutive, Z.land_ones by done.
  pose proof (Z.pow_pos_nonneg 2 b ltac:(lia) Hb) as Hp. unfold Z.lnot. pose proof (Z.div_mod x (2 ^ b) ltac:(lia)).
  pose proof (Z.mod_pos_bound x (2 ^ b) Hp).
  rewrite <- (Z.mod_unique (Z.pred (- x)) (2 ^ b) (- (x / 2 ^ b) - 1) (2 ^ b - 1 - x mod 2 ^ b)); lia.
Qed.

Lemma mod_twice n P q r : 0 < P -> 0 <= r < P -> n = P * q + r -> (n + P) mod (2 * P) - P = if Z.odd q then r - P else r.
Proof.
  intros HP Hr Hn. destruct (Z.odd q) eqn:Eo.
  - apply Z.odd_spec in Eo as [k ->]. rewrite <- (Z.mod_unique (n + P) (2 * P) (k + 1) r); [done|lia|]. rewrite Hn. ring.
  - rewrite <- Z.negb_even, negb_false_iff in Eo. apply Z.even_spec in Eo as [k ->].
    rewrite <- (Z.mod_unique (n + P) (2 * P) k (P + r)); [lia|lia|]. rewrite Hn. ring.
Qed.

Lemma signextend_spec back num : 0 <= back < 31 -> is_word num -> signextend back num = U256 (sign_extended (8 * back + 8) num).
Proof.
  intros Hb Hn. unfold signextend, sign_extended. assert (big_Uint64 back = back) as ->.
  { unfold big_Uint64. rewrite Z.abs_eq by lia. apply u64_small. unfold is_u64, MaxUint64. lia. }
  rewrite u64_small by (unfold is_u64, MaxUint64; lia). replace (8 * back + 8 - 1) with (back * 8 + 7) by lia.
  replace (8 * back + 8) with (Z.succ (back * 8 + 7)) by lia. set (b := back * 8 + 7). assert (0 <= b) as Hb0 by lia. f_equal.
  rewrite Z.shiftl_1_l. replace (2 ^ b - 1) with (Z.ones b) by (rewrite Z.ones_equiv; lia). rewrite Z.land_ones by done.
  rewrite Z.pow_succ_r by done. pose proof (Z.pow_pos_nonneg 2 b ltac:(lia) Hb0) as Hp.
  rewrite (mod_twice num (2 ^ b) (num / 2 ^ b) (num mod 2 ^ b)); [|done|by apply Z.mod_pos_bound|apply Z.div_mod; lia].
  unfold big_Bit. rewrite <- Z.shiftr_div_pow2, <- Z.bit0_odd, Z.shiftr_spec by done. rewrite Z.add_0_l. destruct (Z.testbit num b); [by apply lor_ones|done].
Qed.

(** The signed instructions compute in two's complement: quotient and
    remainder truncate towards zero (and are 0 when dividing by 0), comparison,
    arithmetic shift and sign extension are those of the signed values; the one
    quotient that does not fit, [-2^255 / -1], wraps around. *)
Theorem signed_arithmetic x y : is_word x -> is_word y ->
  sdiv x y = U256 (Z.quot (S256 x) (S256 y)) /\
  smod x y = (if S256 y =? 0 then 0 else U256 (Z.rem (S256 x) (S256 y))) /\
  slt x y = z_of_bool (S256 x <? S256 y) /\
  sgt x y = z_of_bool (S256 y <? S256 x) /\
  sar x y = U256 (S256 y / 2 ^ x) /\
  (x < 31 -> signextend x y = U256 (sign_extended (8 * x + 8) y)).
Proof.
  intros Hx Hy. split; [apply sdiv_spec|]. split; [apply smod_spec|]. split; [by apply slt_spec|]. split; [by apply sgt_spec|].
  split; [by apply sar_spec|]. intros Hl. apply signextend_spec; [|done]. split; [apply Hx|done].
Qed.

Lemma signed_arithmetic_witness :
  sdiv (2 ^ 255) (2 ^ 256 - 1) = U256 (Z.quot (S256 (2 ^ 255)) (S256 (2 ^ 256 - 1))) /\ sdiv (2 ^ 255) (2 ^ 256 - 1) = 2 ^ 255.
Proof. split; [|by vm_compute].
  exact (proj1 (signed_arithmetic (2 ^ 255) (2 ^ 256 - 1) ltac:(by vm_compute) ltac:(by vm_compute))).
 Defined.

(** ** The input of the signature recovery *)

Lemma slice_length {A} (l : list A) lo hi r : slice l lo hi = Ok r -> length r = Z.to_nat (hi - lo).
Proof.
  unfold slice. destruct (Z.leb_spec 0 lo), (Z.leb_spec lo hi), (Z.leb_spec hi (zlen l)); cbn; try done.
  intros [= <-]. unfold zlen in *. rewrite length_take, length_drop. lia.
Qed.

(** The signature ends with the recovery id. *)
Lemma ecrecover_args_v input hash sig : ecrecover_args input = Ok (Some (hash, sig)) ->
  exists v, (v = z2b 0 \/ v = z2b 1) /\ sig !! 64%nat = Some v.
Proof.
  unfold ecrecover_args. set (inp := RightPadBytes _ _).
  destruct (slice inp 64 96) as [rb| |], (slice inp 96 128) as [sb| |], (slice inp 63 64) as [vb| |], (slice inp 32 63) as [pad| |],
    (slice inp 0 32) as [h| |], (slice inp 64 128) as [sg| |] eqn:Es; cbn [obind]; try done.
  destruct (_ || _) eqn:Eok; [done|]. intros [= -> <-]. apply orb_false_iff in Eok as [_ Hv]. apply negb_false_iff in Hv.
  exists (z2b ((be2z vb - 27) mod 256)). split.
  - unfold ValidateSignatureValues in Hv. destruct (_ || _); [done|]. cbn [andb] in Hv. apply andb_true_iff in Hv as [_ Hv].
    apply orb_true_iff in Hv as [->%Z.eqb_eq| ->%Z.eqb_eq]; auto.
  - apply slice_length in Es. rewrite lookup_app_r by (rewrite Es; done). by rewrite Es.
Qed.

(** [ecrecover] uses 128 bytes, but when the caller's input is longer and
    the signature values are acceptable it overwrites byte 128 of that input
    with the recovery id; every other byte keeps its value. *)
Theorem ecrecover_clobbers input hash sig : ecrecover_args input = Ok (Some (hash, sig)) -> 128 < zlen input ->
  exists v after, (v = z2b 0 \/ v = z2b 1) /\ ecrecover_input_after input = Ok after /\
    after !! 128%nat = Some v /\ length after = length input /\ forall i, i <> 128%nat -> after !! i = input !! i.
Proof.
  intros E Hl. destruct (ecrecover_args_v _ _ _ E) as (v & Hv & Es). exists v, (<[128%nat := v]> input). split; [done|].
  unfold ecrecover_input_after. rewrite E. cbn [obind]. rewrite (proj2 (Z.ltb_lt _ _)) by done. rewrite Es. split; [done|].
  split; [apply list_lookup_insert_eq; unfold zlen in Hl; lia|]. split; [apply length_insert|].
  intros i Hi. by apply list_lookup_insert_ne.
Qed.

(** A signature with [v = 28] and [r = s = 1], followed by a byte of the caller. *)
Definition long_input : list byte :=
  replicate 63 Byte.x00 ++ [Byte.x1c] ++ replicate 31 Byte.x00 ++ [Byte.x01] ++ replicate 31 Byte.x00 ++ [Byte.x01] ++ [Byte.xff].

Lemma ecrecover_clobbers_witness : exists after, ecrecover_input_after long_input = Ok after /\ after !! 128%nat = Some Byte.x01.
Proof.
  destruct (ecrecover_args long_input) as [[[hash sig]|]| |] eqn:E; [|vm_compute in E; discriminate E..].
  destruct (ecrecover_clobbers long_input hash sig E ltac:(by vm_compute)) as (v & after & Hv & Ea & Hat & _). exists after.
  split; [exact Ea|]. rewrite Hat. f_equal. vm_compute in Ea. injection Ea as <-. vm_compute in Hat. by injection Hat as <-.
Defined.
