(* ===== verification/StateStatic.v ===== *)
(** * Static calls change nothing

    The execution of [STATICCALL] from Byzantium on, over [kernel/state]: no
    balance, nonce, code, storage slot, log or refund changes.  (An account that
    did not exist may be touched into an empty one.) *)
From S2P Require Import Prelude CommonMath Params Opcodes VmBase VmInterface VmLaws Precompiles Evm GasTable.
From S2P Require Import Instructions JumpTable Interpreter VmInvariant EvmFacts CallFacts InterpreterFacts.
From S2P Require Import StateAccount StateModel StateFacts StateInstance MemDb.
From stdpp Require Import base numbers list gmap.
From Stdlib Require Import ZArith Lia.
#[local] Open Scope Z_scope.

(** The zero hash opens an empty storage trie. *)
Class EmptyTrieLaw (D T : Type) `{Database D T} : Prop :=
  empty_trie_value : forall d h k,
    trie_value (match OpenStorageTrie d h 0 with Good t => t | Err _ => OpenEmptyTrie d h end : T) k = 0.

Section static.
Context {D T : Type} `{Database D T} `{!EmptyTrieLaw D T} (cr : Crypto) (Hk : forall d, zlen (keccak256 cr d) = 32).
Import State.
Local Abbreviation SDB := (@State.StateDB D T).
Local Abbreviation stateObject := (@State.stateObject T).
#[local] Hint Extern 0 (VmInterface.StateDB _) => exact (state_db cr) : typeclass_instances.

(** What an account holds: nonce, balance, code and a slot of its storage. *)
Definition object_holds (d : D) (o : stateObject) (k : Hash) : Z * Z * list byte * Hash :=
  (Nonce (data o), Balance (data o), codev cr d o, current d o k).
Definition holds (s : SDB) (a : Address) (k : Hash) : Z * Z * list byte * Hash :=
  (VmInterface.GetNonce s a, VmInterface.GetBalance s a, VmInterface.GetCode s a, VmInterface.GetState s a k).

(** Accounts, logs and refund as before. *)
Record same_world (s s' : SDB) : Prop := {
  sw_holds : forall a k, holds s' a k = holds s a k;
  sw_logs : forall h, GetLogs s' h = GetLogs s h;
  sw_refund : GetRefund s' = GetRefund s
}.

#[export] Instance same_world_preorder : PreOrder same_world.
Proof.
  split; [by split|]. intros s1 s2 s3 [A1 L1 R1] [A2 L2 R2]. split; intros; [by rewrite A2|by rewrite L2|by rewrite R2].
Qed.

Lemma GetNonce_spec (s : SDB) a : VmInterface.GetNonce s a = from_option (fun o => Nonce (data o)) 0 (lookup_object cr s a).
Proof.
  cbn. unfold State.GetNonce. destruct (getStateObject_loads cr s a) as [E _].
  destruct (getStateObject cr s a) as [x s1]; cbn in *. subst. by destruct (lookup_object cr s a).
Qed.

Lemma holds_new (s : SDB) a k : holds s a k = object_holds (db s) (get_or_new cr s a) k.
Proof.
  unfold holds. rewrite GetNonce_spec, (GetBalance_spec cr), (GetCode_spec cr), (GetState_spec cr). unfold get_or_new.
  destruct (lookup_object cr s a) as [o|]; cbn [from_option]; [done|]. unfold object_holds. cbn. f_equal; [f_equal|].
  - unfold codev. cbn. by rewrite bool_decide_eq_true_2.
  - symmetry. exact (empty_trie_value (db s) _ k).
Qed.

Lemma acts_same (s s' : SDB) a g : acts cr s s' a g -> (forall k, object_holds (db s) g k = object_holds (db s) (get_or_new cr s a) k) ->
  same_world s s'.
Proof.
  intros A Hg. destruct (ac_frame _ _ _ _ _ A) as (Ed & _ & Er & _ & _ & _ & El & _). split; [|intros h; unfold GetLogs; by rewrite El|done].
  intros b k. destruct (decide (b = a)) as [->|Hb].
  - rewrite (holds_new s), <- Hg, (holds_new s'). unfold get_or_new. pose proof (ac_at _ _ _ _ _ A) as Ha.
    destruct (lookup_object cr s' a) as [o|]; [|done]. rewrite Ed.
    change (default _ (Some o)) with o. unfold object_holds.
    by rewrite (oe_nonce _ _ _ _ Ha), (oe_balance _ _ _ _ Ha), (oe_code _ _ _ _ Ha), (oe_current _ _ _ _ Ha).
  - rewrite !holds_new. unfold get_or_new. by rewrite (ac_other _ _ _ _ _ A), Ed.
Qed.

Lemma state_eq_same (s s' : SDB) : state_eq cr s s' -> same_world s s'.
Proof.
  intros Heq. split; [|apply Heq|apply Heq]. intros a k. unfold holds.
  rewrite !GetNonce_spec, !(GetBalance_spec cr), !(GetCode_spec cr), !(GetState_spec cr). rewrite (se_db _ _ _ Heq).
  pose proof (se_objects _ _ _ Heq a) as Ho. destruct (lookup_object cr s a) as [o|], (lookup_object cr s' a) as [o'|]; try done. cbn in *.
  by rewrite (oe_nonce _ _ _ _ Ho), (oe_balance _ _ _ _ Ho), (oe_code _ _ _ _ Ho), (oe_current _ _ _ _ Ho).
Qed.

Lemma object_holds_balance d o x k : x = Balance (data o) -> object_holds d (setBalance o x) k = object_holds d o k.
Proof. intros ->. done. Qed.

Lemma evolves_same (s s' : SDB) : evolves true s s' -> world_ok cr s -> same_world s s'.
Proof.
  intros He. remember true as ro eqn:Hro. revert Hro.
  induction He as [s|s1 s2 s3 E1 IH1 _ IH2|s h d|s a Ha Hx|s a b v Ha Hb Hv Hro|s|s s2 s3 He IH E|s a Hf Ha|s a n Hf Ha Hn
    |s a c Hf Ha Hc|s a k v Hf Ha Hkw Hv|s g Hf Hg|s s' g Hf Hg E|s l Hf|s a b Hf Ha Hb]; intros -> Hs; try discriminate Hf.
  - done.
  - etrans; [by apply IH1|]. apply IH2; [done|]. by eapply (evolves_tracks cr Hk).
  - cbn. unfold State.AddPreimage. case_match; [done|]. split; try done. intros a k. by rewrite !holds_new.
  - eapply acts_same; [apply CreateAccount_acts, Hs|]. intros k. rewrite object_holds_balance; [|].
    all: unfold get_or_new; cbn in Hx; unfold Exist in Hx; destruct (getStateObject_loads cr s a) as [Eg _];
      destruct (getStateObject cr s a) as [x s1]; cbn in *; subst; by destruct (lookup_object cr s a).
  - rewrite (Hro eq_refl). unfold kernel_Transfer. destruct (SubBalance_ok cr Hk s a 0 Hs Ha) as [_ W1].
    { by apply (balance_ok cr Hk). }
    etrans.
    + eapply acts_same; [apply (SubBalance_acts cr s a 0), Hs|]. intros k. apply object_holds_balance. lia.
    + eapply acts_same; [apply (AddBalance_acts cr (State.SubBalance cr s a 0) b 0), W1|]. intros k. apply object_holds_balance. lia.
  - split; try done. intros a k. by rewrite !holds_new.
  - assert (world_ok cr (snd (VmInterface.Snapshot s))) as Hs1.
    { apply (same_objects_ok cr s); [by apply Snapshot_tracks, Hs|done|done|apply Hs|done]. }
    destruct (evolves_tracks cr Hk _ _ _ He Hs1) as [T2 _].
    destruct (RevertToSnapshot_ok cr s s2 (wo_wf _ _ Hs) T2) as (s3' & E' & Heq & _).
    assert (Ok s3' = Ok s3) as [= ->] by (rewrite <- E', <- E; reflexivity). by apply state_eq_same.
Qed.
End static.

Section static_call.
Context {D T : Type} `{Database D T} `{!EmptyTrieLaw D T}.
Context (env : @Env (@State.StateDB D T)) (Hk : forall d, zlen (keccak256 (crypto env) d) = 32).
#[local] Instance sdb : VmInterface.StateDB (@State.StateDB D T) := state_db (crypto env).
#[local] Instance sdb_laws : StateDBLaws (@State.StateDB D T) (crypto env) := state_laws (crypto env) Hk.

(** C9. From Byzantium on a static call, with every call nested in it, leaves
    the nonce, balance, code and storage of every account, the logs and the
    refund counter of [kernel/state] as they are, whatever code runs. *)
Theorem StaticCall_pure fuel e caller addr input gas :
  rules_IsByzantium (chainRules env) = true -> env_ok env -> evm_ok env e -> ref_ok caller -> is_address addr -> zlen input < 2 ^ 62 ->
  0 <= gas < max_gas -> gas < Z.of_nat fuel ->
  match StaticCall env (Run env fuel) e caller addr input gas with
  | Ok (_, e') => same_world (crypto env) (statedb e) (statedb e')
  | Panic => rules_IsConstantinople (chainRules env) = true \/ collision env
  | OutOfFuel => False
  end.
Proof.
  intros Hbyz Henv He Hr Ha Hi Hg Hf.
  pose proof (StaticCall_ok env Henv _ _ (Run_ok env Henv fuel) e caller addr input gas He Hr Ha Hi Hg Hf) as Hpost.
  destruct (StaticCall _ _ _ _ _ _ _) as [[[[ret leftOver] err] e']| |]; [|exact Hpost..].
  destruct Hpost as ([_ Hev _ _] & _). unfold mode in Hev. rewrite Hbyz, orb_true_r in Hev.
  apply (evolves_same _ Hk); [exact Hev|apply (eo_state He)].
Qed.
End static_call.

(** The callee tries to write to storage: [PUSH1 1 PUSH1 2 SSTORE]. *)
#[export] Instance mem_empty_trie : EmptyTrieLaw MemDB MemTrie.
Proof. intros d h k. done. Qed.
Definition store_code : list byte := map z2b [0x60; 0x01; 0x60; 0x02; 0x55].
Definition static_env : Env MemState := mem_env MainnetChainConfig 5000000.

Lemma StaticCall_pure_witness : exists ret left err e',
  StaticCall static_env (Run static_env 101) (example_evm store_code) (AccountRef sender) callee [] 100 = Ok ((ret, left, Some err), e') /\
  err = errWriteProtection /\ same_world mem_crypto (example_world store_code) (statedb e').
Proof.
  pose proof (StaticCall_pure static_env mem_hash_length 101 (example_evm store_code) (AccountRef sender) callee [] 100
    ltac:(by vm_compute) (mem_env_ok _ _) ltac:(split; [by apply (example_world_ok store_code)|done])
    ltac:(by vm_compute) ltac:(by vm_compute) ltac:(by vm_compute) ltac:(by vm_compute) ltac:(by vm_compute)) as Hc.
  assert (match StaticCall static_env (Run static_env 101) (example_evm store_code) (AccountRef sender) callee [] 100 with
          | Ok ((_, _, err), _) => Some err | _ => None end = Some (Some errWriteProtection)) as Hv by (vm_compute; reflexivity).
  destruct (StaticCall _ _ _ _ _ _ _) as [[[[ret left] err] e']| |] eqn:E; [|discriminate Hv..].
  injection Hv as ->. exists ret, left, errWriteProtection, e'. split; [reflexivity|]. split; [reflexivity|exact Hc].
Defined.
