(* ===== verification/TrieEncoding.v ===== *)
(** * Keys of the trie ([lib/trie/encoding.go])

    Key bytes, their hexadecimal form (a nibble per byte, with the terminator 16)
    and the compact form in which nodes store them. *)
From S2P Require Import Prelude.
From stdpp Require Import base numbers list.
From Stdlib Require Import ZArith Lia.
From Stdlib Require Strings.Byte.
#[local] Open Scope Z_scope.

Definition terminator : byte := Byte.x10.

Definition hasTerm (s : list byte) : bool :=
  match last s with Some b => b2z b =? 16 | None => false end.

(** The bytes that [decodeNibbles] writes; an odd number of nibbles runs out of range. *)
Fixpoint decodeNibbles (nibbles : list byte) : outcome (list byte) :=
  match nibbles with
  | [] => Ok []
  | [_] => Panic
  | a :: b :: rest =>
      let! r := decodeNibbles rest in
      Ok (z2b (Z.lor (Z.shiftl (b2z a) 4 mod 256) (b2z b)) :: r)
  end.

Definition hexToCompact (hex : list byte) : outcome (list byte) :=
  let terminator := if hasTerm hex then 1 else 0 in
  let hex := if hasTerm hex then take (length hex - 1) hex else hex in
  let buf0 := Z.shiftl terminator 5 in
  match Z.land (zlen hex) 1 =? 1, hex with
  | true, h :: hex =>
      let! r := decodeNibbles hex in
      Ok (z2b (Z.lor (Z.lor buf0 (Z.shiftl 1 4)) (b2z h)) :: r)
  | _, _ =>
      let! r := decodeNibbles hex in
      Ok (z2b buf0 :: r)
  end.

Fixpoint hex_digits (str : list byte) : list byte :=
  match str with
  | [] => []
  | b :: str => z2b (b2z b / 16) :: z2b (b2z b mod 16) :: hex_digits str
  end.
Definition keybytesToHex (str : list byte) : list byte := hex_digits str ++ [terminator].

Definition compactToHex (compact : list byte) : outcome (list byte) :=
  let base := keybytesToHex compact in
  match base with
  | [] => Panic
  | b0 :: _ =>
      let base := if b2z b0 <? 2 then take (length base - 1) base else base in
      let chop := Z.to_nat (2 - Z.land (b2z b0) 1) in
      if Nat.ltb (length base) chop then Panic else Ok (drop chop base)
  end.

Definition hexToKeybytes (hex : list byte) : outcome (list byte) :=
  let hex := if hasTerm hex then take (length hex - 1) hex else hex in
  if negb (Z.land (zlen hex) 1 =? 0) then Panic else decodeNibbles hex.

Fixpoint prefixLen (a b : list byte) : nat :=
  match a, b with
  | x :: a, y :: b => if bool_decide (x = y) then S (prefixLen a b) else 0
  | _, _ => 0
  end.

(** ** Well-formed keys *)

Definition nibble (b : byte) : Prop := b2z b < 16.
(** A path of nibbles, with the terminator at the end if it leads to a value. *)
Definition path (p : list byte) : Prop := Forall nibble p.
Definition terminated (k : list byte) : Prop := exists p, path p /\ k = p ++ [terminator].

#[export] Instance nibble_dec b : Decision (nibble b).
Proof. apply Z_lt_dec. Defined.

Lemma hasTerm_app p : hasTerm (p ++ [terminator]) = true.
Proof. unfold hasTerm. by rewrite last_snoc. Qed.

Lemma hasTerm_path p : path p -> hasTerm p = false.
Proof.
  intros Hp. unfold hasTerm. destruct (last p) as [b|] eqn:E; [|done]. apply last_Some_elem_of in E.
  pose proof (proj1 (Forall_forall _ _) Hp b E) as Hb. unfold nibble in Hb. zdestruct; [lia|done].
Qed.

Lemma hex_digits_path str : path (hex_digits str).
Proof.
  induction str as [|b str IH]; cbn; [constructor|]. pose proof (b2z_range b). unfold path, nibble in *.
  repeat constructor; [|..|exact IH]; rewrite b2z_z2b; rewrite Z.mod_small; try apply Z.mod_pos_bound; try lia.
  - pose proof (Z.mod_pos_bound (b2z b) 16 ltac:(lia)). apply Z.div_lt_upper_bound; lia.
  - split; [apply Z.div_pos; lia|]. apply Z.div_lt_upper_bound; lia.
  - pose proof (Z.mod_pos_bound (b2z b) 16 ltac:(lia)). lia.
Qed.

Lemma keybytesToHex_terminated k : terminated (keybytesToHex k).
Proof. exists (hex_digits k). split; [apply hex_digits_path|done]. Qed.

(** ** Round trips *)

Lemma nibbles_lor x y : 0 <= x < 16 -> 0 <= y < 16 -> Z.lor (Z.shiftl x 4 mod 256) y = 16 * x + y.
Proof.
  intros Hx Hy. rewrite <- (Z2Nat.id x), <- (Z2Nat.id y) by lia.
  assert (Z.to_nat x < 16)%nat as Hn by lia. assert (Z.to_nat y < 16)%nat as Hm by lia.
  revert Hn Hm. generalize (Z.to_nat x), (Z.to_nat y). clear x y Hx Hy. intros n m Hn Hm.
  do 16 (destruct n as [|n]; [do 16 (destruct m as [|m]; [reflexivity|]); lia|]). lia.
Qed.

Lemma hex_pair a b : nibble a -> nibble b ->
  let c := z2b (Z.lor (Z.shiftl (b2z a) 4 mod 256) (b2z b)) in z2b (b2z c / 16) = a /\ z2b (b2z c mod 16) = b.
Proof.
  intros Ha Hb c. pose proof (b2z_range a). pose proof (b2z_range b). unfold nibble in *.
  assert (b2z c = 16 * b2z a + b2z b) as -> by (unfold c; rewrite nibbles_lor by lia; rewrite b2z_z2b, Z.mod_small by lia; done).
  replace (16 * b2z a + b2z b) with (b2z b + b2z a * 16) by lia. rewrite Z.div_add, Z.mod_add by lia.
  rewrite (Z.div_small (b2z b)), (Z.mod_small (b2z b)) by lia. by rewrite Z.add_0_l, !z2b_b2z.
Qed.

Lemma decodeNibbles_hex_digits k : decodeNibbles (hex_digits k) = Ok k.
Proof.
  induction k as [|b k IH]; [done|]. cbn [hex_digits decodeNibbles]. rewrite IH. cbn [obind]. do 2 f_equal. pose proof (b2z_range b).
  pose proof (Z.mod_pos_bound (b2z b) 16 ltac:(lia)). pose proof (Z.div_pos (b2z b) 16 ltac:(lia) ltac:(lia)).
  pose proof (Z.div_lt_upper_bound (b2z b) 16 16 ltac:(lia) ltac:(lia)). pose proof (Z.div_mod (b2z b) 16 ltac:(lia)) as Hdm.
  rewrite !b2z_z2b, (Z.mod_small (b2z b / 16) 256), (Z.mod_small (b2z b mod 16) 256), nibbles_lor by lia.
  rewrite <- Hdm. apply z2b_b2z.
Qed.

Lemma decodeNibbles_path n p : path p -> length p = (2 * n)%nat -> exists k, decodeNibbles p = Ok k /\ hex_digits k = p.
Proof.
  revert p. induction n as [|n IH]; intros p Hp Hl; [destruct p; [by exists []|done]|].
  destruct p as [|a [|b p]]; [done|cbn in Hl; lia|]. apply Forall_cons in Hp as [Ha Hp]. apply Forall_cons in Hp as [Hb Hp].
  destruct (IH p Hp) as (k & E & Ek); [cbn in Hl; lia|]. cbn [decodeNibbles]. rewrite E. cbn [obind]. eexists. split; [reflexivity|].
  cbn [hex_digits]. rewrite Ek. destruct (hex_pair a b Ha Hb) as [-> ->]. done.
Qed.

Lemma take_snoc {A} (l : list A) x : take (length (l ++ [x]) - 1) (l ++ [x]) = l.
Proof. rewrite length_app. cbn. replace (length l + 1 - 1)%nat with (length l) by lia. apply take_app_length. Qed.

Lemma parity_cases p : (exists n, length p = (2 * n)%nat /\ Z.land (zlen p) 1 = 0) \/
  (exists n (b : byte) q, p = b :: q /\ length q = (2 * n)%nat /\ Z.land (zlen p) 1 = 1).
Proof.
  assert (forall n, Z.land (Z.of_nat (2 * n)) 1 = 0) as He.
  { intros n. rewrite Z.land_ones with (n := 1) by lia. change (2 ^ 1) with 2. rewrite Nat2Z.inj_mul, Z.mul_comm, Z.mod_mul; lia. }
  assert (forall n, Z.land (Z.of_nat (S (2 * n))) 1 = 1) as Ho.
  { intros n. rewrite Z.land_ones with (n := 1) by lia. change (2 ^ 1) with 2. rewrite Nat2Z.inj_succ, Nat2Z.inj_mul.
    replace (Z.succ _) with (1 + Z.of_nat n * 2) by lia. by rewrite Z.mod_add. }
  destruct (Nat.Even_or_Odd (length p)) as [[n Hn]|[n Hn]].
  - left. exists n. split; [done|]. unfold zlen. by rewrite Hn.
  - right. destruct p as [|b q]; [cbn in Hn; lia|]. exists n, b, q. cbn in Hn. split; [done|]. split; [lia|].
    unfold zlen. cbn [length]. replace (length q) with (2 * n)%nat by lia. apply Ho.
Qed.

(** A key as a node stores it: a path, with or without the terminator. *)
Definition hexkey (h : list byte) : Prop := path h \/ terminated h.

Definition with_term (t : bool) (p : list byte) : list byte := if t then p ++ [terminator] else p.

Lemma hexkey_cases h : hexkey h -> exists t p, path p /\ h = with_term t p.
Proof. intros [Hp|(p & Hp & ->)]; [by exists false, h|by exists true, p]. Qed.

Lemma strip_term t p : path p ->
  hasTerm (with_term t p) = t /\
  (if hasTerm (with_term t p) then take (length (with_term t p) - 1) (with_term t p) else with_term t p) = p.
Proof.
  intros Hp. destruct t; cbn [with_term].
  - rewrite hasTerm_app. split; [done|]. apply take_snoc.
  - by rewrite hasTerm_path.
Qed.

Lemma compactToHex_even (t : bool) k : compactToHex (z2b (Z.shiftl (if t then 1 else 0) 5) :: k) = Ok (with_term t (hex_digits k)).
Proof.
  unfold compactToHex, keybytesToHex. destruct t; cbn [with_term Z.shiftl Pos.iter].
  - reflexivity.
  - change (hex_digits (z2b 0 :: k) ++ [terminator]) with ((z2b 0 :: z2b 0 :: hex_digits k) ++ [terminator]).
    rewrite take_snoc. reflexivity.
Qed.

Lemma compactToHex_odd (t : bool) h k : nibble h ->
  compactToHex (z2b (Z.lor (Z.lor (Z.shiftl (if t then 1 else 0) 5) (Z.shiftl 1 4)) (b2z h)) :: k) = Ok (with_term t (h :: hex_digits k)).
Proof.
  intros Hh. unfold compactToHex, keybytesToHex. destruct t; cbn [with_term].
  - change (Z.lor (Z.shiftl 1 5) (Z.shiftl 1 4)) with (Z.shiftl (b2z Byte.x03) 4 mod 256).
    cbn [hex_digits app]. destruct (hex_pair Byte.x03 h ltac:(done) Hh) as [-> ->]. reflexivity.
  - change (Z.lor (Z.shiftl 0 5) (Z.shiftl 1 4)) with (Z.shiftl (b2z Byte.x01) 4 mod 256).
    cbn [hex_digits]. destruct (hex_pair Byte.x01 h ltac:(done) Hh) as [-> ->].
    rewrite take_snoc. reflexivity.
Qed.

Lemma compact_roundtrip h : hexkey h -> exists c, hexToCompact h = Ok c /\ c <> [] /\ compactToHex c = Ok h.
Proof.
  intros (t & p & Hp & ->)%hexkey_cases. destruct (strip_term t p Hp) as [Ht Hs]. unfold hexToCompact. rewrite Hs, Ht. clear Hs Ht.
  destruct (parity_cases p) as [(n & Hl & E)|(n & b & q & -> & Hl & E)].
  - destruct (decodeNibbles_path n p Hp Hl) as (k & Ek & Hk). rewrite E, Ek. cbn [Z.eqb obind].
    exists (z2b (Z.shiftl (if t then 1 else 0) 5) :: k). split; [by destruct p|]. split; [done|]. by rewrite compactToHex_even, Hk.
  - apply Forall_cons in Hp as [Hb Hq]. destruct (decodeNibbles_path n q Hq Hl) as (k & Ek & Hk). rewrite E, Ek. cbn [Z.eqb Pos.eqb obind].
    eexists. split; [reflexivity|]. split; [done|]. by rewrite compactToHex_odd, Hk.
Qed.

(** The two key encodings lose nothing: key bytes come back from their
    hexadecimal form, and a key of a node (with or without terminator, of even or
    odd length) comes back from its compact form. *)
Theorem key_encodings_roundtrip :
  (forall k, hexToKeybytes (keybytesToHex k) = Ok k) /\
  (forall h, hexkey h -> exists c, hexToCompact h = Ok c /\ compactToHex c = Ok h).
Proof.
  split.
  - intros k. unfold hexToKeybytes, keybytesToHex. rewrite hasTerm_app, take_snoc.
    destruct (parity_cases (hex_digits k)) as [(n & Hl & ->)|(n & b & q & E & Hl & _)]; [apply decodeNibbles_hex_digits|].
    exfalso. assert (forall k, Nat.Even (length (hex_digits k))) as He.
    { clear. induction k as [|b k IH]; [by exists 0%nat|]. destruct IH as [m Hm]. exists (S m). cbn. lia. }
    destruct (He k) as [m Hm]. rewrite E in Hm. cbn in Hm. lia.
  - intros h Hh. destruct (compact_roundtrip h Hh) as (c & E & _ & Ec). eauto.
Qed.

(** The compact decoder does not check for an empty input: it slices past the end. *)
Lemma compactToHex_empty_panics : compactToHex [] = Panic.
Proof. reflexivity. Qed.

(** ** Common prefixes *)

Lemma prefixLen_spec a b : exists q ra rb, a = q ++ ra /\ b = q ++ rb /\ prefixLen a b = length q /\
  (ra = [] \/ rb = [] \/ exists x y ra' rb', ra = x :: ra' /\ rb = y :: rb' /\ x <> y).
Proof.
  revert b. induction a as [|x a IH]; intros [|y b]; cbn [prefixLen].
  - by exists [], [], []; auto.
  - by exists [], [], (y :: b); auto.
  - exists [], (x :: a), []. auto 6.
  - case_bool_decide as E; [subst y|exists [], (x :: a), (y :: b); split; [done|]; split; [done|]; split; [done|]; right; right; by exists x, y, a, b].
    destruct (IH b) as (q & ra & rb & -> & -> & -> & Hd). by exists (x :: q), ra, rb.
Qed.
Lemma prefixLen_parts q x ra y rb : x <> y -> prefixLen (q ++ x :: ra) (q ++ y :: rb) = length q.
Proof.
  intros Hne. induction q as [|a q IH]; cbn; [by rewrite bool_decide_false|]. by rewrite bool_decide_true, IH.
Qed.
Lemma prefixLen_whole q r : prefixLen (q ++ r) q = length q.
Proof. induction q as [|a q IH]; cbn; [by destruct r|]. by rewrite bool_decide_true, IH. Qed.

Lemma hex_digits_len k : zlen (hex_digits k) = 2 * zlen k.
Proof. induction k as [|b k IH]; [done|]. cbn [hex_digits]. rewrite !zlen_cons, IH. lia. Qed.
