(* ===== verification/TrieTree.v ===== *)
(** * Tries as trees

    The tree a trie stands for once its hash references are followed and its
    cached hashes forgotten.  A canonical tree is determined by its content. *)
From S2P Require Import Prelude TrieEncoding.
From stdpp Require Import base numbers list.
From Stdlib Require Import ZArith Lia.
#[local] Open Scope Z_scope.

Inductive tree : Type :=
| Leafless
| Value (v : list byte)
| Short (k : list byte) (t : tree)
| Full (ts : list tree).

(** Induction with a hypothesis for every child. *)
Lemma tree_rect' (P : tree -> Prop) :
  P Leafless -> (forall v, P (Value v)) -> (forall k t, P t -> P (Short k t)) -> (forall ts, Forall P ts -> P (Full ts)) ->
  forall t, P t.
Proof.
  intros H0 Hv Hs Hf. fix IH 1. intros [|v|k t|ts]; [done|apply Hv|apply Hs, IH|]. apply Hf.
  induction ts as [|t ts IHts]; constructor; [apply IH|exact IHts].
Qed.

#[export] Instance tree_leafless_dec (t : tree) : Decision (t = Leafless).
Proof. destruct t; (by left) || (by right). Defined.

(** The child that a byte of the key selects. *)
Definition slot (b : byte) : nat := Z.to_nat (b2z b).

(** The value under a key. *)
Fixpoint tget (t : tree) (k : list byte) {struct t} : option (list byte) :=
  match t with
  | Leafless => None
  | Value v => match k with [] => Some v | _ => None end
  | Short key t => if bool_decide (take (length key) k = key) then tget t (drop (length key) k) else None
  | Full ts =>
      match k with
      | [] => None
      | b :: k =>
          (fix child (ts : list tree) (i : nat) : option (list byte) :=
             match ts, i with
             | [], _ => None
             | t :: _, O => tget t k
             | _ :: ts, S i => child ts i
             end) ts (slot b)
      end
  end.

Lemma tget_Full ts b k : tget (Full ts) (b :: k) = match ts !! slot b with Some t => tget t k | None => None end.
Proof. cbn. generalize (slot b). induction ts as [|t ts IH]; intros [|i]; done || apply IH. Qed.

Lemma tget_Short_app key t k : tget (Short key t) (key ++ k) = tget t k.
Proof. cbn. rewrite take_app_length, drop_app_length. by rewrite bool_decide_true. Qed.

Lemma tget_leaf k v : tget (Short k (Value v)) k = Some v.
Proof. rewrite <- (app_nil_r k) at 2. by rewrite tget_Short_app. Qed.

Lemma tget_Short key t k v : tget (Short key t) k = Some v <-> exists k', k = key ++ k' /\ tget t k' = Some v.
Proof.
  split.
  - cbn. destruct (bool_decide_reflect (take (length key) k = key)) as [E|]; [|done]. intros Hg.
    exists (drop (length key) k). split; [|done]. by rewrite <- E at 1; rewrite take_drop.
  - intros (k' & -> & Hg). by rewrite tget_Short_app.
Qed.

(** ** Canonical trees *)

Definition is_value (t : tree) : Prop := exists v, t = Value v /\ v <> [].

(** At least two children are there. *)
Definition branches (ts : list tree) : Prop :=
  exists i j t u, i <> j /\ ts !! i = Some t /\ ts !! j = Some u /\ t <> Leafless /\ u <> Leafless.

(** A tree below which every key is a path that ends with the terminator. *)
Inductive inner : tree -> Prop :=
| inner_leaf p v : path p -> v <> [] -> inner (Short (p ++ [terminator]) (Value v))
| inner_ext p ts : path p -> p <> [] -> inner (Full ts) -> inner (Short p (Full ts))
| inner_full ts : length ts = 17%nat -> branches ts ->
    (forall i t, ts !! i = Some t -> i <> 16%nat -> t <> Leafless -> inner t) ->
    (forall t, ts !! 16%nat = Some t -> t <> Leafless -> is_value t) -> inner (Full ts).

(** The tree of a whole trie. *)
Definition canonical (t : tree) : Prop := t = Leafless \/ inner t.

Lemma slot_terminator : slot terminator = 16%nat.
Proof. done. Qed.
Lemma slot_nibble b : nibble b <-> (slot b < 16)%nat.
Proof. unfold nibble, slot. pose proof (b2z_range b). lia. Qed.
Lemma slot_inj a b : slot a = slot b -> a = b.
Proof. unfold slot. intros E. pose proof (b2z_range a). pose proof (b2z_range b). apply b2z_inj. lia. Qed.
Lemma slot_z2b i : (i < 256)%nat -> slot (z2b (Z.of_nat i)) = i.
Proof. intros Hi. unfold slot. rewrite b2z_z2b, Z.mod_small by lia. lia. Qed.

Lemma terminated_cons b k : terminated (b :: k) <-> (nibble b /\ terminated k) \/ (b = terminator /\ k = []).
Proof.
  split.
  - intros ([|c p] & Hp & E); injection E as -> ->; [by right|]. apply Forall_cons in Hp as [Hc Hp]. left. split; [done|]. by exists p.
  - intros [[Hb (p & Hp & ->)]|[-> ->]]; [exists (b :: p); split; [by constructor|done]|exists []; split; [constructor|done]].
Qed.
Lemma terminated_app p k : path p -> terminated k -> terminated (p ++ k).
Proof. intros Hp (q & Hq & ->). exists (p ++ q). split; [by apply Forall_app|]. by rewrite app_assoc. Qed.
Lemma terminated_drop p k : path p -> terminated (p ++ k) -> terminated k.
Proof.
  induction p as [|b p IH]; intros Hp Hk; [done|]. apply Forall_cons in Hp as [Hb Hp]. cbn in Hk.
  apply terminated_cons in Hk as [[_ Hk]|[-> _]]; [by apply IH|]. unfold nibble in Hb. by vm_compute in Hb.
Qed.
Lemma terminated_nonempty k : terminated k -> k <> [].
Proof. intros (p & _ & ->). by destruct p. Qed.
Lemma terminated_single : terminated [terminator].
Proof. exists []. split; [constructor|done]. Qed.
Lemma not_nibble_terminator : ~ nibble terminator.
Proof. by vm_compute. Qed.

Lemma path_not_terminated p : path p -> ~ terminated p.
Proof. intros Hp Hk. rewrite <- (app_nil_r p) in Hk. apply terminated_drop in Hk; [|done]. by apply terminated_nonempty in Hk. Qed.

(** ** Content determines a canonical tree *)

Lemma inner_not_empty t : inner t -> t <> Leafless.
Proof. by intros []. Qed.

Lemma has_keys t : inner t -> exists k v, terminated k /\ tget t k = Some v.
Proof.
  induction 1 as [p v Hp Hv|p ts Hp Hne _ (k & v & Hk & Hg)|ts Hl (i & _ & t & _ & _ & Ht & _ & Hn & _) _ IH H16].
  - exists (p ++ [terminator]), v. split; [by exists p|]. apply tget_leaf.
  - exists (p ++ k), v. split; [by apply terminated_app|]. by rewrite tget_Short_app.
  - destruct (decide (i = 16%nat)) as [->|Hi].
    + destruct (H16 t Ht Hn) as (v & -> & _). exists [terminator], v. split; [apply terminated_single|]. by rewrite tget_Full, slot_terminator, Ht.
    + destruct (IH i t Ht Hi Hn) as (k & v & Hk & Hg). pose proof (lookup_lt_Some _ _ _ Ht) as Hlt. rewrite Hl in Hlt.
      exists (z2b (Z.of_nat i) :: k), v. rewrite terminated_cons, tget_Full, slot_z2b, Ht by lia. split; [left|done].
      split; [|done]. apply slot_nibble. rewrite slot_z2b; lia.
Qed.

(** The keys through one child. *)
Lemma child_key ts i t : inner (Full ts) -> ts !! i = Some t -> t <> Leafless ->
  exists b k v, slot b = i /\ terminated (b :: k) /\ tget (Full ts) (b :: k) = Some v.
Proof.
  intros Hi Ht Hn. inversion Hi as [| |ts' Hl _ Hc H16]; subst. pose proof (lookup_lt_Some _ _ _ Ht) as Hlt. rewrite Hl in Hlt.
  destruct (decide (i = 16%nat)) as [->|Hne].
  - destruct (H16 t Ht Hn) as (v & -> & _). exists terminator, [], v. split; [done|]. split; [apply terminated_single|]. by rewrite tget_Full, slot_terminator, Ht.
  - destruct (has_keys t (Hc i t Ht Hne Hn)) as (k & v & Hk & Hg). exists (z2b (Z.of_nat i)), k, v.
    rewrite terminated_cons, tget_Full, slot_z2b, Ht by lia. split; [done|]. split; [left|done]. split; [|done].
    apply slot_nibble. rewrite slot_z2b; lia.
Qed.

(** Two keys that differ at once. *)
Lemma full_keys ts : inner (Full ts) -> exists b c k l v w, b <> c /\ terminated (b :: k) /\ terminated (c :: l) /\
  tget (Full ts) (b :: k) = Some v /\ tget (Full ts) (c :: l) = Some w.
Proof.
  intros Hi. inversion Hi as [| |ts' _ (i & j & t & u & Hij & Ht & Hu & Hnt & Hnu) _ _]; subst.
  destruct (child_key ts i t Hi Ht Hnt) as (b & k & v & Hb & Hk & Hg). destruct (child_key ts j u Hi Hu Hnu) as (c & l & w & Hc & Hl & Hw).
  exists b, c, k, l, v, w. split; [intros ->; congruence|done].
Qed.

Definition same_content (t u : tree) : Prop := forall k, terminated k -> tget t k = tget u k.

(** The keys of a short node share its path; those of a full node share nothing. *)
Lemma full_not_short ts p u : inner (Full ts) -> p <> [] -> ~ same_content (Full ts) (Short p u).
Proof.
  intros Hi Hp Hs. destruct (full_keys ts Hi) as (b & c & k & l & v & w & Hbc & Hk & Hl & Hv & Hw).
  rewrite Hs in Hv, Hw by done. apply tget_Short in Hv as (k' & Ek & _), Hw as (l' & El & _). destruct p as [|x p]; [done|].
  cbn in Ek, El. congruence.
Qed.

Lemma leaf_not_ext p v q ts : path q -> inner (Full ts) -> ~ same_content (Short (p ++ [terminator]) (Value v)) (Short q (Full ts)).
Proof.
  intros Hq Hi Hs. destruct (full_keys ts Hi) as (b & c & k & l & x & y & Hbc & Hk & Hl & Hv & Hw).
  assert (forall k x, terminated k -> tget (Full ts) k = Some x -> q ++ k = p ++ [terminator]) as Hall.
  { intros k0 x0 Hk0 Hg. rewrite <- (tget_Short_app q (Full ts) k0), <- (Hs (q ++ k0)) in Hg by (by apply terminated_app).
    apply tget_Short in Hg as ([|] & E & Hg); [by rewrite app_nil_r in E|done]. }
  pose proof (Hall _ _ Hk Hv) as E1. rewrite <- (Hall _ _ Hl Hw) in E1. apply app_inv_head in E1. congruence.
Qed.

Lemma leaf_unique p v q w : path p -> path q ->
  same_content (Short (p ++ [terminator]) (Value v)) (Short (q ++ [terminator]) (Value w)) -> p = q /\ v = w.
Proof.
  intros Hp Hq Hs. specialize (Hs (p ++ [terminator]) ltac:(by exists p)).
  rewrite tget_leaf in Hs. symmetry in Hs.
  apply tget_Short in Hs as ([|] & E & Hg); [|done]. rewrite app_nil_r in E. apply app_inj_2 in E as [-> _]; [|done].
  split; [done|]. by injection Hg as <-.
Qed.

(** Two extensions with the same content have the same path: were one a proper
    prefix of the other, the keys of its branch could not differ at once. *)
Lemma ext_path p ts q us : path p -> path q -> inner (Full ts) -> inner (Full us) ->
  same_content (Short p (Full ts)) (Short q (Full us)) -> exists r, q = p ++ r.
Proof.
  intros Hp Hq Ht Hu Hs. destruct (full_keys us Hu) as (b & c & k & l & v & w & Hbc & Hk & Hl & Hv & Hw).
  assert (forall k x, terminated k -> tget (Full us) k = Some x -> exists k', q ++ k = p ++ k') as Hall.
  { intros k0 x Hk0 Hg. rewrite <- (tget_Short_app q (Full us) k0), <- (Hs (q ++ k0)) in Hg by (by apply terminated_app).
    apply tget_Short in Hg as (k' & E & _). by exists k'. }
  destruct (Hall _ _ Hk Hv) as [k' E1]. destruct (Hall _ _ Hl Hw) as [l' E2]. clear Hall Hs Hv Hw.
  apply app_eq_inv in E1 as [(r & -> & _)|(r & -> & E1)]; [by exists r|]. destruct r as [|x r]; [exists []; by rewrite !app_nil_r|].
  rewrite <- app_assoc in E2. apply app_inv_head in E2. cbn in E1, E2. congruence.
Qed.

Lemma same_content_sym t u : same_content t u -> same_content u t.
Proof. intros Hs k Hk. symmetry. by apply Hs. Qed.

Lemma ext_unique p ts q us : path p -> path q -> inner (Full ts) -> inner (Full us) ->
  same_content (Short p (Full ts)) (Short q (Full us)) -> p = q /\ same_content (Full ts) (Full us).
Proof.
  intros Hp Hq Ht Hu Hs. destruct (ext_path p ts q us Hp Hq Ht Hu Hs) as [r Er].
  destruct (ext_path q us p ts Hq Hp Hu Ht (same_content_sym _ _ Hs)) as [r' Er'].
  assert (p = q) as -> by (apply (prefix_length_eq p q); [by exists r|rewrite Er'; rewrite length_app; lia]).
  split; [done|]. intros k Hk. specialize (Hs (q ++ k) (terminated_app q k Hq Hk)). by rewrite !tget_Short_app in Hs.
Qed.

Lemma child_content ts us i t u : inner (Full ts) -> same_content (Full ts) (Full us) -> ts !! i = Some t -> us !! i = Some u ->
  i <> 16%nat -> same_content t u.
Proof.
  intros Hi Hs Ht Hu Hne k Hk. inversion Hi as [| |ts' Hl _ _ _]; subst. pose proof (lookup_lt_Some _ _ _ Ht) as Hlt. rewrite Hl in Hlt.
  specialize (Hs (z2b (Z.of_nat i) :: k)). rewrite !tget_Full, slot_z2b, Ht, Hu in Hs by lia. apply Hs. apply terminated_cons. left.
  split; [|done]. apply slot_nibble. rewrite slot_z2b; lia.
Qed.

Lemma missing_child ts us i u : inner (Full us) -> same_content (Full ts) (Full us) -> ts !! i = Some Leafless -> us !! i = Some u -> u = Leafless.
Proof.
  intros Hi Hs Ht Hu. destruct (decide (u = Leafless)) as [|Hn]; [done|]. exfalso.
  destruct (child_key us i u Hi Hu Hn) as (b & k & v & Hb & Hk & Hg). by rewrite <- Hs, tget_Full, Hb, Ht in Hg.
Qed.

Lemma inner_unique t u : inner t -> inner u -> same_content t u -> t = u.
Proof.
  intros Ht. revert u.
  induction Ht as [p v Hp Hv|p ts Hp Hne Hts IH|ts Hl Hbr Hc IH H16]; intros u Hu Hs; destruct Hu as [q w Hq Hw|q us Hq Hqe Hus|us Hul Hub Huc Hu16].
  - by destruct (leaf_unique p v q w Hp Hq Hs) as [-> ->].
  - by destruct (leaf_not_ext p v q us Hq Hus).
  - destruct (full_not_short us (p ++ [terminator]) (Value v)); [by constructor|by destruct p|by apply same_content_sym].
  - destruct (leaf_not_ext q w p ts Hp Hts). by apply same_content_sym.
  - destruct (ext_unique p ts q us Hp Hq Hts Hus Hs) as [-> Hs']. f_equal. by apply IH.
  - destruct (full_not_short us p (Full ts)); [by constructor|done|by apply same_content_sym].
  - destruct (full_not_short ts (q ++ [terminator]) (Value w)); [by constructor|by destruct q|done].
  - by destruct (full_not_short ts q (Full us)); [constructor|..].
  - f_equal. assert (inner (Full ts)) as Hts by (by constructor). assert (inner (Full us)) as Hus by (by constructor).
    apply list_eq. intros i. destruct (ts !! i) as [t|] eqn:Et; [|symmetry; apply lookup_ge_None; apply lookup_ge_None in Et; lia].
    destruct (us !! i) as [u|] eqn:Eu; [|apply lookup_ge_None in Eu; apply lookup_lt_Some in Et; lia]. f_equal.
    destruct (decide (t = Leafless)) as [->|Hnt]; [by rewrite (missing_child ts us i u)|].
    destruct (decide (u = Leafless)) as [->|Hnu]; [by apply (missing_child us ts i t); [|apply same_content_sym| |]|].
    destruct (decide (i = 16%nat)) as [->|Hi].
    + destruct (H16 t Et Hnt) as (v & -> & _), (Hu16 u Eu Hnu) as (w & -> & _). specialize (Hs [terminator] terminated_single).
      rewrite !tget_Full, slot_terminator, Et, Eu in Hs. by injection Hs as ->.
    + apply (IH i t Et Hi Hnt); [by apply (Huc i)|by apply (child_content ts us i)].
Qed.

(** Canonical trees with the same content are the same tree. *)
Lemma canonical_unique t u : canonical t -> canonical u -> same_content t u -> t = u.
Proof.
  intros [->|Ht] [->|Hu] Hs; [done|..|by apply inner_unique].
  - destruct (has_keys u Hu) as (k & v & Hk & Hg). by rewrite <- Hs in Hg.
  - destruct (has_keys t Ht) as (k & v & Hk & Hg). by rewrite Hs in Hg.
Qed.

(** ** Updating content *)

Definition updates (t : tree) (key v : list byte) (t' : tree) : Prop :=
  forall k, tget t' k = if decide (k = key) then Some v else tget t k.
Definition erases (t : tree) (key : list byte) (t' : tree) : Prop :=
  forall k, tget t' k = if decide (k = key) then None else tget t k.

(** A path that may be empty in front of a tree. *)
Definition under (k : list byte) (t : tree) : tree := match k with [] => t | _ => Short k t end.

Lemma tget_Short_nil t k : tget (Short [] t) k = tget t k.
Proof. cbn. by rewrite bool_decide_true, drop_0. Qed.
Lemma tget_Short_cons a r t b k : tget (Short (a :: r) t) (b :: k) = if decide (a = b) then tget (Short r t) k else None.
Proof. cbn. destruct (decide (a = b)) as [->|Hne]; repeat case_bool_decide; try done; congruence. Qed.
Lemma tget_Short_end a r t : tget (Short (a :: r) t) [] = None.
Proof. cbn. by rewrite bool_decide_false. Qed.
Lemma tget_under k t x : tget (under k t) x = tget (Short k t) x.
Proof. destruct k; [by rewrite tget_Short_nil|done]. Qed.
Lemma tget_Short_cat q r t k : tget (Short (q ++ r) t) (q ++ k) = tget (Short r t) k.
Proof. induction q as [|a q IH]; [done|]. cbn [app]. by rewrite tget_Short_cons, decide_True. Qed.
Lemma tget_Short_Short q r t k : tget (Short q (Short r t)) k = tget (Short (q ++ r) t) k.
Proof.
  revert k. induction q as [|a q IH]; intros k; [by rewrite tget_Short_nil|]. destruct k as [|b k]; [by rewrite !tget_Short_end|].
  cbn [app]. rewrite !tget_Short_cons. by rewrite IH.
Qed.
Lemma tget_leaf_iff k v x : tget (Short k (Value v)) x = if decide (x = k) then Some v else None.
Proof.
  revert x. induction k as [|a k IH]; intros [|b x]; cbn [decide]; try done.
  rewrite tget_Short_cons, IH. repeat case_decide; congruence.
Qed.

Lemma updates_Short q t key v t' : updates t key v t' -> updates (Short q t) (q ++ key) v (Short q t').
Proof.
  intros Hu k. revert k. induction q as [|a q IH]; intros k; [rewrite !tget_Short_nil; apply Hu|]. cbn [app].
  destruct k as [|b k]; [by rewrite !tget_Short_end|]. rewrite !tget_Short_cons, IH. repeat case_decide; congruence.
Qed.
Lemma erases_Short q t key t' : erases t key t' -> erases (Short q t) (q ++ key) (Short q t').
Proof.
  intros Hu k. revert k. induction q as [|a q IH]; intros k; [rewrite !tget_Short_nil; apply Hu|]. cbn [app].
  destruct k as [|b k]; [by rewrite !tget_Short_end|]. rewrite !tget_Short_cons, IH. repeat case_decide; congruence.
Qed.

Lemma updates_Full ts b t key v t' : ts !! slot b = Some t -> updates t key v t' ->
  updates (Full ts) (b :: key) v (Full (<[slot b := t']> ts)).
Proof.
  intros Ht Hu [|c k]; [done|]. rewrite !tget_Full. destruct (decide (c = b)) as [->|Hne].
  - rewrite list_lookup_insert_eq by (by eapply lookup_lt_Some). rewrite Hu, Ht. repeat case_decide; congruence.
  - rewrite list_lookup_insert_ne by (intros E; by apply Hne, slot_inj). rewrite decide_False; [done|congruence].
Qed.
Lemma erases_Full ts b t key t' : ts !! slot b = Some t -> erases t key t' ->
  erases (Full ts) (b :: key) (Full (<[slot b := t']> ts)).
Proof.
  intros Ht Hu [|c k]; [done|]. rewrite !tget_Full. destruct (decide (c = b)) as [->|Hne].
  - rewrite list_lookup_insert_eq by (by eapply lookup_lt_Some). rewrite Hu, Ht. repeat case_decide; congruence.
  - rewrite list_lookup_insert_ne by (intros E; by apply Hne, slot_inj). rewrite decide_False; [done|congruence].
Qed.

(** The branch that [insert] builds where two keys part. *)
Definition fork (nb : byte) (t1 : tree) (kb : byte) (t2 : tree) : list tree :=
  <[slot kb := t2]> (<[slot nb := t1]> (replicate 17 Leafless)).

Lemma fork_lookup nb t1 kb t2 i : (slot nb < 17)%nat -> (slot kb < 17)%nat -> (i < 17)%nat ->
  fork nb t1 kb t2 !! i = Some (if decide (i = slot kb) then t2 else if decide (i = slot nb) then t1 else Leafless).
Proof.
  intros Hn Hk Hi. unfold fork. destruct (decide (i = slot kb)) as [->|Hik].
  - apply list_lookup_insert_eq. by rewrite length_insert, length_replicate.
  - rewrite list_lookup_insert_ne by done. destruct (decide (i = slot nb)) as [->|Hin].
    + apply list_lookup_insert_eq. by rewrite length_replicate.
    + rewrite list_lookup_insert_ne by done. by apply lookup_replicate_2.
Qed.

Lemma fork_updates q nb nr c kb kr v : nb <> kb -> (slot nb < 17)%nat -> (slot kb < 17)%nat ->
  updates (Short (q ++ nb :: nr) c) (q ++ kb :: kr) v (under q (Full (fork nb (under nr c) kb (under kr (Value v))))).
Proof.
  intros Hne Hn Hk k. rewrite tget_under. revert k. induction q as [|a q IH]; intros k.
  - rewrite tget_Short_nil. cbn [app]. destruct k as [|b k]; [by rewrite tget_Short_end|]. rewrite tget_Full, tget_Short_cons.
    destruct (decide (slot b < 17)%nat) as [Hb|Hb].
    + rewrite fork_lookup by done. destruct (decide (slot b = slot kb)) as [E|Eb].
      * apply slot_inj in E as ->. rewrite (decide_False (P := nb = kb)) by done. rewrite tget_under, tget_leaf_iff.
        repeat case_decide; congruence.
      * rewrite (decide_False (P := b :: k = kb :: kr)) by congruence. destruct (decide (slot b = slot nb)) as [E|Eb'].
        -- apply slot_inj in E as ->. rewrite decide_True by done. by rewrite tget_under.
        -- rewrite decide_False by congruence. done.
    + rewrite (proj2 (lookup_ge_None _ _)) by (unfold fork; rewrite !length_insert, length_replicate; lia).
      rewrite !decide_False; [done|intros ->; lia|intros [= -> _]; lia].
  - destruct k as [|b k]; [by rewrite tget_Short_end|]. cbn [app]. rewrite !tget_Short_cons, IH. repeat case_decide; congruence.
Qed.

(** A tree that may stand in the slot of [b]. *)
Definition fits_slot (b : byte) (t : tree) : Prop := (nibble b /\ inner t) \/ (b = terminator /\ is_value t).

Lemma fits_slot_bound b t : fits_slot b t -> (slot b < 17)%nat /\ t <> Leafless.
Proof.
  intros [[Hb Hi]|[-> (v & -> & _)]]; [|by rewrite slot_terminator; split; [lia|]].
  apply slot_nibble in Hb. split; [lia|by apply inner_not_empty].
Qed.

Lemma path_snoc_inv (q : list byte) b r p x : q ++ b :: r = p ++ [x] -> (r = [] /\ q = p /\ b = x) \/ exists r', r = r' ++ [x] /\ p = q ++ b :: r'.
Proof.
  intros E. destruct (exists_last (l := b :: r)) as (m & y & Em); [done|]. rewrite Em, app_assoc in E. apply app_inj_2 in E as [Ep Ey]; [|done].
  injection Ey as ->. destruct m as [|b' m]; cbn in Em; injection Em as -> ->.
  - left. by rewrite app_nil_r in Ep.
  - right. by exists m.
Qed.

Lemma split_inner q b r c : inner (Short (q ++ b :: r) c) -> path q /\ fits_slot b (under r c).
Proof.
  intros Hi. inversion Hi as [p v Hp Hv E|p ts Hp Hne Hts E|].
  - symmetry in E. apply path_snoc_inv in E as [(-> & <- & ->)|(r' & -> & ->)].
    + split; [done|]. right. split; [done|]. by exists v.
    + apply Forall_app in Hp as [Hq Hr]. apply Forall_cons in Hr as [Hb Hr']. split; [done|]. left. split; [done|].
      destruct (r' ++ [terminator]) eqn:Er; [by destruct r'|]. cbn. rewrite <- Er. by constructor.
  - subst p. apply Forall_app in Hp as [Hq Hr]. apply Forall_cons in Hr as [Hb Hr]. split; [done|]. left. split; [done|].
    destruct r; cbn; [done|by constructor].
Qed.

Lemma fork_inner nb t1 kb t2 : nb <> kb -> fits_slot nb t1 -> fits_slot kb t2 -> inner (Full (fork nb t1 kb t2)).
Proof.
  intros Hne H1 H2. destruct (fits_slot_bound _ _ H1) as [L1 N1], (fits_slot_bound _ _ H2) as [L2 N2].
  assert (slot nb <> slot kb) as Hs by (intros E; by apply Hne, slot_inj).
  constructor.
  - unfold fork. by rewrite !length_insert, length_replicate.
  - exists (slot nb), (slot kb), t1, t2. rewrite !fork_lookup by done. rewrite (decide_False (P := slot nb = slot kb)) by done.
    by rewrite !decide_True.
  - intros i t Ht Hi Hn. assert (i < 17)%nat by (apply lookup_lt_Some in Ht; unfold fork in Ht; by rewrite !length_insert, length_replicate in Ht).
    rewrite fork_lookup in Ht by done. injection Ht as <-.
    destruct (decide (i = slot kb)) as [->|]; [by destruct H2 as [[_ ?]|[-> _]]|].
    destruct (decide (i = slot nb)) as [->|]; [by destruct H1 as [[_ ?]|[-> _]]|done].
  - intros t Ht Hn. rewrite fork_lookup in Ht by (done || lia). injection Ht as <-.
    destruct (decide (16%nat = slot kb)) as [E|].
    + destruct H2 as [[Hb _]|[_ ?]]; [|done]. apply slot_nibble in Hb. lia.
    + destruct (decide (16%nat = slot nb)) as [E|]; [|done]. destruct H1 as [[Hb _]|[_ ?]]; [|done]. apply slot_nibble in Hb. lia.
Qed.

Lemma under_inner q ts : path q -> inner (Full ts) -> inner (under q (Full ts)).
Proof. intros Hq Hi. destruct q; [done|]. by constructor. Qed.

(** Putting a tree in a slot keeps a full node canonical. *)
Lemma full_insert_inner ts b t : inner (Full ts) -> fits_slot b t -> inner (Full (<[slot b := t]> ts)).
Proof.
  intros Hi Hb. destruct (fits_slot_bound _ _ Hb) as [L N]. inversion Hi as [| |ts' Hl (i & j & u & w & Hij & Hu & Hw & Nu & Nw) Hc H16]; subst.
  constructor.
  - by rewrite length_insert.
  - assert (forall k x, ts !! k = Some x -> x <> Leafless -> exists y, <[slot b := t]> ts !! k = Some y /\ y <> Leafless) as Hkeep.
    { intros k x Hk Hx. destruct (decide (k = slot b)) as [->|]; [exists t|exists x].
      - by rewrite list_lookup_insert_eq by (by eapply lookup_lt_Some).
      - by rewrite list_lookup_insert_ne. }
    destruct (Hkeep i u Hu Nu) as (u' & ? & ?), (Hkeep j w Hw Nw) as (w' & ? & ?). by exists i, j, u', w'.
  - intros k x Hk Hne Hx. destruct (decide (k = slot b)) as [->|].
    + rewrite list_lookup_insert_eq in Hk by lia. injection Hk as <-. by destruct Hb as [[_ ?]|[-> _]].
    + rewrite list_lookup_insert_ne in Hk by done. by apply (Hc k).
  - intros x Hk Hx. destruct (decide (16%nat = slot b)) as [E|].
    + rewrite E, list_lookup_insert_eq in Hk by lia. injection Hk as <-. destruct Hb as [[Hn _]|[_ ?]]; [|done]. apply slot_nibble in Hn. lia.
    + rewrite list_lookup_insert_ne in Hk by done. by apply H16.
Qed.

(** ** Merging short nodes *)

Lemma inner_app q k t : path q -> inner (Short k t) -> inner (Short (q ++ k) t).
Proof.
  intros Hq Hi. inversion Hi as [p v Hp Hv|p ts Hp Hne Hts|]; subst.
  - rewrite app_assoc. constructor; [by apply Forall_app|done].
  - constructor; [by apply Forall_app|by destruct q|done].
Qed.

(** A full node with one child holds what a short node holds. *)
Lemma single_child ts b t : ts !! slot b = Some t -> (forall i u, ts !! i = Some u -> i <> slot b -> u = Leafless) ->
  forall k, tget (Short [b] t) k = tget (Full ts) k.
Proof.
  intros Ht Ho [|c k]; [by rewrite tget_Short_end|]. rewrite tget_Short_cons, tget_Full, tget_Short_nil. case_decide as E.
  - subst c. by rewrite Ht.
  - destruct (ts !! slot c) as [u|] eqn:Eu; [|done]. by rewrite (Ho _ u Eu) by (intros Ec; by apply E, eq_sym, slot_inj).
Qed.

Lemma erases_absent t k : tget t k = None -> erases t k t.
Proof. intros Hn x. case_decide; congruence. Qed.
Lemma erases_content t k t' u : erases t k t' -> (forall x, tget u x = tget t' x) -> erases t k u.
Proof. intros He Hu x. by rewrite Hu. Qed.

(** What is left of the children once one of them is replaced. *)
Lemma full_children ts b t : inner (Full ts) -> t = Leafless \/ fits_slot b t ->
  (forall i u, <[slot b := t]> ts !! i = Some u -> i <> 16%nat -> u <> Leafless -> inner u) /\
  (forall u, <[slot b := t]> ts !! 16%nat = Some u -> u <> Leafless -> is_value u) /\
  exists i u, i <> slot b /\ <[slot b := t]> ts !! i = Some u /\ u <> Leafless.
Proof.
  intros Hi Hb. inversion Hi as [| |ts' Hl (i & j & x & y & Hij & Hx & Hy & Nx & Ny) Hc H16]; subst.
  split; [|split].
  - intros k u Hk Hne Hu. destruct (decide (k = slot b)) as [->|]; [|rewrite list_lookup_insert_ne in Hk by done; by apply (Hc k)].
    pose proof (lookup_lt_Some _ _ _ Hk) as L. rewrite length_insert in L. rewrite list_lookup_insert_eq in Hk by done. injection Hk as <-.
    by destruct Hb as [?|[[_ ?]|[-> _]]].
  - intros u Hk Hu. destruct (decide (16%nat = slot b)) as [E|]; [|rewrite list_lookup_insert_ne in Hk by done; by apply H16].
    rewrite E, list_lookup_insert_eq in Hk by lia. injection Hk as <-.
    destruct Hb as [?|[[Hb _]|[_ ?]]]; [done| |done]. apply slot_nibble in Hb. lia.
  - destruct (decide (i = slot b)) as [->|]; [exists j, y|exists i, x]; by rewrite list_lookup_insert_ne.
Qed.
