(* ===== verification/TrieNode.v ===== *)
(** * The nodes of the trie ([lib/trie/node.go], the nodes of [lib/trie/database.go])

    Nodes with their cached hashes, how they are written as RLP and read back,
    and the raw nodes in which the node database keeps them. *)
From S2P Require Import Prelude CommonMath RlpEncode RlpDecode VmBase TrieEncoding.
From stdpp Require Import base numbers list.
From Stdlib Require Import ZArith Lia.
#[local] Open Scope Z_scope.

Module Node.

Record nodeFlag := mkFlag {
  fhash : option (list byte);
  gen : Z;
  dirty : bool
}.

(** A nil [node] is a constructor of its own. *)
Inductive node : Type :=
| nilNode
| fullNode (children : list node) (flags : nodeFlag)
| shortNode (key : list byte) (val : node) (flags : nodeFlag)
| hashNode (h : list byte)
| valueNode (v : list byte).

Definition is_nil (n : node) : bool := match n with nilNode => true | _ => false end.

(** The subtraction is in [uint16]. *)
Definition flag_canUnload (f : nodeFlag) (cachegen cachelimit : Z) : bool :=
  negb (dirty f) && (cachelimit <=? (cachegen - gen f) mod 2 ^ 16).
Definition canUnload (n : node) (cachegen cachelimit : Z) : bool :=
  match n with
  | fullNode _ f | shortNode _ _ f => flag_canUnload f cachegen cachelimit
  | _ => false
  end.
Definition cache (n : node) : option (list byte) * bool :=
  match n with
  | fullNode _ f | shortNode _ _ f => (fhash f, dirty f)
  | _ => (None, true)
  end.

(** ** Writing *)

(** What the encoder writes for a node: [fullNode.EncodeRLP] puts empty strings for
    the missing children, a nil interface elsewhere is an empty list. *)
Fixpoint node_val (n : node) : val :=
  match n with
  | nilNode => VList []
  | fullNode cs _ => VList (map (fun c => if is_nil c then VBytes [] else node_val c) cs)
  | shortNode k v _ => VList [VBytes k; node_val v]
  | hashNode h => VBytes h
  | valueNode v => VBytes v
  end.

(** ** Reading *)

(** The part of a node in which decoding failed. *)
Inductive ctx : Type := CShort | CFull | CVal | CIndex (i : nat).
Inductive decerr : Type :=
| DEOF
| DDecode (e : rlperr)
| DCount (c : Z)
| DRlp (e : rlperr)
| DValue (e : rlperr)
| DOversized (size : Z)
| DSize (n : Z).
(** An error as it is, or a [decodeError]. *)
Inductive nodeerr : Type :=
| Plain (e : decerr)
| decodeError (what : decerr) (stack : list ctx).

Definition wrapError (e : nodeerr) (c : ctx) : nodeerr :=
  match e with
  | decodeError what stack => decodeError what (stack ++ [c])
  | Plain e => decodeError e [c]
  end.

Definition wrap {A} (r : outcome (result nodeerr A)) (c : ctx) : outcome (result nodeerr A) :=
  let! r := r in
  Ok match r with Good a => Good a | Err e => Err (wrapError e c) end.

Definition hashLen : Z := Z.of_nat HashLength.

Section decode.
(** [decodeNode] with less fuel. *)
Variable decodeNode : option (list byte) -> list byte -> Z -> outcome (result nodeerr node).

Definition decodeRef (buf : list byte) (cachegen : Z) : outcome (result nodeerr (node * list byte)) :=
  match Split buf with
  | Err e => Ok (Err (Plain (DRlp e)))
  | Good (kind, val, rest) =>
      match kind with
      | KList =>
          let size := zlen buf - zlen rest in
          if hashLen <? size then Ok (Err (Plain (DOversized size)))
          else
            let! n := decodeNode None buf cachegen in
            Ok match n with Good n => Good (n, rest) | Err e => Err e end
      | _ =>
          if bool_decide (kind = KString) && (zlen val =? 0) then Ok (Good (nilNode, rest))
          else if bool_decide (kind = KString) && (zlen val =? 32) then Ok (Good (hashNode val, rest))
          else Ok (Err (Plain (DSize (zlen val))))
      end
  end.

Definition decodeShort (hash : option (list byte)) (elems : list byte) (cachegen : Z) : outcome (result nodeerr node) :=
  match SplitString elems with
  | Err e => Ok (Err (Plain (DRlp e)))
  | Good (kbuf, rest) =>
      let flag := mkFlag hash cachegen false in
      let! key := compactToHex kbuf in
      if hasTerm key then
        match SplitString rest with
        | Err e => Ok (Err (Plain (DValue e)))
        | Good (val, _) => Ok (Good (shortNode key (valueNode val) flag))
        end
      else
        let! r := decodeRef rest cachegen in
        match r with
        | Err e => Ok (Err (wrapError e CVal))
        | Good (r, _) => Ok (Good (shortNode key r flag))
        end
  end.

(** The children from the [i]-th on, [m] of them, and what follows. *)
Fixpoint decodeChildren (m i : nat) (elems : list byte) (cachegen : Z) : outcome (result nodeerr (list node * list byte)) :=
  match m with
  | O => Ok (Good ([], elems))
  | S m =>
      let! c := decodeRef elems cachegen in
      match c with
      | Err e => Ok (Err (wrapError e (CIndex i)))
      | Good (cld, rest) =>
          let! r := decodeChildren m (S i) rest cachegen in
          Ok match r with Err e => Err e | Good (cs, rest) => Good (cld :: cs, rest) end
      end
  end.

Definition decodeFull (hash : option (list byte)) (elems : list byte) (cachegen : Z) : outcome (result nodeerr node) :=
  let! r := decodeChildren 16 0 elems cachegen in
  match r with
  | Err e => Ok (Err e)
  | Good (cs, elems) =>
      match SplitString elems with
      | Err e => Ok (Err (Plain (DRlp e)))
      | Good (val, _) =>
          Ok (Good (fullNode (cs ++ [if 0 <? zlen val then valueNode val else nilNode]) (mkFlag hash cachegen false)))
      end
  end.
End decode.

(** A node below another is in its elements, which are shorter. *)
Fixpoint decodeNode_fuel (fuel : nat) (hash : option (list byte)) (buf : list byte) (cachegen : Z) : outcome (result nodeerr node) :=
  match fuel with
  | O => OutOfFuel
  | S fuel =>
      if zlen buf =? 0 then Ok (Err (Plain DEOF))
      else
        match SplitList buf with
        | Err e => Ok (Err (Plain (DDecode e)))
        | Good (elems, _) =>
            let! c := CountValues elems in
            let c := match c with Good c => c | Err _ => 0 end in
            if c =? 2 then wrap (decodeShort (decodeNode_fuel fuel) hash elems cachegen) CShort
            else if c =? 17 then wrap (decodeFull (decodeNode_fuel fuel) hash elems cachegen) CFull
            else Ok (Err (Plain (DCount c)))
        end
  end.
Definition decodeNode (hash : option (list byte)) (buf : list byte) (cachegen : Z) : outcome (result nodeerr node) :=
  decodeNode_fuel (S (length buf)) hash buf cachegen.

Definition mustDecodeNode (hash : option (list byte)) (buf : list byte) (cachegen : Z) : outcome node :=
  let! n := decodeNode hash buf cachegen in
  match n with Good n => Ok n | Err _ => Panic end.

(** ** Raw nodes *)

Inductive rawnode : Type :=
| rawNil
| rawNode (blob : list byte)
| rawShortNode (key : list byte) (val : rawnode)
| rawFullNode (children : list rawnode)
| rawHash (h : list byte)
| rawValue (v : list byte).

(** One outcome after the other, for every element. *)
Fixpoint omap {A B} (f : A -> outcome B) (l : list A) : outcome (list B) :=
  match l with
  | [] => Ok []
  | a :: l => let! b := f a in let! bs := omap f l in Ok (b :: bs)
  end.

(** The same, for the first [k] of them. *)
Fixpoint omap_first {A B} (f : A -> outcome B) (k : nat) (l : list A) : outcome (list B) :=
  match k, l with
  | S k, a :: l => let! b := f a in let! bs := omap_first f k l in Ok (b :: bs)
  | _, _ => Ok []
  end.

Fixpoint simplifyNode (n : node) : outcome rawnode :=
  match n with
  | shortNode k v _ => let! v := simplifyNode v in Ok (rawShortNode k v)
  | fullNode cs _ =>
      let! cs := omap (fun c => if is_nil c then Ok rawNil else simplifyNode c) cs in
      Ok (rawFullNode cs)
  | valueNode v => Ok (rawValue v)
  | hashNode h => Ok (rawHash h)
  | nilNode => Panic
  end.

Definition raw_is_nil (n : rawnode) : bool := match n with rawNil => true | _ => false end.

Fixpoint expandNode (hash : option (list byte)) (n : rawnode) (cachegen : Z) : outcome node :=
  match n with
  | rawShortNode k v =>
      let! key := compactToHex k in
      let! v := expandNode None v cachegen in
      Ok (shortNode key v (mkFlag hash cachegen false))
  | rawFullNode cs =>
      let! cs := omap (fun c => if raw_is_nil c then Ok nilNode else expandNode None c cachegen) cs in
      Ok (fullNode cs (mkFlag hash cachegen false))
  | rawValue v => Ok (valueNode v)
  | rawHash h => Ok (hashNode h)
  | rawNode _ | rawNil => Panic
  end.

Fixpoint raw_val (n : rawnode) : val :=
  match n with
  | rawNil => VList []
  | rawNode b => VBytes b
  | rawShortNode k v => VList [VBytes k; raw_val v]
  | rawFullNode cs => VList (map (fun c => if raw_is_nil c then VBytes [] else raw_val c) cs)
  | rawHash h => VBytes h
  | rawValue v => VBytes v
  end.

(** The hashes of the nodes below, in order. *)
Fixpoint gatherChildren (n : rawnode) : outcome (list Hash) :=
  match n with
  | rawShortNode _ v => gatherChildren v
  | rawFullNode cs => let! hs := omap_first gatherChildren 16 cs in Ok (concat hs)
  | rawHash h => Ok [BytesToHash h]
  | rawValue _ | rawNil => Ok []
  | rawNode _ => Panic
  end.

End Node.
