(* ===== verification/TrieModel.v ===== *)
(** * The Merkle-Patricia trie ([lib/trie/node.go], [trie.go], [hasher.go])

    Nodes with their cached hashes and the recursive operations over them.  The
    node database is a parameter: [db_node] is [Database.node], which finds the
    node of a hash, and [db_insert] is [Database.insert]. *)
From S2P Require Import Prelude CommonMath RlpEncode RlpDecode Opcodes VmBase VmInterface TrieEncoding TrieNode.
From stdpp Require Import base numbers list.
From Stdlib Require Import ZArith Lia.
#[local] Open Scope Z_scope.

Module Trie.

Export Node.

Inductive trieerror : Type :=
| MissingNodeError (hash : Hash) (path : list byte).

(** The node database: what it holds, and how a node is put in. *)
Class NodeDatabase (DB : Type) := {
  db_node : DB -> Hash -> Z -> outcome (option node);
  db_insert : DB -> Hash -> list byte -> node -> outcome DB
}.

Section trie.
Context {DB : Type} `{NodeDatabase DB} (cr : Crypto).

Record Trie := mkTrie {
  db : DB;
  root : node;
  cachegen : Z;
  cachelimit : Z
}.
Definition with_root (t : Trie) (n : node) : Trie := mkTrie (db t) n (cachegen t) (cachelimit t).

Definition newFlag (t : Trie) : nodeFlag := mkFlag None (cachegen t) true.

(** [append(prefix, ...)] only serves the paths of error messages. *)
Definition resolveHash (t : Trie) (h prefix : list byte) : outcome (result trieerror node) :=
  let hash := BytesToHash h in
  let! n := db_node (db t) hash (cachegen t) in
  Ok match n with
     | Some n => Good n
     | None => Err (MissingNodeError hash prefix)
     end.

Definition resolve (t : Trie) (n : node) (prefix : list byte) : outcome (result trieerror node) :=
  match n with
  | hashNode h => resolveHash t h prefix
  | _ => Ok (Good n)
  end.

Definition emptyRoot : Hash := 0x56e81f171bcc55a6ff8345e692c0f86e5b48e01b996cadc001622fb5e363b421.

Definition New (r : Hash) (d : DB) : outcome (result trieerror Trie) :=
  let t := mkTrie d nilNode 0 0 in
  if negb (r =? 0) && negb (r =? emptyRoot) then
    let! n := resolveHash t (Hash_Bytes r) [] in
    Ok (try! n := n in Good (with_root t n))
  else Ok (Good t).

(** ** Reading *)

(** Value, the node with what was resolved on the way, and whether there was any. *)
Fixpoint tryGet (fuel : nat) (t : Trie) (n : node) (key : list byte) (pos : nat)
    : outcome (result trieerror (option (list byte) * node * bool)) :=
  match fuel with
  | O => OutOfFuel
  | S fuel =>
      match n with
      | nilNode => Ok (Good (None, nilNode, false))
      | valueNode v => Ok (Good (Some v, n, false))
      | shortNode k val f =>
          if Nat.ltb (length key - pos) (length k) || negb (bool_decide (k = take (length k) (drop pos key)))
          then Ok (Good (None, n, false))
          else
            let! r := tryGet fuel t val key (pos + length k) in
            match r with
            | Err e => Ok (Err e)
            | Good (v, newnode, didResolve) =>
                Ok (Good (v, if didResolve : bool then shortNode k newnode (mkFlag (fhash f) (cachegen t) (dirty f)) else n, didResolve))
            end
      | fullNode cs f =>
          match key !! pos with
          | None => Panic
          | Some b =>
              match cs !! Z.to_nat (b2z b) with
              | None => Panic
              | Some c =>
                  let! r := tryGet fuel t c key (pos + 1) in
                  match r with
                  | Err e => Ok (Err e)
                  | Good (v, newnode, didResolve) =>
                      Ok (Good (v, if didResolve : bool
                                   then fullNode (<[Z.to_nat (b2z b) := newnode]> cs) (mkFlag (fhash f) (cachegen t) (dirty f))
                                   else n, didResolve))
                  end
              end
          end
      | hashNode h =>
          let! child := resolveHash t h (take pos key) in
          match child with
          | Err e => Ok (Err e)
          | Good child =>
              let! r := tryGet fuel t child key pos in
              match r with
              | Err e => Ok (Err e)
              | Good (v, newnode, _) => Ok (Good (v, newnode, true))
              end
          end
      end
  end.

(** Every round but the visit of a hash consumes a byte of the key. *)
Definition key_fuel (key : list byte) : nat := 2 * length key + 2.

Definition TryGet (t : Trie) (key : list byte) : outcome (result trieerror (option (list byte)) * Trie) :=
  let key := keybytesToHex key in
  let! r := tryGet (key_fuel key) t (root t) key 0 in
  match r with
  | Err e => Ok (Err e, t)
  | Good (v, newroot, didResolve) => Ok (Good v, if didResolve : bool then with_root t newroot else t)
  end.

(** ** Writing *)

(** Whether the trie changed, and the new node. *)
Definition update_result : Type := outcome (result trieerror (bool * node)).

Fixpoint insert (fuel : nat) (t : Trie) (n : node) (prefix key : list byte) (value : node) : update_result :=
  match fuel with
  | O => OutOfFuel
  | S fuel =>
      match key with
      | [] =>
          match n with
          | valueNode v =>
              match value with
              | valueNode v' => Ok (Good (negb (bool_decide (v = v')), value))
              | _ => Panic
              end
          | _ => Ok (Good (true, value))
          end
      | k0 :: krest =>
          match n with
          | shortNode nkey nval f =>
              let matchlen := prefixLen key nkey in
              if Nat.eqb matchlen (length nkey) then
                let! r := insert fuel t nval (prefix ++ take matchlen key) (drop matchlen key) value in
                match r with
                | Err e => Ok (Err e)
                | Good (d, nn) => Ok (Good (if d : bool then (true, shortNode nkey nn (newFlag t)) else (false, n)))
                end
              else
                match nkey !! matchlen, key !! matchlen with
                | Some nb, Some kb =>
                    let branch := replicate 17 nilNode in
                    let! r1 := insert fuel t nilNode (prefix ++ take (matchlen + 1) nkey) (drop (matchlen + 1) nkey) nval in
                    match r1 with
                    | Err e => Ok (Err e)
                    | Good (_, c1) =>
                        if Nat.leb 17 (Z.to_nat (b2z nb)) then Panic
                        else
                          let branch := <[Z.to_nat (b2z nb) := c1]> branch in
                          let! r2 := insert fuel t nilNode (prefix ++ take (matchlen + 1) key) (drop (matchlen + 1) key) value in
                          match r2 with
                          | Err e => Ok (Err e)
                          | Good (_, c2) =>
                              if Nat.leb 17 (Z.to_nat (b2z kb)) then Panic
                              else
                                let branch := fullNode (<[Z.to_nat (b2z kb) := c2]> branch) (newFlag t) in
                                if Nat.eqb matchlen 0 then Ok (Good (true, branch))
                                else Ok (Good (true, shortNode (take matchlen key) branch (newFlag t)))
                          end
                    end
                | _, _ => Panic
                end
          | fullNode cs f =>
              match cs !! Z.to_nat (b2z k0) with
              | None => Panic
              | Some c =>
                  let! r := insert fuel t c (prefix ++ [k0]) krest value in
                  match r with
                  | Err e => Ok (Err e)
                  | Good (d, nn) =>
                      Ok (Good (if d : bool then (true, fullNode (<[Z.to_nat (b2z k0) := nn]> cs) (newFlag t)) else (false, n)))
                  end
              end
          | nilNode => Ok (Good (true, shortNode key value (newFlag t)))
          | hashNode h =>
              let! rn := resolveHash t h prefix in
              match rn with
              | Err e => Ok (Err e)
              | Good rn =>
                  let! r := insert fuel t rn prefix key value in
                  match r with
                  | Err e => Ok (Err e)
                  | Good (d, nn) => Ok (Good (if d : bool then (true, nn) else (false, rn)))
                  end
              end
          | valueNode _ => Panic
          end
      end
  end.

(** The position of the only child left: [-1] if there is none, [-2] if there are more. *)
Fixpoint only_child (i : nat) (cs : list node) (pos : Z) : Z :=
  match cs with
  | [] => pos
  | c :: cs =>
      if is_nil c then only_child (S i) cs pos
      else if pos =? -1 then only_child (S i) cs (Z.of_nat i) else -2
  end.

(** The end of the removal below a full node: a single child is merged with its parent. *)
Definition shrink (t : Trie) (cs : list node) (prefix : list byte) : update_result :=
  let pos := only_child 0 cs (-1) in
  if 0 <=? pos then
    let child := default nilNode (cs !! Z.to_nat pos) in
    if negb (pos =? 16) then
      let! cnode := resolve t child prefix in
      match cnode with
      | Err e => Ok (Err e)
      | Good (shortNode ckey cval _) => Ok (Good (true, shortNode (z2b pos :: ckey) cval (newFlag t)))
      | Good _ => Ok (Good (true, shortNode [z2b pos] child (newFlag t)))
      end
    else Ok (Good (true, shortNode [z2b pos] child (newFlag t)))
  else Ok (Good (true, fullNode cs (newFlag t))).

Fixpoint delete (fuel : nat) (t : Trie) (n : node) (prefix key : list byte) : update_result :=
  match fuel with
  | O => OutOfFuel
  | S fuel =>
      match n with
      | shortNode nkey nval f =>
          let matchlen := prefixLen key nkey in
          if Nat.ltb matchlen (length nkey) then Ok (Good (false, n))
          else if Nat.eqb matchlen (length key) then Ok (Good (true, nilNode))
          else
            let! r := delete fuel t nval (prefix ++ take (length nkey) key) (drop (length nkey) key) in
            match r with
            | Err e => Ok (Err e)
            | Good (false, _) => Ok (Good (false, n))
            | Good (true, shortNode ckey cval _) => Ok (Good (true, shortNode (nkey ++ ckey) cval (newFlag t)))
            | Good (true, child) => Ok (Good (true, shortNode nkey child (newFlag t)))
            end
      | fullNode cs f =>
          match key with
          | [] => Panic
          | k0 :: krest =>
              match cs !! Z.to_nat (b2z k0) with
              | None => Panic
              | Some c =>
                  let! r := delete fuel t c (prefix ++ [k0]) krest in
                  match r with
                  | Err e => Ok (Err e)
                  | Good (false, _) => Ok (Good (false, n))
                  | Good (true, nn) => shrink t (<[Z.to_nat (b2z k0) := nn]> cs) prefix
                  end
              end
          end
      | valueNode _ => Ok (Good (true, nilNode))
      | nilNode => Ok (Good (false, nilNode))
      | hashNode h =>
          let! rn := resolveHash t h prefix in
          match rn with
          | Err e => Ok (Err e)
          | Good rn =>
              let! r := delete fuel t rn prefix key in
              match r with
              | Err e => Ok (Err e)
              | Good (d, nn) => Ok (Good (if d : bool then (true, nn) else (false, rn)))
              end
          end
      end
  end.

Definition finish_update (t : Trie) (r : result trieerror (bool * node)) : option trieerror * Trie :=
  match r with
  | Err e => (Some e, t)
  | Good (_, n) => (None, with_root t n)
  end.

Definition TryDelete (t : Trie) (key : list byte) : outcome (option trieerror * Trie) :=
  let k := keybytesToHex key in
  let! r := delete (key_fuel k) t (root t) [] k in
  Ok (finish_update t r).

Definition TryUpdate (t : Trie) (key value : list byte) : outcome (option trieerror * Trie) :=
  let k := keybytesToHex key in
  let! r := (if negb (zlen value =? 0) then insert (key_fuel k) t (root t) [] k (valueNode value)
             else delete (key_fuel k) t (root t) [] k) in
  Ok (finish_update t r).

(** ** Hashing ([lib/trie/hasher.go]) *)

(** The buffer and the hash state of a hasher hold nothing from one node to the
    next; the database is nil or the one that nodes are stored in. *)
Definition LeafCallback : Type := DB -> list byte -> Hash -> outcome DB.

Section hasher.
Context (h_cachegen h_cachelimit : Z) (onleaf : option LeafCallback).

Definition makeHashNode (data : list byte) : list byte := keccak256 cr data.

Fixpoint leaves (f : LeafCallback) (k : nat) (cs : list node) (hash : Hash) (d : DB) : outcome DB :=
  match k, cs with
  | S k, valueNode v :: cs => let! d := f d v hash in leaves f k cs hash d
  | S k, _ :: cs => leaves f k cs hash d
  | _, _ => Ok d
  end.

Definition call_onleaf (n : node) (hash : Hash) (d : DB) : outcome DB :=
  match onleaf, n with
  | Some f, shortNode _ (valueNode v) _ => f d v hash
  | Some f, fullNode cs _ => leaves f 16 cs hash d
  | _, _ => Ok d
  end.

Definition store (n : node) (od : option DB) (force : bool) : outcome (node * option DB) :=
  match n with
  | nilNode | hashNode _ => Ok (n, od)
  | _ =>
      match EncodeToBytes (node_val n) with
      | Err _ => Panic
      | Good tmp =>
          if (zlen tmp <? 32) && negb force then Ok (n, od)
          else
            let h := match fst (cache n) with Some h => h | None => makeHashNode tmp end in
            match od with
            | None => Ok (hashNode h, None)
            | Some d =>
                let hash := BytesToHash h in
                let! d := db_insert d hash tmp n in
                let! d := call_onleaf n hash d in
                Ok (hashNode h, Some d)
            end
      end
  end.

(** The collapsed node, the node to keep, and the database. *)
Definition hashed : Type := outcome (node * node * option DB).

(** The first [k] children. *)
Fixpoint hash_first (hash : node -> option DB -> bool -> hashed) (k : nat) (cs : list node) (od : option DB)
    : outcome (list node * list node * option DB) :=
  match k, cs with
  | S k, c :: cs =>
      let! (collapsed, cached, od) := (if is_nil c then Ok (c, c, od) else hash c od false) in
      let! (collapseds, cacheds, od) := hash_first hash k cs od in
      Ok (collapsed :: collapseds, cached :: cacheds, od)
  | _, _ => Ok (cs, cs, od)
  end.

Definition hashChildren (hash : node -> option DB -> bool -> hashed) (original : node) (od : option DB) : hashed :=
  match original with
  | shortNode k v f =>
      let! ck := hexToCompact k in
      match v with
      | valueNode _ => Ok (shortNode ck v f, shortNode k v f, od)
      | _ =>
          let! (cv, kv, od) := hash v od false in
          Ok (shortNode ck cv f, shortNode k kv f, od)
      end
  | fullNode cs f =>
      let! (collapseds, cacheds, od) := hash_first hash 16 cs od in
      Ok (fullNode collapseds f, fullNode cacheds f, od)
  | _ => Ok (original, original, od)
  end.

Definition set_cached (n : node) (h : option (list byte)) (clean : bool) : node :=
  let flag f := mkFlag h (gen f) (if clean then false else dirty f) in
  match n with
  | shortNode k v f => shortNode k v (flag f)
  | fullNode cs f => fullNode cs (flag f)
  | _ => n
  end.

Fixpoint hash (n : node) (od : option DB) (force : bool) {struct n} : hashed :=
  let compute :=
    let! (collapsed, cached, od) := hashChildren hash n od in
    let! (hashed, od) := store collapsed od force in
    let cachedHash := match hashed with hashNode h => Some h | _ => None end in
    Ok (hashed, set_cached cached cachedHash match od with Some _ => true | None => false end, od) in
  match n with
  | nilNode => Panic
  | _ =>
      match cache n, od with
      | (Some h, _), None => Ok (hashNode h, n, od)
      | (Some h, dirty), Some _ =>
          if canUnload n h_cachegen h_cachelimit then Ok (hashNode h, hashNode h, od)
          else if negb dirty then Ok (hashNode h, n, od)
          else compute
      | (None, _), _ => compute
      end
  end.
End hasher.

Definition hashRoot (t : Trie) (od : option DB) (onleaf : option LeafCallback) : hashed :=
  match root t with
  | nilNode => Ok (hashNode (Hash_Bytes emptyRoot), nilNode, od)
  | n => hash (cachegen t) (cachelimit t) onleaf n od true
  end.

(** The type assertion panics on anything but a hash. *)
Definition root_hash (n : node) : outcome Hash :=
  match n with hashNode h => Ok (BytesToHash h) | _ => Panic end.

Definition Hash_ (t : Trie) : outcome (Hash * Trie) :=
  let! (h, cached, _) := hashRoot t None None in
  let t := with_root t cached in
  let! h := root_hash h in
  Ok (h, t).

Definition Commit (t : Trie) (onleaf : option LeafCallback) : outcome (Hash * Trie) :=
  let! (h, cached, od) := hashRoot t (Some (db t)) onleaf in
  let t := mkTrie (default (db t) od) cached ((cachegen t + 1) mod 2 ^ 16) (cachelimit t) in
  let! h := root_hash h in
  Ok (h, t).

End trie.
Arguments Trie DB : clear implicits.
End Trie.
