(* ===== verification/TrieRep.v ===== *)
(** * Nodes and the trees they stand for

    [rep d b n t]: the node [n], with the hash references into the database [d]
    followed, stands for the tree [t]; its cached hashes are right ([b] says that
    the node is the root, whose hash is taken whatever its size), and whatever is
    not marked dirty is in the database. *)
From S2P Require Import Prelude CommonMath RlpEncode RlpDecode RlpFacts Opcodes VmBase VmInterface.
From S2P Require Import TrieEncoding TrieTree TrieNode TrieModel.
From stdpp Require Import base numbers list.
From Stdlib Require Import ZArith Lia.
#[local] Open Scope Z_scope.

Import Trie.

(** ** Hashes of trees *)

Section hashes.
Context (cr : Crypto).

Definition compact (k : list byte) : list byte := match hexToCompact k with Ok c => c | _ => [] end.

(** A node whose encoding has fewer than 32 bytes is put in its parent as it is,
    any other is referred to by its hash. *)
Definition squeeze (v : val) : val :=
  if zlen (enc_val v) <? 32 then v else VBytes (keccak256 cr (enc_val v)).

Fixpoint ref (t : tree) : val :=
  match t with
  | Leafless => VBytes []
  | Value v => VBytes v
  | Short k t => squeeze (VList [VBytes (compact k); ref t])
  | Full ts => squeeze (VList (map ref ts))
  end.

(** The node itself, its children referred to. *)
Definition expanded (t : tree) : val :=
  match t with
  | Leafless => VBytes []
  | Value v => VBytes v
  | Short k t => VList [VBytes (compact k); ref t]
  | Full ts => VList (map ref ts)
  end.

Definition root_bytes (t : tree) : list byte := keccak256 cr (enc_val (expanded t)).
(** The Merkle root of a tree. *)
Definition merkle_root (t : tree) : Hash :=
  match t with Leafless => emptyRoot | _ => BytesToHash (root_bytes t) end.

Definition is_branch (t : tree) : Prop := match t with Short _ _ | Full _ => True | _ => False end.

Definition hash_ok (b : bool) (h : list byte) (t : tree) : Prop :=
  is_branch t /\ if b then h = root_bytes t else ref t = VBytes h.

Lemma hash_ok_root h t : hash_ok false h t -> hash_ok true h t.
Proof.
  intros [Hb E]. split; [done|]. unfold root_bytes. destruct t as [| |k t|ts]; try done; cbn in E |- *; unfold squeeze in E.
  all: destruct (_ <? 32); [done|by injection E as <-].
Qed.

(** The node of a tree as it is read from the database: below it are the hashes of
    the nodes that have one, and the others themselves. *)
Fixpoint child_node (g : Z) (t : tree) : node :=
  match t with
  | Leafless => nilNode
  | Value v => valueNode v
  | Short k u =>
      match ref t with
      | VBytes h => hashNode h
      | _ => shortNode k (child_node g u) (mkFlag None g false)
      end
  | Full ts =>
      match ref t with
      | VBytes h => hashNode h
      | _ => fullNode (map (child_node g) ts) (mkFlag None g false)
      end
  end.
Definition load (h : option (list byte)) (g : Z) (t : tree) : node :=
  match t with
  | Leafless => nilNode
  | Value v => valueNode v
  | Short k u => shortNode k (child_node g u) (mkFlag h g false)
  | Full ts => fullNode (map (child_node g) ts) (mkFlag h g false)
  end.

Lemma child_node_cases g t : is_branch t -> (exists h, ref t = VBytes h /\ child_node g t = hashNode h) \/ child_node g t = load None g t.
Proof. destruct t as [| |k u|ts]; try done; intros _; cbn -[ref]; (destruct (ref _); [by right..| |by right]); left; eauto. Qed.
End hashes.


Section raw.
Context (cr : Crypto).

(** ** Raw nodes of trees *)

Fixpoint raw_ref (t : tree) : rawnode :=
  match t with
  | Leafless => rawNil
  | Value v => rawValue v
  | Short k u =>
      match ref cr t with
      | VBytes h => rawHash h
      | _ => rawShortNode (compact k) (raw_ref u)
      end
  | Full ts =>
      match ref cr t with
      | VBytes h => rawHash h
      | _ => rawFullNode (map raw_ref ts)
      end
  end.
Definition raw_node (t : tree) : rawnode :=
  match t with
  | Leafless => rawNil
  | Value v => rawValue v
  | Short k u => rawShortNode (compact k) (raw_ref u)
  | Full ts => rawFullNode (map raw_ref ts)
  end.

Lemma ref_branch t : is_branch t -> ref cr t = squeeze cr (expanded cr t).
Proof. by destruct t. Qed.

(** A branch is referred to by its hash or in full. *)
Lemma ref_cases t : is_branch t ->
  (zlen (enc_val (expanded cr t)) < 32 /\ ref cr t = expanded cr t /\ raw_ref t = raw_node t /\ forall g, child_node cr g t = load cr None g t) \/
  (32 <= zlen (enc_val (expanded cr t)) /\ ref cr t = VBytes (root_bytes cr t) /\ raw_ref t = rawHash (root_bytes cr t) /\
    forall g, child_node cr g t = hashNode (root_bytes cr t)).
Proof.
  intros Hb. pose proof (ref_branch t Hb) as E. unfold squeeze in E.
  destruct (Z.ltb_spec (zlen (enc_val (expanded cr t))) 32); [left|right]; (split; [done|]; split; [done|]);
    (destruct t; try done); cbn [raw_ref child_node]; by rewrite E.
Qed.

Lemma ref_hash t h : is_branch t -> ref cr t = VBytes h -> h = root_bytes cr t.
Proof.
  intros Hb E. destruct (ref_cases t Hb) as [(_ & E' & _)|(_ & E' & _)]; [by destruct t; rewrite E' in E|congruence].
Qed.
Lemma hash_ok_bytes b h t : hash_ok cr b h t -> h = root_bytes cr t.
Proof. intros [Hb E]. destruct b; [done|by apply ref_hash]. Qed.

(** ** What comes back *)

Lemma omap_map {A B} (f : A -> outcome B) (g : A -> B) l : (forall a, a ∈ l -> f a = Ok (g a)) -> omap f l = Ok (map g l).
Proof.
  induction l as [|a l IH]; intros Hf; [done|]. cbn. rewrite (Hf a) by constructor. cbn [obind]. rewrite IH; [done|].
  intros x Hx. apply Hf. by constructor.
Qed.

(** Every key on the way is a path, with the terminator or not. *)
Inductive keyed : tree -> Prop :=
| keyed_nil : keyed Leafless
| keyed_value v : keyed (Value v)
| keyed_short k t : hexkey k -> keyed t -> t <> Leafless -> keyed (Short k t)
| keyed_full ts : (forall t, t ∈ ts -> keyed t) -> keyed (Full ts).

Lemma inner_keyed t : inner t -> keyed t.
Proof.
  induction 1 as [p v Hp Hv|p ts Hp Hne _ IH|ts Hl _ _ IH H16].
  - constructor; [right; by exists p|constructor|done].
  - constructor; [by left|done|done].
  - constructor. intros t (i & Hi)%list_elem_of_lookup. destruct (decide (t = Leafless)) as [->|Hn]; [constructor|].
    destruct (decide (i = 16%nat)) as [->|]; [|by eapply IH]. destruct (H16 t Hi Hn) as (v & -> & _). constructor.
Qed.

Lemma compact_ok k : hexkey k -> hexToCompact k = Ok (compact k) /\ compactToHex (compact k) = Ok k.
Proof. intros (c & E & _ & E')%compact_roundtrip. unfold compact. by rewrite E. Qed.

Lemma raw_ref_nil t : raw_is_nil (raw_ref t) = true <-> t = Leafless.
Proof. destruct t as [| |k u|ts]; cbn; try done; destruct (squeeze _ _); done. Qed.

Lemma expandNode_children g ts : (forall t, t ∈ ts -> t <> Leafless -> expandNode None (raw_ref t) g = Ok (child_node cr g t)) ->
  omap (fun c => if raw_is_nil c then Ok nilNode else expandNode None c g) (map raw_ref ts) = Ok (map (child_node cr g) ts).
Proof.
  induction ts as [|u ts IH]; intros Hts; [done|]. cbn [map omap].
  assert ((if raw_is_nil (raw_ref u) then Ok nilNode else expandNode None (raw_ref u) g) = Ok (child_node cr g u)) as ->.
  { destruct (raw_is_nil (raw_ref u)) eqn:E; [by apply raw_ref_nil in E as ->|]. apply Hts; [constructor|]. by intros ->. }
  cbn [obind]. rewrite IH; [done|]. intros x Hx. apply Hts. by constructor.
Qed.

Lemma expandNode_ref g t : keyed t -> t <> Leafless -> expandNode None (raw_ref t) g = Ok (child_node cr g t).
Proof.
  induction 1 as [|v|k u Hkk Hu IH Hne|ts Hts IH]; intros Hn; [done|done|..].
  - destruct (ref_cases (Short k u) I) as [(_ & _ & -> & ->)|(_ & _ & -> & ->)]; [|done].
    cbn. rewrite (proj2 (compact_ok k Hkk)). cbn [obind]. by rewrite IH.
  - destruct (ref_cases (Full ts) I) as [(_ & _ & -> & ->)|(_ & _ & -> & ->)]; [|done].
    cbn. by rewrite expandNode_children.
Qed.

(** A stored node comes back as the node of its tree. *)
Lemma expandNode_node h g t : is_branch t -> keyed t -> expandNode h (raw_node t) g = Ok (load cr h g t).
Proof.
  intros Hb Hkey. destruct Hkey as [| |k u Hkk Hu Hn|ts Hts]; try done; cbn.
  - by rewrite (proj2 (compact_ok k Hkk)), expandNode_ref.
  - rewrite expandNode_children; [done|]. intros t Ht Hn. apply expandNode_ref; [by apply Hts|done].
Qed.

End raw.

(** ** The node database *)

Definition db_absent {DB : Type} `{NodeDatabase DB} (d : DB) (h : Hash) : Prop := forall g, db_node d h g = Ok None.

(** What the trie relies on of the node database: a raw node that it holds under a
    hash is found there, and one that is put in is held from then on. *)
Class NodeDatabaseLaws (DB : Type) `{NodeDatabase DB} := {
  db_ok : DB -> Prop;
  db_holds : DB -> Hash -> rawnode -> Prop;
  db_holds_node : forall d h r g m, db_holds d h r -> expandNode (Some (Hash_Bytes h)) r g = Ok m -> db_node d h g = Ok (Some m);
  db_insert_ok : forall d h blob n r, db_ok d -> is_word h -> h <> 0 -> simplifyNode n = Ok r ->
    (forall g, exists m, expandNode (Some (Hash_Bytes h)) r g = Ok m) -> db_absent d h \/ db_holds d h r ->
    exists d', db_insert d h blob n = Ok d' /\ db_ok d' /\ db_holds d' h r /\
      (forall h' r', db_holds d h' r' -> db_holds d' h' r') /\ (forall h', h' <> h -> db_absent d h' -> db_absent d' h')
}.

Section rep.
Context {DB : Type} `{NodeDatabaseLaws DB} (cr : Crypto) (Hk : forall x, zlen (keccak256 cr x) = 32) (d : DB).
Local Abbreviation Trie := (Trie DB).

Definition not_hash (n : node) : Prop := match n with hashNode _ => False | _ => True end.

(** ** What the database holds *)

Definition kept (t : tree) : Prop := db_holds d (BytesToHash (root_bytes cr t)) (raw_node cr t).
Definition stored (t : tree) : Prop := forall h, ref cr t = VBytes h -> kept t.

Inductive held : tree -> Prop :=
| held_nil : held Leafless
| held_value v : held (Value v)
| held_short k t : held t -> stored (Short k t) -> held (Short k t)
| held_full ts : (forall i t, ts !! i = Some t -> held t) -> stored (Full ts) -> held (Full ts).

Definition parts_held (t : tree) : Prop :=
  match t with
  | Short _ u => held u
  | Full ts => forall i u, ts !! i = Some u -> held u
  | _ => True
  end.
Definition held_as (b : bool) (t : tree) : Prop :=
  parts_held t /\ if b then kept t else is_branch t -> stored t.

Lemma held_as_child t : held_as false t <-> held t.
Proof.
  split.
  - intros [Hp Hs]. destruct t; constructor; (done || by apply Hs).
  - intros []; (split; [done|]); by intros.
Qed.

(** ** Nodes *)

Definition flag_ok (b : bool) (f : nodeFlag) (t : tree) : Prop :=
  (forall h, fhash f = Some h -> hash_ok cr b h t) /\ (dirty f = false -> held_as b t).

Inductive rep : bool -> node -> tree -> Prop :=
| rep_nil b : rep b nilNode Leafless
| rep_value b v : rep b (valueNode v) (Value v)
| rep_short b k n f t : rep false n t -> flag_ok b f (Short k t) -> rep b (shortNode k n f) (Short k t)
| rep_full b cs f ts : length cs = length ts ->
    (forall i c t, cs !! i = Some c -> ts !! i = Some t -> rep false c t) ->
    flag_ok b f (Full ts) -> rep b (fullNode cs f) (Full ts)
| rep_hash b h t : hash_ok cr b h t -> held_as b t -> rep b (hashNode h) t.

Lemma rep_hash_inv b h t : rep b (hashNode h) t -> hash_ok cr b h t /\ held_as b t.
Proof. intros Hr. by inversion Hr. Qed.

(** What the database holds stands for its tree. *)
Lemma load_rep g b h t : held_as b t -> (forall x, h = Some x -> hash_ok cr b x t) ->
  (forall u, held u -> rep false (child_node cr g u) u) -> rep b (load cr h g t) t.
Proof.
  intros Hh Hx IH. destruct t as [|v|k u|ts]; cbn; [constructor..| |].
  - constructor; [by apply IH, Hh|]. by split.
  - constructor; [by rewrite length_map| |by split]. intros i c u Hc Hu. rewrite list_lookup_fmap, Hu in Hc. injection Hc as <-.
    apply IH. by eapply (proj1 Hh).
Qed.

Lemma child_rep g t : held t -> rep false (child_node cr g t) t.
Proof.
  induction 1 as [|v|k u Hu IH Hs|ts Hts IH Hs]; [constructor..| |].
  - assert (held (Short k u)) as Hh by (by constructor). apply held_as_child in Hh as Hha.
    destruct (child_node_cases cr g (Short k u) I) as [(h & E & ->)| ->]; [constructor; done|]. constructor; [done|by split].
  - assert (held (Full ts)) as Hh by (by constructor). apply held_as_child in Hh as Hha.
    destruct (child_node_cases cr g (Full ts) I) as [(h & E & ->)| ->]; [constructor; done|]. cbn. constructor; [by rewrite length_map| |by split].
    intros i c u Hc Hu. rewrite list_lookup_fmap, Hu in Hc. injection Hc as <-. by eapply IH.
Qed.

Lemma Hash_Bytes_root t : Hash_Bytes (BytesToHash (root_bytes cr t)) = root_bytes cr t.
Proof.
  rewrite BytesToHash_mod. unfold Hash_Bytes. assert (zlen (root_bytes cr t) = 32) as E by apply Hk.
  pose proof (be2z_bound (root_bytes cr t)) as Hb. rewrite E in Hb. rewrite Z.mod_small by done.
  replace HashLength with (length (root_bytes cr t)) by (unfold zlen in E; unfold HashLength; lia). apply z2be_be2z.
Qed.

(** What a hash resolves to. *)
Lemma resolveHash_ok (t : Trie) h prefix b tr : db t = d -> inner tr -> hash_ok cr b h tr -> held_as b tr ->
  exists n, resolveHash t h prefix = Ok (Good n) /\ not_hash n /\ rep b n tr.
Proof.
  intros Ed Hi Hh Hheld. exists (load cr (Some h) (cachegen t) tr). unfold resolveHash. rewrite Ed.
  assert (kept tr) as Hkept. { destruct Hheld as [_ Hs], Hh as [Hb Hh]. destruct b; [done|by eapply Hs]. }
  pose proof (hash_ok_bytes cr b h tr Hh) as Eh. assert (is_branch tr) as Hb by apply Hh.
  rewrite (db_holds_node d (BytesToHash h) (raw_node cr tr) (cachegen t) (load cr (Some h) (cachegen t) tr)).
  - split; [done|]. split; [by destruct tr|]. apply load_rep; [done|by intros x [= <-]|]. intros u. apply child_rep.
  - by rewrite Eh.
  - rewrite Eh, Hash_Bytes_root. apply expandNode_node; [done|by apply inner_keyed].
Qed.

End rep.

(** ** More in the database *)

Definition grows {DB : Type} `{NodeDatabaseLaws DB} (d d' : DB) : Prop := forall h r, db_holds d h r -> db_holds d' h r.

Section grows.
Context {DB : Type} `{NodeDatabaseLaws DB} (cr : Crypto).

#[export] Instance grows_preorder : PreOrder (grows (DB := DB)).
Proof. split; [by intros d h r|]. intros d1 d2 d3 H1 H2 h r Hn. by apply H2, H1. Qed.

Lemma stored_grows (d d' : DB) t : grows d d' -> stored cr d t -> stored cr d' t.
Proof. intros Hg Hs h Hh. by eapply Hg, Hs. Qed.
Lemma held_grows (d d' : DB) t : grows d d' -> held cr d t -> held cr d' t.
Proof. intros Hg. induction 1; constructor; try done; by eapply stored_grows. Qed.
Lemma held_as_grows (d d' : DB) b t : grows d d' -> held_as cr d b t -> held_as cr d' b t.
Proof.
  intros Hg [Hp Hs]. split; [destruct t; [done|done|by eapply held_grows|intros i u Hu; eapply held_grows; [done|by eapply Hp]]|].
  destruct b; [by apply Hg|intros Hb; by eapply stored_grows, Hs].
Qed.
Lemma rep_grows (d d' : DB) b n t : grows d d' -> rep cr d b n t -> rep cr d' b n t.
Proof.
  intros Hg. assert (forall b f t, flag_ok cr d b f t -> flag_ok cr d' b f t) as Hflag.
  { intros b' f t' [Hh Hd]. split; [done|]. intros E. by eapply held_as_grows, Hd. }
  induction 1; constructor; try done; try (by apply Hflag). by eapply held_as_grows.
Qed.
End grows.
