(* ===== verification/TrieFacts.v ===== *)
(** * The trie operations on trees

    Reading, writing and removing follow the trees that the nodes stand for. *)
From S2P Require Import Prelude CommonMath RlpEncode RlpDecode RlpFacts Opcodes VmBase VmInterface.
From S2P Require Import TrieEncoding TrieTree TrieNode TrieModel TrieRep.
From stdpp Require Import base numbers list.
From Stdlib Require Import ZArith Lia.
#[local] Open Scope Z_scope.

Import Trie.

Section rep.
Context {DB : Type} `{NodeDatabaseLaws DB} (cr : Crypto) (Hlen32 : forall x, zlen (keccak256 cr x) = 32) (d : DB).
Local Abbreviation Trie := (Trie DB).
Local Abbreviation rep := (rep cr d).

(** The tree and the rest of the key fit together. *)
Definition fits (t : tree) (k : list byte) : Prop :=
  (canonical t /\ terminated k) \/ ((t = Leafless \/ is_value t) /\ k = []).

Lemma fits_inner t k b h : hash_ok cr b h t -> fits t k -> inner t.
Proof. intros [Hb _] [[[->|?] _]|[[->|(v & -> & _)] _]]; done. Qed.

Lemma fits_child ts b k : inner (Full ts) -> terminated (b :: k) -> exists c, ts !! slot b = Some c /\ fits c k.
Proof.
  intros Hi Hk. inversion Hi as [| |ts' Hl _ Hc H16]; subst. apply terminated_cons in Hk as [[Hb Hk]|[-> ->]].
  - apply slot_nibble in Hb. destruct (lookup_lt_is_Some_2 ts (slot b)) as [c Ec]; [lia|]. exists c. split; [done|]. left. split; [|done].
    destruct (decide (c = Leafless)); [by left|right]. apply (Hc _ _ Ec); [lia|done].
  - rewrite slot_terminator. destruct (lookup_lt_is_Some_2 ts 16) as [c Ec]; [lia|]. exists c. split; [done|]. right. split; [|done].
    destruct (decide (c = Leafless)); [by left|right; by apply H16].
Qed.

Lemma terminated_nil_app k k' : terminated k -> terminated (k ++ k') -> k' = [].
Proof.
  intros (p & Hp & ->) Hk. rewrite <- app_assoc in Hk. apply terminated_drop in Hk; [|done]. cbn in Hk.
  apply terminated_cons in Hk as [[Hn _]|[_ ->]]; [by apply not_nibble_terminator in Hn|done].
Qed.

Lemma fits_short k t k' : inner (Short k t) -> terminated (k ++ k') -> fits t k' /\ k <> [].
Proof.
  intros Hi Hk. inversion Hi as [p v Hp Hv|p ts Hp Hne Hts|]; subst.
  - split; [|by destruct p]. right. split; [right; by exists v|]. eapply terminated_nil_app; [|exact Hk]. by exists p.
  - split; [|done]. left. split; [by right|]. by eapply terminated_drop.
Qed.

Definition hash_weight (n : node) : nat := match n with hashNode _ => 2 | _ => 1 end.
Lemma hash_weight_not_hash n : not_hash n -> hash_weight n = 1%nat.
Proof. by destruct n. Qed.
Lemma hash_weight_le n : (hash_weight n <= 2)%nat.
Proof. destruct n; cbn; lia. Qed.

(** ** Reading *)

Lemma drop_take_app {A} (k rest : list A) pos : take (length k) (drop pos rest) = k -> (length k <= length rest - pos)%nat ->
  drop pos rest = k ++ drop (pos + length k) rest.
Proof. intros E _. rewrite <- (take_drop (length k) (drop pos rest)) at 1. by rewrite E, drop_drop. Qed.

Lemma flag_ok_gen b f g t : flag_ok cr d b f t -> flag_ok cr d b (mkFlag (fhash f) g (dirty f)) t.
Proof. done. Qed.

Lemma rep_full_insert b cs f ts i c t : rep b (fullNode cs f) (Full ts) -> ts !! i = Some t -> rep false c t ->
  forall f', flag_ok cr d b f' (Full ts) -> rep b (fullNode (<[i := c]> cs) f') (Full ts).
Proof.
  intros Hr Ht Hc f' Hf. inversion Hr as [| | |b' cs' f0 ts' Hl Hch _|]; subst. constructor; [by rewrite length_insert| |done].
  intros j c' t' Hj Ht'. destruct (decide (j = i)) as [->|Hne].
  - rewrite list_lookup_insert_eq in Hj by (rewrite Hl; by eapply lookup_lt_Some). congruence.
  - rewrite list_lookup_insert_ne in Hj by done. by apply (Hch j).
Qed.

Lemma tryGet_ok (t : Trie) fuel : db t = d -> forall b n tr key pos,
  rep b n tr -> fits tr (drop pos key) -> (2 * length (drop pos key) + hash_weight n <= fuel)%nat ->
  exists n' dr, tryGet fuel t n key pos = Ok (Good (tget tr (drop pos key), n', dr)) /\ rep b n' tr.
Proof.
  intros Ed. induction fuel as [|fuel IH]; intros b n tr key pos Hr Hf Hfuel; [destruct n; cbn in Hfuel; lia|].
  destruct Hr as [b|b v|b k n f tr Hn Hfl|b cs f ts Hl Hch Hfl|b h tr Hh Hheld]; cbn [tryGet].
  - eexists _, _. split; [reflexivity|constructor].
  - eexists _, _. split; [|constructor]. destruct Hf as [[[?|Hi] _]|[_ ->]]; [done|inversion Hi|done].
  - destruct Hf as [[[?|Hi] Hk]|[[?|(v & ? & _)] _]]; [done| |done..]. set (rest := drop pos key) in *.
    destruct (Nat.ltb (length key - pos) (length k) || negb (bool_decide (k = take (length k) rest))) eqn:Eno.
    + eexists _, _. split; [|by constructor]. do 4 f_equal. symmetry. cbn. rewrite bool_decide_false; [done|]. intros E.
      apply orb_true_iff in Eno as [Hlt%Nat.ltb_lt|Hne%negb_true_iff].
      * apply (f_equal length) in E. rewrite length_take in E. unfold rest in E. rewrite length_drop in E. lia.
      * by rewrite bool_decide_true in Hne.
    + apply orb_false_iff in Eno as [Hle%Nat.ltb_ge Heq%negb_false_iff]. apply bool_decide_eq_true in Heq.
      assert (rest = k ++ drop (pos + length k) key) as Er by (apply drop_take_app; [by symmetry|lia]).
      rewrite Er in Hk. destruct (fits_short k tr _ Hi Hk) as [Hfit Hkne].
      destruct (IH false n tr key (pos + length k)%nat Hn Hfit) as (n' & dr & -> & Hrep').
      { pose proof (hash_weight_le n). cbn in Hfuel. rewrite Er, length_app in Hfuel. destruct k; [done|]. cbn in *. lia. }
      cbn [obind]. rewrite Er, tget_Short_app. eexists _, _. split; [reflexivity|]. destruct dr; by constructor.
  - destruct Hf as [[[?|Hi] Hk]|[[?|(v & ? & _)] _]]; [done| |done..].
    destruct (drop pos key) as [|k0 rest] eqn:Er; [by apply terminated_nonempty in Hk|].
    assert (key !! pos = Some k0 /\ rest = drop (pos + 1) key) as [-> Erest].
    { split; [by rewrite <- (Nat.add_0_r pos), <- lookup_drop, Er|]. rewrite <- drop_drop, Er. by cbn. }
    destruct (fits_child ts k0 rest Hi Hk) as (c' & Ec' & Hfit). fold (slot k0).
    destruct (cs !! slot k0) as [c|] eqn:Ec; [|apply lookup_ge_None in Ec; apply lookup_lt_Some in Ec'; lia].
    pose proof (Hch _ _ _ Ec Ec') as Hc. rewrite Erest in Hfit.
    destruct (IH false c c' key (pos + 1)%nat Hc Hfit) as (n' & dr & -> & Hrep').
    { pose proof (hash_weight_le c). cbn in Hfuel. rewrite <- Erest. lia. }
    cbn [obind]. rewrite tget_Full, Ec', <- Erest. eexists _, _. split; [reflexivity|].
    destruct dr; [|by constructor]. by eapply (rep_full_insert b cs f ts); [constructor|..].
  - destruct (resolveHash_ok cr Hlen32 d t h (take pos key) b tr Ed (fits_inner tr _ _ _ Hh Hf) Hh Hheld) as (nf & -> & Hnh & Hnf). cbn [obind].
    destruct (IH b nf tr key pos Hnf Hf) as (n' & dr & -> & Hrep').
    { rewrite (hash_weight_not_hash _ Hnh). cbn in Hfuel. lia. }
    cbn [obind]. by eexists _, _.
Qed.

(** ** Writing *)

Definition shape (key : list byte) (t : tree) : Prop := (key = [] /\ is_value t) \/ (terminated key /\ inner t).

Record inserted (b : bool) (tr : tree) (key v : list byte) (r : bool * node) (tr' : tree) : Prop := {
  in_updates : updates tr key v tr';
  in_shape : shape key tr';
  in_full : forall ts, tr = Full ts -> exists ts', tr' = Full ts';
  in_rep : rep b (snd r) tr' /\ (fst r = false -> tr' = tr)
}.

Lemma fresh_flag (t : Trie) b tr : flag_ok cr d b (newFlag t) tr.
Proof. by split. Qed.

Lemma rep_short_fresh (t : Trie) b k n tr : rep false n tr -> rep b (shortNode k n (newFlag t)) (Short k tr).
Proof. intros Hn. constructor; [done|apply fresh_flag]. Qed.

Lemma insert_nil (t : Trie) fuel prefix k n tr : rep false n tr ->
  exists n', insert (S fuel) t nilNode prefix k n = Ok (Good (true, n')) /\ rep false n' (under k tr).
Proof. intros Hn. destruct k as [|k0 k]; cbn; eexists; (split; [reflexivity|]); [done|by apply rep_short_fresh]. Qed.

Lemma rep_fork (t : Trie) b nb n1 t1 kb n2 t2 : (slot nb < 17)%nat -> (slot kb < 17)%nat -> rep false n1 t1 -> rep false n2 t2 ->
  rep b (fullNode (<[slot kb := n2]> (<[slot nb := n1]> (replicate 17 nilNode))) (newFlag t)) (Full (fork nb t1 kb t2)).
Proof.
  intros Ln Lk H1 H2. constructor; [unfold fork; by rewrite !length_insert, !length_replicate| |apply fresh_flag].
  intros i c u Hc Hu. pose proof (lookup_lt_Some _ _ _ Hc) as Hi. rewrite !length_insert, length_replicate in Hi.
  rewrite fork_lookup in Hu by done. injection Hu as <-. destruct (decide (i = slot kb)) as [->|Hik].
  - rewrite list_lookup_insert_eq in Hc by (by rewrite length_insert, length_replicate). congruence.
  - rewrite list_lookup_insert_ne in Hc by done. destruct (decide (i = slot nb)) as [->|Hin].
    + rewrite list_lookup_insert_eq in Hc by (by rewrite length_replicate). congruence.
    + rewrite list_lookup_insert_ne in Hc by done. apply lookup_replicate_1 in Hc as [-> _]. constructor.
Qed.

Lemma updates_same tr key v tr' : updates tr key v tr' -> tget tr key = Some v -> updates tr key v tr.
Proof. intros _ Hg k. case_decide; congruence. Qed.

Lemma shape_slot b k t : shape k t -> terminated (b :: k) -> fits_slot b t.
Proof.
  intros [[-> Hv]|[Hk Hi]] Ht; apply terminated_cons in Ht as [[Hb Hk']|[-> Hk']].
  - by apply terminated_nonempty in Hk'.
  - by right.
  - by left.
  - subst. by apply terminated_nonempty in Hk.
Qed.

(** The keys part inside the key of a short node. *)
Lemma insert_fork (t : Trie) b fuel prefix q nb nr nval tr f kb kr v :
  rep false nval tr -> inner (Short (q ++ nb :: nr) tr) -> terminated (q ++ kb :: kr) -> nb <> kb -> v <> [] ->
  exists r tr', insert (S (S fuel)) t (shortNode (q ++ nb :: nr) nval f) prefix (q ++ kb :: kr) (valueNode v) = Ok (Good r) /\
    fst r = true /\ rep b (snd r) tr' /\ inner tr' /\ updates (Short (q ++ nb :: nr) tr) (q ++ kb :: kr) v tr'.
Proof.
  intros Hn Hi Hk Hne Hv. destruct (split_inner q nb nr tr Hi) as [Hq H1].
  assert (inner (Short (q ++ kb :: kr) (Value v))) as Hleaf by (destruct Hk as (p & Hp & ->); by constructor).
  destruct (split_inner q kb kr (Value v) Hleaf) as [_ H2]. destruct (fits_slot_bound _ _ H1) as [L1 _], (fits_slot_bound _ _ H2) as [L2 _].
  destruct (insert_nil t fuel (prefix ++ take (length q + 1) (q ++ nb :: nr)) nr nval tr Hn) as (c1 & E1 & R1).
  destruct (insert_nil t fuel (prefix ++ take (length q + 1) (q ++ kb :: kr)) kr (valueNode v) (Value v)) as (c2 & E2 & R2); [constructor|].
  remember (S fuel) as fl eqn:Efl. clear Efl. pose proof (fun b => rep_fork t b nb _ _ kb _ _ L1 L2 R1 R2) as Rf. pose proof (fork_inner nb _ kb _ Hne H1 H2) as If.
  assert (exists n', insert (S fl) t (shortNode (q ++ nb :: nr) nval f) prefix (q ++ kb :: kr) (valueNode v) = Ok (Good (true, n')) /\
            rep b n' (under q (Full (fork nb (under nr tr) kb (under kr (Value v)))))) as (n' & E & R).
  { exists (match q with [] => fullNode (<[slot kb := c2]> (<[slot nb := c1]> (replicate 17 nilNode))) (newFlag t)
             | _ => shortNode q (fullNode (<[slot kb := c2]> (<[slot nb := c1]> (replicate 17 nilNode))) (newFlag t)) (newFlag t) end).
    split; [|destruct q; [done|by apply rep_short_fresh]].
    destruct (q ++ kb :: kr) as [|k0 krest] eqn:Ek; [by destruct q|]. rewrite <- Ek in *. cbn [insert]. rewrite Ek. cbv match. rewrite <- Ek.
    rewrite prefixLen_parts by congruence. rewrite (proj2 (Nat.eqb_neq _ _)) by (rewrite length_app; cbn; lia).
    rewrite !list_lookup_middle by done. rewrite !drop_app_add' by done. cbn [drop]. rewrite !drop_0, E1. cbn [obind]. fold (slot nb) (slot kb).
    rewrite (proj2 (Nat.leb_gt _ _)) by lia. rewrite E2. cbn [obind]. rewrite (proj2 (Nat.leb_gt _ _)) by lia.
    rewrite take_app_length. by destruct q. }
  exists (true, n'), (under q (Full (fork nb (under nr tr) kb (under kr (Value v))))). split; [done|]. split; [done|]. split; [done|].
  split; [by apply under_inner|by apply fork_updates].
Qed.


Lemma shape_inner key tr : terminated key -> inner tr -> shape key tr.
Proof. by right. Qed.

Lemma inserted_new b tr key v n' tr' : updates tr key v tr' -> shape key tr' -> (forall ts, tr <> Full ts) -> rep b n' tr' ->
  inserted b tr key v (true, n') tr'.
Proof. intros Hu Hs Hn Hr. constructor; [done|done|intros ts E; by apply Hn in E|done]. Qed.

(** A short node whose whole key is matched. *)
Lemma inserted_short b (t : Trie) q n f tr k' v r tr' : inner (Short q tr) -> terminated (q ++ k') -> flag_ok cr d b f (Short q tr) ->
  rep false n tr -> inserted false tr k' v r tr' ->
  inserted b (Short q tr) (q ++ k') v (if fst r then (true, shortNode q (snd r) (newFlag t)) else (false, shortNode q n f)) (Short q tr').
Proof.
  intros Hi Hk Hf Hn [Hu Hs Hful Hr]. constructor.
  - by apply updates_Short.
  - apply shape_inner; [done|]. inversion Hi as [p w Hp Hw|p ts Hp Hne Hts|]; subst.
    + destruct Hs as [[-> (x & -> & Hx)]|[Hk' _]]; [by constructor|].
      assert (k' = []) as -> by (eapply terminated_nil_app; [|exact Hk]; by exists p). by apply terminated_nonempty in Hk'.
    + destruct (Hful ts eq_refl) as (ts' & ->). destruct Hs as [[-> (x & E & _)]|[_ Hi']]; [done|by constructor].
  - by intros ts E.
  - destruct Hr as [Hr Hsame]. destruct (fst r); [split; [by apply rep_short_fresh|done]|]. rewrite Hsame by done. split; [by constructor|done].
Qed.

Lemma rep_full_new (t : Trie) b b' cs f ts i c tr : rep b (fullNode cs f) (Full ts) -> rep false c tr ->
  rep b' (fullNode (<[i := c]> cs) (newFlag t)) (Full (<[i := tr]> ts)).
Proof.
  intros Hr Hc. inversion Hr as [| | |b0 cs' f0 ts' Hl Hch _|]; subst. constructor; [by rewrite !length_insert| |apply fresh_flag].
  intros j c' t' Hj Ht'. destruct (decide (j = i)) as [->|Hne].
  - pose proof (lookup_lt_Some _ _ _ Hj) as L1. pose proof (lookup_lt_Some _ _ _ Ht') as L2. rewrite length_insert in L1. rewrite length_insert in L2.
    rewrite list_lookup_insert_eq in Hj by done. rewrite list_lookup_insert_eq in Ht' by done. congruence.
  - rewrite list_lookup_insert_ne in Hj by done. rewrite list_lookup_insert_ne in Ht' by done. by apply (Hch j).
Qed.

Lemma inserted_full b (t : Trie) cs f ts k0 c v k' r c' : inner (Full ts) -> terminated (k0 :: k') -> rep b (fullNode cs f) (Full ts) ->
  ts !! slot k0 = Some c -> inserted false c k' v r c' ->
  inserted b (Full ts) (k0 :: k') v
    (if fst r then (true, fullNode (<[slot k0 := snd r]> cs) (newFlag t)) else (false, fullNode cs f)) (Full (<[slot k0 := c']> ts)).
Proof.
  intros Hi Hk Hr Hc [Hu Hs _ Hrep]. constructor.
  - by eapply updates_Full.
  - apply shape_inner; [done|]. apply full_insert_inner; [done|]. by eapply shape_slot.
  - by eexists.
  - destruct Hrep as [Hrep Hsame]. destruct (fst r); [split; [by eapply rep_full_new|done]|]. rewrite Hsame, list_insert_id by done. by split.
Qed.

Lemma insert_ok (t : Trie) fuel : db t = d -> forall b n tr prefix key v,
  rep b n tr -> fits tr key -> v <> [] -> (2 * length key + hash_weight n <= fuel)%nat ->
  exists r tr', insert fuel t n prefix key (valueNode v) = Ok (Good r) /\ inserted b tr key v r tr'.
Proof.
  intros Ed. induction fuel as [|fuel IH]; intros b n tr prefix key v Hr Hf Hv Hfuel; [destruct n; cbn in Hfuel; lia|].
  destruct key as [|k0 krest].
  { destruct Hf as [[_ Hk]|[Htr _]]; [by apply terminated_nonempty in Hk|].
    exists (match n with valueNode w => (negb (bool_decide (w = v)), valueNode v) | _ => (true, valueNode v) end), (Value v).
    split; [by destruct n|]. assert (updates tr [] v (Value v)) as Hu.
    { intros k. destruct Htr as [->|(w & -> & _)]; destruct k; done. }
    assert (shape [] (Value v)) by (left; split; [done|by exists v]).
    destruct Htr as [->|(w & -> & _)]; inversion Hr as [| | | |? ? ? [? _]]; subst; try done; constructor; try done; (split; [constructor|]); [done|].
    cbn. case_bool_decide; cbn; [by subst|done]. }
  destruct Hf as [[Hcan Hk]|[_ ?]]; [|done].
  destruct Hr as [b|b w|b k n f tr Hn Hfl|b cs f ts Hl Hch Hfl|b h tr Hh Hheld].
  - eexists _, (Short (k0 :: krest) (Value v)). split; [reflexivity|]. destruct Hk as (p & Hp & Ek). rewrite Ek.
    apply inserted_new; [intros x; by rewrite tget_leaf_iff|apply shape_inner; [by exists p|by constructor]|done|].
    apply rep_short_fresh. constructor.
  - destruct Hcan as [?|Hi]; [done|inversion Hi].
  - destruct Hcan as [?|Hi]; [done|]. destruct (prefixLen_spec (k0 :: krest) k) as (q & ra & rb & Ea & -> & El & Hd).
    destruct rb as [|nb nr].
    + rewrite app_nil_r in *. rewrite Ea in Hk. destruct (fits_short q tr ra Hi Hk) as [Hfit Hqne].
      destruct (IH false n tr (prefix ++ q) ra v Hn Hfit Hv) as (r & tr' & Er & Hins).
      { pose proof (hash_weight_le n). cbn [hash_weight] in Hfuel. rewrite Ea, length_app in Hfuel. destruct q; [done|]. cbn in *. lia. }
      exists (if fst r then (true, shortNode q (snd r) (newFlag t)) else (false, shortNode q n f)), (Short q tr'). rewrite Ea. split; [|by apply inserted_short].
      rewrite <- Ea. cbn [insert]. rewrite El, Nat.eqb_refl, Ea, take_app_length, drop_app_length, Er. by destruct r as [[] ?].
    + destruct ra as [|kb kr].
      { exfalso. rewrite app_nil_r in Ea. rewrite Ea in Hk. inversion Hi as [p w Hp Hw E|p ts Hp Hne Hts E|]; subst.
        - symmetry in E. apply path_snoc_inv in E as [(_ & <- & _)|(r' & _ & ->)]; [|apply Forall_app in Hp as [Hp _]]; by eapply path_not_terminated.
        - apply Forall_app in Hp as [Hp _]. by eapply path_not_terminated. }
      destruct Hd as [?|[?|(x & y & ra' & rb' & [= -> ->] & [= -> ->] & Hxy)]]; [done..|].
      destruct fuel as [|fuel]; [cbn in Hfuel; lia|]. rewrite Ea in *.
      destruct (insert_fork t b fuel prefix q y rb' n tr f x ra' v Hn Hi Hk ltac:(congruence) Hv) as ([d' n'] & tr' & E & Hd' & Hrep & Hi' & Hu).
      cbn in Hd'. subst d'. exists (true, n'), tr'. split; [done|]. by apply inserted_new; [|apply shape_inner|..].
  - destruct Hcan as [?|Hi]; [done|]. destruct (fits_child ts k0 krest Hi Hk) as (c' & Ec' & Hfit).
    destruct (cs !! slot k0) as [c|] eqn:Ec; [|apply lookup_ge_None in Ec; apply lookup_lt_Some in Ec'; lia].
    destruct (IH false c c' (prefix ++ [k0]) krest v (Hch _ _ _ Ec Ec') Hfit Hv) as (r & tr' & Er & Hins).
    { pose proof (hash_weight_le c). cbn in Hfuel. lia. }
    exists (if fst r then (true, fullNode (<[slot k0 := snd r]> cs) (newFlag t)) else (false, fullNode cs f)), (Full (<[slot k0 := tr']> ts)).
    split; [|by eapply inserted_full; [..|constructor|eassumption|]]. cbn [insert]. fold (slot k0). rewrite Ec, Er. by destruct r as [[] ?].
  - destruct (resolveHash_ok cr Hlen32 d t h prefix b tr Ed (fits_inner tr (k0 :: krest) _ _ Hh (or_introl (conj Hcan Hk))) Hh Hheld) as (nf & Enf & Hnh & Hnf).
    destruct (IH b nf tr prefix (k0 :: krest) v Hnf) as (r & tr' & Er & Hins); [by left|done| |].
    { rewrite (hash_weight_not_hash _ Hnh). cbn in *. lia. }
    exists (if fst r then (true, snd r) else (false, nf)), tr'. split.
    + cbn [insert]. rewrite Enf. cbn [obind]. rewrite Er. by destruct r as [[] ?].
    + destruct Hins as [Hu Hs Hful [Hrep Hsame]]. constructor; try done. destruct r as [[] ?]; cbn in *; [done|]. by rewrite Hsame.
Qed.


(** ** Removing *)

Record deleted (b : bool) (tr : tree) (key : list byte) (r : bool * node) (tr' : tree) : Prop := {
  de_erases : erases tr key tr';
  de_shape : (key = [] /\ tr' = Leafless) \/ (terminated key /\ canonical tr');
  de_full : forall ts, tr = Full ts -> tr' <> Leafless;
  de_rep : rep b (snd r) tr' /\ if fst r then not_hash (snd r) else tr' = tr
}.

Lemma only_child_rest i cs pos : pos <> -1 -> only_child i cs pos = if forallb is_nil cs then pos else -2.
Proof.
  intros Hp. revert i. induction cs as [|c cs IH]; intros i; [done|]. cbn. destruct (is_nil c); [apply IH|].
  by rewrite (proj2 (Z.eqb_neq _ _)).
Qed.

Lemma only_child_cases i cs :
  (Forall (fun c => is_nil c = true) cs /\ only_child i cs (-1) = -1) \/
  (exists l c r, cs = l ++ c :: r /\ Forall (fun c => is_nil c = true) l /\ is_nil c = false /\ Forall (fun c => is_nil c = true) r /\
    only_child i cs (-1) = Z.of_nat (i + length l)) \/
  (exists j k c e, j <> k /\ cs !! j = Some c /\ cs !! k = Some e /\ is_nil c = false /\ is_nil e = false /\ only_child i cs (-1) = -2).
Proof.
  revert i. induction cs as [|c cs IH]; intros i; [by left|]. cbn [only_child]. destruct (is_nil c) eqn:Ec.
  - destruct (IH (S i)) as [[Hf E]|[(l & x & r & -> & Hl & Hx & Hr & E)|(j & k & x & e & Hjk & Hj & Hk & Hx & He & E)]].
    + left. by split; [constructor|].
    + right; left. exists (c :: l), x, r. split; [done|]. split; [by constructor|]. split; [done|]. split; [done|]. rewrite E. cbn. lia.
    + right; right. exists (S j), (S k), x, e. split; [lia|done].
  - rewrite only_child_rest by lia. destruct (forallb is_nil cs) eqn:Ef.
    + right; left. exists [], c, cs. split; [done|]. split; [constructor|]. split; [done|].
      split; [|cbn; lia]. apply Forall_forall. intros x Hx. apply forallb_forall with (x := x) in Ef; [done|by apply list_elem_of_In].
    + right; right. assert (exists k e, cs !! k = Some e /\ is_nil e = false) as (k & e & Hk & He).
      { clear -Ef. induction cs as [|x cs IH]; [done|]. cbn in Ef. destruct (is_nil x) eqn:Ex; [|by exists 0%nat, x].
        destruct (IH Ef) as (k & e & Hk & He). by exists (S k), e. }
      by exists 0%nat, (S k), c, e.
Qed.

Lemma rep_is_nil b n tr : rep b n tr -> if is_nil n then tr = Leafless else tr <> Leafless.
Proof. intros [| | | |b' h t' [Hb _] _]; try done. cbn. by intros ->. Qed.


(** What a node resolves to. *)
Lemma resolve_ok (t : Trie) n tr prefix : db t = d -> inner tr -> rep false n tr ->
  exists n', resolve t n prefix = Ok (Good n') /\ rep false n' tr /\ not_hash n'.
Proof.
  intros Ed Hi Hr. assert (not_hash n -> exists n', resolve t n prefix = Ok (Good n') /\ rep false n' tr /\ not_hash n') as Hplain.
  { intros Hn. exists n. by destruct n. }
  destruct n; try (by apply Hplain). apply rep_hash_inv in Hr as [Hh Hheld]. cbn [resolve].
  destruct (resolveHash_ok cr Hlen32 d t h prefix false tr Ed Hi Hh Hheld) as (nf & -> & Hnh & Hnf). by exists nf.
Qed.

(** The only child of a full node, merged with a path to it. *)
Lemma shrink_one (t : Trie) cs ts l c r prefix : db t = d -> cs = l ++ c :: r -> length ts = length cs ->
  (forall i c u, cs !! i = Some c -> ts !! i = Some u -> rep false c u) -> length cs = 17%nat ->
  (forall i u, ts !! i = Some u -> i <> 16%nat -> u <> Leafless -> inner u) ->
  (forall u, ts !! 16%nat = Some u -> u <> Leafless -> is_value u) ->
  Forall (fun c => is_nil c = true) l -> is_nil c = false -> Forall (fun c => is_nil c = true) r ->
  only_child 0 cs (-1) = Z.of_nat (length l) ->
  exists n' tr', shrink t cs prefix = Ok (Good (true, n')) /\ (forall b, rep b n' tr') /\ inner tr' /\ not_hash n' /\ forall k, tget tr' k = tget (Full ts) k.
Proof.
  intros Ed Ecs Hlen Hch H17 Hin H16 Hl Hc Hr Epos. set (i := length l) in *.
  assert (cs !! i = Some c) as Hi by (subst cs; by apply list_lookup_middle).
  assert (i < 17)%nat as Li by (rewrite <- H17; by eapply lookup_lt_Some).
  destruct (lookup_lt_is_Some_2 ts i) as [u Hu]; [lia|]. pose proof (Hch _ _ _ Hi Hu) as Hrep.
  pose proof (rep_is_nil _ _ _ Hrep) as Nu. rewrite Hc in Nu.
  set (b := z2b (Z.of_nat i)). assert (slot b = i) as Hb by (apply slot_z2b; lia).
  assert (forall k, tget (Short [b] u) k = tget (Full ts) k) as Hcont.
  { apply single_child; [by rewrite Hb|]. rewrite Hb. intros j w Hw Hj.
    destruct (lookup_lt_is_Some_2 cs j) as [e He]; [apply lookup_lt_Some in Hw; lia|].
    pose proof (rep_is_nil _ _ _ (Hch _ _ _ He Hw)) as Ne. replace (is_nil e) with true in Ne; [done|]. symmetry.
    subst cs. destruct (decide (j < i)%nat).
    - rewrite lookup_app_l in He by done. eapply Forall_lookup_1 in Hl; eauto.
    - rewrite lookup_app_r in He by (fold i; lia). fold i in He. destruct (j - i)%nat as [|m] eqn:Em; [lia|]. cbn in He. eapply Forall_lookup_1 in Hr; eauto. }
  unfold shrink. rewrite Epos, (proj2 (Z.leb_le _ _)), Nat2Z.id by lia. rewrite Hi. cbn [default from_option id]. fold b.
  destruct (negb (Z.of_nat i =? 16)) eqn:E16.
  - apply negb_true_iff, Z.eqb_neq in E16. assert (inner u) as Iu by (apply (Hin i u Hu); [lia|done]).
    assert (path [b]) as Pb by (constructor; [apply slot_nibble; lia|constructor]).
    destruct (resolve_ok t c u prefix Ed Iu Hrep) as (cn & -> & Rcn & Ncn). clear Ed. cbn [obind].
    destruct Iu as [p v Hp Hv|p ts' Hp Hpne Hts|ts' Hl17 Hbr Hc' Hc16]; inversion Rcn; subst; try done.
    1,2: eexists _, _; split; [reflexivity|]; split; [intros; by apply rep_short_fresh|]; split; [by apply (inner_app [b]); [|constructor]|];
      split; [done|]; intros k; rewrite <- Hcont, tget_Short_Short; done.
    eexists _, _; split; [reflexivity|]; split; [intros; by apply rep_short_fresh|]; split; [by constructor; [| |constructor]|]. by split.
  - apply negb_false_iff, Z.eqb_eq in E16. assert (i = 16%nat) as Ei by lia. assert (b = terminator) as Eb by (apply slot_inj; by rewrite Hb, slot_terminator).
    rewrite Ei in Hu. destruct (H16 u Hu Nu) as (v & -> & Hv).
    eexists _, _; split; [reflexivity|]; split; [intros; by apply rep_short_fresh|]. rewrite Eb in *. split; [|by split].
    apply (inner_leaf []); [constructor|done].
Qed.

Lemma shrink_ok (t : Trie) cs ts prefix : db t = d -> length ts = length cs -> length cs = 17%nat ->
  (forall i c u, cs !! i = Some c -> ts !! i = Some u -> rep false c u) ->
  (forall i u, ts !! i = Some u -> i <> 16%nat -> u <> Leafless -> inner u) ->
  (forall u, ts !! 16%nat = Some u -> u <> Leafless -> is_value u) ->
  (exists i u, ts !! i = Some u /\ u <> Leafless) ->
  exists n' tr', shrink t cs prefix = Ok (Good (true, n')) /\ (forall b, rep b n' tr') /\ inner tr' /\ not_hash n' /\ forall k, tget tr' k = tget (Full ts) k.
Proof.
  intros Ed Hlen H17 Hch Hin H16 (i & u & Hu & Nu).
  destruct (only_child_cases 0 cs) as [[Hf E]|[(l & x & r & Ecs & Hl & Hx & Hr & E)|(j & k & x & e & Hjk & Hj & Hk & Hx & He & E)]].
  - destruct (lookup_lt_is_Some_2 cs i) as [c Hc]; [apply lookup_lt_Some in Hu; lia|]. pose proof (rep_is_nil _ _ _ (Hch _ _ _ Hc Hu)) as Hn.
    eapply Forall_lookup_1 in Hf; [|exact Hc]. cbn in Hf. by rewrite Hf in Hn.
  - by eapply shrink_one.
  - unfold shrink. rewrite E. cbn [Z.leb Z.compare]. exists (fullNode cs (newFlag t)), (Full ts). split; [done|].
    split; [intros b; constructor; [done|done|apply fresh_flag]|]. split; [|done]. constructor; [lia| |done|done].
    destruct (lookup_lt_is_Some_2 ts j) as [y Hy]; [apply lookup_lt_Some in Hj; lia|].
    destruct (lookup_lt_is_Some_2 ts k) as [z Hz]; [apply lookup_lt_Some in Hk; lia|].
    pose proof (rep_is_nil _ _ _ (Hch _ _ _ Hj Hy)) as Ny. pose proof (rep_is_nil _ _ _ (Hch _ _ _ Hk Hz)) as Nz.
    rewrite Hx in Ny. rewrite He in Nz. by exists j, k, y, z.
Qed.


Lemma deleted_nothing b n tr key : rep b n tr -> terminated key -> canonical tr -> tget tr key = None -> deleted b tr key (false, n) tr.
Proof. intros Hr Hk Hc Hn. constructor; [by apply erases_absent|by right|by intros ts ->|by split]. Qed.

(** A key that leaves the path of a short node. *)
Lemma short_absent q ra rb tr : rb <> [] ->
  (ra = [] \/ rb = [] \/ exists x y ra' rb', ra = x :: ra' /\ rb = y :: rb' /\ x <> y) -> tget (Short (q ++ rb) tr) (q ++ ra) = None.
Proof.
  intros Hne Hd. rewrite tget_Short_cat. destruct Hd as [->|[?|(x & y & ra' & rb' & -> & -> & Hxy)]]; [|done|].
  - destruct rb; [done|apply tget_Short_end].
  - rewrite tget_Short_cons, decide_False; congruence.
Qed.

(** Below an extension. *)
Definition short_merge (t : Trie) (q : list byte) (n : node) : node :=
  match n with shortNode ckey cval _ => shortNode (q ++ ckey) cval (newFlag t) | _ => shortNode q n (newFlag t) end.

Lemma deleted_ext b (t : Trie) q n f ts ra r tr' : path q -> q <> [] -> inner (Full ts) -> terminated ra -> flag_ok cr d b f (Short q (Full ts)) ->
  rep false n (Full ts) -> deleted false (Full ts) ra r tr' ->
  exists tr2, deleted b (Short q (Full ts)) (q ++ ra) (if fst r then (true, short_merge t q (snd r)) else (false, shortNode q n f)) tr2.
Proof.
  intros Hq Hqne Hts Hra Hf Hn [He Hs Hful Hr]. specialize (Hful ts eq_refl).
  assert (inner tr') as Hi by (destruct Hs as [[-> _]|[_ [?|?]]]; [by apply terminated_nonempty in Hra|done|done]).
  pose proof (erases_Short q _ _ _ He) as Hes. pose proof (terminated_app _ _ Hq Hra) as Hk. destruct r as [[] n']; cbn in *.
  - destruct Hr as [Hr Hnh]. destruct Hi as [p v Hp Hv|p us Hp Hpne Hus|us Hl Hbr Hc H16]; inversion Hr; subst; try done.
    1,2: eexists; constructor; [eapply erases_content; [exact Hes|]; intros x; symmetry; apply tget_Short_Short|
        right; split; [done|]; right; by apply inner_app; [|constructor]|done|cbn; split; [by apply rep_short_fresh|done]].
    eexists; constructor; [exact Hes|right; split; [done|]; right; by constructor; [..|constructor]|done|]. cbn. split; [by apply rep_short_fresh|done].
  - destruct Hr as [Hr ->]. eexists. constructor; [exact Hes|right; split; [done|]; right; by constructor|done|]. cbn. split; [by constructor|done].
Qed.

(** Below a full node. *)
Lemma deleted_full b (t : Trie) cs f ts k0 krest c prefix r c' : db t = d -> inner (Full ts) -> terminated (k0 :: krest) ->
  rep b (fullNode cs f) (Full ts) -> ts !! slot k0 = Some c -> deleted false c krest r c' ->
  exists r2 tr2, (if fst r then shrink t (<[slot k0 := snd r]> cs) prefix else Ok (Good (false, fullNode cs f))) = Ok (Good r2) /\
    deleted b (Full ts) (k0 :: krest) r2 tr2.
Proof.
  intros Ed Hi Hk Hrep Hc [He Hs _ Hr]. pose proof (erases_Full ts k0 c krest c' Hc He) as Hes. destruct r as [[] n']; cbn in *.
  - destruct Hr as [Hr _]. assert (c' = Leafless \/ fits_slot k0 c') as Hslot.
    { apply terminated_cons in Hk as [[Hb Hkr]|[-> ->]]; destruct Hs as [[E ->]|[Hkr' Hc']]; try by left.
      - destruct Hc' as [->|?]; [by left|by right; left].
      - by apply terminated_nonempty in Hkr'. }
    destruct (full_children ts k0 c' Hi Hslot) as (H1 & H2 & j & u & _ & Hj & Nu).
    pose proof (rep_full_new t _ false _ _ _ (slot k0) _ _ Hrep Hr) as Hnew. inversion_clear Hnew as [| | |b' cs' f' ts' Hlen Hch _|].
    assert (length ts = 17%nat) as H17 by (by inversion Hi). rewrite !length_insert in Hlen.
    destruct (shrink_ok t (<[slot k0 := n']> cs) (<[slot k0 := c']> ts) prefix) as (n2 & tr2 & E & R2 & I2 & N2 & C2);
      [done|by rewrite !length_insert|rewrite length_insert; lia|done..|by exists j, u|].
    exists (true, n2), tr2. split; [done|]. constructor; [by eapply erases_content|right; by split; [|right]|intros _ _; by apply inner_not_empty|by split].
  - destruct Hr as [_ ->]. rewrite list_insert_id in Hes by done.
    exists (false, fullNode cs f), (Full ts). split; [done|]. constructor; [done|right; by split; [|right]|by intros|by split].
Qed.

Lemma delete_ok (t : Trie) fuel : db t = d -> forall b n tr prefix key,
  rep b n tr -> fits tr key -> (2 * length key + hash_weight n <= fuel)%nat ->
  exists r tr', delete fuel t n prefix key = Ok (Good r) /\ deleted b tr key r tr'.
Proof.
  intros Ed. induction fuel as [|fuel IH]; intros b n tr prefix key Hr Hf Hfuel; [destruct n; cbn in Hfuel; lia|].
  destruct Hr as [b|b w|b k n f tr Hn Hfl|b cs f ts Hl Hch Hfl|b h tr Hh Hheld].
  - exists (false, nilNode), Leafless. split; [done|]. constructor; [by apply erases_absent| |done|by split; [constructor|]].
    destruct Hf as [[_ Hk]|[_ ->]]; [right; split; [done|by left]|by left].
  - destruct Hf as [[[?|Hi] _]|[_ ->]]; [done|inversion Hi|]. exists (true, nilNode), Leafless. split; [done|].
    constructor; [by intros [|]|by left|done|by split; [constructor|]].
  - destruct Hf as [[[?|Hi] Hk]|[[?|(v & ? & _)] _]]; [done| |done..].
    destruct (prefixLen_spec key k) as (q & ra & rb & -> & -> & El & Hd). cbn [delete]. rewrite El, !length_app.
    destruct rb as [|nb nr].
    2: { rewrite (proj2 (Nat.ltb_lt _ _)) by (cbn; lia). eexists _, _. split; [reflexivity|].
         apply deleted_nothing; [by constructor|done|by right|by apply short_absent]. }
    rewrite app_nil_r in *. cbn [length]. rewrite Nat.add_0_r, (proj2 (Nat.ltb_ge _ _)) by lia.
    rewrite take_app_length, drop_app_length. inversion Hi as [p v Hp Hv|p ts Hp Hne Hts|]; subst.
    + assert (ra = []) as -> by (eapply terminated_nil_app; [|exact Hk]; by exists p). cbn [length]. rewrite Nat.add_0_r, Nat.eqb_refl, app_nil_r in *.
      exists (true, nilNode), Leafless. split; [done|]. constructor; [|right; split; [done|by left]|done|by split; [constructor|]].
      intros x. rewrite tget_leaf_iff. by repeat case_decide.
    + assert (terminated ra) as Hra by (by eapply terminated_drop).
      destruct (IH false n (Full ts) (prefix ++ q) ra Hn) as (r & tr' & Er & Hdel); [left; by split; [right|]| |].
      { pose proof (hash_weight_le n). cbn [hash_weight] in Hfuel. rewrite length_app in Hfuel. destruct q; [done|]. cbn in *. lia. }
      destruct (deleted_ext b t q n f ts ra r tr' Hp Hne Hts Hra Hfl Hn Hdel) as (tr2 & Hdel2). eexists _, tr2. split; [|exact Hdel2].
      rewrite (proj2 (Nat.eqb_neq _ _)) by (pose proof (terminated_nonempty _ Hra); destruct ra; cbn; [done|lia]).
      rewrite Er. cbn [obind]. by destruct r as [[] []].
  - destruct Hf as [[[?|Hi] Hk]|[[?|(v & ? & _)] _]]; [done| |done..]. destruct key as [|k0 krest]; [by apply terminated_nonempty in Hk|].
    destruct (fits_child ts k0 krest Hi Hk) as (c' & Ec' & Hfit).
    destruct (cs !! slot k0) as [c|] eqn:Ec; [|apply lookup_ge_None in Ec; apply lookup_lt_Some in Ec'; lia].
    destruct (IH false c c' (prefix ++ [k0]) krest (Hch _ _ _ Ec Ec') Hfit) as (r & tr' & Er & Hdel).
    { pose proof (hash_weight_le c). cbn in Hfuel. lia. }
    destruct (deleted_full b t cs f ts k0 krest c' prefix r tr') as (r2 & tr2 & E2 & Hdel2); [done..|by constructor|done|done|].
    exists r2, tr2. split; [|done]. cbn [delete]. fold (slot k0). rewrite Ec, Er. cbn [obind]. destruct r as [[] n']; cbn in *; by rewrite E2.
  - destruct (resolveHash_ok cr Hlen32 d t h prefix b tr Ed (fits_inner tr _ _ _ Hh Hf) Hh Hheld) as (nf & Enf & Hnh & Hnf).
    destruct (IH b nf tr prefix key Hnf Hf) as (r & tr' & Er & Hdel).
    { rewrite (hash_weight_not_hash _ Hnh). cbn in *. lia. }
    exists (if fst r then (true, snd r) else (false, nf)), tr'. split.
    + cbn [delete]. rewrite Enf. cbn [obind]. rewrite Er. by destruct r as [[] ?].
    + destruct Hdel as [Hu Hs Hful [Hrep Hsame]]. constructor; try done. destruct r as [[] ?]; cbn in *; [done|]. by rewrite Hsame.
Qed.

End rep.
