(* ===== verification/TrieHash.v ===== *)
(** * Hashes and what is stored

    The hasher computes the Merkle root of the tree that a trie stands for; with a
    database it stores every node of the tree on the way. *)
From S2P Require Import Prelude CommonMath RlpEncode RlpDecode RlpFacts Opcodes VmBase VmInterface.
From S2P Require Import TrieEncoding TrieTree TrieNode TrieModel TrieRep TrieFacts.
From stdpp Require Import base numbers list.
From Stdlib Require Import ZArith Lia.
#[local] Open Scope Z_scope.

Import Trie.

Section raw.
Context (cr : Crypto) (Hk : forall x, zlen (keccak256 cr x) = 32).

(** ** References *)

(** What the hasher leaves in place of a node below another. *)
Definition refers (c : node) (t : tree) : Prop := simplifyNode c = Ok (raw_ref cr t) /\ node_val c = ref cr t /\ is_nil c = false.
Definition hashes (b : bool) (c : node) (t : tree) : Prop := if b then c = hashNode (root_bytes cr t) else refers c t.
(** A missing child stays missing. *)
Definition refers_slot (c : node) (t : tree) : Prop := (c = nilNode /\ t = Leafless) \/ refers c t.

(** The node of a tree with references below. *)
Definition collapses (c : node) (t : tree) : Prop :=
  simplifyNode c = Ok (raw_node cr t) /\ node_val c = expanded cr t /\ not_hash c /\ is_nil c = false.

Lemma hash_hashes b h t : hash_ok cr b h t -> hashes b (hashNode h) t.
Proof.
  intros Hh. pose proof (hash_ok_bytes cr b h t Hh) as ->. destruct Hh as [Hb E]. destruct b; [done|]. split; [|by split].
  destruct (ref_cases cr t Hb) as [(_ & E' & _)|(_ & _ & -> & _)]; [|done]. by destruct t; rewrite E' in E.
Qed.

Lemma collapses_short k c t f : refers c t -> collapses (shortNode (compact k) c f) (Short k t).
Proof. intros (E & Ev & _). split; cbn; [by rewrite E|]. split; [by rewrite Ev|done]. Qed.

Lemma collapses_full cs ts f : Forall2 refers_slot cs ts -> collapses (fullNode cs f) (Full ts).
Proof.
  intros Hcs. assert (omap (fun c => if is_nil c then Ok rawNil else simplifyNode c) cs = Ok (map (raw_ref cr) ts) /\
    map (fun c => if is_nil c then VBytes [] else node_val c) cs = map (ref cr) ts) as [E Ev].
  { induction Hcs as [|c t cs ts Hc _ [IH IHv]]; [done|]. destruct Hc as [[-> ->]|(E & Ev & En)]; cbn; rewrite IHv.
    - rewrite IH. by split.
    - rewrite En, E. cbn [obind]. rewrite IH, Ev. by split. }
  split; cbn; [by rewrite E|]. split; [by rewrite Ev|done].
Qed.

(** A small node stands for itself. *)
Lemma collapses_refers c t : is_branch t -> collapses c t -> zlen (enc_val (expanded cr t)) < 32 -> refers c t.
Proof.
  intros Hb (E & Ev & _ & En) Hl. destruct (ref_cases cr t Hb) as [(_ & Er & Err & _)|(Hge & _)]; [|lia].
  split; [by rewrite Err|]. split; [by rewrite Er|done].
Qed.

(** ** Sizes *)

Definition bounded (t : tree) : Prop := forall k v, terminated k -> tget t k = Some v -> zlen k < 2 ^ 32 /\ zlen v < 2 ^ 32.

Lemma zlen_enc_head_le sm lg n : 0 <= n <= MaxUint64 -> zlen (enc_head sm lg n) <= 9.
Proof.
  intros Hn. unfold enc_head. destruct (n <? 56); [done|]. rewrite zlen_cons. pose proof (big_Bytes_u64_len n Hn). lia.
Qed.
Lemma zlen_enc_str_bound b : zlen b <= MaxUint64 -> zlen (enc_str b) <= zlen b + 9.
Proof.
  intros Hb. pose proof (zlen_nonneg b). unfold enc_str. destruct b as [|c [|e b]].
  - done.
  - case_match; rewrite ?zlen_app, ?zlen_cons; change (zlen (@nil byte)) with 0; [lia|]. pose proof (zlen_enc_head_le 0x80 0xB7 1 ltac:(unfold MaxUint64; lia)). lia.
  - rewrite zlen_app. pose proof (zlen_enc_head_le 0x80 0xB7 (zlen (c :: e :: b)) ltac:(lia)). lia.
Qed.
Lemma zlen_enc_lst_le p : zlen p <= MaxUint64 -> zlen (enc_lst p) <= zlen p + 9.
Proof. intros Hp. pose proof (zlen_nonneg p). unfold enc_lst. rewrite zlen_app. pose proof (zlen_enc_head_le 0xC0 0xF7 (zlen p) ltac:(lia)). lia. Qed.

Lemma decodeNibbles_length p : forall k, decodeNibbles p = Ok k -> zlen k <= zlen p.
Proof.
  revert p. fix IH 1. intros [|a [|b p]] k E; cbn in E.
  - by injection E as <-.
  - done.
  - destruct (decodeNibbles p) as [r| |] eqn:Er; [|done|done]. injection E as <-. rewrite !zlen_cons. pose proof (IH p r Er). lia.
Qed.

Lemma compact_length k : hexkey k -> zlen (compact k) <= zlen k + 1.
Proof.
  intros (E & _)%compact_ok. revert E. generalize (compact k) as c. unfold hexToCompact. intros c.
  set (h := if hasTerm k then _ else k). assert (zlen h <= zlen k) as Hh.
  { unfold h, zlen. destruct (hasTerm k); [rewrite length_take|]; lia. }
  destruct (Z.land (zlen h) 1 =? 1), h as [|x h'] eqn:Eh; intros E.
  all: match type of E with obind ?o _ = _ => destruct o as [r| |] eqn:Er; [|done|done] end; injection E as <-; rewrite zlen_cons;
    pose proof (decodeNibbles_length _ _ Er) as Hl; rewrite ?zlen_cons in *; lia.
Qed.

Lemma zlen_ref_branch t : is_branch t -> zlen (enc_val (ref cr t)) <= 33.
Proof.
  intros Hb. destruct (ref_cases cr t Hb) as [(Hl & -> & _)|(_ & -> & _)]; [lia|]. cbn [enc_val].
  assert (zlen (root_bytes cr t) = 32) as E by apply Hk. destruct (root_bytes cr t) as [|a [|b l]]; [done|done|].
  unfold enc_str. rewrite zlen_app, E. done.
Qed.

Lemma bounded_short k t : path k -> bounded (Short k t) -> bounded t.
Proof.
  intros Hp Hb k' v Hk' Hg. destruct (Hb (k ++ k') v) as [H1 H2]; [by apply terminated_app|by rewrite tget_Short_app|].
  rewrite zlen_app in H1. pose proof (zlen_nonneg k). lia.
Qed.
Lemma bounded_full ts i t : inner (Full ts) -> ts !! i = Some t -> i <> 16%nat -> bounded (Full ts) -> bounded t.
Proof.
  intros Hi Ht Hne Hb k v Hkt Hg. inversion Hi as [| |ts' Hl _ _ _]; subst. pose proof (lookup_lt_Some _ _ _ Ht) as Hlt.
  destruct (Hb (z2b (Z.of_nat i) :: k) v) as [H1 H2].
  - apply terminated_cons. left. split; [|done]. apply slot_nibble. rewrite slot_z2b; lia.
  - rewrite tget_Full, slot_z2b, Ht by lia. done.
  - rewrite zlen_cons in H1. lia.
Qed.

Lemma zlen_concat_le {A} (f : A -> list byte) l c : (forall x, x ∈ l -> zlen (f x) <= c) -> zlen (concat (map f l)) <= zlen l * c.
Proof.
  induction l as [|x l IH]; intros Hf; [done|]. cbn [map concat]. rewrite zlen_app, zlen_cons.
  pose proof (Hf x ltac:(constructor)). specialize (IH ltac:(intros y Hy; apply Hf; by constructor)). lia.
Qed.

Lemma zlen_ref_value t : (is_branch t \/ t = Leafless \/ exists v, t = Value v /\ zlen v < 2 ^ 32) -> zlen (enc_val (ref cr t)) <= 2 ^ 32 + 9.
Proof.
  intros [Hb|[->|(v & -> & Hv)]]; [pose proof (zlen_ref_branch t Hb); lia|done|]. cbn. pose proof (zlen_enc_str_bound v ltac:(unfold MaxUint64; lia)). lia.
Qed.

Lemma inner_branch t : inner t -> is_branch t.
Proof. by intros []. Qed.

(** Every node fits in memory. *)
Lemma expanded_bound t : inner t -> bounded t -> zlen (enc_val (expanded cr t)) <= MaxUint64.
Proof.
  intros Hi Hb. assert (forall k u, hexkey k -> zlen k < 2 ^ 32 -> zlen (enc_val (ref cr u)) <= 2 ^ 32 + 9 ->
    zlen (enc_val (VList [VBytes (compact k); ref cr u])) <= MaxUint64) as Hshort.
  { intros k u Hhk Hlk Hu. cbn. rewrite app_nil_r. pose proof (compact_length k Hhk).
    pose proof (zlen_enc_str_bound (compact k) ltac:(unfold MaxUint64; lia)) as Hs.
    pose proof (zlen_nonneg (enc_str (compact k))). pose proof (zlen_nonneg (enc_val (ref cr u))).
    eapply Z.le_trans; [apply zlen_enc_lst_le|]; rewrite zlen_app; unfold MaxUint64; lia. }
  destruct Hi as [p v Hp Hv|p ts Hp Hne Hts|ts Hl Hbr Hc H16].
  - destruct (Hb (p ++ [terminator]) v) as [Hk' Hv']; [by exists p|by apply tget_leaf|].
    apply Hshort; [right; by exists p|done|]. apply zlen_ref_value. right; right. by exists v.
  - destruct (has_keys (Full ts) Hts) as (k & v & Hkt & Hg). destruct (Hb (p ++ k) v) as [Hk' _]; [by apply terminated_app|by rewrite tget_Short_app|].
    rewrite zlen_app in Hk'. pose proof (zlen_nonneg k). apply Hshort; [by left|lia|]. apply zlen_ref_value. by left.
  - cbn. rewrite map_map. assert (zlen (concat (map (fun x => enc_val (ref cr x)) ts)) <= zlen ts * (2 ^ 32 + 9)) as Hle.
    { apply zlen_concat_le. intros u (i & Hu)%list_elem_of_lookup. apply zlen_ref_value.
      destruct (decide (u = Leafless)) as [->|Hn]; [right; by left|].
      destruct (decide (i = 16%nat)) as [->|Hne]; [|left; by apply inner_branch, (Hc i)]. destruct (H16 u Hu Hn) as (v & -> & _). right; right.
      exists v. split; [done|]. apply (Hb [terminator] v); [apply terminated_single|]. by rewrite tget_Full, slot_terminator, Hu. }
    unfold zlen at 2 in Hle. rewrite Hl in Hle. eapply Z.le_trans; [apply zlen_enc_lst_le|]; unfold MaxUint64; lia.
Qed.

Lemma encodable_ref t : encodable (ref cr t).
Proof.
  assert (forall t, is_branch t -> encodable (expanded cr t) -> encodable (ref cr t)) as Hsq.
  { intros u Hu He. destruct (ref_cases cr u Hu) as [(_ & -> & _)|(_ & -> & _)]; done. }
  induction t as [|v|k u IH|ts IH] using tree_rect'; [done|done|..]; apply Hsq; try done; cbn -[ref].
  induction IH as [|u ts Hu _ IHts]; done.
Qed.

Lemma encode_expanded t : inner t -> bounded t -> EncodeToBytes (expanded cr t) = Good (enc_val (expanded cr t)).
Proof.
  intros Hi Hb. apply EncodeToBytes_spec; [|by apply expanded_bound].
  destruct t as [| |k u|ts]; try done; cbn -[ref].
  - split; [done|]. split; [apply encodable_ref|done].
  - clear. induction ts as [|u ts IH]; [done|]. split; [apply encodable_ref|done].
Qed.
Lemma encode_node c t : inner t -> bounded t -> collapses c t -> EncodeToBytes (node_val c) = Good (enc_val (expanded cr t)).
Proof. intros Hi Hb (_ & -> & _). by apply encode_expanded. Qed.

End raw.
