(* ===== verification/TrieDecode.v ===== *)
(** * Reading nodes back

    [decodeNode] reads the encoding of the node of a tree, and gives the node with
    references below it. *)
From S2P Require Import Prelude CommonMath RlpEncode RlpDecode RlpFacts Opcodes VmBase VmInterface.
From S2P Require Import TrieEncoding TrieTree TrieNode TrieModel TrieRep TrieFacts TrieHash.
From stdpp Require Import base numbers list.
From Stdlib Require Import ZArith Lia.
#[local] Open Scope Z_scope.

Import Node.

(** ** Splitting encodings *)

Lemma Split_str b rest : zlen (enc_str b ++ rest) <= MaxUint64 ->
  exists k, Split (enc_str b ++ rest) = Good (k, b, rest) /\ k <> KList /\ (zlen b <> 1 -> k = KString).
Proof.
  intros Hl. assert (zlen b <= MaxUint64) as Hb.
  { rewrite zlen_app in Hl. pose proof (zlen_enc_str_ge b). pose proof (zlen_nonneg rest). lia. }
  destruct (enc_str_head b Hb) as [(c & -> & E & _ & c' & [= <-] & Hc)|(h & E & [_ Eh] & Hc)].
  - exists KByte. split; [|done]. eapply Split_complete; [done|done|]. rewrite E. split; [done|]. by exists c.
  - exists KString. split; [|done]. eapply Split_complete; [done|done|]. rewrite E. split; [done|]. split; [lia|]. by rewrite Eh.
Qed.
Lemma SplitString_str b rest : zlen (enc_str b ++ rest) <= MaxUint64 -> SplitString (enc_str b ++ rest) = Good (b, rest).
Proof. intros Hl. unfold SplitString. destruct (Split_str b rest Hl) as (k & -> & Hk & _). cbn [rbind]. by rewrite decide_False. Qed.

Lemma Split_lst p rest : zlen (enc_lst p ++ rest) <= MaxUint64 -> Split (enc_lst p ++ rest) = Good (KList, p, rest).
Proof.
  intros Hl. eapply Split_complete; [done|done|]. split; [|done].
  rewrite zlen_app in Hl. pose proof (zlen_enc_lst_ge p). pose proof (zlen_nonneg rest). lia.
Qed.
Lemma SplitList_lst p rest : zlen (enc_lst p ++ rest) <= MaxUint64 -> SplitList (enc_lst p ++ rest) = Good (p, rest).
Proof. intros Hl. unfold SplitList. rewrite Split_lst by done. cbn [rbind]. by rewrite decide_True. Qed.

(** Values of strings and lists only. *)
Fixpoint item_of (v : val) : item :=
  match v with
  | VBytes b => Str b
  | VList l => Lst (map item_of l)
  | _ => Str []
  end.
Inductive plain : val -> Prop :=
| plain_bytes b : plain (VBytes b)
| plain_list l : Forall plain l -> plain (VList l).

Lemma enc_item_of v : plain v -> enc (item_of v) = enc_val v.
Proof.
  revert v. fix IH 2. intros w [b|l Hl]; cbn; [done|]. f_equal. f_equal. rewrite map_map.
  induction Hl as [|x l' Hx Hl' IHl]; [done|]. cbn. by rewrite (IH x Hx), IHl.
Qed.

Lemma CountValues_vals vs : Forall plain vs -> zlen (concat (map enc_val vs)) <= MaxUint64 ->
  CountValues (concat (map enc_val vs)) = Ok (Good (zlen vs)).
Proof.
  intros Hp Hl. assert (concat (map enc_val vs) = concat (map enc (map item_of vs))) as E.
  { rewrite map_map. f_equal. clear Hl. induction Hp as [|v vs Hv _ IH]; [done|]. cbn. by rewrite IH, enc_item_of. }
  rewrite E in *. unfold CountValues. rewrite CountValues_loop_enc; [|rewrite <- E; rewrite E; apply length_concat_enc|done].
  do 2 f_equal. unfold zlen. by rewrite length_map.
Qed.

Section decode.
Context (cr : Crypto) (Hk : forall x, zlen (keccak256 cr x) = 32).

Lemma plain_ref t : plain (ref cr t).
Proof.
  assert (forall t, is_branch t -> plain (expanded cr t) -> plain (ref cr t)) as Hsq.
  { intros u Hu He. destruct (ref_cases cr u Hu) as [(_ & -> & _)|(_ & -> & _)]; [done|constructor]. }
  induction t as [|v|k u IH|ts IH] using tree_rect'; [constructor|constructor|..]; apply Hsq; try done; cbn -[ref]; constructor.
  - by repeat constructor.
  - induction IH; constructor; done.
Qed.

(** ** References *)

(** What [decodeNode] makes of a node that is not referred to by its hash. *)
Definition reads (dec : option (list byte) -> list byte -> Z -> outcome (result nodeerr node)) (t : tree) : Prop :=
  forall h g rest, zlen (enc_val (expanded cr t) ++ rest) <= MaxUint64 ->
    dec h (enc_val (expanded cr t) ++ rest) g = Ok (Good (load cr h g t)).

Lemma decodeRef_ok dec u g rest : u = Leafless \/ (is_branch u /\ (ref cr u = expanded cr u -> reads dec u)) -> zlen (enc_val (ref cr u) ++ rest) <= MaxUint64 ->
  decodeRef dec (enc_val (ref cr u) ++ rest) g = Ok (Good (child_node cr g u, rest)).
Proof.
  intros Hu Hl. unfold decodeRef. destruct Hu as [->|[Hb Hr]].
  - destruct (Split_str [] rest Hl) as (k & E & _ & Hks). cbn [ref enc_val]. rewrite E, Hks by done. done.
  - destruct (ref_cases cr u Hb) as [(Hs & Er & _ & Ec)|(_ & Er & _ & Ec)]; rewrite Ec; rewrite Er in *.
    + assert (exists p, enc_val (expanded cr u) = enc_lst p) as (p & Ep) by (destruct u; try done; by eexists).
      rewrite Ep, Split_lst by (by rewrite <- Ep). rewrite zlen_app, <- Ep.
      rewrite (proj2 (Z.ltb_ge _ _)) by (change hashLen with 32; lia). rewrite Hr by done. done.
    + assert (zlen (root_bytes cr u) = 32) as E32 by apply Hk. cbn [enc_val] in *.
      destruct (Split_str (root_bytes cr u) rest Hl) as (k & -> & _ & ->); [|lia]. rewrite E32. done.
Qed.

(** The children of a full node, one after the other. *)
Lemma decodeChildren_ok dec us : Forall (fun u => u = Leafless \/ (is_branch u /\ (ref cr u = expanded cr u -> reads dec u))) us -> forall i rest g,
  zlen (concat (map enc_val (map (ref cr) us)) ++ rest) <= MaxUint64 ->
  decodeChildren dec (length us) i (concat (map enc_val (map (ref cr) us)) ++ rest) g = Ok (Good (map (child_node cr g) us, rest)).
Proof.
  induction 1 as [|u us Hu _ IH]; intros i rest g Hl; [done|]. cbn [length map concat decodeChildren] in *. rewrite <- app_assoc in *.
  rewrite decodeRef_ok by done. cbn [obind]. rewrite IH; [done|]. rewrite zlen_app in Hl. pose proof (zlen_nonneg (enc_val (ref cr u))). lia.
Qed.

(** What follows the children. *)
Lemma app_bound (a b : list byte) : zlen (a ++ b) <= MaxUint64 -> zlen b <= MaxUint64.
Proof. rewrite zlen_app. pose proof (zlen_nonneg a). lia. Qed.

Lemma decodeShort_ok dec k u h g : inner (Short k u) -> (is_branch u -> ref cr u = expanded cr u -> reads dec u) ->
  zlen (enc_str (compact k) ++ enc_val (ref cr u)) <= MaxUint64 ->
  decodeShort dec h (enc_str (compact k) ++ enc_val (ref cr u)) g = Ok (Good (load cr h g (Short k u))).
Proof.
  intros Hi Hr Hl. unfold decodeShort. rewrite SplitString_str by done. pose proof (app_bound _ _ Hl) as Hu.
  inversion Hi as [p v Hp Hv|p ts Hp Hne Hts|]; subst.
  - rewrite (proj2 (compact_ok _ (or_intror (ex_intro _ p (conj Hp eq_refl))))). cbn [obind]. rewrite hasTerm_app.
    cbn [ref enc_val] in *. rewrite <- (app_nil_r (enc_str v)), SplitString_str by (by rewrite app_nil_r). done.
  - rewrite (proj2 (compact_ok k (or_introl Hp))). cbn [obind]. rewrite hasTerm_path by done.
    rewrite <- (app_nil_r (enc_val _)), decodeRef_ok; [done|right; split; [done|by apply Hr]|by rewrite app_nil_r].
Qed.

Lemma decodeFull_ok dec ts h g : inner (Full ts) -> (forall i u, ts !! i = Some u -> is_branch u -> ref cr u = expanded cr u -> reads dec u) ->
  zlen (concat (map enc_val (map (ref cr) ts))) <= MaxUint64 ->
  decodeFull dec h (concat (map enc_val (map (ref cr) ts))) g = Ok (Good (load cr h g (Full ts))).
Proof.
  intros Hi Hr Hl. inversion Hi as [| |ts' H17 _ Hc H16]; subst.
  destruct (lookup_lt_is_Some_2 ts 16) as [w Hw]; [lia|].
  assert (ts = take 16 ts ++ [w]) as Ets by (rewrite <- (take_S_r _ _ _ Hw); symmetry; apply take_ge; lia).
  assert (length (take 16 ts) = 16%nat) as L16 by (rewrite length_take; lia).
  assert (Forall (fun u => u = Leafless \/ (is_branch u /\ (ref cr u = expanded cr u -> reads dec u))) (take 16 ts)) as Hall.
  { apply Forall_lookup_2. intros i u Hu. apply lookup_take_Some in Hu as [Hu Hlt]. destruct (decide (u = Leafless)) as [->|Hn]; [by left|right].
    assert (is_branch u) by (apply inner_branch, (Hc i); [done|lia|done]). split; [done|by eapply Hr]. }
  unfold decodeFull. rewrite Ets, !map_app, concat_app in Hl |- *. cbn [map concat] in *. rewrite app_nil_r in *.
  rewrite <- L16 at 1. rewrite decodeChildren_ok by done. cbn [obind].
  assert (exists v, enc_val (ref cr w) = enc_str v /\ (if 0 <? zlen v then valueNode v else nilNode) = child_node cr g w) as (v & Ev & Ec).
  { destruct (decide (w = Leafless)) as [->|Hn]; [by exists []|]. destruct (H16 w Hw Hn) as (v & -> & Hv). exists v. split; [done|].
    destruct v; [done|]. rewrite zlen_cons. pose proof (zlen_nonneg v). by rewrite (proj2 (Z.ltb_lt _ _)) by lia. }
  rewrite Ev in *. pose proof (app_bound _ _ Hl) as Hlv. rewrite <- (app_nil_r (enc_str v)), SplitString_str by (by rewrite app_nil_r).
  rewrite Ec. cbn [load]. by rewrite map_app.
Qed.

Lemma child_shorter l i v : l !! i = Some v -> (length (enc_val v) <= length (concat (map enc_val l)))%nat.
Proof.
  revert i. induction l as [|x l IH]; intros i Hi; [done|]. cbn [map concat]. rewrite length_app.
  destruct i as [|i]; cbn in Hi; [injection Hi as ->; lia|]. specialize (IH i Hi). lia.
Qed.

Lemma decodeNode_reads fuel t : inner t -> (length (enc_val (expanded cr t)) < fuel)%nat -> reads (decodeNode_fuel fuel) t.
Proof.
  revert t. induction fuel as [|fuel IH]; intros t Hi Hf; [lia|]. intros h g rest Hl.
  assert (exists l, expanded cr t = VList l /\ Forall plain l) as (l & El & Hp).
  { destruct t as [| |k u|ts]; try (by inversion Hi); eexists; (split; [reflexivity|]).
    - repeat constructor. apply plain_ref.
    - apply Forall_fmap, Forall_true. intros u. apply plain_ref. }
  rewrite El in Hf, Hl |- *. cbn [enc_val] in *. set (p := concat (map enc_val l)) in *.
  assert (zlen p <= MaxUint64) as Hlp. { rewrite zlen_app in Hl. pose proof (zlen_enc_lst_ge p). pose proof (zlen_nonneg rest). lia. }
  assert (length p < length (enc_lst p))%nat as Hlt.
  { unfold enc_lst. rewrite length_app. pose proof (zlen_enc_head_pos 0xC0 0xF7 (zlen p)) as Hh. unfold zlen in Hh |- *. lia. }
  assert ((zlen (enc_lst p ++ rest) =? 0) = false) as E0.
  { apply Z.eqb_neq. unfold zlen. rewrite length_app. lia. }
  cbn [decodeNode_fuel]. rewrite E0, SplitList_lst by done. rewrite (CountValues_vals l Hp Hlp : CountValues p = _). cbn [obind].
  assert (forall i u, l !! i = Some (ref cr u) -> inner u -> ref cr u = expanded cr u -> reads (decodeNode_fuel fuel) u) as Hsub.
  { intros i u Hu Hiu Er. apply IH; [done|]. rewrite <- Er. pose proof (child_shorter l i _ Hu : (_ <= length p)%nat). lia. }
  destruct Hi as [q v Hq Hv|q ts Hq Hne Hts|ts H17 Hbr Hc H16]; injection El as <-.
  - change (zlen _) with 2. cbn [Z.eqb Pos.eqb]. unfold p. cbn [map concat enc_val]. rewrite app_nil_r.
    unfold p in Hlp. cbn in Hlp. rewrite app_nil_r in Hlp.
    pose proof (decodeShort_ok (decodeNode_fuel fuel) (q ++ [terminator]) (Value v) h g ltac:(by constructor) ltac:(done) Hlp) as E.
    cbn [ref enc_val] in E. by rewrite E.
  - change (zlen _) with 2. cbn [Z.eqb Pos.eqb]. unfold p. cbn [map concat enc_val]. rewrite app_nil_r.
    unfold p in Hlp. cbn [map concat enc_val] in Hlp. rewrite app_nil_r in Hlp.
    pose proof (decodeShort_ok (decodeNode_fuel fuel) q (Full ts) h g ltac:(by constructor) ltac:(by intros _; apply (Hsub 1%nat)) Hlp) as E.
    etrans; [exact (f_equal (fun x => wrap x CShort) E)|done].
  - assert (zlen (map (ref cr) ts) = 17) as -> by (unfold zlen; rewrite length_map, H17; done). cbn [Z.eqb Pos.eqb]. unfold p.
    rewrite decodeFull_ok; [done|by constructor| |done]. intros i u Hu Hb. apply (Hsub i); [by rewrite list_lookup_fmap, Hu|].
    destruct (decide (i = 16%nat)) as [->|]; [|apply (Hc i); [done|done|by intros ->]].
    destruct (H16 u Hu) as (v & -> & _); [by intros ->|done].
Qed.

Lemma decodeNode_ok h g t : inner t -> bounded t -> decodeNode h (enc_val (expanded cr t)) g = Ok (Good (load cr h g t)).
Proof.
  intros Hi Hb. unfold decodeNode. rewrite <- (app_nil_r (enc_val _)) at 2.
  apply decodeNode_reads; [done|lia|]. rewrite app_nil_r. by apply expanded_bound.
Qed.
End decode.
