(* ===== verification/TrieCommit.v ===== *)
(** * The hasher

    [hash] gives the reference of the tree a node stands for and a node that still
    stands for it; with a database, the database then holds the tree. *)
From S2P Require Import Prelude CommonMath RlpEncode RlpDecode RlpFacts Opcodes VmBase VmInterface.
From S2P Require Import TrieEncoding TrieTree TrieNode TrieModel TrieRep TrieFacts TrieHash.
From stdpp Require Import base numbers list.
From Stdlib Require Import ZArith Lia.
#[local] Open Scope Z_scope.

Import Trie.

Inductive subtree : tree -> tree -> Prop :=
| sub_refl t : subtree t t
| sub_short k t u : subtree t u -> subtree (Short k t) u
| sub_full ts i t u : ts !! i = Some t -> subtree t u -> subtree (Full ts) u.

Lemma subtree_trans t u w : subtree t u -> subtree u w -> subtree t w.
Proof. intros Htu Huw. induction Htu; [done|by constructor; auto|econstructor; eauto]. Qed.

Lemma subtree_bounded tr w : inner tr -> bounded tr -> subtree tr w -> inner w -> bounded w.
Proof.
  intros Hi Hb Hs Hw. induction Hs as [t|k t u Hs IH|ts i t u Ht Hs IH]; [done|..].
  - inversion Hi as [p v Hp Hv|p ts Hp Hne Hts|]; subst; [inversion Hs; subst; inversion Hw|]. apply IH; [done|by eapply bounded_short|done].
  - inversion Hi as [| |ts' Hl _ Hc H16]; subst. destruct (decide (t = Leafless)) as [->|Hn]; [inversion Hs; subst; inversion Hw|].
    destruct (decide (i = 16%nat)) as [->|Hne].
    + destruct (H16 t Ht Hn) as (v & -> & _). inversion Hs; subst; inversion Hw.
    + apply IH; [by apply (Hc i)|by eapply bounded_full|done].
Qed.

Section commit.
Context {DB : Type} `{NodeDatabaseLaws DB} (cr : Crypto) (Hk : forall x, zlen (keccak256 cr x) = 32).

(** No two nodes of the tree share a hash, and none has the hash zero or that of the
    empty trie, which stand for no node. *)
Record distinct_hashes (tr : tree) : Prop := {
  dh_inj : forall u w, subtree tr u -> subtree tr w -> is_branch u -> is_branch w -> root_bytes cr u = root_bytes cr w -> u = w;
  dh_zero : forall u, subtree tr u -> is_branch u -> BytesToHash (root_bytes cr u) <> 0 /\ BytesToHash (root_bytes cr u) <> emptyRoot
}.
(** What the database has under the hash of a node of the tree, if anything, is that node. *)
Definition agrees (d : DB) (tr : tree) : Prop := forall u, subtree tr u -> is_branch u ->
  db_absent d (BytesToHash (root_bytes cr u)) \/ kept cr d u.
Definition same_nodes (d d' : DB) : Prop := grows d d' /\ forall h, db_absent d h -> db_absent d' h.
Lemma same_nodes_trans d1 d2 d3 : same_nodes d1 d2 -> same_nodes d2 d3 -> same_nodes d1 d3.
Proof. intros [H1 A1] [H2 A2]. split; [by etrans|]. intros h Hh. by apply A2, A1. Qed.
Record ready (d : DB) (tr : tree) : Prop := {
  rd_ok : db_ok d;
  rd_hashes : distinct_hashes tr;
  rd_agrees : agrees d tr
}.
(** The callback only touches what a lookup does not see. *)
Definition leaf_ok (onleaf : option (LeafCallback (DB := DB))) : Prop := forall f d v h, onleaf = Some f -> db_ok d ->
  exists d', f d v h = Ok d' /\ db_ok d' /\ same_nodes d d'.

Lemma BytesToHash_root_inj t u : BytesToHash (root_bytes cr t) = BytesToHash (root_bytes cr u) -> root_bytes cr t = root_bytes cr u.
Proof. intros E. by rewrite <- (Hash_Bytes_root cr Hk t), E, Hash_Bytes_root. Qed.

Definition with_db (c : bool) (d : DB) : option DB := if c then Some d else None.

Lemma leaves_ok onleaf f k cs hash d : leaf_ok onleaf -> onleaf = Some f -> db_ok d ->
  exists d', leaves f k cs hash d = Ok d' /\ db_ok d' /\ same_nodes d d'.
Proof.
  intros Hl Ef. revert cs d. induction k as [|k IH]; intros cs d Hd; [by exists d|]. destruct cs as [|c cs]; [by exists d|].
  destruct c; try (by apply IH). cbn. destruct (Hl f d v hash Ef Hd) as (d1 & -> & Hd1 & Hn1). cbn [obind].
  destruct (IH cs d1 Hd1) as (d2 & -> & Hd2 & Hn2). exists d2. split; [done|]. split; [done|]. by eapply same_nodes_trans.
Qed.

Lemma call_onleaf_ok onleaf n hash d : leaf_ok onleaf -> db_ok d ->
  exists d', call_onleaf onleaf n hash d = Ok d' /\ db_ok d' /\ same_nodes d d'.
Proof.
  intros Hl Hd. destruct onleaf as [f|] eqn:Ef; [|by exists d]. destruct n as [|cs fl|k [| | | |v] fl| |]; try (by exists d).
  - by eapply leaves_ok.
  - by eapply (Hl f).
Qed.

(** One more node in the database. *)
Lemma put_ok onleaf d tr t col blob : ready d tr -> leaf_ok onleaf -> subtree tr t -> is_branch t -> keyed t -> simplifyNode col = Ok (raw_node cr t) ->
  let h := BytesToHash (root_bytes cr t) in
  exists d', (let! d := db_insert d h blob col in call_onleaf onleaf col h d) = Ok d' /\ ready d' tr /\ grows d d' /\ kept cr d' t.
Proof.
  intros [Hok Hdh Hag] Hl Hsub Hb Hkey Hsim h.
  assert (forall g, exists m, expandNode (Some (Hash_Bytes h)) (raw_node cr t) g = Ok m) as Hexp.
  { intros g. eexists. by apply expandNode_node. }
  destruct (db_insert_ok d h blob col (raw_node cr t)) as (d1 & -> & Hok1 & Hh & Hother & Habs);
    [done|apply BytesToHash_word|by apply (dh_zero _ Hdh)|done|done|by apply Hag|].
  cbn [obind]. destruct (call_onleaf_ok onleaf col h d1 Hl Hok1) as (d2 & -> & Hok2 & Hsame & Habs2).
  assert (kept cr d2 t) as Hkept by (by apply Hsame).
  exists d2. split; [done|]. split; [|split; [|done]].
  - split; [done|done|]. intros u Hu Hub. destruct (decide (BytesToHash (root_bytes cr u) = h)) as [E|E].
    + apply BytesToHash_root_inj in E. pose proof (dh_inj _ Hdh u t Hu Hsub Hub Hb E) as ->. by right.
    + destruct (Hag u Hu Hub) as [Ha|Hu']; [left; by apply Habs2, Habs|right]. by apply Hsame, Hother.
  - intros h' r Hr. by apply Hsame, Hother.
Qed.

Record stored_step (c b : bool) (d : DB) (tr t : tree) (h : node) (d' : DB) : Prop := {
  ss_hashes : hashes cr b h t;
  ss_hash_ok : forall x, h = hashNode x -> hash_ok cr b x t;
  ss_grows : grows d d';
  ss_same : c = false -> d' = d;
  ss_held : c = true -> ready d' tr /\ if b then kept cr d' t else stored cr d' t
}.

Lemma store_ok onleaf c b d tr t col : inner t -> bounded t -> collapses cr col t ->
  (forall h, fst (cache col) = Some h -> h = root_bytes cr t) -> (c = true -> ready d tr /\ leaf_ok onleaf /\ subtree tr t) ->
  exists h d', store cr onleaf col (with_db c d) b = Ok (h, with_db c d') /\ stored_step c b d tr t h d'.
Proof.
  intros Hi Hbd Hcol Hcache Hc. pose proof (inner_branch t Hi) as Hb. pose proof Hcol as (Hsim & _ & Hnh & Hnn).
  assert (store cr onleaf col (with_db c d) b =
    if (zlen (enc_val (expanded cr t)) <? 32) && negb b then Ok (col, with_db c d)
    else match with_db c d with
         | None => Ok (hashNode (root_bytes cr t), None)
         | Some d => let h := BytesToHash (root_bytes cr t) in
             let! d := (let! d := db_insert d h (enc_val (expanded cr t)) col in call_onleaf onleaf col h d) in
             Ok (hashNode (root_bytes cr t), Some d)
         end) as ->.
  { unfold store. rewrite (encode_node cr Hk col t Hi Hbd Hcol).
    assert (match fst (cache col) with Some h => h | None => makeHashNode cr (enc_val (expanded cr t)) end = root_bytes cr t) as ->.
    { destruct (fst (cache col)) as [h|]; [by apply Hcache|done]. }
    assert (forall d, (let! d0 := db_insert d (BytesToHash (root_bytes cr t)) (enc_val (expanded cr t)) col in
         let! d1 := call_onleaf onleaf col (BytesToHash (root_bytes cr t)) d0 in Ok (hashNode (root_bytes cr t), Some d1)) =
       let! d1 := (let! d0 := db_insert d (BytesToHash (root_bytes cr t)) (enc_val (expanded cr t)) col in
         call_onleaf onleaf col (BytesToHash (root_bytes cr t)) d0) in Ok (hashNode (root_bytes cr t), Some d1)) as Eassoc.
    { intros x. by destruct (db_insert x _ _ _). }
    cbv zeta. destruct col; try done; by destruct c; cbn [with_db]; rewrite ?Eassoc. }
  destruct ((zlen (enc_val (expanded cr t)) <? 32) && negb b) eqn:Es.
  - apply andb_true_iff in Es as [Hs%Z.ltb_lt ->%negb_true_iff]. exists col, d. split; [done|].
    split; [by apply collapses_refers|by intros x ->|done|done|]. intros Ec. destruct (Hc Ec) as (Hr & _). split; [done|].
    intros h Eh. destruct (ref_cases cr t Hb) as [(_ & E & _)|(? & _)]; [|lia]. by destruct t; rewrite E in Eh.
  - assert (hash_ok cr b (root_bytes cr t) t) as Hh.
    { split; [done|]. destruct b; [done|]. destruct (ref_cases cr t Hb) as [(? & _)|(_ & E & _)]; [|done].
      rewrite (proj2 (Z.ltb_lt _ _)) in Es by done. done. }
    assert (forall d', grows d d' -> (c = false -> d' = d) -> (c = true -> ready d' tr /\ kept cr d' t) ->
      stored_step c b d tr t (hashNode (root_bytes cr t)) d') as Hdone.
    { intros d' Hg Hs Hkp. split; [by apply hash_hashes|by intros x [= <-]|done|done|]. intros Ec. destruct (Hkp Ec) as [Hr Hkt]. split; [done|].
      destruct b; [done|]. intros h Eh. done. }
    destruct c; cbn [with_db].
    + destruct (Hc eq_refl) as (Hr & Hl & Hsub).
      destruct (put_ok onleaf d tr t col (enc_val (expanded cr t)) Hr Hl Hsub Hb (inner_keyed t Hi) Hsim) as (d' & E & Hr' & Hg & Hkt).
      exists (hashNode (root_bytes cr t)), d'. cbv zeta in E |- *. rewrite E. split; [done|]. by apply Hdone.
    + exists (hashNode (root_bytes cr t)), d. split; [done|]. by apply Hdone.
Qed.

(** ** One node *)

Record hash_step (c b : bool) (d : DB) (tr t : tree) (h k : node) (d' : DB) : Prop := {
  hs_hashes : hashes cr b h t;
  hs_rep : rep cr d' b k t;
  hs_grows : grows d d';
  hs_same : c = false -> d' = d;
  hs_held : c = true -> ready d' tr /\ held_as cr d' b t
}.

Section node.
Context (hg hl : Z) (onleaf : option (LeafCallback (DB := DB))) (c : bool) (tr : tree) (d0 : DB).

Local Abbreviation hash := (hash cr hg hl onleaf).

(** The part of [hash] after the cached hash. *)
Definition hash_body (n : node) (od : option DB) (force : bool) : hashed (DB := DB) :=
  let! (collapsed, cached, od) := hashChildren hash n od in
  let! (hashed, od) := store cr onleaf collapsed od force in
  let cachedHash := match hashed with hashNode h => Some h | _ => None end in
  Ok (hashed, set_cached cached cachedHash match od with Some _ => true | None => false end, od).

Lemma hash_eq n od force : is_nil n = false -> hash n od force =
  match cache n, od with
  | (Some h, _), None => Ok (hashNode h, n, od)
  | (Some h, dirty), Some _ =>
      if canUnload n hg hl then Ok (hashNode h, hashNode h, od)
      else if negb dirty then Ok (hashNode h, n, od)
      else hash_body n od force
  | (None, _), _ => hash_body n od force
  end.
Proof. by destruct n. Qed.

(** What is to be shown of a node, from any larger database. *)
Definition hashable (b : bool) (n : node) (t : tree) : Prop := forall d, grows d0 d -> (c = true -> ready d tr) ->
  exists h k d', hash n (with_db c d) b = Ok (h, k, with_db c d') /\ hash_step c b d tr t h k d'.

(** A hash that is cached is given back unless the node is dirty and to be stored. *)
Lemma hashable_cached b n f t : is_nil n = false -> cache n = (fhash f, dirty f) -> canUnload n hg hl = flag_canUnload f hg hl ->
  rep cr d0 b n t -> flag_ok cr d0 b f t ->
  (forall d, grows d0 d -> (c = true -> ready d tr) -> exists h k d', hash_body n (with_db c d) b = Ok (h, k, with_db c d') /\ hash_step c b d tr t h k d') ->
  hashable b n t.
Proof.
  intros Hn Ec Eu Hr [Hfh Hfd] Hbody d Hg Hrd. rewrite hash_eq, Ec, Eu by done. destruct (fhash f) as [h|]; [|by apply Hbody].
  pose proof (hash_hashes cr b h t (Hfh h eq_refl)) as Hh. pose proof (rep_grows cr d0 d b n t Hg Hr) as Hr'. unfold flag_canUnload.
  destruct c; cbn [with_db].
  2: { exists (hashNode h), n, d. split; [done|]. by split. }
  destruct (dirty f) eqn:Ed; cbn [negb andb]; [by apply Hbody|].
  assert (held_as cr d b t) as Hheld by (by eapply held_as_grows, Hfd).
  destruct (hl <=? _); [exists (hashNode h), (hashNode h), d|exists (hashNode h), n, d]; (split; [done|]); split; try done; [|by auto|by auto].
  constructor; [by apply Hfh|done].
Qed.

(** The end of [hash]: the node is stored and its hash cached. *)
Lemma hash_finish b n f t d d1 col cached : inner t -> bounded t -> (c = true -> leaf_ok onleaf /\ subtree tr t) -> grows d d1 ->
  (c = false -> d1 = d) -> (c = true -> ready d1 tr /\ parts_held cr d1 t) -> grows d0 d -> flag_ok cr d0 b f t ->
  hashChildren hash n (with_db c d) = Ok (col, cached, with_db c d1) -> collapses cr col t -> cache col = (fhash f, dirty f) ->
  (forall d2 h, grows d1 d2 -> flag_ok cr d2 b (mkFlag h (gen f) (if c then false else dirty f)) t -> rep cr d2 b (set_cached cached h c) t) ->
  exists h k d', hash_body n (with_db c d) b = Ok (h, k, with_db c d') /\ hash_step c b d tr t h k d'.
Proof.
  intros Hi Hb Hc Hg1 Hs1 Hrd Hg0 [Hfh Hfd] E Hcol Ecol Hrep. unfold hash_body. rewrite E. cbn [obind].
  destruct (store_ok onleaf c b d1 tr t col Hi Hb Hcol) as (h & d2 & -> & [Hh Hho Hg2 Hs2 Hheld]).
  { rewrite Ecol. cbn. intros h Eh. eapply hash_ok_bytes. by apply Hfh. }
  { intros Ec. by destruct (Hc Ec), (Hrd Ec). }
  cbn [obind]. assert (match with_db c d2 with Some _ => true | None => false end = c) as -> by (by destruct c).
  eexists _, _, d2. split; [done|].
  assert (c = true -> held_as cr d2 b t) as Hheld2.
  { intros Ec. destruct (Hheld Ec) as [_ Hk']. destruct (Hrd Ec) as [_ Hp]. split; [|by destruct b].
    destruct t; try done; [by eapply held_grows|intros i u Hu; eapply held_grows; [done|by eapply Hp]]. }
  split; [done| |by etrans|intros Ec; by rewrite Hs2, Hs1|intros Ec; split; [by apply Hheld|by apply Hheld2]].
  apply Hrep; [done|]. split; cbn.
  - intros x Ex. apply Hho. destruct h; try done. by injection Ex as ->.
  - intros Ed. destruct c; [by apply Hheld2|]. rewrite Hs2, Hs1 by done. eapply held_as_grows; [exact Hg0|]. by apply Hfd.
Qed.

(** ** The children of a full node *)

Record slots_step (d : DB) (ts : list tree) (hs ks : list node) (d' : DB) : Prop := {
  sl_refers : Forall2 (refers_slot cr) hs ts;
  sl_rep : Forall2 (rep cr d' false) ks ts;
  sl_grows : grows d d';
  sl_same : c = false -> d' = d;
  sl_held : c = true -> ready d' tr /\ Forall (held cr d') ts
}.

(** A child that is left as it is. *)
Definition plain_slot (n : node) (t : tree) : Prop := (n = nilNode /\ t = Leafless) \/ exists v, n = valueNode v /\ t = Value v.

Lemma plain_slot_step d n t : plain_slot n t -> refers_slot cr n t /\ rep cr d false n t /\ held cr d t.
Proof.
  intros [[-> ->]|(v & -> & ->)]; (split; [|split; constructor]); [by left|by right].
Qed.
Lemma plain_slots_step d ns ts : (c = true -> ready d tr) -> Forall2 plain_slot ns ts -> slots_step d ts ns ns d.
Proof.
  intros Hr Hp. split; [|..|done|].
  - eapply Forall2_impl; [exact Hp|]. intros n t Hn. by apply (plain_slot_step d).
  - eapply Forall2_impl; [exact Hp|]. intros n t Hn. by apply plain_slot_step.
  - done.
  - intros Ec. split; [by apply Hr|]. induction Hp as [|n t ns ts Hn _ IH]; constructor; [by eapply (plain_slot_step d)|done].
Qed.

Lemma slots_cons d d1 d2 t ts h k hs ks : refers_slot cr h t -> rep cr d1 false k t -> grows d d1 -> (c = false -> d1 = d) ->
  (c = true -> held cr d1 t) -> slots_step d1 ts hs ks d2 -> slots_step d (t :: ts) (h :: hs) (k :: ks) d2.
Proof.
  intros Hh Hrep Hg Hs Hheld [Hrs Hreps Hgs Hss Hhs]. split.
  - by constructor.
  - constructor; [by eapply rep_grows|done].
  - by etrans.
  - intros Ec. by rewrite Hss, Hs.
  - intros Ec. destruct (Hhs Ec). split; [done|]. constructor; [eapply held_grows; [done|by apply Hheld]|done].
Qed.

Lemma hash_first_ok k ns ts d : grows d0 d -> (c = true -> ready d tr) ->
  Forall2 (fun n t => (n = nilNode /\ t = Leafless) \/ (is_nil n = false /\ hashable false n t)) (take k ns) (take k ts) ->
  Forall2 plain_slot (drop k ns) (drop k ts) ->
  exists hs ks d', hash_first hash k ns (with_db c d) = Ok (hs, ks, with_db c d') /\ slots_step d ts hs ks d'.
Proof.
  revert ns ts d. induction k as [|k IH]; intros ns ts d Hg Hr Hpre Hpost.
  { rewrite !drop_0 in Hpost. exists ns, ns, d. split; [by destruct ns|by apply plain_slots_step]. }
  destruct ns as [|n ns], ts as [|t ts]; [| |by inversion Hpre|]; [exists [], [], d; split; [done|]; by apply plain_slots_step|by inversion Hpre|].
  cbn [take drop] in Hpre, Hpost. apply Forall2_cons in Hpre as [Hn Hpre]. cbn [hash_first].
  assert (exists h k' d1, (if is_nil n then Ok (n, n, with_db c d) else hash n (with_db c d) false) = Ok (h, k', with_db c d1) /\
    refers_slot cr h t /\ rep cr d1 false k' t /\ grows d d1 /\ (c = false -> d1 = d) /\ (c = true -> ready d1 tr /\ held cr d1 t)) as (h & k' & d1 & -> & Hh & Hk' & Hg1 & Hs1 & Hd1).
  { destruct Hn as [[-> ->]|[En Hn]].
    - exists nilNode, nilNode, d. split; [done|]. split; [by left|]. split; [constructor|]. split; [done|]. split; [done|]. intros Ec. split; [by apply Hr|constructor].
    - rewrite En. destruct (Hn d Hg Hr) as (h & k' & d1 & E & [Hh Hrep Hg1 Hs1 Hheld]). exists h, k', d1. split; [done|]. split; [by right|].
      split; [done|]. split; [done|]. split; [done|]. intros Ec. destruct (Hheld Ec) as [? Hha]. split; [done|]. by apply held_as_child. }
  cbn [obind]. destruct (IH ns ts d1) as (hs & ks & d2 & -> & Hsl); [by etrans|intros Ec; by apply Hd1|done|done|].
  cbn [obind]. exists (h :: hs), (k' :: ks), d2. split; [done|]. eapply slots_cons; try done. intros Ec. by apply Hd1.
Qed.


Lemma full_slots ns ts : inner (Full ts) -> length ns = length ts -> (forall i n t, ns !! i = Some n -> ts !! i = Some t -> rep cr d0 false n t) ->
  (forall i n t, ns !! i = Some n -> ts !! i = Some t -> inner t -> i <> 16%nat -> hashable false n t) ->
  Forall2 (fun n t => (n = nilNode /\ t = Leafless) \/ (is_nil n = false /\ hashable false n t)) (take 16 ns) (take 16 ts) /\
  Forall2 plain_slot (drop 16 ns) (drop 16 ts).
Proof.
  intros Hi Hlen Hrep Hh. inversion Hi as [| |ts' Hl _ Hc H16]; subst. split; apply Forall2_same_length_lookup.
  - split; [rewrite !length_take; lia|]. intros i n t Hn Ht. apply lookup_take_Some in Hn as [Hn Hlt], Ht as [Ht _].
    pose proof (rep_is_nil _ _ _ _ _ (Hrep i n t Hn Ht)) as Hnil. destruct (is_nil n) eqn:En; [left; by destruct n|right]. split; [done|].
    eapply Hh; try done; [|lia]. apply (Hc i); [done|lia|done].
  - split; [rewrite !length_drop; lia|]. intros i n t Hn Ht. rewrite lookup_drop in Hn. rewrite lookup_drop in Ht. pose proof (lookup_lt_Some _ _ _ Ht) as Hlt.
    assert (i = 0%nat) as -> by lia. pose proof (Hrep _ n t Hn Ht) as Hr. cbn in Ht. destruct (decide (t = Leafless)) as [->|Hne].
    + left. by inversion Hr as [| | | |? ? ? [? _]].
    + destruct (H16 t Ht Hne) as (v & -> & _). right. exists v. by inversion Hr as [| | | |? ? ? [? _]].
Qed.

Lemma subtree_child (b : tree) k u : subtree b (Short k u) -> subtree b u.
Proof. intros Hs. eapply subtree_trans; [exact Hs|]. constructor. constructor. Qed.
Lemma subtree_slot (b : tree) ts i u : subtree b (Full ts) -> ts !! i = Some u -> subtree b u.
Proof. intros Hs Hu. eapply subtree_trans; [exact Hs|]. econstructor; [exact Hu|constructor]. Qed.

Lemma short_children k n f t d : inner (Short k t) -> rep cr d0 false n t -> (inner t -> hashable false n t) -> grows d0 d -> (c = true -> ready d tr) ->
  exists h kn d1, hashChildren hash (shortNode k n f) (with_db c d) = Ok (shortNode (compact k) h f, shortNode k kn f, with_db c d1) /\
    refers cr h t /\ rep cr d1 false kn t /\ grows d d1 /\ (c = false -> d1 = d) /\ (c = true -> ready d1 tr /\ held cr d1 t).
Proof.
  intros Hi Hr Hn Hg Hrd. cbn [hashChildren]. assert (hexToCompact k = Ok (compact k)) as ->.
  { apply inner_keyed in Hi. inversion Hi as [| |k' t' Hkk _ _|]; subst. by apply compact_ok. }
  cbn [obind]. assert ((exists v, n = valueNode v /\ t = Value v) \/ (inner t /\ forall v, n <> valueNode v)) as [(v & -> & ->)|[Hit Hnv]].
  { inversion Hi as [p v Hp Hv|p ts Hp Hne Hts|]; subst; inversion Hr as [| | | |? ? ? [? _]]; subst; try done; [left; eauto|right; done..]. }
  - exists (valueNode v), (valueNode v), d. split; [done|]. split; [done|]. split; [constructor|]. split; [done|]. split; [done|].
    intros Ec. split; [by apply Hrd|constructor].
  - destruct (Hn Hit d Hg Hrd) as (h & kn & d1 & E & [Hh Hrep Hg1 Hs1 Hheld]). exists h, kn, d1. split; [|split; [done|]; split; [done|]; split; [done|]; split; [done|]].
    + rewrite E. cbn [obind]. destruct n; try done. by destruct (Hnv v).
    + intros Ec. destruct (Hheld Ec) as [? Hha]. split; [done|]. by apply held_as_child.
Qed.

Lemma hash_short b k n f t : inner (Short k t) -> bounded (Short k t) -> (c = true -> leaf_ok onleaf /\ subtree tr (Short k t)) ->
  rep cr d0 false n t -> flag_ok cr d0 b f (Short k t) -> (inner t -> hashable false n t) -> hashable b (shortNode k n f) (Short k t).
Proof.
  intros Hi Hb Hc Hr Hf Hn. apply (hashable_cached _ _ f); [done|done|done|by constructor|done|]. intros d Hg Hrd.
  destruct (short_children k n f t d Hi Hr Hn Hg Hrd) as (h & kn & d1 & E & Hh & Hkn & Hg1 & Hs1 & Hd1).
  eapply (hash_finish b _ f); try done.
  - by apply collapses_short.
  - intros d2 x Hg2 Hfl. constructor; [by eapply rep_grows|done].
Qed.

Lemma hash_full b ns f ts : inner (Full ts) -> bounded (Full ts) -> (c = true -> leaf_ok onleaf /\ subtree tr (Full ts)) ->
  rep cr d0 b (fullNode ns f) (Full ts) ->
  (forall i n t, ns !! i = Some n -> ts !! i = Some t -> inner t -> i <> 16%nat -> hashable false n t) -> hashable b (fullNode ns f) (Full ts).
Proof.
  intros Hi Hb Hc Hr Hn. inversion Hr as [| | |b' cs' f' ts' Hlen Hch Hf|]; subst.
  apply (hashable_cached _ _ f); [done..|]. intros d Hg Hrd. destruct (full_slots ns ts Hi Hlen Hch Hn) as [Hpre Hpost].
  destruct (hash_first_ok 16 ns ts d Hg Hrd Hpre Hpost) as (hs & ks & d1 & E & [Hrs Hreps Hg1 Hs1 Hd1]).
  eapply (hash_finish b _ f (Full ts) d d1 (fullNode hs f) (fullNode ks f)); try done.
  - intros Ec. destruct (Hd1 Ec) as [? Hh]. split; [done|]. intros i u Hu. eapply Forall_lookup_1; eauto.
  - unfold hashChildren. by rewrite E.
  - by apply collapses_full.
  - intros d2 x Hg2 Hfl. constructor; [by eapply Forall2_length| |done]. intros i n t Hni Hti.
    eapply rep_grows; [exact Hg2|]. by eapply (Forall2_lookup_lr _ _ _ _ _ _ Hreps).
Qed.

Lemma hash_hash b h t : hash_ok cr b h t -> held_as cr d0 b t -> hashable b (hashNode h) t.
Proof.
  intros Hh Hheld d Hg Hrd. exists (hashNode h), (hashNode h), d. split; [by destruct c|]. split; try done.
  - by apply hash_hashes.
  - constructor; [done|by eapply held_as_grows].
  - intros Ec. split; [by apply Hrd|by eapply held_as_grows].
Qed.

Lemma hash_node_ok b n t : rep cr d0 b n t -> inner t -> bounded t -> (c = true -> leaf_ok onleaf /\ subtree tr t) -> hashable b n t.
Proof.
  induction 1 as [b|b v|b k n f t Hn IH Hfl|b ns f ts Hlen Hch IH Hfl|b h t Hh Hheld]; intros Hi Hb Hc.
  - inversion Hi.
  - inversion Hi.
  - apply hash_short; try done. intros Hit. apply IH; [done| |].
    + inversion Hi as [| p us Hp Hne Hts|]; subst; [by inversion Hit|by eapply bounded_short].
    + intros Ec. destruct (Hc Ec). split; [done|by eapply subtree_child].
  - apply hash_full; try done; [by constructor|]. intros i n t Hn Ht Hit Hne. eapply IH; try done; [by eapply bounded_full|].
    intros Ec. destruct (Hc Ec). split; [done|by eapply subtree_slot].
  - by apply hash_hash.
Qed.

(** What [hashChildren] leaves of a node, for the proofs. *)
Lemma hashChildren_ok b n t : rep cr d0 b n t -> not_hash n -> inner t -> bounded t -> (c = true -> leaf_ok onleaf /\ subtree tr t) -> (c = true -> ready d0 tr) ->
  exists col cached d1, hashChildren hash n (with_db c d0) = Ok (col, cached, with_db c d1) /\ collapses cr col t /\
    forall h, fst (cache col) = Some h -> h = root_bytes cr t.
Proof.
  intros Hr Hnh Hi Hb Hc Hrd. assert (forall f, flag_ok cr d0 b f t -> forall h, fhash f = Some h -> h = root_bytes cr t) as Hflag.
  { intros f [Hfh _] h Eh. eapply hash_ok_bytes. by apply Hfh. }
  destruct Hr as [b|b v|b k n f t Hn Hfl|b ns f ts Hlen Hch Hfl|b h t Hh Hheld]; [inversion Hi|inversion Hi|..|done].
  - destruct (short_children k n f t d0 Hi Hn) as (h & kn & d1 & E & Hh & _); [|done|done|].
    { intros Hit. apply hash_node_ok; [done|done| |].
      - inversion Hi as [| p us Hp Hne Hts|]; subst; [by inversion Hit|by eapply bounded_short].
      - intros Ec. destruct (Hc Ec). split; [done|by eapply subtree_child]. }
    eexists _, _, d1. split; [exact E|]. split; [by apply collapses_short|]. by apply Hflag.
  - destruct (full_slots ns ts Hi Hlen Hch) as [Hpre Hpost].
    { intros i n t Hn Ht Hit Hne. apply hash_node_ok; [by eapply Hch|done|by eapply bounded_full|].
      intros Ec. destruct (Hc Ec). split; [done|by eapply subtree_slot]. }
    destruct (hash_first_ok 16 ns ts d0 ltac:(done) Hrd Hpre Hpost) as (hs & ks & d1 & E & [Hrs _ _ _ _]).
    exists (fullNode hs f), (fullNode ks f), d1. split; [unfold hashChildren; by rewrite E|]. split; [by apply collapses_full|]. by apply Hflag.
Qed.
End node.
End commit.
