(* ===== verification/TrieTheorems.v ===== *)
(** * The trie as a map

    [trie_at t M]: the trie [t] stands for the map [M] from keys to values.  The
    operations are those of the map, and the root hash is a function of it. *)
From S2P Require Import Prelude CommonMath RlpEncode RlpDecode RlpFacts Opcodes VmBase VmInterface.
From S2P Require Import TrieEncoding TrieTree TrieNode TrieModel TrieRep TrieFacts TrieHash TrieCommit.
From stdpp Require Import base numbers list.
From Stdlib Require Import ZArith Lia.
#[local] Open Scope Z_scope.

Import Trie.

(** A map from keys to values. *)
Definition kvmap : Type := list byte -> option (list byte).
Definition kv_update (M : kvmap) (key value : list byte) : kvmap :=
  fun k => if decide (k = key) then match value with [] => None | _ => Some value end else M k.

(** A tree that holds a map. *)
Record holds_map (tr : tree) (M : kvmap) : Prop := {
  hm_canonical : canonical tr;
  hm_content : forall k, tget tr (keybytesToHex k) = M k;
  hm_keys : forall h v, terminated h -> tget tr h = Some v -> exists k, h = keybytesToHex k;
  hm_bounded : bounded tr
}.

Lemma keybytesToHex_inj k l : keybytesToHex k = keybytesToHex l -> k = l.
Proof.
  unfold keybytesToHex. intros [E _]%app_inj_2; [|done]. pose proof (decodeNibbles_hex_digits k) as Ek. rewrite E, decodeNibbles_hex_digits in Ek. congruence.
Qed.

Lemma holds_map_unique t u M : holds_map t M -> holds_map u M -> t = u.
Proof.
  assert (forall t u, holds_map t M -> holds_map u M -> forall h v, terminated h -> tget t h = Some v -> tget u h = Some v) as Hle.
  { intros x y Hx Hy h v Hh Hg. destruct (hm_keys _ _ Hx h v Hh Hg) as (k & ->). rewrite (hm_content _ _ Hx) in Hg. by rewrite (hm_content _ _ Hy). }
  intros Ht Hu. apply canonical_unique; [apply Ht|apply Hu|]. intros h Hh.
  destruct (tget t h) as [v|] eqn:E; [symmetry; by eapply (Hle t u)|]. destruct (tget u h) as [v|] eqn:E'; [|done].
  rewrite <- E. by eapply (Hle u t).
Qed.

Section theorems.
Context {DB : Type} `{NodeDatabaseLaws DB} (cr : Crypto) (Hk : forall x, zlen (keccak256 cr x) = 32).
Local Abbreviation Trie := (Trie DB).

Definition trie_tree (t : Trie) (tr : tree) : Prop := rep cr (db t) true (root t) tr.
Definition trie_at (t : Trie) (M : kvmap) : Prop := exists tr, trie_tree t tr /\ holds_map tr M.

Lemma fits_root tr k : canonical tr -> fits tr (keybytesToHex k).
Proof. left. split; [done|apply keybytesToHex_terminated]. Qed.
Lemma key_fuel_enough key n : (2 * length key + hash_weight n <= key_fuel key)%nat.
Proof. unfold key_fuel. pose proof (hash_weight_le n). lia. Qed.

Lemma TryGet_at (t : Trie) M key : trie_at t M -> exists t', TryGet t key = Ok (Good (M key), t') /\ trie_at t' M.
Proof.
  intros (tr & Hr & Hm). unfold TryGet.
  destruct (tryGet_ok cr Hk (db t) t (key_fuel (keybytesToHex key)) eq_refl true (root t) tr (keybytesToHex key) 0 Hr) as (n' & dr & -> & Hr').
  { rewrite drop_0. apply fits_root, Hm. }
  { rewrite drop_0. apply key_fuel_enough. }
  cbn [obind]. rewrite drop_0, (hm_content _ _ Hm). eexists. split; [reflexivity|]. exists tr. split; [|done]. by destruct dr.
Qed.

Lemma holds_map_update tr M key v tr' : holds_map tr M -> v <> [] -> zlen key < 2 ^ 31 - 1 -> zlen v < 2 ^ 32 -> inner tr' ->
  updates tr (keybytesToHex key) v tr' -> holds_map tr' (kv_update M key v).
Proof.
  intros [Hc Hct Hks Hb] Hv Hlk Hlv Hi Hu. split.
  - by right.
  - intros k. rewrite Hu. unfold kv_update. destruct (decide (k = key)) as [->|Hne]; [rewrite decide_True by done; by destruct v|].
    rewrite decide_False; [apply Hct|]. by intros E%keybytesToHex_inj.
  - intros h w Hh. rewrite Hu. case_decide as E; [by exists key|]. by apply Hks.
  - intros h w Hh. rewrite Hu. case_decide as E; [|by apply Hb]. intros [= <-]. subst h. split; [|done].
    unfold keybytesToHex. rewrite zlen_app, hex_digits_len. change (zlen [terminator]) with 1. lia.
Qed.

Lemma holds_map_erase tr M key tr' : holds_map tr M -> canonical tr' -> erases tr (keybytesToHex key) tr' -> holds_map tr' (kv_update M key []).
Proof.
  intros [Hc Hct Hks Hb] Hi Hu. split.
  - done.
  - intros k. rewrite Hu. unfold kv_update. destruct (decide (k = key)) as [->|Hne]; [by rewrite decide_True|].
    rewrite decide_False; [apply Hct|]. by intros E%keybytesToHex_inj.
  - intros h w Hh. rewrite Hu. case_decide; [done|]. by apply Hks.
  - intros h w Hh. rewrite Hu. case_decide; [done|]. by apply Hb.
Qed.

Lemma inserted_at (t : Trie) M tr key v : trie_tree t tr -> holds_map tr M -> v <> [] -> zlen key < 2 ^ 31 - 1 -> zlen v < 2 ^ 32 ->
  exists r, insert (key_fuel (keybytesToHex key)) t (root t) [] (keybytesToHex key) (valueNode v) = Ok (Good r) /\
    trie_at (with_root t (snd r)) (kv_update M key v).
Proof.
  intros Hr Hm Hv Hlk Hlv.
  destruct (insert_ok cr Hk (db t) t (key_fuel (keybytesToHex key)) eq_refl true (root t) tr [] (keybytesToHex key) v Hr) as (r & tr' & E & [Hu Hs _ [Hrep _]]);
    [apply fits_root, Hm|done|apply key_fuel_enough|].
  exists r. split; [done|]. exists tr'. split; [done|].
  assert (inner tr') by (destruct Hs as [[Ek _]|[_ ?]]; [by destruct (terminated_nonempty _ (keybytesToHex_terminated key))|done]).
  by apply (holds_map_update tr).
Qed.

Lemma deleted_at (t : Trie) M tr key : trie_tree t tr -> holds_map tr M ->
  exists r, delete (key_fuel (keybytesToHex key)) t (root t) [] (keybytesToHex key) = Ok (Good r) /\
    trie_at (with_root t (snd r)) (kv_update M key []).
Proof.
  intros Hr Hm.
  destruct (delete_ok cr Hk (db t) t (key_fuel (keybytesToHex key)) eq_refl true (root t) tr [] (keybytesToHex key) Hr) as (r & tr' & E & [Hu Hs _ [Hrep _]]);
    [apply fits_root, Hm|apply key_fuel_enough|].
  exists r. split; [done|]. exists tr'. split; [done|].
  assert (canonical tr') by (destruct Hs as [[Ek _]|[_ ?]]; [by destruct (terminated_nonempty _ (keybytesToHex_terminated key))|done]).
  by apply (holds_map_erase tr).
Qed.

Lemma TryDelete_at (t : Trie) M key : trie_at t M -> exists t', TryDelete t key = Ok (None, t') /\ trie_at t' (kv_update M key []).
Proof.
  intros (tr & Hr & Hm). unfold TryDelete. destruct (deleted_at t M tr key Hr Hm) as ([b n] & -> & Hat). by eexists.
Qed.
Lemma TryUpdate_at (t : Trie) M key v : trie_at t M -> zlen key < 2 ^ 31 - 1 -> zlen v < 2 ^ 32 ->
  exists t', TryUpdate t key v = Ok (None, t') /\ trie_at t' (kv_update M key v).
Proof.
  intros (tr & Hr & Hm) Hlk Hlv. unfold TryUpdate. destruct v as [|x v].
  - cbn [negb]. change (zlen [] =? 0) with true. cbn [negb]. destruct (deleted_at t M tr key Hr Hm) as ([b n] & -> & Hat). by eexists.
  - rewrite zlen_cons. pose proof (zlen_nonneg v). rewrite (proj2 (Z.eqb_neq _ _)) by lia. cbn [negb].
    destruct (inserted_at t M tr key (x :: v) Hr Hm) as ([b n] & -> & Hat); [done|done|done|]. by eexists.
Qed.

(** ** The root hash *)

Lemma trie_tree_nil (t : Trie) tr : trie_tree t tr -> root t = nilNode <-> tr = Leafless.
Proof. intros Hr. pose proof (rep_is_nil _ _ _ _ _ Hr) as Hn. split; [by intros E; rewrite E in Hn|intros ->]. by destruct (root t). Qed.

Lemma BytesToHash_empty : BytesToHash (Hash_Bytes emptyRoot) = emptyRoot.
Proof. by vm_compute. Qed.

(** With or without the database. *)
Lemma hashRoot_ok (t : Trie) tr c onleaf : trie_tree t tr -> canonical tr -> bounded tr -> (c = true -> leaf_ok onleaf /\ ready cr (db t) tr) ->
  exists h k d', hashRoot cr t (with_db c (db t)) onleaf = Ok (hashNode h, k, with_db c d') /\ BytesToHash h = merkle_root cr tr /\
    rep cr d' true k tr /\ (c = false -> d' = db t) /\ grows (db t) d' /\ (c = true -> ready cr d' tr /\ (tr <> Leafless -> held_as cr d' true tr)).
Proof.
  intros Hr Hc Hb Hrd. destruct Hc as [->|Hi].
  - exists (Hash_Bytes emptyRoot), nilNode, (db t). unfold hashRoot. rewrite (proj2 (trie_tree_nil t _ Hr) eq_refl).
    split; [done|]. split; [apply BytesToHash_empty|]. split; [constructor|]. split; [done|]. split; [done|]. intros Ec. by destruct (Hrd Ec).
  - assert (root t <> nilNode) as Hn by (intros E; apply (trie_tree_nil t _ Hr) in E; by apply (inner_not_empty _ Hi)).
    destruct (hash_node_ok cr Hk (cachegen t) (cachelimit t) onleaf c tr (db t) true (root t) tr Hr Hi Hb) with (d := db t)
      as (h & k & d' & E & [Hh Hrep Hg Hs Hheld]); [intros Ec; split; [by apply Hrd|constructor]|done|intros Ec; by apply Hrd|].
    cbn in Hh. subst h. exists (root_bytes cr tr), k, d'. split; [unfold hashRoot; destruct (root t); done|].
    split; [by destruct tr; [inversion Hi|..]|]. split; [done|]. split; [done|]. split; [done|]. intros Ec. by destruct (Hheld Ec).
Qed.

Lemma Hash_at (t : Trie) tr M : trie_tree t tr -> holds_map tr M -> exists t', Hash_ cr t = Ok (merkle_root cr tr, t') /\ trie_tree t' tr.
Proof.
  intros Hr [Hc _ _ Hb]. destruct (hashRoot_ok t tr false None Hr Hc Hb) as (h & k & d' & E & Eh & Hrep & Hs & _); [done|].
  unfold Hash_. cbn [with_db] in E. rewrite E. cbn [obind]. rewrite <- Eh. eexists. split; [reflexivity|]. by rewrite Hs in Hrep.
Qed.

Lemma Commit_at (t : Trie) tr M onleaf : trie_tree t tr -> holds_map tr M -> leaf_ok onleaf -> ready cr (db t) tr ->
  exists t', Commit cr t onleaf = Ok (merkle_root cr tr, t') /\ trie_tree t' tr /\ grows (db t) (db t') /\ ready cr (db t') tr /\
    (tr <> Leafless -> held_as cr (db t') true tr).
Proof.
  intros Hr [Hc _ _ Hb] Hl Hrd. destruct (hashRoot_ok t tr true onleaf Hr Hc Hb) as (h & k & d' & E & Eh & Hrep & _ & Hg & Hheld); [done|].
  unfold Commit. cbn [with_db] in E. rewrite E. cbn [obind default]. rewrite <- Eh. eexists. split; [reflexivity|].
  split; [done|]. split; [done|]. by apply Hheld.
Qed.

(** Opening a trie by its root hash. *)
Lemma New_at (d : DB) tr : canonical tr -> (tr <> Leafless -> held_as cr d true tr /\ distinct_hashes cr tr) ->
  exists t, New (merkle_root cr tr) d = Ok (Good t) /\ trie_tree t tr /\ db t = d.
Proof.
  intros [->|Hi] Hh; unfold New.
  - rewrite Z.eqb_refl, andb_false_r. eexists. split; [reflexivity|]. split; [constructor|done].
  - destruct (Hh (inner_not_empty _ Hi)) as [Hheld Hdh]. pose proof (inner_branch _ Hi) as Hb.
    destruct (dh_zero _ _ Hdh tr (sub_refl tr) Hb) as [Hz He].
    assert (merkle_root cr tr = BytesToHash (root_bytes cr tr)) as -> by (by destruct tr).
    rewrite !(proj2 (Z.eqb_neq _ _)) by done. cbn [negb andb]. rewrite Hash_Bytes_root by done.
    destruct (resolveHash_ok cr Hk d (mkTrie d nilNode 0 0) (root_bytes cr tr) [] true tr) as (n & -> & _ & Hrep); [done..|].
    eexists. split; [reflexivity|]. done.
Qed.

End theorems.
