(* ===== verification/TrieProof.v ===== *)
(** * Merkle proofs ([lib/trie/proof.go])

    [Prove] collects the nodes on the way to a key, [VerifyProof] follows them from
    the root hash. *)
From S2P Require Import Prelude CommonMath RlpEncode RlpDecode Opcodes VmBase VmInterface.
From S2P Require Import TrieEncoding TrieTree TrieNode TrieModel.
From stdpp Require Import base numbers list.
From Stdlib Require Import ZArith Lia.
#[local] Open Scope Z_scope.

Import Trie.

Module Proof.

Section proof.
Context {DB : Type} `{NodeDatabase DB} (cr : Crypto).
Local Abbreviation Trie := (Trie DB).

(** ** Proving *)

(** The nodes on the way to a key; hashes are resolved, and not among them. *)
Fixpoint path_nodes (fuel : nat) (t : Trie) (tn : node) (key : list byte) (nodes : list node) : outcome (result trieerror (list node)) :=
  match key with
  | [] => Ok (Good nodes)
  | k0 :: krest =>
      match tn with
      | nilNode => Ok (Good nodes)
      | _ =>
          match fuel with
          | O => OutOfFuel
          | S fuel =>
              match tn with
              | shortNode nkey val _ =>
                  if Nat.ltb (length key) (length nkey) || negb (bool_decide (nkey = take (length nkey) key))
                  then path_nodes fuel t nilNode key (nodes ++ [tn])
                  else path_nodes fuel t val (drop (length nkey) key) (nodes ++ [tn])
              | fullNode cs _ =>
                  match cs !! Z.to_nat (b2z k0) with
                  | None => Panic
                  | Some c => path_nodes fuel t c krest (nodes ++ [tn])
                  end
              | hashNode h =>
                  let! n := resolveHash t h [] in
                  match n with
                  | Err e => Ok (Err e)
                  | Good n => path_nodes fuel t n key nodes
                  end
              | _ => Panic
              end
          end
      end
  end.

(** The calls of [proofDb.Put], in order, for the nodes from the [i]-th on. *)
Fixpoint put_nodes (nodes : list node) (i fromLevel : nat) : outcome (list (list byte * list byte)) :=
  match nodes with
  | [] => Ok []
  | n :: nodes =>
      let! (n, _, _) := hashChildren (hash cr 0 0 (None : option (LeafCallback (DB := DB)))) n None in
      let! (hn, _) := store cr (None : option (LeafCallback (DB := DB))) n None false in
      let ok := match hn with hashNode h => Some h | _ => None end in
      match ok, Nat.eqb i 0 with
      | None, false => put_nodes nodes (S i) fromLevel
      | _, _ =>
          match fromLevel with
          | S fromLevel => put_nodes nodes (S i) fromLevel
          | O =>
              let enc := match EncodeToBytes (node_val n) with Good enc => enc | Err _ => [] end in
              let hash := match ok with Some h => h | None => keccak256 cr enc end in
              let! puts := put_nodes nodes (S i) O in
              Ok ((hash, enc) :: puts)
          end
      end
  end.

(** The error, if any, and what was put in the proof. *)
Definition Prove (t : Trie) (key : list byte) (fromLevel : nat) : outcome (option trieerror * list (list byte * list byte)) :=
  let key := keybytesToHex key in
  let! nodes := path_nodes (key_fuel key) t (root t) key [] in
  match nodes with
  | Err e => Ok (Some e, [])
  | Good nodes => let! puts := put_nodes nodes 0 fromLevel in Ok (None, puts)
  end.
End proof.

(** ** Verifying *)

(** The rest of the key and the node it leads to. *)
Fixpoint get (tn : node) (key : list byte) : outcome (list byte * node) :=
  match tn with
  | shortNode k v _ =>
      if Nat.ltb (length key) (length k) || negb (bool_decide (k = take (length k) key)) then Ok ([], nilNode)
      else get v (drop (length k) key)
  | fullNode cs _ =>
      match key with
      | [] => Panic
      | b :: key =>
          (fix child (cs : list node) (i : nat) : outcome (list byte * node) :=
             match cs, i with
             | [], _ => Panic
             | c :: _, O => get c key
             | _ :: cs, S i => child cs i
             end) cs (Z.to_nat (b2z b))
      end
  | hashNode _ => Ok (key, tn)
  | nilNode => Ok (key, nilNode)
  | valueNode _ => Ok ([], tn)
  end.

Inductive prooferror : Type :=
| MissingProofNode (i : nat) (hash : list byte)
| BadProofNode (i : nat) (e : nodeerr).

(** [copy(wantHash[:], cld)] *)
Definition copy_hash (want cld : list byte) : list byte := take (length want) cld ++ drop (length cld) want.

(** Value, number of nodes, error.  The nodes come from the proof, so the loop need
    not end: it runs for [fuel] nodes. *)
Fixpoint VerifyProof_loop (fuel : nat) (proofDb : list byte -> option (list byte)) (wantHash key : list byte) (i : nat)
    : outcome (option (list byte) * nat * option prooferror) :=
  match fuel with
  | O => OutOfFuel
  | S fuel =>
      match proofDb wantHash with
      | None => Ok (None, i, Some (MissingProofNode i wantHash))
      | Some buf =>
          let! n := decodeNode (Some wantHash) buf 0 in
          match n with
          | Err e => Ok (None, i, Some (BadProofNode i e))
          | Good n =>
              let! (keyrest, cld) := get n key in
              match cld with
              | nilNode => Ok (None, i, None)
              | hashNode h => VerifyProof_loop fuel proofDb (copy_hash wantHash h) keyrest (S i)
              | valueNode v => Ok (Some v, S i, None)
              | _ => VerifyProof_loop fuel proofDb wantHash key (S i)
              end
          end
      end
  end.
Definition VerifyProof (fuel : nat) (rootHash : Hash) (key : list byte) (proofDb : list byte -> option (list byte))
    : outcome (option (list byte) * nat * option prooferror) :=
  VerifyProof_loop fuel proofDb (Hash_Bytes rootHash) (keybytesToHex key) 0.

End Proof.
