(* ===== verification/TrieProofFacts.v ===== *)
(** * Merkle proofs are sound and complete

    A proof that verifies against the root of a trie gives the value the trie has,
    and the proof that [Prove] collects verifies. *)
From S2P Require Import Prelude CommonMath RlpEncode RlpDecode RlpFacts Opcodes VmBase VmInterface.
From S2P Require Import TrieEncoding TrieTree TrieNode TrieModel TrieRep TrieFacts TrieHash TrieDecode TrieCommit TrieTheorems TrieProof.
From stdpp Require Import base numbers list.
From Stdlib Require Import ZArith Lia.
#[local] Open Scope Z_scope.

Import Trie Proof.

(** ** The way to a key *)

(** [reach t k u k']: the way of [k] from [t] passes [u], with [k'] left. *)
Inductive reach : tree -> list byte -> tree -> list byte -> Prop :=
| reach_here t k : reach t k t k
| reach_short q t k u k' : reach t k u k' -> reach (Short q t) (q ++ k) u k'
| reach_full ts b t k u k' : ts !! slot b = Some t -> reach t k u k' -> reach (Full ts) (b :: k) u k'.

Lemma reach_subtree t k u k' : reach t k u k' -> subtree t u.
Proof. induction 1; [constructor|by constructor|by econstructor]. Qed.
Lemma reach_tget t k u k' : reach t k u k' -> tget t k = tget u k'.
Proof. induction 1 as [| |ts b t k u k' Ht Hr IH]; [done|by rewrite tget_Short_app|]. by rewrite tget_Full, Ht. Qed.

Lemma reach_length t k u k' : reach t k u k' -> (length k' <= length k)%nat.
Proof. induction 1; rewrite ?length_app; cbn; lia. Qed.
Lemma reach_inner t k u k' : inner t -> terminated k -> reach t k u k' -> inner u -> k' <> [].
Proof.
  intros Hi Hk Hr Hu. enough (fits u k') as Hf.
  { destruct Hf as [[_ Ht]|[[->|(v & -> & _)] _]]; [by apply terminated_nonempty|by inversion Hu|by inversion Hu]. }
  assert (fits t k) as Hf by (left; split; [by right|done]). clear Hi Hk Hu.
  induction Hr as [t k|q t k u k' Hr IH|ts b t k u k' Ht Hr IH]; [done|..]; apply IH.
  - destruct Hf as [[[?|Hi] Hk]|[[?|(v & ? & _)] _]]; [done|by eapply fits_short|done|done].
  - destruct Hf as [[[?|Hi] Hk]|[[?|(v & ? & _)] _]]; [done| |done|done]. destruct (fits_child ts b k Hi Hk) as (c & Hc & ?). congruence.
Qed.

Section facts.
Context (cr : Crypto) (Hk : forall x, zlen (keccak256 cr x) = 32).

(** ** One node of a proof *)

Lemma get_Full cs f b k : get (fullNode cs f) (b :: k) = match cs !! slot b with Some c => get c k | None => Panic end.
Proof. cbn. fold (slot b). generalize (slot b). induction cs as [|c cs IH]; intros [|i]; done || apply IH. Qed.

(** Where a node leads: to nothing, to a value, or to the hash of a node further on. *)
Definition leads (u : tree) (key : list byte) (r : list byte * node) : Prop :=
  match snd r with
  | nilNode => tget u key = None
  | valueNode v => tget u key = Some v
  | hashNode h => exists w, h = root_bytes cr w /\ ref cr w = VBytes h /\ inner w /\ reach u key w (fst r) /\ terminated (fst r)
  | _ => False
  end.

Lemma leads_short q u k r : leads u k r -> leads (Short q u) (q ++ k) r.
Proof.
  unfold leads. rewrite tget_Short_app. destruct (snd r); try done. intros (w & ? & ? & ? & Hr & ?). exists w. split_and!; [done..|by constructor|done].
Qed.
Lemma leads_full ts b u k r : ts !! slot b = Some u -> leads u k r -> leads (Full ts) (b :: k) r.
Proof.
  intros Hu. unfold leads. rewrite tget_Full, Hu. destruct (snd r); try done. intros (w & ? & ? & ? & Hr & ?). exists w. split_and!; [done..|by econstructor|done].
Qed.

Lemma get_load h g u key : inner u -> terminated key ->
  (forall w k, (exists i ts, u = Full ts /\ ts !! i = Some w) \/ (exists q, u = Short q w) -> fits w k -> exists r, get (child_node cr g w) k = Ok r /\ leads w k r) ->
  exists r, get (load cr h g u) key = Ok r /\ leads u key r /\ (not_hash (snd r) \/ (length (fst r) < length key)%nat).
Proof.
  assert (forall w k r, leads w k r -> not_hash (snd r) \/ (length (fst r) <= length k)%nat) as Hle.
  { intros w k [k' n] Hl. destruct n; try (by left). right. destruct Hl as (x & _ & _ & _ & Hr & _). by apply reach_length in Hr. }
  intros Hi Hkt IH. assert (is_branch u) as Hb by (by apply inner_branch). destruct u as [| |q u|ts]; try done; cbn [load].
  - destruct (decide (take (length q) key = q)) as [Eq|Eq].
    + assert (key = q ++ drop (length q) key) as Ek by (rewrite <- Eq at 1; by rewrite take_drop).
      destruct (fits_short q u (drop (length q) key) Hi) as [Hf Hq]; [by rewrite <- Ek|].
      destruct (IH u (drop (length q) key)) as (r & Er & Hl); [right; by exists q|done|].
      assert (not_hash (snd r) \/ (length (fst r) < length key)%nat).
      { destruct (Hle u (drop (length q) key) r Hl) as [|Hlt]; [by left|right]. rewrite Ek, length_app. destruct q; [done|]. cbn in *. lia. }
      exists r. split; [|split; [rewrite Ek; by apply leads_short|done]]. cbn [get]. rewrite bool_decide_true by done. rewrite orb_false_r.
      rewrite (proj2 (Nat.ltb_ge _ _)); [done|]. apply (f_equal length) in Eq. rewrite length_take in Eq. lia.
    + exists ([], nilNode). split; [cbn [get]; by rewrite bool_decide_false, orb_true_r by congruence|].
      split; [|by left]. cbn. by rewrite bool_decide_false.
  - destruct key as [|b k]; [by apply terminated_nonempty in Hkt|]. destruct (fits_child ts b k Hi Hkt) as (c & Hc & Hf).
    destruct (IH c k) as (r & Er & Hl); [left; by exists (slot b), ts|done|].
    exists r. split; [|split; [by eapply leads_full|]; destruct (Hle c k r Hl); [by left|right; cbn; lia]]. rewrite get_Full, list_lookup_fmap, Hc. done.
Qed.

Lemma get_child g u key : fits u key -> exists r, get (child_node cr g u) key = Ok r /\ leads u key r.
Proof.
  revert key. induction u as [|v|q u IH|ts IH] using tree_rect'; intros key Hf.
  - eexists. split; [reflexivity|]. done.
  - destruct Hf as [[[?|Hi] _]|[_ ->]]; [done|inversion Hi|]. eexists. split; [reflexivity|]. done.
  - destruct Hf as [[[?|Hi] Hkt]|[[?|(v & ? & _)] _]]; [done| |done..].
    destruct (ref_cases cr (Short q u) I) as [(_ & _ & _ & ->)|(_ & Er & _ & ->)].
    + edestruct (get_load None g (Short q u) key) as (r & E & Hl & _); [done|done| |by exists r]. intros w k [(i & ts & ? & _)|(q' & [= -> ->])]; [done|apply IH].
    + eexists. split; [reflexivity|]. exists (Short q u). split_and!; try done. constructor.
  - destruct Hf as [[[?|Hi] Hkt]|[[?|(v & ? & _)] _]]; [done| |done..].
    destruct (ref_cases cr (Full ts) I) as [(_ & _ & _ & ->)|(_ & Er & _ & ->)].
    + edestruct (get_load None g (Full ts) key) as (r & E & Hl & _); [done|done| |by exists r]. intros w k [(i & ts' & [= <-] & Hw)|(q' & ?)]; [|done]. by eapply (Forall_lookup_1 _ _ _ _ IH Hw).
    + eexists. split; [reflexivity|]. exists (Full ts). split_and!; try done. constructor.
Qed.


(** ** Verifying *)

Lemma get_node h g u key : inner u -> terminated key ->
  exists r, get (load cr h g u) key = Ok r /\ leads u key r /\ (not_hash (snd r) \/ (length (fst r) < length key)%nat).
Proof. intros Hi Hkt. apply get_load; [done|done|]. intros w k _. apply get_child. Qed.

(** A proof in which every node is filed under its hash, and no other bytes have the
    hash of a node of the tree. *)
Record honest (proofDb : list byte -> option (list byte)) (tr : tree) : Prop := {
  ho_filed : forall h buf, proofDb h = Some buf -> keccak256 cr buf = h;
  ho_collision : forall u h buf, subtree tr u -> is_branch u -> proofDb h = Some buf ->
    keccak256 cr buf = keccak256 cr (enc_val (expanded cr u)) -> buf = enc_val (expanded cr u)
}.

Lemma honest_node proofDb tr u buf : honest proofDb tr -> subtree tr u -> inner u -> proofDb (root_bytes cr u) = Some buf -> buf = enc_val (expanded cr u).
Proof.
  intros [Hf Hc] Hs Hi Hb. eapply Hc; [done|by apply inner_branch|done|]. by apply Hf.
Qed.

Lemma copy_hash_full want cld : length want = length cld -> copy_hash want cld = cld.
Proof. intros E. unfold copy_hash. rewrite take_ge, drop_ge by lia. apply app_nil_r. Qed.
Lemma root_bytes_length u w : length (root_bytes cr u) = length (root_bytes cr w).
Proof. assert (forall x, length (keccak256 cr x) = 32%nat) as E by (intros x; pose proof (Hk x) as Hx; unfold zlen in Hx; lia). unfold root_bytes. by rewrite !E. Qed.

(** One round of the loop. *)
Lemma verify_step fuel proofDb tr u key i : honest proofDb tr -> inner tr -> bounded tr -> subtree tr u -> inner u -> terminated key ->
  proofDb (root_bytes cr u) <> None ->
  (exists n, VerifyProof_loop (S fuel) proofDb (root_bytes cr u) key i = Ok (tget u key, n, None)) \/
  (exists w k, reach u key w k /\ inner w /\ ref cr w = VBytes (root_bytes cr w) /\ terminated k /\ (length k < length key)%nat /\
    VerifyProof_loop (S fuel) proofDb (root_bytes cr u) key i = VerifyProof_loop fuel proofDb (root_bytes cr w) k (S i)).
Proof.
  intros Hho Hit Hbt Hs Hi Hkt Hin. cbn [VerifyProof_loop]. destruct (proofDb (root_bytes cr u)) as [buf|] eqn:Eb; [|done].
  rewrite (honest_node _ _ _ _ Hho Hs Hi Eb). rewrite decodeNode_ok by (done || by apply (subtree_bounded tr)). cbn [obind].
  destruct (get_node (Some (root_bytes cr u)) 0 u key Hi Hkt) as ([k n] & -> & Hl & Hlt). cbn [obind]. destruct n; try done; cbn in Hl, Hlt.
  - left. exists i. by rewrite Hl.
  - right. destruct Hl as (w & -> & Er & Hw & Hr & Hkt'). exists w, k. rewrite copy_hash_full by apply root_bytes_length.
    destruct Hlt as [?|?]; [done|]. by split_and!.
  - left. exists (S i). by rewrite Hl.
Qed.

Lemma verify_sound proofDb tr : honest proofDb tr -> inner tr -> bounded tr -> forall fuel u key i v n,
  subtree tr u -> inner u -> terminated key -> VerifyProof_loop fuel proofDb (root_bytes cr u) key i = Ok (v, n, None) -> v = tget u key.
Proof.
  intros Hho Hit Hbt. induction fuel as [|fuel IH]; intros u key i v n Hs Hi Hkt E; [done|].
  destruct (decide (proofDb (root_bytes cr u) = None)) as [En|En]; [cbn in E; by rewrite En in E|].
  destruct (verify_step fuel proofDb tr u key i Hho Hit Hbt Hs Hi Hkt En) as [(m & E')|(w & k & Hr & Hw & _ & Hkt' & _ & E')]; rewrite E' in E; [by injection E as <- _|].
  rewrite (reach_tget _ _ _ _ Hr). eapply IH; [|done|done|exact E]. eapply subtree_trans; [done|by eapply reach_subtree].
Qed.

(** A proof that has the nodes on the way. *)
Definition covers (proofDb : list byte -> option (list byte)) (u : tree) (key : list byte) : Prop :=
  forall w k, reach u key w k -> inner w -> ref cr w = VBytes (root_bytes cr w) -> proofDb (root_bytes cr w) <> None.

Lemma reach_trans t k u k' w k'' : reach t k u k' -> reach u k' w k'' -> reach t k w k''.
Proof. intros H1 H2. induction H1; [done|by constructor; auto|econstructor; eauto]. Qed.

Lemma verify_complete proofDb tr : honest proofDb tr -> inner tr -> bounded tr -> forall fuel u key i,
  subtree tr u -> inner u -> terminated key -> proofDb (root_bytes cr u) <> None -> covers proofDb u key -> (length key < fuel)%nat ->
  exists n, VerifyProof_loop fuel proofDb (root_bytes cr u) key i = Ok (tget u key, n, None).
Proof.
  intros Hho Hit Hbt. induction fuel as [|fuel IH]; intros u key i Hs Hi Hkt En Hc Hf; [lia|].
  destruct (verify_step fuel proofDb tr u key i Hho Hit Hbt Hs Hi Hkt En) as [?|(w & k & Hr & Hw & Er & Hkt' & Hlt & ->)]; [done|].
  rewrite (reach_tget _ _ _ _ Hr). apply IH; try done; [|by apply (Hc w k)| |lia].
  - eapply subtree_trans; [done|by eapply reach_subtree].
  - intros x k2 Hr2. apply (Hc x k2). by eapply reach_trans.
Qed.

End facts.

(** ** Proving *)

(** What the calls of [Put] leave: the last value under a key. *)
Fixpoint proof_db (puts : list (list byte * list byte)) (h : list byte) : option (list byte) :=
  match puts with
  | [] => None
  | (h', e) :: puts =>
      match proof_db puts h with
      | Some x => Some x
      | None => if decide (h' = h) then Some e else None
      end
  end.

Lemma proof_db_in puts h e : proof_db puts h = Some e -> (h, e) ∈ puts.
Proof.
  induction puts as [|[h' e'] puts IH]; [done|]. cbn. destruct (proof_db puts h) as [x|] eqn:E.
  - intros [= ->]. constructor. by apply IH.
  - case_decide; [|done]. intros [= ->]. subst. constructor.
Qed.
Lemma proof_db_has puts h e : (h, e) ∈ puts -> proof_db puts h <> None.
Proof.
  induction puts as [|[h' e'] puts IH]; [by intros ?%not_elem_of_nil|]. intros [[= -> ->]|Hin]%elem_of_cons; cbn.
  - destruct (proof_db puts h'); [done|]. by rewrite decide_True.
  - specialize (IH Hin). by destruct (proof_db puts h).
Qed.

Section prove.
Context {DB : Type} `{NodeDatabaseLaws DB} (cr : Crypto) (Hk : forall x, zlen (keccak256 cr x) = 32) (d : DB).
Local Abbreviation Trie := (Trie DB).

(** A node on the way, and its tree. *)
Definition on_way (tr : tree) (key : list byte) (n : node) (u : tree) : Prop :=
  (exists b, rep cr d b n u) /\ not_hash n /\ inner u /\ exists k, reach tr key u k.

Lemma on_way_short q t k n u : on_way t k n u -> on_way (Short q t) (q ++ k) n u.
Proof. intros (? & ? & ? & k' & Hr). split_and!; try done. exists k'. by constructor. Qed.
Lemma on_way_full ts b t k n u : ts !! slot b = Some t -> on_way t k n u -> on_way (Full ts) (b :: k) n u.
Proof. intros Ht (? & ? & ? & k' & Hr). split_and!; try done. exists k'. by econstructor. Qed.

(** The nodes on the way, none left out. *)
Record way (tr : tree) (key : list byte) (ns : list node) (us : list tree) : Prop := {
  way_nodes : Forall2 (on_way tr key) ns us;
  way_all : forall w k, reach tr key w k -> inner w -> w ∈ us;
  way_root : inner tr -> exists us', us = tr :: us'
}.

Lemma way_cons tr key n t k ns us : inner tr -> (exists b, rep cr d b n tr) -> not_hash n -> Forall2 (on_way tr key) ns us ->
  (forall w k', reach tr key w k' -> w = tr \/ reach t k w k') -> (forall w k', reach t k w k' -> inner w -> w ∈ us) ->
  way tr key (n :: ns) (tr :: us).
Proof.
  intros Hi Hn Hnh Hns Hinv Hall. split.
  - constructor; [|done]. split_and!; try done. exists key. constructor.
  - intros w k' Hr Hw. destruct (Hinv w k' Hr) as [->|Hr']; [constructor|]. constructor. by eapply Hall.
  - by exists us.
Qed.

Lemma path_nodes_ok (t : Trie) fuel : db t = d -> forall b n tr key acc, rep cr d b n tr -> fits tr key -> (2 * length key + hash_weight n <= fuel)%nat ->
  exists ns us, path_nodes fuel t n key acc = Ok (Good (acc ++ ns)) /\ way tr key ns us.
Proof.
  intros Ed. induction fuel as [|fuel IH]; intros b n tr key acc Hr Hf Hfuel; [destruct n; cbn in Hfuel; lia|].
  destruct key as [|k0 krest].
  { exists [], []. split; [cbn; by rewrite app_nil_r|]. destruct Hf as [[_ Hkt]|[Htr _]]; [by apply terminated_nonempty in Hkt|].
    split; [constructor| |intros Hi; destruct Htr as [->|(v & -> & _)]; inversion Hi].
    intros w k Hrw Hw. exfalso. destruct Htr as [->|(v & -> & _)]; inversion Hrw; subst; inversion Hw. }
  destruct Hf as [[Hcan Hkt]|[_ ?]]; [|done].
  destruct Hr as [b|b w|b q n f tr Hn Hfl|b cs f ts Hl Hch Hfl|b h tr Hh Hheld].
  - exists [], []. split; [cbn; by rewrite app_nil_r|]. split; [constructor| |by intros Hi; inversion Hi]. intros w k Hrw Hw. inversion Hrw; subst. inversion Hw.
  - destruct Hcan as [?|Hi]; [done|inversion Hi].
  - destruct Hcan as [?|Hi]; [done|]. assert (exists b, rep cr d b (shortNode q n f) (Short q tr)) as Hrep by (exists b; by constructor). cbn [path_nodes].
    destruct (decide (take (length q) (k0 :: krest) = q)) as [Eq|Eq].
    + assert (k0 :: krest = q ++ drop (length q) (k0 :: krest)) as Ek by (etrans; [symmetry; apply (take_drop (length q))|by rewrite Eq]).
      set (rest := drop (length q) (k0 :: krest)) in *. rewrite Ek in Hkt. destruct (fits_short q tr rest Hi Hkt) as [Hf Hqne].
      destruct (IH false n tr rest (acc ++ [shortNode q n f]) Hn Hf) as (ns & us & E & [Hns Hall _]).
      { pose proof (hash_weight_le n). cbn [hash_weight] in Hfuel. rewrite Ek, length_app in Hfuel. destruct q; [done|]. cbn in *. lia. }
      exists (shortNode q n f :: ns), (Short q tr :: us). split.
      * rewrite bool_decide_true by done. rewrite orb_false_r, (proj2 (Nat.ltb_ge _ _)); [rewrite E, <- app_assoc; done|].
        rewrite Ek, length_app. lia.
      * apply (way_cons _ _ _ tr rest); try done; [|].
        -- rewrite Ek. eapply Forall2_impl; [exact Hns|]. intros. by apply on_way_short.
        -- intros w k' Hrw. rewrite Ek in Hrw. inversion Hrw as [|q' t' k u k'' Hr' E1 E2|]; subst; [by left|right]. apply app_inv_head in E2. by rewrite <- E2.
    + exists [shortNode q n f], [Short q tr]. split.
      * rewrite bool_decide_false by congruence. rewrite orb_true_r. by destruct fuel.
      * apply (way_cons _ _ _ Leafless []); try done.
        -- intros x kx Hrw. inversion Hrw as [|q' t' k u k'' Hr' E1 E2|]; subst; [by left|]. exfalso. apply Eq. rewrite <- E2. apply take_app_length.
        -- intros w k' Hrw Hw. inversion Hrw; subst. inversion Hw.
  - destruct Hcan as [?|Hi]; [done|]. destruct (fits_child ts k0 krest Hi Hkt) as (c' & Ec' & Hfit).
    destruct (cs !! slot k0) as [c|] eqn:Ec; [|apply lookup_ge_None in Ec; apply lookup_lt_Some in Ec'; lia].
    destruct (IH false c c' krest (acc ++ [fullNode cs f]) (Hch _ _ _ Ec Ec') Hfit) as (ns & us & E & [Hns Hall _]).
    { pose proof (hash_weight_le c). cbn in Hfuel. lia. }
    exists (fullNode cs f :: ns), (Full ts :: us). split; [cbn [path_nodes]; fold (slot k0); rewrite Ec, E, <- app_assoc; done|].
    apply (way_cons _ _ _ c' krest); try done.
    + exists b. by constructor.
    + eapply Forall2_impl; [exact Hns|]. intros. by eapply on_way_full.
    + intros w k' Hrw. inversion Hrw as [| |ts' b' t' k u k'' Ht' Hr' E1 E2]; subst; [by left|right]. congruence.
  - destruct (resolveHash_ok cr Hk d t h [] b tr Ed (fits_inner cr tr (k0 :: krest) _ _ Hh (or_introl (conj Hcan Hkt))) Hh Hheld) as (nf & Enf & Hnh & Hnf).
    destruct (IH b nf tr (k0 :: krest) acc Hnf) as (ns & us & E & Hway); [by left| |].
    { rewrite (hash_weight_not_hash _ Hnh). cbn in *. lia. }
    exists ns, us. split; [|done]. cbn [path_nodes]. rewrite Enf. cbn [obind]. done.
Qed.

(** The node is referred to by its hash exactly if the hasher gives one. *)
Lemma refers_hash u hn : is_branch u -> refers cr hn u -> match hn with hashNode h => ref cr u = VBytes h | _ => ref cr u = expanded cr u end.
Proof.
  intros Hb (E & Ev & _). destruct (ref_cases cr u Hb) as [(_ & Er & Err & _)|(_ & Er & Err & _)]; rewrite Err in E.
  - destruct hn; try done.
  - destruct hn as [|cs f|k n f|h|v]; cbn in E; try done; [by destruct (omap _ cs)|by destruct (simplifyNode n)].
Qed.

Definition entry (u : tree) : list byte * list byte := (root_bytes cr u, enc_val (expanded cr u)).

Lemma put_nodes_ok ns us i : Forall2 (fun n u => (exists b, rep cr d b n u) /\ not_hash n /\ inner u /\ bounded u) ns us ->
  exists puts, put_nodes (DB := DB) cr ns i 0 = Ok puts /\ (forall p, p ∈ puts -> exists u, u ∈ us /\ p = entry u) /\
    (forall j u, us !! j = Some u -> (i + j = 0)%nat \/ ref cr u = VBytes (root_bytes cr u) -> entry u ∈ puts).
Proof.
  intros Hns. revert i. induction Hns as [|n u ns us ((b & Hr) & Hnh & Hi & Hb) _ IH]; intros i.
  { exists []. split; [done|]. split; [by intros p ?%not_elem_of_nil|]. by intros j u. }
  destruct (IH (S i)) as (puts & E & Hin & Hall). cbn [put_nodes]. pose proof (inner_branch u Hi) as Hbr.
  destruct (hashChildren_ok cr Hk 0 0 None false Leafless d b n u Hr Hnh Hi Hb) as (col & cached & d1 & E1 & Hcol & Hcache); [done|done|].
  destruct (store_ok cr Hk None false false d1 Leafless u col Hi Hb Hcol Hcache) as (hn & d2 & E2 & [Hh _ _ _ _]); [done|].
  cbn [with_db] in E1, E2. rewrite E1. cbn [obind]. rewrite E2. cbn [obind].
  rewrite (encode_node cr Hk col u Hi Hb Hcol). pose proof (refers_hash u hn Hbr Hh) as Hhn.
  assert (forall h, h = root_bytes cr u -> exists puts', (let! puts := put_nodes (DB := DB) cr ns (S i) 0 in Ok ((h, enc_val (expanded cr u)) :: puts)) = Ok puts' /\
    (forall p, p ∈ puts' -> exists w, w ∈ u :: us /\ p = entry w) /\
    (forall j w, (u :: us) !! j = Some w -> (i + j = 0)%nat \/ ref cr w = VBytes (root_bytes cr w) -> entry w ∈ puts')) as Hput.
  { intros h ->. rewrite E. cbn [obind]. eexists. split; [reflexivity|]. split.
    - intros p [->|Hp]%elem_of_cons; [exists u; split; [constructor|done]|]. destruct (Hin p Hp) as (w & Hw & ->). exists w. split; [by constructor|done].
    - intros [|j] w Hj Hor; cbn in Hj; [injection Hj as <-; constructor|]. constructor. apply (Hall j); [done|]. destruct Hor; [lia|by right]. }
  destruct hn as [|cs f|k n' f|h|v]; try (by destruct Hh as (? & ? & ?)).
  3: { apply (ref_hash cr u h Hbr) in Hhn as ->. by apply Hput. }
  all: destruct (Nat.eqb_spec i 0) as [->|Hi0]; [by apply Hput|]; exists puts; split; [done|]; split;
    [intros p Hp; destruct (Hin p Hp) as (w & Hw & ->); exists w; split; [by constructor|done]|];
    intros [|j] w Hj Hor; cbn in Hj; [injection Hj as <-; destruct Hor as [?|Hor]; [lia|]; rewrite Hor in Hhn; by destruct u|];
    apply (Hall j); [done|]; destruct Hor; [lia|by right].
Qed.

Lemma entries_honest tr puts (us : list tree) : (forall p, p ∈ puts -> exists u, u ∈ us /\ p = entry u) -> (forall u, u ∈ us -> subtree tr u /\ inner u) ->
  distinct_hashes cr tr -> honest cr (proof_db puts) tr.
Proof.
  intros Hin Hus Hdh. split.
  - intros h buf Hg%proof_db_in. by destruct (Hin _ Hg) as (u & _ & [= -> ->]).
  - intros w h buf Hs Hb Hg%proof_db_in E. destruct (Hin _ Hg) as (u & Hu & [= -> ->]). destruct (Hus u Hu) as [Hsu Hiu].
    rewrite (dh_inj _ _ Hdh u w Hsu Hs (inner_branch u Hiu) Hb E). done.
Qed.

Lemma Prove_ok (t : Trie) tr key : db t = d -> rep cr d true (root t) tr -> inner tr -> bounded tr -> distinct_hashes cr tr ->
  exists puts, Prove cr t key 0 = Ok (None, puts) /\ honest cr (proof_db puts) tr /\
    proof_db puts (root_bytes cr tr) <> None /\ covers cr (proof_db puts) tr (keybytesToHex key).
Proof.
  intros Ed Hr Hi Hb Hdh. unfold Prove. pose proof (keybytesToHex_terminated key) as Hkt.
  destruct (path_nodes_ok t (key_fuel (keybytesToHex key)) Ed true (root t) tr (keybytesToHex key) [] Hr) as (ns & us & -> & [Hns Hall Hroot]);
    [left; split; [by right|done]|apply key_fuel_enough|].
  destruct (Hroot Hi) as (us' & Eus). cbn [obind app].
  assert (forall u, u ∈ us -> subtree tr u /\ inner u) as Hus.
  { intros u (j & Hj)%list_elem_of_lookup. destruct (Forall2_lookup_r _ _ _ _ _ Hns Hj) as (n & _ & (_ & _ & Hiu & k & Hru)). split; [by eapply reach_subtree|done]. }
  destruct (put_nodes_ok ns us 0) as (puts & -> & Hin & Hputs).
  { eapply Forall2_impl; [exact Hns|]. intros n u (Hrep & Hnh & Hiu & k & Hru). split_and!; try done.
    eapply (subtree_bounded tr); try done. by eapply reach_subtree. }
  cbn [obind]. exists puts. split; [done|]. split; [by eapply entries_honest|]. split.
  - eapply (proof_db_has _ _ (enc_val (expanded cr tr))). apply (Hputs 0%nat); [by rewrite Eus|by left].
  - intros w k Hrw Hw Er. destruct (proj1 (list_elem_of_lookup us w) (Hall w k Hrw Hw)) as (j & Hj).
    eapply (proof_db_has _ _ (enc_val (expanded cr w))). apply (Hputs j); [done|by right].
Qed.
End prove.
