(* ===== verification/CanDb.v ===== *)
(** * Key-value databases ([candb/interface.go], [candb/memory_database.go])

    The interface that the node database writes to, and the in-memory database that
    implements it. *)
From S2P Require Import Prelude.
From stdpp Require Import base numbers list gmap.
From Stdlib Require Import ZArith Lia.
#[local] Open Scope Z_scope.

#[export] Instance byte_countable : Countable byte := inj_countable' b2z z2b z2b_b2z.

Definition IdealBatchSize : Z := 100 * 1024.

(** ** Batches *)

Record kv := mkKv { bk : list byte; bv : list byte; bdel : bool }.
(** The memory and the LevelDB batch count the size in the same way. *)
Record Batch := mkBatch { writes : list kv; bsize : Z }.
Definition NewBatch : Batch := mkBatch [] 0.
Definition batch_Put (b : Batch) (key value : list byte) : Batch :=
  mkBatch (writes b ++ [mkKv key value false]) (bsize b + zlen value).
Definition batch_Delete (b : Batch) (key : list byte) : Batch :=
  mkBatch (writes b ++ [mkKv key [] true]) (bsize b + 1).
Definition ValueSize (b : Batch) : Z := bsize b.
Definition batch_Reset (b : Batch) : Batch := mkBatch [] 0.

(** ** The interface *)

(** [db_Get] gives nothing when the key is missing or the read fails; a failed
    [db_Write] gives an error.  The other operations of the interface are not used
    by the node database. *)
Class KeyValue (D : Type) := {
  kv_error : Type;
  db_Get : D -> list byte -> option (list byte);
  db_Write : D -> Batch -> option kv_error * D
}.

(** What the batches of a working database do. *)
Fixpoint written (ws : list kv) (g : list byte -> option (list byte)) (key : list byte) : option (list byte) :=
  match ws with
  | [] => g key
  | w :: ws => written ws (fun x => if decide (x = bk w) then (if bdel w then None else Some (bv w)) else g x) key
  end.
Class KeyValueLaws (D : Type) `{KeyValue D} : Prop := {
  write_ok : forall d b, exists d', db_Write d b = (None, d') /\ forall key, db_Get d' key = written (writes b) (db_Get d) key
}.

(** ** The in-memory database *)

Definition MemDatabase : Type := gmap (list byte) (list byte).
Definition NewMemDatabase : MemDatabase := ∅.
Definition mem_Put (db : MemDatabase) (key value : list byte) : MemDatabase := <[key := value]> db.
Definition mem_Has (db : MemDatabase) (key : list byte) : bool := bool_decide (is_Some (db !! key)).
Definition mem_Get (db : MemDatabase) (key : list byte) : option (list byte) := db !! key.
Definition mem_Delete (db : MemDatabase) (key : list byte) : MemDatabase := delete key db.
Definition mem_Len (db : MemDatabase) : nat := size db.
Fixpoint memBatch_Write (db : MemDatabase) (ws : list kv) : MemDatabase :=
  match ws with
  | [] => db
  | w :: ws => memBatch_Write (if bdel w then mem_Delete db (bk w) else mem_Put db (bk w) (bv w)) ws
  end.

#[export] Instance mem_kv : KeyValue MemDatabase := {|
  kv_error := Empty_set;
  db_Get := mem_Get;
  db_Write := fun db b => (None, memBatch_Write db (writes b))
|}.

Lemma written_ext ws g g' key : (forall x, g x = g' x) -> written ws g key = written ws g' key.
Proof.
  revert g g'. induction ws as [|w ws IH]; intros g g' Hg; [apply Hg|]. cbn. apply IH. intros x. by rewrite Hg.
Qed.

#[export] Instance mem_kv_laws : KeyValueLaws MemDatabase.
Proof.
  split. intros d b. eexists. split; [reflexivity|]. intros key. cbn. revert d. induction (writes b) as [|w ws IH]; intros d; [done|].
  cbn [memBatch_Write written]. rewrite IH. apply written_ext. intros x. unfold MemDatabase, mem_Get, mem_Delete, mem_Put in *.
  destruct (bdel w), (decide (x = bk w)) as [->|Hne].
  - apply lookup_delete_eq.
  - by apply lookup_delete_ne.
  - apply lookup_insert_eq.
  - by apply lookup_insert_ne.
Qed.
