(* ===== verification/TrieDatabase.v ===== *)
(** * The node database ([lib/trie/database.go])

    The nodes that are not on disk yet, with their reference counts and the list in
    which they are flushed.  [NewDatabase] is modelled, which has no cache of clean
    nodes in front of the disk.  Sizes are whole numbers of bytes ([float64] in the
    code, exact below 2^53); times, metrics, logs and locks are left out. *)
From S2P Require Import Prelude CommonMath RlpEncode RlpDecode VmBase TrieEncoding TrieNode CanDb.
From stdpp Require Import base numbers list gmap.
From Stdlib Require Import ZArith Lia.
#[local] Open Scope Z_scope.

Import Node.

Module TrieDb.

(** A missing map of children is an empty one. *)
Record cachedNode := mkCached {
  cnode : rawnode;
  csize : Z;
  parents : Z;
  children : gmap Hash Z;
  flushPrev : Hash;
  flushNext : Hash
}.
Definition with_parents (n : cachedNode) (p : Z) : cachedNode := mkCached (cnode n) (csize n) p (children n) (flushPrev n) (flushNext n).
Definition with_children (n : cachedNode) (cs : gmap Hash Z) : cachedNode := mkCached (cnode n) (csize n) (parents n) cs (flushPrev n) (flushNext n).
Definition with_flushPrev (n : cachedNode) (h : Hash) : cachedNode := mkCached (cnode n) (csize n) (parents n) (children n) h (flushNext n).
Definition with_flushNext (n : cachedNode) (h : Hash) : cachedNode := mkCached (cnode n) (csize n) (parents n) (children n) (flushPrev n) h.

Definition cached_rlp (n : cachedNode) : outcome (list byte) :=
  match cnode n with
  | rawNode blob => Ok blob
  | r => match EncodeToBytes (raw_val r) with Good blob => Ok blob | Err _ => Panic end
  end.

Definition cached_obj (n : cachedNode) (hash : Hash) (cachegen : Z) : outcome node :=
  match cnode n with
  | rawNode blob => mustDecodeNode (Some (Hash_Bytes hash)) blob cachegen
  | r => expandNode (Some (Hash_Bytes hash)) r cachegen
  end.

(** The children that were referenced from outside come in the order of the map. *)
Definition childs (n : cachedNode) : outcome (list Hash) :=
  let refs := (map_to_list (children n)).*1 in
  match cnode n with
  | rawNode _ => Ok refs
  | r => let! hs := gatherChildren r in Ok (refs ++ hs)
  end.

Definition secureKeyPrefix : list byte := map z2b [115; 101; 99; 117; 114; 101; 45; 107; 101; 121; 45].
Definition secureKey (key : list byte) : list byte := secureKeyPrefix ++ key.

Section database.
Context {D : Type} `{KeyValue D}.

Record Database := mkDb {
  diskdb : D;
  dirties : gmap Hash cachedNode;
  oldest : Hash;
  newest : Hash;
  preimages : gmap Hash (list byte);
  gcnodes : Z;
  gcsize : Z;
  flushnodes : Z;
  flushsize : Z;
  dirtiesSize : Z;
  preimagesSize : Z
}.
Definition set_diskdb (db : Database) x := mkDb x (dirties db) (oldest db) (newest db) (preimages db) (gcnodes db) (gcsize db) (flushnodes db) (flushsize db) (dirtiesSize db) (preimagesSize db).
Definition set_dirties (db : Database) x := mkDb (diskdb db) x (oldest db) (newest db) (preimages db) (gcnodes db) (gcsize db) (flushnodes db) (flushsize db) (dirtiesSize db) (preimagesSize db).
Definition set_oldest (db : Database) x := mkDb (diskdb db) (dirties db) x (newest db) (preimages db) (gcnodes db) (gcsize db) (flushnodes db) (flushsize db) (dirtiesSize db) (preimagesSize db).
Definition set_newest (db : Database) x := mkDb (diskdb db) (dirties db) (oldest db) x (preimages db) (gcnodes db) (gcsize db) (flushnodes db) (flushsize db) (dirtiesSize db) (preimagesSize db).
Definition set_preimages (db : Database) x y := mkDb (diskdb db) (dirties db) (oldest db) (newest db) x (gcnodes db) (gcsize db) (flushnodes db) (flushsize db) (dirtiesSize db) y.
Definition set_gc (db : Database) x y := mkDb (diskdb db) (dirties db) (oldest db) (newest db) (preimages db) x y (flushnodes db) (flushsize db) (dirtiesSize db) (preimagesSize db).
Definition set_flush (db : Database) x y := mkDb (diskdb db) (dirties db) (oldest db) (newest db) (preimages db) (gcnodes db) (gcsize db) x y (dirtiesSize db) (preimagesSize db).
Definition set_dirtiesSize (db : Database) x := mkDb (diskdb db) (dirties db) (oldest db) (newest db) (preimages db) (gcnodes db) (gcsize db) (flushnodes db) (flushsize db) x (preimagesSize db).

(** The entry under the zero hash holds the references to the roots. *)
Definition metaroot : cachedNode := mkCached rawNil 0 0 ∅ 0 0.
Definition NewDatabase (disk : D) : Database := mkDb disk {[0 := metaroot]} 0 0 ∅ 0 0 0 0 0 0.

(** Writing through [db.dirties[h]]: a missing entry is a nil pointer. *)
Definition modify (db : Database) (h : Hash) (f : cachedNode -> cachedNode) : outcome Database :=
  match dirties db !! h with
  | Some n => Ok (set_dirties db (<[h := f n]> (dirties db)))
  | None => Panic
  end.

(** ** Inserting and reading *)

(** One more parent for every child that is in the cache. *)
Fixpoint add_parents (cs : list Hash) (ds : gmap Hash cachedNode) : gmap Hash cachedNode :=
  match cs with
  | [] => ds
  | c :: cs =>
      add_parents cs match ds !! c with
                     | Some n => <[c := with_parents n ((parents n + 1) mod 2 ^ 32)]> ds
                     | None => ds
                     end
  end.

Definition insert_raw (db : Database) (hash : Hash) (blob : list byte) (r : rawnode) : outcome Database :=
  match dirties db !! hash with
  | Some _ => Ok db
  | None =>
      let entry := mkCached r (zlen blob mod 2 ^ 16) 0 ∅ (newest db) 0 in
      let! cs := childs entry in
      let db := set_dirties db (<[hash := entry]> (add_parents cs (dirties db))) in
      let! db :=
        (if oldest db =? 0 then Ok (set_newest (set_oldest db hash) hash)
         else
           let! db := modify db (newest db) (fun n => with_flushNext n hash) in
           Ok (set_newest db hash)) in
      (* a sum of [uint16] *)
      Ok (set_dirtiesSize db (dirtiesSize db + (Z.of_nat HashLength + csize entry) mod 2 ^ 16))
  end.
Definition insert (db : Database) (hash : Hash) (blob : list byte) (n : node) : outcome Database :=
  match dirties db !! hash with
  | Some _ => Ok db
  | None => let! r := simplifyNode n in insert_raw db hash blob r
  end.
Definition InsertBlob (db : Database) (hash : Hash) (blob : list byte) : outcome Database :=
  insert_raw db hash blob (rawNode blob).

Definition insertPreimage (db : Database) (hash : Hash) (preimage : list byte) : Database :=
  match preimages db !! hash with
  | Some _ => db
  | None => set_preimages db (<[hash := preimage]> (preimages db)) (preimagesSize db + (Z.of_nat HashLength + zlen preimage))
  end.

Definition node_ (db : Database) (hash : Hash) (cachegen : Z) : outcome (option node) :=
  match dirties db !! hash with
  | Some dirty => let! n := cached_obj dirty hash cachegen in Ok (Some n)
  | None =>
      match db_Get (diskdb db) (Hash_Bytes hash) with
      | None => Ok None
      | Some enc => let! n := mustDecodeNode (Some (Hash_Bytes hash)) enc cachegen in Ok (Some n)
      end
  end.

Definition Node_ (db : Database) (hash : Hash) : outcome (option (list byte)) :=
  match dirties db !! hash with
  | Some dirty => let! blob := cached_rlp dirty in Ok (Some blob)
  | None => Ok (db_Get (diskdb db) (Hash_Bytes hash))
  end.

Definition preimage (db : Database) (hash : Hash) : option (list byte) :=
  match preimages db !! hash with
  | Some p => Some p
  | None => db_Get (diskdb db) (secureKey (Hash_Bytes hash))
  end.

Definition Nodes (db : Database) : list Hash := filter (fun h => h <> 0) (map_to_list (dirties db)).*1.

(** ** References *)

Definition reference (db : Database) (child parent : Hash) : outcome Database :=
  match dirties db !! child with
  | None => Ok db
  | Some _ =>
      match dirties db !! parent with
      | None => Panic
      | Some p =>
          if bool_decide (is_Some (children p !! child)) && negb (parent =? 0) then Ok db
          else
            let! db := modify db child (fun n => with_parents n ((parents n + 1) mod 2 ^ 32)) in
            modify db parent (fun n => with_children n (<[child := (default 0 (children n !! child) + 1) mod 2 ^ 16]> (children n)))
      end
  end.

(** Out of the flush list. *)
Definition unlink (db : Database) (hash : Hash) (n : cachedNode) : outcome Database :=
  if hash =? oldest db then
    let db := set_oldest db (flushNext n) in
    modify db (flushNext n) (fun x => with_flushPrev x 0)
  else if hash =? newest db then
    let db := set_newest db (flushPrev n) in
    modify db (flushPrev n) (fun x => with_flushNext x 0)
  else
    let! db := modify db (flushPrev n) (fun x => with_flushNext x (flushNext n)) in
    modify db (flushNext n) (fun x => with_flushPrev x (flushPrev n)).

Definition drop_entry (db : Database) (hash : Hash) (n : cachedNode) : Database :=
  set_dirtiesSize (set_dirties db (delete hash (dirties db))) (dirtiesSize db - (Z.of_nat HashLength + csize n)).

Fixpoint each (f : Database -> Hash -> outcome Database) (hs : list Hash) (db : Database) : outcome Database :=
  match hs with
  | [] => Ok db
  | h :: hs => let! db := f db h in each f hs db
  end.

(** One reference less from [parent]. *)
Definition release (db : Database) (child parent : Hash) : outcome Database :=
  match dirties db !! parent with
  | None => Panic
  | Some p =>
      let refs := default 0 (children p !! child) in
      if 0 <? refs
      then modify db parent (fun p => with_children p (if refs - 1 =? 0 then delete child (children p) else <[child := refs - 1]> (children p)))
      else Ok db
  end.

(** A node has no more nodes above it than there are in the cache. *)
Fixpoint dereference_fuel (fuel : nat) (db : Database) (child parent : Hash) : outcome Database :=
  match fuel with
  | O => OutOfFuel
  | S fuel =>
      let! db := release db child parent in
      match dirties db !! child with
      | None => Ok db
      | Some n =>
          let n := if 0 <? parents n then with_parents n (parents n - 1) else n in
          let db := set_dirties db (<[child := n]> (dirties db)) in
          if parents n =? 0 then
            let! db := unlink db child n in
            let! cs := childs n in
            let! db := each (fun db h => dereference_fuel fuel db h child) cs db in
            Ok (drop_entry db child n)
          else Ok db
      end
  end.
Definition dereference (db : Database) (child parent : Hash) : outcome Database :=
  dereference_fuel (S (size (dirties db))) db child parent.

Definition Dereference (db : Database) (root : Hash) : outcome Database :=
  if root =? 0 then Ok db
  else
    let nodes := Z.of_nat (size (dirties db)) in
    let storage := dirtiesSize db in
    let! db := dereference db root 0 in
    Ok (set_gc db (u64 (gcnodes db + u64 (nodes - Z.of_nat (size (dirties db))))) (gcsize db + (storage - dirtiesSize db))).

(** ** Writing to disk *)

(** The error, if any, the database (whose disk keeps what was written), the batch. *)
Definition written_ : Type := option kv_error * Database * Batch.

(** A batch that has grown large is written and started anew. *)
Definition write_if (large : bool) (db : Database) (b : Batch) : written_ :=
  if large then
    let (err, disk) := db_Write (diskdb db) b in
    (err, set_diskdb db disk, match err with Some _ => b | None => batch_Reset b end)
  else (None, db, b).

Fixpoint put_preimages (ps : list (Hash * list byte)) (db : Database) (b : Batch) : written_ :=
  match ps with
  | [] => (None, db, b)
  | (hash, preimage) :: ps =>
      let b := batch_Put b (secureKey (Hash_Bytes hash)) preimage in
      match write_if (IdealBatchSize <? ValueSize b) db b with
      | (Some e, db, b) => (Some e, db, b)
      | (None, db, b) => put_preimages ps db b
      end
  end.

Fixpoint each_r (f : Hash -> Database -> Batch -> outcome written_) (hs : list Hash) (db : Database) (b : Batch) : outcome written_ :=
  match hs with
  | [] => Ok (None, db, b)
  | h :: hs =>
      let! (err, db, b) := f h db b in
      match err with
      | Some e => Ok (Some e, db, b)
      | None => each_r f hs db b
      end
  end.

Fixpoint commit_fuel (fuel : nat) (hash : Hash) (db : Database) (b : Batch) : outcome written_ :=
  match fuel with
  | O => OutOfFuel
  | S fuel =>
      match dirties db !! hash with
      | None => Ok (None, db, b)
      | Some n =>
          let! cs := childs n in
          let! (err, db, b) := each_r (commit_fuel fuel) cs db b in
          match err with
          | Some e => Ok (Some e, db, b)
          | None =>
              let! blob := cached_rlp n in
              let b := batch_Put b (Hash_Bytes hash) blob in
              Ok (write_if (IdealBatchSize <=? ValueSize b) db b)
          end
      end
  end.

Fixpoint uncache_fuel (fuel : nat) (db : Database) (hash : Hash) : outcome Database :=
  match fuel with
  | O => OutOfFuel
  | S fuel =>
      match dirties db !! hash with
      | None => Ok db
      | Some n =>
          let! db := unlink db hash n in
          let! cs := childs n in
          let! db := each (uncache_fuel fuel) cs db in
          Ok (drop_entry db hash n)
      end
  end.

Definition Commit (db : Database) (node : Hash) : outcome (option kv_error * Database) :=
  let '(err, db, b) := put_preimages (map_to_list (preimages db)) db NewBatch in
  match err with
  | Some e => Ok (Some e, db)
  | None =>
      let fuel := S (size (dirties db)) in
      let! (err, db, b) := commit_fuel fuel node db b in
      match err with
      | Some e => Ok (Some e, db)
      | None =>
          match write_if true db b with
          | (Some e, db, _) => Ok (Some e, db)
          | (None, db, _) =>
              let db := set_preimages db ∅ 0 in
              let! db := uncache_fuel fuel db node in
              Ok (None, set_flush (set_gc db 0 0) 0 0)
          end
      end
  end.

(** ** Making room *)

(** The oldest node that is not written. *)
Fixpoint cap_write (fuel : nat) (size_ limit : Z) (old : Hash) (db : Database) (b : Batch) : outcome (written_ * Hash) :=
  match fuel with
  | O => OutOfFuel
  | S fuel =>
      if (limit <? size_) && negb (old =? 0) then
        match dirties db !! old with
        | None => Panic
        | Some n =>
            let! blob := cached_rlp n in
            let b := batch_Put b (Hash_Bytes old) blob in
            match write_if (IdealBatchSize <=? ValueSize b) db b with
            | (Some e, db, b) => Ok (Some e, db, b, old)
            | (None, db, b) => cap_write fuel (size_ - (3 * Z.of_nat HashLength + csize n)) limit (flushNext n) db b
            end
        end
      else Ok (None, db, b, old)
  end.

Fixpoint cap_drop (fuel : nat) (old : Hash) (db : Database) : outcome Database :=
  match fuel with
  | O => OutOfFuel
  | S fuel =>
      if oldest db =? old then Ok db
      else
        match dirties db !! oldest db with
        | None => Panic
        | Some n => cap_drop fuel old (set_oldest (drop_entry db (oldest db) n) (flushNext n))
        end
  end.

Definition Cap (db : Database) (limit : Z) : outcome (option kv_error * Database) :=
  let nodes := Z.of_nat (size (dirties db)) in
  let storage := dirtiesSize db in
  let fuel := S (size (dirties db)) in
  let size_ := dirtiesSize db + (nodes - 1) * 2 * Z.of_nat HashLength in
  let flushPreimages := 4 * 1024 * 1024 <? preimagesSize db in
  let '(err, db, b) := if flushPreimages then put_preimages (map_to_list (preimages db)) db NewBatch else (None, db, NewBatch) in
  match err with
  | Some e => Ok (Some e, db)
  | None =>
      let! (err, db, b, old) := cap_write fuel size_ limit (oldest db) db b in
      match err with
      | Some e => Ok (Some e, db)
      | None =>
          match write_if true db b with
          | (Some e, db, _) => Ok (Some e, db)
          | (None, db, _) =>
              let db := if flushPreimages then set_preimages db ∅ 0 else db in
              let! db := cap_drop fuel old db in
              let! db := (if negb (oldest db =? 0) then modify db (oldest db) (fun n => with_flushPrev n 0) else Ok db) in
              Ok (None, set_flush db (u64 (flushnodes db + u64 (nodes - Z.of_nat (size (dirties db))))) (flushsize db + (storage - dirtiesSize db)))
          end
      end
  end.

Definition Size (db : Database) : Z * Z :=
  let flushlistSize := (Z.of_nat (size (dirties db)) - 1) * 2 * Z.of_nat HashLength in
  (dirtiesSize db + flushlistSize, preimagesSize db).

End database.
Arguments Database D : clear implicits.
End TrieDb.
