(* ===== verification/TrieDbCommit.v ===== *)
(** * Writing the node database to disk

    [Commit] puts everything below a root on disk and takes it out of the cache,
    leaving the flush list in order. *)
From S2P Require Import Prelude CommonMath RlpEncode RlpDecode RlpFacts Opcodes VmBase VmInterface.
From S2P Require Import TrieEncoding TrieTree TrieNode TrieModel TrieRep TrieFacts TrieHash TrieDecode TrieCommit CanDb TrieDatabase TrieDbFacts.
From stdpp Require Import base numbers list gmap.
From Stdlib Require Import ZArith Lia.
#[local] Open Scope Z_scope.

Import Node TrieDb.

Section unlink.
Context {D : Type} `{KeyValue D}.

Lemma modify_ok (db : Database D) (h : Hash) f n : dirties db !! h = Some n -> modify db h f = Ok (set_dirties db (<[h := f n]> (dirties db))).
Proof. intros E. unfold modify. by rewrite E. Qed.

(** Dropping a node from the flush list. *)
Lemma unlink_ok (db : Database D) l1 (h : Hash) l2 stk n : linked db (l1 ++ h :: l2) stk -> dirties db !! h = Some n ->
  exists db', unlink db h n = Ok db' /\ linked db' (l1 ++ l2) (h :: stk) /\ diskdb db' = diskdb db /\ same_entries (dirties db) (dirties db').
Proof.
  intros Hl Hn. pose proof (ln_nodup _ _ _ Hl) as Hnd. pose proof (ln_seg _ _ _ Hl) as Hseg. apply seg_app in Hseg as [Hs1 (m & Hm & Hp & Hnx & Hs2)].
  assert (m = n) as -> by congruence. clear Hm. cbn [hd] in Hs1. rewrite <- app_assoc in Hnd. apply NoDup_app in Hnd as (Hnd1 & Hd1 & Hnd2). cbn [app] in Hnd2.
  apply NoDup_cons in Hnd2 as [Hh2 Hnd2]. apply NoDup_app in Hnd2 as (Hnd2 & Hd2 & _).
  assert (h ∉ l1) as Hh1 by (intros Hin; apply (Hd1 h Hin); cbn; constructor).
  assert (h ∉ l2) as Hh2' by (intros Hin; apply Hh2, elem_of_app; by left).
  assert ((l1 ++ l2) ++ h :: stk ≡ₚ (l1 ++ h :: l2) ++ stk) as Hperm by (rewrite <- !app_assoc; cbn; by rewrite (Permutation_middle l2)).
  unfold unlink. rewrite (ln_oldest _ _ _ Hl). destruct l1 as [|x1 l1].
  - cbn [app hd]. rewrite Z.eqb_refl. assert (is_Some (dirties db !! flushNext n)) as [q Hq].
    { apply (ln_dom _ _ _ Hl). rewrite Hnx. destruct l2 as [|y l2]; [by left|right]. cbn. constructor. constructor. }
    rewrite (modify_ok _ _ _ q) by done. eexists. split; [reflexivity|].
    assert (same_entries (dirties db) (<[flushNext n := with_flushPrev q 0]> (dirties db))) as Hsame by (by eapply same_entries_insert).
    split_and!; try done. eapply linked_keep; try done.
    + cbn [app dirties set_dirties set_oldest]. destruct l2 as [|y l2]; [done|]. cbn in Hnx. rewrite Hnx in *.
      eapply seg_first; [|by eapply (seg_set_prev _ (Some h)); [by apply NoDup_cons in Hnd2 as [? _]|..]]. done.
    + intros z Hz. cbn. apply (ln_newest _ _ _ Hl). by destruct l2.
  - destruct (exists_last (l := x1 :: l1)) as (a & p & Ea); [done|]. assert (hd 0 ((x1 :: l1) ++ h :: l2) = x1) as -> by done.
    assert (x1 <> h) as Hx1 by (intros ->; apply Hh1; constructor). rewrite (proj2 (Z.eqb_neq _ _)) by done.
    assert (lastor None (x1 :: l1) = Some p) as El by (unfold lastor; by rewrite Ea, last_snoc). rewrite El in Hp. specialize (Hp p eq_refl).
    assert (p ∉ a) as Hpa by (rewrite Ea in Hnd1; apply NoDup_app in Hnd1 as (_ & Hnd1 & _); intros Hin; apply (Hnd1 p Hin); constructor).
    assert (p ∈ x1 :: l1) as Hpin by (rewrite Ea; apply elem_of_app; right; constructor).
    assert (p ∉ l2) as Hp2 by (intros Hin; apply (Hd1 p Hpin); cbn; constructor; apply elem_of_app; by left).
    destruct (seg_lookup _ _ _ _ p Hs1 Hpin) as [q Hq]. rewrite Ea in Hs1. rewrite Hp. destruct l2 as [|y l2].
    + assert (newest db = h) as -> by (apply (ln_newest _ _ _ Hl); by rewrite last_snoc). rewrite Z.eqb_refl.
      rewrite (modify_ok _ _ _ q) by done. eexists. split; [reflexivity|].
      assert (same_entries (dirties db) (<[p := with_flushNext q 0]> (dirties db))) as Hsame by (by eapply same_entries_insert).
      split_and!; try done. eapply linked_keep; try done; rewrite app_nil_r.
      * rewrite Ea. by eapply seg_set_next.
      * apply (ln_oldest _ _ _ Hl).
      * rewrite Ea. intros z. rewrite last_snoc. by intros [= <-].
    + assert (newest db <> h) as Hnew.
      { intros E. destruct (last (y :: l2)) as [z|] eqn:Ez; [|by apply last_None in Ez]. rewrite (ln_newest _ _ _ Hl z) in E by (by rewrite last_app, last_cons, Ez).
        subst z. apply Hh2'. apply last_Some in Ez as (b & ->). apply elem_of_app. right. constructor. }
      rewrite (proj2 (Z.eqb_neq h (newest db))) by congruence. cbn in Hnx. rewrite Hnx. rewrite (modify_ok _ _ _ q) by done. cbn [obind].
      assert (y <> p) as Hyp by (intros ->; apply Hp2; constructor).
      destruct (seg_lookup _ _ _ _ y Hs2) as [qy Hqy]; [constructor|].
      rewrite (modify_ok _ y _ qy) by (cbn; by rewrite lookup_insert_ne). eexists. split; [reflexivity|].
      set (ds := <[y := with_flushPrev qy p]> (<[p := with_flushNext q y]> (dirties db))).
      assert (same_entries (dirties db) ds) as Hsame.
      { transitivity (<[p := with_flushNext q y]> (dirties db)); [by eapply same_entries_insert|]. eapply same_entries_insert; [by rewrite lookup_insert_ne|done]. }
      split_and!; try done. eapply linked_keep; try done; [|apply (ln_oldest _ _ _ Hl)|].
      * apply seg_app. rewrite El, Ea. cbn [hd]. split.
        -- eapply (seg_frame (<[p := with_flushNext q y]> (dirties db))); [|by eapply seg_set_next].
           intros z Hz. apply lookup_insert_ne. intros ->. apply (Hd1 z); [by rewrite Ea|]. cbn. constructor. constructor.
        -- apply (seg_set_prev (<[p := with_flushNext q y]> (dirties db)) (Some h) y l2 0 qy p); [by apply NoDup_cons in Hnd2 as [? _]|by rewrite lookup_insert_ne|].
           eapply seg_frame; [|exact Hs2]. intros z Hz. rewrite lookup_insert_ne; [done|]. by intros ->.
      * intros z Hz. apply (ln_newest _ _ _ Hl). rewrite last_app in Hz |- *. cbn [last] in *. by destruct (last (y :: l2)) eqn:E2; [|apply last_None in E2].
Qed.

(** Dropping its entry as well. *)
Lemma drop_linked (db : Database D) l (h : Hash) stk n : linked db l (h :: stk) -> linked (drop_entry db h n) l stk.
Proof.
  intros [Hnd Hz Hw Hdom Hseg Ho Hn Hc].
  assert ((h ∉ l) /\ (h ∉ stk)) as [Hnl Hns].
  { rewrite <- Permutation_middle in Hnd. apply NoDup_cons in Hnd as [Hh _]. rewrite elem_of_app in Hh. tauto. }
  split; try done.
  - rewrite <- Permutation_middle in Hnd. by apply NoDup_cons in Hnd as [_ ?].
  - rewrite <- Permutation_middle in Hz. intros Hin. apply Hz. by constructor.
  - rewrite <- Permutation_middle in Hw. by apply Forall_cons in Hw as [_ ?].
  - intros x. cbn. destruct (decide (x = h)) as [->|Hne].
    + rewrite lookup_delete_eq. split; [by intros [? ?]|]. intros [->|Hin]; [|apply elem_of_app in Hin; tauto].
      exfalso. apply Hz. rewrite <- Permutation_middle. constructor.
    + rewrite lookup_delete_ne by done. rewrite Hdom, <- Permutation_middle. rewrite elem_of_cons. clear -Hne. intuition congruence.
  - cbn. eapply seg_frame; [|exact Hseg]. intros x Hx. apply lookup_delete_ne. by intros ->.
  - intros x m. cbn. rewrite lookup_delete_Some. intros [_ Hm]. by eapply Hc.
Qed.
End unlink.

(** ** Taking out of the cache *)

Definition shrinks (ds ds' : gmap Hash cachedNode) : Prop := forall (h : Hash) n', ds' !! h = Some n' -> exists n, ds !! h = Some n /\ same_entry n n'.

Lemma shrinks_trans d1 d2 d3 : shrinks d1 d2 -> shrinks d2 d3 -> shrinks d1 d3.
Proof. intros H1 H2 h n3 E. destruct (H2 h n3 E) as (n2 & E2 & S2). destruct (H1 h n2 E2) as (n1 & E1 & S1). exists n1. split; [done|by etrans]. Qed.
Lemma same_shrinks ds ds' : same_entries ds ds' -> shrinks ds ds'.
Proof. intros Hs h n'. by apply same_entries_some. Qed.

(** What hangs below a node in the cache. *)
Inductive below (ds : gmap Hash cachedNode) : Hash -> Hash -> Prop :=
| below_here h : below ds h h
| below_step h n cs c x : ds !! h = Some n -> childs n = Ok cs -> c ∈ cs -> below ds c x -> below ds h x.

Lemma below_shrinks ds ds' h x : shrinks ds ds' -> below ds' h x -> below ds h x.
Proof.
  intros Hs Hx. induction Hx as [h|h n' cs c x Hn Hcs Hc Hx IH]; [constructor|]. destruct (Hs h n' Hn) as (n & En & He).
  apply (below_step _ _ n cs c); [done|by rewrite (childs_same n n' He)|done|done].
Qed.
(** Nothing is gone but what was below. *)
Definition drops (ds ds' : gmap Hash cachedNode) (h : Hash) : Prop := forall x : Hash, is_Some (ds !! x) -> ds' !! x = None -> below ds h x.
Lemma drops_same ds ds' h : same_entries ds ds' -> drops ds ds' h.
Proof. intros Hs x [n Hn] Hx. specialize (Hs x). rewrite Hn, Hx in Hs. inversion Hs. Qed.

Section walk.
Context {D : Type} `{KeyValue D} (rank : Hash -> nat).

(** References lead down: no node is below itself. *)
Definition ranked (ds : gmap Hash cachedNode) : Prop := forall (h : Hash) n cs c, h <> 0 -> ds !! h = Some n -> childs n = Ok cs -> c ∈ cs ->
  c <> 0 /\ (rank c < rank h)%nat.

Lemma ranked_shrinks ds ds' : shrinks ds ds' -> ranked ds -> ranked ds'.
Proof.
  intros Hs Hr h n' cs c Hh Hn Hcs Hc. destruct (Hs h n' Hn) as (n & En & He). rewrite <- (childs_same n n' He) in Hcs. by eapply Hr.
Qed.

Lemma uncache_ok fuel : forall (db : Database D) l stk (h : Hash), linked db l stk -> ranked (dirties db) -> h <> 0 ->
  (forall x, x ∈ stk -> (rank h < rank x)%nat) -> (rank h < fuel)%nat ->
  exists db' l', uncache_fuel fuel db h = Ok db' /\ linked db' l' stk /\ shrinks (dirties db) (dirties db') /\ diskdb db' = diskdb db /\
    drops (dirties db) (dirties db') h.
Proof.
  induction fuel as [|fuel IH]; intros db l stk h Hl Hr Hh Hstk Hf; [lia|]. cbn [uncache_fuel].
  destruct (dirties db !! h) as [n|] eqn:En; [|exists db, l; split_and!; try done; [by apply same_shrinks|by apply drops_same]].
  assert (h ∈ l) as Hin.
  { destruct (proj1 (ln_dom _ _ _ Hl h)) as [?|Hin]; [by eexists|done|]. apply elem_of_app in Hin as [?|Hs]; [done|]. specialize (Hstk h Hs). lia. }
  apply list_elem_of_split in Hin as (l1 & l2 & ->). destruct (unlink_ok db l1 h l2 stk n Hl En) as (db1 & -> & Hl1 & Hd1 & Hs1). cbn [obind].
  destruct (ln_childs _ _ _ Hl h n En) as (cs & Ecs). rewrite Ecs. cbn [obind].
  assert (forall cs' db2 l2', (forall c, c ∈ cs' -> c ∈ cs) -> linked db2 l2' (h :: stk) -> shrinks (dirties db) (dirties db2) -> diskdb db2 = diskdb db -> drops (dirties db) (dirties db2) h ->
    exists db3 l3, each (uncache_fuel fuel) cs' db2 = Ok db3 /\ linked db3 l3 (h :: stk) /\ shrinks (dirties db) (dirties db3) /\ diskdb db3 = diskdb db /\
      drops (dirties db) (dirties db3) h) as Heach.
  { induction cs' as [|c cs' IHc]; intros db2 l2' Hsub Hl2 Hs2 Hd2 Hx2; [by exists db2, l2'|]. cbn [each].
    destruct (Hr h n cs c Hh En Ecs) as [Hc0 Hrc]; [apply Hsub; constructor|].
    destruct (IH db2 l2' (h :: stk) c Hl2) as (db3 & l3 & -> & Hl3 & Hs3 & Hd3 & Hx3); [by eapply ranked_shrinks|done| |lia|].
    { intros x [->|Hx]%elem_of_cons; [done|]. specialize (Hstk x Hx). lia. }
    cbn [obind]. apply (IHc db3 l3); [intros; apply Hsub; by constructor|done|by eapply shrinks_trans|congruence|].
    intros x Hx Hn3. destruct (dirties db2 !! x) as [m|] eqn:Em; [|by apply Hx2]. eapply below_step; [done|done|apply Hsub; constructor|].
    eapply below_shrinks; [exact Hs2|]. apply Hx3; [by eexists|done]. }
  destruct (Heach cs db1 (l1 ++ l2)) as (db3 & l3 & -> & Hl3 & Hs3 & Hd3 & Hx3); [done|done|by apply same_shrinks|done|by apply drops_same|]. cbn [obind].
  exists (drop_entry db3 h n), l3. split; [done|]. split; [by apply drop_linked|]. split; [|split; [done|]].
  - intros x m. cbn. rewrite lookup_delete_Some. intros [_ Hm]. by apply Hs3.
  - intros x Hx. cbn. rewrite lookup_delete_None. intros [<-|Hn3]; [constructor|by apply Hx3].
Qed.
End walk.

(** ** Writing *)

Lemma Hash_Bytes_word (h : Hash) : is_word h -> be2z (Hash_Bytes h) = h.
Proof. intros Hh. unfold Hash_Bytes. rewrite be2z_z2be. apply Z.mod_small. exact Hh. Qed.
Lemma zlen_hash_bytes (h : Hash) : zlen (Hash_Bytes h) = 32.
Proof. unfold Hash_Bytes, zlen. by rewrite length_z2be. Qed.

Lemma written_put ws key v g x : written (ws ++ [mkKv key v false]) g x = if decide (x = key) then Some v else written ws g x.
Proof. revert g. induction ws as [|w ws IH]; intros g; [done|]. cbn [app written]. apply IH. Qed.

Section commit.
Context {D : Type} `{KeyValueLaws D} (rank : Hash -> nat).

(** What the disk will have once the batch is written. *)
Definition view (db : Database D) (b : Batch) (key : list byte) : option (list byte) := written (writes b) (db_Get (diskdb db)) key.
Definition only_disk (db db' : Database D) : Prop := db' = set_diskdb db (diskdb db').

Lemma only_disk_refl db : only_disk db db.
Proof. by destruct db. Qed.
Lemma only_disk_trans d1 d2 d3 : only_disk d1 d2 -> only_disk d2 d3 -> only_disk d1 d3.
Proof. unfold only_disk. intros -> ->. done. Qed.
Lemma only_disk_dirties db db' : only_disk db db' -> dirties db' = dirties db.
Proof. by intros ->. Qed.
Lemma only_disk_linked db db' l stk : only_disk db db' -> linked db l stk -> linked db' l stk.
Proof. intros -> [? ? ? ? ? ? ? ?]. by split. Qed.

Lemma write_if_ok large db b : exists db' b', write_if large db b = (None, db', b') /\ only_disk db db' /\ (forall key, view db' b' key = view db b key) /\
  (large = true -> forall key, db_Get (diskdb db') key = view db b key).
Proof.
  unfold write_if. destruct large; [|exists db, b; split_and!; try done; apply only_disk_refl].
  destruct (write_ok (diskdb db) b) as (disk & -> & Hg). eexists _, _. split_and!; try done.
Qed.

(** Every write is of an entry of the cache, under its hash. *)
Definition puts_entries (ds : gmap Hash cachedNode) (v v' : list byte -> option (list byte)) : Prop := forall key,
  v' key = v key \/ exists (x : Hash) n blob, is_word x /\ ds !! x = Some n /\ key = Hash_Bytes x /\ cached_rlp n = Ok blob /\ v' key = Some blob.
(** The entry under a hash, if there is one, is written. *)
Definition flushed (ds : gmap Hash cachedNode) (v : list byte -> option (list byte)) (x : Hash) : Prop :=
  forall n, ds !! x = Some n -> exists blob, cached_rlp n = Ok blob /\ v (Hash_Bytes x) = Some blob.

Lemma puts_trans ds v1 v2 v3 : puts_entries ds v1 v2 -> puts_entries ds v2 v3 -> puts_entries ds v1 v3.
Proof. intros H1 H2 key. destruct (H2 key) as [->|?]; [apply H1|by right]. Qed.
Lemma flushed_puts ds v v' x : is_word x -> puts_entries ds v v' -> flushed ds v x -> flushed ds v' x.
Proof.
  intros Hx Hp Hf n Hn. destruct (Hf n Hn) as (blob & Eb & Hv). exists blob. split; [done|].
  destruct (Hp (Hash_Bytes x)) as [->|(y & m & blob' & Hy & Hm & E & Eb' & ->)]; [done|].
  apply (f_equal be2z) in E. rewrite !Hash_Bytes_word in E by done. subst y. congruence.
Qed.

Lemma below_nonzero ds c x : ranked rank ds -> below ds c x -> c <> 0 -> x <> 0.
Proof.
  intros Hr Hx. induction Hx as [|h n cs c x Hn Hcs Hc Hx IH]; [done|]. intros Hh. apply IH. by eapply Hr.
Qed.

Lemma commit_ok fuel : forall db l b (h : Hash), linked db l [] -> ranked rank (dirties db) -> h <> 0 -> (rank h < fuel)%nat ->
  exists db' b', commit_fuel fuel h db b = Ok (None, db', b') /\ only_disk db db' /\ puts_entries (dirties db) (view db b) (view db' b') /\
    (forall x, below (dirties db) h x -> flushed (dirties db) (view db' b') x).
Proof.
  induction fuel as [|fuel IH]; intros db l b h Hl Hr Hh Hf; [lia|]. cbn [commit_fuel].
  assert (forall (x : Hash) n, x <> 0 -> dirties db !! x = Some n -> is_word x) as Hword.
  { intros x n Hx Hn. destruct (proj1 (ln_dom _ _ _ Hl x)) as [?|Hin]; [by eexists|done|].
    pose proof (ln_words _ _ _ Hl) as Hw. rewrite Forall_forall in Hw. by apply Hw. }
  destruct (dirties db !! h) as [n|] eqn:En.
  2: { exists db, b. split; [done|]. split; [apply only_disk_refl|]. split; [by left|].
       intros x Hx. inversion Hx; subst; [|congruence]. intros m Hm. congruence. }
  destruct (ln_childs _ _ _ Hl h n En) as (cs & Ecs). rewrite Ecs. cbn [obind].
  assert (forall cs' db2 b2, (forall c, c ∈ cs' -> c ∈ cs) -> only_disk db db2 ->
    exists db3 b3, each_r (commit_fuel fuel) cs' db2 b2 = Ok (None, db3, b3) /\ only_disk db db3 /\ puts_entries (dirties db) (view db2 b2) (view db3 b3) /\
      (forall c x, c ∈ cs' -> below (dirties db) c x -> flushed (dirties db) (view db3 b3) x)) as Heach.
  { induction cs' as [|c cs' IHc]; intros db2 b2 Hsub Hod.
    { exists db2, b2. split; [done|]. split; [done|]. split; [by left|]. by intros c x ?%not_elem_of_nil. }
    cbn [each_r]. destruct (Hr h n cs c Hh En Ecs) as [Hc0 Hrc]; [apply Hsub; constructor|].
    destruct (IH db2 l b2 c) as (db3 & b3 & -> & Hod3 & Hp3 & Hb3); [by eapply only_disk_linked|by rewrite (only_disk_dirties _ _ Hod)|done|lia|]. cbn [obind].
    rewrite (only_disk_dirties _ _ Hod) in *. destruct (IHc db3 b3) as (db4 & b4 & -> & Hod4 & Hp4 & Hb4);
      [intros; apply Hsub; by constructor|by eapply only_disk_trans|].
    exists db4, b4. split; [done|]. split; [done|]. split; [by eapply puts_trans|].
    intros c' x [->|Hin]%elem_of_cons Hx; [|by eapply Hb4].
    intros m Hm. eapply (flushed_puts _ (view db3 b3)); [eapply Hword; [by eapply below_nonzero|done]|done|by apply Hb3|done]. }
  destruct (Heach cs db b) as (db3 & b3 & -> & Hod3 & Hp3 & Hb3); [done|apply only_disk_refl|]. cbn [obind].
  destruct (cached_rlp_ok n) as (blob & Eb). rewrite Eb. cbn [obind]. set (b4 := batch_Put b3 (Hash_Bytes h) blob).
  destruct (write_if_ok (IdealBatchSize <=? ValueSize b4) db3 b4) as (db5 & b5 & -> & Hod5 & Hv5 & _).
  exists db5, b5. split; [done|]. split; [by eapply only_disk_trans|].
  assert (forall key, view db5 b5 key = if decide (key = Hash_Bytes h) then Some blob else view db3 b3 key) as Hview.
  { intros key. rewrite Hv5. unfold view, b4. cbn [writes batch_Put]. apply written_put. }
  assert (puts_entries (dirties db) (view db3 b3) (view db5 b5)) as Hp5.
  { intros key. rewrite Hview. destruct (decide (key = Hash_Bytes h)) as [->|]; [right|by left]. exists h, n, blob. split_and!; try done. by eapply Hword. }
  split; [by eapply puts_trans|]. intros x Hx. inversion Hx as [|h' n' cs' c x' Hn' Hcs' Hc Hx']; subst.
  - intros m Hm. assert (m = n) as -> by congruence. exists blob. split; [done|]. by rewrite Hview, decide_True.
  - assert (n' = n) as -> by congruence. assert (cs' = cs) as -> by congruence. intros m Hm.
    eapply (flushed_puts _ (view db3 b3)); [eapply Hword; [eapply below_nonzero; [done|exact Hx'|by eapply Hr]|done]|done|by eapply Hb3|done].
Qed.

Lemma put_preimages_ok ps : forall db b, exists db' b', put_preimages ps db b = (None, db', b') /\ only_disk db db' /\
  (forall key, zlen key = 32 -> view db' b' key = view db b key).
Proof.
  induction ps as [|[h p] ps IH]; intros db b; [exists db, b; split_and!; try done; apply only_disk_refl|]. cbn [put_preimages].
  set (b1 := batch_Put b (secureKey (Hash_Bytes h)) p). destruct (write_if_ok (IdealBatchSize <? ValueSize b1) db b1) as (db2 & b2 & -> & Hod2 & Hv2 & _).
  destruct (IH db2 b2) as (db3 & b3 & -> & Hod3 & Hv3). exists db3, b3. split; [done|]. split; [by eapply only_disk_trans|].
  intros key Hk. rewrite Hv3, Hv2 by done. unfold view, b1. cbn [writes batch_Put]. rewrite written_put, decide_False; [done|].
  intros ->. unfold secureKey in Hk. rewrite zlen_app, zlen_hash_bytes in Hk. done.
Qed.

(** Everything below the root is on disk, and out of the cache. *)
Lemma Commit_disk db l (root : Hash) : linked db l [] -> ranked rank (dirties db) -> root <> 0 -> (rank root <= size (dirties db))%nat ->
  exists db' l', Commit db root = Ok (None, db') /\ linked db' l' [] /\ shrinks (dirties db) (dirties db') /\
    puts_entries (dirties db) (fun key => db_Get (diskdb db) key) (fun key => if decide (zlen key = 32) then db_Get (diskdb db') key else db_Get (diskdb db) key) /\
    (forall x, below (dirties db) root x -> flushed (dirties db) (db_Get (diskdb db')) x) /\ drops (dirties db) (dirties db') root.
Proof.
  intros Hl Hr Hroot Hsize. unfold Commit.
  destruct (put_preimages_ok (map_to_list (preimages db)) db NewBatch) as (db1 & b1 & -> & Hod1 & Hv1). rewrite (only_disk_dirties _ _ Hod1).
  destruct (commit_ok (S (size (dirties db))) db1 l b1 root) as (db2 & b2 & -> & Hod2 & Hp2 & Hb2);
    [by eapply only_disk_linked|by rewrite (only_disk_dirties _ _ Hod1)|done|lia|]. cbn [obind]. rewrite (only_disk_dirties _ _ Hod1) in *.
  destruct (write_if_ok true db2 b2) as (db3 & b3 & -> & Hod3 & _ & Hd3). specialize (Hd3 eq_refl).
  assert (only_disk db db3) as Hod by (do 2 (eapply only_disk_trans; [|done]); done). set (db4 := set_preimages db3 ∅ 0).
  assert (dirties db4 = dirties db) as Ed4 by apply (only_disk_dirties _ _ Hod).
  assert (linked db4 l []) as Hl4. { destruct (only_disk_linked _ _ _ _ Hod Hl). by split. }
  destruct (uncache_ok rank (S (size (dirties db))) db4 l [] root Hl4) as (db5 & l5 & -> & Hl5 & Hs5 & Hd5 & Hx5);
    [by rewrite Ed4|done|by intros x ?%not_elem_of_nil|lia|]. cbn [obind].
  eexists _, l5. split; [reflexivity|]. split; [destruct Hl5; by split|]. split; [cbn; by rewrite <- Ed4|]. cbn [diskdb set_flush set_gc].
  assert (forall key, db_Get (diskdb db5) key = view db2 b2 key) as Hdisk by (intros key; rewrite Hd5; apply Hd3). split; [|split].
  - intros key. destruct (decide (zlen key = 32)) as [Hlen|]; [|by left]. rewrite Hdisk.
    destruct (Hp2 key) as [->|(x & n & blob & ? & ? & -> & ? & ?)]; [left; by rewrite Hv1|right]. by exists x, n, blob.
  - intros x Hx n Hn. destruct (Hb2 x Hx n Hn) as (blob & Eb & Hv). exists blob. by rewrite Hdisk.
  - cbn. by rewrite <- Ed4.
Qed.
End commit.

(** ** Tries on disk *)

Section persist.
Context {D : Type} `{KeyValueLaws D} (cr : Crypto) (Hk : forall x, zlen (keccak256 cr x) = 32) (rank : Hash -> nat).
#[local] Instance laws_here : NodeDatabaseLaws (Database D) := trie_database_laws cr Hk.

Local Abbreviation hash_of u := (BytesToHash (root_bytes cr u)).

(** The nodes that a node refers to by their hash, directly or in the nodes inside it. *)
Inductive hchild : tree -> tree -> Prop :=
| hchild_short k t : ref cr t = VBytes (root_bytes cr t) -> is_branch t -> hchild (Short k t) t
| hchild_full ts i t : (i < 16)%nat -> ts !! i = Some t -> ref cr t = VBytes (root_bytes cr t) -> is_branch t -> hchild (Full ts) t
| hchild_short_in k t w : ref cr t = expanded cr t -> is_branch t -> hchild t w -> hchild (Short k t) w
| hchild_full_in ts i t w : (i < 16)%nat -> ts !! i = Some t -> ref cr t = expanded cr t -> is_branch t -> hchild t w -> hchild (Full ts) w.

Lemma omap_first_elem {A B} (f : A -> outcome B) k l ys i a : omap_first f k l = Ok ys -> (i < k)%nat -> l !! i = Some a -> exists y, f a = Ok y /\ y ∈ ys.
Proof.
  revert l ys i. induction k as [|k IH]; intros l ys i E Hi Ha; [lia|]. destruct l as [|x l]; [done|]. cbn in E.
  destruct (f x) as [y| |] eqn:Ey; try done. cbn in E. destruct (omap_first f k l) as [ys'| |] eqn:Eys; try done. injection E as <-.
  destruct i as [|i]; cbn in Ha; [injection Ha as ->; exists y; split; [done|constructor]|].
  destruct (IH l ys' i Eys) as (z & Ez & Hz); [lia|done|]. exists z. split; [done|by constructor].
Qed.

Lemma hchild_gather u w : hchild u w -> forall hs, gatherChildren (raw_node cr u) = Ok hs -> hash_of w ∈ hs.
Proof.
  assert (forall t, is_branch t -> ref cr t = VBytes (root_bytes cr t) -> gatherChildren (raw_ref cr t) = Ok [hash_of t]) as Hhash.
  { intros t Hb Er. destruct (ref_cases cr t Hb) as [(_ & E & _)|(_ & _ & -> & _)]; [|done]. rewrite E in Er. by destruct t. }
  assert (forall t, is_branch t -> ref cr t = expanded cr t -> raw_ref cr t = raw_node cr t) as Hin.
  { intros t Hb Er. destruct (ref_cases cr t Hb) as [(_ & _ & -> & _)|(_ & E & _)]; [done|]. rewrite E in Er. by destruct t. }
  assert (forall i ts t hs, (i < 16)%nat -> ts !! i = Some t -> gatherChildren (rawFullNode (map (raw_ref cr) ts)) = Ok hs ->
    exists hs', gatherChildren (raw_ref cr t) = Ok hs' /\ forall x, x ∈ hs' -> x ∈ hs) as Hfull.
  { intros i ts t hs Hi Ht E. cbn [gatherChildren] in E. destruct (omap_first gatherChildren 16 (map (raw_ref cr) ts)) as [ys| |] eqn:Eo; try done.
    cbn in E. injection E as <-. destruct (omap_first_elem _ _ _ _ i (raw_ref cr t) Eo Hi) as (y & Ey & Hy); [by rewrite list_lookup_fmap, Ht|].
    exists y. split; [done|]. intros x Hx. apply list_elem_of_In, in_concat. exists y. split; by apply list_elem_of_In. }
  induction 1 as [k t Er Hb|ts i t Hi Ht Er Hb|k t w Er Hb _ IH|ts i t w Hi Ht Er Hb _ IH]; intros hs E; cbn [raw_node] in E.
  - cbn [gatherChildren] in E. rewrite (Hhash t Hb Er) in E. injection E as <-. constructor.
  - destruct (Hfull i ts t hs Hi Ht E) as (hs' & E' & Hsub). rewrite (Hhash t Hb Er) in E'. injection E' as <-. apply Hsub. constructor.
  - cbn [gatherChildren] in E. rewrite (Hin t Hb Er) in E. by apply IH.
  - destruct (Hfull i ts t hs Hi Ht E) as (hs' & E' & Hsub). rewrite (Hin t Hb Er) in E'. by apply Hsub, IH.
Qed.

Lemma raw_val_children ts : (forall t, t ∈ ts -> t <> Leafless -> raw_val (raw_ref cr t) = ref cr t) ->
  map (fun c => if raw_is_nil c then VBytes [] else raw_val c) (map (raw_ref cr) ts) = map (ref cr) ts.
Proof.
  induction ts as [|t ts IH]; intros Hts; [done|]. cbn [map]. rewrite IH by (intros x Hx; apply Hts; by constructor). f_equal.
  destruct (raw_is_nil (raw_ref cr t)) eqn:E; [by apply raw_ref_nil in E as ->|]. apply Hts; [constructor|]. intros ->. done.
Qed.
Lemma raw_val_ref t : keyed t -> t <> Leafless -> raw_val (raw_ref cr t) = ref cr t.
Proof.
  induction 1 as [|v|k u Hkk Hu IH Hne|ts Hts IH]; intros Hn; [done|done|..].
  - destruct (ref_cases cr (Short k u) I) as [(_ & -> & -> & _)|(_ & -> & -> & _)]; [|done]. cbn -[ref]. by rewrite IH.
  - destruct (ref_cases cr (Full ts) I) as [(_ & -> & -> & _)|(_ & -> & -> & _)]; [|done]. cbn -[ref]. by rewrite raw_val_children.
Qed.
Lemma raw_val_node t : keyed t -> is_branch t -> raw_val (raw_node cr t) = expanded cr t.
Proof.
  intros Hkey Hb. destruct Hkey as [| |k u Hkk Hu Hne|ts Hts]; try done; cbn -[ref]; [by rewrite raw_val_ref|]. rewrite raw_val_children; [done|].
  intros t Ht Hn. apply raw_val_ref; [by apply Hts|done].
Qed.

Lemma cached_rlp_node n u : inner u -> bounded u -> cnode n = raw_node cr u -> cached_rlp n = Ok (enc_val (expanded cr u)).
Proof.
  intros Hi Hb E. pose proof (inner_branch u Hi) as Hbr. unfold cached_rlp.
  assert (EncodeToBytes (raw_val (raw_node cr u)) = Good (enc_val (expanded cr u))) as Ee.
  { rewrite raw_val_node by (done || by apply inner_keyed). by apply encode_expanded. }
  rewrite E. destruct u as [| |k u|ts]; try done; cbn [raw_node] in *; by rewrite Ee.
Qed.

(** On disk alone. *)
Definition on_disk (disk : D) (u : tree) : Prop := db_Get disk (Hash_Bytes (hash_of u)) = Some (enc_val (expanded cr u)).

Lemma on_disk_kept disk u : inner u -> bounded u -> hash_of u <> 0 -> on_disk disk u -> kept cr (NewDatabase disk) u.
Proof.
  intros Hi Hb Hz Hd. unfold kept, db_holds. cbn. unfold holds_raw. cbn. rewrite lookup_singleton_ne by done. by exists u.
Qed.

(** What is not in the cache is on disk with all that is below. *)
Definition disk_closed (db : Database D) (tr : tree) : Prop := forall u, subtree tr u -> inner u -> u = tr \/ ref cr u = VBytes (root_bytes cr u) ->
  dirties db !! hash_of u = None -> forall w, subtree u w -> inner w -> w = u \/ ref cr w = VBytes (root_bytes cr w) -> on_disk (diskdb db) w.

Section one.
Context (db db' : Database D) (tr : tree) (Hi : inner tr) (Hb : bounded tr) (Hdh : distinct_hashes cr tr) (Hclosed : disk_closed db tr).
Context (Hputs : puts_entries (dirties db) (fun key => db_Get (diskdb db) key)
           (fun key => if decide (zlen key = 32) then db_Get (diskdb db') key else db_Get (diskdb db) key)).
Context (Hflush : forall x, below (dirties db) (hash_of tr) x -> flushed (dirties db) (db_Get (diskdb db')) x).
Context (Hch : forall (h : Hash) n, dirties db !! h = Some n -> exists cs, childs n = Ok cs).

Lemma kept_entry u n : kept cr db u -> dirties db !! hash_of u = Some n -> cnode n = raw_node cr u.
Proof. unfold kept. cbn. unfold holds_raw. intros Hkept E. by rewrite E in Hkept. Qed.

(** What was on disk is there still. *)
Lemma on_disk_stays u : inner u -> bounded u -> kept cr db u -> on_disk (diskdb db) u -> on_disk (diskdb db') u.
Proof.
  intros Hiu Hbu Hkept Hd. unfold on_disk in *. specialize (Hputs (Hash_Bytes (hash_of u))). cbn beta in Hputs.
  rewrite decide_True in Hputs by apply zlen_hash_bytes. destruct Hputs as [E|(x & n & blob & Hx & Hn & E & Eb & Ed)]; [congruence|].
  apply (f_equal be2z) in E. rewrite !Hash_Bytes_word in E by (done || apply BytesToHash_word). subst x.
  rewrite Ed, (cached_rlp_node n u Hiu Hbu (kept_entry u n Hkept Hn)) in *. congruence.
Qed.
Lemma on_disk_below u n : inner u -> bounded u -> kept cr db u -> dirties db !! hash_of u = Some n -> below (dirties db) (hash_of tr) (hash_of u) ->
  on_disk (diskdb db') u.
Proof.
  intros Hiu Hbu Hkept Hn Hbel. destruct (Hflush _ Hbel n Hn) as (blob & Eb & Hd).
  rewrite (cached_rlp_node n u Hiu Hbu (kept_entry u n Hkept Hn)) in Eb. unfold on_disk. congruence.
Qed.

Lemma below_trans ds a b c : below ds a b -> below ds b c -> below ds a c.
Proof. induction 1; [done|]. intros. econstructor; eauto. Qed.
Lemma below_hchild u n w : kept cr db u -> dirties db !! hash_of u = Some n -> is_branch u -> hchild u w -> below (dirties db) (hash_of u) (hash_of w).
Proof.
  intros Hkept Hn Hbr Hw. destruct (Hch _ n Hn) as (cs & Ecs). eapply below_step; [done|done| |constructor].
  pose proof (kept_entry u n Hkept Hn) as Ec. unfold childs in Ecs. rewrite Ec in Ecs.
  assert (exists hs, gatherChildren (raw_node cr u) = Ok hs /\ cs = (map_to_list (children n)).*1 ++ hs) as (hs & Ehs & ->).
  { destruct u as [| |k u|ts]; try done; cbn [raw_node] in *; (destruct (gatherChildren _) as [hs| |]; try done); cbn in Ecs; injection Ecs as <-; by exists hs. }
  apply elem_of_app. right. by eapply hchild_gather.
Qed.


Local Abbreviation dsk := (NewDatabase (diskdb db')).

Lemma sub_bounded u : subtree tr u -> inner u -> bounded u.
Proof. intros Hs Hu. by eapply (subtree_bounded tr). Qed.
Lemma sub_nonzero u : subtree tr u -> inner u -> hash_of u <> 0.
Proof. intros Hs Hu. by apply (dh_zero _ _ Hdh u Hs), inner_branch. Qed.

(** The parts of a tree, one by one. *)
Lemma parts_children (P : tree -> Prop) u : inner u -> (forall t, (exists k, u = Short k t) \/ (exists ts i, u = Full ts /\ ts !! i = Some t /\ (i < 16)%nat) -> inner t -> P t) ->
  (forall t, P t -> held cr dsk t) -> parts_held cr dsk u.
Proof.
  intros Hu HP Hheld. destruct Hu as [p v Hp Hv|p ts Hp Hne Hts|ts Hl _ Hc H16].
  - constructor.
  - apply Hheld, HP; [left; by exists p|done].
  - intros i t Ht. destruct (decide (t = Leafless)) as [->|Hn]; [constructor|]. destruct (decide (i = 16%nat)) as [->|Hne].
    + destruct (H16 t Ht Hn) as (v & -> & _). constructor.
    + apply Hheld, HP; [right; exists ts, i; split_and!; try done; apply lookup_lt_Some in Ht; lia|by apply (Hc i)].
Qed.

Lemma held_branch t : is_branch t -> parts_held cr dsk t -> (ref cr t = VBytes (root_bytes cr t) -> kept cr dsk t) -> held cr dsk t.
Proof.
  intros Hbr Hp Hkept. apply held_as_child. split; [done|]. intros _ h Eh. apply Hkept. by rewrite <- (ref_hash cr t h Hbr Eh).
Qed.

Lemma disk_held u : inner u -> subtree tr u -> (forall w, subtree u w -> inner w -> ref cr w = VBytes (root_bytes cr w) -> on_disk (diskdb db') w) ->
  parts_held cr dsk u.
Proof.
  induction u as [|v|k t IH|ts IH] using tree_rect'; intros Hu Hs Hd; [done|done|..].
  - apply (parts_children (fun t => held cr dsk t)); [done| |done]. intros t' [(k' & [= <- <-])|(ts & i & ? & _)] Hit; [|done].
    pose proof (subtree_child _ _ _ Hs) as Hst. apply held_branch; [by apply inner_branch| |].
    + apply IH; [done|done|]. intros w Hw. apply Hd. by constructor.
    + intros Er. apply on_disk_kept; [done|by apply sub_bounded|by apply sub_nonzero|]. apply Hd; [constructor; constructor|done|done].
  - apply (parts_children (fun t => held cr dsk t)); [done| |done]. intros t [(k' & ?)|(ts' & i & [= <-] & Ht & _)] Hit; [done|].
    pose proof (subtree_slot _ _ _ _ Hs Ht) as Hst. apply held_branch; [by apply inner_branch| |].
    + eapply (Forall_lookup_1 _ _ _ _ IH Ht); [done|done|]. intros w Hw. apply Hd. by econstructor.
    + intros Er. apply on_disk_kept; [done|by apply sub_bounded|by apply sub_nonzero|]. apply Hd; [econstructor; [done|constructor]|done|done].
Qed.

(** Found while committing, or on disk before. *)
Definition visited (w : tree) : Prop := dirties db !! hash_of w = None \/ below (dirties db) (hash_of tr) (hash_of w).

Context (Hall : forall w, subtree tr w -> inner w -> w = tr \/ ref cr w = VBytes (root_bytes cr w) -> kept cr db w).

(** A node that was not in the cache. *)
Lemma closed_disk u : subtree tr u -> inner u -> u = tr \/ ref cr u = VBytes (root_bytes cr u) -> dirties db !! hash_of u = None ->
  parts_held cr dsk u /\ kept cr dsk u.
Proof.
  intros Hs Hu Hor Hnone.
  assert (forall w, subtree u w -> inner w -> w = u \/ ref cr w = VBytes (root_bytes cr w) -> on_disk (diskdb db') w) as Hd.
  { intros w Hw Hiw Hwor. pose proof (subtree_trans _ _ _ Hs Hw) as Hsw. apply on_disk_stays; [done|by apply sub_bounded| |exact (Hclosed u Hs Hu Hor Hnone w Hw Hiw Hwor)].
    apply Hall; [done|done|]. destruct Hwor as [->|?]; [done|by right]. }
  split; [apply disk_held; [done|done|]; intros w Hw Hiw Er; apply Hd; [done|done|by right]|].
  apply on_disk_kept; [done|by apply sub_bounded|by apply sub_nonzero|]. apply Hd; [constructor|done|by left].
Qed.

(** A node that was visited. *)
Lemma visited_disk u : subtree tr u -> inner u -> u = tr \/ ref cr u = VBytes (root_bytes cr u) -> visited u ->
  ((forall w, hchild u w -> visited w) -> parts_held cr dsk u) -> parts_held cr dsk u /\ kept cr dsk u.
Proof.
  intros Hs Hu Hor Hv Hp. destruct (dirties db !! hash_of u) as [n|] eqn:En; [|by apply closed_disk].
  destruct Hv as [?|Hbel]; [congruence|]. pose proof (Hall u Hs Hu Hor) as Hkept. split.
  - apply Hp. intros w Hw. right. eapply below_trans; [exact Hbel|]. eapply below_hchild; [done|done|by apply inner_branch|done].
  - apply on_disk_kept; [done|by apply sub_bounded|by apply sub_nonzero|]. eapply on_disk_below; [done|by apply sub_bounded|done..].
Qed.

Lemma persist_parts u : inner u -> subtree tr u -> (forall w, hchild u w -> visited w) -> parts_held cr dsk u.
Proof.
  induction u as [|v|k t IH|ts IH] using tree_rect'; intros Hu Hs Hv; [done|done|..].
  - apply (parts_children (fun t => held cr dsk t)); [done| |done]. intros t' [(k' & [= <- <-])|(ts & i & ? & _)] Hit; [|done].
    pose proof (subtree_child _ _ _ Hs) as Hst. pose proof (inner_branch t Hit) as Hbr.
    destruct (ref_cases cr t Hbr) as [(_ & Er & _)|(_ & Er & _)].
    + apply held_branch; [done| |by rewrite Er; destruct t]. apply IH; [done|done|]. intros w Hw. apply Hv. by apply hchild_short_in.
    + destruct (visited_disk t Hst Hit (or_intror Er)) as [Hp Hkept]; [by apply Hv, hchild_short|by apply IH|]. by apply held_branch.
  - apply (parts_children (fun t => held cr dsk t)); [done| |done]. intros t [(k' & ?)|(ts' & i & [= <-] & Ht & Hlt)] Hit; [done|].
    pose proof (subtree_slot _ _ _ _ Hs Ht) as Hst. pose proof (inner_branch t Hit) as Hbr. pose proof (Forall_lookup_1 _ _ _ _ IH Ht) as IHt.
    destruct (ref_cases cr t Hbr) as [(_ & Er & _)|(_ & Er & _)].
    + apply held_branch; [done| |by rewrite Er; destruct t]. apply IHt; [done|done|]. intros w Hw. apply Hv. by eapply hchild_full_in.
    + destruct (visited_disk t Hst Hit (or_intror Er)) as [Hp Hkept]; [by eapply Hv, hchild_full|by apply IHt|]. by apply held_branch.
Qed.

Lemma persist_root : held_as cr dsk true tr.
Proof.
  destruct (visited_disk tr) as [Hp Hkept]; [constructor|done|by left|right; constructor|by apply persist_parts; [|constructor]|]. by split.
Qed.
End one.

(** Everything that the database holds of a tree. *)
Lemma held_all (db : Database D) tr : inner tr -> held_as cr db true tr -> forall w, subtree tr w -> inner w -> w = tr \/ ref cr w = VBytes (root_bytes cr w) -> kept cr db w.
Proof.
  intros Hi [Hp Hkept] w Hs Hw Hor. destruct Hor as [->|Er]; [done|].
  assert (forall u, held cr db u -> subtree u w -> kept cr db w) as Hheld.
  { intros u Hh Hsw. induction Hsw as [t|k t u Hsw IH|ts i t u Ht Hsw IH].
    - apply held_as_child in Hh as [_ Hst]. by eapply Hst; [apply inner_branch|].
    - inversion Hh; subst. by apply IH.
    - inversion Hh as [| | |ts' Hts _]; subst. apply IH; try done. by eapply Hts. }
  inversion Hs as [t|k t u Hsw|ts i t u Ht Hsw]; subst; [done|by apply (Hheld t)|]. apply (Hheld t); [by eapply Hp|done].
Qed.

(** Committing the database puts the trie on disk. *)
Lemma Commit_persists (db : Database D) l tr : linked db l [] -> ranked rank (dirties db) -> (rank (hash_of tr) <= size (dirties db))%nat ->
  inner tr -> bounded tr -> distinct_hashes cr tr -> held_as cr db true tr -> disk_closed db tr ->
  exists db', Commit db (hash_of tr) = Ok (None, db') /\ db_ok db' /\ held_as cr (NewDatabase (diskdb db')) true tr.
Proof.
  intros Hl Hr Hrk Hi Hb Hdh Hheld Hcl. destruct (dh_zero _ _ Hdh tr (sub_refl tr) (inner_branch tr Hi)) as [Hz _].
  destruct (Commit_disk rank db l (hash_of tr) Hl Hr Hz Hrk) as (db' & l' & E & Hl' & _ & Hputs & Hflush & _).
  exists db'. split; [done|]. split; [by exists l'|]. eapply persist_root; try done.
  - by apply Hl.
  - by apply held_all.
Qed.
End persist.
