(* ===== verification/TrieDbCap.v ===== *)
(** * References, garbage and room

    What [reference], [dereference] and [Cap] leave of the flush list, and what
    [Commit] and [Cap] leave of the nodes. *)
From S2P Require Import Prelude CommonMath RlpEncode RlpDecode VmBase TrieEncoding TrieNode CanDb.
From S2P Require Import TrieDatabase TrieDbFacts TrieDbCommit.
From stdpp Require Import base numbers list gmap.
From Stdlib Require Import ZArith Lia.
#[local] Open Scope Z_scope.

Import Node TrieDb.

(** ** Entries with the same node and the same links *)

Definition same_spine (m n : cachedNode) : Prop := cnode m = cnode n /\ flushPrev m = flushPrev n /\ flushNext m = flushNext n.
Definition same_spines (ds ds' : gmap Hash cachedNode) : Prop := forall h : Hash, option_Forall2 same_spine (ds !! h) (ds' !! h).

Lemma spines_refl ds : same_spines ds ds.
Proof. intros h. by destruct (ds !! h); constructor. Qed.
Lemma spines_trans d1 d2 d3 : same_spines d1 d2 -> same_spines d2 d3 -> same_spines d1 d3.
Proof.
  intros H1 H2 h. specialize (H2 h). destruct (H1 h) as [a b (? & ? & ?)|]; [|inversion H2; constructor].
  inversion H2 as [a' c (? & ? & ?) E1 E2|]; subst. constructor. split_and!; congruence.
Qed.
Lemma spines_insert ds (h : Hash) n n' : ds !! h = Some n -> same_spine n n' -> same_spines ds (<[h := n']> ds).
Proof. intros Hn Hs x. destruct (decide (x = h)) as [->|Hne]; [rewrite lookup_insert_eq, Hn; by constructor|rewrite lookup_insert_ne by done; apply spines_refl]. Qed.
Lemma spines_some ds ds' (h : Hash) n : same_spines ds ds' -> ds !! h = Some n -> exists n', ds' !! h = Some n' /\ same_spine n n'.
Proof. intros Hs Hn. specialize (Hs h). rewrite Hn in Hs. inversion Hs as [a b Hab E1 E2|]; subst. by exists b. Qed.

Lemma seg_spines ds ds' p l nxt : same_spines ds ds' -> seg ds p l nxt -> seg ds' p l nxt.
Proof.
  intros Hs. revert p. induction l as [|h l IH]; intros p; [done|]. intros (n & Hn & Hp & Hx & Hl).
  destruct (spines_some _ _ _ _ Hs Hn) as (n' & Hn' & _ & Ep & Ex). exists n'. split_and!; [done|intros x Ex'; rewrite <- Ep; by apply Hp|congruence|by apply IH].
Qed.

Lemma childs_cnode m n cs : cnode m = cnode n -> childs m = Ok cs -> exists cs', childs n = Ok cs'.
Proof.
  unfold childs. intros <-. destruct (cnode m) as [|b|k r|xs|h|v]; try (by eexists).
  all: match goal with |- context [gatherChildren ?r] => destruct (gatherChildren r) as [hs| |]; try done; by eexists end.
Qed.

Lemma childs_gather r sz p hs : gatherChildren r = Ok hs -> exists cs, childs (mkCached r sz 0 ∅ p 0) = Ok cs.
Proof. intros E. unfold childs. cbn [cnode]. destruct r; try (by eexists); rewrite E; by eexists. Qed.

Lemma linked_spines {D} (db db' : Database D) l stk : linked db l stk -> same_spines (dirties db) (dirties db') ->
  oldest db' = oldest db -> newest db' = newest db -> linked db' l stk.
Proof.
  intros [Hnd Hz Hw Hdom Hseg Ho Hn Hc] Hs Eo En. split; try done.
  - intros h. rewrite <- Hdom. specialize (Hs h). by inversion Hs as [a b Hab E1 E2|E1 E2]; [split; eexists|].
  - by eapply seg_spines.
  - congruence.
  - intros x Hx. rewrite En. by apply Hn.
  - intros h n' Hn'. specialize (Hs h). rewrite Hn' in Hs. inversion Hs as [n m (Ec & _) E1 E2|]; subst.
    destruct (Hc h n) as (cs & Ecs); [done|]. by eapply childs_cnode.
Qed.

(** ** Fewer references *)

Definition fades (ds ds' : gmap Hash cachedNode) : Prop := forall (h : Hash) n', ds' !! h = Some n' ->
  exists n, ds !! h = Some n /\ cnode n = cnode n' /\ forall c, is_Some (children n' !! c) -> is_Some (children n !! c).

Lemma fades_refl ds : fades ds ds.
Proof. intros h n Hn. by exists n. Qed.
Lemma fades_trans d1 d2 d3 : fades d1 d2 -> fades d2 d3 -> fades d1 d3.
Proof.
  intros H1 H2 h n3 E. destruct (H2 h n3 E) as (n2 & E2 & C2 & S2). destruct (H1 h n2 E2) as (n1 & E1 & C1 & S1). exists n1. split; [done|].
  split; [congruence|]. intros c Hc. by apply S1, S2.
Qed.
Lemma fades_same ds ds' : same_entries ds ds' -> fades ds ds'.
Proof. intros Hs h n' Hn'. destruct (same_entries_some _ _ _ _ Hs Hn') as (n & Hn & Ec & Eh & _). exists n. split; [done|]. split; [done|]. by rewrite Eh. Qed.
Lemma fades_insert ds (h : Hash) n n' : ds !! h = Some n -> cnode n = cnode n' -> (forall c, is_Some (children n' !! c) -> is_Some (children n !! c)) ->
  fades ds (<[h := n']> ds).
Proof.
  intros Hn Ec Hc x m. destruct (decide (x = h)) as [->|Hne]; [rewrite lookup_insert_eq; intros [= <-]; by exists n|].
  rewrite lookup_insert_ne by done. intros Hm. by exists m.
Qed.

Lemma childs_fade m n cs c : cnode m = cnode n -> (forall x, is_Some (children n !! x) -> is_Some (children m !! x)) -> childs n = Ok cs -> c ∈ cs ->
  exists cs', childs m = Ok cs' /\ c ∈ cs'.
Proof.
  intros Ec Hx. unfold childs. rewrite Ec.
  assert (forall y, y ∈ (map_to_list (children n)).*1 -> y ∈ (map_to_list (children m)).*1) as Hrefs.
  { intros y ((y' & r) & -> & Hr)%list_elem_of_fmap. apply elem_of_map_to_list in Hr. destruct (Hx y') as [r' Hr']; [by eexists|].
    apply list_elem_of_fmap. exists (y', r'). split; [done|]. by apply elem_of_map_to_list. }
  destruct (cnode n) as [|b|k r|xs|h|v]; try (intros [= <-] Hc; eexists; split; [reflexivity|by apply Hrefs]).
  all: match goal with |- context [gatherChildren ?r] => destruct (gatherChildren r) as [hs| |]; try done end.
  all: intros [= <-] Hc; eexists; split; [reflexivity|]; apply elem_of_app; apply elem_of_app in Hc as [Hc|Hc]; [left; by apply Hrefs|by right].
Qed.

Lemma ranked_fades rank ds ds' : fades ds ds' -> ranked rank ds -> ranked rank ds'.
Proof.
  intros Hf Hr h n' cs c Hh Hn Hcs Hc. destruct (Hf h n' Hn) as (n & En & Ec & Hx).
  destruct (childs_fade n n' cs c Ec Hx Hcs Hc) as (cs' & Ecs' & Hc'). by eapply Hr.
Qed.

Section refs.
Context {D : Type} `{KeyValue D} (rank : Hash -> nat).

(** A new reference, from the root set or from a node in the cache. *)
Lemma reference_linked (db : Database D) l (child parent : Hash) : linked db l [] -> is_Some (dirties db !! parent) ->
  exists db', reference db child parent = Ok db' /\ linked db' l [] /\ diskdb db' = diskdb db /\ same_spines (dirties db) (dirties db').
Proof.
  intros Hl (p & Hp). unfold reference. destruct (dirties db !! child) as [n|] eqn:En; [|exists db; split_and!; try done; apply spines_refl].
  rewrite Hp. case_match; [exists db; split_and!; try done; apply spines_refl|].
  rewrite (modify_ok db child _ n En). cbn [obind]. set (db1 := set_dirties db _).
  assert (same_spines (dirties db) (dirties db1)) as Hs1 by (by apply (spines_insert _ _ n)).
  destruct (spines_some _ _ _ _ Hs1 Hp) as (p1 & Hp1 & _). rewrite (modify_ok db1 parent _ p1 Hp1). eexists. split; [reflexivity|].
  assert (same_spines (dirties db) (<[parent := with_children p1 (<[child := (default 0 (children p1 !! child) + 1) mod 2 ^ 16]> (children p1))]> (dirties db1))) as Hs2.
  { eapply spines_trans; [exact Hs1|]. by apply (spines_insert _ _ p1). }
  split; [by apply (linked_spines db)|done].
Qed.

Lemma release_ok (db : Database D) l stk (child parent : Hash) : linked db l stk -> is_Some (dirties db !! parent) ->
  exists db', release db child parent = Ok db' /\ linked db' l stk /\ fades (dirties db) (dirties db') /\ diskdb db' = diskdb db.
Proof.
  intros Hl (p & Hp). unfold release. rewrite Hp. destruct (0 <? _) eqn:Er; [|exists db; split_and!; try done; apply fades_refl].
  rewrite (modify_ok db parent _ p Hp). eexists. split; [reflexivity|]. split; [|split; [|done]].
  - apply (linked_spines db); [done| |done|done]. by apply (spines_insert _ _ p).
  - apply (fades_insert _ _ p); [done|done|]. intros c. cbn [with_children children].
    destruct (_ =? 0); [rewrite lookup_delete_is_Some; tauto|]. rewrite lookup_insert_is_Some. intros [<-|[_ ?]]; [|done].
    destruct (children p !! child); [done|]. cbn in Er. discriminate.
Qed.

(** Garbage collection ends, and leaves the flush list in order. *)
Lemma dereference_ok fuel : forall (db : Database D) l stk (h parent : Hash), linked db l stk -> ranked rank (dirties db) -> h <> 0 ->
  is_Some (dirties db !! parent) -> (forall x, x ∈ stk -> (rank h < rank x)%nat) -> (rank h < fuel)%nat ->
  exists db' l', dereference_fuel fuel db h parent = Ok db' /\ linked db' l' stk /\ fades (dirties db) (dirties db') /\ diskdb db' = diskdb db.
Proof.
  induction fuel as [|fuel IH]; intros db l stk h parent Hl Hr Hh Hp Hstk Hf; [lia|]. cbn [dereference_fuel].
  destruct (release_ok db l stk h parent Hl Hp) as (db1 & -> & Hl1 & Hf1 & Hd1). cbn [obind].
  destruct (dirties db1 !! h) as [n0|] eqn:En0; [|by exists db1, l].
  set (n := if 0 <? parents n0 then _ else n0). set (db2 := set_dirties db1 _).
  assert (dirties db2 !! h = Some n) as En by apply lookup_insert_eq.
  assert (same_spine n0 n /\ children n = children n0) as [Hsp Ech] by (subst n; by destruct (0 <? parents n0)).
  assert (linked db2 l stk) as Hl2 by (apply (linked_spines db1); [done|by apply (spines_insert _ _ n0)|done|done]).
  assert (fades (dirties db) (dirties db2)) as Hf2.
  { eapply fades_trans; [done|]. apply (fades_insert _ _ n0); [done|by destruct Hsp|]. by rewrite Ech. }
  destruct (parents n =? 0); [|by exists db2, l].
  assert (h ∈ l) as Hin.
  { destruct (proj1 (ln_dom _ _ _ Hl2 h)) as [?|Hin]; [by eexists|done|]. apply elem_of_app in Hin as [?|Hs]; [done|]. specialize (Hstk h Hs). lia. }
  apply list_elem_of_split in Hin as (l1 & l2 & ->). destruct (unlink_ok db2 l1 h l2 stk n Hl2 En) as (db3 & -> & Hl3 & Hd3 & Hs3). cbn [obind].
  destruct (ln_childs _ _ _ Hl2 h n En) as (cs & Ecs). rewrite Ecs. cbn [obind].
  pose proof (ranked_fades rank _ _ Hf2 Hr) as Hr2.
  assert (forall cs' dba la, (forall c, c ∈ cs' -> c ∈ cs) -> linked dba la (h :: stk) -> fades (dirties db) (dirties dba) -> diskdb dba = diskdb db ->
    exists dbb lb, each (fun db c => dereference_fuel fuel db c h) cs' dba = Ok dbb /\ linked dbb lb (h :: stk) /\ fades (dirties db) (dirties dbb) /\ diskdb dbb = diskdb db) as Heach.
  { induction cs' as [|c cs' IHc]; intros dba la Hsub Hla Hfa Hda; [by exists dba, la|]. cbn [each].
    destruct (Hr2 h n cs c Hh En Ecs) as [Hc0 Hrc]; [apply Hsub; constructor|].
    destruct (IH dba la (h :: stk) c h Hla) as (dbb & lb & -> & Hlb & Hfb & Hdb); [by eapply ranked_fades|done| | |lia|].
    { apply (ln_dom _ _ _ Hla). right. apply elem_of_app. right. constructor. }
    { intros x [->|Hx]%elem_of_cons; [done|]. specialize (Hstk x Hx). lia. }
    cbn [obind]. apply (IHc dbb lb); [intros; apply Hsub; by constructor|done|by eapply fades_trans|congruence]. }
  destruct (Heach cs db3 (l1 ++ l2)) as (db4 & l4 & -> & Hl4 & Hf4 & Hd4);
    [done|done|eapply fades_trans; [done|by apply fades_same]|cbn in Hd3; congruence|]. cbn [obind].
  exists (drop_entry db4 h n), l4. split; [done|]. split; [by apply drop_linked|]. split; [|done].
  intros x m. cbn. rewrite lookup_delete_Some. intros [_ Hm]. by apply Hf4.
Qed.

Lemma Dereference_linked (db : Database D) l (h : Hash) : linked db l [] -> ranked rank (dirties db) -> (rank h <= size (dirties db))%nat ->
  exists db' l', Dereference db h = Ok db' /\ linked db' l' [] /\ fades (dirties db) (dirties db') /\ diskdb db' = diskdb db.
Proof.
  intros Hl Hr Hs. unfold Dereference. destruct (Z.eqb_spec h 0) as [->|Hh]; [exists db, l; split_and!; try done; apply fades_refl|].
  destruct (dereference_ok (S (size (dirties db))) db l [] h 0 Hl Hr Hh) as (db1 & l1 & E & Hl1 & Hf & Hd);
    [apply (ln_dom _ _ _ Hl); by left|by intros x ?%elem_of_nil|lia|].
  unfold dereference. rewrite E. cbn [obind]. eexists _, l1. split; [reflexivity|]. split; [|done]. destruct Hl1. by split.
Qed.
End refs.

(** ** What can still be read *)

Section keep.
Context {D : Type} `{KeyValueLaws D} (rank : Hash -> nat).

(** What [Commit] and [Cap] write to the disk of the nodes. *)
Definition disk_puts (db db' : Database D) : Prop := puts_entries (dirties db) (fun key => db_Get (diskdb db) key)
  (fun key => if decide (zlen key = 32) then db_Get (diskdb db') key else db_Get (diskdb db) key).

Lemma keeps_nodes (db db' : Database D) l l' : linked db l [] -> linked db' l' [] -> shrinks (dirties db) (dirties db') -> disk_puts db db' ->
  (forall x : Hash, is_Some (dirties db !! x) -> dirties db' !! x = None -> flushed (dirties db) (db_Get (diskdb db')) x) ->
  forall h : Hash, is_word h -> Node_ db' h = Node_ db h.
Proof.
  intros Hl Hl' Hs Hp Hf h Hh. unfold Node_. destruct (dirties db' !! h) as [n'|] eqn:En'.
  - destruct (Hs h n' En') as (n & -> & Ec & _). unfold cached_rlp. by rewrite Ec.
  - destruct (dirties db !! h) as [n|] eqn:En.
    + destruct (Hf h) with n as (blob & Eb & ->); [by eexists|done|done|]. by rewrite Eb.
    + specialize (Hp (Hash_Bytes h)). cbn beta in Hp. rewrite decide_True in Hp by apply zlen_hash_bytes.
      destruct Hp as [->|(x & n & blob & Hx & Hn & E & _)]; [done|]. apply (f_equal be2z) in E. rewrite !Hash_Bytes_word in E by done. congruence.
Qed.

Lemma Commit_keeps (db : Database D) l (root : Hash) : linked db l [] -> ranked rank (dirties db) -> root <> 0 -> (rank root <= size (dirties db))%nat ->
  exists db' l', Commit db root = Ok (None, db') /\ linked db' l' [] /\ forall h : Hash, is_word h -> Node_ db' h = Node_ db h.
Proof.
  intros Hl Hr Hroot Hrk. destruct (Commit_disk rank db l root Hl Hr Hroot Hrk) as (db' & l' & E & Hl' & Hs & Hputs & Hflush & Hdrop).
  exists db', l'. split; [done|]. split; [done|]. eapply keeps_nodes; try done. intros x Hx Hn. by apply Hflush, Hdrop.
Qed.

(** ** Making room *)

Lemma linked_size (db : Database D) l : linked db l [] -> size (dirties db) = S (length l).
Proof.
  intros Hl. pose proof (ln_nodup _ _ _ Hl) as Hnd. pose proof (ln_zero _ _ _ Hl) as Hz. rewrite app_nil_r in Hnd, Hz.
  assert ((dom (dirties db) : gset Hash) = list_to_set (0 :: l)) as Hdom.
  { apply set_eq. intros x. rewrite elem_of_list_to_set, elem_of_dom, (ln_dom _ _ _ Hl), app_nil_r. symmetry. apply elem_of_cons. }
  rewrite <- size_dom, Hdom, size_list_to_set; [done|]. by constructor.
Qed.
Lemma no_nodes (db : Database D) : linked db [] [] -> Nodes db = [].
Proof.
  intros Hl. unfold Nodes. apply elem_of_nil_inv. intros h [Hne ((h' & n) & -> & Hn)%list_elem_of_fmap]%list_elem_of_filter. apply elem_of_map_to_list in Hn.
  destruct (proj1 (ln_dom _ _ _ Hl h')) as [?|?%not_elem_of_nil]; [by eexists|done|done].
Qed.

(** The bytes of the nodes of a list. *)
Fixpoint csizes (ds : gmap Hash cachedNode) (l : list Hash) : Z :=
  match l with
  | [] => 0
  | h :: l => match ds !! h with Some n => csize n | None => 0 end + csizes ds l
  end.
Lemma csizes_ext ds ds' l : (forall x, x ∈ l -> ds' !! x = ds !! x) -> csizes ds' l = csizes ds l.
Proof. induction l as [|h l IH]; intros Hx; [done|]. cbn. rewrite Hx by constructor. rewrite IH; [done|]. intros x ?. apply Hx. by constructor. Qed.

Lemma cap_write_ok lb : forall fuel size_ limit p db b, seg (dirties db) p lb 0 -> 0 ∉ lb -> Forall is_word lb -> NoDup lb -> (length lb < fuel)%nat ->
  exists db' b' l1 l2, lb = l1 ++ l2 /\ cap_write fuel size_ limit (hd 0 lb) db b = Ok (None, db', b', hd 0 l2) /\ only_disk db db' /\
    puts_entries (dirties db) (view db b) (view db' b') /\ (forall x, x ∈ l1 -> flushed (dirties db) (view db' b') x) /\
    (size_ - (zlen l1 * 96 + csizes (dirties db) l1) <= limit \/ l2 = []).
Proof.
  induction lb as [|h lb IH]; intros fuel size_ limit p db b Hseg Hz Hw Hnd Hf; (destruct fuel as [|fuel]; [cbn in Hf; lia|]); cbn [cap_write hd].
  { rewrite andb_false_r. exists db, b, [], []. split_and!; try done; [apply only_disk_refl|by left|by intros x ?%not_elem_of_nil|by right]. }
  assert (h <> 0) as Hh by (intros ->; apply Hz; constructor). rewrite (proj2 (Z.eqb_neq _ _)) by done. rewrite andb_true_r.
  destruct (Z.ltb_spec limit size_) as [Hlim|Hlim].
  2: { exists db, b, [], (h :: lb). split_and!; try done; [apply only_disk_refl|by left|by intros x ?%not_elem_of_nil|]. left. unfold zlen. cbn [length csizes]. lia. }
  destruct Hseg as (n & Hn & _ & Hx & Hseg). rewrite Hn. destruct (cached_rlp_ok n) as (blob & Eb). rewrite Eb. cbn [obind].
  set (b1 := batch_Put b (Hash_Bytes h) blob). destruct (write_if_ok (IdealBatchSize <=? ValueSize b1) db b1) as (db2 & b2 & -> & Hod2 & Hv2 & _).
  apply Forall_cons in Hw as [Hwh Hw]. apply NoDup_cons in Hnd as [Hni Hnd].
  rewrite Hx. destruct (IH fuel (size_ - (3 * Z.of_nat HashLength + csize n)) limit (Some h) db2 b2) as (db3 & b3 & l1 & l2 & -> & E3 & Hod3 & Hp3 & Hf3 & Hs3);
    [by rewrite (only_disk_dirties _ _ Hod2)|intros ?; apply Hz; by constructor|done|done|cbn in Hf; lia|]. rewrite (only_disk_dirties _ _ Hod2) in *.
  assert (forall key, view db2 b2 key = if decide (key = Hash_Bytes h) then Some blob else view db b key) as Hview.
  { intros key. rewrite Hv2. unfold view, b1. cbn [writes batch_Put]. apply written_put. }
  exists db3, b3, (h :: l1), l2. split; [done|]. split; [done|]. split; [by eapply only_disk_trans|]. split; [|split].
  - eapply puts_trans; [|done]. intros key. rewrite Hview. destruct (decide (key = Hash_Bytes h)) as [->|]; [right|by left]. by exists h, n, blob.
  - intros x [->|Hin]%elem_of_cons; [|by apply Hf3]. eapply flushed_puts; [done|done|]. intros m Hm. assert (m = n) as -> by congruence.
    exists blob. split; [done|]. by rewrite Hview, decide_True.
  - destruct Hs3 as [Hs3|Hs3]; [left|by right]. rewrite zlen_cons. cbn [csizes]. rewrite Hn. change (Z.of_nat HashLength) with 32 in Hs3. lia.
Qed.

Lemma drop_oldest (db : Database D) (h : Hash) l n : linked db (h :: l) [] -> dirties db !! h = Some n ->
  linked (set_oldest (drop_entry db h n) (flushNext n)) l [].
Proof.
  intros Hl Hn. pose proof (ln_seg _ _ _ Hl) as (m & Hm & _ & Hx & Hseg). assert (m = n) as -> by congruence.
  assert (linked (set_oldest db (flushNext n)) l [h]) as Hl1.
  { apply (linked_keep db _ (h :: l) l [] [h]); [done|done|apply Permutation_sym; rewrite app_nil_r; apply Permutation_cons_append| | |].
    - eapply seg_first; [|exact Hseg]. done.
    - done.
    - intros x Hlast. apply (ln_newest _ _ _ Hl). by rewrite last_cons, Hlast. }
  exact (drop_linked _ l h [] n Hl1).
Qed.

Lemma cap_drop_ok l1 : forall fuel (db : Database D) l2, linked db (l1 ++ l2) [] -> (length l1 < fuel)%nat ->
  exists db', cap_drop fuel (hd 0 l2) db = Ok db' /\ linked db' l2 [] /\ shrinks (dirties db) (dirties db') /\ diskdb db' = diskdb db /\
    dirtiesSize db' = dirtiesSize db - (zlen l1 * 32 + csizes (dirties db) l1).
Proof.
  induction l1 as [|h l1 IH]; intros fuel db l2 Hl Hf; (destruct fuel as [|fuel]; [cbn in Hf; lia|]); cbn [cap_drop].
  { rewrite (ln_oldest _ _ _ Hl), Z.eqb_refl. exists db. split_and!; try done; [by apply same_shrinks|unfold zlen; cbn [length csizes]; lia]. }
  pose proof (ln_oldest _ _ _ Hl) as Eo. cbn in Eo. rewrite Eo.
  destruct (Z.eqb_spec h (hd 0 l2)) as [E|Hne].
  { exfalso. clear Eo. pose proof (ln_nodup _ _ _ Hl) as Hnd. pose proof (ln_zero _ _ _ Hl) as Hz. rewrite app_nil_r in Hnd, Hz. destruct l2 as [|y l2]; cbn in E; subst h.
    - apply Hz. constructor.
    - apply NoDup_cons in Hnd as [[] _]. apply elem_of_app. right. constructor. }
  pose proof (ln_seg _ _ _ Hl) as (n & Hn & _). rewrite Hn. pose proof (drop_oldest db h (l1 ++ l2) n Hl Hn) as Hl1.
  destruct (IH fuel _ l2 Hl1) as (db' & E & Hl' & Hs & Hd & Hsz); [cbn in Hf; lia|]. rewrite E. exists db'. split; [done|]. split; [done|]. split; [|split; [done|]].
  { eapply shrinks_trans; [|done]. intros x m. cbn. rewrite lookup_delete_Some. intros [_ Hm]. by exists m. }
  rewrite Hsz, zlen_cons. cbn -[HashLength]. rewrite Hn, (csizes_ext (dirties db)); [change (Z.of_nat HashLength) with 32; lia|].
  intros x Hx. apply lookup_delete_ne. intros <-. pose proof (ln_nodup _ _ _ Hl) as Hnd. rewrite app_nil_r in Hnd. apply NoDup_cons in Hnd as [[] _].
  apply elem_of_app. by left.
Qed.

Lemma first_flushPrev (db : Database D) (h : Hash) l n q : linked db (h :: l) [] -> dirties db !! h = Some n ->
  linked (set_dirties db (<[h := with_flushPrev n q]> (dirties db))) (h :: l) [].
Proof.
  intros Hl Hn. apply (linked_keep db _ (h :: l) (h :: l) [] []); [done|by apply (same_entries_insert _ _ n)|done| |apply (ln_oldest _ _ _ Hl)|apply (ln_newest _ _ _ Hl)].
  pose proof (ln_nodup _ _ _ Hl) as Hnd. rewrite app_nil_r in Hnd. apply NoDup_cons in Hnd as [Hni _].
  eapply seg_first; [|apply (seg_set_prev _ None h l 0 n q); [done|done|apply (ln_seg _ _ _ Hl)]]. done.
Qed.

Lemma cap_first (db : Database D) l : linked db l [] ->
  exists db', (if negb (oldest db =? 0) then modify db (oldest db) (fun n => with_flushPrev n 0) else Ok db) = Ok db' /\
    linked db' l [] /\ same_entries (dirties db) (dirties db') /\ diskdb db' = diskdb db /\ dirtiesSize db' = dirtiesSize db.
Proof.
  intros Hl. rewrite (ln_oldest _ _ _ Hl). destruct l as [|h l]; [by exists db|]. cbn [hd].
  pose proof (ln_zero _ _ _ Hl) as Hz. assert (h <> 0) by (intros ->; apply Hz; constructor). rewrite (proj2 (Z.eqb_neq _ _)) by done. cbn [negb].
  pose proof (ln_seg _ _ _ Hl) as (n & Hn & _). rewrite (modify_ok _ _ _ n Hn). eexists. split; [reflexivity|].
  split; [by apply first_flushPrev|]. split; [by apply (same_entries_insert _ _ n)|done].
Qed.

(** The oldest nodes go to disk, until the rest fits. *)
Lemma Cap_keeps (db : Database D) l limit : linked db l [] ->
  exists db' l1 l2, Cap db limit = Ok (None, db') /\ l = l1 ++ l2 /\ linked db' l2 [] /\ (forall h : Hash, is_word h -> Node_ db' h = Node_ db h) /\
    (fst (Size db') <= limit \/ l2 = []).
Proof.
  intros Hl. unfold Cap. set (fl := _ <? preimagesSize db).
  assert (exists db1 b1, (if fl then put_preimages (map_to_list (preimages db)) db NewBatch else (None, db, NewBatch)) = (None, db1, b1) /\ only_disk db db1 /\
    forall key, zlen key = 32 -> view db1 b1 key = db_Get (diskdb db) key) as (db1 & b1 & -> & Hod1 & Hv1).
  { destruct fl; [exact (put_preimages_ok _ db NewBatch)|]. exists db, NewBatch. split_and!; try done. apply only_disk_refl. }
  pose proof (linked_size db l Hl) as Hsize. pose proof (only_disk_linked _ _ _ _ Hod1 Hl) as Hl1. pose proof (only_disk_dirties _ _ Hod1) as Ed1.
  rewrite (ln_oldest _ _ _ Hl1). pose proof (ln_nodup _ _ _ Hl) as Hnd. pose proof (ln_zero _ _ _ Hl) as Hz. pose proof (ln_words _ _ _ Hl) as Hw. rewrite app_nil_r in Hnd, Hz, Hw.
  match goal with |- context [cap_write _ ?sz] => set (size_ := sz) end.
  destruct (cap_write_ok l (S (size (dirties db))) size_ limit None db1 b1 (ln_seg _ _ _ Hl1)) as (db2 & b2 & l1 & l2 & El & -> & Hod2 & Hp2 & Hf2 & Hs2); [done..|lia|].
  rewrite Ed1 in *. cbn [obind]. destruct (write_if_ok true db2 b2) as (db3 & b3 & -> & Hod3 & _ & Hd3). specialize (Hd3 eq_refl).
  assert (only_disk db db3) as Hod by (do 2 (eapply only_disk_trans; [|done]); done). set (db4 := if fl then _ else _).
  assert (dirties db4 = dirties db /\ diskdb db4 = diskdb db3 /\ dirtiesSize db4 = dirtiesSize db) as (Ed4 & Edk4 & Esz4).
  { pose proof (only_disk_dirties _ _ Hod) as E. assert (dirtiesSize db3 = dirtiesSize db) as E' by (unfold only_disk in Hod; by rewrite Hod).
    subst db4. by destruct fl. }
  assert (linked db4 (l1 ++ l2) []) as Hl4. { rewrite <- El. pose proof (only_disk_linked _ _ _ _ Hod Hl) as []. subst db4. destruct fl; by split. }
  destruct (cap_drop_ok l1 (S (size (dirties db))) db4 l2 Hl4) as (db5 & -> & Hl5 & Hs5 & Hd5 & Hsz5).
  { rewrite Hsize, El, length_app. lia. }
  cbn [obind]. destruct (cap_first db5 l2 Hl5) as (db6 & -> & Hl6 & Hs6 & Hd6 & Hsz6). cbn [obind]. rewrite Ed4 in *.
  eexists _, l1, l2. split; [reflexivity|]. split; [done|]. split; [destruct Hl6; by split|].
  assert (forall key, db_Get (diskdb db6) key = view db2 b2 key) as Hdisk by (intros key; rewrite Hd6, Hd5, Edk4; apply Hd3). split.
  - eapply (keeps_nodes db _ l l2); [done|destruct Hl6; by split|eapply shrinks_trans; [done|by apply same_shrinks]| |].
    + intros key. destruct (decide (zlen key = 32)) as [Hlen|]; [|by left]. cbn [diskdb set_flush]. rewrite Hdisk.
      destruct (Hp2 key) as [->|(x & n & blob & ? & ? & -> & ? & ?)]; [left; by rewrite Hv1|right]. by exists x, n, blob.
    + intros x Hx Hn m Hm. cbn [dirties set_flush diskdb] in *. destruct (Hf2 x) with m as (blob & Eb & Hv); [|done|exists blob; by rewrite Hdisk].
      apply (ln_dom _ _ _ Hl) in Hx. rewrite app_nil_r, El, elem_of_app in Hx.
      assert (~ (x = 0 \/ x ∈ l2 ++ [])) as Hnot by (rewrite <- (ln_dom _ _ _ Hl6), Hn; by intros [? ?]). rewrite app_nil_r in Hnot. tauto.
  - destruct Hs2 as [Hs2|Hs2]; [left|by right]. unfold Size. cbn [fst dirties dirtiesSize set_flush].
    rewrite (linked_size db6 l2 Hl6), Hsz6, Hsz5, Esz4. subst size_. rewrite Hsize, El, length_app in Hs2. change (Z.of_nat HashLength) with 32 in *.
    unfold zlen in *. lia.
Qed.
End keep.
