(* ===== verification/TrieBind.v ===== *)
(** * Root hashes bind contents

    Two trees with the same encoding are the same tree, as long as no two of their
    nodes collide. *)
From S2P Require Import Prelude CommonMath RlpEncode RlpDecode RlpFacts Opcodes VmBase VmInterface.
From S2P Require Import TrieEncoding TrieTree TrieNode TrieModel TrieRep TrieFacts TrieHash TrieDecode TrieCommit TrieTheorems.
From S2P Require Import CanDb TrieDatabase TrieDbFacts TrieDbCommit.
From stdpp Require Import base numbers list.
From Stdlib Require Import ZArith Lia.
#[local] Open Scope Z_scope.

Import Trie.

Section bind.
Context (cr : Crypto) (Hk : forall x, zlen (keccak256 cr x) = 32).

(** The hash tells the encodings of the nodes of two trees apart. *)
Definition no_collision (t u : tree) : Prop := forall x y, subtree t x -> subtree u y -> is_branch x -> is_branch y ->
  root_bytes cr x = root_bytes cr y -> enc_val (expanded cr x) = enc_val (expanded cr y).

Lemma no_collision_sub t u x y : no_collision t u -> subtree t x -> subtree u y -> no_collision x y.
Proof. intros Hn Hx Hy a b Ha Hb. apply Hn; by eapply subtree_trans. Qed.

Lemma load_enc t u : keyed t -> keyed u -> is_branch t -> is_branch u -> load cr None 0 t = load cr None 0 u -> enc_val (expanded cr t) = enc_val (expanded cr u).
Proof.
  intros Ht Hu Hbt Hbu E. rewrite <- (raw_val_node cr t), <- (raw_val_node cr u) by done. rewrite <- (to_raw_load cr None 0 t), <- (to_raw_load cr None 0 u). by rewrite E.
Qed.

(** Equal references lead to equal encodings. *)
Lemma child_enc t u : inner t -> inner u -> no_collision t u -> child_node cr 0 t = child_node cr 0 u -> enc_val (expanded cr t) = enc_val (expanded cr u).
Proof.
  intros Ht Hu Hn E. pose proof (inner_branch t Ht) as Hbt. pose proof (inner_branch u Hu) as Hbu.
  destruct (ref_cases cr t Hbt) as [(_ & _ & _ & Et)|(_ & _ & _ & Et)], (ref_cases cr u Hbu) as [(_ & _ & _ & Eu)|(_ & _ & _ & Eu)];
    rewrite Et, Eu in E.
  - apply load_enc; try done; by apply inner_keyed.
  - by destruct t.
  - by destruct u.
  - injection E as E. apply Hn; [constructor..|done|done|done].
Qed.

(** The shapes of children. *)
Definition part (t : tree) : Prop := t = Leafless \/ is_value t \/ (inner t /\ bounded t).

Lemma child_bind t u : part t -> part u -> no_collision t u -> (inner t -> inner u -> bounded u -> enc_val (expanded cr t) = enc_val (expanded cr u) -> t = u) ->
  child_node cr 0 t = child_node cr 0 u -> t = u.
Proof.
  assert (forall w, inner w -> child_node cr 0 w <> nilNode /\ forall v, child_node cr 0 w <> valueNode v) as Hb.
  { intros w Hw. destruct (ref_cases cr w (inner_branch w Hw)) as [(_ & _ & _ & ->)|(_ & _ & _ & ->)]; [|done]. by destruct Hw. }
  intros Ht Hu Hn IH E. destruct Ht as [->|[(v & -> & _)|[Ht Hbt]]], Hu as [->|[(w & -> & _)|[Hu Hbu]]]; try done.
  - by destruct (Hb u Hu) as [[] _].
  - cbn in E. congruence.
  - by destruct (Hb u Hu) as [_ []%(fun H => H v)].
  - by destruct (Hb t Ht) as [[] _].
  - by destruct (Hb t Ht) as [_ []%(fun H => H w)].
  - apply IH; try done. by apply child_enc.
Qed.

Lemma part_short k t : inner (Short k t) -> bounded (Short k t) -> part t.
Proof.
  intros Hi Hb. inversion Hi as [p v Hp Hv|p ts Hp Hne Hts|]; subst; [right; left; by exists v|]. right; right. split; [done|by eapply bounded_short].
Qed.
Lemma part_full ts i t : inner (Full ts) -> bounded (Full ts) -> ts !! i = Some t -> part t.
Proof.
  intros Hi Hb Ht. inversion Hi as [| |ts' Hl _ Hc H16]; subst. destruct (decide (t = Leafless)) as [->|Hn]; [by left|].
  destruct (decide (i = 16%nat)) as [->|Hne]; [right; left; by apply H16|]. right; right. split; [by apply (Hc i)|by eapply bounded_full].
Qed.

Lemma enc_bind t : forall u, inner t -> bounded t -> inner u -> bounded u -> no_collision t u ->
  enc_val (expanded cr t) = enc_val (expanded cr u) -> t = u.
Proof.
  induction t as [|v|k a IH|ts IH] using tree_rect'; intros u Ht Hbt Hu Hbu Hn E; [inversion Ht|inversion Ht|..];
    pose proof (decodeNode_ok cr Hk None 0 _ Ht Hbt) as El; rewrite E, decodeNode_ok in El by done; injection El as El.
  - destruct u as [| |k' b|us]; try done. cbn in El. injection El as Ek El. subst k'. f_equal.
    assert (subtree (Short k a) a) by (repeat constructor). assert (subtree (Short k b) b) by (repeat constructor).
    apply child_bind; [by eapply part_short|by eapply part_short|by eapply (no_collision_sub _ _ a b Hn)| |done].
    intros Ha Hb Hbb Ee. destruct (part_short k a Ht Hbt) as [->|[(v & -> & _)|[_ Hba]]]; [inversion Ha|inversion Ha|].
    apply IH; try done. by eapply (no_collision_sub _ _ a b Hn).
  - destruct u as [| |k' b|us]; try done. cbn in El. injection El as El. f_equal. apply list_eq_same_length with 17%nat.
    { by inversion Hu. }
    { by inversion Ht. }
    intros i a b _ Ha Hb. rewrite Forall_lookup in IH. specialize (IH i a Ha).
    assert (subtree (Full ts) a) by (econstructor; [done|constructor]). assert (subtree (Full us) b) by (econstructor; [done|constructor]).
    apply child_bind; [by apply (part_full ts i)|by apply (part_full us i)|eapply no_collision_sub; [exact Hn|done|done]| |].
    + intros Hia Hib Hbb Ee. destruct (part_full ts i a Ht Hbt Ha) as [->|[(v & -> & _)|[_ Hba]]]; [inversion Hia|inversion Hia|].
      apply IH; try done. by eapply (no_collision_sub _ _ a b Hn).
    + assert (map (child_node cr 0) us !! i = map (child_node cr 0) ts !! i) as Ei by (by rewrite El).
      rewrite !list_lookup_fmap, Ha, Hb in Ei. by injection Ei.
Qed.

(** Two trees with one Merkle root. *)
Lemma merkle_bind t u : canonical t -> bounded t -> canonical u -> bounded u -> no_collision t u ->
  (inner t -> merkle_root cr t <> emptyRoot) -> (inner u -> merkle_root cr u <> emptyRoot) -> merkle_root cr t = merkle_root cr u -> t = u.
Proof.
  intros [->|Ht] Hbt [->|Hu] Hbu Hn Het Heu E; [done|by destruct (Heu Hu)|by destruct (Het Ht)|].
  apply enc_bind; try done. assert (forall w, inner w -> merkle_root cr w = BytesToHash (root_bytes cr w)) as Hm by (intros w Hw; by destruct Hw).
  rewrite !Hm in E by done. apply Hn; [constructor..|by apply inner_branch|by apply inner_branch|by eapply BytesToHash_root_inj].
Qed.
End bind.
