(* ===== verification/TrieExample.v ===== *)
(** * A small trie

    A closed trie over the in-memory database, with two entries, on which the
    hypotheses of the trie's theorems are checked by evaluation. *)
From S2P Require Import Prelude CommonMath RlpEncode RlpDecode RlpFacts Opcodes VmBase VmInterface MemDb.
From S2P Require Import TrieEncoding TrieTree TrieNode TrieModel TrieRep TrieFacts TrieHash TrieDecode TrieCommit TrieTheorems.
From S2P Require Import CanDb TrieDatabase TrieDbFacts TrieDbCommit TrieBind.
From stdpp Require Import base numbers list gmap.
From Stdlib Require Import ZArith Lia.
#[local] Open Scope Z_scope.

Import Trie TrieDb.

(** ** Subtrees, listed *)

Fixpoint subs (t : tree) : list tree :=
  t :: match t with
       | Short _ u => subs u
       | Full ts => concat (map subs ts)
       | _ => []
       end.

Lemma subtree_subs t u : subtree t u -> u ∈ subs t.
Proof.
  induction 1 as [[]|k t u _ IH|ts i t u Ht _ IH]; cbn; [constructor..|by apply elem_of_cons; right|].
  apply elem_of_cons; right. apply list_elem_of_In, in_concat. exists (subs t). split; [|by apply list_elem_of_In].
  apply in_map. apply list_elem_of_In. by eapply list_elem_of_lookup_2.
Qed.

Definition branchb (t : tree) : bool := match t with Short _ _ | Full _ => true | _ => false end.
Lemma branchb_ok t : is_branch t -> branchb t = true.
Proof. by destruct t. Qed.
Definition branches_of (t : tree) : list tree := List.filter branchb (subs t).
Lemma branches_of_ok t u : subtree t u -> is_branch u -> u ∈ branches_of t.
Proof. intros Hs Hb. apply list_elem_of_In, filter_In. split; [apply list_elem_of_In; by apply subtree_subs|by apply branchb_ok]. Qed.

Section checks.
Context (cr : Crypto).
Definition hashes_of (t : tree) : list (list byte) := map (root_bytes cr) (branches_of t).

Lemma hashes_distinct t : NoDup (hashes_of t) -> Forall (fun h => BytesToHash h <> 0 /\ BytesToHash h <> emptyRoot) (hashes_of t) -> distinct_hashes cr t.
Proof.
  intros Hnd Hz. split.
  - intros u w Hu Hw Hbu Hbw E. apply (branches_of_ok t u Hu), list_elem_of_lookup in Hbu as (i & Hi). apply (branches_of_ok t w Hw), list_elem_of_lookup in Hbw as (j & Hj).
    assert (i = j) as ->; [|congruence]. eapply (NoDup_lookup _ i j (root_bytes cr u) Hnd); unfold hashes_of; rewrite list_lookup_fmap; [by rewrite Hi|rewrite Hj; cbn; by rewrite E].
  - intros u Hu Hb. rewrite Forall_forall in Hz. apply Hz. apply list_elem_of_In, in_map, list_elem_of_In. by apply branches_of_ok.
Qed.
End checks.

(** ** Nodes without hashes *)

Fixpoint plain_tree (n : node) : option tree :=
  match n with
  | nilNode => Some Leafless
  | valueNode v => Some (Value v)
  | shortNode k n _ => t ← plain_tree n; Some (Short k t)
  | fullNode cs _ => ts ← mapM plain_tree cs; Some (Full ts)
  | hashNode _ => None
  end.

Lemma plain_rep {DB} `{NodeDatabaseLaws DB} cr (d : DB) b n t : rep cr d b n t -> forall t', plain_tree n = Some t' -> t = t'.
Proof.
  induction 1 as [| |b k n f t Hr IH Hf|b cs f ts Hl Hr IH Hf|]; intros t' E; cbn in E; [congruence..| | |done].
  - destruct (plain_tree n) as [u|]; [|done]. cbn in E. injection E as <-. f_equal. by apply IH.
  - destruct (mapM plain_tree cs) as [us|] eqn:Em; [|done]. cbn in E. injection E as <-. f_equal.
    apply mapM_Some in Em. apply list_eq_same_length with (length cs); [symmetry; by eapply Forall2_length|done|].
    intros i x y _ Hx Hy. destruct (Forall2_lookup_r _ _ _ i y Em Hy) as (c & Hc & Ec). by apply (IH i c x).
Qed.

(** ** The trie *)

Definition MemDb_ : Type := Database MemDatabase.
#[export] Instance mem_trie_laws : NodeDatabaseLaws MemDb_ := trie_database_laws mem_crypto mem_hash_length.

Definition ex_db : MemDb_ := NewDatabase NewMemDatabase.
Definition ex_empty : Trie MemDb_ := mkTrie ex_db nilNode 0 0.
Definition ex_key1 : list byte := map z2b [0x12; 0x34].
Definition ex_key2 : list byte := map z2b [0x12; 0x56].
Definition ex_val1 : list byte := replicate 40 (z2b 7).
Definition ex_val2 : list byte := replicate 41 (z2b 9).
Definition ex_map : kvmap := kv_update (kv_update (fun _ => None) ex_key1 ex_val1) ex_key2 ex_val2.

Definition ex_map' : kvmap := kv_update (kv_update (fun _ => None) ex_key2 ex_val2) ex_key1 ex_val1.

Definition ok_trie (o : outcome (option trieerror * Trie MemDb_)) : Trie MemDb_ := match o with Ok (_, t) => t | _ => ex_empty end.
Definition ex_trie : Trie MemDb_ := ok_trie (TryUpdate (ok_trie (TryUpdate ex_empty ex_key1 ex_val1)) ex_key2 ex_val2).
(** The same entries, the other way round. *)
Definition ex_trie' : Trie MemDb_ := ok_trie (TryUpdate (ok_trie (TryUpdate ex_empty ex_key2 ex_val2)) ex_key1 ex_val1).

Definition ex_tree : tree :=
  Short (map z2b [1; 2]) (Full (replicate 3 Leafless ++ [Short (map z2b [4; 16]) (Value ex_val1); Leafless; Short (map z2b [6; 16]) (Value ex_val2)] ++ replicate 11 Leafless)).

Lemma ex_empty_at : trie_at mem_crypto ex_empty (fun _ => None).
Proof.
  exists Leafless. split; [constructor|]. split; [by left|done|by intros h v _ E; destruct h|by intros h v _ E; destruct h].
Qed.
Lemma ex_db_ok : db_ok ex_db.
Proof.
  exists []. split; cbn.
  - constructor.
  - by apply not_elem_of_nil.
  - constructor.
  - intros h. rewrite lookup_singleton_is_Some. split; [by left|]. intros [->|?%not_elem_of_nil]; done.
  - done.
  - done.
  - done.
  - intros h n E. apply lookup_singleton_Some in E as [_ <-]. by eexists.
Qed.

Lemma trie_at_ext {DB} `{NodeDatabaseLaws DB} cr (t : Trie DB) M M' : (forall k, M k = M' k) -> trie_at cr t M -> trie_at cr t M'.
Proof. intros He (tr & Ht & [Hc Hct Hks Hb]). exists tr. split; [done|]. split; try done. intros k. by rewrite Hct. Qed.

Lemma ex_update t k v M : trie_at mem_crypto t M -> zlen k < 100 -> zlen v < 100 -> trie_at mem_crypto (ok_trie (TryUpdate t k v)) (kv_update M k v).
Proof. intros Ht Hk Hv. destruct (TryUpdate_at mem_crypto mem_hash_length t M k v Ht) as (t' & -> & ?); [lia|lia|done]. Qed.
Lemma ex_trie_at : trie_at mem_crypto ex_trie ex_map.
Proof. apply ex_update; [apply ex_update; [apply ex_empty_at|done|done]|done|done]. Qed.
Lemma ex_trie'_at : trie_at mem_crypto ex_trie' ex_map'.
Proof. apply ex_update; [apply ex_update; [apply ex_empty_at|done|done]|done|done]. Qed.
Lemma ex_maps k : ex_map' k = ex_map k.
Proof.
  unfold ex_map, ex_map', kv_update. destruct (decide (k = ex_key1)) as [E1|], (decide (k = ex_key2)) as [E2|]; try done. rewrite E1 in E2. discriminate E2.
Qed.

Lemma ex_trie_tree : trie_tree mem_crypto ex_trie ex_tree /\ holds_map ex_tree ex_map.
Proof.
  destruct ex_trie_at as (tr & Hr & Hm). assert (tr = ex_tree) as ->; [|done]. apply (plain_rep _ _ _ _ _ Hr). vm_compute. reflexivity.
Qed.
Lemma ex_trie'_tree : trie_tree mem_crypto ex_trie' ex_tree /\ holds_map ex_tree ex_map'.
Proof.
  destruct ex_trie'_at as (tr & Hr & Hm). assert (tr = ex_tree) as ->; [|done]. apply (plain_rep _ _ _ _ _ Hr). vm_compute. reflexivity.
Qed.
Lemma ex_inner : inner ex_tree.
Proof. by destruct (hm_canonical _ _ (proj2 ex_trie_tree)). Qed.
Lemma ex_bounded : bounded ex_tree.
Proof. apply ex_trie_tree. Qed.

Lemma ex_distinct : distinct_hashes mem_crypto ex_tree.
Proof.
  apply hashes_distinct.
  - apply (bool_decide_unpack _). vm_compute. exact I.
  - apply (bool_decide_unpack _). vm_compute. exact I.
Qed.
Lemma ex_db_absent (h : Hash) : h <> 0 -> db_absent ex_db h.
Proof. intros Hh g. cbn. unfold node_. cbn. by rewrite lookup_singleton_ne. Qed.
Lemma ex_ready : ready mem_crypto (db ex_trie) ex_tree.
Proof.
  assert (db ex_trie = ex_db) as -> by (vm_compute; reflexivity). split; [apply ex_db_ok|apply ex_distinct|]. intros u Hu Hb. left.
  destruct (dh_zero _ _ ex_distinct u Hu Hb) as [Hz _]. by apply ex_db_absent.
Qed.

(** ** The trie, committed *)

Section acyclic.
Context (rank : Hash -> nat).
Definition ranked_entry (e : Hash * cachedNode) : bool :=
  (fst e =? 0) || match childs (snd e) with
                  | Ok cs => forallb (fun c => negb (c =? 0) && Nat.ltb (rank c) (rank (fst e))) cs
                  | _ => true
                  end.
Lemma ranked_check ds : forallb ranked_entry (map_to_list ds) = true -> ranked rank ds.
Proof.
  intros Hall h n cs c Hh Hn Hcs Hc. rewrite forallb_forall in Hall. specialize (Hall (h, n)). unfold ranked_entry in Hall. cbn [fst snd] in Hall. rewrite Hcs in Hall.
  rewrite (proj2 (Z.eqb_neq _ _)) in Hall by done. cbn [orb] in Hall. rewrite forallb_forall in Hall.
  destruct (andb_prop _ _ (Hall ltac:(by apply list_elem_of_In, elem_of_map_to_list) c ltac:(by apply list_elem_of_In))) as [Hz Hlt].
  split; [by apply negb_true_iff, Z.eqb_neq in Hz|by apply Nat.ltb_lt].
Qed.
End acyclic.

Definition is_someb {A} (o : option A) : bool := match o with Some _ => true | None => false end.
Lemma closed_check {D} `{KeyValue D} cr (d : Database D) tr :
  forallb (fun u => is_someb (dirties d !! BytesToHash (root_bytes cr u))) (branches_of tr) = true -> disk_closed cr d tr.
Proof.
  intros Hall u Hu Hi _ Hn. rewrite forallb_forall in Hall. specialize (Hall u). rewrite Hn in Hall.
  by specialize (Hall ltac:(by apply list_elem_of_In, branches_of_ok, inner_branch)).
Qed.

Definition ex_root : Hash := match Trie.Commit mem_crypto ex_trie None with Ok (h, _) => h | _ => 0 end.
Definition ex_after : Trie MemDb_ := match Trie.Commit mem_crypto ex_trie None with Ok (_, t) => t | _ => ex_empty end.
Definition ex_rank (h : Hash) : nat :=
  if h =? ex_root then 3
  else if h =? BytesToHash (root_bytes mem_crypto (match ex_tree with Short _ u => u | u => u end)) then 2 else 1.

Lemma no_leaf_ok : leaf_ok (None : option (LeafCallback (DB := MemDb_))).
Proof. by intros f d v h E. Qed.
Lemma ex_commit_ok : Trie.Commit mem_crypto ex_trie None = Ok (ex_root, ex_after) /\ db_ok (db ex_after) /\ is_word ex_root.
Proof.
  destruct (Commit_at mem_crypto mem_hash_length ex_trie ex_tree ex_map None (proj1 ex_trie_tree) (proj2 ex_trie_tree) no_leaf_ok ex_ready)
    as (t' & E & _ & _ & [Hok _ _] & _).
  unfold ex_root, ex_after. rewrite E. split; [reflexivity|]. split; [exact Hok|apply BytesToHash_word].
Qed.
Lemma ex_ranked : ranked ex_rank (dirties (db ex_after)).
Proof. apply ranked_check. vm_compute. reflexivity. Qed.
Lemma ex_closed : disk_closed mem_crypto (db ex_after) ex_tree.
Proof. apply closed_check. vm_compute. reflexivity. Qed.
Lemma ex_rank_root : (ex_rank ex_root <= size (dirties (db ex_after)))%nat.
Proof. apply Nat.leb_le. vm_compute. reflexivity. Qed.
Lemma ex_after_linked : exists l, linked (db ex_after) l [].
Proof. apply ex_commit_ok. Qed.
