(* ===== verification/TrieProperties.v ===== *)
(** * What the trie guarantees

    The trie is a map whose root hash is a function of its content and, as long as
    the hash does not collide, determines it; committed tries come back, from the
    cache and from disk; proofs prove what the trie holds; and the node database
    keeps its flush list in order and loses no node. *)
From S2P Require Import Prelude CommonMath RlpEncode RlpDecode RlpFacts Opcodes VmBase VmInterface MemDb.
From S2P Require Import TrieEncoding TrieTree TrieNode TrieModel TrieRep TrieFacts TrieHash TrieDecode TrieCommit TrieTheorems.
From S2P Require Import TrieProof TrieProofFacts CanDb TrieDatabase TrieDbFacts TrieDbCommit TrieDbCap TrieBind TrieExample.
From stdpp Require Import base numbers list gmap.
From Stdlib Require Import ZArith Lia.
#[local] Open Scope Z_scope.

Import Trie Proof.

(** ** The trie is a map *)

(** C2. The trie refines a map from keys to values.  On a trie that stands for a map,
    [TryGet] gives the value of the key in the map, [TryUpdate] stands for the map
    with the new value (or without the key, when the value is empty) and [TryDelete]
    for the map without the key; none of them fails, panics or runs out of fuel, and
    resolving nodes from the database on the way changes nothing. *)
Theorem trie_refines_map {DB} `{NodeDatabaseLaws DB} cr (Hk : forall x, zlen (keccak256 cr x) = 32) (t : Trie DB) (M : kvmap) (Ht : trie_at cr t M) :
  (forall key, exists t', TryGet t key = Ok (Good (M key), t') /\ trie_at cr t' M) /\
  (forall key v, zlen key < 2 ^ 31 - 1 -> zlen v < 2 ^ 32 -> exists t', TryUpdate t key v = Ok (None, t') /\ trie_at cr t' (kv_update M key v)) /\
  (forall key, exists t', TryDelete t key = Ok (None, t') /\ trie_at cr t' (kv_update M key [])).
Proof.
  split; [|split].
  - intros key. by apply TryGet_at.
  - intros key v. by apply TryUpdate_at.
  - intros key. by apply TryDelete_at.
Qed.

Lemma trie_refines_map_witness : exists t', TryGet ex_trie ex_key1 = Ok (Good (Some ex_val1), t') /\ trie_at mem_crypto t' ex_map.
Proof. apply (trie_refines_map mem_crypto mem_hash_length ex_trie ex_map ex_trie_at). Defined.

(** C7. The root hash depends on the content alone: two tries that stand for the same
    map have the same hash, whatever updates and deletions they went through, whatever
    they have cached and whatever databases they live in; hashing changes neither map. *)
Theorem Hash_canonical {DB1 DB2} `{NodeDatabaseLaws DB1} `{NodeDatabaseLaws DB2} cr (Hk : forall x, zlen (keccak256 cr x) = 32)
    (t1 : Trie DB1) (t2 : Trie DB2) (M : kvmap) (Ht1 : trie_at cr t1 M) (Ht2 : trie_at cr t2 M) :
  exists h t1' t2', Hash_ cr t1 = Ok (h, t1') /\ Hash_ cr t2 = Ok (h, t2') /\ trie_at cr t1' M /\ trie_at cr t2' M.
Proof.
  destruct Ht1 as (tr & Hr1 & Hm), Ht2 as (tr2 & Hr2 & Hm2). pose proof (holds_map_unique _ _ _ Hm Hm2) as <-.
  destruct (Hash_at cr Hk t1 tr M Hr1 Hm) as (t1' & E1 & Hr1'), (Hash_at cr Hk t2 tr M Hr2 Hm) as (t2' & E2 & Hr2').
  exists (merkle_root cr tr), t1', t2'. split; [done|]. split; [done|]. split; by exists tr.
Qed.

Lemma Hash_canonical_witness : exists h t1 t2, Hash_ mem_crypto ex_trie = Ok (h, t1) /\ Hash_ mem_crypto ex_trie' = Ok (h, t2) /\
  trie_at mem_crypto t1 ex_map /\ trie_at mem_crypto t2 ex_map.
Proof. exact (Hash_canonical mem_crypto mem_hash_length ex_trie ex_trie' ex_map ex_trie_at (trie_at_ext _ _ _ _ ex_maps ex_trie'_at)). Defined.

(** C8. The root hash determines the content: two tries with the same root hash stand
    for the same map, unless two different nodes of theirs have the same hash or a
    non-empty one has the hash of the empty trie. *)
Theorem Hash_binding {DB1 DB2} `{NodeDatabaseLaws DB1} `{NodeDatabaseLaws DB2} cr (Hk : forall x, zlen (keccak256 cr x) = 32)
    (t1 t1' : Trie DB1) (t2 t2' : Trie DB2) tr1 tr2 (M1 M2 : kvmap) h
    (Ht1 : trie_tree cr t1 tr1) (Hm1 : holds_map tr1 M1) (Ht2 : trie_tree cr t2 tr2) (Hm2 : holds_map tr2 M2) (Hnc : no_collision cr tr1 tr2)
    (He1 : inner tr1 -> merkle_root cr tr1 <> emptyRoot) (He2 : inner tr2 -> merkle_root cr tr2 <> emptyRoot)
    (E1 : Hash_ cr t1 = Ok (h, t1')) (E2 : Hash_ cr t2 = Ok (h, t2')) : forall key, M1 key = M2 key.
Proof.
  destruct (Hash_at cr Hk t1 tr1 M1 Ht1 Hm1) as (t & Et & _). rewrite E1 in Et. injection Et as -> _.
  destruct (Hash_at cr Hk t2 tr2 M2 Ht2 Hm2) as (t' & Et & _). rewrite E2 in Et. injection Et as Em _.
  assert (tr1 = tr2) as <- by (apply (merkle_bind cr Hk); try done; [apply Hm1|apply Hm1|apply Hm2|apply Hm2]).
  intros key. by rewrite <- (hm_content _ _ Hm1), (hm_content _ _ Hm2).
Qed.

Lemma Hash_binding_witness : exists h t t', Hash_ mem_crypto ex_trie = Ok (h, t) /\ Hash_ mem_crypto ex_trie' = Ok (h, t') /\
  ex_map ex_key1 = ex_map' ex_key1.
Proof.
  destruct ex_trie_tree as [Ht Hm], ex_trie'_tree as [Ht' Hm'].
  destruct (Hash_at mem_crypto mem_hash_length _ _ _ Ht Hm) as (t1 & E1 & _), (Hash_at mem_crypto mem_hash_length _ _ _ Ht' Hm') as (t2 & E2 & _).
  assert (inner ex_tree -> merkle_root mem_crypto ex_tree <> emptyRoot) as Hne by (intros _; apply (dh_zero _ _ ex_distinct ex_tree (sub_refl _) I)).
  exists (merkle_root mem_crypto ex_tree), t1, t2. split; [exact E1|]. split; [exact E2|].
  refine (Hash_binding mem_crypto mem_hash_length ex_trie t1 ex_trie' t2 ex_tree ex_tree ex_map ex_map' _ Ht Hm Ht' Hm' _ Hne Hne E1 E2 ex_key1).
  intros x y Hx Hy Hbx Hby Er. by rewrite (dh_inj _ _ ex_distinct x y Hx Hy Hbx Hby Er).
Defined.

(** ** Committing and reopening *)

(** [Commit] followed by [New] with the hash it returned gives back the map.  The
    committed trie still stands for it, and what any trie over the database stood for
    before, it stands for after.  [ready]: the nodes of the trie have distinct hashes,
    none of them zero, and the database holds no other node under one of them. *)
Theorem Commit_New {DB} `{NodeDatabaseLaws DB} cr (Hk : forall x, zlen (keccak256 cr x) = 32) (t : Trie DB) tr (M : kvmap) onleaf
    (Ht : trie_tree cr t tr) (Hm : holds_map tr M) (Hl : leaf_ok onleaf) (Hr : ready cr (db t) tr) :
  exists h t' t'', Commit cr t onleaf = Ok (h, t') /\ New h (db t') = Ok (Good t'') /\ trie_at cr t' M /\ trie_at cr t'' M /\
    forall b n u, rep cr (db t) b n u -> rep cr (db t') b n u.
Proof.
  destruct (Commit_at cr Hk t tr M onleaf Ht Hm Hl Hr) as (t' & E & Ht' & Hg & [_ Hdh _] & Hheld).
  destruct (New_at cr Hk (db t') tr) as (t'' & E' & Ht'' & _); [apply Hm|intros Hn; split; [by apply Hheld|done]|].
  exists (merkle_root cr tr), t', t''. split; [done|]. split; [done|]. split; [by exists tr|]. split; [by exists tr|].
  intros b n u. by apply rep_grows.
Qed.

Lemma Commit_New_witness : exists h t' t'', Commit mem_crypto ex_trie None = Ok (h, t') /\ New h (db t') = Ok (Good t'') /\
  trie_at mem_crypto t' ex_map /\ trie_at mem_crypto t'' ex_map.
Proof.
  destruct ex_trie_tree as [Ht Hm].
  destruct (Commit_New mem_crypto mem_hash_length ex_trie ex_tree ex_map None Ht Hm no_leaf_ok ex_ready) as (h & t' & t'' & E1 & E2 & H1 & H2 & _).
  exists h, t', t''. exact (conj E1 (conj E2 (conj H1 H2))).
Defined.

(** C17. A trie that is not empty survives a restart.  After [Trie.Commit] and [Database.Commit] of the
    root, [New] over a fresh node database on the disk finds the same map.  [ranked]:
    no node of the cache is below itself, the rank giving an order; [disk_closed]: what
    the cache does not have of the trie is on disk with everything below it. *)
Theorem trie_survives_restart {D} `{KeyValueLaws D} cr (Hk : forall x, zlen (keccak256 cr x) = 32) (rank : Hash -> nat)
    (t t' : Trie (TrieDb.Database D)) tr (M : kvmap) onleaf h (laws := trie_database_laws cr Hk)
    (Ht : trie_tree cr t tr) (Hm : holds_map tr M) (Hi : inner tr) (Hl : leaf_ok onleaf) (Hr : ready cr (db t) tr)
    (E : Commit cr t onleaf = Ok (h, t')) (Hrank : ranked rank (TrieDb.dirties (db t'))) (Hle : (rank h <= size (TrieDb.dirties (db t')))%nat)
    (Hclosed : disk_closed cr (db t') tr) :
  exists db' t'', TrieDb.Commit (db t') h = Ok (None, db') /\ New h (TrieDb.NewDatabase (TrieDb.diskdb db')) = Ok (Good t'') /\ trie_at cr t'' M.
Proof.
  destruct (Commit_at cr Hk t tr M onleaf Ht Hm Hl Hr) as (t1 & E1 & Ht1 & _ & [(l & Hlk) Hdh _] & Hheld). rewrite E1 in E. injection E as <- <-.
  specialize (Hheld (inner_not_empty _ Hi)). assert (merkle_root cr tr = BytesToHash (root_bytes cr tr)) as Em by (by destruct Hi). rewrite Em in *.
  destruct (Commit_persists cr Hk rank (db t1) l tr Hlk Hrank Hle Hi (hm_bounded _ _ Hm) Hdh Hheld Hclosed) as (db' & Ec & _ & Hdisk).
  destruct (New_at cr Hk (TrieDb.NewDatabase (TrieDb.diskdb db')) tr (or_intror Hi)) as (t'' & En & Ht'' & _); [done|]. rewrite Em in En.
  exists db', t''. split; [done|]. split; [done|]. by exists tr.
Qed.

Lemma trie_survives_restart_witness : exists db' t'', TrieDb.Commit (db ex_after) ex_root = Ok (None, db') /\
  New ex_root (TrieDb.NewDatabase (TrieDb.diskdb db')) = Ok (Good t'') /\ trie_at mem_crypto t'' ex_map.
Proof.
  destruct ex_trie_tree as [Ht Hm].
  exact (trie_survives_restart mem_crypto mem_hash_length ex_rank ex_trie ex_after ex_tree ex_map None ex_root Ht Hm ex_inner no_leaf_ok ex_ready
    (proj1 ex_commit_ok) ex_ranked ex_rank_root ex_closed).
Defined.

(** ** Proofs *)

(** C21. Verification is sound: when [VerifyProof] against the root hash of a trie
    ends without error, the value it gives is that of the key in the trie, and none
    when the trie has none, whatever else the proof database holds, as long as it
    files blobs under their hashes and none of them collides with a node. *)
Theorem VerifyProof_sound cr (Hk : forall x, zlen (keccak256 cr x) = 32) proofDb tr (M : kvmap) fuel key v n
    (Hm : holds_map tr M) (Hi : inner tr) (Hp : honest cr proofDb tr) (E : VerifyProof fuel (merkle_root cr tr) key proofDb = Ok (v, n, None)) : v = M key.
Proof.
  unfold VerifyProof in E. assert (merkle_root cr tr = BytesToHash (root_bytes cr tr)) as Em by (by destruct Hi). rewrite Em, (Hash_Bytes_root cr Hk) in E.
  rewrite <- (hm_content _ _ Hm). eapply (verify_sound cr Hk proofDb tr); try done; [apply Hm|constructor|apply keybytesToHex_terminated].
Qed.

(** C20. Proofs are complete: for every key and a trie that is not empty and whose nodes
    have distinct hashes, [Prove] gives a proof with which
    [VerifyProof] ends without error and with the value of the key in the trie, or
    with none when the key is absent; the key's length in nibbles bounds the number
    of nodes visited. *)
Theorem Prove_VerifyProof {DB} `{NodeDatabaseLaws DB} cr (Hk : forall x, zlen (keccak256 cr x) = 32) (t : Trie DB) tr (M : kvmap) key fuel
    (Ht : trie_tree cr t tr) (Hm : holds_map tr M) (Hi : inner tr) (Hd : distinct_hashes cr tr) (Hf : (2 * length key + 1 < fuel)%nat) :
  exists puts n, Prove cr t key 0 = Ok (None, puts) /\ VerifyProof fuel (merkle_root cr tr) key (proof_db puts) = Ok (M key, n, None).
Proof.
  destruct (Prove_ok cr Hk (db t) t tr key eq_refl Ht Hi (hm_bounded _ _ Hm) Hd) as (puts & E & Hho & Hroot & Hcov).
  destruct (verify_complete cr Hk (proof_db puts) tr Hho Hi (hm_bounded _ _ Hm) fuel tr (keybytesToHex key) 0%nat) as (n & Ev); try done.
  { constructor. }
  { apply keybytesToHex_terminated. }
  { pose proof (hex_digits_len key) as Hlen. unfold keybytesToHex. rewrite length_app. unfold zlen in Hlen. cbn [length]. lia. }
  exists puts, n. split; [done|]. unfold VerifyProof. assert (merkle_root cr tr = BytesToHash (root_bytes cr tr)) as -> by (by destruct Hi).
  by rewrite (Hash_Bytes_root cr Hk), Ev, (hm_content _ _ Hm).
Qed.

Lemma Prove_VerifyProof_witness : exists puts n, Prove mem_crypto ex_trie ex_key1 0 = Ok (None, puts) /\
  VerifyProof 10 (merkle_root mem_crypto ex_tree) ex_key1 (proof_db puts) = Ok (Some ex_val1, n, None).
Proof.
  destruct ex_trie_tree as [Ht Hm]. apply (Prove_VerifyProof mem_crypto mem_hash_length ex_trie ex_tree ex_map ex_key1 10 Ht Hm ex_inner ex_distinct).
  cbn. lia.
Defined.

Lemma VerifyProof_sound_witness : exists puts v n, VerifyProof 10 (merkle_root mem_crypto ex_tree) ex_key2 (proof_db puts) = Ok (v, n, None) /\ v = ex_map ex_key2.
Proof.
  destruct ex_trie_tree as [Ht Hm].
  destruct (Prove_ok mem_crypto mem_hash_length (db ex_trie) ex_trie ex_tree ex_key2 eq_refl Ht ex_inner ex_bounded ex_distinct) as (puts & E & Hho & Hroot & Hcov).
  destruct (verify_complete mem_crypto mem_hash_length (proof_db puts) ex_tree Hho ex_inner ex_bounded 10 ex_tree (keybytesToHex ex_key2) 0%nat
    (sub_refl _) ex_inner (keybytesToHex_terminated _) Hroot Hcov ltac:(cbn; lia)) as (n & Ev).
  exists puts, (tget ex_tree (keybytesToHex ex_key2)), n.
  assert (VerifyProof 10 (merkle_root mem_crypto ex_tree) ex_key2 (proof_db puts) = Ok (tget ex_tree (keybytesToHex ex_key2), n, None)) as Ev'.
  { unfold VerifyProof. change (merkle_root mem_crypto ex_tree) with (BytesToHash (root_bytes mem_crypto ex_tree)).
    rewrite (Hash_Bytes_root mem_crypto mem_hash_length). exact Ev. }
  split; [exact Ev'|]. exact (VerifyProof_sound mem_crypto mem_hash_length (proof_db puts) ex_tree ex_map 10 ex_key2 _ n Hm ex_inner Hho Ev').
Defined.

(** ** Node encodings *)

(** A node read back is the node that was written: the encoding of a node whose
    children are replaced by their references, as the hasher stores it, exists, and
    [decodeNode] gives back the node of the same tree, with the given hash and
    generation in its cache flags. *)
Theorem decodeNode_roundtrip cr (Hk : forall x, zlen (keccak256 cr x) = 32) c t h g (Hi : inner t) (Hb : bounded t) (Hc : collapses cr c t) :
  exists blob, EncodeToBytes (node_val c) = Good blob /\ decodeNode h blob g = Ok (Good (load cr h g t)).
Proof. eexists. split; [by apply (encode_node cr Hk)|by apply decodeNode_ok]. Qed.

Lemma decodeNode_roundtrip_witness : exists blob, EncodeToBytes (node_val (shortNode (compact (keybytesToHex ex_key1)) (valueNode ex_val1) (mkFlag None 0 true))) = Good blob /\
  decodeNode None blob 3 = Ok (Good (shortNode (keybytesToHex ex_key1) (valueNode ex_val1) (mkFlag None 3 false))).
Proof.
  refine (decodeNode_roundtrip mem_crypto mem_hash_length _ (Short (keybytesToHex ex_key1) (Value ex_val1)) None 3 _ _ _).
  - apply inner_leaf; [|discriminate]. apply (bool_decide_unpack _). vm_compute. exact I.
  - intros k v _ E. rewrite tget_leaf_iff in E. destruct (decide _) as [->|] in E; [|discriminate E]. injection E as <-. split; reflexivity.
  - by apply collapses_short.
Defined.

(** A proof node can crash the verifier: the three bytes [c2 80 80] are a short
    node with an empty key, on which [compactToHex] slices past the end, so that
    [VerifyProof] panics instead of reporting a bad proof node. *)
Theorem VerifyProof_panics fuel rootHash key : VerifyProof (S fuel) rootHash key (fun _ => Some (map z2b [0xc2; 0x80; 0x80])) = Panic.
Proof. unfold VerifyProof. cbn [VerifyProof_loop]. generalize (Hash_Bytes rootHash) as w. intros w. reflexivity. Qed.

(** ** The node database *)

(** C32. The flush list stays a doubly linked list of exactly the cached nodes under
    every operation of the node database that changes it: inserting a node or a blob,
    adding a reference from a cached node or the root set, dropping the reference to a
    root, committing a root and making room.  None of them panics on such a cache, and
    the garbage collector and the commit end when no node is below itself. *)
Theorem flush_list_invariant {D} `{KeyValueLaws D} (rank : Hash -> nat) (db : TrieDb.Database D) l (Hl : linked db l []) :
  (forall (h : Hash) blob n r hs, is_word h -> h <> 0 -> simplifyNode n = Ok r -> gatherChildren r = Ok hs -> exists db' l', TrieDb.insert db h blob n = Ok db' /\ linked db' l' []) /\
  (forall (h : Hash) blob, is_word h -> h <> 0 -> exists db' l', TrieDb.InsertBlob db h blob = Ok db' /\ linked db' l' []) /\
  (forall child parent : Hash, is_Some (TrieDb.dirties db !! parent) -> exists db', TrieDb.reference db child parent = Ok db' /\ linked db' l []) /\
  (forall limit, exists db' l1 l2, TrieDb.Cap db limit = Ok (None, db') /\ l = l1 ++ l2 /\ linked db' l2 []) /\
  (ranked rank (TrieDb.dirties db) -> forall root : Hash, (rank root <= size (TrieDb.dirties db))%nat ->
    (exists db' l', TrieDb.Dereference db root = Ok db' /\ linked db' l' []) /\
    (root <> 0 -> exists db' l', TrieDb.Commit db root = Ok (None, db') /\ linked db' l' [])).
Proof.
  split; [|split; [|split; [|split]]].
  - intros h blob n r hs Hw Hz Es Eg. unfold TrieDb.insert. rewrite Es. cbn [obind]. destruct (TrieDb.dirties db !! h) as [m|] eqn:En; [by exists db, l|].
    destruct (childs_gather r (zlen blob mod 2 ^ 16) (TrieDb.newest db) hs Eg) as (cs & Ec).
    destruct (insert_linked db l h blob r cs Hl Hw Hz En Ec) as (db' & E & Hl' & _). by exists db', (l ++ [h]).
  - intros h blob Hw Hz. unfold TrieDb.InsertBlob. destruct (TrieDb.dirties db !! h) as [m|] eqn:En; [exists db, l; unfold TrieDb.insert_raw; by rewrite En|].
    destruct (insert_linked db l h blob (rawNode blob) _ Hl Hw Hz En eq_refl) as (db' & E & Hl' & _). by exists db', (l ++ [h]).
  - intros child parent Hp. destruct (reference_linked db l child parent Hl Hp) as (db' & E & Hl' & _). by exists db'.
  - intros limit. destruct (Cap_keeps rank db l limit Hl) as (db' & l1 & l2 & E & El & Hl' & _). by exists db', l1, l2.
  - intros Hr root Hle. split.
    + destruct (Dereference_linked rank db l root Hl Hr Hle) as (db' & l' & E & Hl' & _). by exists db', l'.
    + intros Hz. destruct (Commit_keeps rank db l root Hl Hr Hz Hle) as (db' & l' & E & Hl' & _). by exists db', l'.
Qed.

Lemma flush_list_invariant_witness : exists l db' l', linked (db ex_after) l [] /\ TrieDb.Dereference (db ex_after) ex_root = Ok db' /\ linked db' l' [].
Proof.
  destruct ex_after_linked as (l & Hl). destruct (flush_list_invariant ex_rank (db ex_after) l Hl) as (_ & _ & _ & _ & Hroots).
  destruct (Hroots ex_ranked ex_root ex_rank_root) as [(db' & l' & E & Hl') _]. exists l, db', l'. exact (conj Hl (conj E Hl')).
Defined.

(** C33. Committing and making room lose nothing: whatever the blob under a hash was
    before, in the cache or on disk, it is the same after [Commit] and after [Cap].
    After [Cap] the cache takes at most the given number of bytes, or is empty. *)
Theorem Commit_Cap_keep_nodes {D} `{KeyValueLaws D} (rank : Hash -> nat) (db : TrieDb.Database D) l (Hl : linked db l []) :
  (forall root : Hash, ranked rank (TrieDb.dirties db) -> root <> 0 -> (rank root <= size (TrieDb.dirties db))%nat ->
    exists db', TrieDb.Commit db root = Ok (None, db') /\ forall h : Hash, is_word h -> TrieDb.Node_ db' h = TrieDb.Node_ db h) /\
  (forall limit, exists db', TrieDb.Cap db limit = Ok (None, db') /\ (forall h : Hash, is_word h -> TrieDb.Node_ db' h = TrieDb.Node_ db h) /\
    (fst (TrieDb.Size db') <= limit \/ TrieDb.Nodes db' = [])).
Proof.
  split.
  - intros root Hr Hz Hle. destruct (Commit_keeps rank db l root Hl Hr Hz Hle) as (db' & l' & E & _ & Hn). by exists db'.
  - intros limit. destruct (Cap_keeps rank db l limit Hl) as (db' & l1 & l2 & E & _ & Hl' & Hn & Hs). exists db'. split; [done|]. split; [done|].
    destruct Hs as [?| ->]; [by left|right]. by apply no_nodes.
Qed.

Lemma Commit_Cap_keep_nodes_witness : exists db', TrieDb.Cap (db ex_after) 100 = Ok (None, db') /\ TrieDb.Node_ db' ex_root = TrieDb.Node_ (db ex_after) ex_root.
Proof.
  destruct ex_after_linked as (l & Hl). destruct (Commit_Cap_keep_nodes ex_rank (db ex_after) l Hl) as [_ Hcap].
  destruct (Hcap 100) as (db' & E & Hn & _). exists db'. split; [exact E|]. apply Hn. apply ex_commit_ok.
Defined.

(** The accounted size of the cache is wrong for large blobs: [insert] adds up
    the size of an entry in 16 bits, so that a blob of 65504 bytes counts nothing when
    it is put in, while the garbage collector takes off the full 65536 bytes: the empty
    cache is then left with a negative size. *)
Theorem size_accounting_wraps {D} `{KeyValue D} (disk : D) blob (Hb : zlen blob = 65504) :
  exists db1 db2, TrieDb.InsertBlob (TrieDb.NewDatabase disk) 1 blob = Ok db1 /\ TrieDb.Size db1 = (64, 0) /\
    TrieDb.Dereference db1 1 = Ok db2 /\ TrieDb.Nodes db2 = [] /\ TrieDb.Size db2 = (-65536, 0).
Proof.
  unfold TrieDb.InsertBlob, TrieDb.insert_raw. cbv zeta. rewrite Hb.
  eexists _, _. split; [vm_compute; reflexivity|]. split; [vm_compute; reflexivity|]. split; [vm_compute; reflexivity|]. by split; vm_compute.
Qed.

Lemma size_accounting_wraps_witness : exists db1 db2, TrieDb.InsertBlob ex_db 1 (replicate (Z.to_nat 65504) Byte.x00) = Ok db1 /\ TrieDb.Size db1 = (64, 0) /\
  TrieDb.Dereference db1 1 = Ok db2 /\ TrieDb.Nodes db2 = [] /\ TrieDb.Size db2 = (-65536, 0).
Proof. apply (size_accounting_wraps NewMemDatabase). unfold zlen. rewrite length_replicate. apply Z2Nat.id. lia. Defined.
