(* ===== verification/DeriveSha.v ===== *)
(** * Roots of lists ([kernel/types/derive_sha.go])

    [DeriveSha] puts the encodings of the items of a list into a trie without a
    database, under the encodings of their indices.  The root binds the list. *)
From S2P Require Import Prelude CommonMath RlpEncode RlpDecode RlpFacts Opcodes VmBase VmInterface RlpTyped ChainTypes ChainFacts.
From S2P Require Import TrieEncoding TrieTree TrieNode TrieModel TrieRep TrieFacts TrieHash TrieDecode TrieCommit TrieTheorems.
From S2P Require Import TrieBind TrieExample MemDb StateAccount.
From stdpp Require Import base numbers list.
From Stdlib Require Import ZArith Lia.
#[local] Open Scope Z_scope.
Import Trie.

(** A trie made with [new(trie.Trie)] has a nil database: looking into it panics. *)
Inductive NilDb : Type := nil_db.
#[export] Instance nil_database : NodeDatabase NilDb := {| db_node _ _ _ := Panic; db_insert _ _ _ _ := Panic |}.

(** Nothing is ever put in it, so that it is held to nothing. *)
#[export] Instance nil_database_laws : NodeDatabaseLaws NilDb.
Proof. refine {| db_ok _ := False; db_holds _ _ _ := False |}; [done|done]. Defined.

Definition new_trie : Trie NilDb := mkTrie nil_db nilNode 0 0.

(** [Transactions.GetRlp] drops an error, [Receipts.GetRlp] panics on it. *)
Definition Transactions_GetRlp (tx : Transaction) : outcome (list byte) :=
  match EncodeToBytes (rlp_val tx) with Good enc => Ok enc | Err _ => Ok [] end.
Definition Receipts_GetRlp (r : Receipt) : outcome (list byte) :=
  match EncodeToBytes (rlp_val r) with Good bytes => Ok bytes | Err _ => Panic end.

Section derive.
Context (cr : Crypto) {A : Type} (GetRlp : A -> outcome (list byte)).

Definition index_key (i : Z) : list byte := match EncodeToBytes (VUint i) with Good b => b | Err _ => [] end.

(** The loop of [DeriveSha]; [Update] only logs an error. *)
Fixpoint derive_loop (i : Z) (items : list A) (t : Trie NilDb) : outcome (Trie NilDb) :=
  match items with
  | [] => Ok t
  | x :: items =>
      let! enc := GetRlp x in
      let! (_, t) := TryUpdate t (index_key i) enc in
      derive_loop (i + 1) items t
  end.

Definition DeriveSha (items : list A) : outcome Hash :=
  let! t := derive_loop 0 items new_trie in
  let! (h, _) := Hash_ cr t in
  Ok h.

(** The tree that the loop builds and the encodings of its nodes. *)
Definition items_tree (items : list A) : tree :=
  match derive_loop 0 items new_trie with Ok t => default Leafless (plain_tree (root t)) | _ => Leafless end.
Definition items_nodes (items : list A) : list (list byte) := map (fun u => enc_val (expanded cr u)) (branches_of (items_tree items)).
End derive.

Definition EmptyRootHash (cr : Crypto) : outcome Hash := DeriveSha cr Transactions_GetRlp [].

(** ** The keys *)

Lemma index_key_enc i : is_u64 i -> index_key i = enc_str (big_Bytes i) /\ zlen (index_key i) <= 100.
Proof.
  intros Hi. assert (zlen (big_Bytes i) <= 8) as Hl.
  { apply zlen_big_Bytes; [|lia]. unfold is_u64, MaxUint64 in Hi. cbn. lia. }
  pose proof (zlen_enc_str_le (big_Bytes i) ltac:(lia)) as Hle. unfold index_key.
  rewrite EncodeToBytes_spec; [|done|cbn [enc_val]; unfold MaxUint64; lia]. cbn [enc_val]. split; [done|lia].
Qed.

Lemma index_key_inj i j : is_u64 i -> is_u64 j -> index_key i = index_key j -> i = j.
Proof.
  intros Hi Hj E. destruct (index_key_enc i Hi) as [Ei Li], (index_key_enc j Hj) as [Ej Lj].
  destruct (@rlp_roundtrip Z uint64_rlp uint64_laws i Hi) as (b & _ & Eb & Db); [cbn; rewrite <- Ei; unfold MaxUint64; lia|].
  destruct (@rlp_roundtrip Z uint64_rlp uint64_laws j Hj) as (c & _ & Ec & Dc); [cbn; rewrite <- Ej; unfold MaxUint64; lia|].
  cbn [rlp_val uint64_rlp enc_val] in Eb, Ec. rewrite Ei, Ej, <- Eb, <- Ec in E. congruence.
Qed.

(** ** The content of the trie *)

(** The map that the loop builds from [M], starting at index [i]. *)
Fixpoint indexed (i : Z) (items : list (list byte)) (M : kvmap) : kvmap :=
  match items with
  | [] => M
  | x :: items => indexed (i + 1) items (kv_update M (index_key i) x)
  end.

Lemma indexed_spec items : forall i M, 0 <= i -> i + zlen items <= MaxUint64 -> Forall (fun x => x <> []) items -> forall j, is_u64 j ->
  indexed i items M (index_key j) = if decide (i <= j < i + zlen items) then items !! Z.to_nat (j - i) else M (index_key j).
Proof.
  induction items as [|x items IH]; intros i M Hi Hm Hne j Hj; cbn [indexed].
  { rewrite decide_False; [done|]. change (zlen (@nil (list byte))) with 0. lia. }
  inversion_clear Hne as [|? ? Hx Hxs]. rewrite zlen_cons in *. pose proof (zlen_nonneg items). rewrite IH by (done || lia).
  destruct (decide (j = i)) as [->|Hji].
  - rewrite decide_False by lia. rewrite decide_True by lia. rewrite Z.sub_diag. cbn. unfold kv_update. rewrite decide_True by done. by destruct x.
  - assert (index_key j <> index_key i) as Hk by (intros E; apply index_key_inj in E; [done|done|unfold is_u64; lia]).
    unfold kv_update. rewrite (decide_False (P := index_key j = index_key i)) by done. destruct (decide (i + 1 <= j < i + 1 + zlen items)).
    + rewrite decide_True by lia. replace (Z.to_nat (j - i)) with (S (Z.to_nat (j - (i + 1)))) by lia. done.
    + by rewrite decide_False by lia.
Qed.

Section binding.
Context (cr : Crypto) (Hk : forall d, zlen (keccak256 cr d) = 32).

Lemma new_trie_at : trie_at cr new_trie (fun _ => None).
Proof.
  exists Leafless. split; [constructor|]. split; [by left|done|by intros h v _ E; destruct h|by intros h v _ E; destruct h].
Qed.

(** Encodings a trie can hold. *)
Definition storable (x : list byte) : Prop := x <> [] /\ zlen x < 2 ^ 32.

Lemma derive_loop_at {A} (GetRlp : A -> outcome (list byte)) (items : list A) encs : forall i t M, Forall2 (fun a x => GetRlp a = Ok x /\ storable x) items encs ->
  0 <= i -> i + zlen items <= MaxUint64 -> trie_at cr t M ->
  exists t', derive_loop GetRlp i items t = Ok t' /\ trie_at cr t' (indexed i encs M).
Proof.
  revert encs. induction items as [|a items IH]; intros encs i t M HF Hi Hm Ht; inversion HF as [|? x ? encs' [Ex [_ Hx]] HF']; subst; cbn [derive_loop]; [by eexists|].
  rewrite zlen_cons in Hm. pose proof (zlen_nonneg items). rewrite Ex. cbn [obind].
  destruct (index_key_enc i ltac:(unfold is_u64; lia)) as [_ Hl].
  destruct (TryUpdate_at cr Hk t M (index_key i) x Ht ltac:(lia) Hx) as (t1 & -> & Ht1). cbn [obind indexed]. apply IH; [done|lia|lia|done].
Qed.

(** Without a database nothing is a reference: the nodes spell the tree out. *)
Lemma plain_nil b n tr : rep cr nil_db b n tr -> plain_tree n = Some tr.
Proof.
  induction 1 as [| |b k n f t Hr IH Hf|b cs f ts Hl Hr IH Hf|b h t Hh Hheld]; cbn [plain_tree]; [done|done|by rewrite IH| |].
  - assert (mapM plain_tree cs = Some ts) as ->; [|done]. apply mapM_Some, Forall2_same_length_lookup. split; [done|]. exact IH.
  - exfalso. destruct Hh as [Hb Hh], Hheld as [_ Hs]. destruct b; [done|]. by destruct (Hs Hb h Hh).
Qed.

Lemma DeriveSha_root {A} (f : A -> outcome (list byte)) la ea : Forall2 (fun a x => f a = Ok x /\ storable x) la ea -> zlen la <= 2 ^ 62 ->
  DeriveSha cr f la = Ok (merkle_root cr (items_tree f la)) /\ holds_map (items_tree f la) (indexed 0 ea (fun _ => None)).
Proof.
  intros HF Hl. destruct (derive_loop_at f la ea 0 new_trie (fun _ => None) HF ltac:(lia) ltac:(unfold MaxUint64; lia) new_trie_at) as (t & E & (tr & Hr & Hm)).
  unfold DeriveSha, items_tree. rewrite E. cbn [obind]. assert (db t = nil_db) as Hd by (by destruct (db t)).
  pose proof Hr as Hp. unfold trie_tree in Hp. rewrite Hd in Hp. rewrite (plain_nil _ _ _ Hp).
  destruct (Hash_at cr Hk t tr _ Hr Hm) as (t' & -> & _). done.
Qed.

(** The indexed items are read off the tree. *)
Lemma indexed_inj tr ea eb : holds_map tr (indexed 0 ea (fun _ => None)) -> holds_map tr (indexed 0 eb (fun _ => None)) ->
  Forall storable ea -> Forall storable eb -> zlen ea <= 2 ^ 62 -> zlen eb <= 2 ^ 62 -> ea = eb.
Proof.
  intros Ha Hb Fa Fb La Lb. assert (forall l, Forall storable l -> Forall (fun x => x <> []) l) as Hne by (intros l Hl; eapply Forall_impl; [exact Hl|by intros x []]).
  apply list_eq. intros i. destruct (decide (Z.of_nat i <= 2 ^ 62)) as [Hi|Hi].
  2: { unfold zlen in *. rewrite !lookup_ge_None_2 by lia. done. }
  pose proof (hm_content _ _ Ha (index_key (Z.of_nat i))) as Ca. rewrite (hm_content _ _ Hb) in Ca.
  rewrite !indexed_spec in Ca by (eauto || (unfold is_u64, MaxUint64; lia) || lia). rewrite Z.sub_0_r, Nat2Z.id in Ca. unfold zlen in *.
  pose proof (lookup_ge_None_2 ea i) as Ga. pose proof (lookup_ge_None_2 eb i) as Gb.
  destruct (decide (0 <= Z.of_nat i < 0 + Z.of_nat (length ea))), (decide (0 <= Z.of_nat i < 0 + Z.of_nat (length eb)));
    try rewrite Ga by lia; try rewrite Gb by lia; congruence.
Qed.

Lemma encs_storable {A} (f : A -> outcome (list byte)) la ea : Forall2 (fun a x => f a = Ok x /\ storable x) la ea -> Forall storable ea /\ zlen ea = zlen la.
Proof.
  intros HF. split; [|unfold zlen; by rewrite (Forall2_length _ _ _ HF)]. induction HF as [|a x la ea [_ Hx] _ IH]; by constructor.
Qed.

(** The root determines the encodings, if the hash tells the nodes of the two tries apart
    and no node has the root of the empty trie. *)
Lemma DeriveSha_bind {A} (f : A -> outcome (list byte)) la lb ea eb :
  Forall2 (fun a x => f a = Ok x /\ storable x) la ea -> Forall2 (fun b x => f b = Ok x /\ storable x) lb eb ->
  zlen la <= 2 ^ 62 -> zlen lb <= 2 ^ 62 ->
  (forall x y, x ∈ items_nodes cr f la -> y ∈ items_nodes cr f lb -> keccak256 cr x = keccak256 cr y -> x = y) ->
  (forall x, x ∈ items_nodes cr f la \/ x ∈ items_nodes cr f lb -> BytesToHash (keccak256 cr x) <> emptyRoot) ->
  DeriveSha cr f la = DeriveSha cr f lb -> ea = eb.
Proof.
  intros Fa Fb La Lb Hsep Hne E. destruct (DeriveSha_root f la ea Fa La) as [Ea Ha], (DeriveSha_root f lb eb Fb Lb) as [Eb Hb].
  rewrite Ea, Eb in E. injection E as E.
  assert (forall t u, subtree t u -> is_branch u -> enc_val (expanded cr u) ∈ map (fun u => enc_val (expanded cr u)) (branches_of t)) as Hin.
  { intros t u Hu Hbu. apply list_elem_of_In, (in_map (fun u => enc_val (expanded cr u))), list_elem_of_In. by apply branches_of_ok. }
  assert (forall t, inner t -> merkle_root cr t = BytesToHash (keccak256 cr (enc_val (expanded cr t)))) as Hroot by (intros t Hi; by destruct Hi).
  assert (items_tree f la = items_tree f lb) as Et.
  { apply (merkle_bind cr Hk); [apply Ha|apply Ha|apply Hb|apply Hb| | | |done].
    - intros x y Hx Hy Hbx Hby. apply Hsep; by apply Hin.
    - intros Hi. rewrite Hroot by done. apply Hne. left. apply Hin; [constructor|by apply inner_branch].
    - intros Hi. rewrite Hroot by done. apply Hne. right. apply Hin; [constructor|by apply inner_branch]. }
  rewrite <- Et in Hb. destruct (encs_storable _ _ _ Fa) as [Sa Na], (encs_storable _ _ _ Fb) as [Sb Nb].
  apply (indexed_inj _ _ _ Ha Hb); (done || lia).
Qed.
End binding.
