(* ===== verification/VmTheorems.v ===== *)
(** * What the virtual machine guarantees

    The entry points of [kernel/vm/evm.go] running the whole interpreter, on any
    world state that satisfies the laws of [VmLaws.v].  Fuel above the gas is
    always enough. *)
From S2P Require Import Prelude CommonMath Params Opcodes VmBase VmAnalysis VmInterface VmLaws Precompiles Evm.
From S2P Require Import GasTable Instructions JumpTable Interpreter VmInvariant GasFacts ExecFacts.
From S2P Require Import PrecompileFacts EvmFacts CallFacts InterpreterFacts MemDb.
From stdpp Require Import base numbers list gmap.
From Stdlib Require Import ZArith Lia.
#[local] Open Scope Z_scope.

Section theorems.
Context {S : Type} `{StateDB S} (env : Env S) `{!StateDBLaws S (crypto env)}.

(** C1. A message call, with every call and creation nested in it: it terminates
    (fuel above the gas is never used up), gives back at most the gas it was
    given, restores the call depth and the read-only flag, and on any error
    leaves a world state that answers every read as before the call; an error
    other than a revert or a refused call consumes all gas.  A panic is possible
    only from Constantinople on (the refund counter) or if two codes have the
    same hash. *)
Theorem Call_correct fuel e caller addr input gas value :
  env_ok env -> evm_ok env e -> ref_ok caller -> is_address addr -> zlen input < 2 ^ 62 ->
  0 <= gas < max_gas -> gas < Z.of_nat fuel -> 0 <= value -> (static env e = true -> value = 0) ->
  match Call env (Run env fuel) e caller addr input gas value with
  | Ok ((ret, leftOver, err), e') =>
      evm_ok env e' /\ evolves (static env e) (statedb e) (statedb e') /\
      depth e' = depth e /\ readOnly e' = readOnly e /\ 0 <= leftOver <= gas /\
      match err with
      | None => True
      | Some x => state_eq (statedb e') (statedb e) /\
          (leftOver = gas /\ (x = ErrDepth \/ x = ErrInsufficientBalance) \/ x = errExecutionReverted \/ leftOver = 0)
      end
  | Panic => rules_IsConstantinople (chainRules env) = true \/ collision env
  | OutOfFuel => False
  end.
Proof.
  intros Henv He Hr Ha Hi Hg Hf Hv Hs.
  pose proof (Call_ok env Henv _ _ (Run_ok env Henv fuel) e caller addr input gas value He Hr Ha Hi Hg Hf Hv Hs) as Hpost.
  destruct (Call _ _ _ _ _ _ _ _) as [[[[ret leftOver] err] e']| |]; cbn in *; [|done..].
  destruct Hpost as ([] & Hl & _ & Herr). rewrite mode_false in *. by repeat (split; [done|]).
Qed.

(** C12. A creation by [CREATE], by [CREATE2] or by a transaction terminates.  If it succeeds,
    the contract is at the address of its kind of creation and, where calls recurse, its code is
    what the init code returned, in the state that the init code left.  If the call depth or the
    balance does not allow it, nothing changes and the gas is kept.  After any other error the
    world state answers every read as before except for the nonce of the creator, and the gas is
    gone unless the init code reverted.  The exception is a code deposit that cannot be paid for
    before Homestead: no code is stored and what the init code did to the state stays. *)
Theorem Create_correct fuel e caller code gas value salt :
  env_ok env -> evm_ok env e -> ref_ok caller -> static env e = false -> zlen code < 2 ^ 62 ->
  0 <= gas < max_gas -> gas < Z.of_nat fuel -> 0 <= value ->
  match creation env (Run env fuel) e caller code gas value salt with
  | Ok ((ret, addr, leftOver, err), e') =>
      evm_ok env e' /\ evolves false (statedb e) (statedb e') /\
      depth e' = depth e /\ readOnly e' = readOnly e /\ 0 <= leftOver <= gas /\ is_address addr /\
      match err with
      | None => addr = creation_address env e caller code salt /\
          (NoRecursion env && (0 <? depth e) = true \/
           exists s, evolves false (bumped e caller) s /\ statedb e' = SetCode s addr ret)
      | Some x =>
          (x = ErrDepth \/ x = ErrInsufficientBalance) /\ leftOver = gas /\ e' = e \/
          state_eq (statedb e') (bumped e caller) /\ (x = errExecutionReverted \/ leftOver = 0) \/
          x = ErrCodeStoreOutOfGas /\ IsHomestead (chainConfig env) (BlockNumber env) = false /\ evolves false (bumped e caller) (statedb e')
      end
  | Panic => rules_IsConstantinople (chainRules env) = true \/ collision env
  | OutOfFuel => False
  end.
Proof.
  intros Henv He Hr Hs Hc Hg Hf Hv.
  assert (post env (creation env (Run env fuel) e caller code gas value salt) (create_ok env e caller (creation_address env e caller code salt) gas)) as Hpost.
  { destruct salt as [salt|]; [by apply (Create2_ok env Henv _ _ (Run_ok env Henv fuel))|by apply (Create_ok env Henv _ _ (Run_ok env Henv fuel))]. }
  destruct (creation _ _ _ _ _ _ _ _) as [[[[[ret addr] leftOver] err] e']| |]; cbn in *; [|done..].
  destruct Hpost as ([] & Hl & _ & Hadr & Herr). repeat (split; [done|]). destruct err as [x|]; [done|]. by destruct Herr as [-> ?].
Qed.

(** One round of the interpreter keeps the invariant of the machine (stack
    of at most 1024 non-negative integers, memory in whole words that has been
    paid for, program counter near the code, well-formed world state), and a
    round that goes on strictly consumes gas, whatever the instruction and the
    hard fork. *)
Theorem step_correct fuel m :
  env_ok env -> machine_ok env m -> Gas (contract m) < Z.of_nat fuel ->
  match step env (Run env fuel) m with
  | Ok (Continue m') =>
      machine_ok env m' /\ Gas (contract m') < Gas (contract m) /\
      evolves (static env (evm m)) (statedb (evm m)) (statedb (evm m')) /\ st_len (stack m') <= 1024
  | Ok (Halt res m') =>
      evm_ok env (evm m') /\ 0 <= Gas (contract m') <= Gas (contract m) /\
      evolves (static env (evm m)) (statedb (evm m)) (statedb (evm m'))
  | Panic => rules_IsConstantinople (chainRules env) = true \/ collision env
  | OutOfFuel => False
  end.
Proof.
  intros Henv Hm Hg. pose proof (step_ok env Henv _ _ (Run_ok env Henv fuel) m Hm ltac:(lia)) as Hpost.
  destruct (step _ _ _) as [[m'|res m']| |]; cbn in *; [|..|done|done].
  - destruct Hpost as (Hm' & [Hev _ _] & Hlt). split; [done|]. split; [done|]. split; [done|]. apply (ok_depth Hm').
  - destruct Hpost as (He & [Hev _ _] & Hlt & _). done.
Qed.

(** C6. Whatever the code, the interpreter returns, with the depth and the
    read-only flag restored; if the call is static (and Byzantium is active) the
    world state only changes in the ways that are allowed in static mode. *)
Theorem Run_correct fuel e c input ro :
  env_ok env -> evm_ok env e -> contract_ok env c -> zlen input < 2 ^ 62 -> Gas c < Z.of_nat fuel ->
  match Run env fuel e c input ro with
  | Ok ((ret, err), e', c') =>
      evm_ok env e' /\ depth e' = depth e /\ readOnly e' = readOnly e /\ 0 <= Gas c' <= Gas c /\
      evolves (rules_IsByzantium (chainRules env) && (readOnly e || ro)) (statedb e) (statedb e')
  | Panic => rules_IsConstantinople (chainRules env) = true \/ collision env
  | OutOfFuel => False
  end.
Proof.
  intros Henv He Hc Hi Hg. pose proof (Run_ok env Henv fuel e c input ro He Hc Hi Hg) as Hpost.
  destruct (Run _ _ _ _ _ _) as [[[[ret err] e'] c']| |]; cbn in *; [|done..].
  destruct Hpost as ([] & Hl & _). by repeat (split; [done|]).
Qed.
End theorems.

(** ** The theorems at work *)

(** [PUSH1 1 PUSH1 2 ADD STOP] on Byzantium. *)
Definition add12 : list byte := map z2b [0x60; 0x01; 0x60; 0x02; 0x01; 0x00].
Definition byzantium_env : Env MemState := mem_env MainnetChainConfig 5000000.
Definition start : EVM MemState := example_evm add12.

Lemma start_ok : evm_ok byzantium_env start.
Proof. split; [by apply (example_world_ok add12)|done]. Qed.

Lemma Call_correct_witness :
  exists leftOver e', Call byzantium_env (Run byzantium_env 101) start (AccountRef sender) callee [] 100 7 = Ok (([], leftOver, None), e') /\
    evm_ok byzantium_env e' /\ 0 <= leftOver <= 100.
Proof.
  pose proof (Call_correct byzantium_env 101 start (AccountRef sender) callee [] 100 7 (mem_env_ok _ _) start_ok
    ltac:(by vm_compute) ltac:(by vm_compute) ltac:(by vm_compute) ltac:(by vm_compute) ltac:(by vm_compute)
    ltac:(by vm_compute) ltac:(by vm_compute)) as Hc.
  assert (match Call byzantium_env (Run byzantium_env 101) start (AccountRef sender) callee [] 100 7 with
          | Ok ((ret, _, err), _) => Some (ret, err) | _ => None end = Some ([], None)) as Hv by (vm_compute; reflexivity).
  destruct (Call _ _ _ _ _ _ _ _) as [[[[ret leftOver] err] e']| |]; [|discriminate Hv..].
  injection Hv as -> ->. exists leftOver, e'. destruct Hc as (H1 & _ & _ & _ & H2 & _). auto.
Defined.

(** Init code that returns one byte of code: [JUMPDEST] at 0, stored by [MSTORE8]. *)
Definition init_code : list byte :=
  [Byte.x60; Byte.x5b; Byte.x60; Byte.x00; Byte.x53; Byte.x60; Byte.x01; Byte.x60; Byte.x00; Byte.xf3].

Lemma Create_correct_witness :
  exists addr leftOver e' s, creation byzantium_env (Run byzantium_env 1001) start (AccountRef sender) init_code 1000 7 None = Ok (([Byte.x5b], addr, leftOver, None), e') /\
    evm_ok byzantium_env e' /\ 0 <= leftOver <= 1000 /\ addr = creation_address byzantium_env start (AccountRef sender) init_code None /\
    statedb e' = SetCode s addr [Byte.x5b].
Proof.
  pose proof (Create_correct byzantium_env 1001 start (AccountRef sender) init_code 1000 7 None (mem_env_ok _ _) start_ok
    ltac:(by vm_compute) ltac:(by vm_compute) ltac:(by vm_compute) ltac:(by vm_compute) ltac:(by vm_compute)
    ltac:(by vm_compute)) as Hc.
  assert (match creation byzantium_env (Run byzantium_env 1001) start (AccountRef sender) init_code 1000 7 None with
          | Ok ((ret, _, _, err), _) => Some (ret, err) | _ => None end = Some ([Byte.x5b], None)) as Hv by (vm_compute; reflexivity).
  destruct (creation _ _ _ _ _ _ _ _) as [[[[[ret addr] leftOver] err] e']| |]; [|discriminate Hv..].
  injection Hv as -> ->. destruct Hc as (H1 & _ & _ & _ & H2 & _ & H3 & [H4|(s & _ & H4)]); [discriminate H4|].
  exists addr, leftOver, e', s. auto.
Defined.

(** The machine about to run [add12]. *)
Definition start_contract : Contract := with_code_of (statedb start) callee (NewContract (AccountRef sender) callee (Some 0) 100).
Definition start_machine : machine MemState := mkMachine 0 start start_contract NewMemory [].

Lemma start_contract_ok : contract_ok byzantium_env start_contract.
Proof.
  apply (@with_code_ok MemState _ byzantium_env mem_state_laws); [apply (eo_state start_ok)|by vm_compute| |done].
  split; [by vm_compute..|done|done|by exists 0|by vm_compute|by vm_compute].
Qed.

Lemma start_machine_ok : machine_ok byzantium_env start_machine.
Proof.
  split; [exact start_ok|exact start_contract_ok|by split|apply Forall_nil_2|done|]. vm_compute. split; discriminate.
Qed.

Lemma step_correct_witness :
  exists m', step byzantium_env (Run byzantium_env 101) start_machine = Ok (Continue m') /\ stack m' = [1] /\
    machine_ok byzantium_env m' /\ Gas (contract m') < 100.
Proof.
  pose proof (step_correct byzantium_env 101 start_machine (mem_env_ok _ _) start_machine_ok ltac:(by vm_compute)) as Hc.
  assert (match step byzantium_env (Run byzantium_env 101) start_machine with
          | Ok (Continue m') => Some (stack m') | _ => None end = Some [1]) as Hv by (vm_compute; reflexivity).
  destruct (step _ _ _) as [[m'|res m']| |]; [|discriminate Hv..]. injection Hv as Hv.
  exists m'. destruct Hc as (H1 & H2 & _). auto.
Defined.

Lemma Run_correct_witness :
  exists e' c', Run byzantium_env 101 start start_contract [] true = Ok (([], None), e', c') /\
    evolves true (statedb start) (statedb e').
Proof.
  pose proof (Run_correct byzantium_env 101 start start_contract [] true (mem_env_ok _ _) start_ok start_contract_ok
    ltac:(by vm_compute) ltac:(by vm_compute)) as Hc.
  assert (match Run byzantium_env 101 start start_contract [] true with
          | Ok ((ret, err), _, _) => Some (ret, err) | _ => None end = Some ([], None)) as Hv by (vm_compute; reflexivity).
  destruct (Run _ _ _ _ _ _) as [[[[ret err] e'] c']| |]; [|discriminate Hv..].
  injection Hv as -> ->. exists e', c'. split; [done|]. apply Hc.
Defined.
