(* ===== verification/StateTheorems.v ===== *)
(** * What the world state guarantees

    Snapshots, caches and the journal of [kernel/state], for any database. *)
From S2P Require Import Prelude CommonMath RlpEncode RlpDecode Opcodes VmBase VmInterface VmLaws StateAccount.
From S2P Require Import StateModel StateFacts StateInstance MemDb.
From stdpp Require Import base numbers list gmap.
From Stdlib Require Import ZArith Lia.
#[local] Open Scope Z_scope.

Section theorems.
Context {D T : Type} `{Database D T} (cr : Crypto).
Import State.
Local Abbreviation stateObject := (@State.stateObject T).
Local Abbreviation StateDB := (@State.StateDB D T).

(** ** Any use of the state *)

(** A sequence of calls of the methods of [StateDB], with nested snapshots each
    of which may be reverted to. *)
Inductive uses : StateDB -> StateDB -> Prop :=
| u_nothing s : uses s s
| u_then s1 s2 s3 : uses s1 s2 -> uses s2 s3 -> uses s1 s3
| u_AddBalance s a v : uses s (AddBalance cr s a v)
| u_SubBalance s a v : uses s (SubBalance cr s a v)
| u_SetBalance s a v : uses s (SetBalance cr s a v)
| u_SetNonce s a n : uses s (SetNonce cr s a n)
| u_SetCode s a c : uses s (SetCode cr s a c)
| u_SetState s a k v : uses s (SetState cr s a k v)
| u_Suicide s a : uses s (snd (Suicide cr s a))
| u_CreateAccount s a : uses s (CreateAccount cr s a)
| u_AddRefund s n : uses s (AddRefund s n)
| u_SubRefund s s' n : SubRefund s n = Ok s' -> uses s s'
| u_AddLog s l : uses s (AddLog s l)
| u_AddPreimage s h d : uses s (AddPreimage s h d)
| u_Exist s a : uses s (snd (Exist cr s a))
| u_GetCode s a : uses s (snd (GetCode cr s a))
| u_GetState s a k : uses s (snd (GetState cr s a k))
| u_GetCommittedState s a k : uses s (snd (GetCommittedState cr s a k))
| u_Snapshot s : uses s (snd (Snapshot s))
| u_Revert s s2 s3 : uses (snd (Snapshot s)) s2 -> RevertToSnapshot cr s2 (fst (Snapshot s)) = Ok s3 -> uses s s3.

(** Every account has a code hash of 32 bytes. *)
Record sane (s : StateDB) : Prop := {
  sn_wf : wf cr s;
  sn_hash : forall a o, lookup_object cr s a = Some o -> zlen (CodeHash (data o)) = 32
}.

Context (Hk : forall d, zlen (keccak256 cr d) = 32).

Lemma sane_acts s s' a g : acts cr s s' a g -> sane s -> zlen (CodeHash (data g)) = 32 -> tracks cr s s' /\ sane s'.
Proof.
  intros A [_ Ho] Hg. split; [apply A|]. split; [apply (tk_wf _ _ _ (ac_tracks _ _ _ _ _ A))|].
  intros b o E. destruct (decide (b = a)) as [->|Hb].
  - pose proof (ac_at _ _ _ _ _ A) as Ha. rewrite E in Ha. by rewrite (oe_codeHash _ _ _ _ Ha).
  - rewrite (ac_other _ _ _ _ _ A) in E by done. by apply Ho in E.
Qed.

Lemma sane_eq s s' : tracks cr s s' -> state_eq cr s s' -> sane s -> tracks cr s s' /\ sane s'.
Proof.
  intros Ht Heq [_ Ho]. split; [done|]. split; [apply (tk_wf _ _ _ Ht)|]. intros a o E.
  pose proof (se_objects _ _ _ Heq a) as Ha. rewrite E in Ha. destruct (lookup_object cr s a) as [o'|] eqn:E'; [|done].
  rewrite (oe_codeHash _ _ _ _ Ha). by apply Ho in E'.
Qed.

Lemma sane_objects s s' : tracks cr s s' -> (forall a, lookup_object cr s' a = lookup_object cr s a) ->
  sane s -> tracks cr s s' /\ sane s'.
Proof. intros Ht Hl [_ Ho]. split; [done|]. split; [apply (tk_wf _ _ _ Ht)|]. intros a o. rewrite Hl. apply Ho. Qed.

Lemma sane_new s a : sane s -> zlen (CodeHash (data (get_or_new cr s a))) = 32.
Proof.
  intros Hs. unfold get_or_new. destruct (lookup_object cr s a) as [o|] eqn:E; [by apply (sn_hash _ Hs) in E|apply Hk].
Qed.

(** A read leaves an equal state. *)
Lemma read_tracks {A} s a (dflt : A) (f : stateObject -> A * stateObject) : wf cr s ->
  (forall o, obj_eq cr (db s) o (snd (f o))) ->
  tracks cr s (snd (read cr s a dflt f)) /\ state_eq cr s (snd (read cr s a dflt f)).
Proof.
  intros Hw Hf. unfold read. destruct (getStateObject_loads cr s a) as [E L].
  destruct (getStateObject cr s a) as [x s1]; cbn [fst snd] in *. subst x. pose proof (ld_wf _ _ _ L Hw) as Hw1.
  destruct (lookup_object cr s a) as [o|] eqn:El; [|by split; [apply tracks_loads|apply loads_eq]].
  destruct (lookup_object_address cr s a o Hw El) as [Ea _]. subst a. specialize (Hf o). destruct (f o) as [v g]; cbn [snd] in *.
  rewrite <- (loads_db _ _ _ L) in Hf.
  assert (acts cr s1 (setStateObject s1 g) (address o) o) as A1 by (apply rewrite_acts; [done|by rewrite (ld_lookup _ _ _ L)|done]).
  split; [eapply tracks_trans; [by apply tracks_loads|apply A1]|].
  etrans; [by apply loads_eq|]. apply frame_eq; [apply A1|]. intros b. destruct (decide (b = address o)) as [->|Hb].
  - rewrite (ld_lookup _ _ _ L), El. apply A1.
  - rewrite (ac_other _ _ _ _ _ A1) by done. apply opt_eq_refl.
Qed.

Lemma uses_tracks s s' : uses s s' -> sane s -> tracks cr s s' /\ sane s'.
Proof.
  induction 1 as [s|s1 s2 s3 _ IH1 _ IH2|s a v|s a v|s a v|s a n|s a c|s a k v|s a|s a|s n|s s' n E|s l|s h d|s a|s a|s a k|s a k
    |s|s s2 s3 _ IH E]; intros Hs; pose proof (sn_wf _ Hs) as Hw.
  - split; [by apply tracks_refl|done].
  - destruct (IH1 Hs) as [T1 S1]. destruct (IH2 S1) as [T2 S2]. split; [by eapply tracks_trans|done].
  - eapply sane_acts; [by apply AddBalance_acts|done|]. by apply sane_new.
  - eapply sane_acts; [by apply SubBalance_acts|done|]. by apply sane_new.
  - eapply sane_acts; [by apply SetBalance_acts|done|]. by apply sane_new.
  - eapply sane_acts; [by apply SetNonce_acts|done|]. by apply sane_new.
  - eapply sane_acts; [apply SetCode_acts; [done|by apply sane_new]|done|]. apply zlen_Hash_Bytes.
  - eapply sane_acts; [by apply SetState_acts|done|]. by apply sane_new.
  - pose proof (Suicide_acts cr s a Hw) as Hsu. destruct (lookup_object cr s a) as [o|] eqn:El.
    + eapply sane_acts; [apply Hsu|done|]. by apply (sn_hash _ Hs a o).
    + destruct Hsu as [L _]. apply sane_objects; [by apply tracks_loads|apply L|done].
  - eapply sane_acts; [by apply CreateAccount_acts|done|]. apply Hk.
  - apply sane_objects; [by apply refund_tracks|done|done].
  - unfold SubRefund in E. destruct (_ <? n); [done|]. injection E as <-. apply sane_objects; [by apply refund_tracks|done|done].
  - apply sane_objects; [by apply AddLog_tracks|done|done].
  - apply sane_objects; [by apply AddPreimage_tracks|unfold AddPreimage; by case_match|done].
  - unfold Exist. destruct (getStateObject_loads cr s a) as [_ L]. destruct (getStateObject cr s a) as [x s1].
    apply sane_objects; [by apply tracks_loads|apply L|done].
  - destruct (read_tracks s a None (obj_Code cr (db s)) Hw) as [T1 E1]; [intros o; apply obj_Code_eq|]. by apply sane_eq.
  - destruct (read_tracks s a 0 (fun o => obj_GetState (db s) o k) Hw) as [T1 E1]; [intros o; apply obj_GetState_eq|]. by apply sane_eq.
  - destruct (read_tracks s a 0 (fun o => obj_GetCommittedState (db s) o k) Hw) as [T1 E1];
      [intros o; apply obj_GetCommittedState_eq|]. by apply sane_eq.
  - apply sane_objects; [by apply Snapshot_tracks|done|done].
  - destruct (IH (proj2 (sane_objects s _ (Snapshot_tracks cr s Hw) (fun _ => eq_refl) Hs))) as [T2 _].
    destruct (RevertToSnapshot_ok cr s s2 Hw T2) as (s3' & E' & Heq & Hw3 & He & Hr & Hn).
    assert (Ok s3' = Ok s3) as [= ->] by congruence. apply sane_eq; [by apply tracks_same|done|done].
Qed.

(** Everything that can be read of an account. *)
Definition account_reads (s : StateDB) (a : Address) :=
  (fst (Exist cr s a), fst (Empty cr s a), fst (GetBalance cr s a), fst (GetNonce cr s a), fst (GetCodeHash cr s a),
   default [] (fst (GetCode cr s a)), fst (HasSuicided cr s a)).

Lemma state_eq_reads s s' : state_eq cr s s' ->
  (forall a, account_reads s' a = account_reads s a) /\
  (forall a k, fst (GetState cr s' a k) = fst (GetState cr s a k)) /\
  (forall a k, fst (GetCommittedState cr s' a k) = fst (GetCommittedState cr s a k)) /\
  (forall h, GetLogs s' h = GetLogs s h) /\ GetRefund s' = GetRefund s /\ preimages s' = preimages s.
Proof.
  intros Heq. pose proof (se_db _ _ _ Heq) as Hd.
  assert (forall a k, fst (GetState cr s' a k) = fst (GetState cr s a k) /\
    fst (GetCommittedState cr s' a k) = fst (GetCommittedState cr s a k)) as Hst.
  { intros a k. pose proof (se_objects _ _ _ Heq a) as Ha. unfold GetState, GetCommittedState, read. rewrite Hd.
    destruct (getStateObject_loads cr s a) as [E _], (getStateObject_loads cr s' a) as [E' _].
    destruct (getStateObject cr s a) as [x s1], (getStateObject cr s' a) as [x' s1']; cbn [fst snd] in *. subst x x'.
    destruct (lookup_object cr s a) as [o|], (lookup_object cr s' a) as [o'|]; try done.
    pose proof (proj1 (obj_GetState_eq cr (db s) o k)). pose proof (proj1 (obj_GetState_eq cr (db s) o' k)).
    pose proof (proj1 (obj_GetCommittedState_eq cr (db s) o k)). pose proof (proj1 (obj_GetCommittedState_eq cr (db s) o' k)).
    pose proof (oe_current _ _ _ _ Ha k). pose proof (oe_committed _ _ _ _ Ha k).
    destruct (obj_GetState (db s) o k), (obj_GetState (db s) o' k), (obj_GetCommittedState (db s) o k), (obj_GetCommittedState (db s) o' k).
    cbn [fst] in *. split; congruence. }
  split; [|split; [intros; apply Hst|split; [intros; apply Hst|split; [apply Heq|split; apply Heq]]]].
  intros a. pose proof (se_objects _ _ _ Heq a) as Ha.
  unfold account_reads, Exist, Empty, GetBalance, GetNonce, GetCodeHash, GetCode, HasSuicided, read. rewrite Hd.
  destruct (getStateObject_loads cr s a) as [E _], (getStateObject_loads cr s' a) as [E' _].
  destruct (getStateObject cr s a) as [x s1], (getStateObject cr s' a) as [x' s1']; cbn [fst snd] in *. subst x x'.
  destruct (lookup_object cr s a) as [o|], (lookup_object cr s' a) as [o'|]; try done.
  pose proof (proj1 (obj_Code_eq cr (db s) o)). pose proof (proj1 (obj_Code_eq cr (db s) o')).
  destruct (obj_Code cr (db s) o), (obj_Code cr (db s) o'); cbn [fst] in *. destruct Ha.
  unfold empty. rewrite oe_nonce, oe_balance, oe_codeHash, oe_suicided. f_equal. f_equal. congruence.
Qed.

(** ** Equal states stay equal *)

Lemma acts_proper s t s' t' a g g' : acts cr s t a g -> acts cr s' t' a g' -> state_eq cr s s' ->
  obj_eq cr (db s) g g' -> state_eq cr t t'.
Proof.
  intros A A' Heq Hg. destruct Heq. destruct (ac_frame _ _ _ _ _ A) as (? & ? & ? & ? & ? & ? & Hl & ? & ?).
  destruct (ac_frame _ _ _ _ _ A') as (? & ? & ? & ? & ? & ? & Hl' & ? & ?).
  constructor; try congruence; [intros h; unfold GetLogs in *; by rewrite Hl, Hl'|]. intros b.
  replace (db t) with (db s) by congruence. destruct (decide (b = a)) as [->|Hb].
  - pose proof (ac_at _ _ _ _ _ A) as Ha. pose proof (ac_at _ _ _ _ _ A') as Ha'. replace (db s') with (db s) in Ha' by congruence.
    unfold opt_eq in *. destruct (lookup_object cr t a), (lookup_object cr t' a); try done.
    etrans; [symmetry; exact Ha|]. etrans; [exact Hg|exact Ha'].
  - rewrite (ac_other _ _ _ _ _ A), (ac_other _ _ _ _ _ A') by done. apply se_objects.
Qed.

Lemma get_or_new_eq s s' a : state_eq cr s s' -> obj_eq cr (db s) (get_or_new cr s a) (get_or_new cr s' a).
Proof.
  intros Heq. pose proof (se_objects _ _ _ Heq a) as Ha. unfold get_or_new.
  by destruct (lookup_object cr s a), (lookup_object cr s' a).
Qed.

(** The updates of a state, as data. *)
Inductive update : Type :=
| UAddBalance (a : Address) (v : Z)
| USubBalance (a : Address) (v : Z)
| USetBalance (a : Address) (v : Z)
| USetNonce (a : Address) (n : Z)
| USetCode (a : Address) (c : option (list byte))
| USetState (a : Address) (k v : Hash)
| USuicide (a : Address)
| UCreateAccount (a : Address)
| UAddRefund (n : Z)
| UAddLog (l : Log)
| UAddPreimage (h : Hash) (d : list byte).

Definition apply_update (u : update) (s : StateDB) : StateDB :=
  match u with
  | UAddBalance a v => AddBalance cr s a v
  | USubBalance a v => SubBalance cr s a v
  | USetBalance a v => SetBalance cr s a v
  | USetNonce a n => SetNonce cr s a n
  | USetCode a c => SetCode cr s a c
  | USetState a k v => SetState cr s a k v
  | USuicide a => snd (Suicide cr s a)
  | UCreateAccount a => CreateAccount cr s a
  | UAddRefund n => AddRefund s n
  | UAddLog l => AddLog s l
  | UAddPreimage h d => AddPreimage s h d
  end.

Lemma update_proper u s s' : sane s -> sane s' -> state_eq cr s s' -> state_eq cr (apply_update u s) (apply_update u s').
Proof.
  intros Hs Hs' Heq. pose proof (sn_wf _ Hs) as Hw. pose proof (sn_wf _ Hs') as Hw'.
  destruct u as [a v|a v|a v|a n|a c|a k v|a|a|n|l|h d]; cbn [apply_update];
    try (pose proof (get_or_new_eq s s' a Heq) as Ho).
  - eapply acts_proper; [by apply AddBalance_acts|by apply AddBalance_acts|done|]. rewrite (oe_balance _ _ _ _ Ho). by apply setBalance_eq.
  - eapply acts_proper; [by apply SubBalance_acts|by apply SubBalance_acts|done|]. rewrite (oe_balance _ _ _ _ Ho). by apply setBalance_eq.
  - eapply acts_proper; [by apply SetBalance_acts|by apply SetBalance_acts|done|]. by apply setBalance_eq.
  - eapply acts_proper; [by apply SetNonce_acts|by apply SetNonce_acts|done|]. by apply setNonce_eq.
  - eapply acts_proper; [apply SetCode_acts; [done|by apply sane_new]|apply SetCode_acts; [done|by apply sane_new]|done|]. by apply setCode_eq.
  - eapply acts_proper; [by apply SetState_acts|by apply SetState_acts|done|]. by apply setState_eq.
  - pose proof (Suicide_acts cr s a Hw) as A. pose proof (Suicide_acts cr s' a Hw') as A'. pose proof (se_objects _ _ _ Heq a) as Ha.
    destruct (lookup_object cr s a) as [o|], (lookup_object cr s' a) as [o'|]; try done.
    + eapply acts_proper; [apply A|apply A'|done|]. by apply setBalance_eq, with_suicided_eq.
    + destruct A as [L _], A' as [L' _]. etrans; [symmetry; by apply loads_eq|]. etrans; [exact Heq|]. by apply loads_eq.
  - eapply acts_proper; [by apply CreateAccount_acts|by apply CreateAccount_acts|done|]. rewrite (oe_balance _ _ _ _ Ho). done.
  - destruct Heq. constructor; try done. cbn. by rewrite se_refund.
  - destruct Heq. constructor; try done; cbn; [|by rewrite se_logSize]. intros h. unfold GetLogs in *. cbn.
    rewrite se_thash, se_txIndex, se_bhash, se_logSize. destruct (decide (h = thash s)) as [->|Hh].
    + rewrite !lookup_insert_eq. cbn. by rewrite se_logs.
    + rewrite !lookup_insert_ne by done. apply se_logs.
  - unfold AddPreimage. rewrite (se_preimages _ _ _ Heq). destruct (preimages s !! h); [done|].
    destruct Heq. constructor; try done.
Qed.

(** The reads that fill caches, as data. *)
Inductive reading : Type :=
| RObject (a : Address)
| RCode (a : Address)
| RState (a : Address) (k : Hash)
| RCommitted (a : Address) (k : Hash).

Definition after_reading (r : reading) (s : StateDB) : StateDB :=
  match r with
  | RObject a => snd (getStateObject cr s a)
  | RCode a => snd (GetCode cr s a)
  | RState a k => snd (GetState cr s a k)
  | RCommitted a k => snd (GetCommittedState cr s a k)
  end.

Lemma reading_eq r s : wf cr s -> tracks cr s (after_reading r s) /\ state_eq cr s (after_reading r s).
Proof.
  intros Hw. destruct r as [a|a|a k|a k]; cbn [after_reading].
  - destruct (getStateObject_loads cr s a) as [_ L]. by split; [apply tracks_loads|apply loads_eq].
  - apply read_tracks; [done|]. intros o. apply obj_Code_eq.
  - apply (read_tracks s a 0 (fun o => obj_GetState (db s) o k)); [done|]. intros o. apply obj_GetState_eq.
  - apply (read_tracks s a 0 (fun o => obj_GetCommittedState (db s) o k)); [done|]. intros o. apply obj_GetCommittedState_eq.
Qed.

(** ** Properties *)

(** C3. Whatever has been done to the state since a snapshot, with further
    snapshots and reverts in between, [RevertToSnapshot] does not panic and
    every read (existence, balance, nonce, code, storage, committed storage,
    self-destruction, logs, refund, preimages) answers as when the snapshot was
    taken; journal and valid revisions are those of that moment. *)
Theorem RevertToSnapshot_restores s s2 : sane s -> uses (snd (Snapshot s)) s2 ->
  exists s3, RevertToSnapshot cr s2 (fst (Snapshot s)) = Ok s3 /\
    (forall a, account_reads s3 a = account_reads s a) /\
    (forall a k, fst (GetState cr s3 a k) = fst (GetState cr s a k)) /\
    (forall a k, fst (GetCommittedState cr s3 a k) = fst (GetCommittedState cr s a k)) /\
    (forall h, GetLogs s3 h = GetLogs s h) /\ GetRefund s3 = GetRefund s /\ preimages s3 = preimages s /\
    entries (jrnl s3) = entries (jrnl s) /\ validRevisions s3 = validRevisions s.
Proof.
  intros Hs Hu. pose proof (sn_wf _ Hs) as Hw.
  destruct (uses_tracks _ _ Hu (proj2 (sane_objects s _ (Snapshot_tracks cr s Hw) (fun _ => eq_refl) Hs))) as [T2 _].
  destruct (RevertToSnapshot_ok cr s s2 Hw T2) as (s3 & E & Heq & _ & He & Hr & _). exists s3. split; [done|].
  destruct (state_eq_reads _ _ Heq) as (H1 & H2 & H3 & H4 & H5 & H6). auto 9.
Qed.

(** C34. The caches are not observable: a read never changes what any other read
    answers, and an update after it leads to a state that answers every read as
    the update without it. *)
Theorem caches_unobservable r u s : sane s ->
  (forall a, account_reads (after_reading r s) a = account_reads s a) /\
  (forall a k, fst (GetState cr (after_reading r s) a k) = fst (GetState cr s a k)) /\
  (forall a, account_reads (apply_update u (after_reading r s)) a = account_reads (apply_update u s) a) /\
  (forall a k, fst (GetState cr (apply_update u (after_reading r s)) a k) = fst (GetState cr (apply_update u s) a k)) /\
  (forall h, GetLogs (apply_update u (after_reading r s)) h = GetLogs (apply_update u s) h) /\
  GetRefund (apply_update u (after_reading r s)) = GetRefund (apply_update u s).
Proof.
  intros Hs. destruct (reading_eq r s (sn_wf _ Hs)) as [Ht Heq]. destruct (sane_eq _ _ Ht Heq Hs) as [_ Hs'].
  pose proof (update_proper u _ _ Hs Hs' Heq) as Hu.
  destruct (state_eq_reads _ _ Heq) as (R1 & R2 & _). destruct (state_eq_reads _ _ Hu) as (U1 & U2 & _ & U4 & U5 & _). auto 9.
Qed.
End theorems.

(** ** The theorems at work *)

Lemma mem_sane : @sane MemDB MemTrie _ mem_crypto empty_state.
Proof. split; [apply (wo_wf _ _ (proj1 empty_state_ok))|done]. Qed.

Lemma RevertToSnapshot_restores_witness :
  exists s3, State.RevertToSnapshot mem_crypto
      (State.SetState mem_crypto (State.AddBalance mem_crypto (snd (State.Snapshot empty_state)) 1 5) 1 7 9) 0 = Ok s3 /\
    fst (State.GetBalance mem_crypto s3 1) = 0 /\ fst (State.GetState mem_crypto s3 1 7) = 0.
Proof.
  destruct (RevertToSnapshot_restores mem_crypto mem_hash_length empty_state
    (State.SetState mem_crypto (State.AddBalance mem_crypto (snd (State.Snapshot empty_state)) 1 5) 1 7 9) mem_sane)
    as (s3 & E & Ha & Hst & _).
  - eapply u_then; [apply u_AddBalance|apply u_SetState].
  - exists s3. split; [exact E|]. split; [|apply (Hst 1 7)].
    pose proof (Ha 1) as Hr. apply (f_equal (fun r => snd (fst (fst (fst (fst r)))))) in Hr. exact Hr.
Defined.

Lemma caches_unobservable_witness :
  account_reads mem_crypto (apply_update mem_crypto (UAddBalance 1 5) (after_reading mem_crypto (RState 1 7) empty_state)) 1 =
  account_reads mem_crypto (apply_update mem_crypto (UAddBalance 1 5) empty_state) 1.
Proof. apply (caches_unobservable mem_crypto mem_hash_length (RState 1 7) (UAddBalance 1 5) empty_state mem_sane). Defined.
