(* ===== verification/StateFlush.v ===== *)
(** * Writing the state back to the trie

    The dirty counters of the journal, [updateTrie] and [Finalise]. *)
From S2P Require Import Prelude CommonMath RlpEncode RlpDecode RlpFacts Opcodes VmBase VmInterface.
From S2P Require Import StateAccount StateModel StateFacts StateInstance MemDb StateTheorems.
From stdpp Require Import base numbers list gmap.
From Stdlib Require Import ZArith Lia.
#[local] Open Scope Z_scope.

Section dirties.
Context {D T : Type} `{Database D T} (cr : Crypto).
Import State.
Local Abbreviation journalEntry := (@State.journalEntry T).
Local Abbreviation journal := (@State.journal T).
Local Abbreviation StateDB := (@State.StateDB D T).

(** How many entries of the journal dirty an address. *)
Definition count (es : list journalEntry) (a : Address) : Z := zlen (filter (fun e => dirtied e = Some a) es).

(** The counters agree with the entries; the account [ripemd] may stay dirty. *)
Record counted (j : journal) : Prop := {
  ct_exact : forall a, a <> ripemd -> dirties j !! a = if count (entries j) a =? 0 then None else Some (count (entries j) a);
  ct_ripemd : count (entries j) ripemd <= default 0 (dirties j !! ripemd)
}.

Lemma count_snoc es e a : count (es ++ [e]) a = count es a + if decide (dirtied e = Some a) then 1 else 0.
Proof.
  unfold count. rewrite filter_app, zlen_app. f_equal. cbn. by destruct (decide (dirtied e = Some a)).
Qed.

Lemma count_nonneg es a : 0 <= count es a.
Proof. apply zlen_nonneg. Qed.

Lemma counted_dirty_ripemd (j : journal) : counted j -> counted (j_dirty j ripemd).
Proof.
  intros [He Hr]. split; cbn.
  - intros a Ha. rewrite lookup_insert_ne by done. by apply He.
  - rewrite lookup_insert_eq. cbn. lia.
Qed.

Lemma counted_append (j : journal) e : counted j -> counted (j_append j e).
Proof.
  intros [He Hr]. unfold j_append. destruct (dirtied e) as [b|] eqn:Ed; split; cbn.
  - intros a Ha. rewrite count_snoc, Ed. pose proof (count_nonneg (entries j) a). destruct (decide (a = b)) as [->|Hab].
    + rewrite lookup_insert_eq, decide_True by done. rewrite He by done.
      destruct (Z.eqb_spec (count (entries j) b) 0) as [->|]; cbn; [done|].
      destruct (Z.eqb_spec (count (entries j) b + 1) 0); [lia|done].
    + rewrite lookup_insert_ne, decide_False, Z.add_0_r by congruence. by apply He.
  - rewrite count_snoc, Ed. destruct (decide (b = ripemd)) as [->|Hb].
    + rewrite lookup_insert_eq, decide_True by done. cbn. lia.
    + rewrite lookup_insert_ne, decide_False by congruence. lia.
  - intros a Ha. rewrite count_snoc, Ed, decide_False, Z.add_0_r by done. by apply He.
  - rewrite count_snoc, Ed, decide_False by done. lia.
Qed.

Lemma counted_undirty es e d : counted (mkJournal (es ++ [e]) d) -> counted (mkJournal es (undirty d e)).
Proof.
  intros [He Hr]. cbn in He, Hr. unfold undirty. destruct (dirtied e) as [b|] eqn:Ed; split; cbn.
  - intros a Ha. specialize (He a Ha). rewrite count_snoc, Ed in He. pose proof (count_nonneg es a).
    destruct (decide (a = b)) as [->|Hab].
    + rewrite decide_True in He by done. destruct (Z.eqb_spec (count es b + 1) 0); [lia|]. rewrite He. cbn.
      replace (count es b + 1 - 1) with (count es b) by lia.
      destruct (Z.eqb_spec (count es b) 0) as [E|E]; [by rewrite lookup_delete_eq|by rewrite lookup_insert_eq].
    + rewrite decide_False, Z.add_0_r in He by congruence.
      destruct (_ - 1 =? 0); [rewrite lookup_delete_ne by done|rewrite lookup_insert_ne by done]; done.
  - rewrite count_snoc, Ed in Hr. destruct (decide (b = ripemd)) as [->|Hb].
    + rewrite decide_True in Hr by done. destruct (Z.eqb_spec (default 0 (d !! ripemd) - 1) 0).
      * rewrite lookup_delete_eq. cbn. pose proof (count_nonneg es ripemd). lia.
      * rewrite lookup_insert_eq. cbn. lia.
    + rewrite decide_False, Z.add_0_r in Hr by congruence.
      destruct (_ - 1 =? 0); [rewrite lookup_delete_ne by done|rewrite lookup_insert_ne by done]; done.
  - intros a Ha. specialize (He a Ha). by rewrite count_snoc, Ed, decide_False, Z.add_0_r in He.
  - by rewrite count_snoc, Ed, decide_False, Z.add_0_r in Hr.
Qed.

Lemma counted_revert es2 : forall es1 d, counted (mkJournal (es1 ++ es2) d) ->
  counted (mkJournal es1 (foldl undirty d (reverse es2))).
Proof.
  induction es2 as [|e es2 IH] using rev_ind; intros es1 d Hc; [by rewrite app_nil_r in Hc|].
  rewrite reverse_snoc. cbn [foldl]. apply IH, counted_undirty. by rewrite <- app_assoc.
Qed.

Lemma jrnl_get (s : StateDB) a : jrnl (snd (getStateObject cr s a)) = jrnl s.
Proof. apply (getStateObject_loads cr s a). Qed.

Lemma jrnl_create (s : StateDB) a : counted (jrnl s) -> counted (jrnl (snd (createObject cr s a))).
Proof.
  intros Hc. unfold createObject. pose proof (jrnl_get s a) as Hj. destruct (getStateObject cr s a) as [prev s1]; cbn [snd] in *.
  rewrite <- Hj in Hc. destruct prev; by apply counted_append.
Qed.

Lemma jrnl_GetOrNew (s : StateDB) a : counted (jrnl s) -> counted (jrnl (snd (GetOrNewStateObject cr s a))).
Proof.
  intros Hc. unfold GetOrNewStateObject. pose proof (jrnl_get s a) as Hj. destruct (getStateObject cr s a) as [x s1]; cbn [snd] in *.
  rewrite <- Hj in Hc. pose proof (jrnl_create s1 a Hc) as Hn. destruct (createObject cr s1 a) as [[n p] s2].
  destruct x as [o|]; [|done]. by destruct (deleted o).
Qed.

Lemma jrnl_read {A} (s : StateDB) a (dflt : A) f : jrnl (snd (read cr s a dflt f)) = jrnl s.
Proof.
  unfold read. pose proof (jrnl_get s a) as Hj. destruct (getStateObject cr s a) as [[o|] s1]; cbn [snd] in *; [|done].
  by destruct (f o).
Qed.

Lemma jrnl_touch (s : StateDB) o : counted (jrnl s) -> counted (jrnl (touch s o)).
Proof.
  intros Hc. unfold touch. destruct (Z.eqb_spec (address o) ripemd) as [E|E].
  - rewrite E. by apply counted_dirty_ripemd, counted_append.
  - by apply counted_append.
Qed.

Lemma jrnl_RevertToSnapshot (s s' : StateDB) n : RevertToSnapshot cr s n = Ok s' -> counted (jrnl s) -> counted (jrnl s').
Proof.
  unfold RevertToSnapshot, journal_revert. destruct (validRevisions s !! _) as [r|]; [|done].
  destruct (negb _); [done|]. rewrite revert_entries_undo. set (k := Z.to_nat (journalIndex r)).
  destruct (undo cr (reverse (drop k (entries (jrnl s)))) s) as [t| |]; [|done..]. cbn [obind]. intros [= <-] Hc. cbn.
  apply counted_revert. rewrite take_drop. by destruct (jrnl s).
Qed.

Lemma uses_counted s s' : uses cr s s' -> counted (jrnl s) -> counted (jrnl s').
Proof.
  induction 1 as [s|s1 s2 s3 _ IH1 _ IH2|s a v|s a v|s a v|s a n|s a c|s a k v|s a|s a|s n|s s' n E|s l|s h d|s a|s a|s a k|s a k
    |s|s s2 s3 _ IH E]; intros Hc; auto; try (pose proof (jrnl_GetOrNew s a Hc) as Hn).
  - unfold AddBalance. destruct (GetOrNewStateObject cr s a) as [o s1]. cbn [snd] in Hn. unfold obj_AddBalance.
    destruct (Sign v =? 0); [destruct (empty cr o); [by apply jrnl_touch|done]|by apply counted_append].
  - unfold SubBalance. destruct (GetOrNewStateObject cr s a) as [o s1]. cbn [snd] in Hn. unfold obj_SubBalance.
    destruct (Sign v =? 0); [done|by apply counted_append].
  - unfold SetBalance. destruct (GetOrNewStateObject cr s a) as [o s1]. by apply counted_append.
  - unfold SetNonce. destruct (GetOrNewStateObject cr s a) as [o s1]. by apply counted_append.
  - unfold SetCode. destruct (GetOrNewStateObject cr s a) as [o s1]. unfold obj_SetCode. destruct (obj_Code cr (db s1) o).
    by apply counted_append.
  - unfold SetState. destruct (GetOrNewStateObject cr s a) as [o s1]. unfold obj_SetState. destruct (obj_GetState (db s1) o k) as [p g].
    destruct (p =? v); [done|by apply counted_append].
  - unfold Suicide. pose proof (jrnl_get s a) as Hj. destruct (getStateObject cr s a) as [[o|] s1]; cbn [snd] in *; [|by rewrite Hj].
    apply counted_append. by rewrite Hj.
  - unfold CreateAccount. pose proof (jrnl_create s a Hc) as Hcr. destruct (createObject cr s a) as [[n p] s1]. by destruct p.
  - by apply counted_append.
  - unfold SubRefund in E. destruct (_ <? n); [done|]. injection E as <-. by apply counted_append.
  - by apply counted_append.
  - unfold AddPreimage. case_match; [done|by apply counted_append].
  - unfold Exist. pose proof (jrnl_get s a) as Hj. destruct (getStateObject cr s a). cbn [snd] in *. by rewrite Hj.
  - unfold GetCode. by rewrite jrnl_read.
  - unfold GetState. by rewrite jrnl_read.
  - unfold GetCommittedState. by rewrite jrnl_read.
  - eapply jrnl_RevertToSnapshot; [exact E|]. by apply IH.
Qed.

(** The dirty counters: after any use of a state with a fresh journal, an
    account other than the one at address 3 is marked dirty exactly when an
    entry of the journal that has not been reverted dirties it, with the number
    of these entries as its counter; the account at address 3 stays dirty even
    if the touch is reverted. *)
Theorem dirties_exact s s' a : uses cr s s' -> jrnl s = newJournal ->
  (a <> ripemd -> dirties (jrnl s') !! a = if count (entries (jrnl s')) a =? 0 then None else Some (count (entries (jrnl s')) a)) /\
  (0 < count (entries (jrnl s')) a -> is_Some (dirties (jrnl s') !! a)).
Proof.
  intros Hu Hj. assert (counted (jrnl s)) as Hc by (rewrite Hj; split; [done|by cbn]).
  destruct (uses_counted _ _ Hu Hc) as [He Hr]. split; [apply He|]. intros Hpos.
  destruct (decide (a = ripemd)) as [->|Ha].
  - destruct (dirties (jrnl s') !! ripemd); [by eexists|]. cbn in Hr. lia.
  - rewrite He by done. destruct (Z.eqb_spec (count (entries (jrnl s')) a) 0); [lia|by eexists].
Qed.
End dirties.

Lemma dirties_exact_witness :
  State.dirties (State.jrnl (State.AddBalance mem_crypto empty_state 1 5)) !! 1 =
    if count (State.entries (State.jrnl (State.AddBalance mem_crypto empty_state 1 5))) 1 =? 0 then None
    else Some (count (State.entries (State.jrnl (State.AddBalance mem_crypto empty_state 1 5))) 1).
Proof.
  apply (dirties_exact mem_crypto empty_state (State.AddBalance mem_crypto empty_state 1 5) 1); [apply u_AddBalance|done|done].
Defined.

(** ** Storage *)

(** What [Trie] documents: reads see the last write of a key; hashes have 32 bytes. *)
Class TrieLaws (D T : Type) `{Database D T} : Prop := {
  get_update : forall t k v k', TryGet (fst (TryUpdate t k v)) k' = if decide (k' = k) then (v, None) else TryGet t k';
  get_delete : forall t k k', TryGet (fst (TryDelete t k)) k' = if decide (k' = k) then ([], None) else TryGet t k';
  hash_word : forall t, is_word (Trie_Hash t)
}.

Lemma Hash_Bytes_inj h h' : is_word h -> is_word h' -> Hash_Bytes h = Hash_Bytes h' -> h = h'.
Proof.
  intros Hh Hh' E. apply (f_equal be2z) in E. unfold Hash_Bytes, HashLength in E. rewrite !be2z_z2be in E.
  rewrite !Z.mod_small in E by assumption. done.
Qed.

Lemma TrimLeftZero_spec l : be2z (TrimLeftZero l) = be2z l /\ (TrimLeftZero l = [] \/ exists c t, TrimLeftZero l = c :: t /\ b2z c <> 0).
Proof.
  induction l as [|c t [IH1 IH2]]; [by split; [|left]|]. cbn [TrimLeftZero]. destruct (Z.eqb_spec (b2z c) 0) as [E|E].
  - split; [|done]. rewrite be2z_cons, E, IH1. lia.
  - split; [done|]. right. eauto.
Qed.

Lemma TrimLeftZero_big v : 0 < v < two256 -> TrimLeftZero (Hash_Bytes v) = big_Bytes v.
Proof.
  intros Hv. destruct (TrimLeftZero_spec (Hash_Bytes v)) as [E Hs]. unfold Hash_Bytes, HashLength in *.
  rewrite be2z_z2be, Z.mod_small in E by (split; [lia|apply Hv]).
  destruct Hs as [Hs|(c & t & Hs & Hc)]; rewrite Hs in *; [cbn in E; lia|]. rewrite <- E. symmetry. by apply big_Bytes_canonical.
Qed.

Lemma Split_enc_str b : zlen b <= 2 ^ 32 -> exists k, Split (enc_str b) = Good (k, b, []).
Proof.
  intros Hb. pose proof (zlen_enc_str_le b Hb) as Hle. assert (zlen (enc_str b) <= MaxUint64) by (unfold MaxUint64; lia).
  destruct (enc_str_head b) as [(c & -> & E & _ & c' & [= <-] & Hc)|(h & E & [Hn ->] & Hc)]; [unfold MaxUint64; lia|..].
  - exists KByte. rewrite E in *. apply (Split_complete [c] KByte [c] [] [c]); [done|done|]. split; [done|]. by exists c.
  - exists KString. rewrite E in *. eapply Split_complete; [done|by rewrite app_nil_r|]. split; [done|]. split; [unfold MaxUint64; lia|done].
Qed.

Section flush.
Context {D T : Type} `{Database D T} `{!TrieLaws D T} (cr : Crypto).
Import State.
Local Abbreviation stateObject := (@State.stateObject T).
Local Abbreviation StateDB := (@State.StateDB D T).

(** The value of a slot that has been written. *)
Lemma trie_value_update t key value k : 0 < value < two256 -> is_word key -> is_word k ->
  trie_value (fst (TryUpdate t (Hash_Bytes key)
    (match EncodeToBytes (VBytes (TrimLeftZero (Hash_Bytes value))) with Good v => v | Err _ => [] end))) k =
  if decide (k = key) then value else trie_value t k.
Proof.
  intros Hv Hkey Hk. rewrite TrimLeftZero_big by done. pose proof (zlen_big_Bytes value 32 ltac:(split; [lia|apply Hv]) ltac:(lia)) as Hl.
  rewrite EncodeToBytes_spec; [|done|cbn; pose proof (zlen_enc_str_le (big_Bytes value) ltac:(lia)); unfold MaxUint64; lia].
  unfold trie_value. rewrite get_update. cbn [enc_val]. destruct (decide (k = key)) as [->|Hne].
  - rewrite decide_True by done. destruct (Split_enc_str (big_Bytes value) ltac:(lia)) as [kd ->].
    assert ((0 <? zlen (enc_str (big_Bytes value))) = true) as ->.
    { apply Z.ltb_lt. unfold enc_str. destruct (big_Bytes value) as [|c [|d b]]; [by cbn|case_match; by cbn|].
      rewrite zlen_app, !zlen_cons. pose proof (zlen_nonneg b). pose proof (zlen_nonneg (enc_head 0x80 0xB7 (1 + (1 + zlen b)))). lia. }
    rewrite BytesToHash_mod, be2z_big_Bytes, Z.abs_eq by lia. apply Z.mod_small. lia.
  - rewrite decide_False; [done|]. intros E. by apply Hne, Hash_Bytes_inj.
Qed.

Lemma trie_value_delete t key k : is_word key -> is_word k ->
  trie_value (fst (TryDelete t (Hash_Bytes key))) k = if decide (k = key) then 0 else trie_value t k.
Proof.
  intros Hkey Hk. unfold trie_value. rewrite get_delete. destruct (decide (k = key)) as [->|Hne]; [by rewrite decide_True|].
  rewrite decide_False; [done|]. intros E. by apply Hne, Hash_Bytes_inj.
Qed.

(** The fields of an object that the loop over the slots does not touch. *)
Definition same_but_storage (o o' : stateObject) : Prop :=
  address o' = address o /\ addrHash o' = addrHash o /\ data o' = data o /\ code o' = code o /\
  dirtyCode o' = dirtyCode o /\ suicided o' = suicided o /\ deleted o' = deleted o.

(** The loop of [updateTrie] over dirty slots [l]: slots that differ from the
    cached committed value are written to the trie and to the cache. *)
Record flushed (l : list (Hash * Hash)) (t : T) (o : stateObject) (t' : T) (o' : stateObject) : Prop := {
  fl_same : same_but_storage o o';
  fl_dirty : forall k : Hash, dirtyStorage o' !! k = if decide (k ∈ l.*1) then None else dirtyStorage o !! k;
  fl_written : forall k v : Hash, (k, v) ∈ l -> v <> default 0 (originStorage o !! k) ->
    originStorage o' !! k = Some v /\ (is_word k -> trie_value t' k = v);
  fl_skipped : forall k v : Hash, (k, v) ∈ l -> v = default 0 (originStorage o !! k) ->
    originStorage o' !! k = originStorage o !! k /\ (is_word k -> trie_value t' k = trie_value t k);
  fl_other : forall k : Hash, k ∉ l.*1 -> originStorage o' !! k = originStorage o !! k /\ (is_word k -> trie_value t' k = trie_value t k)
}.

Definition slot_ok (p : Hash * Hash) : Prop := is_word (fst p) /\ is_word (snd p).

Lemma obj_setError_same (o : stateObject) e : same_but_storage o (obj_setError o e) /\
  dirtyStorage (obj_setError o e) = dirtyStorage o /\ originStorage (obj_setError o e) = originStorage o.
Proof. unfold obj_setError, same_but_storage. destruct (dbErr o); cbn; auto 10. Qed.

Lemma updateSlot_one t o key value : slot_ok (key, value) ->
  let '(t', o') := updateSlot (t, o) (key, value) in flushed [(key, value)] t o t' o'.
Proof.
  intros [Hkey Hval]. cbn [fst snd] in *. unfold updateSlot. set (o1 := with_dirty o (delete key (dirtyStorage o))).
  assert (forall k, dirtyStorage o1 !! k = if decide (k ∈ [(key, value)].*1) then None else dirtyStorage o !! k) as Hd1.
  { intros k. cbn. destruct (decide (k = key)) as [->|Hne].
    - rewrite lookup_delete_eq, decide_True; [done|]. by apply list_elem_of_singleton.
    - rewrite lookup_delete_ne, decide_False by (rewrite ?list_elem_of_singleton; done). done. }
  change (originStorage o1) with (originStorage o).
  destruct (Z.eqb_spec value (default 0 (originStorage o !! key))) as [Ev|Ev].
  { split; [done|exact Hd1| |done|done]. intros k v [= -> ->]%list_elem_of_singleton. done. }
  set (o2 := with_origin o1 (<[key := value]> (originStorage o))).
  assert (forall t' err, (forall k, is_word k -> trie_value t' k = if decide (k = key) then value else trie_value t k) ->
    flushed [(key, value)] t o t' (obj_setError o2 err)) as Hfin.
  { intros t' err Ht. destruct (obj_setError_same o2 err) as (Hs & Hd & Ho). split.
    - unfold same_but_storage in *. cbn in Hs. tauto.
    - intros k. rewrite Hd. apply Hd1.
    - intros k v [= -> ->]%list_elem_of_singleton _. rewrite Ho. cbn. rewrite lookup_insert_eq. split; [done|].
      intros Hw. by rewrite Ht, decide_True.
    - intros k v [= -> ->]%list_elem_of_singleton E. done.
    - intros k Hk. assert (k <> key) by (intros ->; apply Hk; by apply list_elem_of_singleton).
      rewrite Ho. cbn. rewrite lookup_insert_ne by done. split; [done|]. intros Hw. by rewrite Ht, decide_False. }
  destruct (Z.eqb_spec value 0) as [->|Hnz].
  - pose proof (trie_value_delete t key) as Ht. destruct (TryDelete t (Hash_Bytes key)) as [t' err]. apply Hfin. auto.
  - pose proof (trie_value_update t key value) as Ht.
    destruct (TryUpdate t (Hash_Bytes key) _) as [t' err]. apply Hfin. intros k Hk. apply Ht; [|done|done]. unfold is_word in Hval. lia.
Qed.

Lemma flushed_cons p l t o t1 o1 t2 o2 : NoDup (p :: l).*1 -> flushed [p] t o t1 o1 -> flushed l t1 o1 t2 o2 -> flushed (p :: l) t o t2 o2.
Proof.
  destruct p as [key value]. cbn [fmap list_fmap fst]. intros [Hnot Hnd]%NoDup_cons [S1 D1 W1 K1 O1] [S2 D2 W2 K2 O2].
  assert (forall k v : Hash, (k, v) ∈ l -> originStorage o1 !! k = originStorage o !! k /\ (is_word k -> trie_value t1 k = trie_value t k)) as Ho1.
  { intros k v Hin. apply O1. cbn. rewrite list_elem_of_singleton. intros ->. apply Hnot. apply list_elem_of_fmap. by exists (key, v). }
  assert (forall v : Hash, (key, v) ∉ l) as Hno.
  { intros v Hin. apply Hnot. apply list_elem_of_fmap. by exists (key, v). }
  split.
  - unfold same_but_storage in *. intuition congruence.
  - intros k. rewrite D2, D1. cbn [fmap list_fmap fst].
    destruct (decide (k ∈ l.*1)) as [Hin|Hin]; [rewrite decide_True; [done|by apply list_elem_of_further]|].
    destruct (decide (k ∈ [key])) as [Hk|Hk]; rewrite list_elem_of_singleton in Hk.
    + rewrite decide_True; [done|]. subst. apply list_elem_of_here.
    + rewrite decide_False; [done|]. by rewrite not_elem_of_cons.
  - intros k v [E|Hin]%elem_of_cons Hne.
    + assert (k = key /\ v = value) as [Ek Ev] by (by injection E). rewrite Ek, Ev in *. destruct (W1 key value) as [Hor Htr]; [by apply list_elem_of_singleton|done|]. destruct (O2 key Hnot) as [-> Ht2].
      split; [done|]. intros Hw. rewrite Ht2 by done. auto.
    + destruct (Ho1 k v Hin) as [Hor _]. apply W2; [done|]. intros Ev. apply Hne. rewrite Ev. f_equal. exact Hor.
  - intros k v [E|Hin]%elem_of_cons He.
    + assert (k = key /\ v = value) as [Ek Ev] by (by injection E). rewrite Ek, Ev in *. destruct (K1 key value) as [Hor Htr]; [by apply list_elem_of_singleton|done|]. destruct (O2 key Hnot) as [-> Ht2].
      split; [done|]. intros Hw. rewrite Ht2 by done. auto.
    + destruct (Ho1 k v Hin) as [Hor Htr]. destruct (K2 k v Hin) as [Hor2 Ht2]; [rewrite He; f_equal; by symmetry|].
      split; [by etrans|].
      intros Hw. rewrite Ht2 by done. auto.
  - intros k [Hk Hin]%not_elem_of_cons. destruct (O2 k Hin) as [-> Ht2].
    destruct (O1 k) as [-> Ht1]; [cbn; by rewrite list_elem_of_singleton|]. split; [done|]. intros Hw. rewrite Ht2 by done. auto.
Qed.

Lemma updateSlots_flushed l : forall t o, NoDup l.*1 -> Forall slot_ok l ->
  let '(t', o') := foldl updateSlot (t, o) l in flushed l t o t' o'.
Proof.
  induction l as [|[key value] l IH]; intros t o Hnd Hok; cbn [foldl].
  { split.
    - by unfold same_but_storage.
    - intros k. by destruct (decide (k ∈ [])) as [Hin|]; [apply not_elem_of_nil in Hin|].
    - intros k v Hin. by apply not_elem_of_nil in Hin.
    - intros k v Hin. by apply not_elem_of_nil in Hin.
    - done. }
  inversion_clear Hok as [|? ? Hs Hok']. pose proof (updateSlot_one t o key value Hs) as H1.
  destruct (updateSlot (t, o) (key, value)) as [t1 o1]. pose proof Hnd as [_ Hnd']%NoDup_cons.
  specialize (IH t1 o1 Hnd' Hok'). destruct (foldl updateSlot (t1, o1) l) as [t2 o2]. by eapply flushed_cons.
Qed.

Lemma origin_default (o : stateObject) (k w : Hash) : originStorage o !! k = Some w -> default 0 (originStorage o !! k) = w.
Proof. intros E. exact (f_equal (default (0 : Hash)) E). Qed.

(** Objects whose storage can be written: dirty slots have been read before,
    and the cache agrees with the trie. *)
Record storage_ok (d : D) (o : stateObject) : Prop := {
  so_slots : forall k v : Hash, dirtyStorage o !! k = Some v -> slot_ok (k, v) /\ is_Some (originStorage o !! k);
  so_cache : forall k v : Hash, originStorage o !! k = Some v -> is_word k -> trie_value (the_trie d o) k = v
}.

(** [updateTrie]: afterwards the storage trie and the committed storage hold the
    current storage, and no slot is dirty. *)
Lemma updateTrie_spec d o : storage_ok d o ->
  let '(t, o') := updateTrie d o in
  same_but_storage o o' /\ dirtyStorage o' = ∅ /\ trie o' = Some t /\
  (forall k : Hash, is_word k -> trie_value t k = current d o k) /\
  (forall k : Hash, is_word k -> committed d o' k = current d o k /\ current d o' k = current d o k).
Proof.
  intros [Hslots Hcache]. unfold updateTrie. pose proof (getTrie_the_trie d o) as Et. pose proof (getTrie_origin d o) as Eo.
  assert (same_but_storage o (snd (getTrie d o)) /\ dirtyStorage (snd (getTrie d o)) = dirtyStorage o) as [Hs0 Ed].
  { unfold getTrie. destruct (trie o); [done|]. destruct (OpenStorageTrie _ _ _); [done|].
    cbn [snd]. destruct (obj_setError_same (with_trie o (Some (OpenEmptyTrie d (addrHash o)))) (Some (cant_create_storage_trie e)))
      as (? & Hd & _). by split; [|rewrite Hd]. }
  destruct (getTrie d o) as [t0 o0]; cbn [fst snd] in *. subst t0.
  pose proof (updateSlots_flushed (map_to_list (dirtyStorage o0)) (the_trie d o) o0 (NoDup_fst_map_to_list _)) as Hf.
  destruct (foldl updateSlot _ _) as [t1 o1]. destruct Hf as [S1 D1 W1 K1 O1].
  { apply Forall_forall. intros [k v] Hin%elem_of_map_to_list. rewrite Ed in Hin. by apply Hslots. }
  assert (forall k : Hash, k ∈ (map_to_list (dirtyStorage o0)).*1 <-> is_Some (dirtyStorage o !! k)) as Hdom.
  { intros k. rewrite <- Ed, list_elem_of_fmap. split; [intros ([k' v] & -> & Hin%elem_of_map_to_list); by exists v|].
    intros [v Hv]. exists (k, v). split; [done|]. by apply elem_of_map_to_list. }
  assert (forall k : Hash, is_word k -> trie_value t1 k = current d o k) as Htv.
  { intros k Hw. unfold current, committed. destruct (dirtyStorage o !! k) as [v|] eqn:Edk.
    - destruct (Hslots k v Edk) as [_ [w Hw']]. assert ((k, v) ∈ map_to_list (dirtyStorage o0)) as Hin by (apply elem_of_map_to_list; congruence).
      destruct (decide (v = default 0 (originStorage o0 !! k))) as [E|E].
      + destruct (K1 k v Hin E) as [_ Ht]. rewrite Ht by done. rewrite Eo, (origin_default o k w Hw') in E. subst v. cbn. by apply Hcache.
      + destruct (W1 k v Hin E) as [_ Ht]. by rewrite Ht.
    - assert (k ∉ (map_to_list (dirtyStorage o0)).*1) as Hn by (rewrite Hdom, Edk; by intros [? [=]]).
      destruct (O1 k Hn) as [_ Ht]. rewrite Ht by done. destruct (originStorage o !! k) as [w|] eqn:Eok; [cbn; by apply Hcache|done]. }
  assert (dirtyStorage o1 = ∅) as Hempty.
  { apply map_eq. intros k. rewrite D1, lookup_empty. destruct (decide _) as [Hin|Hin]; [done|]. rewrite Hdom in Hin.
    rewrite Ed. destruct (dirtyStorage o !! k) eqn:E; [|done]. exfalso. apply Hin. by eexists. }
  split; [unfold same_but_storage in *; cbn; intuition congruence|]. split; [done|]. split; [done|]. split; [done|].
  intros k Hw. assert (committed d (with_trie o1 (Some t1)) k = current d o k) as Hcm.
  { unfold committed. cbn [originStorage with_trie the_trie trie]. rewrite <- (Htv k Hw).
    destruct (originStorage o1 !! k) as [w|] eqn:E1; [|done]. cbn. symmetry.
    destruct (decide (k ∈ (map_to_list (dirtyStorage o0)).*1)) as [([k' v] & -> & Hin)%list_elem_of_fmap|Hn]; cbn [fst] in *.
    - destruct (decide (v = default 0 (originStorage o0 !! k'))) as [E|E].
      + destruct (K1 k' v Hin E) as [Hor Ht]. rewrite Ht by done. rewrite Hor, Eo in E1. by apply Hcache.
      + destruct (W1 k' v Hin E) as [Hor Ht]. rewrite Ht by done. congruence.
    - destruct (O1 k Hn) as [Hor Ht]. rewrite Ht by done. rewrite Hor, Eo in E1. by apply Hcache. }
  split; [done|]. unfold current at 1. cbn [dirtyStorage with_trie]. rewrite Hempty, lookup_empty. done.
Qed.

(** ** [Finalise] *)

#[local] Arguments Address_Bytes : simpl never.

Lemma Address_Bytes_inj a b : is_address a -> is_address b -> Address_Bytes a = Address_Bytes b -> a = b.
Proof.
  intros Ha Hb E. apply (f_equal be2z) in E. unfold Address_Bytes, AddressLength in E. rewrite !be2z_z2be in E.
  rewrite !Z.mod_small in E by assumption. done.
Qed.

(** What [Finalise] leaves of a dirty object. *)
Definition finalised (del : bool) (d : D) (o : stateObject) : stateObject :=
  if suicided o || (del && empty cr o) then with_deleted o true else updateRoot d o.

Definition writes_account (del : bool) (d : D) (o : stateObject) (t' : T) (a : Address) : Prop :=
  if suicided o || (del && empty cr o) then TryGet t' (Address_Bytes a) = ([], None)
  else exists enc, encodeAccount (data (updateRoot d o)) = Good enc /\ TryGet t' (Address_Bytes a) = (enc, None).

(** States that [Finalise] can write back: dirty objects are well-formed. *)
Record flushable (s : StateDB) : Prop := {
  fb_wf : wf cr s;
  fb_address : forall a o, stateObjects s !! a = Some o -> is_address a;
  fb_object : forall a o, stateObjects s !! a = Some o -> is_Some (dirties (jrnl s) !! a) ->
    account_ok (data o) /\ storage_ok (db s) o /\ deleted o = false
}.

Lemma updateRoot_account d o : storage_ok d o -> account_ok (data o) -> account_ok (data (updateRoot d o)) /\ address (updateRoot d o) = address o.
Proof.
  intros Hs [Hn Hb Hr Hc]. unfold updateRoot. pose proof (updateTrie_spec d o Hs) as Hu. destruct (updateTrie d o) as [t o'].
  destruct Hu as ((Ea & _ & Ed & _) & _). split; [|done]. cbn. rewrite Ed. split; cbn; try done. apply hash_word.
Qed.

(** [s'] differs from [s] in what the account trie holds at [a] and in the object loaded there. *)
Definition rewrites (s s' : StateDB) (a : Address) (o : stateObject) : Prop :=
  db s' = db s /\ jrnl s' = jrnl s /\ stateObjects s' = <[a := o]> (stateObjects s) /\
  (forall b, is_address a -> is_address b -> b <> a -> TryGet (tr s') (Address_Bytes b) = TryGet (tr s) (Address_Bytes b)).

Lemma setError_set_tr (s : StateDB) t e :
  db (setError (set_tr s t) e) = db s /\ jrnl (setError (set_tr s t) e) = jrnl s /\
  stateObjects (setError (set_tr s t) e) = stateObjects s /\ tr (setError (set_tr s t) e) = t.
Proof. unfold setError. by destruct (sdbErr (set_tr s t)). Qed.

Lemma deleteStateObject_ok s o a : address o = a ->
  rewrites s (deleteStateObject s o) a (with_deleted o true) /\
  TryGet (tr (deleteStateObject s o)) (Address_Bytes a) = ([], None).
Proof.
  intros Ea. unfold deleteStateObject, setStateObject. cbn [address with_deleted]. rewrite Ea. cbn [set_objects tr].
  pose proof (get_delete (tr s) (Address_Bytes a)) as Hd. destruct (TryDelete (tr s) (Address_Bytes a)) as [t err].
  cbn [fst] in Hd. destruct (setError_set_tr (set_objects s (<[a:=with_deleted o true]> (stateObjects s))) t err) as (E1 & E2 & E3 & E4).
  unfold rewrites. rewrite E1, E2, E3, E4. split; [|by rewrite Hd, decide_True]. split; [done|]. split; [done|]. split; [done|].
  intros b Ha Hb Hne. rewrite Hd, decide_False; [done|]. intros E. by apply Hne, Address_Bytes_inj.
Qed.

Lemma updateStateObject_ok s o a : address o = a -> account_ok (data o) ->
  exists s' enc, updateStateObject (setStateObject s o) o = Ok s' /\ rewrites s s' a o /\
    encodeAccount (data o) = Good enc /\ TryGet (tr s') (Address_Bytes a) = (enc, None).
Proof.
  intros Ea Hacc. destruct (account_roundtrip _ Hacc) as (enc & Eenc & _ & _). unfold updateStateObject, setStateObject.
  rewrite Eenc, Ea. cbn [set_objects tr]. pose proof (get_update (tr s) (Address_Bytes a) enc) as Hu.
  destruct (TryUpdate (tr s) (Address_Bytes a) enc) as [t err]. cbn [fst] in Hu. eexists _, enc. split; [reflexivity|].
  destruct (setError_set_tr (set_objects s (<[a:=o]> (stateObjects s))) t err) as (E1 & E2 & E3 & E4).
  unfold rewrites. rewrite E1, E2, E3, E4. split; [|by rewrite Hu, decide_True]. split; [done|]. split; [done|]. split; [done|].
  intros b Ha Hb Hne. rewrite Hu, decide_False; [done|]. intros E. by apply Hne, Address_Bytes_inj.
Qed.

Lemma finalise_one_ok del s a o : stateObjects s !! a = Some o -> address o = a -> account_ok (data o) -> storage_ok (db s) o ->
  exists s', finalise_one cr del s a = Ok s' /\ rewrites s s' a (finalised del (db s) o) /\ writes_account del (db s) o (tr s') a.
Proof.
  intros Hl Ea Hacc Hst. unfold finalise_one, finalised, writes_account. rewrite Hl.
  destruct (suicided o || (del && empty cr o)) eqn:Edel; cbn [obind].
  - destruct (deleteStateObject_ok s o a Ea) as [Hr Hg]. by eexists.
  - destruct (updateRoot_account (db s) o Hst Hacc) as [Hacc' Ea'].
    destruct (updateStateObject_ok s (updateRoot (db s) o) a) as (s' & enc & E & Hr & Henc & Hg); [congruence|done|].
    rewrite E. cbn [obind]. eexists. split; [reflexivity|]. split; [done|]. by exists enc.
Qed.

Lemma writes_account_get del d o t t' a : TryGet t' (Address_Bytes a) = TryGet t (Address_Bytes a) ->
  writes_account del d o t a -> writes_account del d o t' a.
Proof. intros E. unfold writes_account. by rewrite E. Qed.

(** The loop: every listed loaded object is written once, whatever the order;
    the rest of the trie and of the loaded objects stays. *)
Lemma finalise_loop_ok del (addrs : list Address) : NoDup addrs -> forall s,
  (forall a o, stateObjects s !! a = Some o -> is_address a /\ address o = a) ->
  (forall a o, a ∈ addrs -> stateObjects s !! a = Some o -> account_ok (data o) /\ storage_ok (db s) o) ->
  exists s', finalise_loop cr del addrs s = Ok s' /\ db s' = db s /\
    (forall a o, a ∈ addrs -> stateObjects s !! a = Some o ->
       stateObjects s' !! a = Some (finalised del (db s) o) /\ writes_account del (db s) o (tr s') a) /\
    (forall b : Address, is_address b -> b ∉ addrs \/ stateObjects s !! b = None ->
       stateObjects s' !! b = stateObjects s !! b /\ TryGet (tr s') (Address_Bytes b) = TryGet (tr s) (Address_Bytes b)).
Proof.
  induction addrs as [|a addrs IH]; intros Hnd s Hk Hok.
  { exists s. split; [done|]. split; [done|]. split; [intros ? ? Hin; by apply not_elem_of_nil in Hin|done]. }
  apply NoDup_cons in Hnd as [Hna Hnd]. cbn [finalise_loop]. destruct (stateObjects s !! a) as [o|] eqn:El.
  - destruct (Hk a o El) as [Haddr Ea]. destruct (Hok a o) as [Hacc Hst]; [left|done|].
    destruct (finalise_one_ok del s a o El Ea Hacc Hst) as (s1 & -> & (Edb & Ej & Eobj & Eget) & Hw). cbn [obind].
    assert (forall b, b <> a -> stateObjects s1 !! b = stateObjects s !! b) as Hoth
      by (intros b Hb; by rewrite Eobj, lookup_insert_ne by congruence).
    destruct (IH Hnd s1) as (s' & -> & Edb' & Hin & Hout).
    { intros b p. destruct (decide (b = a)) as [->|Hb]; [|rewrite Hoth by done; apply Hk].
      rewrite Eobj, lookup_insert_eq. intros [= <-]. split; [done|]. unfold finalised.
      destruct (suicided o || _); [done|]. by rewrite (proj2 (updateRoot_account _ _ Hst Hacc)). }
    { intros b p Hb Hl. rewrite Edb. apply (Hok b p); [by right|]. rewrite <- Hoth; [done|]. congruence. }
    exists s'. split; [done|]. split; [congruence|]. split.
    + intros b p Hb Hl. destruct (decide (b = a)) as [->|Hne].
      * destruct (Hout a Haddr (or_introl Hna)) as [E1 E2]. assert (p = o) as -> by congruence.
        split; [by rewrite E1, Eobj, lookup_insert_eq|]. eapply writes_account_get; [exact E2|done].
      * rewrite <- Edb. apply Hin; [by apply elem_of_cons in Hb as [|]|by rewrite Hoth].
    + intros b Hb Hor. assert (b <> a) as Hne by (destruct Hor as [Hx|Hx]; [by apply not_elem_of_cons in Hx as []|congruence]).
      rewrite <- Hoth by done. rewrite <- Eget by done. apply Hout; [done|]. rewrite Hoth by done.
      destruct Hor as [Hx|]; [left; by apply not_elem_of_cons in Hx as []|by right].
  - unfold finalise_one. rewrite El. cbn [obind]. destruct (IH Hnd s Hk) as (s' & -> & Edb' & Hin & Hout).
    { intros b p Hb. apply Hok. by right. }
    exists s'. split; [done|]. split; [done|]. split.
    + intros b p Hb Hl. apply Hin; [|done]. apply elem_of_cons in Hb as [->|]; congruence.
    + intros b Hb Hor. apply Hout; [done|]. destruct Hor as [Hx|]; [left; by apply not_elem_of_cons in Hx as []|by right].
Qed.

(** The account at [a] is written back from [o]: the account trie holds its
    data under the root of its storage trie, which holds its current storage. *)
Definition written_back (d : D) (o : stateObject) (s' : StateDB) (a : Address) : Prop :=
  exists o' t, stateObjects s' !! a = Some o' /\ trie o' = Some t /\ dirtyStorage o' = ∅ /\ deleted o' = false /\
    trie_object cr (tr s') a = Some (newObject cr a (data o')) /\
    data o' = mkAccount (Nonce (data o)) (Balance (data o)) (Trie_Hash t) (CodeHash (data o)) /\
    code o' = code o /\ dirtyCode o' = dirtyCode o /\
    forall k : Hash, is_word k -> trie_value t k = current d o k /\ current d o' k = current d o k.

(** The account at [a] is gone. *)
Definition erased (s' : StateDB) (a : Address) : Prop :=
  trie_object cr (tr s') a = None /\ lookup_object cr s' a = None.

Lemma trie_object_enc (t : T) a acc enc : encodeAccount acc = Good enc -> account_ok acc ->
  TryGet t (Address_Bytes a) = (enc, None) -> trie_object cr t a = Some (newObject cr a acc).
Proof.
  intros He Hok Hg. destruct (account_roundtrip acc Hok) as (b & Eb & Hne & Ed). assert (b = enc) as -> by congruence.
  unfold trie_object. rewrite Hg. cbn [fst]. rewrite (proj2 (Z.eqb_neq _ _)), Ed; [done|].
  destruct enc; [done|]. unfold zlen. cbn [length]. lia.
Qed.

Lemma finalised_written del d o s' a : suicided o || (del && empty cr o) = false -> account_ok (data o) -> storage_ok d o ->
  deleted o = false -> db s' = d ->
  stateObjects s' !! a = Some (finalised del d o) -> writes_account del d o (tr s') a -> written_back d o s' a.
Proof.
  intros Ekeep Hacc Hst Hdel <- Hl Hw. unfold finalised, writes_account in *. rewrite Ekeep in *.
  destruct Hw as (enc & Henc & Hg). destruct (updateRoot_account _ _ Hst Hacc) as [Hacc' _].
  pose proof (trie_object_enc _ _ _ _ Henc Hacc' Hg) as Ht. clear Henc Hg Hacc'. revert Hl Ht. unfold updateRoot.
  pose proof (updateTrie_spec (db s') o Hst) as Hu. destruct (updateTrie (db s') o) as [t o1].
  destruct Hu as ((_ & _ & Ed & Ec & Edc & _ & Edel) & Edirty & Et & Hval & Hcur). intros Hl Ht.
  exists (setRoot o1 (Trie_Hash t)), t. split; [done|]. split; [done|]. split; [done|]. split; [by cbn; rewrite Edel|].
  split; [done|]. split; [cbn; by rewrite Ed|]. split; [done|]. split; [done|]. intros k Hk. split; [by apply Hval|].
  transitivity (current (db s') o1 k); [|by apply Hcur]. unfold current, committed, the_trie. cbn. by rewrite Et.
Qed.

Lemma finalised_erased del d o s' a : suicided o || (del && empty cr o) = true ->
  stateObjects s' !! a = Some (finalised del d o) -> writes_account del d o (tr s') a -> erased s' a.
Proof.
  unfold finalised, writes_account, erased, lookup_object, trie_object. intros -> -> ->. done.
Qed.

Lemma elem_of_keys {A} (m : gmap Address A) (a : Address) : a ∈ (map_to_list m).*1 <-> is_Some (m !! a).
Proof.
  rewrite list_elem_of_fmap. split.
  - intros ([b x] & -> & Hin%elem_of_map_to_list). by exists x.
  - intros [x Hx]. exists (a, x). by rewrite elem_of_map_to_list.
Qed.

(** C10. [Finalise] writes back exactly the dirty objects, and the order in which
    the language visits them does not matter: it never panics, an account that
    committed suicide (or is empty, when empty accounts are deleted) is gone
    from the account trie and from the loaded objects, every other dirty account is
    in the account trie with its nonce, balance, code hash and the root of a
    storage trie that holds its current storage, and all the other accounts, the
    journal and refund apart, are left alone. *)
Theorem Finalise_correct del (addrs : list Address) s : flushable s -> addrs ≡ₚ (map_to_list (dirties (jrnl s))).*1 ->
  exists s', Finalise_in cr addrs del s = Ok s' /\ jrnl s' = newJournal /\ validRevisions s' = [] /\ refund s' = 0 /\
    forall a : Address, is_address a ->
      match stateObjects s !! a, dirties (jrnl s) !! a with
      | Some o, Some _ =>
          if suicided o || (del && empty cr o) then erased s' a else written_back (db s) o s' a
      | _, _ => stateObjects s' !! a = stateObjects s !! a /\ trie_object cr (tr s') a = trie_object cr (tr s) a
      end.
Proof.
  intros [Hwf Haddr Hobj] Hperm.
  assert (forall a : Address, a ∈ addrs <-> is_Some (dirties (jrnl s) !! a)) as Hin
    by (intros a; rewrite Hperm; apply elem_of_keys).
  destruct (finalise_loop_ok del addrs) with (s := s) as (s' & E & Edb & Hdone & Hkeep).
  { rewrite Hperm. apply NoDup_fst_map_to_list. }
  { intros a o Hl. split; [by eapply Haddr|by eapply wf_key]. }
  { intros a o Ha Hl. apply Hin in Ha. by destruct (Hobj a o Hl Ha) as (? & ? & _). }
  exists (clearJournalAndRefund s'). unfold Finalise_in. rewrite E. split; [done|]. split; [done|]. split; [done|]. split; [done|].
  intros a Ha. destruct (stateObjects s !! a) as [o|] eqn:El; [destruct (dirties (jrnl s) !! a) as [n|] eqn:Ed|].
  - destruct (Hdone a o) as [Hl Hw]; [by apply Hin; rewrite Ed|done|].
    destruct (Hobj a o El) as (Hacc & Hst & Hdel); [by rewrite Ed|].
    destruct (suicided o || _) eqn:Edel; [by eapply finalised_erased|by eapply finalised_written].
  - destruct (Hkeep a Ha) as [E1 E2]; [left; rewrite Hin, Ed; by intros []|]. unfold trie_object. cbn. by rewrite E2, E1.
  - destruct (Hkeep a Ha) as [E1 E2]; [by right|]. unfold trie_object. cbn. by rewrite E2, E1.
Qed.
End flush.

(** ** The theorems at work *)

Lemma mt_get_delete t k k' : mt_get (mt_delete t k) k' = if decide (k' = k) then [] else mt_get t k'.
Proof.
  induction t as [|[k0 v] t IH]; cbn; [by case_decide|].
  destruct (bool_decide_reflect (k0 = k)) as [->|Hne].
  - rewrite IH. destruct (decide (k' = k)) as [|Hk]; [done|]. by rewrite bool_decide_false by congruence.
  - cbn. rewrite IH. destruct (bool_decide_reflect (k0 = k')) as [->|]; [by rewrite decide_False|done].
Qed.

#[export] Instance mem_trie_laws : TrieLaws MemDB MemTrie.
Proof.
  split; intros.
  - cbn. destruct (bool_decide_reflect (k = k')) as [->|Hne]; [by rewrite decide_True|].
    rewrite mt_get_delete. by rewrite !decide_False by congruence.
  - cbn. rewrite mt_get_delete. by case_decide.
  - change (Trie_Hash t) with (mt_hash t). unfold mt_hash, mem_hash. rewrite be2z_z2be. apply Z.mod_pos_bound. done.
Qed.

Lemma map_all {A} (m : gmap Address A) (P : Address -> A -> Prop) :
  Forall (fun p => P (fst p) (snd p)) (map_to_list m) -> forall a x, m !! a = Some x -> P a x.
Proof. rewrite Forall_forall. intros HP a x Hl. apply (HP (a, x)). by apply elem_of_map_to_list. Qed.

(** Account 1 holds 5 wei and a storage slot; account 2 has committed suicide. *)
Definition flush_state : MemState :=
  State.SetState mem_crypto
    (snd (State.Suicide mem_crypto (State.AddBalance mem_crypto (State.AddBalance mem_crypto empty_state 2 3) 1 5) 2)) 1 7 9.


(** Enumerates a closed finite map. *)
Ltac enumerate :=
  match goal with |- Forall _ (map_to_list ?m) =>
    let l := eval vm_compute in (map_to_list m) in
    replace (map_to_list m) with l by (vm_compute; reflexivity); repeat apply Forall_cons_2; try apply Forall_nil_2; cbn [fst snd]
  end.

Ltac pattern_all :=
  match goal with |- forall (k : Hash) (v : Hash), ?m !! k = Some v -> @?P k v => apply (map_all m P) end.

Lemma flush_state_ok : flushable mem_crypto flush_state.
Proof.
  split.
  - refine (sn_wf _ _ (proj2 (uses_tracks mem_crypto mem_hash_length empty_state flush_state _ mem_sane))).
    eapply u_then; [apply u_AddBalance|]. eapply u_then; [apply u_AddBalance|]. eapply u_then; [apply u_Suicide|apply u_SetState].
  - apply (map_all _ (fun a _ => is_address a)). enumerate; done.
  - intros a o Hl _. revert a o Hl.
    apply (map_all _ (fun _ o => account_ok (State.data o) /\ storage_ok (State.db flush_state) o /\ State.deleted o = false)).
    enumerate; (split; [by split|]); (split; [split|done]); pattern_all; enumerate; done.
Qed.

Lemma Finalise_correct_witness : exists s', State.Finalise_in mem_crypto [1; 2] true flush_state = Ok s' /\
  written_back mem_crypto (State.db flush_state) (get_or_new mem_crypto flush_state 1) s' 1 /\ erased mem_crypto s' 2.
Proof.
  destruct (Finalise_correct mem_crypto true [1; 2] flush_state flush_state_ok) as (s' & E & _ & _ & _ & Ha).
  - replace ((map_to_list (State.dirties (State.jrnl flush_state))).*1) with [2; 1] by (vm_compute; reflexivity). apply Permutation_swap.
  - exists s'. split; [exact E|]. split; [exact (Ha 1 ltac:(done))|exact (Ha 2 ltac:(done))].
Defined.

(** A committed state, and its account 1 created anew. *)
Definition committed_state : outcome MemState :=
  let! (_, s) := State.Commit mem_crypto true flush_state in Ok s.
Definition recreated_state : outcome MemState :=
  let! s := committed_state in Ok (State.CreateAccount mem_crypto s 1).

(** An account that [CreateAccount] replaces is not marked dirty: the new
    account of the state below has an empty storage, yet [Copy] brings the old
    storage back, and [Finalise] leaves the old account in the trie. *)
Theorem recreated_account_is_lost :
  (let! s := recreated_state in Ok (fst (State.GetState mem_crypto s 1 7))) = Ok 0 /\
  (let! s := recreated_state in let! c := State.Copy mem_crypto s in Ok (fst (State.GetState mem_crypto c 1 7))) = Ok 9 /\
  (let! s := recreated_state in let! f := State.Finalise mem_crypto true s in Ok (State.tr f)) =
  (let! s := committed_state in Ok (State.tr s)).
Proof. split; [|split]; vm_compute; reflexivity. Qed.
