(* ===== verification/BlockState.v ===== *)
(** * The world state between transactions

    What the processing of a block needs of the world state beyond the machine:
    [BlockDB] with the laws [BlockLaws], and that [kernel/state] over a lawful trie
    provides them.  In particular [Finalise] keeps the invariant of the state and no
    account gains ether by it. *)
From S2P Require Import Prelude CommonMath RlpEncode RlpDecode Opcodes VmBase VmInterface VmLaws StateAccount.
From S2P Require Import StateModel StateFacts StateKeys StateInstance Supply MemDb StateTransition StateTheorems StateFlush.
From stdpp Require Import base numbers list gmap.
From Stdlib Require Import ZArith Lia.
#[local] Open Scope Z_scope.

Class BlockDB (S : Type) := {
  Prepare : S -> Hash -> Hash -> Z -> S;
  Finalise : bool -> S -> outcome S;
  IntermediateRoot : bool -> S -> outcome (Hash * S);
  GetLogs : S -> Hash -> list Log;
  SetBalance : S -> Address -> Z -> S
}.

Class BlockLaws (S : Type) `{StateDB S} `{BlockDB S} (cr : Crypto) `{!StateDBLaws S cr} : Prop := {
  prepare_ok : forall s th bh ti, state_ok s -> state_ok (Prepare s th bh ti);
  prepare_balance : forall s th bh ti a, GetBalance (Prepare s th bh ti) a = GetBalance s a;
  finalise_ok : forall del s, state_ok s -> exists s', Finalise del s = Ok s' /\ state_ok s' /\
    forall a, is_address a -> GetBalance s' a <= GetBalance s a;
  root_ok : forall del s s', Finalise del s = Ok s' -> exists root, IntermediateRoot del s = Ok (root, s');
  set_balance_ok : forall s a v, state_ok s -> is_address a -> 0 <= v -> state_ok (SetBalance s a v);
  set_balance : forall s a v b, state_ok s -> GetBalance (SetBalance s a v) b = if decide (b = a) then v else GetBalance s b
}.

Section finalise.
Context {D T : Type} `{Database D T} `{!TrieLaws D T} (cr : Crypto) (Hk : forall d, zlen (keccak256 cr d) = 32).
Import State.
Local Abbreviation SDB := (@State.StateDB D T).
Local Abbreviation stateObject := (@State.stateObject T).
#[local] Hint Extern 0 (VmInterface.StateDB _) => exact (state_db cr) : typeclass_instances.

(** ** Updating the root of an object *)

Lemma updateSlot_same (t : T) (o : stateObject) p : same_but_storage o (snd (updateSlot (t, o) p)).
Proof.
  destruct p as [key value]. unfold updateSlot. cbn [originStorage with_dirty]. destruct (value =? _); [done|].
  destruct (value =? 0).
  - destruct (TryDelete t (Hash_Bytes key)) as [t' err]. cbn [snd].
    destruct (obj_setError_same (with_origin (with_dirty o (delete key (dirtyStorage o))) (<[key := value]> (originStorage o))) err) as [Hs _]. exact Hs.
  - destruct (TryUpdate t (Hash_Bytes key) _) as [t' err]. cbn [snd].
    destruct (obj_setError_same (with_origin (with_dirty o (delete key (dirtyStorage o))) (<[key := value]> (originStorage o))) err) as [Hs _]. exact Hs.
Qed.

(** What the round for [key] does to the two storage maps. *)
Lemma updateSlot_storage (t : T) (o : stateObject) (key value : Hash) :
  let o' := snd (updateSlot (t, o) (key, value)) in
  dirtyStorage o' = delete key (dirtyStorage o) /\
  (originStorage o' = <[key := value]> (originStorage o) \/ value = default 0 (originStorage o !! key) /\ originStorage o' = originStorage o).
Proof.
  unfold updateSlot. cbn [originStorage with_dirty]. destruct (Z.eqb_spec value (default 0 (originStorage o !! key))); [cbn; auto|].
  set (o1 := with_origin _ _). assert (forall e, dirtyStorage (obj_setError o1 e) = delete key (dirtyStorage o) /\
    originStorage (obj_setError o1 e) = <[key := value]> (originStorage o)) as Hs.
  { intros e. destruct (obj_setError_same o1 e) as (_ & -> & ->). done. }
  destruct (value =? 0); [destruct (TryDelete t (Hash_Bytes key)) as [t' e]|destruct (TryUpdate t (Hash_Bytes key) _) as [t' e]];
    cbn [snd]; destruct (Hs e) as [-> ->]; auto.
Qed.

(** The committed values that the slots of [l] do not replace are natural numbers. *)
Definition origin_ok (l : list (Hash * Hash)) (o : stateObject) : Prop :=
  (forall k v : Hash, originStorage o !! k = Some v -> k ∉ l.*1 -> 0 <= v) /\
  (forall k v : Hash, dirtyStorage o !! k = Some v -> k ∈ l.*1) /\ (forall k v : Hash, (k, v) ∈ l -> 0 <= v).

Lemma updateSlots_origin (l : list (Hash * Hash)) : forall (t : T) (o : stateObject), NoDup l.*1 -> origin_ok l o ->
  origin_ok [] (snd (foldl updateSlot (t, o) l)) /\ same_but_storage o (snd (foldl updateSlot (t, o) l)).
Proof.
  induction l as [|[key value] l IH]; intros t o Hnd Ho; [done|]. cbn [foldl]. cbn [fmap list_fmap fst] in Hnd.
  apply NoDup_cons in Hnd as [Hkey Hnd].
  pose proof (updateSlot_same t o (key, value)) as Hs. pose proof (updateSlot_storage t o key value) as [Hd Hor].
  destruct (updateSlot (t, o) (key, value)) as [t1 o1]. cbn [snd] in *. destruct Ho as (H1 & H2 & H3).
  destruct (IH t1 o1 Hnd) as [Hok Hs'].
  - split; [|split].
    + intros k v Hl Hn. destruct (decide (k = key)) as [->|Hne].
      * destruct Hor as [Hor|[Hv Hor]]; rewrite Hor in Hl.
        -- rewrite lookup_insert_eq in Hl. injection Hl as <-. apply (H3 key). left.
        -- assert (value = v) as <- by (etrans; [exact Hv|exact (f_equal (default 0) Hl)]). apply (H3 key). left.
      * assert (originStorage o !! k = Some v) as Hl' by (destruct Hor as [Hor|[_ Hor]]; rewrite Hor in Hl; [by rewrite lookup_insert_ne in Hl|done]).
        apply (H1 k v Hl'). cbn [fmap list_fmap fst]. by rewrite not_elem_of_cons.
    + intros k v Hl. rewrite Hd, lookup_delete_Some in Hl. destruct Hl as [Hne Hl]. specialize (H2 k v Hl). cbn [fmap list_fmap fst] in H2.
      apply elem_of_cons in H2 as [->|]; done.
    + intros k v Hin. apply (H3 k). by right.
  - split; [done|]. unfold same_but_storage in *. intuition congruence.
Qed.

Lemma getTrie_same (d : D) (o : stateObject) : same_but_storage o (snd (getTrie d o)) /\
  dirtyStorage (snd (getTrie d o)) = dirtyStorage o /\ originStorage (snd (getTrie d o)) = originStorage o.
Proof.
  unfold getTrie. destruct (trie o); [done|]. destruct (OpenStorageTrie _ _ _) as [t|e]; [done|]. cbn [snd].
  apply (obj_setError_same (with_trie o (Some (OpenEmptyTrie d (addrHash o)))) (Some (cant_create_storage_trie e))).
Qed.

Lemma updateRoot_ok (d : D) (o : stateObject) : obj_ok cr d o ->
  obj_ok cr d (updateRoot d o) /\ address (updateRoot d o) = address o /\ deleted (updateRoot d o) = deleted o /\
  Balance (data (updateRoot d o)) = Balance (data o).
Proof.
  intros [Hb Hh Hc Hl Hst]. unfold updateRoot, updateTrie. pose proof (getTrie_same d o) as (Hs0 & Ed & Eo).
  destruct (getTrie d o) as [t0 o0]. cbn [snd] in *.
  destruct (updateSlots_origin (map_to_list (dirtyStorage o0)) t0 o0) as [Hok Hs1]; [apply NoDup_fst_map_to_list| |].
  - split; [|split].
    + intros k v Hor Hn. rewrite Eo in Hor. specialize (Hst k). unfold current, committed in Hst. destruct (dirtyStorage o !! k) as [w|] eqn:Edk.
      * exfalso. apply Hn. apply list_elem_of_fmap. exists (k, w). split; [done|]. apply elem_of_map_to_list. by rewrite Ed.
      * by rewrite (f_equal (default _) Hor : default _ (originStorage o !! k) = v) in Hst.
    + intros k v Hv. apply list_elem_of_fmap. exists (k, v). split; [done|]. by apply elem_of_map_to_list.
    + intros k v Hin%elem_of_map_to_list. rewrite Ed in Hin. specialize (Hst k). unfold current in Hst. by rewrite Hin in Hst.
  - destruct (foldl updateSlot _ _) as [t1 o1]. cbn [snd] in *. destruct Hok as (H1 & H2 & _).
    destruct Hs0 as (A1 & A2 & A3 & A4 & A5 & A6 & A7). destruct Hs1 as (B1 & B2 & B3 & B4 & B5 & B6 & B7).
    split; [|cbn; split; [congruence|split; [congruence|]]; by rewrite B3, A3].
    assert (codev cr d (setRoot (with_trie o1 (Some t1)) (Trie_Hash t1)) = codev cr d o) as Ecode.
    { unfold codev. cbn. by rewrite B4, A4, B3, A3, B2, A2. }
    split; rewrite ?Ecode; cbn [data setRoot with_trie with_data Balance StateAccount.CodeHash]; rewrite ?B3, ?A3; try done.
    intros k. unfold current, committed. cbn [dirtyStorage originStorage setRoot with_trie with_data].
    destruct (dirtyStorage o1 !! k) as [v|] eqn:Edk; [by destruct (not_elem_of_nil k (H2 k v Edk))|]. cbn [default].
    destruct (originStorage o1 !! k) as [v|] eqn:Eok; [cbn; apply (H1 k v Eok); apply not_elem_of_nil|]. cbn [default].
    unfold trie_value. repeat case_match; try done. rewrite BytesToHash_mod. by apply Z.mod_pos_bound.
Qed.

(** ** The loop of [Finalise] *)

Lemma encodeAccount_good (a : Account) : 0 <= Balance a -> exists enc, encodeAccount a = Good enc.
Proof.
  intros Hb. assert (forall w, exists w', writeBigInt (Balance a) w = Good w') as Hw.
  { intros w. unfold writeBigInt. destruct (Z.ltb_spec (Balance a) 0) as [|_]; [lia|]. destruct (Balance a =? 0); by eexists. }
  unfold encodeAccount, EncodeToBytes. cbn -[writeBigInt toBytes writeUint writeBytes listEnd Hash_Bytes].
  match goal with |- context [writeBigInt (Balance a) ?w] => destruct (Hw w) as [w1 ->] end. by eexists.
Qed.

Lemma finalise_one_rewrites del (s : SDB) a o : stateObjects s !! a = Some o -> address o = a -> obj_ok cr (db s) o ->
  exists s', finalise_one cr del s a = Ok s' /\ rewrites s s' a (finalised cr del (db s) o) /\
    (deleted (finalised cr del (db s) o) = true -> deleted o = false -> trie_object cr (tr s') a = None).
Proof.
  intros Hl Ea Ho. unfold finalise_one, finalised. rewrite Hl. destruct (suicided o || (del && empty cr o)); cbn [obind].
  - destruct (deleteStateObject_ok s o a Ea) as [Hr Hg]. eexists. split; [reflexivity|]. split; [done|].
    intros _ _. unfold trie_object. cbn [tr set_objectsDirty]. by rewrite Hg.
  - destruct (updateRoot_ok (db s) o Ho) as (Ho' & Ea' & Ed' & _). destruct (encodeAccount_good _ (ob_balance _ _ _ Ho')) as [enc Eenc].
    unfold updateStateObject, setStateObject. rewrite Eenc, Ea', Ea. cbn [set_objects tr].
    pose proof (get_update (tr s) (Address_Bytes a) enc) as Hu. destruct (TryUpdate (tr s) (Address_Bytes a) enc) as [t err]. cbn [fst obind] in *.
    destruct (setError_set_tr (set_objects s (<[a := updateRoot (db s) o]> (stateObjects s))) t err) as (E1 & E2 & E3 & E4).
    eexists. split; [reflexivity|]. unfold rewrites. cbn [db jrnl stateObjects tr set_objectsDirty]. rewrite E1, E2, E3, E4. split; [|congruence].
    split; [done|]. split; [done|]. split; [done|]. intros b Ha Hb Hne. rewrite Hu, decide_False; [done|].
    intros E. by apply Hne, Address_Bytes_inj.
Qed.

(** The invariant of the loop over [rest], from the state [s0]. *)
Record midway (s0 : SDB) (rest : list Address) (s : SDB) : Prop := {
  mw_db : db s = db s0;
  mw_key : forall a o, stateObjects s !! a = Some o -> is_address a /\ address o = a;
  mw_deleted : forall a o, stateObjects s !! a = Some o -> deleted o = true -> a ∉ rest /\ trie_object cr (tr s) a = None;
  mw_obj : forall a o, is_address a -> lookup_object cr s a = Some o -> obj_ok cr (db s) o;
  mw_balance : forall a, is_address a -> VmInterface.GetBalance s a <= VmInterface.GetBalance s0 a
}.

Lemma rewrites_other (s s' : SDB) a o b : rewrites s s' a o -> is_address a -> is_address b -> b <> a ->
  stateObjects s' !! b = stateObjects s !! b /\ trie_object cr (tr s') b = trie_object cr (tr s) b /\
  lookup_object cr s' b = lookup_object cr s b.
Proof.
  intros (_ & _ & Eo & Et) Ha Hb Hne. assert (stateObjects s' !! b = stateObjects s !! b) as E1 by (by rewrite Eo, lookup_insert_ne).
  assert (trie_object cr (tr s') b = trie_object cr (tr s) b) as E2 by (unfold trie_object; by rewrite Et).
  split; [done|]. split; [done|]. unfold lookup_object. by rewrite E1, E2.
Qed.

Lemma midway_step del s0 a rest (s : SDB) : NoDup (a :: rest) -> midway s0 (a :: rest) s ->
  exists s', finalise_one cr del s a = Ok s' /\ midway s0 rest s'.
Proof.
  intros [Hna _]%NoDup_cons [Hdb Hkey Hdel Hobj Hbal]. destruct (stateObjects s !! a) as [o|] eqn:El.
  2: { exists s. unfold finalise_one. rewrite El. split; [done|]. split; try done. intros b p Hl Hd. destruct (Hdel b p Hl Hd) as [Hb Ht].
       split; [by apply not_elem_of_cons in Hb as []|done]. }
  destruct (Hkey a o El) as [Haa Ea]. assert (deleted o = false) as Hal.
  { destruct (deleted o) eqn:Ed; [|done]. destruct (Hdel a o El Ed) as [Hn _]. exfalso. apply Hn. left. }
  assert (lookup_object cr s a = Some o) as Elook by (unfold lookup_object; by rewrite El, Hal).
  pose proof (Hobj a o Haa Elook) as Ho. destruct (finalise_one_rewrites del s a o El Ea Ho) as (s' & -> & Hr & Hgone).
  exists s'. split; [done|]. pose proof Hr as (E1 & _ & E3 & _). destruct (updateRoot_ok (db s) o Ho) as (Ho' & Ea' & Ed' & Eb').
  assert (stateObjects s' !! a = Some (finalised cr del (db s) o)) as Ela by (by rewrite E3, lookup_insert_eq).
  assert (lookup_object cr s' a = None \/ lookup_object cr s' a = Some (updateRoot (db s) o)) as Hla.
  { unfold lookup_object. rewrite Ela. unfold finalised. destruct (suicided o || _); [by left|]. rewrite Ed', Hal. by right. }
  split.
  - congruence.
  - intros b p Hl. destruct (decide (b = a)) as [->|Hne]; [|rewrite E3, lookup_insert_ne in Hl by done; by apply Hkey].
    split; [done|]. rewrite Ela in Hl. injection Hl as <-. unfold finalised. destruct (suicided o || _); [done|congruence].
  - intros b p Hl Hd. destruct (decide (b = a)) as [->|Hne].
    + split; [done|]. rewrite Ela in Hl. injection Hl as <-. by apply Hgone.
    + rewrite E3, lookup_insert_ne in Hl by done. destruct (Hdel b p Hl Hd) as [Hb Ht]. split; [by apply not_elem_of_cons in Hb as []|].
      destruct (rewrites_other s s' a _ b Hr Haa (proj1 (Hkey b p Hl)) Hne) as (_ & -> & _). done.
  - intros b p Hb Hl. rewrite E1. destruct (decide (b = a)) as [->|Hne].
    + destruct Hla as [Hla|Hla]; rewrite Hla in Hl; [done|]. by injection Hl as <-.
    + destruct (rewrites_other s s' a _ b Hr Haa Hb Hne) as (_ & _ & E). rewrite E in Hl. by apply Hobj in Hl.
  - intros b Hb. etrans; [|by apply Hbal]. rewrite !(GetBalance_spec cr). destruct (decide (b = a)) as [->|Hne].
    + rewrite Elook. cbn [from_option]. destruct Hla as [-> | ->]; cbn [from_option]; [apply Ho|lia].
    + destruct (rewrites_other s s' a _ b Hr Haa Hb Hne) as (_ & _ & ->). lia.
Qed.

Lemma midway_loop del s0 (addrs : list Address) : forall s, NoDup addrs -> midway s0 addrs s ->
  exists s', finalise_loop cr del addrs s = Ok s' /\ midway s0 [] s'.
Proof.
  induction addrs as [|a addrs IH]; intros s Hnd Hm; cbn [finalise_loop]; [by eexists|].
  destruct (midway_step del s0 a addrs s Hnd Hm) as (s1 & -> & Hm1). cbn [obind]. apply NoDup_cons in Hnd as [_ Hnd]. by apply IH.
Qed.

Lemma Finalise_sound del (s : SDB) : sound cr s -> exists s', State.Finalise cr del s = Ok s' /\ sound cr s' /\
  forall a, is_address a -> VmInterface.GetBalance s' a <= VmInterface.GetBalance s a.
Proof.
  intros [[Hwf Hobj Hr] [Hk1 He Hd]]. destruct (midway_loop del s (map_to_list (dirties (jrnl s))).*1 s) as (s' & E & [M1 M2 M3 M4 M5]).
  - apply NoDup_fst_map_to_list.
  - split; [done|done| |done|done]. intros a o Hl Hdel. destruct (Hd a o Hl Hdel) as [Hn _]. split; [|by eapply wf_deleted].
    rewrite elem_of_keys, Hn. by intros [? [=]].
  - exists (clearJournalAndRefund s'). unfold State.Finalise, Finalise_in. rewrite E. cbn [obind]. split; [done|].
    split; [|intros a Ha; specialize (M5 a Ha); rewrite !(GetBalance_spec cr) in *; exact M5].
    split; [split; [split| |]|split].
    + intros a o Hl. by apply M2.
    + intros a o Hl Hdel. by apply (M3 a o).
    + apply Forall_nil_2.
    + apply Forall_nil_2.
    + exact M4.
    + by vm_compute.
    + exact M2.
    + intros e a []%not_elem_of_nil.
    + intros a o Hl Hdel. split; [apply lookup_empty|]. intros e []%not_elem_of_nil.
Qed.
End finalise.

(** ** [kernel/state] keeps the laws *)

Section instance.
Context {D T : Type} `{Database D T} `{!TrieLaws D T} (cr : Crypto) (Hk : forall d, zlen (keccak256 cr d) = 32).
Local Abbreviation SDB := (@State.StateDB D T).

Definition block_db : BlockDB SDB := {|
  Prepare := State.Prepare;
  Finalise := State.Finalise cr;
  IntermediateRoot := State.IntermediateRoot cr;
  GetLogs := State.GetLogs;
  SetBalance := State.SetBalance cr
|}.

Lemma SetBalance_addressed (s : SDB) a v : addressed s -> is_address a -> addressed (State.SetBalance cr s a v).
Proof.
  intros Hs Ha. unfold State.SetBalance. pose proof (GetOrNew_addressed cr s a Hs Ha) as Hg.
  destruct (State.GetOrNewStateObject cr s a) as [o s1]. destruct Hg as [Hs1 Ho].
  by eapply obj_change; [| | exact Ho|done|done|intros b [= <-]].
Qed.

Lemma state_blocks : @BlockLaws SDB (state_db cr) block_db cr (state_laws cr Hk).
Proof.
  split.
  - intros s th bh ti [[[H1 H2 H3 H4] Ho Hr] [K1 K2 K3]]. by split; [split; [split| |]|split].
  - intros s th bh ti a. by rewrite !(GetBalance_spec cr).
  - intros del s Hs. by apply Finalise_sound.
  - intros del s s' E. cbn in E |- *. unfold State.IntermediateRoot. rewrite E. by eexists.
  - intros s a v [Hs Had] Ha Hv. split; [|by apply SetBalance_addressed].
    eapply acts_ok; [by apply SetBalance_acts, Hs|done|]. apply setBalance_ok; [by apply get_or_new_ok|done].
  - intros s a v b [Hs _]. exact (acts_balance_at cr s _ _ _ b (SetBalance_acts cr s a v (wo_wf _ _ Hs))).
Qed.
End instance.

#[export] Instance mem_block_db : BlockDB MemState := block_db mem_crypto.
#[export] Instance mem_block_laws : @BlockLaws MemState mem_state_db mem_block_db mem_crypto mem_state_laws :=
  state_blocks mem_crypto mem_hash_length.
