(* ===== verification/BlockProcess.v ===== *)
(** * Processing a block ([kernel/state_processor.go], [kernel/evm.go], [kernel/block_validator.go])

    The context that the machine gets from a header, the application of the
    transactions of a block to the world state, the final step of the two engines,
    and the checks of a block against its header. *)
From S2P Require Import Prelude CommonMath Params RlpEncode Opcodes VmBase VmInterface VmLaws Precompiles Evm GasTable.
From S2P Require Import Instructions JumpTable Interpreter RlpTyped ChainTypes StateTransition Transactions Ethash Clique.
From S2P Require Import BlockState DeriveSha.
From stdpp Require Import base numbers list gmap.
From Stdlib Require Import ZArith Lia.
#[local] Open Scope Z_scope.

(** ** The DAO fork ([params/dao.go], [lib/consensus/misc/dao.go]) *)

Definition DAORefundContract : Address := 0xbf4ed7b27f1d666546e30d74d50d173d20bca754.
Definition DAODrainList : list Address :=
  [0xd4fe7bc31cedb7bfb8a345f31e668033056b2728; 0xb3fb0e5aba0e20e5c49d252dfd30e102b171a425;
   0x2c19c7f9ae8b751e37aeb2d93a699722395ae18f; 0xecd135fa4f61a655311e86238c92adcd779555d2;
   0x1975bd06d486162d5dc297798dfc41edd5d160a7; 0xa3acf3a1e16b1d7c315e23510fdd7847b48234f6;
   0x319f70bab6845585f412ec7724b744fec6095c85; 0x06706dd3f2c9abf0a21ddcc6941d9b86f0596936;
   0x5c8536898fbb74fc7445814902fd08422eac56d0; 0x6966ab0d485353095148a2155858910e0965b6f9;
   0x779543a0491a837ca36ce8c635d6154e3c4911a6; 0x2a5ed960395e2a49b1c758cef4aa15213cfd874c;
   0x5c6e67ccd5849c0d29219c4f95f1a7a93b3f5dc5; 0x9c50426be05db97f5d64fc54bf89eff947f0a321;
   0x200450f06520bdd6c527622a273333384d870efb; 0xbe8539bfe837b67d1282b2b1d61c3f723966f049;
   0x6b0c4d41ba9ab8d8cfb5d379c69a612f2ced8ecb; 0xf1385fb24aad0cd7432824085e42aff90886fef5;
   0xd1ac8b1ef1b69ff51d1d401a476e7e612414f091; 0x8163e7fb499e90f8544ea62bbf80d21cd26d9efd;
   0x51e0ddd9998364a2eb38588679f0d2c42653e4a6; 0x627a0a960c079c21c34f7612d5d230e01b4ad4c7;
   0xf0b1aa0eb660754448a7937c022e30aa692fe0c5; 0x24c4d950dfd4dd1902bbed3508144a54542bba94;
   0x9f27daea7aca0aa0446220b98d028715e3bc803d; 0xa5dc5acd6a7968a4554d89d65e59b7fd3bff0f90;
   0xd9aef3a1e38a39c16b31d1ace71bca8ef58d315b; 0x63ed5a272de2f6d968408b4acb9024f4cc208ebf;
   0x6f6704e5a10332af6672e50b3d9754dc460dfa4d; 0x77ca7b50b6cd7e2f3fa008e24ab793fd56cb15f6;
   0x492ea3bb0f3315521c31f273e565b868fc090f17; 0x0ff30d6de14a8224aa97b78aea5388d1c51c1f00;
   0x9ea779f907f0b315b364b0cfc39a0fde5b02a416; 0xceaeb481747ca6c540a000c1f3641f8cef161fa7;
   0xcc34673c6c40e791051898567a1222daf90be287; 0x579a80d909f346fbfb1189493f521d7f48d52238;
   0xe308bd1ac5fda103967359b2712dd89deffb7973; 0x4cb31628079fb14e4bc3cd5e30c2f7489b00960c;
   0xac1ecab32727358dba8962a0f3b261731aad9723; 0x4fd6ace747f06ece9c49699c7cabc62d02211f75;
   0x440c59b325d2997a134c2c7c60a8c61611212bad; 0x4486a3d68fac6967006d7a517b889fd3f98c102b;
   0x9c15b54878ba618f494b38f0ae7443db6af648ba; 0x27b137a85656544b1ccb5a0f2e561a5703c6a68f;
   0x21c7fdb9ed8d291d79ffd82eb2c4356ec0d81241; 0x23b75c2f6791eef49c69684db4c6c1f93bf49a50;
   0x1ca6abd14d30affe533b24d7a21bff4c2d5e1f3b; 0xb9637156d330c0d605a791f1c31ba5890582fe1c;
   0x6131c42fa982e56929107413a9d526fd99405560; 0x1591fc0f688c81fbeb17f5426a162a7024d430c2;
   0x542a9515200d14b68e934e9830d91645a980dd7a; 0xc4bbd073882dd2add2424cf47d35213405b01324;
   0x782495b7b3355efb2833d56ecb34dc22ad7dfcc4; 0x58b95c9a9d5d26825e70a82b6adb139d3fd829eb;
   0x3ba4d81db016dc2890c81f3acec2454bff5aada5; 0xb52042c8ca3f8aa246fa79c3feaa3d959347c0ab;
   0xe4ae1efdfc53b73893af49113d8694a057b9c0d1; 0x3c02a7bc0391e86d91b7d144e61c2c01a25a79c5;
   0x0737a6b837f97f46ebade41b9bc3e1c509c85c53; 0x97f43a37f595ab5dd318fb46e7a155eae057317a;
   0x52c5317c848ba20c7504cb2c8052abd1fde29d03; 0x4863226780fe7c0356454236d3b1c8792785748d;
   0x5d2b2e6fcbe3b11d26b525e085ff818dae332479; 0x5f9f3392e9f62f63b8eac0beb55541fc8627f42c;
   0x057b56736d32b86616a10f619859c6cd6f59092a; 0x9aa008f65de0b923a2a4f02012ad034a5e2e2192;
   0x304a554a310c7e546dfe434669c62820b7d83490; 0x914d1b8b43e92723e64fd0a06f5bdb8dd9b10c79;
   0x4deb0033bb26bc534b197e61d19e0733e5679784; 0x07f5c1e1bc2c93e0402f23341973a0e043f7bf8a;
   0x35a051a0010aba705c9008d7a7eff6fb88f6ea7b; 0x4fa802324e929786dbda3b8820dc7834e9134a2a;
   0x9da397b9e80755301a3b32173283a91c0ef6c87e; 0x8d9edb3054ce5c5774a420ac37ebae0ac02343c6;
   0x0101f3be8ebb4bbd39a2e3b9a3639d4259832fd9; 0x5dc28b15dffed94048d73806ce4b7a4612a1d48f;
   0xbcf899e6c7d9d5a215ab1e3444c86806fa854c76; 0x12e626b0eebfe86a56d633b9864e389b45dcb260;
   0xa2f1ccba9395d7fcb155bba8bc92db9bafaeade7; 0xec8e57756626fdc07c63ad2eafbd28d08e7b0ca5;
   0xd164b088bd9108b60d0ca3751da4bceb207b0782; 0x6231b6d0d5e77fe001c2a460bd9584fee60d409b;
   0x1cba23d343a983e9b5cfd19496b9a9701ada385f; 0xa82f360a8d3455c5c41366975bde739c37bfeb8a;
   0x9fcd2deaff372a39cc679d5c5e4de7bafb0b1339; 0x005f5cee7a43331d5a3d3eec71305925a62f34b6;
   0x0e0da70933f4c7849fc0d203f5d1d43b9ae4532d; 0xd131637d5275fd1a68a3200f4ad25c71a2a9522e;
   0xbc07118b9ac290e4622f5e77a0853539789effbe; 0x47e7aa56d6bdf3f36be34619660de61275420af8;
   0xacd87e28b0c9d1254e868b81cba4cc20d9a32225; 0xadf80daec7ba8dcf15392f1ac611fff65d94f880;
   0x5524c55fb03cf21f549444ccbecb664d0acad706; 0x40b803a9abce16f50f36a77ba41180eb90023925;
   0xfe24cdd8648121a43a7c86d289be4dd2951ed49f; 0x17802f43a0137c506ba92291391a8a8f207f487d;
   0x253488078a4edf4d6f42f113d1e62836a942cf1a; 0x86af3e9626fce1957c82e88cbf04ddf3a2ed7915;
   0xb136707642a4ea12fb4bae820f03d2562ebff487; 0xdbe9b615a3ae8709af8b93336ce9b477e4ac0940;
   0xf14c14075d6c4ed84b86798af0956deef67365b5; 0xca544e5c4687d109611d0f8f928b53a25af72448;
   0xaeeb8ff27288bdabc0fa5ebb731b6f409507516c; 0xcbb9d3703e651b0d496cdefb8b92c25aeb2171f7;
   0x6d87578288b6cb5549d5076a207456a1f6a63dc0; 0xb2c6f0dfbb716ac562e2d85d6cb2f8d5ee87603e;
   0xaccc230e8a6e5be9160b8cdf2864dd2a001c28b6; 0x2b3455ec7fedf16e646268bf88846bd7a2319bb2;
   0x4613f3bca5c44ea06337a9e439fbc6d42e501d0a; 0xd343b217de44030afaa275f54d31a9317c7f441e;
   0x84ef4b2357079cd7a7c69fd7a37cd0609a679106; 0xda2fef9e4a3230988ff17df2165440f37e8b1708;
   0xf4c64518ea10f995918a454158c6b61407ea345c; 0x7602b46df5390e432ef1c307d4f2c9ff6d65cc97;
   0xbb9bc244d798123fde783fcc1c72d3bb8c189413; 0x807640a13483f8ac783c557fcdf27be11ea4ac7a].

(** ** Blocks ([kernel/types/block.go]) *)

Definition with_roots (h : Header) (uncleHash txHash receiptHash : Hash) (bloom : Bloom) : Header :=
  mkHeader (h_ParentHash h) uncleHash (h_Coinbase h) (h_Root h) txHash receiptHash bloom
    (h_Difficulty h) (h_Number h) (h_GasLimit h) (h_GasUsed h) (h_Time h) (h_Extra h) (h_MixDigest h) (h_Nonce h).

Definition with_root (h : Header) (root : Hash) : Header :=
  mkHeader (h_ParentHash h) (h_UncleHash h) (h_Coinbase h) root (h_TxHash h) (h_ReceiptHash h) (h_Bloom h)
    (h_Difficulty h) (h_Number h) (h_GasLimit h) (h_GasUsed h) (h_Time h) (h_Extra h) (h_MixDigest h) (h_Nonce h).

Definition with_uncleHash (h : Header) (hash : Hash) : Header :=
  with_roots h hash (h_TxHash h) (h_ReceiptHash h) (h_Bloom h).

Section blocks.
Context (cr : Crypto).

(** Headers are values, so that [CopyHeader] is the identity. *)
Definition NewBlock (header : Header) (txs : list Transaction) (uncles : list Header) (receipts : list Receipt) : outcome Block :=
  let! txHash := match txs with [] => EmptyRootHash cr | _ => DeriveSha cr Transactions_GetRlp txs end in
  let! (receiptHash, bloom) :=
    match receipts with
    | [] => let! root := EmptyRootHash cr in Ok (root, h_Bloom header)
    | _ => let! root := DeriveSha cr Receipts_GetRlp receipts in let! bloom := CreateBloom cr receipts in Ok (root, bloom)
    end in
  let uncleHash := match uncles with [] => EmptyUncleHash cr | _ => CalcUncleHash cr uncles end in
  Ok (mkBlock (with_roots header uncleHash txHash receiptHash bloom) uncles txs).
End blocks.

(** ** The hashes of ancestors ([GetHashFn]) *)

Section ancestors.
Context (getHeader : Hash -> Z -> option Header).

(** The loop of the closure, with its cache. *)
Fixpoint hash_loop (fuel : nat) (header : option Header) (cache : gmap Z Hash) (n : Z) : outcome (Hash * gmap Z Hash) :=
  match header with
  | None => Ok (0, cache)
  | Some header =>
      match fuel with
      | O => OutOfFuel
      | S fuel =>
          let number := u64 (u64 (h_Number header) - 1) in
          let cache := <[number := h_ParentHash header]> cache in
          if n =? number then Ok (h_ParentHash header, cache)
          else hash_loop fuel (getHeader (h_ParentHash header) number) cache n
      end
  end.

(** The closure of [GetHashFn]; the cache is nil before the first call. *)
Definition GetHashFn (fuel : nat) (ref : Header) (cache : option (gmap Z Hash)) (n : Z) : outcome (Hash * option (gmap Z Hash)) :=
  let number := u64 (u64 (h_Number ref) - 1) in
  let cache := default {[number := h_ParentHash ref]} cache in
  match cache !! n with
  | Some hash => Ok (hash, Some cache)
  | None =>
      let! (hash, cache) := hash_loop fuel (getHeader (h_ParentHash ref) number) cache n in
      Ok (hash, Some cache)
  end.
End ancestors.

(** ** Transactions *)

Inductive process_error : Type :=
| sigErr (e : sigerror)
| txErr (e : txerror).

(** What the processor needs of an engine: the author of a header, whose error is
    ignored, and the final step of a block. *)
Record Engine (S : Type) := mkEngine {
  Author : Header -> Address;
  Finalize : S -> Header -> list Transaction -> list Header -> list Receipt -> outcome (Block * S)
}.
Arguments mkEngine {S}.
Arguments Author {S} _.
Arguments Finalize {S} _.

Section process.
Context {S : Type} `{StateDB S} `{BlockDB S} (cr : Crypto) (config : ChainConfig).

Fixpoint drain_accounts (addrs : list Address) (statedb : S) : S :=
  match addrs with
  | [] => statedb
  | addr :: addrs =>
      let statedb := AddBalance statedb DAORefundContract (GetBalance statedb addr) in
      drain_accounts addrs (SetBalance statedb addr 0)
  end.

Definition ApplyDAOHardFork (statedb : S) : S :=
  let statedb := if Exist statedb DAORefundContract then statedb else CreateAccount statedb DAORefundContract in
  drain_accounts DAODrainList statedb.

(** The options of [vm.Config]; the machine of a transaction is never cancelled. *)
Context (noRecursion preimages : bool) (getHeader : Hash -> Z -> option Header) (engine : Engine S).

(** [NewEVMContext] and the configuration; [walk] bounds the walk to an ancestor.  The
    closure of [GetHashFn] keeps what it has walked over; here every question starts
    without, which [GetHashFn_ancestors] shows to give the same answers, and one whose
    walk exceeds the bound is answered with the zero hash. *)
Definition NewEVMContext (walk : nat) (msg : Message) (header : Header) (author : option Address) : Env S := {|
  CanTransfer := kernel_CanTransfer;
  Transfer := kernel_Transfer;
  GetHash n := match GetHashFn getHeader walk header None n with Ok (hash, _) => hash | _ => 0 end;
  Origin := msg_From msg;
  GasPrice := msg_GasPrice msg;
  Coinbase := default (Author engine header) author;
  GasLimit := h_GasLimit header;
  BlockNumber := h_Number header;
  Time := h_Time header;
  Difficulty := h_Difficulty header;
  chainConfig := config;
  NoRecursion := noRecursion;
  EnablePreimageRecording := preimages;
  abort _ := false;
  crypto := cr
|}.

(** The gas pool, the state and the gas used so far are updated also on an error. *)
Definition progress : Type := GasPool * S * Z.

Definition with_receipt (r : Receipt) (txHash : Hash) (gas : Z) (contract : Address) (logs : list Log) (bloom : Bloom) : Receipt :=
  mkReceipt (r_PostState r) (r_Status r) (r_CumulativeGasUsed r) bloom logs txHash contract gas.

Definition ApplyTransaction (fuel walk : nat) (author : option Address) (gp : GasPool) (statedb : S) (header : Header)
    (tx : Transaction) (usedGas : Z) : outcome (result process_error (Receipt * Z) * progress) :=
  let! (msg, _) := AsMessage cr (MakeSigner config (h_Number header)) (mkTxObject tx None None) in
  match msg with
  | Err e => Ok (Err (sigErr e), (gp, statedb, usedGas))
  | Good msg =>
      let env := NewEVMContext walk msg header author in
      let! vmenv := NewEVM env statedb in
      let! ((_, gas, failed, err), st) := ApplyMessage env (Run env fuel) vmenv msg gp in
      let statedb := st_state st in
      let gp := StateTransition.gp st in
      match err with
      | Some e => Ok (Err (txErr e), (gp, statedb, usedGas))
      | None =>
          let! (root, statedb) :=
            (if IsByzantium config (h_Number header)
             then let! statedb := Finalise true statedb in Ok ([], statedb)
             else let! (root, statedb) := IntermediateRoot (IsEIP158 config (h_Number header)) statedb in Ok (Hash_Bytes root, statedb)) in
          let usedGas := u64 (usedGas + gas) in
          let receipt := NewReceipt root failed usedGas in
          let contract := match msg_To msg with None => CreateAddress cr (Origin env) (tx_AccountNonce tx) | Some _ => 0 end in
          let logs := GetLogs statedb (Tx_Hash cr tx) in
          let receipt := with_receipt receipt (Tx_Hash cr tx) gas contract logs (r_Bloom receipt) in
          let! bloom := CreateBloom cr [receipt] in
          Ok (Good (with_receipt receipt (Tx_Hash cr tx) gas contract logs bloom, gas), (gp, statedb, usedGas))
      end
  end.

(** ** Blocks *)

(** The loop of [Process] over the transactions, from index [i]. *)
Fixpoint process_txs (fuel walk : nat) (block : Block) (i : Z) (txs : list Transaction) (gp : GasPool) (statedb : S) (usedGas : Z)
    : outcome (result process_error (list Receipt * list Log) * progress) :=
  match txs with
  | [] => Ok (Good ([], []), (gp, statedb, usedGas))
  | tx :: txs =>
      let statedb := Prepare statedb (Tx_Hash cr tx) (Block_Hash cr block) i in
      let! (r, (gp, statedb, usedGas)) := ApplyTransaction fuel walk None gp statedb (b_header block) tx usedGas in
      match r with
      | Err e => Ok (Err e, (gp, statedb, usedGas))
      | Good (receipt, _) =>
          let! (rs, p) := process_txs fuel walk block (i + 1) txs gp statedb usedGas in
          match rs with
          | Err e => Ok (Err e, p)
          | Good (receipts, allLogs) => Ok (Good (receipt :: receipts, r_Logs receipt ++ allLogs), p)
          end
      end
  end.

(** Receipts, logs and used gas, with the state. *)
Definition Process (fuel walk : nat) (block : Block) (statedb : S)
    : outcome (result process_error (list Receipt * list Log * Z) * S) :=
  let header := b_header block in
  let! gp := AddGas 0 (h_GasLimit header) in
  let statedb :=
    if DAOForkSupport config && bool_decide (DAOForkBlock config = Some (h_Number header)) then ApplyDAOHardFork statedb else statedb in
  let! (r, (_, statedb, usedGas)) := process_txs fuel walk block 0 (b_transactions block) gp statedb 0 in
  match r with
  | Err e => Ok (Err e, statedb)
  | Good (receipts, allLogs) =>
      let! (_, statedb) := Finalize engine statedb header (b_transactions block) (b_uncles block) receipts in
      Ok (Good (receipts, allLogs, usedGas), statedb)
  end.

(** ** The engines *)

Definition Ethash_Finalize (state : S) (header : Header) (txs : list Transaction) (uncles : list Header) (receipts : list Receipt)
    : outcome (Block * S) :=
  let state := accumulateRewards config state header uncles in
  let! (root, state) := IntermediateRoot (IsEIP158 config (h_Number header)) state in
  let! block := NewBlock cr (with_root header root) txs uncles receipts in
  Ok (block, state).

Definition Clique_Finalize (state : S) (header : Header) (txs : list Transaction) (uncles : list Header) (receipts : list Receipt)
    : outcome (Block * S) :=
  let! (root, state) := IntermediateRoot (IsEIP158 config (h_Number header)) state in
  let header := with_uncleHash (with_root header root) (CalcUncleHash cr []) in
  let! block := NewBlock cr header txs [] receipts in
  Ok (block, state).

(** The signer cache of Clique answers what it would recover. *)
Definition ethash_engine : Engine S := mkEngine h_Coinbase Ethash_Finalize.
Definition clique_engine : Engine S :=
  mkEngine (fun h => match recover_signer cr h with Good a => a | Err _ => 0 end) Clique_Finalize.

(** ** Checks ([BlockValidator]) *)

Inductive block_error : Type :=
| ErrKnownBlock
| engineErr (e : consensus_error)
| errUncleRoot (hash want : Hash)
| errTxRoot (hash want : Hash)
| errUnknownAncestor
| ErrPrunedAncestor
| errGasUsed (remote local : Z)
| errBloom (remote local : Bloom)
| errReceiptRoot (remote local : Hash)
| errMerkleRoot (remote local : Hash).

(** [hasBlockAndState] and [hasBlock] are the queries to the chain, [verifyUncles] the engine's. *)
Definition ValidateBody (hasBlockAndState hasBlock : Hash -> Z -> bool) (verifyUncles : Block -> option consensus_error)
    (block : Block) : outcome (option block_error) :=
  let header := b_header block in
  let number := u64 (h_Number header) in
  if hasBlockAndState (Block_Hash cr block) number then Ok (Some ErrKnownBlock)
  else
    match verifyUncles block with
    | Some e => Ok (Some (engineErr e))
    | None =>
        let hash := CalcUncleHash cr (b_uncles block) in
        if negb (hash =? h_UncleHash header) then Ok (Some (errUncleRoot hash (h_UncleHash header)))
        else
          let! hash := DeriveSha cr Transactions_GetRlp (b_transactions block) in
          if negb (hash =? h_TxHash header) then Ok (Some (errTxRoot hash (h_TxHash header)))
          else if negb (hasBlockAndState (h_ParentHash header) (u64 (number - 1))) then
            if negb (hasBlock (h_ParentHash header) (u64 (number - 1))) then Ok (Some errUnknownAncestor) else Ok (Some ErrPrunedAncestor)
          else Ok None
    end.

Definition ValidateState (block : Block) (statedb : S) (receipts : list Receipt) (usedGas : Z) : outcome (option block_error * S) :=
  let header := b_header block in
  if negb (h_GasUsed header =? usedGas) then Ok (Some (errGasUsed (h_GasUsed header) usedGas), statedb)
  else
    let! rbloom := CreateBloom cr receipts in
    if negb (bool_decide (rbloom = h_Bloom header)) then Ok (Some (errBloom (h_Bloom header) rbloom), statedb)
    else
      let! receiptSha := DeriveSha cr Receipts_GetRlp receipts in
      if negb (receiptSha =? h_ReceiptHash header) then Ok (Some (errReceiptRoot (h_ReceiptHash header) receiptSha), statedb)
      else
        let! (root, statedb) := IntermediateRoot (IsEIP158 config (h_Number header)) statedb in
        if negb (h_Root header =? root) then Ok (Some (errMerkleRoot (h_Root header) root), statedb) else Ok (None, statedb).
End process.

(** [CalcGasLimit]: the gas limit of the next block. *)
Definition CalcGasLimit (parent : Header) (gasFloor gasCeil : Z) : Z :=
  let contrib := u64 (h_GasUsed parent + h_GasUsed parent / 2) / GasLimitBoundDivisor in
  let decay := u64 (h_GasLimit parent / GasLimitBoundDivisor - 1) in
  let limit := u64 (u64 (h_GasLimit parent - decay) + contrib) in
  let limit := if limit <? MinGasLimit then MinGasLimit else limit in
  if limit <? gasFloor then
    let limit := u64 (h_GasLimit parent + decay) in
    if gasFloor <? limit then gasFloor else limit
  else if gasCeil <? limit then
    let limit := u64 (h_GasLimit parent - decay) in
    if limit <? gasCeil then gasCeil else limit
  else limit.
