(* ===== verification/BlockFacts.v ===== *)
(** * What block processing guarantees

    Hashes of ancestors, gas limits, the DAO fork, and the accounts of a block: the
    gas of its receipts adds up to the gas it used, within its limit, and its ether
    grows by no more than the reward of the engine. *)
From S2P Require Import Prelude CommonMath Params StateFlush RlpEncode RlpDecode Opcodes VmBase VmInterface VmLaws Precompiles Evm GasTable.
From S2P Require Import Instructions JumpTable Interpreter VmInvariant RlpTyped ChainTypes ChainFacts Supply StateTransition.
From S2P Require Import Transactions TxFacts Ethash EthashFacts Clique StateInstance MemDb TrieModel BlockState DeriveSha BlockProcess.
From stdpp Require Import base numbers list gmap.
From Stdlib Require Import ZArith Lia.
#[local] Open Scope Z_scope.

(** ** Ancestors *)

Section ancestors.
Context (getHeader : Hash -> Z -> option Header).

(** The block [number] with hash [hash] has [h] as the hash of its ancestor [n], or is it. *)
Inductive ancestor : Hash -> Z -> Z -> Hash -> Prop :=
| anc_self hash number : ancestor hash number number hash
| anc_parent hash number header n h :
    getHeader hash number = Some header -> ancestor (h_ParentHash header) (u64 (number - 1)) n h -> ancestor hash number n h.

(** Headers have the number they are asked for, and the last number is not in use. *)
Context (Hnum : forall hash number header, getHeader hash number = Some header -> u64 (h_Number header) = number /\ 0 <= number < MaxUint64).

Lemma u64_pred n : 0 <= n < MaxUint64 -> u64 (n - 1) = MaxUint64 /\ n = 0 \/ u64 (n - 1) = n - 1 /\ 0 < n.
Proof.
  intros Hn. destruct (decide (n = 0)) as [->|Hne]; [by left|]. right. split; [|lia]. apply u64_small. unfold is_u64. lia.
Qed.

Lemma hash_loop_ok (Q : Z -> Hash -> Prop) fuel : forall hash number (cache : gmap Z Hash) n,
  n <> number -> (forall m h, ancestor hash number m h -> Q m h) -> map_Forall Q cache ->
  getHeader hash number = None \/ number < Z.of_nat fuel ->
  exists h cache', hash_loop getHeader fuel (getHeader hash number) cache n = Ok (h, cache') /\
    map_Forall Q cache' /\ (forall k, is_Some (cache !! k) -> is_Some (cache' !! k)) /\
    (ancestor hash number n h \/ h = 0 /\ forall h', ~ ancestor hash number n h').
Proof.
  induction fuel as [|fuel IH]; intros hash number cache n Hn HQ Hc Hf.
  all: destruct (getHeader hash number) as [header|] eqn:E; cbn [hash_loop].
  - exfalso. destruct (Hnum _ _ _ E). destruct Hf; [done|lia].
  - exists 0, cache. split; [done|]. split; [done|]. split; [done|]. right. split; [done|]. intros h' Ha. inversion Ha; congruence.
  - destruct (Hnum _ _ _ E) as [-> Hr]. set (up := u64 (number - 1)). set (cache1 := <[up := h_ParentHash header]> cache).
    assert (forall m h, ancestor (h_ParentHash header) up m h -> Q m h) as HQ1 by (intros m h Ha; apply HQ; by eapply anc_parent).
    assert (map_Forall Q cache1) as Hc1 by (apply map_Forall_insert_2; [apply HQ1, anc_self|done]).
    assert (forall k, is_Some (cache !! k) -> is_Some (cache1 !! k)) as Hd1 by (intros k Hk; unfold cache1; rewrite lookup_insert_is_Some; destruct (decide (up = k)); auto).
    destruct (Z.eqb_spec n up) as [->|Hne].
    + exists (h_ParentHash header), cache1. split; [done|]. split; [done|]. split; [done|]. left. eapply anc_parent; [done|apply anc_self].
    + destruct (IH (h_ParentHash header) up cache1 n Hne HQ1 Hc1) as (h & cache' & Eh & Hc' & Hd' & Hres).
      { destruct (u64_pred number Hr) as [[Hu _]|[Hu Hp]]; fold up in Hu; rewrite Hu.
        - left. destruct (getHeader (h_ParentHash header) MaxUint64) eqn:E'; [|done]. destruct (Hnum _ _ _ E'). lia.
        - right. destruct Hf; [done|lia]. }
      exists h, cache'. split; [done|]. split; [done|]. split; [auto|]. destruct Hres as [Ha|[-> Hno]]; [left; by eapply anc_parent|].
      right. split; [done|]. intros h' Ha. inversion Ha as [|? ? header' ? ? E' Ha']; subst; [done|]. assert (header' = header) as -> by congruence. by eapply Hno.
  - exists 0, cache. split; [done|]. split; [done|]. split; [done|]. right. split; [done|]. intros h' Ha. inversion Ha; congruence.
Qed.

(** The block before [ref]. *)
Definition before (ref : Header) : Z := u64 (u64 (h_Number ref) - 1).

(** The cache of the closure holds hashes of ancestors only, the parent among them. *)
Definition cache_ok (ref : Header) (cache : option (gmap Z Hash)) : Prop :=
  match cache with
  | None => True
  | Some c => is_Some (c !! before ref) /\ map_Forall (fun n h => ancestor (h_ParentHash ref) (before ref) n h) c
  end.

(** C35. The block hash instruction sees the chain: whatever earlier queries have cached,
    the closure of [GetHashFn] ends and answers with the hash of the ancestor that has
    the number asked for, following parent hashes from the block being processed, or
    with zero if there is none, and keeps its cache right. *)
Theorem GetHashFn_ancestors fuel ref cache n (Hc : cache_ok ref cache) (Hf : before ref < Z.of_nat fuel \/ before ref = MaxUint64) :
  exists h cache', GetHashFn getHeader fuel ref cache n = Ok (h, cache') /\ cache_ok ref cache' /\
    (ancestor (h_ParentHash ref) (before ref) n h \/ h = 0 /\ forall h', ~ ancestor (h_ParentHash ref) (before ref) n h').
Proof.
  unfold GetHashFn. fold (before ref). set (c := default _ cache).
  assert (is_Some (c !! before ref) /\ map_Forall (fun n h => ancestor (h_ParentHash ref) (before ref) n h) c) as [Hs HF].
  { destruct cache as [c'|]; [exact Hc|]. unfold c. cbn. split; [rewrite lookup_singleton_eq; by eexists|].
    apply map_Forall_singleton. apply anc_self. }
  destruct (c !! n) as [h|] eqn:E.
  - exists h, (Some c). split; [done|]. split; [done|]. left. by apply HF.
  - destruct (hash_loop_ok (fun n h => ancestor (h_ParentHash ref) (before ref) n h) fuel (h_ParentHash ref) (before ref) c n) as (h & c' & -> & HF' & Hd & Hres);
      [by intros ->; rewrite E in Hs; destruct Hs|done|done| |].
    { destruct Hf as [Hf|Hf]; [by right|left]. rewrite Hf. destruct (getHeader (h_ParentHash ref) MaxUint64) eqn:E'; [|done]. destruct (Hnum _ _ _ E'). lia. }
    cbn [obind]. exists h, (Some c'). split; [done|]. split; [|done]. split; [by apply Hd|done].
Qed.

Lemma GetHashFn_nonneg fuel ref n h c : (forall hash number header, getHeader hash number = Some header -> 0 <= h_ParentHash header) -> 0 <= h_ParentHash ref ->
  GetHashFn getHeader fuel ref None n = Ok (h, c) -> 0 <= h.
Proof.
  intros Hp Hr. unfold GetHashFn. cbn [default]. destruct (_ !! n) as [x|] eqn:E.
  { intros [= <- _]. apply lookup_singleton_Some in E as [_ <-]. done. }
  generalize ({[u64 (u64 (h_Number ref) - 1) := h_ParentHash ref]} : gmap Z Hash) as cache. clear E.
  generalize (h_ParentHash ref) as hash. generalize (u64 (u64 (h_Number ref) - 1)) as number. revert h c.
  induction fuel as [|fuel IH]; intros h c number hash cache; destruct (getHeader hash number) as [header|] eqn:Eh; cbn [hash_loop obind]; try done; try (intros [= <- _]; done).
  destruct (n =? _); cbn [obind]; [intros [= <- _]; by eapply Hp|]. apply IH.
Qed.
End ancestors.

(** ** Gas limits *)




(** ** Ether *)

Section ether.
Context {S : Type} `{StateDB S} `{BlockDB S} {cr : Crypto} `{!StateDBLaws S cr} `{!LedgerLaws S cr} `{!BlockLaws S cr}.

(** From [s] to [s'] no set of addresses that is large enough gains more than [k]. *)
Definition mints (k : Z) (s s' : S) : Prop :=
  exists L0, Forall is_address L0 /\ forall L, NoDup L -> Forall is_address L -> L0 ⊆ L -> supply L s' <= supply L s + k.

Lemma no_mint_mints s s' : no_mint s s' -> mints 0 s s'.
Proof. intros (L0 & HA & HL). exists L0. split; [done|]. intros L Hnd Ha Hsub. specialize (HL L Hnd Ha Hsub). lia. Qed.

Lemma mints_trans a b s1 s2 s3 : mints a s1 s2 -> mints b s2 s3 -> mints (a + b) s1 s3.
Proof.
  intros (L1 & A1 & H1) (L2 & A2 & H2). exists (L1 ++ L2). split; [by apply Forall_app|]. intros L Hnd Ha Hsub.
  specialize (H1 L Hnd Ha ltac:(set_solver)). specialize (H2 L Hnd Ha ltac:(set_solver)). lia.
Qed.

Lemma mints_after k s1 s2 s3 : mints 0 s1 s2 -> mints k s2 s3 -> mints k s1 s3.
Proof. intros H1 H2. exact (mints_trans 0 k s1 s2 s3 H1 H2). Qed.
Lemma mints_before k s1 s2 s3 : mints k s1 s2 -> mints 0 s2 s3 -> mints k s1 s3.
Proof. intros H1 H2. rewrite <- (Z.add_0_r k). by eapply mints_trans. Qed.

Lemma supply_le L s s' : Forall is_address L -> (forall a, is_address a -> GetBalance s' a <= GetBalance s a) -> supply L s' <= supply L s.
Proof.
  intros Ha Hle. unfold supply. induction Ha as [|a L Ha HL IH]; cbn; [lia|]. specialize (Hle a Ha). lia.
Qed.

Lemma finalise_mints del s : state_ok s -> exists s', Finalise del s = Ok s' /\ state_ok s' /\ mints 0 s s'.
Proof.
  intros Hs. destruct (finalise_ok del s Hs) as (s' & E & Hs' & Hle). exists s'. split; [done|]. split; [done|].
  exists []. split; [done|]. intros L _ Ha _. rewrite Z.add_0_r. by apply supply_le.
Qed.

Lemma root_mints del s : state_ok s -> exists root s', IntermediateRoot del s = Ok (root, s') /\ state_ok s' /\ mints 0 s s'.
Proof.
  intros Hs. destruct (finalise_mints del s Hs) as (s' & E & Hs' & Hm). destruct (root_ok del s s' E) as [root Er]. eauto.
Qed.

Lemma prepare_mints s th bh ti : mints 0 s (Prepare s th bh ti).
Proof. apply no_mint_mints, no_mint_same. intros a. apply prepare_balance. Qed.

(** ** The DAO fork *)

Lemma drain_accounts_ok addrs : ~ DAORefundContract ∈ addrs -> Forall is_address addrs -> forall s, state_ok s ->
  state_ok (drain_accounts addrs s) /\
  (forall L, NoDup L -> DAORefundContract ∈ L -> addrs ⊆ L -> supply L (drain_accounts addrs s) = supply L s) /\
  (forall a, a <> DAORefundContract -> GetBalance (drain_accounts addrs s) a = if decide (a ∈ addrs) then 0 else GetBalance s a).
Proof.
  assert (is_address DAORefundContract) as Hr by (by vm_compute).
  induction addrs as [|a addrs IH]; intros Hn Ha s Hs; cbn [drain_accounts].
  { split; [done|]. split; [done|]. intros a _. rewrite decide_False; [done|apply not_elem_of_nil]. }
  apply not_elem_of_cons in Hn as [Hne Hn]. inversion_clear Ha as [|? ? Haa Has].
  set (s1 := AddBalance s DAORefundContract (GetBalance s a)).
  assert (state_ok s1) as Hs1 by (apply add_ok; [done|done|by apply balance_nonneg]).
  assert (state_ok (SetBalance s1 a 0)) as Hs2 by (by apply set_balance_ok).
  destruct (IH Hn Has (SetBalance s1 a 0) Hs2) as (H1 & H2 & H3). split; [done|]. split.
  - intros L Hnd HR Hsub. rewrite H2 by (done || set_solver).
    rewrite (supply_delta L s1 (SetBalance s1 a 0) a (- GetBalance s1 a) Hnd).
    + unfold s1. rewrite supply_add, !decide_True by (done || set_solver). rewrite add_balance, decide_False by (done || congruence). lia.
    + intros b. rewrite set_balance by done. case_decide; subst; lia.
  - intros b Hb. rewrite H3, set_balance by done. unfold s1. rewrite add_balance, (decide_False (P := b = DAORefundContract)), Z.add_0_r by done.
    destruct (decide (b ∈ addrs)) as [Hin|Hin]; [rewrite decide_True; [done|by right]|].
    destruct (decide (b = a)) as [->|Hba]; [rewrite decide_True; [done|left]|]. rewrite decide_False; [done|]. by rewrite not_elem_of_cons.
Qed.

Lemma drain_list_ok : ~ DAORefundContract ∈ DAODrainList /\ Forall is_address DAODrainList.
Proof. split; [apply (bool_decide_unpack _); by vm_compute|]. apply Forall_forall. intros a Ha.
  assert (Forall (fun a => (0 <=? a) && (a <? 2 ^ 160) = true) DAODrainList) as HF by (apply (bool_decide_unpack _); by vm_compute).
  rewrite Forall_forall in HF. specialize (HF a Ha). unfold is_address. lia.
Qed.

Lemma ApplyDAOHardFork_ok s : state_ok s ->
  state_ok (ApplyDAOHardFork s) /\
  (forall L, NoDup L -> DAORefundContract ∈ L -> DAODrainList ⊆ L -> supply L (ApplyDAOHardFork s) = supply L s) /\
  (forall a, a <> DAORefundContract -> GetBalance (ApplyDAOHardFork s) a = if decide (a ∈ DAODrainList) then 0 else GetBalance s a).
Proof.
  intros Hs. destruct drain_list_ok as [Hn Ha]. unfold ApplyDAOHardFork. destruct (Exist s DAORefundContract) eqn:E; [by apply drain_accounts_ok|].
  assert (state_ok (CreateAccount s DAORefundContract)) as Hs1 by (eapply (evolves_ok false); [done|]; apply ev_touch; [by vm_compute|done]).
  destruct (drain_accounts_ok DAODrainList Hn Ha _ Hs1) as (H1 & H2 & H3). split; [done|]. split.
  - intros L Hnd HR Hsub. rewrite H2 by done. apply supply_same. intros b. by apply create_balance.
  - intros b Hb. rewrite H3 by done. case_decide; [done|]. by apply create_balance.
Qed.

(** The DAO fork moves ether and mints none: every drained account is left with
    nothing, the refund contract gets the sum, the others keep what they have. *)
Theorem ApplyDAOHardFork_moves s L (Hs : state_ok s) (HL : NoDup L) (HR : DAORefundContract ∈ L) (Hsub : DAODrainList ⊆ L) :
  supply L (ApplyDAOHardFork s) = supply L s /\
  forall a, a <> DAORefundContract -> GetBalance (ApplyDAOHardFork s) a = if decide (a ∈ DAODrainList) then 0 else GetBalance s a.
Proof. destruct (ApplyDAOHardFork_ok s Hs) as (_ & H1 & H2). split; [by apply H1|done]. Qed.

Lemma dao_mints s : state_ok s -> mints 0 s (ApplyDAOHardFork s).
Proof.
  intros Hs. destruct (ApplyDAOHardFork_ok s Hs) as (_ & H1 & _). destruct drain_list_ok as [_ Ha].
  exists (DAORefundContract :: DAODrainList). split; [by apply Forall_cons_2; [vm_compute|]|]. intros L Hnd _ Hsub.
  rewrite H1; [lia|done|apply Hsub; left|]. intros a Hin. apply Hsub. by right.
Qed.
End ether.

(** ** Engines *)

(** The encodings that do not fit into the trie of [DeriveSha]. *)
Definition oversized (txs : list Transaction) (receipts : list Receipt) : Prop :=
  Exists (fun tx => exists b, Transactions_GetRlp tx = Ok b /\ ~ storable b) txs \/
  Exists (fun r => exists b, Receipts_GetRlp r = Ok b /\ ~ storable b) receipts \/
  2 ^ 62 < zlen txs \/ 2 ^ 62 < zlen receipts.

(** A header and its uncles, as far as rewards go. *)
Definition rewardable (header : Header) (uncles : list Header) : Prop :=
  is_address (h_Coinbase header) /\ forall u, u ∈ uncles -> h_Number header - 8 <= h_Number u /\ is_address (h_Coinbase u).

(** What the processor relies on of an engine: it finalises a state without minting more
    than its reward. *)
Class EngineLaws {S : Type} `{StateDB S} {cr : Crypto} `{!StateDBLaws S cr} (engine : Engine S) (reward : Header -> list Header -> Z) : Prop := {
  author_address : forall h, is_address (h_Coinbase h) -> is_address (Author engine h);
  finalize_ok : forall s header txs uncles receipts, state_ok s -> rewardable header uncles ->
    Forall (fun r => is_u64 (r_CumulativeGasUsed r)) receipts ->
    oversized txs receipts \/
    exists b s', Finalize engine s header txs uncles receipts = Ok (b, s') /\ state_ok s' /\ mints (reward header uncles) s s'
}.

Lemma storable_dec (b : list byte) : storable b \/ ~ storable b.
Proof. unfold storable. destruct (decide (b = [])) as [E|], (decide (zlen b < 2 ^ 32)); intuition. Qed.

Lemma encode_good v : encodable v -> forall w, exists w', RlpEncode.encode v w = Good w'.
Proof.
  induction v as [b|p|i|b|s|b|l IH] using val_ind'; intros Hv w; cbn [RlpEncode.encode]; try by eexists.
  - unfold writeBigIntPtr, writeBigInt. destruct p as [i|]; [|by eexists]. cbn in Hv. destruct (Z.ltb_spec i 0); [lia|]. destruct (i =? 0); by eexists.
  - match goal with |- context [?f l _] => set (go := f) end. assert (forall w, exists w', go l w = Good w') as Hgo.
    { clear w. induction IH as [|v l Hhd Htl IHl]; intros w; cbn [go]; [by eexists|]. destruct Hv as [Hv1 Hv2].
      destruct (Hhd Hv1 w) as [w1 ->]. by apply IHl. }
    change (w_list w) with (fst (w_list w), snd (w_list w)). cbv iota. destruct (Hgo (snd (w_list w))) as [w' ->]. by eexists.
Qed.

Lemma encodable_list l : Forall encodable l -> encodable (VList l).
Proof. induction 1; cbn in *; auto. Qed.

Section roots.
Context (cr : Crypto) (Hk : forall d, zlen (keccak256 cr d) = 32).

Lemma Transactions_GetRlp_ok tx : exists b, Transactions_GetRlp tx = Ok b.
Proof. unfold Transactions_GetRlp. destruct (EncodeToBytes _); by eexists. Qed.

(** Receipts have no negative integers to fail on. *)
Lemma Receipts_GetRlp_ok r : is_u64 (r_CumulativeGasUsed r) -> exists b, Receipts_GetRlp r = Ok b.
Proof.
  intros Hc. unfold Receipts_GetRlp, EncodeToBytes. destruct (encode_good (rlp_val r)) with (w := emptyEncbuf) as [w ->]; [|by eexists].
  apply encodable_list. repeat (apply List.Forall_cons; [try done|]); [|apply List.Forall_nil].
  apply encodable_list, Forall_map, Forall_forall. intros l _. apply encodable_list.
  repeat (apply List.Forall_cons; [try done|]); [|apply List.Forall_nil]. apply encodable_list, Forall_map, Forall_forall. done.
Qed.

(** The roots exist for items that fit. *)
Lemma DeriveSha_ok {A} (f : A -> outcome (list byte)) items : (forall a, a ∈ items -> exists b, f a = Ok b) ->
  (exists h, DeriveSha cr f items = Ok h) \/ Exists (fun a => exists b, f a = Ok b /\ ~ storable b) items \/ 2 ^ 62 < zlen items.
Proof.
  intros Hf. destruct (decide (zlen items <= 2 ^ 62)) as [Hl|]; [|right; right; lia].
  assert ((exists encs, Forall2 (fun a x => f a = Ok x /\ storable x) items encs) \/ Exists (fun a => exists b, f a = Ok b /\ ~ storable b) items) as [[encs HF]|He]; [| |by right; left].
  - clear Hl. induction items as [|a items IH]; [left; by exists []|]. destruct (Hf a ltac:(left)) as [b Eb].
    destruct (storable_dec b); [|right; left; by exists b]. destruct IH as [[encs HF]|He]; [intros x Hx; apply Hf; by right| |right; by right].
    left. exists (b :: encs). by constructor.
  - left. eexists. by apply (DeriveSha_root cr Hk f items encs HF).
Qed.

Lemma NewBlock_ok header txs uncles receipts : Forall (fun r => is_u64 (r_CumulativeGasUsed r)) receipts ->
  (exists b, NewBlock cr header txs uncles receipts = Ok b) \/ oversized txs receipts.
Proof.
  intros Hr. rewrite Forall_forall in Hr.
  destruct (DeriveSha_ok Transactions_GetRlp txs) as [[ht Et]|Ho]; [intros a _; apply Transactions_GetRlp_ok| |right; unfold oversized; tauto].
  destruct (DeriveSha_ok Receipts_GetRlp receipts) as [[hr Er]|Ho]; [intros a Ha; by apply Receipts_GetRlp_ok, Hr| |right; unfold oversized; tauto].
  destruct (DeriveSha_ok Transactions_GetRlp []) as [[h0 E0]|Ho]; [intros a []%not_elem_of_nil| |exfalso].
  2: { destruct Ho as [Hx|Hx]; [by apply Exists_nil in Hx|by vm_compute in Hx]. }
  left. unfold NewBlock, EmptyRootHash. rewrite E0.
  destruct (CreateBloom_ok cr Hk receipts) as [bl Eb]. destruct txs, receipts; rewrite ?Et, ?Er; cbn [obind]; rewrite ?Eb; cbn [obind]; by eexists.
Qed.

(** *** Bodies *)

Lemma elem_size v l : v ∈ l -> zlen (enc_val v) <= zlen (enc_val (VList l)).
Proof.
  intros Hin. cbn [enc_val]. pose proof (zlen_enc_lst_ge (concat (map enc_val l))). apply list_elem_of_split in Hin as (l1 & l2 & ->).
  rewrite map_app, concat_app in *. cbn [map concat] in *. rewrite !zlen_app in *.
  pose proof (zlen_nonneg (concat (map enc_val l1))). pose proof (zlen_nonneg (concat (map enc_val l2))). lia.
Qed.

(** A block as it is decoded from fewer than 4 GiB. *)
Definition decoded_block (b : Block) : Prop := rlp_valid b /\ zlen (enc_val (rlp_val b)) < 2 ^ 32.

Lemma decoded_sizes b : decoded_block b ->
  zlen (enc_val (rlp_val (b_header b))) < 2 ^ 32 /\ zlen (enc_val (val_as (slice_rlp header_rlp) (b_uncles b))) < 2 ^ 32 /\
  zlen (b_transactions b) <= 2 ^ 62 /\ Forall (fun tx => rlp_valid tx /\ zlen (enc_val (rlp_val tx)) < 2 ^ 32) (b_transactions b).
Proof.
  intros [(_ & Ht & _) Hl]. set (vh := rlp_val (b_header b)). set (vt := VList (map rlp_val (b_transactions b))).
  set (vu := val_as (slice_rlp header_rlp) (b_uncles b)). change (rlp_val b) with (VList [vh; vt; vu]) in Hl.
  pose proof (elem_size vh [vh; vt; vu] (list_elem_of_here _ _)) as Hh.
  pose proof (elem_size vt [vh; vt; vu] (list_elem_of_further _ _ _ (list_elem_of_here _ _))) as Hvt.
  pose proof (elem_size vu [vh; vt; vu] (list_elem_of_further _ _ _ (list_elem_of_further _ _ _ (list_elem_of_here _ _)))) as Hu.
  split; [lia|]. split; [lia|]. split.
  - pose proof (length_elems (b_transactions b) Ht) as Hn. pose proof (zlen_enc_lst_ge (concat (map enc_val (map rlp_val (b_transactions b))))) as Hge.
    change (enc_lst _) with (enc_val vt) in Hge. unfold zlen at 1. lia.
  - apply Forall_forall. intros tx Hin. split; [exact (proj1 (Forall_forall _ _) Ht tx Hin)|].
    pose proof (elem_size (rlp_val tx) (map rlp_val (b_transactions b)) (list_elem_of_fmap_2 _ _ _ Hin)) as Hx. fold vt in Hx. lia.
Qed.

Lemma txs_encs txs : Forall (fun tx => rlp_valid tx /\ zlen (enc_val (rlp_val tx)) < 2 ^ 32) txs ->
  Forall2 (fun tx x => Transactions_GetRlp tx = Ok x /\ storable x) txs (map (fun tx => enc_val (rlp_val tx)) txs).
Proof.
  induction 1 as [|tx txs [Hv Hl] _ IH]; cbn [map]; constructor; [|done].
  destruct (rlp_roundtrip tx Hv) as (b & E & -> & _); [unfold MaxUint64; lia|]. unfold Transactions_GetRlp. rewrite E. split; [done|].
  split; [|done]. intros E'. pose proof (rlp_nonempty tx Hv) as Hn. rewrite E' in Hn. by vm_compute in Hn.
Qed.

Lemma txs_encs_inj (txs1 : list Transaction) : forall txs2, Forall (fun tx => rlp_valid tx /\ zlen (enc_val (rlp_val tx)) < 2 ^ 32) txs1 ->
  Forall (fun tx => rlp_valid tx /\ zlen (enc_val (rlp_val tx)) < 2 ^ 32) txs2 ->
  map (fun tx => enc_val (rlp_val tx)) txs1 = map (fun tx => enc_val (rlp_val tx)) txs2 -> txs1 = txs2.
Proof.
  induction txs1 as [|t1 txs1 IH]; intros [|t2 txs2] H1 H2; cbn [map]; [done|done|done|]. intros [= E Er].
  apply Forall_cons in H1 as [[V1 L1] H1], H2 as [[V2 L2] H2]. f_equal; [|by apply IH].
  destruct (rlp_roundtrip t1 V1) as (b1 & _ & -> & D1); [unfold MaxUint64; lia|].
  destruct (rlp_roundtrip t2 V2) as (b2 & _ & -> & D2); [unfold MaxUint64; lia|].
  change (enc_val (rlp_val t1) = enc_val (rlp_val t2)) in E. rewrite E, D2 in D1. congruence.
Qed.

Lemma ValidateBody_roots q1 q2 v b : ValidateBody cr q1 q2 v b = Ok None ->
  CalcUncleHash cr (b_uncles b) = h_UncleHash (b_header b) /\ DeriveSha cr Transactions_GetRlp (b_transactions b) = Ok (h_TxHash (b_header b)).
Proof.
  unfold ValidateBody. destruct (q1 _ _); [done|]. destruct (v b); [done|]. destruct (Z.eqb_spec (CalcUncleHash cr (b_uncles b)) (h_UncleHash (b_header b))); [|done].
  cbn [negb]. destruct (DeriveSha _ _ _) as [h| |]; cbn [obind]; [|done..]. destruct (Z.eqb_spec h (h_TxHash (b_header b))) as [->|]; done.
Qed.

Lemma ValidateBody_total q1 q2 v b : decoded_block b -> exists r, ValidateBody cr q1 q2 v b = Ok r.
Proof.
  intros Hd. destruct (decoded_sizes b Hd) as (_ & _ & Hl & HF). unfold ValidateBody.
  rewrite (proj1 (DeriveSha_root cr Hk _ _ _ (txs_encs _ HF) Hl)). cbn [obind]. repeat (case_match; [by eexists|]). by repeat case_match; eexists.
Qed.

(** The byte strings that are hashed for a block: its header, the list of its uncles and
    the nodes of the trie of its transactions. *)
Definition body_nodes (b : Block) : list (list byte) := items_nodes cr Transactions_GetRlp (b_transactions b).
Definition hashed (b : Block) : list (list byte) :=
  enc_val (rlp_val (b_header b)) :: enc_val (val_as (slice_rlp header_rlp) (b_uncles b)) :: body_nodes b.

(** The hash tells what is hashed for one block from what is hashed for the other, and no
    trie node from the root of the empty trie. *)
Record told_apart (b1 b2 : Block) : Prop := {
  ta_hashes : forall x y, x ∈ hashed b1 -> y ∈ hashed b2 -> keccak256 cr x = keccak256 cr y -> x = y;
  ta_empty : forall x, x ∈ body_nodes b1 \/ x ∈ body_nodes b2 -> BytesToHash (keccak256 cr x) <> Trie.emptyRoot
}.

Lemma valid_bodies_equal b1 b2 p1 p2 p3 q1 q2 q3 : decoded_block b1 -> decoded_block b2 -> told_apart b1 b2 ->
  ValidateBody cr p1 p2 p3 b1 = Ok None -> ValidateBody cr q1 q2 q3 b2 = Ok None -> Block_Hash cr b1 = Block_Hash cr b2 -> b1 = b2.
Proof.
  intros H1 H2 [Hsep Hempty] V1 V2 E. apply ValidateBody_roots in V1 as [U1 T1], V2 as [U2 T2].
  destruct (decoded_sizes b1 H1) as (S1 & SU1 & L1 & F1), (decoded_sizes b2 H2) as (S2 & SU2 & L2 & F2).
  destruct H1 as [(R1 & _ & W1) _], H2 as [(R2 & _ & W2) _]. unfold hashed in Hsep.
  assert (b_header b1 = b_header b2) as Eh.
  { apply (rlpHash_binding cr Hk); [done|done|unfold MaxUint64; lia..|apply Hsep; left|exact E]. }
  assert (b_uncles b1 = b_uncles b2) as Eu.
  { apply (@rlpHash_binding cr Hk _ _ (slice_laws header_rlp header_laws)); [done|done|unfold MaxUint64; cbn in *; lia..|apply Hsep; right; left|].
    rewrite Eh in U1. exact (eq_trans U1 (eq_sym U2)). }
  assert (b_transactions b1 = b_transactions b2) as Et.
  { apply txs_encs_inj; [done|done|]. apply (DeriveSha_bind cr Hk Transactions_GetRlp _ _ _ _ (txs_encs _ F1) (txs_encs _ F2) L1 L2); [|exact Hempty|by rewrite T1, T2, Eh].
    intros x y Hx Hy. apply Hsep; right; right; done. }
  destruct b1, b2. cbn in *. congruence.
Qed.

(** C11. The hash of a block binds its body: of two blocks with the same hash, if the body of
    one is valid then validation returns an error for the other, whatever the chains and
    engines, when the blocks differ and the hash function has no collision among the byte
    strings that are hashed for the two. *)
Theorem ValidateBody_binds b1 b2 p1 p2 p3 q1 q2 q3 (H1 : decoded_block b1) (H2 : decoded_block b2) (Hsep : told_apart b1 b2)
    (V1 : ValidateBody cr p1 p2 p3 b1 = Ok None) (E : Block_Hash cr b1 = Block_Hash cr b2) (Hne : b1 <> b2) :
  exists e, ValidateBody cr q1 q2 q3 b2 = Ok (Some e).
Proof.
  destruct (ValidateBody_total q1 q2 q3 b2 H2) as [[e|] Er]; [by exists e|]. destruct Hne. by apply (valid_bodies_equal b1 b2 p1 p2 p3 q1 q2 q3).
Qed.

(** A block that [NewBlock] assembles has the roots of its body: validation of the body
    is left with the queries to the chain and the rules of the engine for uncles. *)
Theorem NewBlock_validates header txs uncles receipts b q1 q2 v (number := u64 (h_Number header))
    (E : NewBlock cr header txs uncles receipts = Ok b) :
  b_transactions b = txs /\ b_uncles b = uncles /\
  ValidateBody cr q1 q2 v b =
    Ok (if q1 (Block_Hash cr b) number then Some ErrKnownBlock
        else match v b with
             | Some e => Some (engineErr e)
             | None => if q1 (h_ParentHash header) (u64 (number - 1)) then None
                       else Some (if q2 (h_ParentHash header) (u64 (number - 1)) then ErrPrunedAncestor else errUnknownAncestor)
             end).
Proof.
  unfold NewBlock in E. destruct (match txs with [] => _ | _ => _ end) as [txHash| |] eqn:Et; cbn [obind] in E; [|done..].
  assert (DeriveSha cr Transactions_GetRlp txs = Ok txHash) as Ht by (by destruct txs).
  destruct (match receipts with [] => _ | _ => _ end) as [[rh bl]| |]; cbn [obind] in E; [|done..]. injection E as <-.
  split; [done|]. split; [done|]. unfold ValidateBody. cbn [b_header b_uncles b_transactions with_roots h_Number h_UncleHash h_TxHash h_ParentHash].
  fold number. destruct (q1 _ number); [done|]. destruct (v _); [done|].
  assert (CalcUncleHash cr uncles = match uncles with [] => EmptyUncleHash cr | _ => CalcUncleHash cr uncles end) as <- by (by destruct uncles).
  rewrite Z.eqb_refl, Ht. cbn [negb obind]. rewrite Z.eqb_refl. cbn [negb]. destruct (q1 _ _); [done|]. cbn [negb]. by destruct (q2 _ _).
Qed.
End roots.

Section engines.
Context {S : Type} `{StateDB S} `{BlockDB S} {cr : Crypto} `{!StateDBLaws S cr} `{!LedgerLaws S cr} `{!BlockLaws S cr}.
Context (Hk : forall d, zlen (keccak256 cr d) = 32) (config : ChainConfig).

(** The end of both engines: the root of the state and the block. *)
Lemma root_block_ok k s s0 txs uncles receipts del (f : Hash -> Header) : Forall (fun r => is_u64 (r_CumulativeGasUsed r)) receipts ->
  state_ok s -> mints k s0 s ->
  oversized txs receipts \/
  exists b s', (let! (root, state) := IntermediateRoot del s in let! block := NewBlock cr (f root) txs uncles receipts in Ok (block, state)) = Ok (b, s') /\
    state_ok s' /\ mints k s0 s'.
Proof.
  intros Hr Hs Hm. destruct (root_mints (cr := cr) del s Hs) as (root & s' & -> & Hs' & Hm'). cbn [obind].
  destruct (NewBlock_ok cr Hk (f root) txs uncles receipts Hr) as [[b ->]|]; [right|by left]. cbn [obind]. exists b, s'. split; [done|]. split; [done|].
  by eapply mints_before.
Qed.

(** The rewards of a block, without those it has under Clique. *)
#[export] Instance ethash_laws : EngineLaws (cr := cr) (ethash_engine cr config) (total_reward config).
Proof.
  split; [done|]. intros s header txs uncles receipts Hs [Hc Hu] Hr. cbn [Finalize ethash_engine]. unfold Ethash_Finalize.
  destruct (accumulateRewards_ok (cr := cr) config s header uncles Hs Hc Hu) as [Hs1 Hm].
  apply (root_block_ok (total_reward config header uncles)); [done|done|]. exists (h_Coinbase header :: map h_Coinbase uncles). split.
  - apply Forall_cons_2; [done|]. apply Forall_map, Forall_forall. intros u Hin. by apply Hu.
  - intros L Hnd _ Hsub. rewrite Hm; [lia|done|apply Hsub; left|]. intros u Hin. apply Hsub. right. by apply list_elem_of_fmap_2.
Qed.

#[export] Instance clique_laws : EngineLaws (cr := cr) (clique_engine cr config) (fun _ _ => 0).
Proof.
  split.
  - intros h _. cbn [Author clique_engine]. unfold recover_signer. destruct (_ <? _); [done|].
    destruct (secp256k1_recover _ _ _); [apply BytesToAddress_range|done].
  - intros s header txs uncles receipts Hs _ Hr. cbn [Finalize clique_engine]. unfold Clique_Finalize.
    apply (root_block_ok 0 s s txs [] receipts _ (fun root => with_uncleHash (with_root header root) (CalcUncleHash cr []))); [done|done|].
    apply no_mint_mints. reflexivity.
Qed.
End engines.

(** ** Transactions and blocks *)

(** The documented sizes of the cryptographic functions. *)
Record primitives (cr : Crypto) : Prop := {
  pr_keccak : forall d, zlen (keccak256 cr d) = 32;
  pr_sha256 : forall d, zlen (sha256 cr d) = 32;
  pr_ripemd160 : forall d, zlen (ripemd160 cr d) = 20;
  pr_marshal : forall p, zlen (G1_Marshal cr p) = 64;
  pr_recover : forall h s p, secp256k1_recover cr h s = Some p -> 1 <= zlen p
}.

Lemma AsMessage_cases cr s tx :
  (exists e o, AsMessage cr s (mkTxObject tx None None) = Ok (Err e, o)) \/
  exists a o, is_address a /\ AsMessage cr s (mkTxObject tx None None) =
    Ok (Good (mkMessage a (tx_Recipient tx) (tx_Price tx) (tx_GasLimit tx) (tx_Amount tx) (tx_AccountNonce tx) true (tx_Payload tx)), o).
Proof.
  unfold AsMessage, Sender. cbn [obj_from obj_data obj_hash]. destruct (Signer_Sender_total cr s tx) as [r E]. rewrite E. cbn [obind].
  destruct r as [a|e]; [right|left; by eexists _, _]. exists a. eexists. split; [by eapply Signer_Sender_address|done].
Qed.

Section process.
Context {S : Type} `{StateDB S} `{BlockDB S} {cr : Crypto} `{!StateDBLaws S cr} `{!LedgerLaws S cr} `{!BlockLaws S cr}.
Context (Hpr : primitives cr) (config : ChainConfig) (noRecursion preimages : bool) (getHeader : Hash -> Z -> option Header).
Context (Hheaders : forall hash number header, getHeader hash number = Some header -> 0 <= h_ParentHash header).
Context (engine : Engine S) (reward : Header -> list Header -> Z) `{!EngineLaws (cr := cr) engine reward}.

(** Blocks as they are decoded, with gas and data below [2 ^ 62]. *)
Record block_fits (block : Block) : Prop := {
  bf_limit : 0 <= h_GasLimit (b_header block) < max_gas;
  bf_parent : 0 <= h_ParentHash (b_header block);
  bf_reward : rewardable (b_header block) (b_uncles block);
  bf_txs : forall tx, tx ∈ b_transactions block -> rlp_valid tx /\ zlen (tx_Payload tx) < 2 ^ 62
}.

Lemma context_ok walk m header : is_address (msg_From m) -> 0 <= msg_GasPrice m -> is_address (h_Coinbase header) -> 0 <= h_ParentHash header ->
  env_ok (NewEVMContext cr config noRecursion preimages getHeader engine walk m header None).
Proof.
  intros Hf Hp Hc Hh. split; cbn [CanTransfer Transfer GetHash Origin GasPrice Coinbase crypto NewEVMContext]; try done.
  - intros n. destruct (GetHashFn getHeader walk header None n) as [[h c]| |] eqn:E; [|done..]. by eapply GetHashFn_nonneg.
  - by apply author_address.
  - intros d. rewrite (pr_keccak _ Hpr). lia.
  - apply Hpr.
  - apply Hpr.
  - apply Hpr.
  - apply Hpr.
Qed.
(** The ways in which a block can make the machine panic. *)
Definition machine_panics (number : Z) : Prop :=
  rules_IsConstantinople (ChainConfig_Rules config number) = true \/ IsEWASM config number = true \/
  exists c1 c2, c1 <> c2 /\ zlen c1 < 2 ^ 62 /\ zlen c2 < 2 ^ 62 /\ Keccak256Hash cr c1 = Keccak256Hash cr c2.

(** What a transaction applied with the pool [gp] to [s] leaves. *)
Definition tx_post (tx : Transaction) (gp : GasPool) (s : S) (usedGas : Z) (r : result process_error (Receipt * Z)) (p : progress (S := S)) : Prop :=
  let '(gp', s', usedGas') := p in
  state_ok s' /\
  match r with
  | Err _ => True
  | Good (receipt, gas) =>
      mints 0 s s' /\ 0 <= gas <= gp /\ gp' = gp - gas /\ usedGas' = usedGas + gas /\
      r_GasUsed receipt = gas /\ r_CumulativeGasUsed receipt = usedGas' /\ r_TxHash receipt = Tx_Hash cr tx /\
      CreateBloom cr [receipt] = Ok (r_Bloom receipt)
  end.

Lemma ApplyTransaction_ok fuel walk gp s header tx usedGas :
  state_ok s -> rlp_valid tx -> zlen (tx_Payload tx) < 2 ^ 62 -> is_address (h_Coinbase header) -> 0 <= h_ParentHash header ->
  0 <= gp -> 0 <= usedGas -> gp + usedGas < max_gas -> gp < Z.of_nat fuel ->
  match ApplyTransaction cr config noRecursion preimages getHeader engine fuel walk None gp s header tx usedGas with
  | Ok (r, p) => tx_post tx gp s usedGas r p
  | Panic => machine_panics (h_Number header)
  | OutOfFuel => False
  end.
Proof.
  intros Hs Htx Hpay Hc Hh Hgp Hu Hmax Hfuel. unfold ApplyTransaction. destruct (AsMessage_cases cr (MakeSigner config (h_Number header)) tx) as [(e & o & ->)|(a & o & Ha & ->)]; cbn [obind]; [by split|].
  set (m := mkMessage _ _ _ _ _ _ _ _). destruct Htx as (_ & Hprice & Hgas & Hto & Hval & _).
  set (env := NewEVMContext cr config noRecursion preimages getHeader engine walk m header None).
  assert (env_ok env) as Henv by (by apply context_ok).
  unfold NewEVM. change (IsEWASM (chainConfig env) (BlockNumber env)) with (IsEWASM config (h_Number header)).
  destruct (IsEWASM config (h_Number header)) eqn:Ew; cbn [obind]; [by right; left|].
  destruct (decide (gp < msg_Gas m)) as [Hover|Hfits].
  { destruct (ApplyMessage_over env (Run env fuel) (fresh_evm s) m gp Hover) as [err ->]. cbn [obind]. by split. }
  assert (message_ok m) as Hm.
  { split; cbn [msg_From msg_To msg_GasPrice msg_Gas msg_Value msg_Data m]; try done; [|unfold is_u64 in Hgas; cbn in Hfits; lia].
    intros b Eb. rewrite Eb in Hto. exact Hto. }
  assert (evm_ok env (fresh_evm s)) as He by (split; [done|intros h bits _; cbn; by rewrite lookup_empty]).
  pose proof (ApplyMessage_post env Henv fuel (fresh_evm s) m gp Hm He) as Hpost.
  unfold static in Hpost. cbn [readOnly fresh_evm] in Hpost. rewrite andb_false_r in Hpost.
  specialize (Hpost eq_refl ltac:(unfold is_u64, MaxUint64; change max_gas with 4611686018427387904 in Hmax; lia) ltac:(lia)).
  destruct (ApplyMessage env (Run env fuel) (fresh_evm s) m gp) as [[[[[ret gas] failed] err] st]| |]; cbn [obind post] in *; [|unfold machine_panics; tauto|done].
  destruct Hpost as (Hevm & Hmint & Herr). pose proof (eo_state Hevm : state_ok (st_state st)) as Hs1. destruct err as [e|]; [by split|].
  destruct Herr as (Egp & Hused & _). cbn [msg_Gas m] in Hused, Hfits.
  assert (exists root s2, (if IsByzantium config (h_Number header) then let! statedb := Finalise true (st_state st) in Ok ([], statedb)
     else let! (root, statedb) := IntermediateRoot (IsEIP158 config (h_Number header)) (st_state st) in Ok (Hash_Bytes root, statedb)) = Ok (root, s2) /\
     state_ok s2 /\ mints 0 (st_state st) s2) as (root & s2 & -> & Hs2 & Hm2).
  { destruct (IsByzantium config (h_Number header)).
    - destruct (finalise_mints (cr := cr) true (st_state st) Hs1) as (s2 & -> & Hx). by exists [], s2.
    - destruct (root_mints (cr := cr) (IsEIP158 config (h_Number header)) (st_state st) Hs1) as (root & s2 & -> & Hx). by exists (Hash_Bytes root), s2. }
  cbn [obind]. rewrite (u64_small (usedGas + gas)) by (unfold is_u64, MaxUint64; change max_gas with 4611686018427387904 in Hmax; lia).
  match goal with |- context [CreateBloom cr [?r]] => destruct (CreateBloom_ok cr (pr_keccak _ Hpr) [r]) as [bloom Eb]; rewrite Eb end.
  cbn [obind tx_post]. split; [done|]. split; [eapply mints_after; [by apply no_mint_mints|done]|]. split; [lia|]. split; [done|]. split; [done|].
  split; [done|]. split; [done|]. split; [done|]. exact Eb.
Qed.
Definition gas_sum (receipts : list Receipt) : Z := foldr (fun r n => r_GasUsed r + n) 0 receipts.

(** The receipts of [txs] from [usedGas] on: one for each transaction, with its hash, the
    bloom filter of its logs, and the running total of the gas. *)
Record receipts_of (txs : list Transaction) (usedGas : Z) (receipts : list Receipt) (logs : list Log) : Prop := {
  ro_each : Forall2 (fun tx r => r_TxHash r = Tx_Hash cr tx /\ CreateBloom cr [r] = Ok (r_Bloom r) /\ 0 <= r_GasUsed r) txs receipts;
  ro_total : forall i r, receipts !! i = Some r -> r_CumulativeGasUsed r = usedGas + gas_sum (take (Datatypes.S i) receipts);
  ro_logs : logs = concat (map r_Logs receipts)
}.

Lemma receipts_cons tx txs usedGas r receipts logs : r_TxHash r = Tx_Hash cr tx -> CreateBloom cr [r] = Ok (r_Bloom r) -> 0 <= r_GasUsed r ->
  r_CumulativeGasUsed r = usedGas + r_GasUsed r -> receipts_of txs (usedGas + r_GasUsed r) receipts logs ->
  receipts_of (tx :: txs) usedGas (r :: receipts) (r_Logs r ++ logs).
Proof.
  intros H1 H2 H3 H4 [R1 R2 R3]. split; [by constructor| |by rewrite R3].
  intros [|i] r'; cbn [lookup list_lookup take gas_sum foldr]; [intros [= <-]; rewrite take_0; cbn; lia|]. intros Hi. rewrite (R2 i r' Hi).
  unfold gas_sum. cbn [foldr]. lia.
Qed.

Lemma process_txs_ok fuel walk block txs : (forall tx, tx ∈ txs -> rlp_valid tx /\ zlen (tx_Payload tx) < 2 ^ 62) ->
  is_address (h_Coinbase (b_header block)) -> 0 <= h_ParentHash (b_header block) -> forall i gp s usedGas,
  state_ok s -> 0 <= gp -> 0 <= usedGas -> gp + usedGas < max_gas -> gp < Z.of_nat fuel ->
  match process_txs cr config noRecursion preimages getHeader engine fuel walk block i txs gp s usedGas with
  | Ok (r, (_, s', usedGas')) => state_ok s' /\
      match r with
      | Err _ => True
      | Good (receipts, logs) => mints 0 s s' /\ usedGas' = usedGas + gas_sum receipts /\ 0 <= gas_sum receipts <= gp /\ receipts_of txs usedGas receipts logs
      end
  | Panic => machine_panics (h_Number (b_header block))
  | OutOfFuel => False
  end.
Proof.
  intros Htxs Hc Hh. induction txs as [|tx txs IH]; intros i gp s usedGas Hs Hgp Hu Hmax Hfuel; cbn [process_txs].
  { split; [done|]. split; [apply no_mint_mints; reflexivity|]. unfold gas_sum. cbn [foldr]. split; [lia|]. split; [lia|]. split; [by constructor|done|done]. }
  set (s1 := Prepare s (Tx_Hash cr tx) (Block_Hash cr block) i). assert (state_ok s1) as Hs1 by (by apply prepare_ok).
  destruct (Htxs tx ltac:(left)) as [Htx Hpay]. pose proof (ApplyTransaction_ok fuel walk gp s1 (b_header block) tx usedGas Hs1 Htx Hpay Hc Hh Hgp Hu Hmax Hfuel) as Ht.
  destruct (ApplyTransaction _ _ _ _ _ _ _ _ _ _ _ _ _ _) as [[r [[gp2 s2] used2]]| |]; cbn [obind]; [|done..].
  destruct Ht as [Hs2 Hr]. destruct r as [[receipt gas]|e]; [|done]. destruct Hr as (Hm & Hg & -> & -> & Eg & Ec & Eh & Eb).
  specialize (IH ltac:(intros t Hin; apply Htxs; by right) (i + 1) (gp - gas) s2 (usedGas + gas) Hs2 ltac:(lia) ltac:(lia) ltac:(lia) ltac:(lia)).
  destruct (process_txs _ _ _ _ _ _ _ _ _ _ _ _ _ _) as [[rs [[gp3 s3] used3]]| |]; cbn [obind]; [|done..].
  destruct IH as [Hs3 Hrs]. destruct rs as [[receipts logs]|e]; [|done]. destruct Hrs as (Hm3 & -> & Hsum & Hof). split; [done|].
  split; [eapply mints_after; [apply prepare_mints|by eapply mints_after]|].
  assert (gas_sum (receipt :: receipts) = gas + gas_sum receipts) as -> by (unfold gas_sum; cbn [foldr]; lia).
  split; [lia|]. split; [lia|]. apply receipts_cons; try done; [lia|lia|by rewrite Eg].
Qed.

Lemma gas_sum_take txs receipts usedGas logs i : receipts_of txs usedGas receipts logs -> 0 <= gas_sum (take i receipts) <= gas_sum receipts.
Proof.
  intros [Hr _ _]. revert i. induction Hr as [|tx r txs' receipts' (_ & _ & Hg) Hr IH]; intros i; [by rewrite take_nil|].
  unfold gas_sum in *. destruct i as [|i]; cbn [take foldr]; [specialize (IH 0%nat); rewrite take_0 in IH; cbn in IH; lia|]. specialize (IH i). lia.
Qed.

(** The transactions of a block are accepted with encodings or receipts that do not fit the
    tries the roots are computed with: empty, 4 GiB and more, or more than [2 ^ 62] of them. *)
Definition oversized_block (fuel walk : nat) (block : Block) (s : S) : Prop :=
  let header := b_header block in
  let s0 := if DAOForkSupport config && bool_decide (DAOForkBlock config = Some (h_Number header)) then ApplyDAOHardFork s else s in
  exists receipts logs p, process_txs cr config noRecursion preimages getHeader engine fuel walk block 0 (b_transactions block)
    (h_GasLimit header) s0 0 = Ok (Good (receipts, logs), p) /\ oversized (b_transactions block) receipts.

(** C5. The books of a block.  Processing a block that fits ends.  If every transaction is
    accepted there is one receipt for each, in order, with the hash of the transaction and
    the bloom filter of its logs, the cumulative gas of a receipt is the sum up to it, the
    used gas is the sum over the block and stays within the gas limit, the logs are those of
    the receipts in order, the state keeps its invariant, and whatever the transactions do,
    the ether grows by at most the reward of the engine.  An error leaves a state with the
    invariant, and a panic is possible only under rules the machine does not support or for
    colliding code hashes.  The one exception is a block whose encodings do not fit the tries
    its roots are computed with. *)
Theorem Process_books fuel walk block s (header := b_header block)
    (Hs : state_ok s) (Hb : block_fits block) (Hfuel : h_GasLimit header < Z.of_nat fuel) (Hsize : ~ oversized_block fuel walk block s) :
  match Process cr config noRecursion preimages getHeader engine fuel walk block s with
  | Ok (Good (receipts, logs, usedGas), s') =>
      state_ok s' /\ mints (reward header (b_uncles block)) s s' /\
      usedGas = gas_sum receipts /\ 0 <= usedGas <= h_GasLimit header /\ receipts_of (b_transactions block) 0 receipts logs
  | Ok (Err _, s') => state_ok s'
  | Panic => machine_panics (h_Number header)
  | OutOfFuel => False
  end.
Proof.
  destruct Hb as [Hlim Hpar Hrew Htxs]. unfold oversized_block in Hsize. unfold Process. fold header in Hlim, Hpar, Hrew, Hsize |- *.
  unfold AddGas. change max_gas with 4611686018427387904 in Hlim.
  rewrite (proj2 (Z.ltb_ge _ _)) by (unfold MaxUint64; lia). rewrite Z.add_0_l. cbn [obind]. cbv zeta in Hsize.
  set (s0 := if _ && _ then _ else _) in *. assert (state_ok s0 /\ mints 0 s s0) as [Hs0 Hm0].
  { subst s0. destruct (_ && _); [split; [by apply (ApplyDAOHardFork_ok (cr := cr))|by apply (dao_mints (cr := cr))]|]. split; [done|]. apply no_mint_mints. reflexivity. }
  pose proof (process_txs_ok fuel walk block (b_transactions block) Htxs (proj1 Hrew) Hpar 0 (h_GasLimit header) s0 0 Hs0
    ltac:(lia) ltac:(lia) ltac:(change max_gas with 4611686018427387904; lia) Hfuel) as Hp.
  destruct (process_txs _ _ _ _ _ _ _ _ _ _ _ _ _ _) as [[r [[gp1 s1] used1]]| |] eqn:Ep; cbn [obind]; [|done..].
  destruct Hp as [Hs1 Hr]. destruct r as [[receipts logs]|e]; [|done]. destruct Hr as (Hm1 & -> & Hsum & Hof).
  destruct (finalize_ok s1 header (b_transactions block) (b_uncles block) receipts Hs1 Hrew) as [Ho|(b & s2 & -> & Hs2 & Hm2)].
  - apply Forall_lookup. intros i r Hi. rewrite (ro_total _ _ _ _ Hof i r Hi). pose proof (gas_sum_take _ _ _ _ (Datatypes.S i) Hof). unfold is_u64, MaxUint64. lia.
  - destruct Hsize. by exists receipts, logs, (gp1, s1, 0 + gas_sum receipts).
  - cbn [obind]. split; [done|]. split; [eapply mints_after; [done|by eapply mints_after]|]. split; [lia|]. split; [lia|done].
Qed.
End process.

(** ** A block with one transfer *)

Module Example.
#[local] Instance toy_state_db : StateDB MemState := state_db toy_crypto.
#[local] Instance toy_state_laws : StateDBLaws MemState toy_crypto := state_laws toy_crypto mem_hash_length.
#[local] Instance toy_ledger : @LedgerLaws MemState toy_state_db toy_crypto toy_state_laws := state_ledger toy_crypto mem_hash_length.
#[local] Instance toy_block_db : BlockDB MemState := block_db toy_crypto.
#[local] Instance toy_block_laws : @BlockLaws MemState toy_state_db toy_block_db toy_crypto toy_state_laws := state_blocks toy_crypto mem_hash_length.

Definition transfer : Transaction := mkTransaction 0 2 21000 (Some 0xbeef) 10 [] 27 5 6.
Definition transfer_header : Header :=
  mkHeader 1 2 3 4 5 6 (replicate 256 Byte.x00) 131072 100 30000 21000 1500000000 [] 0 (replicate 8 Byte.x00).
Definition transfer_block : Block := mkBlock transfer_header [] [transfer].
Definition funded : MemState := AddBalance empty_state (address_of toy_crypto [z2b 2]) 1000000.
Definition transfer_engine : Engine MemState := ethash_engine toy_crypto MainnetChainConfig.
#[local] Instance transfer_laws : EngineLaws (cr := toy_crypto) transfer_engine (total_reward MainnetChainConfig).
Proof. apply ethash_laws. apply mem_hash_length. Qed.
Definition transfer_fuel : nat := Z.to_nat 30001.

Lemma toy_primitives : primitives toy_crypto.
Proof.
  split; [apply mem_hash_length|apply mem_hash_length| |done|].
  - intros d. cbn [ripemd160 toy_crypto mem_crypto]. pose proof (mem_hash_length d) as E. unfold zlen in *. rewrite length_take. lia.
  - intros h s p. cbn [secp256k1_recover toy_crypto]. case_bool_decide; intros [= <-]; by vm_compute.
Qed.

Lemma funded_ok : state_ok (StateDBLaws := toy_state_laws) funded.
Proof. apply (add_ok (cr := toy_crypto)); [apply empty_world_ok|by vm_compute|done]. Qed.

Lemma transfer_fits : block_fits transfer_block.
Proof.
  split; [by vm_compute|by vm_compute|split; [by vm_compute|by intros u ?%not_elem_of_nil]|].
  intros tx ->%list_elem_of_singleton. split; [|done]. vm_compute. intuition discriminate.
Qed.

#[local] Instance storable_decision b : Decision (storable b).
Proof. unfold storable. apply _. Defined.
Definition receipt_fits (r : Receipt) : bool :=
  match Receipts_GetRlp r with Ok b => bool_decide (storable b) | _ => false end.

Lemma transfer_small : ~ oversized_block (cr := toy_crypto) MainnetChainConfig false false (fun _ _ => None) transfer_engine transfer_fuel 0 transfer_block funded.
Proof.
  intros (receipts & logs & p & E & Ho).
  assert (match process_txs toy_crypto MainnetChainConfig false false (fun _ _ => None) transfer_engine transfer_fuel 0 transfer_block 0
      (b_transactions transfer_block) (h_GasLimit transfer_header) funded 0 with
    | Ok (Good (receipts, _), _) => forallb receipt_fits receipts && (zlen receipts <? 2) | _ => false end = true) as Hv by (vm_compute; reflexivity).
  change (process_txs toy_crypto MainnetChainConfig false false (fun _ _ => None) transfer_engine transfer_fuel 0 transfer_block 0
      (b_transactions transfer_block) (h_GasLimit transfer_header) funded 0 = Ok (Good (receipts, logs), p)) in E.
  rewrite E in Hv. apply andb_true_iff in Hv as [Hf Hl%Z.ltb_lt]. destruct Ho as [Ho|[Ho|[Ho|Ho]]]; [..|lia].
  - apply Exists_exists in Ho as (tx & ->%list_elem_of_singleton & b & Eb & Hb). destruct Hb.
    assert (match Transactions_GetRlp transfer with Ok b => bool_decide (storable b) | _ => false end = true) as Ht by (vm_compute; reflexivity).
    rewrite Eb in Ht. by apply bool_decide_eq_true in Ht.
  - apply Exists_exists in Ho as (r & Hin & b & Eb & Hb). destruct Hb. rewrite forallb_forall in Hf. apply list_elem_of_In in Hin.
    specialize (Hf r Hin). unfold receipt_fits in Hf. rewrite Eb in Hf. by apply bool_decide_eq_true in Hf.
  - vm_compute in Ho. discriminate Ho.
Qed.

(** The transfer is paid for and the block earns no more than its reward. *)
Lemma Process_books_witness :
  exists receipt logs s', Process toy_crypto MainnetChainConfig false false (fun _ _ => None) transfer_engine transfer_fuel 0 transfer_block funded =
      Ok (Good ([receipt], logs, 21000), s') /\ state_ok (StateDBLaws := toy_state_laws) s' /\ mints (total_reward MainnetChainConfig transfer_header []) funded s' /\
    r_TxHash receipt = Tx_Hash toy_crypto transfer.
Proof.
  pose proof (Process_books toy_primitives MainnetChainConfig false false (fun _ _ => None) ltac:(intros ? ? ? [=]) transfer_engine
    (total_reward MainnetChainConfig) transfer_fuel 0 transfer_block funded funded_ok transfer_fits ltac:(vm_compute; reflexivity) transfer_small) as Hc.
  assert (match Process toy_crypto MainnetChainConfig false false (fun _ _ => None) transfer_engine transfer_fuel 0 transfer_block funded with
          | Ok (Good ([_], _, used), _) => Some used | _ => None end = Some 21000) as Hv by (vm_compute; reflexivity).
  destruct (Process _ _ _ _ _ _ _ _ _ _) as [[[[[rs logs] used]|] s']| |]; [|discriminate Hv..].
  destruct rs as [|receipt [|]]; [discriminate Hv| |discriminate Hv].
  injection Hv as ->. exists receipt, logs, s'. destruct Hc as (H1 & H2 & _ & _ & [H3 _ _]). split; [done|]. split; [done|]. split; [exact H2|].
  apply Forall2_cons_1 in H3 as [(H3 & _) _]. exact H3.
Defined.

(** The block of the transfer with its roots, and a chain that has its parent. *)
Lemma NewBlock_validates_witness : exists b, NewBlock toy_crypto transfer_header [transfer] [] [] = Ok b /\
  ValidateBody toy_crypto (fun hash _ => hash =? 1) (fun _ _ => true) (fun _ => None) b = Ok None.
Proof.
  assert (match NewBlock toy_crypto transfer_header [transfer] [] [] with Ok b => Block_Hash toy_crypto b =? 1 | _ => true end = false) as Hh
    by (vm_compute; reflexivity).
  destruct (NewBlock toy_crypto transfer_header [transfer] [] []) as [b| |] eqn:E; [|discriminate Hh..]. exists b. split; [done|].
  destruct (NewBlock_validates toy_crypto transfer_header [transfer] [] [] b (fun hash _ => hash =? 1) (fun _ _ => true) (fun _ => None) E) as (_ & _ & ->).
  cbv beta. rewrite Hh. reflexivity.
Defined.

Definition sealed_block : Block :=
  match NewBlock toy_crypto transfer_header [transfer] [] [] with Ok b => b | _ => transfer_block end.

(** The same header over a transfer of another amount. *)
Definition forged_transfer : Transaction := mkTransaction 0 2 21000 (Some 0xbeef) 8 [] 27 5 6.
Definition forged_block : Block := mkBlock (b_header sealed_block) [] [forged_transfer].

Lemma sealed_decoded tx : rlp_valid tx -> zlen (enc_val (rlp_val (mkBlock (b_header sealed_block) [] [tx]))) < 2 ^ 32 ->
  decoded_block (mkBlock (b_header sealed_block) [] [tx]).
Proof.
  intros Ht Hl. assert (rlp_valid (b_header sealed_block)) as Hh by (vm_compute; intuition discriminate).
  split; [|exact Hl]. split; [exact Hh|]. split; [exact (Forall_cons_2 _ _ _ Ht (Forall_nil_2 _))|apply Forall_nil_2].
Qed.

Lemma told_apart_check (b1 b2 : Block) :
  forallb (fun x => forallb (fun y => bool_decide (x = y) || negb (bool_decide (keccak256 toy_crypto x = keccak256 toy_crypto y))) (hashed toy_crypto b2)) (hashed toy_crypto b1) &&
  forallb (fun x => negb (BytesToHash (keccak256 toy_crypto x) =? Trie.emptyRoot)) (body_nodes toy_crypto b1 ++ body_nodes toy_crypto b2) = true ->
  told_apart toy_crypto b1 b2.
Proof.
  intros [Hs He]%andb_true_iff. rewrite forallb_forall in Hs, He. split.
  - intros x y Hx%list_elem_of_In Hy%list_elem_of_In E. specialize (Hs x Hx). rewrite forallb_forall in Hs. specialize (Hs y Hy).
    apply orb_true_iff in Hs as [Hs%bool_decide_eq_true|Hs]; [done|]. by rewrite bool_decide_true in Hs.
  - intros x Hx. specialize (He x). destruct (Z.eqb_spec (BytesToHash (keccak256 toy_crypto x)) Trie.emptyRoot) as [E|E]; [|done].
    exfalso. assert (negb true = true); [|done]. apply He, in_app_iff. rewrite <- !list_elem_of_In. tauto.
Qed.

Lemma forged_hash : Block_Hash toy_crypto sealed_block = Block_Hash toy_crypto forged_block.
Proof. unfold Block_Hash, forged_block. cbn [b_header]. reflexivity. Qed.

Lemma ValidateBody_binds_witness :
  ValidateBody toy_crypto (fun hash _ => hash =? 1) (fun _ _ => true) (fun _ => None) sealed_block = Ok None /\
  Block_Hash toy_crypto sealed_block = Block_Hash toy_crypto forged_block /\
  exists e, ValidateBody toy_crypto (fun hash _ => hash =? 1) (fun _ _ => true) (fun _ => None) forged_block = Ok (Some e).
Proof.
  assert (ValidateBody toy_crypto (fun hash _ => hash =? 1) (fun _ _ => true) (fun _ => None) sealed_block = Ok None) as V by (vm_compute; reflexivity).
  split; [exact V|]. split; [exact forged_hash|].
  apply (ValidateBody_binds toy_crypto mem_hash_length sealed_block forged_block (fun hash _ => hash =? 1) (fun _ _ => true) (fun _ => None)).
  - apply (sealed_decoded transfer); [vm_compute; intuition discriminate|vm_compute; reflexivity].
  - apply sealed_decoded; [vm_compute; intuition discriminate|vm_compute; reflexivity].
  - apply told_apart_check. vm_compute. reflexivity.
  - exact V.
  - exact forged_hash.
  - intros E. apply (f_equal b_transactions) in E. vm_compute in E. discriminate E.
Defined.

(** Block [n] has hash [100 + n]; the last is block 3. *)
Definition numbered (n : Z) : Header :=
  mkHeader (99 + n) 2 3 4 5 6 (replicate 256 Byte.x00) 131072 n 30000 0 1500000000 [] 0 (replicate 8 Byte.x00).
Definition numbered_chain (hash : Hash) (number : Z) : option Header :=
  if (0 <=? number) && (number <=? 3) && (hash =? 100 + number) then Some (numbered number) else None.

Lemma GetHashFn_ancestors_witness : exists cache', GetHashFn numbered_chain 3 (numbered 3) None 1 = Ok (101, cache') /\
  ancestor numbered_chain 102 2 1 101.
Proof.
  assert (forall hash number header, numbered_chain hash number = Some header -> u64 (h_Number header) = number /\ 0 <= number < MaxUint64) as Hn.
  { intros hash number header. unfold numbered_chain. destruct (Z.leb_spec 0 number), (Z.leb_spec number 3); cbn [andb]; [|done..].
    destruct (hash =? _); [|done]. intros [= <-]. cbn [h_Number numbered]. split; [apply u64_small; unfold is_u64|]; unfold MaxUint64; lia. }
  destruct (GetHashFn_ancestors numbered_chain Hn 3 (numbered 3) None 1 I ltac:(left; vm_compute; reflexivity)) as (h & cache' & E & _ & Ha).
  assert (match GetHashFn numbered_chain 3 (numbered 3) None 1 with Ok (h, _) => Some h | _ => None end = Some 101) as Hv by (vm_compute; reflexivity).
  rewrite E in Hv. injection Hv as ->. exists cache'. split; [exact E|]. destruct Ha as [Ha|[Ha _]]; [exact Ha|discriminate Ha].
Defined.

(** Two accounts with ether, one of them drained. *)
Lemma ApplyDAOHardFork_moves_witness : exists L, let s := AddBalance (AddBalance empty_state 7 10) (default 0 (head DAODrainList)) 32 in
  supply L (ApplyDAOHardFork s) = supply L s /\ GetBalance (ApplyDAOHardFork s) 7 = 10 /\ GetBalance (ApplyDAOHardFork s) DAORefundContract = 32.
Proof.
  exists (DAORefundContract :: DAODrainList). cbv zeta. set (s := AddBalance _ _ 32).
  assert (state_ok (StateDBLaws := toy_state_laws) s) as Hs.
  { apply (add_ok (cr := toy_crypto)); [|by vm_compute|done]. apply (add_ok (cr := toy_crypto)); [apply empty_world_ok|by vm_compute|done]. }
  destruct (ApplyDAOHardFork_moves (cr := toy_crypto) s (DAORefundContract :: DAODrainList) Hs) as [H1 H2].
  - apply (bool_decide_unpack _). vm_compute. exact I.
  - left.
  - intros a Ha. by right.
  - split; [exact H1|]. split; [rewrite H2 by done|]; vm_compute; reflexivity.
Defined.
End Example.
